(* ===== verification/_CoqProject ===== *)
-Q . S2P
Prelude.v
Text.v
Fp.v
RoccCmd.v
RuntimeIpc.v
CmdServer.v
DeviceAllocator.v
AxiCtrl.v
AxiTypes.v
ChipkitUart.v
MemImage.v
DataServer.v
DataProtocol.v
DataBuilds.v
RemotePtr.v
Channels.v
MemCtrl.v
Tick.v
DmaEngine.v
SimLoop.v
DdrClock.v
VpiFront.v
DramCommon.v
Ini.v
DramBank.v
ChannelState.v
SimpleStats.v
Power.v
Thermal.v
ThermalFacts.v
ThermalReplay.v
ThermalSolver.v
Temperatures.v
CommandQueue.v
DramController.v
DramSystem.v
MemOnDram.v
Hmc.v
TraceCpu.v
MemorySystem.v
FpgaHandle.v
Mmio.v
SingletonLock.v
Startup.v
ChipSim.v
