(* ===== verification/Prelude.v ===== *)
(** * Beethoven: the client library, the simulation runtime and its DRAM simulator

    Beethoven runs accelerators behind a command interface.  A program links
    [libbeethoven] and talks, over two files in shared memory, to a daemon: the
    runtime.  On a real card the daemon forwards commands to the hardware; in
    simulation it drives a Verilator, VCS or Icarus model of it, clock by clock,
    and DRAMsim3 times the memory behind the model's AXI ports.  This library
    models the C++ of the three (under [src/libbeethoven], [src/runtime] and
    [src/runtime/DRAMsim3]) as executable functions and transition systems and
    proves what each part promises to its neighbours.

    ** How the parts interact

<<
      client program
        rocc_cmd, response_handle, remote_ptr          RoccCmd, CmdServer, RemotePtr
        fpga_handle_t, buffers on a card               FpgaHandle
            |  cmd_server_file, data_server_file       RuntimeIpc
      daemon
        start            the mains, singleton_lock.cc  Startup, SingletonLock
        command thread   cmd_server.cc                 CmdServer
        on a card        response_poller.cc, mmio.cc   Mmio
        data thread      data_server.cc                DataServer over DeviceAllocator, DataProtocol,
                                                       DataBuilds
        front end        state_machine.h, util.cc      AxiCtrl (AXI), ChipkitUart, MemImage (UART)
        clock            tick.cc, mem_ctrl.cc          Tick, MemCtrl, DmaEngine over Channels
        simulation       the front ends' loops         SimLoop (Verilator), VpiFront (VPI), ChipSim
            |  AddTransaction, ClockTick, callbacks    MemCtrl.DramSystem, MemOnDram
      DRAMsim3
        on its own       cpu.cc, main.cc               TraceCpu
        memory system    memory_system.cc              MemorySystem
        its kinds        dram_system.cc, hmc.cc        DramSystem, Hmc
        channel          controller.cc, refresh.cc     DramController
        command queues   command_queue.cc              CommandQueue
        banks, timing    channel_state.cc, bankstate.cc, timing.cc   ChannelState, DramBank
        configuration    configuration.cc, INIReader.h DramCommon, Ini
        statistics       simple_stats.cc               SimpleStats, Power
        heat             thermal.cc, thermal_replay.cc Thermal, ThermalFacts, ThermalReplay
        temperatures     thermal.cc, thermal_solver.c  Temperatures, ThermalSolver
>>

    ** Conventions

    A C++ integer is a [Z]; each operation that can leave its type is followed by
    the wrap to its width ([u8] .. [u64], [s32]).  A [double] is a binary64 value
    of [SpecFloat], rounded at every operation.  Code that can fail returns an
    [outcome]: [Done], a thrown exception, the end of the program with its exit
    code, undefined behaviour ([Undef]: an access out of range, a division by
    zero), or [Stuck], the value of a loop whose fuel ran out and of a thread that
    waits for a lock nobody will release.  No theorem assumes that fuel suffices:
    where a loop has fuel, a lemma shows it.  The theorems on the whole simulation
    are about the rounds that return; [SimLoop] shows when one does not.  State is passed explicitly; code that
    other threads interleave with is a relation, one step for each stretch of
    code between two blocking operations.  Code outside [src/], the hardware
    model and the C library appear as arguments (wires, random numbers, mapped
    addresses) or as classes with laws, each of them with an instance.

    ** The files

    - [Prelude]: integers, the monad [outcome], vectors indexed by [Z]
      ([vget], [vset]: out of range is [Undef]), tactics and hint databases.
    - [RoccCmd]: [rocc_cmd], [rocc_response].  Packing a command the range
      checks accept loses nothing, and a response decodes to what was encoded.
    - [RuntimeIpc]: the two shared files and their initialisers.
    - [CmdServer]: the command thread, the clients' side of [send],
      [get_response], [try_get_response], [shutdown], and [response_getter].
      Every interleaving without a [shutdown] is a run of a machine of 256 response
      slots; a client gets a response of the system and core (in eight bits) of its
      command, slots are exclusive, commands of a
      core are answered in order, and with at most 256 clients every send under way
      can end.  The bound of 256 outstanding commands is sharp, and a [shutdown] can
      break all of this: both are shown.
    - [DeviceAllocator]: the allocator of the card's memory.  Blocks of a
      sequence of [malloc]s are disjoint, inside the memory and aligned, for memories
      of 2 MiB to 4 GiB; a [free] outside the first superblock breaks this, and so
      does a larger memory.
    - [AxiCtrl]: the three state machines that share the AXI-Lite control bus.
      Commands are written in order and in full, responses are read in order, at
      most one machine owns the bus.
    - [AxiTypes]: the variables of those machines stay inside their C++ types.
    - [ChipkitUart]: the UART front end; the waveform of a byte, and that it can
      be read back in the middle of each bit.
    - [Text]: characters and numbers as the C library reads and prints them.
    - [Fp]: [double] and [float] as binary64 and binary32, their conversions, and
      [strtod].
    - [MemImage]: memory images for the chip: every word of an image becomes one
      write command.
    - [DataServer]: requests of the clients and address translation, over an
      allocator given by its promises.  Addresses translate to their own buffer;
      a DMA transfer is covered exactly once.
    - [DataProtocol]: any number of clients and the data thread over the shared file.
      Every interleaving is a sequential run of the requests and every client gets
      the reply to its own; a [malloc] that throws stops all of them.
    - [DataBuilds]: the data thread without allocator, without DMA and on an AWS card.
    - [RemotePtr]: reference-counted pointers to mapped memory.
    - [Channels]: wires of Verilator and VPI models and the AXI channel templates.
    - [MemCtrl], [Tick], [DmaEngine]: AXI bursts cut into DRAM transactions and
      put together again in order; one cycle of every memory channel; the DMA
      port.
    - [SimLoop]: the Verilator loop over the controller, the channels, the DMA
      port and a design that is a parameter.  At its clock edges the design takes
      over what the commands ask for, in order, until a flush or a shutdown ends the
      loop; after a flush every command before it has been written, after a shutdown
      the rest is lost, and a shutdown in the wrong moment blocks the loop for ever.
      Its channels are those of [Tick]; the clock and the times of the waveform.
    - [DdrClock]: the clocks of the memory in a clock of the design, as the
      accumulator in binary32 counts them.
    - [VpiFront]: the system tasks of event-driven simulators: nets tied by name,
      constant ports, the first cycle.
    - [Startup]: the mains: command line, lock, servers, memory configuration.  A
      runtime that is refused the lock touches nothing.
    - [ChipSim]: the chipkit simulation.  Loading over the serial line ends with
      every byte sent; the program as it is written never gets that far.
    - [DramCommon]: configuration, address mapping (a bijection whatever the
      order of the fields).
    - [Ini]: the reader of configuration files, characters in, settings out: it
      ends on every file, and what was written section by section is read back.
    - [DramBank], [ChannelState]: banks and the timing tables.  Every entry that
      [UpdateTiming] applies is respected (one is never applied), rows are opened before they are used, activations keep their
      windows, and a request always gets an answer.
    - [SimpleStats], [CommandQueue], [DramController], [DramSystem]: queues,
      scheduling, refresh and completion.  Without dual commands (which the shipped
      HBM parts have) and self refresh no clock ends the program,
      transactions are neither lost nor made up, and each pending one has exactly
      one job in the queues; with them a transaction can be lost.
    - [Power]: the energy increments of a configuration and the energies, averages
      and bandwidths of the statistics, operation by operation in binary64.
    - [Thermal], [ThermalFacts]: the floor plan of the die, the location mapping
      and the energy that commands, refreshes and the background book in the power
      maps.  For the devices whose banks lie inside the plan, banks tile the die, the
      mapping loses no address, a command heats
      cells of its bank only, and refresh counters sweep the rows; the theorems
      also show which configurations and commands the code places elsewhere.
    - [ThermalReplay]: the program that replays a trace of commands: every cycle of
      every rank is accounted for once, and what is read back from a recorded line.
    - [ThermalSolver]: the network of thermal resistances.  The sparse arrays that
      SuperLU is given hold exactly that network, and the blocked loops over time
      are explicit Euler steps, node by node.
    - [Temperatures]: the time step, the temperatures of the epochs and of the run.
      The step is below the time constant of every node; epochs and runs of stacked
      memories return, with the power of each cell placed where its temperature is
      read (finally) or transposed (in an epoch).
    - [Hmc]: the hybrid memory cube: links, crossbar, quads and vaults over the
      same controllers.  Its calls return, and every request is answered by one
      callback or is still in exactly one of its queues.
    - [TraceCpu]: the simulator on its own, driven by a trace file, by random
      numbers or by a stream.  Traces are replayed in order, none before its
      cycle, to the end; every front end gets the callbacks of what it added.
    - [MemorySystem]: the choice between the two kinds of memory; the laws of
      [MemOnDram] for both, the whole of the simulator's own program, and the
      shipped default configuration read byte by byte.
    - [FpgaHandle]: which handle an implicit send uses; buffers of a Zynq card,
      contiguous in device memory; the cache lines maintenance reaches.
    - [Mmio]: commands and responses through the registers of a card, with an
      operating system and without, over a device given by its laws.
    - [SingletonLock]: the lock that keeps two daemons of a project apart, and
      the name of its file.
    - [MemOnDram]: the laws the runtime relies on, their proof for the model of
      DRAMsim3, and that no callback comes unexpected.

    ** Fuel and bounds

    [LogBase2] loops while an [int] is above 1: 31 rounds. The beats a read
    callback emits are bounded by the length of the burst. The callbacks of one
    channel in one clock are bounded by its return queue, the fuel of [drain];
    [j_ClockTick_spec] shows it suffices. The search loops of the allocator are
    bounded by the number of superblocks. The theorems about DRAM clocks ask that
    the 64-bit cycle counter does not wrap (at 1 GHz: 584 years) and that the
    configuration is [plain]: banks counted right, an address mapping the reader made,
    a refresh interval, no dual commands and no self refresh.  The shipped HBM
    configurations use dual commands and are outside these theorems; the files show
    what goes wrong with them. The
    logic clock of a memory cube runs at most 800 times for one call, the fuel of
    its loop, and its theorems hold for 2^31 - 1000 logic cycles, because ages are
    kept in an [int]. The check of a DMA buffer has the number of its pages as
    fuel, the loader of images and the reader of configurations the length of the
    file, the loading of a chip 11 d + 7 cycles for each byte at [d] clocks to a
    bit. The loop of a simulation runs through a schedule of what the other threads
    do before each round, of any length. The factor that tiles a bank is doubled at most 16
    times before its square leaves an [int]. The update of the power maps at the end of an
    epoch has fuel because its loop does not end ([ThermalFacts]); the search for the number of
    time steps stops at the last [int]. Loops that wait for a
    device have the fuel as an argument, and the theorems say that some amount
    suffices and that more changes nothing.

    ** Not modelled

    - the solution of linear systems by SuperLU_MT, a parameter of the solver, and
      text output other than the values of the CSV rows;
    - the compiled design, the VPI and the operating system behind the front ends,
      which are parameters; printing, waveform files and signal handlers;
    - the mapping of device memory ([setup_mmio], [fpga_utils.c]) and the self-test of
      an AWS card at start, signal handling
      and the start of a daemon by a client ([request_startup]): operating-system
      calls;
    - the command lines of DRAMsim3's own programs;
    - third-party code kept in the tree: [json.h], [catch.h], [args.h], [fmt],
      SuperLU_MT; the Rust command-line tool. *)

From Stdlib Require Export ZArith Lia.
From stdpp Require Export base tactics numbers list gmap strings.

#[export] Set Default Proof Using "Type".
#[export] Set Warnings "-clear-no-such-hyp".

Declare Scope beethoven_scope.
Delimit Scope beethoven_scope with bt.
#[global] Open Scope Z_scope.

(* ------------------------------------------------------------------ *)
(** ** Fixed-width integers

    A C++ integer of width [w] is a [Z]; every operation of the source that
    can leave the range of its type is followed by the conversion below. *)

Definition wrapw (w x : Z) : Z := x mod 2 ^ w.
Definition u8 (x : Z) : Z := wrapw 8 x.
Definition u16 (x : Z) : Z := wrapw 16 x.
Definition u32 (x : Z) : Z := wrapw 32 x.
Definition u64 (x : Z) : Z := wrapw 64 x.

(** Conversion to a signed type of width [w] (two's complement). *)
Definition swrap (w x : Z) : Z := (x + 2 ^ (w - 1)) mod 2 ^ w - 2 ^ (w - 1).
Definition s32 (x : Z) : Z := swrap 32 x.

Definition b2z (b : bool) : Z := if b then 1 else 0.

(* ------------------------------------------------------------------ *)
(** ** How a piece of C++ can end

    [Done] is a normal return, [Exit n] a call of [exit(n)] (or [abort], with
    its status), [Throw] an exception that leaves the function, [Undef] an
    action the language gives no meaning to (an index outside a vector, the
    front of an empty queue), [Stuck] a loop that was cut by its fuel or a thread that
    waits for a lock that is never released. *)

Inductive outcome (A : Type) : Type :=
| Done (a : A)
| Exit (code : Z)
| Throw
| Undef
| Stuck.
Arguments Done {A} _.
Arguments Exit {A} _.
Arguments Throw {A}.
Arguments Undef {A}.
Arguments Stuck {A}.

#[global] Instance outcome_ret : MRet outcome := fun A a => Done a.
#[global] Instance outcome_bind : MBind outcome := fun A B f o =>
  match o with
  | Done a => f a
  | Exit c => Exit c
  | Throw => Throw
  | Undef => Undef
  | Stuck => Stuck
  end.
#[global] Instance outcome_fmap : FMap outcome := fun A B f o =>
  match o with
  | Done a => Done (f a)
  | Exit c => Exit c
  | Throw => Throw
  | Undef => Undef
  | Stuck => Stuck
  end.

(** Reading a container outside its bounds has no meaning in the source. *)
Definition or_undef {A} (o : option A) : outcome A :=
  match o with Some a => Done a | None => Undef end.

(** [v[i]] for a vector or an array indexed by an integer. *)
Definition zlookup {A} (l : list A) (i : Z) : option A :=
  if decide (0 <= i) then l !! Z.to_nat i else None.
Definition zinsert {A} (i : Z) (x : A) (l : list A) : list A :=
  if decide (0 <= i) then <[Z.to_nat i := x]> l else l.
Definition vget {A} (l : list A) (i : Z) : outcome A := or_undef (zlookup l i).

(** [v[i] = x], undefined outside the bounds. *)
Definition vset {A} (l : list A) (i : Z) (x : A) : outcome (list A) :=
  match zlookup l i with Some _ => Done (zinsert i x l) | None => Undef end.

(** The integers [lo, lo+1, ..., lo+n-1]. *)
Definition zrange (lo : Z) (n : nat) : list Z := seqZ lo (Z.of_nat n).

(* ------------------------------------------------------------------ *)
(** ** Reachability in a transition system *)

Inductive steps {S : Type} (R : S -> S -> Prop) : S -> S -> Prop :=
| steps_refl s : steps R s s
| steps_cons s t u : R s t -> steps R t u -> steps R s u.

(** [n]-fold iteration of a deterministic step. *)
Fixpoint iter_step {S : Type} (n : nat) (f : S -> S) (s : S) : S :=
  match n with
  | O => s
  | S n' => iter_step n' f (f s)
  end.

(* ------------------------------------------------------------------ *)
(** ** Automation *)

Create HintDb bt discriminated.

(** Case analysis on the conditionals of an executable definition. *)
Ltac bt_case :=
  match goal with
  | |- context [match ?x with _ => _ end] => destruct x eqn:?
  | H : context [match ?x with _ => _ end] |- _ => destruct x eqn:?
  end.

(** Boolean comparisons of [Z] turned into propositions. *)
Ltac zb :=
  repeat match goal with
  | H : (_ =? _) = true |- _ => apply Z.eqb_eq in H
  | H : (_ =? _) = false |- _ => apply Z.eqb_neq in H
  | H : (_ <? _) = true |- _ => apply Z.ltb_lt in H
  | H : (_ <? _) = false |- _ => apply Z.ltb_ge in H
  | H : (_ <=? _) = true |- _ => apply Z.leb_le in H
  | H : (_ <=? _) = false |- _ => apply Z.leb_gt in H
  | H : (_ >=? _) = true |- _ => rewrite Z.geb_leb in H
  | H : (_ >=? _) = false |- _ => rewrite Z.geb_leb in H
  | H : (_ >? _) = true |- _ => rewrite Z.gtb_ltb in H
  | H : (_ >? _) = false |- _ => rewrite Z.gtb_ltb in H
  | H : (_ && _)%bool = true |- _ => apply andb_prop in H; destruct H
  | H : (_ || _)%bool = false |- _ => apply orb_false_iff in H; destruct H
  | H : negb _ = true |- _ => apply negb_true_iff in H
  | H : negb _ = false |- _ => apply negb_false_iff in H
  end.

(* ------------------------------------------------------------------ *)
(** ** Lemmas on fixed-width integers *)

Lemma wrapw_range w x : 0 <= w -> 0 <= wrapw w x < 2 ^ w.
Proof. intros. apply Z.mod_pos_bound. lia. Qed.

Lemma wrapw_small w x : 0 <= x < 2 ^ w -> wrapw w x = x.
Proof. intros. by apply Z.mod_small. Qed.

Lemma wrapw_id w x : 0 <= w -> wrapw w (wrapw w x) = wrapw w x.
Proof. intros. apply wrapw_small. by apply wrapw_range. Qed.

Lemma u8_small x : 0 <= x < 256 -> u8 x = x.
Proof. intros. by apply wrapw_small. Qed.
Lemma u16_small x : 0 <= x < 65536 -> u16 x = x.
Proof. intros. by apply wrapw_small. Qed.
Lemma u32_small x : 0 <= x < 2 ^ 32 -> u32 x = x.
Proof. intros. by apply wrapw_small. Qed.
Lemma u64_small x : 0 <= x < 2 ^ 64 -> u64 x = x.
Proof. intros. by apply wrapw_small. Qed.
Lemma u8_range x : 0 <= u8 x < 256.
Proof. by apply (wrapw_range 8). Qed.
Lemma u16_range x : 0 <= u16 x < 65536.
Proof. by apply (wrapw_range 16). Qed.
Lemma u32_range x : 0 <= u32 x < 2 ^ 32.
Proof. by apply (wrapw_range 32). Qed.
Lemma u64_range x : 0 <= u64 x < 2 ^ 64.
Proof. by apply (wrapw_range 64). Qed.

Lemma s32_small x : - 2 ^ 31 <= x < 2 ^ 31 -> s32 x = x.
Proof. intros. unfold s32, swrap. rewrite Z.mod_small; lia. Qed.

(** A mask of [n] ones keeps the value modulo [2 ^ n]. *)
Lemma land_ones_mod x n : 0 <= n -> Z.land x (2 ^ n - 1) = x mod 2 ^ n.
Proof. intros. rewrite <- Z.land_ones by done. by rewrite Z.ones_equiv, Z.sub_1_r. Qed.

(** A value below [2 ^ n] and one shifted past bit [n] share no bit. *)
Lemma land_shiftl_low a b n :
  0 <= n -> 0 <= a < 2 ^ n -> Z.land a (Z.shiftl b n) = 0.
Proof.
  intros Hn Ha. apply Z.bits_inj'. intros i Hi.
  rewrite Z.land_spec, Z.shiftl_spec, Z.bits_0 by done.
  destruct (decide (i < n)).
  - rewrite (Z.testbit_neg_r b) by lia. by rewrite andb_false_r.
  - rewrite <- (Z.mod_small a (2 ^ n)) by done.
    by rewrite Z.mod_pow2_bits_high by lia.
Qed.

(** A disjunction of a low part and a part shifted past it is their sum. *)
Lemma lor_shiftl_add a b n :
  0 <= n -> 0 <= a < 2 ^ n -> Z.lor a (Z.shiftl b n) = a + b * 2 ^ n.
Proof.
  intros Hn Ha. rewrite <- Z.shiftl_mul_pow2 by done.
  symmetry. apply Z.add_nocarry_lor. by apply land_shiftl_low.
Qed.

(* ------------------------------------------------------------------ *)
(** ** Lemmas on indexed containers *)

Lemma zlookup_nat {A} (l : list A) (i : nat) : zlookup l (Z.of_nat i) = l !! i.
Proof. unfold zlookup. rewrite decide_True by lia. by rewrite Nat2Z.id. Qed.

Lemma zlookup_Some_range {A} (l : list A) i x :
  zlookup l i = Some x -> 0 <= i < Z.of_nat (length l).
Proof.
  unfold zlookup. case_decide; [|done]. intros Hl.
  apply lookup_lt_Some in Hl. lia.
Qed.

Lemma zlookup_in_range {A} (l : list A) i :
  0 <= i < Z.of_nat (length l) -> is_Some (zlookup l i).
Proof.
  intros Hi. unfold zlookup. rewrite decide_True by lia.
  apply lookup_lt_is_Some. lia.
Qed.

Lemma length_zinsert {A} i (x : A) l : length (zinsert i x l) = length l.
Proof. unfold zinsert. case_decide; [|done]. apply length_insert. Qed.

Lemma zlookup_zinsert_eq {A} (l : list A) i x :
  0 <= i < Z.of_nat (length l) -> zlookup (zinsert i x l) i = Some x.
Proof.
  intros Hi. unfold zlookup, zinsert. rewrite !decide_True by lia.
  apply list_lookup_insert_eq. lia.
Qed.

Lemma zlookup_zinsert_ne {A} (l : list A) i j x :
  i <> j -> zlookup (zinsert i x l) j = zlookup l j.
Proof.
  intros Hij. unfold zlookup, zinsert.
  case_decide; [|done]. case_decide; [|done].
  apply list_lookup_insert_ne. lia.
Qed.

Lemma vget_Done {A} (l : list A) i x : vget l i = Done x <-> zlookup l i = Some x.
Proof. unfold vget, or_undef. destruct (zlookup l i); naive_solver. Qed.

Lemma vset_Done {A} (l l' : list A) i x :
  vset l i x = Done l' <-> 0 <= i < Z.of_nat (length l) /\ l' = zinsert i x l.
Proof.
  unfold vset. split.
  - destruct (zlookup l i) eqn:E; [|done]. intros [= <-].
    apply zlookup_Some_range in E. done.
  - intros [Hi ->]. destruct (zlookup_in_range l i Hi) as [y ->]. done.
Qed.

Lemma vset_in_range {A} (l : list A) i x :
  0 <= i < Z.of_nat (length l) -> vset l i x = Done (zinsert i x l).
Proof. intros. by apply vset_Done. Qed.

Lemma vget_Some {A} (l : list A) i x : zlookup l i = Some x -> vget l i = Done x.
Proof. apply vget_Done. Qed.

Lemma bind_Done {A B} (o : outcome A) (f : A -> outcome B) b :
  (o ≫= f) = Done b <-> exists a, o = Done a /\ f a = Done b.
Proof.
  split.
  - destruct o; try done. intros H. by exists a.
  - intros (a & -> & H). exact H.
Qed.

Lemma elem_of_zrange x lo n : x ∈ zrange lo n <-> lo <= x < lo + Z.of_nat n.
Proof. unfold zrange. apply elem_of_seqZ. Qed.

Lemma length_zrange lo n : length (zrange lo n) = n.
Proof. unfold zrange. rewrite length_seqZ. lia. Qed.

Lemma zrange_S lo n : zrange lo (S n) = lo :: zrange (lo + 1) n.
Proof.
  unfold zrange. rewrite Nat2Z.inj_succ, (seqZ_cons lo) by lia. by rewrite Z.pred_succ, <- Z.add_1_r.
Qed.

Lemma zrange_app lo n1 n2 :
  zrange lo (n1 + n2) = zrange lo n1 ++ zrange (lo + Z.of_nat n1) n2.
Proof. unfold zrange. rewrite Nat2Z.inj_add, seqZ_app by lia. done. Qed.

(** A boolean checked on a range of integers. *)
Lemma zrange_forallb (f : Z -> bool) lo n x :
  forallb f (zrange lo n) = true -> lo <= x < lo + Z.of_nat n -> f x = true.
Proof.
  rewrite forallb_forall. intros Hf Hx. apply Hf. apply list_elem_of_In. by apply elem_of_zrange.
Qed.

Lemma NoDup_zrange lo n : NoDup (zrange lo n).
Proof. apply NoDup_seqZ. Qed.

(* ------------------------------------------------------------------ *)
(** ** Lemmas on reachability *)

Lemma steps_trans {S} (R : S -> S -> Prop) s t u :
  steps R s t -> steps R t u -> steps R s u.
Proof. induction 1; eauto using steps. Qed.

Lemma steps_inv {S} (R : S -> S -> Prop) (I : S -> Prop) :
  (forall s t, R s t -> I s -> I t) -> forall s t, steps R s t -> I s -> I t.
Proof. intros HI s t. induction 1; eauto. Qed.

Lemma iter_step_add {S} n m (f : S -> S) s :
  iter_step (n + m) f s = iter_step m f (iter_step n f s).
Proof. revert s. induction n; intros s; simpl; auto. Qed.

Lemma iter_step_inv {S} (f : S -> S) (I : S -> Prop) :
  (forall s, I s -> I (f s)) -> forall n s, I s -> I (iter_step n f s).
Proof. intros HI n. induction n; intros s Hs; simpl; auto. Qed.

(* ------------------------------------------------------------------ *)
(** ** Counting *)

(** Distinct elements of [l] sent to distinct elements of [k]. *)
Lemma pigeon {A B} (f : A -> option B) (l : list A) (k : list B) :
  NoDup l -> (forall x, x ∈ l -> exists y, f x = Some y /\ y ∈ k) ->
  (forall x y z, x ∈ l -> y ∈ l -> f x = Some z -> f y = Some z -> x = y) ->
  (length l <= length k)%nat.
Proof.
  intros Hnd. revert k. induction Hnd as [|x l Hx Hnd IH]; intros k Hf Hi; [simpl; lia|].
  destruct (Hf x) as (y & Hy & Hk); [by left|].
  apply list_elem_of_split in Hk as (k1 & k2 & ->).
  assert (length l <= length (k1 ++ k2))%nat.
  { apply IH.
    - intros z Hz. destruct (Hf z) as (w & Hw & Hin); [by right|]. exists w. split; [done|].
      apply elem_of_app in Hin as [|[->|]%elem_of_cons]; [set_solver| |set_solver].
      assert (x = z) as <-; [|done]. eapply Hi; eauto; by constructor.
    - intros a b c Ha Hb. apply Hi; by right. }
  rewrite !length_app in *. simpl. lia.
Qed.

Lemma length_filter_ne {A} `{EqDecision A} (x : A) (l : list A) :
  x ∈ l -> (length (filter (fun y => y <> x) l) < length l)%nat.
Proof.
  intros Hx. apply list_elem_of_split in Hx as (l1 & l2 & ->).
  rewrite filter_app, filter_cons_False by naive_solver. rewrite !length_app. simpl.
  pose proof (length_filter (fun y => y <> x) l1).
  pose proof (length_filter (fun y => y <> x) l2). lia.
Qed.

#[export] Hint Resolve wrapw_range u8_range u16_range u32_range u64_range : bt.
#[export] Hint Constructors steps : bt.
