(* ===== verification/Text.v ===== *)
(** * Characters and numbers as the C library reads them

    What the readers of text files share: spaces, words, and numbers in a base,
    with the sign and the prefix that [strtol] and the streams of the standard
    library accept; and how numbers are printed. *)

From Stdlib Require Import Ascii String.
From S2P Require Import Prelude.

Module Text.

#[local] Open Scope char_scope.
#[local] Open Scope Z_scope.

Definition isspace (c : ascii) : bool :=
  let n := Z.of_nat (nat_of_ascii c) in (n =? 32) || ((9 <=? n) && (n <=? 13)).

Fixpoint skipws (s : list ascii) : list ascii :=
  match s with c :: s' => if isspace c then skipws s' else s | [] => [] end.

Fixpoint word (s : list ascii) : list ascii * list ascii :=
  match s with
  | c :: s' => if isspace c then ([], s) else let r := word s' in (c :: r.1, r.2)
  | [] => ([], [])
  end.

Definition digit_value (c : ascii) : Z :=
  let n := Z.of_nat (nat_of_ascii c) in
  if (48 <=? n) && (n <=? 57) then n - 48
  else if (97 <=? n) && (n <=? 102) then n - 87
  else if (65 <=? n) && (n <=? 70) then n - 55
  else 255.

Fixpoint digits (base v : Z) (s : list ascii) : Z * list ascii :=
  match s with
  | c :: s' => if digit_value c <? base then digits base (v * base + digit_value c) s' else (v, s)
  | [] => (v, [])
  end.

Definition sign (s : list ascii) : bool * list ascii :=
  match s with
  | "-" :: s' => (true, s')
  | "+" :: s' => (false, s')
  | _ => (false, s)
  end.

Definition hex_prefix (base : Z) (s : list ascii) : list ascii :=
  match s with
  | "0" :: "x" :: s' | "0" :: "X" :: s' => if base =? 16 then s' else s
  | _ => s
  end.

(** ** [std::stoi] and [std::stoull]

    They throw when no digit is there and when the value does not fit; a minus
    sign in front of an unsigned value negates it in 64 bits. *)

Definition stoi (s : list ascii) : outcome Z :=
  let sg := sign (skipws s) in
  let r := digits 10 0 sg.2 in
  if bool_decide (length r.2 = length sg.2) then Throw
  else let v := if sg.1 then - r.1 else r.1 in
       if (- 2 ^ 31 <=? v) && (v <? 2 ^ 31) then Done v else Throw.

Definition stoull (s : list ascii) : outcome Z :=
  let sg := sign (skipws s) in
  let r := digits 10 0 sg.2 in
  if bool_decide (length r.2 = length sg.2) then Throw
  else if r.1 <? 2 ^ 64 then Done (if sg.1 then u64 (- r.1) else r.1) else Throw.

(** ** Printing *)

Definition digit_char (d : Z) : ascii := ascii_of_nat (Z.to_nat (if d <? 10 then 48 + d else 87 + d)).

Fixpoint show (fuel : nat) (base v : Z) : list ascii :=
  match fuel with
  | O => []
  | S fuel' => if v <? base then [digit_char v] else show fuel' base (v / base) ++ [digit_char (v mod base)]
  end.

(** ** Reading what was printed *)

(** A field ends at a space or at the end of the file. *)
Definition ends (s : list ascii) : Prop := match s with [] => True | c :: _ => isspace c = true end.

Definition digit_ok (base d : Z) : bool :=
  let c := digit_char d in
  (digit_value c =? d) && negb (isspace c) && negb (bool_decide (c = "-")) && negb (bool_decide (c = "+")).

Lemma digit_char_ok d : 0 <= d < 16 ->
  digit_value (digit_char d) = d /\ isspace (digit_char d) = false /\ digit_char d <> "-" /\ digit_char d <> "+".
Proof.
  intros Hd. assert (digit_ok 16 d = true) as H.
  { apply (zrange_forallb (digit_ok 16) 0 16); [vm_compute; reflexivity|lia]. }
  unfold digit_ok in H. zb. repeat match goal with H : bool_decide _ = false |- _ => apply bool_decide_eq_false in H end. done.
Qed.

Lemma space_no_digit c base : isspace c = true -> base <= 16 -> (digit_value c <? base) = false.
Proof.
  unfold isspace, digit_value. set (n := Z.of_nat (nat_of_ascii c)). intros H Hb. apply Z.ltb_ge.
  apply orb_prop in H as [H|H]; zb; repeat case_match; zb; lia.
Qed.

Lemma digits_end base v s : base <= 16 -> ends s -> digits base v s = (v, s).
Proof. intros Hb. destruct s as [|c s]; [done|]. cbn. intros Hs. by rewrite space_no_digit. Qed.

Lemma digits_show base fuel : 1 < base <= 16 -> forall v s, 0 <= v < base ^ Z.of_nat fuel ->
  digits base 0 (show fuel base v ++ s) = digits base v s.
Proof.
  intros Hb. induction fuel as [|fuel IH]; intros v s Hv; [cbn in Hv; replace v with 0 by lia; done|]. cbn [show].
  destruct (Z.ltb_spec v base).
  - cbn. destruct (digit_char_ok v) as [-> _]; [lia|]. by rewrite (proj2 (Z.ltb_lt _ _)).
  - pose proof (Z.mod_pos_bound v base). rewrite <- app_assoc, IH.
    + cbn. destruct (digit_char_ok (v mod base)) as [-> _]; [lia|]. rewrite (proj2 (Z.ltb_lt _ _)) by lia.
      f_equal. rewrite Z.mul_comm. symmetry. apply Z.div_mod. lia.
    + rewrite Nat2Z.inj_succ, Z.pow_succ_r in Hv by lia. split; [apply Z.div_pos; lia|]. by apply Z.div_lt_upper_bound; lia.
Qed.

Lemma show_head base fuel : 1 < base <= 16 -> forall v, 0 <= v -> (fuel <> 0)%nat ->
  exists d s, show fuel base v = digit_char d :: s /\ 0 <= d < 16.
Proof.
  intros Hb. induction fuel as [|fuel IH]; intros v Hv Hf; [done|]. cbn [show].
  destruct (Z.ltb_spec v base); [exists v, []; split; [done|lia]|].
  destruct fuel as [|fuel].
  - exists (v mod base), []. split; [done|]. pose proof (Z.mod_pos_bound v base). lia.
  - destruct (IH (v / base)) as (d & s & -> & Hd); [apply Z.div_pos; lia|done|]. by exists d, (s ++ [digit_char (v mod base)]).
Qed.

Lemma sign_digit c s : c <> "-" -> c <> "+" -> sign (c :: s) = (false, c :: s).
Proof. intros. unfold sign. repeat case_match; by simplify_eq. Qed.

Lemma hex_prefix_dec s : hex_prefix 10 s = s.
Proof. unfold hex_prefix. by repeat case_match. Qed.

(** The value of a field of digits. *)
Lemma field_value base v s : 1 < base <= 16 -> 0 <= v < 2 ^ 64 -> ends s ->
  let f := show 64 base v ++ s in let r := digits base 0 f in
  r = (v, s) /\ bool_decide (length r.2 = length f) = false /\ (2 ^ 64 <=? r.1) = false.
Proof.
  intros Hb Hv Hs. cbn zeta. assert (0 <= v < base ^ Z.of_nat 64) as Hv'.
  { assert (2 ^ Z.of_nat 64 <= base ^ Z.of_nat 64) by (apply Z.pow_le_mono_l; lia).
    change (2 ^ Z.of_nat 64) with (2 ^ 64) in *. lia. }
  rewrite digits_show, digits_end by (done || lia). cbn [fst snd]. split_and!; [done| |apply Z.leb_gt; lia].
  apply bool_decide_eq_false. destruct (show_head base 64 Hb v) as (d & u & -> & _); [lia|done|].
  rewrite length_app. cbn. lia.
Qed.

Lemma word_app w s : forallb (fun c => negb (isspace c)) w = true -> ends s ->
  word (w ++ s) = (w, s).
Proof.
  intros Hw Hs. induction w as [|c w IH]; cbn in *.
  - destruct s as [|c s]; [done|]. cbn in *. by rewrite Hs.
  - apply andb_prop in Hw as [Hc Hw]. apply negb_true_iff in Hc. by rewrite Hc, (IH Hw).
Qed.

End Text.
