(* ===== verification/Fp.v ===== *)
(** * Floating point

    [double] and [float] of the source as the IEEE 754 formats binary64 and
    binary32, with the arithmetic of the Standard Library's [SpecFloat] (round to
    nearest, ties to even), the conversions from and to [int], and the text of
    numbers as [strtod] reads it. *)

From Stdlib Require Import Ascii String Floats.SpecFloat.
From S2P Require Import Prelude Text.

Module Fp.

Abbreviation double := spec_float.
Abbreviation float := spec_float.

Definition dadd : double -> double -> double := SFadd 53 1024.
Definition dsub : double -> double -> double := SFsub 53 1024.
Definition dmul : double -> double -> double := SFmul 53 1024.
Definition ddiv : double -> double -> double := SFdiv 53 1024.
Definition fadd : float -> float -> float := SFadd 24 128.
Definition fsub : float -> float -> float := SFsub 24 128.
Definition fdiv : float -> float -> float := SFdiv 24 128.

(** The comparisons [<] and [<=] of both formats; a NaN is not below anything. *)
Definition flt : spec_float -> spec_float -> bool := SFltb.
Definition fle : spec_float -> spec_float -> bool := SFleb.

(** Conversions of an integer, and of a [double] to a [float]. *)
Definition d_of_Z (z : Z) : double := binary_normalize 53 1024 z 0 false.
Definition f_of_Z (z : Z) : float := binary_normalize 24 128 z 0 false.
Definition f_of_d (d : double) : float :=
  match d with
  | S754_finite s m e => binary_normalize 24 128 (cond_Zopp s (Zpos m)) e s
  | _ => d
  end.

Definition d0 : double := S754_zero false.

(** [m * 2^e], rounded down. *)
Definition Zshift (m e : Z) : Z := if 0 <=? e then m * 2 ^ e else m / 2 ^ (- e).

(** The value rounded down, and towards zero; there is none for an infinity or a
    NaN. *)
Definition floorZ (x : spec_float) : option Z :=
  match x with
  | S754_zero _ => Some 0
  | S754_finite s m e => Some (Zshift (cond_Zopp s (Zpos m)) e)
  | _ => None
  end.
Definition ceilZ (x : spec_float) : option Z := Z.opp <$> floorZ (SFopp x).
Definition truncZ (x : spec_float) : option Z :=
  match x with
  | S754_zero _ => Some 0
  | S754_finite s m e => Some (cond_Zopp s (Zshift (Zpos m) e))
  | _ => None
  end.

(** [static_cast<int>]: undefined when the value does not fit. *)
Definition int_of (v : option Z) : outcome Z :=
  match v with
  | Some z => if (- 2 ^ 31 <=? z) && (z <? 2 ^ 31) then Done z else Undef
  | None => Undef
  end.

Lemma int_of_range v z : int_of v = Done z -> v = Some z /\ - 2 ^ 31 <= z < 2 ^ 31.
Proof. unfold int_of. destruct v; [|done]. case_match eqn:E; [|done]. intros [= ->]. zb. split; [done|lia]. Qed.

(** The conversion of a positive value keeps what is below one. *)
Lemma truncZ_nonneg x z : flt x d0 = false -> truncZ x = Some z -> 0 <= z.
Proof.
  unfold flt, d0. destruct x as [| | |[] m e]; cbn; try done; intros _ [= <-]; [done|].
  unfold Zshift, cond_Zopp. case_match; zb.
  - apply Z.mul_nonneg_nonneg; [lia|]. apply Z.pow_nonneg. lia.
  - apply Z.div_pos; [lia|]. apply Z.pow_pos_nonneg; lia.
Qed.

(** ** The order of the values *)

Definition is_nan (x : spec_float) : bool := match x with S754_nan => true | _ => false end.

(** Sign and kind, exponent, mantissa: compared in this order. *)
Definition key (x : spec_float) : Z * Z * Z :=
  match x with
  | S754_infinity s => (if s then -2 else 2, 0, 0)
  | S754_finite s m e => if s then (-1, - e, - Zpos m) else (1, e, Zpos m)
  | _ => (0, 0, 0)
  end.
Definition key_lt (a b : Z * Z * Z) : Prop :=
  a.1.1 < b.1.1 \/ (a.1.1 = b.1.1 /\ (a.1.2 < b.1.2 \/ (a.1.2 = b.1.2 /\ a.2 < b.2))).

Lemma SFcompare_key x y : is_nan x = false -> is_nan y = false ->
  match SFcompare x y with
  | Some Lt => key_lt (key x) (key y)
  | Some Gt => key_lt (key y) (key x)
  | Some Eq => key x = key y
  | None => False
  end.
Proof.
  unfold key_lt. destruct x as [sx|sx| |sx mx ex], y as [sy|sy| |sy my ey]; try done; intros _ _; cbn.
  all: try (destruct sx); try (destruct sy); cbn; try lia; try done.
  all: destruct (Z.compare_spec ex ey); cbn; [|lia|lia].
  all: change (PosDef.Pos.compare_cont Eq mx my) with (mx ?= my)%positive.
  all: subst; destruct (Pos.compare_spec mx my); subst; cbn; try done; lia.
Qed.

Lemma flt_key x y : flt x y = true <-> is_nan x = false /\ is_nan y = false /\ key_lt (key x) (key y).
Proof.
  unfold flt, SFltb. destruct (is_nan x) eqn:Nx.
  { destruct x; try done. split; [done|intros [? _]; done]. }
  destruct (is_nan y) eqn:Ny.
  { destruct y; try done. split; [by destruct x|intros [_ [? _]]; done]. }
  pose proof (SFcompare_key x y Nx Ny) as Hk. destruct (SFcompare x y) as [[]|]; [| | |done].
  - split; [done|]. intros (_ & _ & Hlt). rewrite Hk in Hlt. unfold key_lt in Hlt. lia.
  - tauto.
  - split; [done|]. intros (_ & _ & Hlt). unfold key_lt in *. lia.
Qed.

(** Among values that are no NaN the order is total. *)
Lemma fle_negb_flt x y : is_nan x = false -> is_nan y = false -> fle x y = negb (flt y x).
Proof.
  intros Nx Ny. unfold fle, SFleb. pose proof (SFcompare_key x y Nx Ny) as Hk. pose proof (flt_key y x) as Hf.
  destruct (flt y x); destruct (SFcompare x y) as [[]|]; try done; exfalso.
  - destruct (proj1 Hf eq_refl) as (_ & _ & Hlt). rewrite Hk in Hlt. unfold key_lt in Hlt. lia.
  - destruct (proj1 Hf eq_refl) as (_ & _ & Hlt). unfold key_lt in *. lia.
  - assert (false = true) by (apply Hf; done). done.
Qed.

Lemma flt_trans_le x y z : is_nan z = false -> flt x y = true -> flt z y = false -> flt x z = true.
Proof.
  intros Nz Hxy Hzy. apply flt_key in Hxy as (Nx & Ny & Hlt). apply flt_key. split_and!; [done|done|].
  assert (~ key_lt (key z) (key y)) as Hn.
  { intros Hk. assert (flt z y = true) by (by apply flt_key). congruence. }
  unfold key_lt in *. lia.
Qed.

(** ** [strtod] *)

Section Strtod.
Import Text.
#[local] Open Scope char_scope.
#[local] Open Scope Z_scope.

Abbreviation chars := (list ascii).

(** Digits with a radix point: their value without the point, the number of digits
    after it, whether there was a digit, and the rest. *)
Definition mantissa (base : Z) (s : chars) : Z * Z * bool * chars :=
  let r1 := digits base 0 s in
  let n1 := (length s - length r1.2)%nat in
  match r1.2 with
  | "." :: s2 =>
      let r2 := digits base r1.1 s2 in
      let n2 := (length s2 - length r2.2)%nat in
      (r2.1, Z.of_nat n2, (0 <? n1 + n2)%nat, r2.2)
  | _ => (r1.1, 0, (0 <? n1)%nat, r1.2)
  end.

(** An exponent is read only when a digit follows its letter. *)
Definition exponent (lower upper : ascii) (s : chars) : Z :=
  match s with
  | c :: s1 =>
      if Ascii.eqb c lower || Ascii.eqb c upper then
        let sg := sign s1 in
        let r := digits 10 0 sg.2 in
        if bool_decide (length r.2 = length sg.2) then 0 else if sg.1 then - r.1 else r.1
      else 0
  | [] => 0
  end.

(** [m * base^k], rounded once. *)
Definition scaled (neg : bool) (m base k : Z) : double :=
  match m with
  | Zpos p =>
      if 0 <=? k then binary_normalize 53 1024 (cond_Zopp neg (m * base ^ k)) 0 neg
      else match base ^ (- k) with
           | Zpos q => SFdiv 53 1024 (S754_finite neg p 0) (S754_finite false q 0)
           | _ => S754_nan
           end
  | _ => S754_zero neg
  end.

Definition lower (c : ascii) : ascii :=
  let n := nat_of_ascii c in if (65 <=? n)%nat && (n <=? 90)%nat then ascii_of_nat (n + 32) else c.
Definition starts (w : string) (s : chars) : bool :=
  bool_decide (map lower (take (String.length w) s) = list_ascii_of_string w).

Definition is_hex (s : chars) : bool :=
  match s with
  | "0" :: ("x" | "X") :: "." :: c :: _ => digit_value c <? 16
  | "0" :: ("x" | "X") :: c :: _ => digit_value c <? 16
  | _ => false
  end.

(** [None]: nothing was read and [end = value]. *)
Definition strtod (s : chars) : option double :=
  let sg := sign (skipws s) in
  if starts "inf" sg.2 then Some (S754_infinity sg.1)
  else if starts "nan" sg.2 then Some S754_nan
  else if is_hex sg.2 then
    let '(m, f, _, r) := mantissa 16 (drop 2 sg.2) in
    Some (scaled sg.1 m 2 (exponent "p" "P" r - 4 * f))
  else
    let '(m, f, any, r) := mantissa 10 sg.2 in
    if (any : bool) then Some (scaled sg.1 m 10 (exponent "e" "E" r - f)) else None.

End Strtod.

Example strtod_tck : strtod (list_ascii_of_string "0.83; ns") = Some (ddiv (d_of_Z 83) (d_of_Z 100)).
Proof. vm_compute. reflexivity. Qed.
Example strtod_exp : strtod (list_ascii_of_string " -2.5e3x") = Some (d_of_Z (-2500)).
Proof. vm_compute. reflexivity. Qed.
Example strtod_hex : strtod (list_ascii_of_string "0x1.8p1") = Some (d_of_Z 3).
Proof. vm_compute. reflexivity. Qed.

End Fp.
