(* ===== verification/RoccCmd.v ===== *)
(** * RoCC commands and responses

    The command a client sends to an accelerator core and the response it gets
    back: [rocc_cmd] and its wire format ([libbeethoven/src/rocc_cmd.cc],
    [include/beethoven/rocc_cmd.h]), [rocc_response]
    ([libbeethoven/src/rocc_response.cc]) and the widths the generated design
    publishes ([beethoven_pack_info] of [include/beethoven/util.h]).

    [unpack] and [encode_response] are the specification side: the field
    layout that the comments of [rocc_cmd::pack] spell out (7 + 5 + 1 + 1 + 1 +
    5 + 5 + 7 bits), read by the hardware.  The theorems show that the packer
    loses nothing on the commands its range checks accept, and refuses every
    other command. *)

From S2P Require Import Prelude.

Module Rocc.

(** [ROCC_OP_ACCEL] and [ROCC_OP_FLUSH] of [beethoven_consts.h]. *)
Definition ROCC_OP_ACCEL : Z := 123.
Definition ROCC_OP_FLUSH : Z := 11.

Record beethoven_pack_info := mk_pack_info {
  system_id_bits : Z;
  core_id_bits : Z
}.

Record rocc_cmd := mk_rocc_cmd {
  function : Z;   (* uint16_t *)
  system_id : Z;  (* uint16_t *)
  opcode : Z;     (* uint8_t *)
  xd : Z;         (* uint8_t *)
  rd : Z;         (* uint8_t *)
  xs1 : Z;        (* uint8_t *)
  xs2 : Z;        (* uint8_t *)
  core_id : Z;    (* uint16_t *)
  rs1 : Z;        (* uint64_t *)
  rs2 : Z         (* uint64_t *)
}.

(** The values the C++ fields can hold. *)
Definition cmd_typed (c : rocc_cmd) : Prop :=
  (0 <= function c < 2 ^ 16 /\ 0 <= system_id c < 2 ^ 16 /\
   0 <= opcode c < 2 ^ 8 /\ 0 <= xd c < 2 ^ 8 /\ 0 <= rd c < 2 ^ 8 /\
   0 <= xs1 c < 2 ^ 8 /\ 0 <= xs2 c < 2 ^ 8 /\ 0 <= core_id c < 2 ^ 16 /\
   0 <= rs1 c < 2 ^ 64 /\ 0 <= rs2 c < 2 ^ 64)%Z.

(** [start_cmd]: the public constructor, [expect_response] becomes [xd]. *)
Definition start_cmd (system_id' : Z) (expect_response : bool)
    (rd' xs1' xs2' core_id' rs1' rs2' function_id : Z) : rocc_cmd :=
  mk_rocc_cmd function_id system_id' ROCC_OP_ACCEL (b2z expect_response)
    rd' xs1' xs2' core_id' rs1' rs2'.

Definition getFunction (c : rocc_cmd) : Z := function c.
Definition getSystemId (c : rocc_cmd) : Z := system_id c.
Definition getOpcode (c : rocc_cmd) : Z := opcode c.
Definition getXd (c : rocc_cmd) : Z := xd c.
Definition getRd (c : rocc_cmd) : Z := rd c.
Definition getXs1 (c : rocc_cmd) : Z := xs1 c.
Definition getXs2 (c : rocc_cmd) : Z := xs2 c.
(** declared [uint8_t], so the 16-bit field is cut to 8 bits *)
Definition getCoreId (c : rocc_cmd) : Z := u8 (core_id c).
Definition getRs1 (c : rocc_cmd) : Z := rs1 c.
Definition getRs2 (c : rocc_cmd) : Z := rs2 c.

(** The [CHECK] macro: exit(1) when the value does not fit in the bits. *)
Definition CHECK (v bits : Z) (k : outcome (list Z)) : outcome (list Z) :=
  if v >=? Z.shiftl 1 bits then Exit 1 else k.

(** The first word of the packed command, assembled with the source's masks
    and shifts. *)
Definition pack_word0 (c : rocc_cmd) (rrd : Z) : Z :=
  let w := Z.land (opcode c) 127 in
  let w := Z.lor w (Z.shiftl (Z.land rrd 31) 7) in
  let w := Z.lor w (Z.shiftl (Z.land (xs2 c) 1) 12) in
  let w := Z.lor w (Z.shiftl (Z.land (xs1 c) 1) 13) in
  let w := Z.lor w (Z.shiftl (Z.land (xd c) 1) 14) in
  let w := Z.lor w (Z.shiftl (Z.land (core_id c) 31) 15) in
  let w := Z.lor w (Z.shiftl (Z.shiftr (Z.land (core_id c) 992) 5) 20) in
  let funct := Z.lor (Z.land (Z.shiftl (system_id c) 3) 120)
                     (Z.land (function c) 7) in
  Z.lor w (u32 (Z.shiftl (Z.land funct 127) 25)).

(** The five words written to [ar]; the fields of [info] are not consulted. *)
Definition pack_words (c : rocc_cmd) (rrd : Z) : list Z :=
  [ pack_word0 c rrd;
    u32 (Z.shiftr (rs1 c) 32); u32 (Z.land (rs1 c) (2 ^ 32 - 1));
    u32 (Z.shiftr (rs2 c) 32); u32 (Z.land (rs2 c) (2 ^ 32 - 1)) ].

(** [rocc_cmd::pack].  [baremetal] is the [BAREMETAL] build, which compiles the
    range checks away. *)
Definition pack (baremetal : bool) (info : beethoven_pack_info) (c : rocc_cmd)
    (rd_override : Z) : outcome (list Z) :=
  let rrd := if rd_override =? 255 then rd c else rd_override in
  if baremetal then Done (pack_words c rrd)
  else
    CHECK (function c) 3 (CHECK (system_id c) 4 (CHECK (core_id c) 10
      (CHECK (rd c) 5 (CHECK (xs1 c) 1 (CHECK (xs2 c) 1
        (Done (pack_words c rrd))))))).

(** The check that [pack] makes, as one test. *)
Definition pack_ok (c : rocc_cmd) : bool :=
  (function c <? 8) && (system_id c <? 16) && (core_id c <? 1024) &&
  (rd c <? 32) && (xs1 c <? 2) && (xs2 c <? 2).

Record rocc_response := mk_rocc_response {
  resp_data : Z;       (* uint64_t *)
  resp_core_id : Z;    (* uint8_t *)
  resp_system_id : Z;  (* uint8_t *)
  resp_rd : Z          (* uint8_t *)
}.

(** [rocc_response::rocc_response(buffer, pack_info)], [b0], [b1], [b2] being
    the three words of the buffer. *)
Definition decode_response (b0 b1 b2 : Z) (info : beethoven_pack_info)
    : rocc_response :=
  {| resp_rd := Z.land (u8 b2) 31;
     resp_system_id := u8 (Z.land (Z.shiftr b2 5)
                            (Z.shiftl 1 (system_id_bits info) - 1));
     resp_core_id := u8 (Z.land (Z.shiftr b2 (5 + system_id_bits info))
                          (Z.shiftl 1 (core_id_bits info) - 1));
     resp_data := Z.lor b0 (Z.shiftl b1 32) |}.

(** ** Specification side *)

(** Bits [lo, lo + n) of a word. *)
Definition field (w lo n : Z) : Z := Z.shiftr w lo mod 2 ^ n.

(** What the hardware reads out of the five words. *)
Definition unpack (ws : list Z) : option rocc_cmd :=
  match ws with
  | [w0; r1h; r1l; r2h; r2l] =>
      Some {| opcode := field w0 0 7; rd := field w0 7 5; xs2 := field w0 12 1;
              xs1 := field w0 13 1; xd := field w0 14 1;
              core_id := field w0 15 10; function := field w0 25 3;
              system_id := field w0 28 4;
              rs1 := r1h * 2 ^ 32 + r1l; rs2 := r2h * 2 ^ 32 + r2l |}
  | _ => None
  end.

(** The three words a core sends back for a response. *)
Definition encode_response (r : rocc_response) (info : beethoven_pack_info)
    : Z * Z * Z :=
  (resp_data r mod 2 ^ 32, resp_data r / 2 ^ 32,
   resp_rd r + resp_system_id r * 2 ^ 5
     + resp_core_id r * 2 ^ (5 + system_id_bits info)).

(** A response whose ids fit the widths the design publishes. *)
Definition response_fits (r : rocc_response) (info : beethoven_pack_info) : Prop :=
  0 <= system_id_bits info <= 8 /\ 0 <= core_id_bits info <= 8 /\
  0 <= resp_rd r < 2 ^ 5 /\
  0 <= resp_system_id r < 2 ^ system_id_bits info /\
  0 <= resp_core_id r < 2 ^ core_id_bits info /\
  0 <= resp_data r < 2 ^ 64.

(** ** Lemmas *)

Lemma land_31 x : Z.land x 31 = x mod 32.
Proof. apply (land_ones_mod x 5). lia. Qed.
Lemma land_127 x : Z.land x 127 = x mod 128.
Proof. apply (land_ones_mod x 7). lia. Qed.
Lemma land_1 x : Z.land x 1 = x mod 2.
Proof. apply (land_ones_mod x 1). lia. Qed.
Lemma land_7 x : Z.land x 7 = x mod 8.
Proof. apply (land_ones_mod x 3). lia. Qed.

Lemma shiftr_land_992 x : Z.shiftr (Z.land x 992) 5 = (x / 32) mod 32.
Proof.
  rewrite Z.shiftr_land. change (Z.shiftr 992 5) with 31.
  rewrite land_31. by rewrite Z.shiftr_div_pow2 by lia.
Qed.

Lemma land_shiftl3_120 x : Z.land (Z.shiftl x 3) 120 = Z.shiftl (x mod 16) 3.
Proof.
  change 120 with (Z.shiftl 15 3). rewrite <- Z.shiftl_land.
  f_equal. apply (land_ones_mod x 4). lia.
Qed.

(** The function/system part of the first word. *)
Lemma pack_funct sid fn :
  Z.land (Z.lor (Z.land (Z.shiftl sid 3) 120) (Z.land fn 7)) 127
  = fn mod 8 + (sid mod 16) * 8.
Proof.
  pose proof (Z.mod_pos_bound sid 16). pose proof (Z.mod_pos_bound fn 8).
  rewrite land_shiftl3_120, land_7, Z.lor_comm, lor_shiftl_add by lia.
  rewrite land_127. apply Z.mod_small. lia.
Qed.

(** The first word as a sum of its fields. *)
Lemma pack_word0_sum c rrd :
  pack_word0 c rrd =
  opcode c mod 128 + (rrd mod 32) * 2 ^ 7 + (xs2 c mod 2) * 2 ^ 12 +
  (xs1 c mod 2) * 2 ^ 13 + (xd c mod 2) * 2 ^ 14 +
  (core_id c mod 32) * 2 ^ 15 + (core_id c / 32 mod 32) * 2 ^ 20 +
  (function c mod 8 + system_id c mod 16 * 8) * 2 ^ 25.
Proof.
  unfold pack_word0. cbv zeta.
  rewrite pack_funct, shiftr_land_992, !land_31, !land_127, !land_1.
  pose proof (Z.mod_pos_bound (opcode c) 128). pose proof (Z.mod_pos_bound rrd 32).
  pose proof (Z.mod_pos_bound (xs2 c) 2). pose proof (Z.mod_pos_bound (xs1 c) 2).
  pose proof (Z.mod_pos_bound (xd c) 2). pose proof (Z.mod_pos_bound (core_id c) 32).
  pose proof (Z.mod_pos_bound (core_id c / 32) 32).
  pose proof (Z.mod_pos_bound (function c) 8).
  pose proof (Z.mod_pos_bound (system_id c) 16).
  rewrite u32_small by (rewrite Z.shiftl_mul_pow2 by lia; lia).
  rewrite (lor_shiftl_add _ _ 7) by lia. rewrite (lor_shiftl_add _ _ 12) by lia.
  rewrite (lor_shiftl_add _ _ 13) by lia. rewrite (lor_shiftl_add _ _ 14) by lia.
  rewrite (lor_shiftl_add _ _ 15) by lia. rewrite (lor_shiftl_add _ _ 20) by lia.
  rewrite (lor_shiftl_add _ _ 25) by lia. lia.
Qed.

(** A field of a word that splits at the field's two ends. *)
Lemma field_split w lo n a f h :
  0 <= lo -> 0 <= n -> 0 <= a < 2 ^ lo -> 0 <= f < 2 ^ n ->
  w = a + f * 2 ^ lo + h * 2 ^ (lo + n) -> field w lo n = f.
Proof.
  intros Hlo Hn Ha Hf ->. unfold field.
  rewrite Z.shiftr_div_pow2, Z.pow_add_r by lia.
  replace (a + f * 2 ^ lo + h * (2 ^ lo * 2 ^ n))
    with (a + (f + h * 2 ^ n) * 2 ^ lo) by ring.
  rewrite Z.div_add, (Z.div_small a), Z.add_0_l by lia.
  rewrite Z.mod_add by lia. by apply Z.mod_small.
Qed.

Lemma split64 x : 0 <= x < 2 ^ 64 ->
  u32 (Z.shiftr x 32) * 2 ^ 32 + u32 (Z.land x (2 ^ 32 - 1)) = x.
Proof.
  intros Hx. rewrite (land_ones_mod x 32), Z.shiftr_div_pow2 by lia.
  rewrite !u32_small.
  - pose proof (Z.div_mod x (2 ^ 32)). lia.
  - apply Z.mod_pos_bound. lia.
  - split; [apply Z.div_pos; lia | apply Z.div_lt_upper_bound; lia].
Qed.

Lemma CHECK_spec v bits k :
  0 <= bits -> CHECK v bits k = if v <? 2 ^ bits then k else Exit 1.
Proof.
  intros Hb. unfold CHECK. rewrite Z.shiftl_1_l, Z.geb_leb, Z.ltb_antisym.
  by destruct (2 ^ bits <=? v).
Qed.

(** The first word of a command inside the ranges, as a sum. *)
Lemma pack_word0_in_range c :
  cmd_typed c -> opcode c < 128 -> xd c < 2 -> pack_ok c = true ->
  pack_word0 c (rd c) =
  opcode c + rd c * 2 ^ 7 + xs2 c * 2 ^ 12 + xs1 c * 2 ^ 13 + xd c * 2 ^ 14 +
  core_id c * 2 ^ 15 + function c * 2 ^ 25 + system_id c * 2 ^ 28.
Proof.
  intros Ht Hop Hxd Hok. unfold pack_ok in Hok. zb.
  unfold cmd_typed in Ht. destruct_and!.
  pose proof (Z.mod_pos_bound (core_id c) 32). pose proof (Z.div_mod (core_id c) 32).
  assert (0 <= core_id c / 32 < 32)
    by (split; [apply Z.div_pos | apply Z.div_lt_upper_bound]; lia).
  rewrite pack_word0_sum, (Z.mod_small (core_id c / 32)), (Z.mod_small (opcode c)),
    (Z.mod_small (rd c)), (Z.mod_small (xs2 c)), (Z.mod_small (xs1 c)),
    (Z.mod_small (xd c)), (Z.mod_small (function c)), (Z.mod_small (system_id c)) by lia.
  lia.
Qed.

(** A field read at its place in the sum of [E]. *)
Ltac at_field E a f h :=
  apply (field_split _ _ _ a f h); [lia.. | rewrite E; lia].

(** Reading back every field of a command that passed the checks. *)
Lemma pack_words_unpack c :
  cmd_typed c -> opcode c < 128 -> xd c < 2 -> pack_ok c = true ->
  unpack (pack_words c (rd c)) = Some c.
Proof.
  intros Ht Hop Hxd Hok. pose proof (pack_word0_in_range c Ht Hop Hxd Hok) as E.
  unfold pack_ok in Hok. zb. unfold cmd_typed in Ht. destruct_and!.
  unfold pack_words, unpack. f_equal.
  destruct c as [fn sid op xd' rd' x1 x2 cid r1 r2].
  cbn [opcode xs2 xs1 xd core_id function system_id rd rs1 rs2] in *.
  f_equal; try (by apply split64).
  - at_field E (op + rd' * 2 ^ 7 + x2 * 2 ^ 12 + x1 * 2 ^ 13 + xd' * 2 ^ 14
                + cid * 2 ^ 15) fn sid.
  - at_field E (op + rd' * 2 ^ 7 + x2 * 2 ^ 12 + x1 * 2 ^ 13 + xd' * 2 ^ 14
                + cid * 2 ^ 15 + fn * 2 ^ 25) sid 0.
  - at_field E 0 op (rd' + x2 * 2 ^ 5 + x1 * 2 ^ 6 + xd' * 2 ^ 7 + cid * 2 ^ 8
                     + fn * 2 ^ 18 + sid * 2 ^ 21).
  - at_field E (op + rd' * 2 ^ 7 + x2 * 2 ^ 12 + x1 * 2 ^ 13) xd'
               (cid + fn * 2 ^ 10 + sid * 2 ^ 13).
  - at_field E op rd' (x2 + x1 * 2 + xd' * 4 + cid * 8 + fn * 2 ^ 13 + sid * 2 ^ 16).
  - at_field E (op + rd' * 2 ^ 7 + x2 * 2 ^ 12) x1
               (xd' + cid * 2 + fn * 2 ^ 11 + sid * 2 ^ 14).
  - at_field E (op + rd' * 2 ^ 7) x2
               (x1 + xd' * 2 + cid * 4 + fn * 2 ^ 12 + sid * 2 ^ 15).
  - at_field E (op + rd' * 2 ^ 7 + x2 * 2 ^ 12 + x1 * 2 ^ 13 + xd' * 2 ^ 14) cid
               (fn + sid * 8).
Qed.

(** What the six checks amount to. *)
Lemma pack_cases info c ov :
  pack false info c ov =
  if pack_ok c then Done (pack_words c (if ov =? 255 then rd c else ov)) else Exit 1.
Proof.
  unfold pack, pack_ok. rewrite !CHECK_spec by lia.
  change (2 ^ 3) with 8. change (2 ^ 4) with 16. change (2 ^ 10) with 1024.
  change (2 ^ 5) with 32. change (2 ^ 1) with 2.
  destruct (function c <? 8), (system_id c <? 16), (core_id c <? 1024),
    (rd c <? 32), (xs1 c <? 2), (xs2 c <? 2); done.
Qed.

Lemma shiftl_1_sub n : 0 <= n -> Z.shiftl 1 n - 1 = 2 ^ n - 1.
Proof. intros. by rewrite Z.shiftl_1_l. Qed.

(** ** Properties *)

(** C18. A command built by [start_cmd] that passes the range checks of
    [rocc_cmd::pack] is packed into five words from which the hardware reads
    back exactly the same command: no field overlaps another one and no bit is
    lost. *)
Theorem pack_start_cmd_roundtrip info sid resp r x1 x2 cid v1 v2 fid c :
  c = start_cmd sid resp r x1 x2 cid v1 v2 fid ->
  cmd_typed c -> pack_ok c = true ->
  exists ws, pack false info c 255 = Done ws /\ unpack ws = Some c.
Proof.
  intros -> Ht Hok. exists (pack_words (start_cmd sid resp r x1 x2 cid v1 v2 fid) r).
  rewrite pack_cases, Hok. split; [done|]. apply pack_words_unpack; try done.
  by destruct resp.
Qed.

Lemma pack_start_cmd_roundtrip_witness :
  exists ws, pack false (mk_pack_info 4 8)
      (start_cmd 3 true 7 1 0 517 (2 ^ 63 + 5) 12345678901 6) 255 = Done ws /\
    unpack ws = Some (start_cmd 3 true 7 1 0 517 (2 ^ 63 + 5) 12345678901 6).
Proof.
  apply (pack_start_cmd_roundtrip (mk_pack_info 4 8) 3 true 7 1 0 517
           (2 ^ 63 + 5) 12345678901 6 _ eq_refl).
  - unfold cmd_typed, start_cmd, ROCC_OP_ACCEL, b2z; simpl; lia.
  - reflexivity.
Defined.

(** The packer refuses (with exit status 1) exactly the commands with a
    field outside its bit range, whatever the destination override, and the
    bare-metal build accepts them silently. *)
Theorem pack_rejects_iff_out_of_range info c ov :
  (pack false info c ov = Exit 1 <->
     ~ (function c < 8 /\ system_id c < 16 /\ core_id c < 1024 /\ rd c < 32 /\
        xs1 c < 2 /\ xs2 c < 2)) /\
  (exists ws, pack true info c ov = Done ws /\ length ws = 5%nat).
Proof.
  split; [|by eexists]. rewrite pack_cases. unfold pack_ok.
  destruct (Z.ltb_spec (function c) 8), (Z.ltb_spec (system_id c) 16),
    (Z.ltb_spec (core_id c) 1024), (Z.ltb_spec (rd c) 32), (Z.ltb_spec (xs1 c) 2),
    (Z.ltb_spec (xs2 c) 2); simpl; split; intros; try done; lia.
Qed.

(** Decoding the three words a core returns gives back the response it
    encoded, for every width pair the eight-bit fields can carry. *)
Theorem decode_response_roundtrip info r :
  response_fits r info ->
  let '(b0, b1, b2) := encode_response r info in decode_response b0 b1 b2 info = r.
Proof.
  intros (Hs & Hc & Hrd & Hsid & Hcid & Hd). unfold encode_response, decode_response.
  destruct r as [d cid sid r]; cbn [resp_data resp_core_id resp_system_id resp_rd] in *.
  assert (H8 : forall n x, 0 <= n <= 8 -> 0 <= x < 2 ^ n -> 0 <= x < 256).
  { intros n x Hn Hx. pose proof (Z.pow_le_mono_r 2 n 8). lia. }
  rewrite !shiftl_1_sub, !land_ones_mod, land_31 by lia.
  pose proof (Z.pow_pos_nonneg 2 (system_id_bits info)).
  f_equal.
  - rewrite lor_shiftl_add by (try apply Z.mod_pos_bound; lia).
    pose proof (Z.div_mod d (2 ^ 32)). lia.
  - rewrite Z.pow_add_r, Z.shiftr_div_pow2, Z.pow_add_r by lia.
    replace (r + sid * 2 ^ 5 + cid * (2 ^ 5 * 2 ^ system_id_bits info))
      with ((r + sid * 2 ^ 5) + cid * (2 ^ 5 * 2 ^ system_id_bits info)) by ring.
    rewrite Z.div_add, (Z.div_small (r + _)) by nia.
    rewrite Z.add_0_l, Z.mod_small by lia. apply u8_small. by apply (H8 (core_id_bits info)).
  - rewrite Z.pow_add_r, Z.shiftr_div_pow2 by lia.
    replace (r + sid * 2 ^ 5 + cid * (2 ^ 5 * 2 ^ system_id_bits info))
      with (r + (sid + cid * 2 ^ system_id_bits info) * 2 ^ 5) by ring.
    rewrite Z.div_add, (Z.div_small r), Z.add_0_l by lia.
    rewrite Z.mod_add by lia. rewrite Z.mod_small by lia.
    apply u8_small. by apply (H8 (system_id_bits info)).
  - unfold u8, wrapw. rewrite Z.pow_add_r by lia. change 32 with (2 ^ 5).
    rewrite Z.mod_mod_divide by (exists (2 ^ 3); lia).
    replace (r + sid * 2 ^ 5 + cid * (2 ^ 5 * 2 ^ system_id_bits info))
      with (r + (sid + cid * 2 ^ system_id_bits info) * 2 ^ 5) by ring.
    rewrite Z.mod_add by lia. by apply Z.mod_small.
Qed.

Lemma decode_response_roundtrip_witness :
  decode_response 3735928559 305419896 (17 + 5 * 2 ^ 5 + 200 * 2 ^ 9) (mk_pack_info 4 8)
  = mk_rocc_response (3735928559 + 305419896 * 2 ^ 32) 200 5 17.
Proof.
  apply (decode_response_roundtrip (mk_pack_info 4 8)
           (mk_rocc_response (3735928559 + 305419896 * 2 ^ 32) 200 5 17)).
  unfold response_fits; simpl; lia.
Defined.

(** The packer lets core ids up to 1023 through, but the getter the runtime
    keys its in-flight table with returns an eight-bit value: two commands that
    [pack] accepts and that go to different cores can have the same key. *)
Theorem getCoreId_aliases :
  exists c1 c2 info ws1 ws2,
    pack false info c1 255 = Done ws1 /\ pack false info c2 255 = Done ws2 /\
    core_id c1 <> core_id c2 /\ getSystemId c1 = getSystemId c2 /\
    getCoreId c1 = getCoreId c2.
Proof.
  exists (start_cmd 1 true 0 0 0 2 0 0 0), (start_cmd 1 true 0 0 0 258 0 0 0),
    (mk_pack_info 4 8).
  do 2 eexists. repeat split; done.
Qed.

End Rocc.
