(* ===== verification/RuntimeIpc.v ===== *)
(** * The two shared-memory files of the runtime

    [cmd_server_file] and [data_server_file] of
    [libbeethoven/include/beethoven/runtime_ipc.h], the records that the client
    library and the daemon map into both address spaces, with the initialisers
    of [libbeethoven/src/runtime_ipc.cc].

    A [pthread_mutex_t] is its locked bit: the code uses these mutexes as
    binary semaphores (a client unlocks what the server locked), so no owner is
    recorded.  The semaphore is its count. *)

From S2P Require Import Prelude RoccCmd.
Import Rocc.

Module Ipc.

Definition MAX_CONCURRENT_COMMANDS : nat := 256.

Record cmd_server_file := mk_csf {
  server_mut : bool;
  cmd_send_lock : bool;
  cmd_recieve_server_resp_lock : bool;
  wait_for_response : list bool;
  responses : list rocc_response;
  processes_waiting : Z;
  free_list_lock : bool;
  free_list : list Z;        (* uint16_t [256] *)
  free_list_idx : Z;         (* uint16_t *)
  pthread_wait_id : Z;       (* int *)
  quit : bool;
  cmd : rocc_cmd
}.

(** The members are arrays of [MAX_CONCURRENT_COMMANDS] elements. *)
Definition csf_shape (f : cmd_server_file) : Prop :=
  length (wait_for_response f) = MAX_CONCURRENT_COMMANDS /\
  length (responses f) = MAX_CONCURRENT_COMMANDS /\
  length (free_list f) = MAX_CONCURRENT_COMMANDS.

(** [cmd_server_file::init]: the mutexes are created (unlocked), every
    per-response mutex and the server's answer mutex are taken at once, the
    free list holds every slot.  The response array, the slot returned to the
    client and the command field keep what the mapping held. *)
Definition csf_init (f : cmd_server_file) : cmd_server_file :=
  {| server_mut := false;
     cmd_send_lock := false;
     cmd_recieve_server_resp_lock := true;
     wait_for_response := replicate MAX_CONCURRENT_COMMANDS true;
     responses := responses f;
     processes_waiting := 0;
     free_list_lock := false;
     free_list := zrange 0 MAX_CONCURRENT_COMMANDS;
     free_list_idx := 255;
     pthread_wait_id := pthread_wait_id f;
     quit := false;
     cmd := cmd f |}.

Inductive data_server_op := ALLOC | FREE | MOVE_FROM_FPGA | MOVE_TO_FPGA.

Record data_server_file := mk_dsf {
  ds_server_mut : bool;
  data_cmd_send_lock : bool;
  data_cmd_recieve_resp_lock : bool;
  fname : list Z;            (* char [512] *)
  resp_id : Z;               (* int16_t *)
  operation : data_server_op;
  op_argument : Z;           (* uint64_t *)
  op2_argument : Z;          (* uint64_t *)
  op3_argument : Z;          (* uint64_t *)
  is_simulation : bool
}.

(** [data_server_file::init]. *)
Definition dsf_init (f : data_server_file) : data_server_file :=
  {| ds_server_mut := false;
     data_cmd_send_lock := false;
     data_cmd_recieve_resp_lock := true;
     fname := replicate 512%nat 0;
     resp_id := resp_id f;
     operation := operation f;
     op_argument := 0;
     op2_argument := op2_argument f;
     op3_argument := op3_argument f;
     is_simulation := is_simulation f |}.

#[export] Instance data_server_op_eq : EqDecision data_server_op.
Proof. solve_decision. Defined.

(** The free slots: the stack [free_list[0 .. free_list_idx]], empty when the
    16-bit index has wrapped below zero. *)
Definition free_count (f : cmd_server_file) : nat :=
  Z.to_nat (u16 (free_list_idx f + 1)).
Definition free_slots (f : cmd_server_file) : list Z :=
  take (free_count f) (free_list f).

(** Popping a slot: [id = free_list[free_list_idx]; free_list_idx--]. *)
Definition pop_slot (f : cmd_server_file) : outcome (Z * cmd_server_file) :=
  id ← vget (free_list f) (free_list_idx f);
  Done (id, {| server_mut := server_mut f;
               cmd_send_lock := cmd_send_lock f;
               cmd_recieve_server_resp_lock := cmd_recieve_server_resp_lock f;
               wait_for_response := wait_for_response f;
               responses := responses f;
               processes_waiting := processes_waiting f;
               free_list_lock := free_list_lock f;
               free_list := free_list f;
               free_list_idx := u16 (free_list_idx f - 1);
               pthread_wait_id := pthread_wait_id f;
               quit := quit f;
               cmd := cmd f |}).

(** Returning a slot: [free_list[++free_list_idx] = handle]; the element is a
    [uint16_t]. *)
Definition push_slot (h : Z) (f : cmd_server_file) : outcome cmd_server_file :=
  let idx := u16 (free_list_idx f + 1) in
  l ← vset (free_list f) idx (u16 h);
  Done {| server_mut := server_mut f;
          cmd_send_lock := cmd_send_lock f;
          cmd_recieve_server_resp_lock := cmd_recieve_server_resp_lock f;
          wait_for_response := wait_for_response f;
          responses := responses f;
          processes_waiting := processes_waiting f;
          free_list_lock := free_list_lock f;
          free_list := l;
          free_list_idx := idx;
          pthread_wait_id := pthread_wait_id f;
          quit := quit f;
          cmd := cmd f |}.

(** ** Lemmas on the slot stack *)

(** The index never leaves [-1 .. 255] (with -1 stored as 65535). *)
Definition idx_ok (f : cmd_server_file) : Prop :=
  csf_shape f /\ (0 <= free_list_idx f < 256 \/ free_list_idx f = 65535).

Lemma free_count_ok f : idx_ok f -> (free_count f <= 256)%nat /\
  (free_count f = 0%nat <-> free_list_idx f = 65535) /\
  (free_list_idx f <> 65535 -> Z.of_nat (free_count f) = free_list_idx f + 1).
Proof.
  intros [_ [H | H]]; unfold free_count.
  - rewrite u16_small by lia. lia.
  - rewrite H. change (u16 (65535 + 1)) with 0. simpl. lia.
Qed.

Lemma length_free_slots f : idx_ok f -> length (free_slots f) = free_count f.
Proof.
  intros Hok. pose proof (free_count_ok f Hok).
  destruct Hok as [(_ & _ & Hl) _]. unfold free_slots. rewrite length_take, Hl.
  unfold MAX_CONCURRENT_COMMANDS. lia.
Qed.

(** Popping gives the top of the stack, or is undefined on an empty stack. *)
Lemma pop_slot_spec f : idx_ok f ->
  match pop_slot f with
  | Done (id, f') => free_slots f = free_slots f' ++ [id] /\ idx_ok f' /\
                     free_list f' = free_list f
  | Undef => free_slots f = []
  | _ => False
  end.
Proof.
  intros Hok. pose proof (free_count_ok f Hok) as (Hle & Hz & Hnz).
  destruct Hok as [Hsh Hr]. pose proof Hsh as (Hw & Hresp & Hl).
  unfold pop_slot, vget, or_undef, zlookup.
  rewrite decide_True by lia.
  destruct (free_list f !! Z.to_nat (free_list_idx f)) as [id|] eqn:E; simpl.
  - assert (Hlt := lookup_lt_Some _ _ _ E). rewrite Hl in Hlt.
    unfold MAX_CONCURRENT_COMMANDS in Hlt.
    assert (0 <= free_list_idx f < 256) by lia.
    assert (Hc : free_count f = S (Z.to_nat (free_list_idx f))) by lia.
    split; [|split; [split|done]].
    + unfold free_slots, free_count at 2; simpl.
      rewrite Hc. rewrite (take_S_r _ _ _ E). f_equal. f_equal.
      destruct (decide (free_list_idx f = 0)) as [->|].
      * by change (u16 (u16 (0 - 1) + 1)) with 0.
      * rewrite (u16_small (free_list_idx f - 1)), u16_small by lia. lia.
    + done.
    + simpl. destruct (decide (free_list_idx f = 0)) as [->|].
      * by right.
      * left. rewrite u16_small by lia. lia.
  - apply lookup_ge_None in E. rewrite Hl in E. unfold MAX_CONCURRENT_COMMANDS in E.
    assert (free_count f = 0%nat) as H0 by (apply Hz; lia).
    unfold free_slots. by rewrite H0.
Qed.

(** Pushing puts the slot on top, as long as the stack is not full. *)
Lemma push_slot_spec f h : idx_ok f -> 0 <= h < 256 -> (free_count f < 256)%nat ->
  exists f', push_slot h f = Done f' /\ free_slots f' = free_slots f ++ [h] /\
             idx_ok f'.
Proof.
  intros Hok Hh Hc. pose proof (free_count_ok f Hok) as (_ & _ & _).
  destruct Hok as [Hsh Hr]. pose proof Hsh as (Hw & Hresp & Hl).
  unfold MAX_CONCURRENT_COMMANDS in *.
  assert (Hidx : 0 <= u16 (free_list_idx f + 1) < 256).
  { unfold free_count in Hc. pose proof (u16_range (free_list_idx f + 1)). lia. }
  unfold push_slot. rewrite (proj2 (vset_Done _ _ _ _)) by (split; [lia|done]).
  eexists. split; [done|]. rewrite (u16_small h) by lia. split.
  - unfold free_slots, free_count; simpl. unfold free_count in Hc.
    assert (Hplus : u16 (u16 (free_list_idx f + 1) + 1) = u16 (free_list_idx f + 1) + 1)
      by (apply u16_small; lia).
    rewrite Hplus.
    replace (Z.to_nat (u16 (free_list_idx f + 1) + 1))
      with (S (Z.to_nat (u16 (free_list_idx f + 1)))) by lia.
    assert (Hlk : zinsert (u16 (free_list_idx f + 1)) h (free_list f)
                  !! Z.to_nat (u16 (free_list_idx f + 1)) = Some h).
    { unfold zinsert. rewrite decide_True by lia. apply list_lookup_insert_eq. lia. }
    rewrite (take_S_r _ _ _ Hlk). f_equal.
    unfold zinsert. rewrite decide_True by lia. by rewrite take_insert_ge.
  - split; [|by left]. repeat split; simpl; try done. by rewrite length_zinsert.
Qed.

End Ipc.
