(* ===== verification/CmdServer.v ===== *)
(** * The command server and its clients

    The daemon's command thread ([cmd_server_f] and [register_reponse] of
    [runtime/src/core/cmd_server.cc]), the client side of the protocol
    ([fpga_handle_t::send], [get_response_from_handle],
    [try_get_response_from_handle], [shutdown] of
    [libbeethoven/src/fpga_handle_impl/fpga_handle_discrete.cc]) and the
    response handle ([response_getter] of [response_handle.h/.cc]), as one
    transition system over the shared [cmd_server_file].

    A transition is a stretch of code between two blocking operations: a step
    that locks a mutex is enabled only while the mutex is free.  The simulator
    build of the server is modelled (the command is queued for the AXI front
    end); [LPopCmd] is the front end taking a command from that queue and
    [LRespond] its call of [register_reponse].

    [Slots] is the abstract specification: each of the 256 response slots is
    free, reserved, pending, ready or being read, on behalf of one client and
    one command.  The refinement theorem shows that every run of the concrete
    system in which nobody calls [shutdown], however its threads interleave, is a run
    of the slot machine.  [shutdown] is part of the transition system, but not of these
    runs: it wakes the server before it sets [quit], and a server that serves the old
    command once more hands one slot to two clients ([shutdown_breaks_exclusion]). *)

From S2P Require Import Prelude RoccCmd RuntimeIpc.
Import Rocc Ipc.

Module CmdServer.

(** [response_getter]. *)
Record response_getter := mk_getter {
  can_wait : bool;
  has_recieved : bool;
  getter_id : Z
}.

(** [response_getter::get] before it reaches the handle: it throws on a handle
    that was used already or that no response will come for. *)
Definition getter_get (g : response_getter) : outcome (response_getter * Z) :=
  if can_wait g then
    if has_recieved g then Throw
    else Done (mk_getter (can_wait g) true (getter_id g), getter_id g)
  else Throw.

(** [response_getter::try_get]; [got] tells whether the handle's response was
    there.  Misuse exits the client instead of throwing. *)
Definition getter_try_get (g : response_getter) (got : bool)
    : outcome (response_getter * bool) :=
  if can_wait g then
    if has_recieved g then Exit 1
    else Done (mk_getter (can_wait g) (if got then true else has_recieved g)
                 (getter_id g), got)
  else Exit 1.

(** [system_core_pair]: the key of the in-flight table. *)
Definition system_core_pair : Type := Z * Z.
Definition cmd_key (c : rocc_cmd) : system_core_pair := (getSystemId c, getCoreId c).
Definition resp_key (r : rocc_response) : system_core_pair :=
  (resp_system_id r, resp_core_id r).

(** [std::hash<system_core_pair>]. *)
Definition hash_pair (k : system_core_pair) : Z := Z.lor (Z.shiftl k.2 8) k.1.

(** Where the server thread is: blocked on [server_mut], woken up, past the
    slot allocation, or returned because of [quit]. *)
Inductive server_pc :=
| SWait
| SGot
| SAlloc (id : Z)
| SQuit.

(** Where a client is in [send], in [get] on the handle it obtained, or in
    [shutdown]. *)
Inductive client_pc :=
| CIdle
| CWantSend (c : rocc_cmd)
| CHoldSend (c : rocc_cmd)
| CPosted (c : rocc_cmd)
| CAnswered (c : rocc_cmd)
| CReleased (c : rocc_cmd) (h : Z)
| CHandle (c : rocc_cmd) (g : response_getter)
| CLocked (c : rocc_cmd) (h : Z)
| CResp (c : rocc_cmd) (h : Z) (r : rocc_response)
| CDone (c : rocc_cmd) (r : rocc_response)
| CThrown
| CWantStop
| CHoldStop
| CStopPosted
| CStopped.

Record sys := mk_sys {
  csf : cmd_server_file;
  cmds : list rocc_cmd;
  in_flight : gmap (Z * Z) (list Z);
  cmdserverlock : bool;
  main_lock : bool;
  spc : server_pc;
  clients : list client_pc
}.

(** Updates of the shared file. *)
Definition set_send_lock (b : bool) (f : cmd_server_file) : cmd_server_file :=
  mk_csf (server_mut f) b (cmd_recieve_server_resp_lock f) (wait_for_response f)
    (responses f) (processes_waiting f) (free_list_lock f) (free_list f)
    (free_list_idx f) (pthread_wait_id f) (quit f) (cmd f).
Definition set_server_mut (b : bool) (f : cmd_server_file) : cmd_server_file :=
  mk_csf b (cmd_send_lock f) (cmd_recieve_server_resp_lock f) (wait_for_response f)
    (responses f) (processes_waiting f) (free_list_lock f) (free_list f)
    (free_list_idx f) (pthread_wait_id f) (quit f) (cmd f).
Definition set_recv_lock (b : bool) (f : cmd_server_file) : cmd_server_file :=
  mk_csf (server_mut f) (cmd_send_lock f) b (wait_for_response f)
    (responses f) (processes_waiting f) (free_list_lock f) (free_list f)
    (free_list_idx f) (pthread_wait_id f) (quit f) (cmd f).
Definition set_wait_id (id : Z) (f : cmd_server_file) : cmd_server_file :=
  mk_csf (server_mut f) (cmd_send_lock f) (cmd_recieve_server_resp_lock f)
    (wait_for_response f) (responses f) (processes_waiting f) (free_list_lock f)
    (free_list f) (free_list_idx f) id (quit f) (cmd f).
Definition set_quit (b : bool) (f : cmd_server_file) : cmd_server_file :=
  mk_csf (server_mut f) (cmd_send_lock f) (cmd_recieve_server_resp_lock f)
    (wait_for_response f) (responses f) (processes_waiting f) (free_list_lock f)
    (free_list f) (free_list_idx f) (pthread_wait_id f) b (cmd f).
Definition set_cmd (c : rocc_cmd) (f : cmd_server_file) : cmd_server_file :=
  mk_csf (server_mut f) (cmd_send_lock f) (cmd_recieve_server_resp_lock f)
    (wait_for_response f) (responses f) (processes_waiting f) (free_list_lock f)
    (free_list f) (free_list_idx f) (pthread_wait_id f) (quit f) c.
Definition set_wait_resp (w : list bool) (rs : list rocc_response)
    (f : cmd_server_file) : cmd_server_file :=
  mk_csf (server_mut f) (cmd_send_lock f) (cmd_recieve_server_resp_lock f)
    w rs (processes_waiting f) (free_list_lock f) (free_list f)
    (free_list_idx f) (pthread_wait_id f) (quit f) (cmd f).

Definition with_csf (s : sys) (f : cmd_server_file) : sys :=
  mk_sys f (cmds s) (in_flight s) (cmdserverlock s) (main_lock s) (spc s) (clients s).
Definition with_spc (s : sys) (p : server_pc) : sys :=
  mk_sys (csf s) (cmds s) (in_flight s) (cmdserverlock s) (main_lock s) p (clients s).
Definition with_client (s : sys) (i : nat) (p : client_pc) : sys :=
  mk_sys (csf s) (cmds s) (in_flight s) (cmdserverlock s) (main_lock s) (spc s)
    (<[i := p]> (clients s)).

(** A fresh server: [cmd_server_file::init], then the first
    [pthread_mutex_lock(&addr.server_mut)]; the second one blocks. *)
Definition boot (f : cmd_server_file) (nclients : nat) : sys :=
  mk_sys (set_server_mut true (csf_init f)) [] ∅ false true SWait
    (replicate nclients CIdle).

(** ** The server thread *)

(** Reserving a response slot for the posted command. *)
Definition server_alloc (s : sys) : outcome sys :=
  let f := csf s in
  if negb (getXd (cmd f) =? 0) then
    '(id, f') ← pop_slot f;
    Done (with_spc (with_csf s (set_wait_id id f')) (SAlloc id))
  else Done (with_spc (with_csf s (set_wait_id 65535 f)) (SAlloc 65535)).

(** The section under [cmdserverlock] and the answer to the client. *)
Definition server_dispatch (s : sys) (id : Z) : sys :=
  let f := csf s in
  if quit f then
    mk_sys f (cmds s) (in_flight s) true false SQuit (clients s)
  else
    let c := cmd f in
    let m := if negb (getXd c =? 0)
             then <[cmd_key c := default [] (in_flight s !! cmd_key c) ++ [id]]>
                    (in_flight s)
             else in_flight s in
    mk_sys (set_recv_lock false f) (cmds s ++ [c]) m false (main_lock s) SWait
      (clients s).

(** [register_reponse], called with the three words of a response. *)
Definition register_response (info : beethoven_pack_info) (b0 b1 b2 : Z) (s : sys)
    : outcome sys :=
  let r := decode_response b0 b1 b2 info in
  let f := csf s in
  match in_flight s !! resp_key r with
  | None =>
      Done (mk_sys f (cmds s) (in_flight s) (cmdserverlock s) false (spc s) (clients s))
  | Some q =>
      id ← or_undef (head q);
      rs ← vset (responses f) id r;
      w ← vset (wait_for_response f) id false;
      Done (mk_sys (set_wait_resp w rs f) (cmds s) (<[resp_key r := tail q]> (in_flight s))
              (cmdserverlock s) (main_lock s) (spc s) (clients s))
  end.

(** ** The labelled steps *)

Inductive label :=
| LWantSend (i : nat) (c : rocc_cmd)
| LLockSend (i : nat)
| LPost (i : nat)
| LServerWake
| LServerAlloc
| LServerDispatch
| LAnswer (i : nat)
| LReadHandle (i : nat)
| LReturn (i : nat)
| LGetLock (i : nat)
| LGetRead (i : nat)
| LGetFree (i : nat)
| LForget (i : nat)
| LRespond (b0 b1 b2 : Z)
| LPopCmd
| LWantStop (i : nat)
| LLockStop (i : nat)
| LPostStop (i : nat)
| LSetQuit (i : nat).

(** [exec info l s]: [None] when the step is not enabled (a mutex is held, or
    the thread is elsewhere), otherwise what the code does. *)
Definition exec (info : beethoven_pack_info) (l : label) (s : sys)
    : option (outcome sys) :=
  let f := csf s in
  match l with
  | LWantSend i c =>
      match clients s !! i with
      | Some CIdle => Some (Done (with_client s i (CWantSend c)))
      | _ => None
      end
  | LLockSend i =>
      match clients s !! i, cmd_send_lock f with
      | Some (CWantSend c), false =>
          Some (Done (with_client (with_csf s (set_send_lock true f)) i (CHoldSend c)))
      | _, _ => None
      end
  | LPost i =>
      match clients s !! i with
      | Some (CHoldSend c) =>
          Some (Done (with_client
            (with_csf s (set_server_mut false (set_cmd c f))) i (CPosted c)))
      | _ => None
      end
  | LServerWake =>
      match spc s, server_mut f with
      | SWait, false => Some (Done (with_spc (with_csf s (set_server_mut true f)) SGot))
      | _, _ => None
      end
  | LServerAlloc =>
      match spc s, free_list_lock f with
      | SGot, false => Some (server_alloc s)
      | _, _ => None
      end
  | LServerDispatch =>
      match spc s, cmdserverlock s with
      | SAlloc id, false => Some (Done (server_dispatch s id))
      | _, _ => None
      end
  | LAnswer i =>
      match clients s !! i, cmd_recieve_server_resp_lock f with
      | Some (CPosted c), false =>
          Some (Done (with_client (with_csf s (set_recv_lock true f)) i (CAnswered c)))
      | _, _ => None
      end
  | LReadHandle i =>
      match clients s !! i with
      | Some (CAnswered c) =>
          Some (Done (with_client (with_csf s (set_send_lock false f)) i
            (CReleased c (pthread_wait_id f))))
      | _ => None
      end
  | LReturn i =>
      match clients s !! i with
      | Some (CReleased c h) =>
          Some (Done (with_client (with_csf s (set_quit false f)) i
            (CHandle c (mk_getter (negb (getXd c =? 0)) false h))))
      | _ => None
      end
  | LGetLock i =>
      match clients s !! i with
      | Some (CHandle c g) =>
          match getter_get g with
          | Done (g', h) =>
              match vget (wait_for_response f) h with
              | Done false =>
                  Some (w ← vset (wait_for_response f) h true;
                        Done (with_client (with_csf s (set_wait_resp w (responses f) f)) i
                                (CLocked c h)))
              | Done true => None
              | _ => Some Undef
              end
          | _ => Some (Done (with_client s i CThrown))
          end
      | _ => None
      end
  | LGetRead i =>
      match clients s !! i with
      | Some (CLocked c h) =>
          Some (r ← vget (responses f) h; Done (with_client s i (CResp c h r)))
      | _ => None
      end
  | LGetFree i =>
      match clients s !! i, free_list_lock f with
      | Some (CResp c h r), false =>
          Some (f' ← push_slot h f; Done (with_client (with_csf s f') i (CDone c r)))
      | _, _ => None
      end
  | LForget i =>
      match clients s !! i with
      | Some (CDone c r) => Some (Done (with_client s i CIdle))
      | Some (CHandle c g) =>
          if can_wait g then None else Some (Done (with_client s i CIdle))
      | _ => None
      end
  | LRespond b0 b1 b2 =>
      if cmdserverlock s then None else Some (register_response info b0 b1 b2 s)
  | LPopCmd =>
      match cmdserverlock s, cmds s with
      | false, _ :: rest =>
          Some (Done (mk_sys f rest (in_flight s) (cmdserverlock s) (main_lock s)
                        (spc s) (clients s)))
      | _, _ => None
      end
  | LWantStop i =>
      match clients s !! i with
      | Some CIdle => Some (Done (with_client s i CWantStop))
      | _ => None
      end
  | LLockStop i =>
      match clients s !! i, cmd_send_lock f with
      | Some CWantStop, false =>
          Some (Done (with_client (with_csf s (set_send_lock true f)) i CHoldStop))
      | _, _ => None
      end
  | LPostStop i =>
      match clients s !! i with
      | Some CHoldStop =>
          Some (Done (with_client (with_csf s (set_server_mut false f)) i CStopPosted))
      | _ => None
      end
  | LSetQuit i =>
      match clients s !! i with
      | Some CStopPosted =>
          Some (Done (with_client
            (with_csf s (set_send_lock false (set_quit true f))) i CStopped))
      | _ => None
      end
  end.

(** The labels of clients that send commands and wait for responses. *)
Definition is_stop (l : label) : bool :=
  match l with
  | LWantStop _ | LLockStop _ | LPostStop _ | LSetQuit _ => true
  | _ => false
  end.

(** A step that is not part of a [shutdown] and has defined behaviour: the runs of the
    theorems about the slots. *)
Definition step_without_shutdown (info : beethoven_pack_info) (s t : sys) : Prop :=
  exists l, is_stop l = false /\ exec info l s = Some (Done t).

(** Running a list of labels. *)
Fixpoint run (info : beethoven_pack_info) (ls : list label) (s : sys)
    : option (outcome sys) :=
  match ls with
  | [] => Some (Done s)
  | l :: ls' =>
      match exec info l s with
      | Some (Done t) => run info ls' t
      | o => o
      end
  end.

(** ** The abstract slot machine *)

Inductive status :=
| Free
| Reserved (i : nat) (c : rocc_cmd)
| Pending (i : nat) (c : rocc_cmd)
| Ready (i : nat) (c : rocc_cmd) (r : rocc_response)
| Reading (i : nat) (c : rocc_cmd) (r : rocc_response).

Definition slot_state : Type := Z -> status.

Definition upd (A : slot_state) (id : Z) (x : status) : slot_state :=
  fun y => if decide (y = id) then x else A y.

(** One step of the specification: a slot goes round the cycle free, reserved,
    pending, ready, reading, always for the client and the command it was
    reserved for, and becomes ready only with a response of that command's
    core. *)
Inductive slot_step : slot_state -> slot_state -> Prop :=
| ss_skip A : slot_step A A
| ss_reserve A id i c :
    0 <= id < 256 -> A id = Free -> slot_step A (upd A id (Reserved i c))
| ss_dispatch A id i c :
    A id = Reserved i c -> slot_step A (upd A id (Pending i c))
| ss_respond A id i c r :
    A id = Pending i c -> resp_key r = cmd_key c ->
    slot_step A (upd A id (Ready i c r))
| ss_lock A id i c r :
    A id = Ready i c r -> slot_step A (upd A id (Reading i c r))
| ss_release A id i c r :
    A id = Reading i c r -> slot_step A (upd A id Free).

Definition owner (x : status) : option nat :=
  match x with
  | Free => None
  | Reserved i _ | Pending i _ | Ready i _ _ | Reading i _ _ => Some i
  end.

Definition is_ready (x : status) : bool :=
  match x with Ready _ _ _ => true | _ => false end.

(** ** The relation between a concrete state and a slot state *)

Definition sending (p : client_pc) : bool :=
  match p with
  | CHoldSend _ | CPosted _ | CAnswered _
  | CHoldStop | CStopPosted | CStopped | CWantStop => true
  | _ => false
  end.

Definition none_sending_but (i : nat) (cl : list client_pc) : Prop :=
  forall j p, cl !! j = Some p -> sending p = true -> j = i.

(** The slot the handshake of client [i] for command [c] carries. *)
Definition dispatched (A : slot_state) (i : nat) (c : rocc_cmd) (id : Z) : Prop :=
  if negb (getXd c =? 0)
  then 0 <= id < 256 /\ (A id = Pending i c \/ exists r, A id = Ready i c r)
  else True.

(** The phases of the two-mutex handshake between a client and the server. *)
Inductive handshake (s : sys) (A : slot_state) : Prop :=
| hs_idle :
    cmd_send_lock (csf s) = false -> server_mut (csf s) = true ->
    cmd_recieve_server_resp_lock (csf s) = true -> spc s = SWait ->
    (forall j p, clients s !! j = Some p -> sending p = false) -> handshake s A
| hs_hold i c :
    cmd_send_lock (csf s) = true -> server_mut (csf s) = true ->
    cmd_recieve_server_resp_lock (csf s) = true -> spc s = SWait ->
    clients s !! i = Some (CHoldSend c) -> none_sending_but i (clients s) ->
    handshake s A
| hs_posted i c :
    cmd_send_lock (csf s) = true -> server_mut (csf s) = false ->
    cmd_recieve_server_resp_lock (csf s) = true -> spc s = SWait ->
    clients s !! i = Some (CPosted c) -> none_sending_but i (clients s) ->
    cmd (csf s) = c -> handshake s A
| hs_got i c :
    cmd_send_lock (csf s) = true -> server_mut (csf s) = true ->
    cmd_recieve_server_resp_lock (csf s) = true -> spc s = SGot ->
    clients s !! i = Some (CPosted c) -> none_sending_but i (clients s) ->
    cmd (csf s) = c -> handshake s A
| hs_alloc i c id :
    cmd_send_lock (csf s) = true -> server_mut (csf s) = true ->
    cmd_recieve_server_resp_lock (csf s) = true -> spc s = SAlloc id ->
    clients s !! i = Some (CPosted c) -> none_sending_but i (clients s) ->
    cmd (csf s) = c -> pthread_wait_id (csf s) = id ->
    (if negb (getXd c =? 0) then 0 <= id < 256 /\ A id = Reserved i c else True) ->
    handshake s A
| hs_dispatched i c :
    cmd_send_lock (csf s) = true -> server_mut (csf s) = true ->
    cmd_recieve_server_resp_lock (csf s) = false -> spc s = SWait ->
    clients s !! i = Some (CPosted c) -> none_sending_but i (clients s) ->
    dispatched A i c (pthread_wait_id (csf s)) -> handshake s A
| hs_answered i c :
    cmd_send_lock (csf s) = true -> server_mut (csf s) = true ->
    cmd_recieve_server_resp_lock (csf s) = true -> spc s = SWait ->
    clients s !! i = Some (CAnswered c) -> none_sending_but i (clients s) ->
    dispatched A i c (pthread_wait_id (csf s)) -> handshake s A.

(** What a client that has its handle may assume. *)
Definition client_ok (A : slot_state) (j : nat) (p : client_pc) : Prop :=
  match p with
  | CReleased c h => dispatched A j c h
  | CHandle c g =>
      can_wait g = negb (getXd c =? 0) /\ has_recieved g = false /\
      dispatched A j c (getter_id g)
  | CLocked c h => 0 <= h < 256 /\ exists r, A h = Reading j c r
  | CResp c h r => 0 <= h < 256 /\ A h = Reading j c r
  | CDone c r => resp_key r = cmd_key c
  | _ => True
  end.

(** The slot a client holds. *)
Definition slot_of (s : sys) (j : nat) : option Z :=
  match clients s !! j with
  | Some (CReleased c h) => if getXd c =? 0 then None else Some h
  | Some (CHandle c g) => if getXd c =? 0 then None else Some (getter_id g)
  | Some (CLocked _ h) | Some (CResp _ h _) => Some h
  | Some (CAnswered c) => if getXd c =? 0 then None else Some (pthread_wait_id (csf s))
  | Some (CPosted c) =>
      if getXd c =? 0 then None else
      match spc s with
      | SAlloc id => Some id
      | _ => if cmd_recieve_server_resp_lock (csf s) then None
             else Some (pthread_wait_id (csf s))
      end
  | _ => None
  end.

Record related (s : sys) (A : slot_state) : Prop := {
  r_idx : idx_ok (csf s);
  r_nodup : NoDup (free_slots (csf s));
  r_free : forall id, id ∈ free_slots (csf s) <-> 0 <= id < 256 /\ A id = Free;
  r_wait : forall id, 0 <= id < 256 ->
    zlookup (wait_for_response (csf s)) id = Some (negb (is_ready (A id)));
  r_resp : forall id i c r, 0 <= id < 256 ->
    A id = Ready i c r \/ A id = Reading i c r ->
    zlookup (responses (csf s)) id = Some r /\ resp_key r = cmd_key c;
  r_queue : forall k q, in_flight s !! k = Some q -> NoDup q /\
    forall id, id ∈ q -> 0 <= id < 256 /\ exists i c, A id = Pending i c /\ cmd_key c = k;
  r_pending : forall id i c, 0 <= id < 256 -> A id = Pending i c ->
    exists q, in_flight s !! cmd_key c = Some q /\ id ∈ q;
  r_hs : handshake s A;
  r_client : forall j p, clients s !! j = Some p -> client_ok A j p;
  r_owner : forall id, 0 <= id < 256 -> A id <> Free ->
    exists j, owner (A id) = Some j /\ slot_of s j = Some id;
  r_noquit : quit (csf s) = false /\ cmdserverlock s = false
}.

(** ** Lemmas on slots *)

Lemma upd_eq A id x : upd A id x id = x.
Proof. unfold upd. by rewrite decide_True. Qed.
Lemma upd_ne A id x y : y <> id -> upd A id x y = A y.
Proof. intros. unfold upd. by rewrite decide_False. Qed.

Lemma dispatched_frame A id x j c h :
  owner (A id) <> Some j -> dispatched A j c h -> dispatched (upd A id x) j c h.
Proof.
  unfold dispatched. destruct (negb _); [|done].
  intros Ho [Hr Hd]. split; [done|].
  rewrite upd_ne; [done|]. intros ->. destruct Hd as [E | [r E]]; rewrite E in Ho; done.
Qed.

Lemma client_ok_frame A id x j p :
  owner (A id) <> Some j -> client_ok A j p -> client_ok (upd A id x) j p.
Proof.
  intros Ho. destruct p; simpl; try done.
  - eauto using dispatched_frame.
  - intros (? & ? & ?). eauto using dispatched_frame.
  - intros [? [r E]]. split; [done|]. exists r. rewrite upd_ne; [done|].
    intros ->. by rewrite E in Ho.
  - intros [? E]. split; [done|]. rewrite upd_ne; [done|].
    intros ->. by rewrite E in Ho.
Qed.

(** A pending slot that becomes ready keeps every client's view. *)
Lemma dispatched_respond A id i c r j c' h :
  A id = Pending i c -> dispatched A j c' h ->
  dispatched (upd A id (Ready i c r)) j c' h.
Proof.
  intros Hp. unfold dispatched. destruct (negb _); [|done].
  intros [Hr Hd]. split; [done|]. destruct (decide (h = id)) as [->|].
  - rewrite upd_eq. destruct Hd as [E | [r' E]]; rewrite Hp in E; simplify_eq. eauto.
  - by rewrite upd_ne.
Qed.

Lemma client_ok_respond A id i c r j p :
  A id = Pending i c -> client_ok A j p -> client_ok (upd A id (Ready i c r)) j p.
Proof.
  intros Hp. destruct p; simpl; try done.
  - eauto using dispatched_respond.
  - intros (? & ? & ?). eauto using dispatched_respond.
  - intros [? [r' E]]. split; [done|]. exists r'. rewrite upd_ne; [done|]. by intros ->; rewrite Hp in E.
  - intros [? E]. split; [done|]. rewrite upd_ne; [done|]. by intros ->; rewrite Hp in E.
Qed.

(** The slot of a client outside the handshake depends on its own state only. *)
Lemma slot_of_local s t j p :
  clients s !! j = Some p -> clients t !! j = Some p -> sending p = false ->
  slot_of t j = slot_of s j.
Proof. intros Hs Ht Hp. unfold slot_of. rewrite Hs, Ht. by destruct p. Qed.

Lemma slot_of_lookup s j id : slot_of s j = Some id -> exists p, clients s !! j = Some p.
Proof. unfold slot_of. destruct (clients s !! j); naive_solver. Qed.

(** The handshake names the only client inside [send]. *)
Lemma handshake_sender s A j p :
  handshake s A -> clients s !! j = Some p -> sending p = true ->
  cmd_send_lock (csf s) = true /\ none_sending_but j (clients s).
Proof.
  intros Hs Hj Hp.
  assert (Huniq : forall i, none_sending_but i (clients s) -> none_sending_but j (clients s)).
  { intros i Hn k q Hk Hq. rewrite (Hn _ _ Hk Hq). symmetry. by eapply Hn. }
  destruct Hs as [? ? ? ? Hn|i c ? ? ? ? ? Hn|i c ? ? ? ? ? Hn|i c ? ? ? ? ? Hn
    |i c id ? ? ? ? ? Hn|i c ? ? ? ? ? Hn|i c ? ? ? ? ? Hn];
    try (split; [done|eauto]).
  by rewrite (Hn _ _ Hj) in Hp.
Qed.

Lemma none_sending_insert i p cl :
  none_sending_but i cl -> none_sending_but i (<[i := p]> cl).
Proof.
  intros Hn j q Hj Hq. destruct (decide (j = i)) as [->|]; [done|].
  rewrite list_lookup_insert_ne in Hj by done. eauto.
Qed.

Lemma none_sending_insert_quiet i j p cl :
  sending p = false -> none_sending_but i cl -> none_sending_but i (<[j := p]> cl).
Proof.
  intros Hp Hn k q Hk Hq.
  apply list_lookup_insert_Some in Hk as [(-> & <- & _)|[_ Hk]]; [congruence|eauto].
Qed.

Lemma all_quiet_insert j p (cl : list client_pc) :
  sending p = false -> (forall k q, cl !! k = Some q -> sending q = false) ->
  forall k q, (<[j := p]> cl) !! k = Some q -> sending q = false.
Proof.
  intros Hp Hn k q Hk. apply list_lookup_insert_Some in Hk as [(-> & <- & _)|[_ Hk]]; eauto.
Qed.

(** ** Steps that leave the slots alone

    The shared file keeps its slots, mutexes of the responses and responses,
    the table keeps its queues; only the handshake and one client move. *)

Definition same_slots (f g : cmd_server_file) : Prop :=
  wait_for_response f = wait_for_response g /\ responses f = responses g /\
  free_list f = free_list g /\ free_list_idx f = free_list_idx g /\ quit f = quit g.

Lemma related_quiet s t A i p :
  related s A -> same_slots (csf s) (csf t) -> in_flight t = in_flight s ->
  cmdserverlock t = cmdserverlock s ->
  clients t = <[i := p]> (clients s) ->
  handshake t A -> client_ok A i p ->
  (forall id, slot_of s i = Some id -> slot_of t i = Some id) ->
  (forall j, j <> i -> slot_of t j = slot_of s j) ->
  related t A.
Proof.
  intros [Hidx Hnd Hf Hw Hr Hq Hp Hh Hc Ho [Hqt Hl]] (Ew & Er & Ef & Ei & Eq) Em El Ec
    Hh' Hi Hsi Hsj.
  assert (Hfs : free_slots (csf t) = free_slots (csf s)).
  { unfold free_slots, free_count. by rewrite Ef, Ei. }
  split; try done.
  - unfold idx_ok, csf_shape in *. by rewrite <- Ew, <- Er, <- Ef, <- Ei.
  - by rewrite Hfs.
  - by rewrite Hfs.
  - by rewrite <- Ew.
  - by rewrite <- Er.
  - by rewrite Em.
  - by rewrite Em.
  - intros j q Hj. rewrite Ec in Hj.
    apply list_lookup_insert_Some in Hj as [(<- & <- & _)|[_ Hj]]; eauto.
  - intros id Hid HA. destruct (Ho id Hid HA) as (j & Hj & Hs). exists j. split; [done|].
    destruct (decide (j = i)) as [->|]; [eauto|]. by rewrite Hsj.
  - by rewrite <- Eq, El.
Qed.

(** The slots of the other clients do not move when only client [i] is in the
    handshake. *)
Lemma slot_of_others s t i p :
  clients t = <[i := p]> (clients s) -> none_sending_but i (clients s) ->
  forall j, j <> i -> slot_of t j = slot_of s j.
Proof.
  intros Ec Hn j Hj. destruct (clients s !! j) as [q|] eqn:E.
  - apply (slot_of_local s t j q); [done| |].
    + by rewrite Ec, list_lookup_insert_ne.
    + destruct (sending q) eqn:Eq; [|done]. by destruct (Hj (Hn _ _ E Eq)).
  - unfold slot_of. by rewrite E, Ec, list_lookup_insert_ne, E by done.
Qed.

Lemma slot_of_others_quiet s t i p :
  clients t = <[i := p]> (clients s) -> spc t = spc s ->
  cmd_recieve_server_resp_lock (csf t) = cmd_recieve_server_resp_lock (csf s) ->
  pthread_wait_id (csf t) = pthread_wait_id (csf s) ->
  forall j, j <> i -> slot_of t j = slot_of s j.
Proof.
  intros Ec Es Er Ep j Hj. unfold slot_of.
  by rewrite Ec, list_lookup_insert_ne, Es, Er, Ep by done.
Qed.

(** The fields of the shared file that the handshake is about. *)
Definition same_locks (f g : cmd_server_file) : Prop :=
  cmd_send_lock f = cmd_send_lock g /\ server_mut f = server_mut g /\
  cmd_recieve_server_resp_lock f = cmd_recieve_server_resp_lock g /\
  cmd f = cmd g /\ pthread_wait_id f = pthread_wait_id g.

Definition same_senders (cl cl' : list client_pc) : Prop :=
  forall j p, sending p = true -> cl !! j = Some p <-> cl' !! j = Some p.

(** What moves outside the handshake does not disturb it, as long as the slot
    of the client inside it is left alone. *)
Lemma handshake_move s t A B :
  handshake s A -> same_locks (csf s) (csf t) -> spc t = spc s ->
  same_senders (clients s) (clients t) ->
  (forall i p c id, clients s !! i = Some p -> sending p = true ->
     dispatched A i c id -> dispatched B i c id) ->
  (forall i p c id, clients s !! i = Some p -> sending p = true ->
     A id = Reserved i c -> B id = Reserved i c) ->
  handshake t B.
Proof.
  intros Hh (E1 & E2 & E3 & E4 & E5) Es Hs Hd Hr.
  assert (Hns : forall j, none_sending_but j (clients s) -> none_sending_but j (clients t)).
  { intros j Hn k q Hk Hq. apply (Hn k q); [by apply Hs|done]. }
  destruct Hh as [? ? ? ? Hn|i c ? ? ? ? Hi ?|i c ? ? ? ? Hi ?|i c ? ? ? ? Hi ?
    |i c id ? ? ? ? Hi ? ? ? Hid|i c ? ? ? ? Hi ?|i c ? ? ? ? Hi ?];
    try (assert (Hi' := Hi); apply Hs in Hi'; [|done]).
  - apply hs_idle; try congruence. intros j p Hj. destruct (sending p) eqn:Ep; [|done].
    apply Hs in Hj; [|done]. by rewrite (Hn _ _ Hj) in Ep.
  - eapply (hs_hold _ _ i c); eauto; congruence.
  - eapply (hs_posted _ _ i c); eauto; congruence.
  - eapply (hs_got _ _ i c); eauto; congruence.
  - eapply (hs_alloc _ _ i c id); eauto; try congruence.
    destruct (negb _); [|done]. destruct Hid. eauto.
  - eapply (hs_dispatched _ _ i c); eauto; try congruence. rewrite <- E5. eauto.
  - eapply (hs_answered _ _ i c); eauto; try congruence. rewrite <- E5. eauto.
Qed.

Lemma same_senders_insert cl i p q :
  cl !! i = Some p -> sending p = false -> sending q = false ->
  same_senders cl (<[i := q]> cl).
Proof.
  intros Hi Hp Hq j r Hr. rewrite list_lookup_insert_Some. split.
  - intros Hj. right. split; [|done]. intros ->. congruence.
  - intros [(-> & <- & _)|[_ Hj]]; [congruence|done].
Qed.

Lemma same_locks_refl f : same_locks f f.
Proof. done. Qed.
Lemma same_slots_refl f : same_slots f f.
Proof. done. Qed.

(** A client outside the handshake moves: only its own view is to be shown. *)
Lemma related_client s A i p q :
  related s A -> clients s !! i = Some p -> sending p = false -> sending q = false ->
  client_ok A i q -> slot_of (with_client s i q) i = slot_of s i ->
  related (with_client s i q) A.
Proof.
  intros Hr Hi Hp Hq Hc Hs. apply (related_quiet s _ A i q Hr); try done.
  - eapply handshake_move; eauto using r_hs, same_locks_refl.
    by apply (same_senders_insert _ _ p).
  - by rewrite Hs.
  - by eapply slot_of_others_quiet.
Qed.

(** Which phase the handshake is in, from what one client does. *)
Ltac hs_inv Hh Hi :=
  destruct Hh as [? ? ? ? Hn|k ck ? ? ? ? Hk Hn|k ck ? ? ? ? Hk Hn|k ck ? ? ? ? Hk Hn
    |k ck idk ? ? ? ? Hk Hn|k ck ? ? ? ? Hk Hn|k ck ? ? ? ? Hk Hn];
  [pose proof (Hn _ _ Hi); done|..];
  pose proof (Hn _ _ Hi eq_refl) as Hik; subst k;
  rewrite Hi in Hk; simplify_eq; try congruence.

(** The slot of the client that moved, computed. *)
Ltac slot_self Hi :=
  unfold slot_of; simpl; rewrite ?Hi;
  rewrite ?list_lookup_insert_eq by (by eapply lookup_lt_Some); simpl.

(** ** One simulation lemma per step *)

Lemma related_same s t A :
  related s A -> csf t = csf s -> in_flight t = in_flight s ->
  cmdserverlock t = cmdserverlock s -> spc t = spc s -> clients t = clients s ->
  related t A.
Proof.
  destruct s, t; simpl. intros [] -> -> -> -> ->. split; try done; simpl in *.
  by eapply (handshake_move (mk_sys _ _ _ _ _ _ _)).
Qed.

Section quiet_steps.
  Variable (info : beethoven_pack_info) (s t : sys) (A : slot_state).
  Hypothesis Hr : related s A.

Lemma sim_want_send i c : exec info (LWantSend i c) s = Some (Done t) -> related t A.
Proof using Hr.
  simpl. destruct (clients s !! i) as [[]|] eqn:Hi; intros; simplify_eq.
  eapply related_client; eauto; try done. by slot_self Hi.
Qed.

Lemma sim_lock_send i : exec info (LLockSend i) s = Some (Done t) -> related t A.
Proof using Hr.
  simpl. destruct (clients s !! i) as [[]|] eqn:Hi; try done.
  destruct (cmd_send_lock _) eqn:El; intros; simplify_eq.
  destruct (r_hs _ _ Hr) as [H1 H2 H3 H4 Hn| | | | | |]; try congruence.
  assert (Hnb : none_sending_but i (clients s)).
  { intros j p Hj Hp. by rewrite (Hn _ _ Hj) in Hp. }
  apply (related_quiet s _ A i (CHoldSend c) Hr); try done.
  - apply (hs_hold _ _ i c); try done; simpl.
    + apply list_lookup_insert_eq. by eapply lookup_lt_Some.
    + by apply none_sending_insert.
  - intros id. by slot_self Hi.
  - by eapply slot_of_others.
Qed.

Lemma sim_post i : exec info (LPost i) s = Some (Done t) -> related t A.
Proof using Hr.
  simpl. destruct (clients s !! i) as [[]|] eqn:Hi; intros; simplify_eq.
  pose proof (r_hs _ _ Hr) as Hh. hs_inv Hh Hi.
  apply (related_quiet s _ A i (CPosted ck) Hr); try done.
  - apply (hs_posted _ _ i ck); try done; simpl.
    + apply list_lookup_insert_eq. by eapply lookup_lt_Some.
    + by apply none_sending_insert.
  - intros id. by slot_self Hi.
  - by eapply slot_of_others.
Qed.

Lemma sim_wake : exec info LServerWake s = Some (Done t) -> related t A.
Proof using Hr.
  simpl. destruct (spc s) eqn:Es; try done.
  destruct (server_mut _) eqn:El; intros; simplify_eq.
  destruct (r_hs _ _ Hr) as [|i c|i c H1 H2 H3 H4 Hi Hn Hc| | | |]; try congruence.
  apply (related_quiet s _ A i (CPosted c) Hr); try done.
  - simpl. by rewrite list_insert_id.
  - by eapply (hs_got _ _ i c).
  - intros id. unfold slot_of; simpl. by rewrite Hi, H4, H3.
  - eapply (slot_of_others _ _ i (CPosted c)); [|done]. simpl. by rewrite list_insert_id.
Qed.

Lemma sim_answer i : exec info (LAnswer i) s = Some (Done t) -> related t A.
Proof using Hr.
  simpl. destruct (clients s !! i) as [[]|] eqn:Hi; try done.
  destruct (cmd_recieve_server_resp_lock _) eqn:El; intros; simplify_eq.
  pose proof (r_hs _ _ Hr) as Hh. hs_inv Hh Hi.
  apply (related_quiet s _ A i (CAnswered ck) Hr); try done.
  - apply (hs_answered _ _ i ck); try done; simpl.
    + apply list_lookup_insert_eq. by eapply lookup_lt_Some.
    + by apply none_sending_insert.
  - intros id. slot_self Hi.
    match goal with H : spc s = SWait |- _ => rewrite H end. by rewrite El.
  - by eapply slot_of_others.
Qed.

Lemma sim_read_handle i : exec info (LReadHandle i) s = Some (Done t) -> related t A.
Proof using Hr.
  simpl. destruct (clients s !! i) as [[]|] eqn:Hi; intros; simplify_eq.
  pose proof (r_hs _ _ Hr) as Hh. hs_inv Hh Hi.
  apply (related_quiet s _ A i (CReleased ck (pthread_wait_id (csf s))) Hr); try done.
  - apply hs_idle; try done; simpl. intros j p Hj.
    apply list_lookup_insert_Some in Hj as [(-> & <- & _)|[Hji Hj]]; [done|].
    destruct (sending p) eqn:Ep; [|done]. by destruct (Hji (eq_sym (Hn _ _ Hj Ep))).
  - intros id. by slot_self Hi.
  - by eapply slot_of_others.
Qed.

Lemma sim_return i : exec info (LReturn i) s = Some (Done t) -> related t A.
Proof using Hr.
  simpl. destruct (clients s !! i) as [[]|] eqn:Hi; intros; simplify_eq.
  destruct (r_noquit _ _ Hr) as [Hq _]. pose proof (r_client _ _ Hr _ _ Hi) as Hc.
  apply (related_quiet s _ A i (CHandle c (mk_getter (negb (getXd c =? 0)) false h)) Hr);
    try done.
  - eapply (handshake_move s); eauto using r_hs; [done|]. by eapply same_senders_insert.
  - intros id. by slot_self Hi.
  - by eapply slot_of_others_quiet.
Qed.

Lemma sim_get_read i : exec info (LGetRead i) s = Some (Done t) -> related t A.
Proof using Hr.
  simpl. destruct (clients s !! i) as [[]|] eqn:Hi; intros Hx; simplify_eq.
  apply bind_Done in Hx as (r & Hv & Hx). simplify_eq.
  apply vget_Done in Hv. destruct (r_client _ _ Hr _ _ Hi) as [Hh [r' HA]].
  destruct (r_resp _ _ Hr h i c r' Hh (or_intror HA)) as [Hv' _].
  assert (r' = r) as -> by congruence.
  eapply related_client; eauto; try done. by slot_self Hi.
Qed.

Lemma sim_forget i : exec info (LForget i) s = Some (Done t) -> related t A.
Proof using Hr.
  simpl. destruct (clients s !! i) as [[]|] eqn:Hi; try done.
  - destruct (can_wait g) eqn:Eg; intros; simplify_eq.
    destruct (r_client _ _ Hr _ _ Hi) as (Hw & _ & _). rewrite Eg in Hw.
    eapply related_client; eauto; try done. slot_self Hi. by destruct (getXd c =? 0).
  - intros; simplify_eq. eapply related_client; eauto; try done. by slot_self Hi.
Qed.

(** The front end takes a command: the clients and the slots do not see it. *)
Lemma sim_pop : exec info LPopCmd s = Some (Done t) -> related t A.
Proof using Hr.
  simpl. destruct (cmdserverlock s) eqn:El; [done|]. destruct (cmds s); intros; simplify_eq.
  by apply (related_same s).
Qed.

Lemma sim_alloc_quiet :
  getXd (cmd (csf s)) = 0 -> exec info LServerAlloc s = Some (Done t) -> related t A.
Proof using Hr.
  intros Hx. simpl. destruct (spc s) eqn:Es; try done.
  destruct (free_list_lock _); intros; simplify_eq.
  unfold server_alloc in *. rewrite Hx in *. simplify_eq/=.
  destruct (r_hs _ _ Hr) as [|i c|i c|i c H1 H2 H3 H4 Hi Hn Hc| | |]; try congruence.
  rewrite Hc in Hx.
  apply (related_quiet s _ A i (CPosted c) Hr); try done.
  - simpl. by rewrite list_insert_id.
  - eapply (hs_alloc _ _ i c); try done. by rewrite Hx.
  - intros id. unfold slot_of; simpl. by rewrite Hi, Hx.
  - eapply (slot_of_others _ _ i (CPosted c)); [|done]. simpl. by rewrite list_insert_id.
Qed.

Lemma sim_dispatch_quiet :
  getXd (cmd (csf s)) = 0 -> exec info LServerDispatch s = Some (Done t) -> related t A.
Proof using Hr.
  intros Hx. simpl. destruct (spc s) eqn:Es; try done.
  destruct (r_noquit _ _ Hr) as [Hq El]. rewrite El. intros; simplify_eq.
  unfold server_dispatch. rewrite Hq, Hx. simpl.
  destruct (r_hs _ _ Hr) as [|i c|i c|i c|i c id' H1 H2 H3 H4 Hi Hn Hc| |]; try congruence.
  rewrite Hc in Hx.
  apply (related_quiet s _ A i (CPosted c) Hr); try done.
  - simpl. by rewrite list_insert_id.
  - eapply (hs_dispatched _ _ i c); try done. unfold dispatched. by rewrite Hx.
  - intros id0. unfold slot_of; simpl. by rewrite Hi, Hx.
  - eapply (slot_of_others _ _ i (CPosted c)); [|done]. simpl. by rewrite list_insert_id.
Qed.

End quiet_steps.

(** Distinct numbers below 256 that miss one of them are fewer than 256. *)
Lemma length_lt_256 (l : list Z) h :
  NoDup l -> 0 <= h < 256 -> (forall x, x ∈ l -> 0 <= x < 256) -> h ∉ l ->
  (length l < 256)%nat.
Proof.
  intros Hnd Hh Hr Hn.
  assert (Hle : (length (h :: l) <= length (zrange 0 256))%nat).
  { apply submseteq_length, NoDup_submseteq; [by constructor|].
    intros x [->|Hx]%elem_of_cons; apply elem_of_zrange; [lia|]. apply Hr in Hx. lia. }
  rewrite length_zrange in Hle. simpl in Hle. lia.
Qed.

(** A slot being read leaves room on the free list. *)
Lemma free_count_lt s A h i c r : related s A -> 0 <= h < 256 -> A h = Reading i c r ->
  (free_count (csf s) < 256)%nat.
Proof.
  intros Hr Hid HA. rewrite <- length_free_slots by apply (r_idx _ _ Hr).
  apply (length_lt_256 _ h); [apply (r_nodup _ _ Hr)|done| |].
  - intros y Hy. by apply (r_free _ _ Hr) in Hy as [? _].
  - intros Hin. apply (r_free _ _ Hr) in Hin as [_ E]. congruence.
Qed.

(** ** Steps that move one slot *)

Section slot_steps.
  Variable (info : beethoven_pack_info) (s : sys) (A : slot_state).
  Hypothesis Hr : related s A.

Lemma owner_slot id i : 0 <= id < 256 -> owner (A id) = Some i -> slot_of s i = Some id.
Proof using Hr.
  intros Hid Ho. destruct (r_owner _ _ Hr id Hid) as (j & Hj & Hs); [|congruence].
  intros E. by rewrite E in Ho.
Qed.

(** The views of the clients after slot [id] of client [i] moved. *)
Lemma clients_upd t id x i p :
  clients t = <[i := p]> (clients s) -> (forall j, j <> i -> owner (A id) <> Some j) ->
  client_ok (upd A id x) i p ->
  forall j q, clients t !! j = Some q -> client_ok (upd A id x) j q.
Proof using Hr.
  intros Ec Ho Hp j q Hj. rewrite Ec in Hj.
  apply list_lookup_insert_Some in Hj as [(<- & <- & _)|[Hji Hj]]; [done|].
  apply client_ok_frame; [by apply Ho|]. by apply (r_client _ _ Hr).
Qed.

Lemma owners_upd t id x i :
  (slot_of s i = None \/ slot_of s i = Some id) ->
  (x = Free \/ (owner x = Some i /\ slot_of t i = Some id)) ->
  (forall j, j <> i -> slot_of t j = slot_of s j) ->
  forall id', 0 <= id' < 256 -> upd A id x id' <> Free ->
    exists j, owner (upd A id x id') = Some j /\ slot_of t j = Some id'.
Proof using Hr.
  intros Hsi Hx Hsj id' Hid' HA. destruct (decide (id' = id)) as [->|Hne].
  - rewrite upd_eq in *. destruct Hx as [->|[? ?]]; [done|eauto].
  - rewrite upd_ne in * by done. destruct (r_owner _ _ Hr id' Hid' HA) as (j & Hj & Hs).
    exists j. split; [done|]. rewrite Hsj; [done|]. intros ->. destruct Hsi; congruence.
Qed.

(** A slot that neither was nor becomes pending. *)
Lemma related_upd t id x i p :
  idx_ok (csf t) -> NoDup (free_slots (csf t)) ->
  (forall id', id' ∈ free_slots (csf t) <-> 0 <= id' < 256 /\ upd A id x id' = Free) ->
  zlookup (wait_for_response (csf t)) id = Some (negb (is_ready x)) ->
  (forall id', id' <> id ->
     zlookup (wait_for_response (csf t)) id' = zlookup (wait_for_response (csf s)) id') ->
  responses (csf t) = responses (csf s) ->
  (forall i c r, x = Ready i c r \/ x = Reading i c r ->
     A id = Ready i c r \/ A id = Reading i c r) ->
  in_flight t = in_flight s ->
  (forall i c, A id <> Pending i c) -> (forall i c, x <> Pending i c) ->
  handshake t (upd A id x) -> clients t = <[i := p]> (clients s) ->
  (forall j, j <> i -> owner (A id) <> Some j) -> client_ok (upd A id x) i p ->
  (slot_of s i = None \/ slot_of s i = Some id) ->
  (x = Free \/ (owner x = Some i /\ slot_of t i = Some id)) ->
  (forall j, j <> i -> slot_of t j = slot_of s j) ->
  quit (csf t) = false /\ cmdserverlock t = false ->
  related t (upd A id x).
Proof using Hr.
  intros Hidx Hnd Hf Hw Hw' Er Hresp Em HnA Hnx Hh Ec Ho Hp Hsi Hx Hsj Hq.
  split; try done.
  - intros id' Hid'. destruct (decide (id' = id)) as [->|]; [by rewrite upd_eq|].
    rewrite upd_ne, Hw' by done. by apply (r_wait _ _ Hr).
  - intros id' j c r Hid' HA. rewrite Er. destruct (decide (id' = id)) as [->|].
    + rewrite upd_eq in HA. eapply (r_resp _ _ Hr); eauto.
    + rewrite upd_ne in HA by done. eapply (r_resp _ _ Hr); eauto.
  - intros k q Hk. rewrite Em in Hk. destruct (r_queue _ _ Hr k q Hk) as [Hn Hin].
    split; [done|]. intros id' Hid'. destruct (Hin id' Hid') as (? & j & c & HA & ?).
    split; [done|]. exists j, c. rewrite upd_ne; [done|]. intros ->. by destruct (HnA j c).
  - intros id' j c Hid' HA. rewrite Em. destruct (decide (id' = id)) as [->|].
    + rewrite upd_eq in HA. by destruct (Hnx j c).
    + rewrite upd_ne in HA by done. by eapply (r_pending _ _ Hr).
  - by eapply clients_upd.
  - by eapply owners_upd.
Qed.

(** The server reserves a free slot for the command it was given. *)
Lemma sim_alloc t :
  getXd (cmd (csf s)) <> 0 -> exec info LServerAlloc s = Some (Done t) ->
  exists B, slot_step A B /\ related t B.
Proof using Hr.
  intros Hx. simpl. destruct (spc s) eqn:Es; try done.
  destruct (free_list_lock _); intros Hd; simplify_eq.
  unfold server_alloc in Hd. rewrite (proj2 (Z.eqb_neq _ _) Hx) in Hd. simpl in Hd.
  apply bind_Done in Hd as ([id f'] & Hpop & Hd). simplify_eq.
  pose proof (pop_slot_spec _ (r_idx _ _ Hr)) as Hsp. rewrite Hpop in Hsp.
  destruct Hsp as (Efs & Hidx & _).
  apply bind_Done in Hpop as (id0 & _ & Hpop). simplify_eq.
  destruct (r_hs _ _ Hr) as [|i c|i c|i c H1 H2 H3 H4 Hi Hn Hc| | |]; try congruence.
  pose proof (r_nodup _ _ Hr) as Hnd. rewrite Efs in Hnd.
  apply NoDup_app in Hnd as (Hnd & Hdj & _).
  assert (Hid : id ∈ free_slots (csf s)) by (rewrite Efs; set_solver).
  apply (r_free _ _ Hr) in Hid as [Hid HA].
  exists (upd A id (Reserved i c)). split; [by constructor|].
  rewrite Hc in Hx. apply Z.eqb_neq in Hx.
  eapply (related_upd _ id _ i (CPosted c)); try done; simpl.
  - intros id'. destruct (decide (id' = id)) as [->|Hne].
    + rewrite upd_eq. split; [|by intros []]. intros Hin. by destruct (Hdj _ Hin); left.
    + rewrite upd_ne by done. rewrite <- (r_free _ _ Hr), Efs, elem_of_app, list_elem_of_singleton. tauto.
  - rewrite (r_wait _ _ Hr) by done. by rewrite HA.
  - intros ? ? ? [?|?]; done.
  - by rewrite HA.
  - eapply (hs_alloc _ _ i c); try done. rewrite Hx, upd_eq. done.
  - by rewrite list_insert_id.
  - by rewrite HA.
  - left. unfold slot_of. by rewrite Hi, Hx, H4, H3.
  - right. split; [done|]. unfold slot_of; simpl. by rewrite Hi, Hx.
  - eapply (slot_of_others _ _ i (CPosted c)); [|done]. simpl. by rewrite list_insert_id.
  - destruct (r_noquit _ _ Hr). done.
Qed.

(** The handshake does not see a slot of a client outside it. *)
Lemma handshake_upd t id x i p q :
  clients s !! i = Some p -> sending p = false -> sending q = false ->
  owner (A id) = Some i -> same_locks (csf s) (csf t) -> spc t = spc s ->
  clients t = <[i := q]> (clients s) -> handshake t (upd A id x).
Proof using Hr.
  intros Hi Hp Hq Ho El Es Ec.
  assert (Hne : forall j p', clients s !! j = Some p' -> sending p' = true ->
    owner (A id) <> Some j) by (intros j p' Hj Hs; congruence).
  eapply (handshake_move s); eauto using r_hs.
  - rewrite Ec. by eapply same_senders_insert.
  - intros j p' c' h Hj Hs Hd. apply dispatched_frame; eauto.
  - intros j p' c' h Hj Hs HA. rewrite upd_ne; [done|]. intros ->.
    eapply Hne; eauto. by rewrite HA.
Qed.

(** A client takes the response slot it was given once the response is in. *)
Lemma sim_get_lock t i : exec info (LGetLock i) s = Some (Done t) ->
  exists B, slot_step A B /\ related t B.
Proof using Hr.
  simpl. destruct (clients s !! i) as [[]|] eqn:Hi; try done.
  destruct (r_client _ _ Hr _ _ Hi) as (Hw & Hrec & Hd). unfold getter_get.
  rewrite Hw, Hrec. unfold dispatched in Hd.
  destruct (getXd c =? 0) eqn:Hx; simpl in *.
  { intros; simplify_eq. exists A. split; [constructor|].
    eapply (related_client s); eauto; try done. slot_self Hi. by rewrite Hx. }
  destruct Hd as [Hid Hd]. pose proof (r_wait _ _ Hr _ Hid) as Hwait.
  unfold vget. rewrite Hwait. simpl. destruct (is_ready _) eqn:Erd; simpl; [|done].
  intros He; simplify_eq. apply bind_Done in He as (w & Hvs & He). simplify_eq.
  destruct Hd as [Hd|[r HA]]; [by rewrite Hd in Erd|].
  apply vset_Done in Hvs as [Hlen ->].
  pose proof (r_idx _ _ Hr) as [(Hlw & Hlr & Hlf) Hix].
  exists (upd A (getter_id g) (Reading i c r)). split; [by apply ss_lock|].
  eapply (related_upd _ (getter_id g) _ i (CLocked c (getter_id g))); try done; simpl.
  - split; [|done]. unfold csf_shape; simpl. by rewrite length_zinsert.
  - by apply (r_nodup _ _ Hr).
  - intros id'. etransitivity; [apply (r_free _ _ Hr)|].
    destruct (decide (id' = getter_id g)) as [->|Hne]; [|by rewrite upd_ne].
    rewrite upd_eq, HA. naive_solver.
  - by apply zlookup_zinsert_eq.
  - intros id' Hne. by apply zlookup_zinsert_ne.
  - intros ? ? ? [|]; naive_solver.
  - by rewrite HA.
  - eapply (handshake_upd _ _ _ i); eauto; try done. by rewrite HA.
  - rewrite HA. naive_solver.
  - rewrite upd_eq. eauto.
  - right. slot_self Hi. by rewrite Hx.
  - right. split; [done|]. by slot_self Hi.
  - by eapply slot_of_others_quiet.
  - by destruct (r_noquit _ _ Hr).
Qed.

(** A client gives its slot back. *)
Lemma sim_get_free t i : exec info (LGetFree i) s = Some (Done t) ->
  exists B, slot_step A B /\ related t B.
Proof using Hr.
  simpl. destruct (clients s !! i) as [[]|] eqn:Hi; try done.
  destruct (free_list_lock _); [done|]. intros He. injection He as He.
  apply bind_Done in He as (f' & Hpush & He). simplify_eq.
  destruct (r_client _ _ Hr _ _ Hi) as (Hid & HA).
  assert (Hcnt := free_count_lt _ _ _ _ _ _ Hr Hid HA).
  destruct (push_slot_spec _ h (r_idx _ _ Hr) Hid Hcnt) as (f'' & Hpush' & Efs & Hidx).
  assert (f'' = f') as -> by congruence.
  apply bind_Done in Hpush as (l & _ & Hpush). simplify_eq.
  destruct (r_resp _ _ Hr h i c r Hid (or_intror HA)) as [_ Hkey].
  exists (upd A h Free). split; [by eapply ss_release|].
  eapply (related_upd _ h _ i (CDone c r)); try done; simpl.
  - rewrite Efs. apply NoDup_app. split; [apply (r_nodup _ _ Hr)|]. split.
    + intros x Hx ->%list_elem_of_singleton. apply (r_free _ _ Hr) in Hx as [_ E]. congruence.
    + apply NoDup_singleton.
  - intros id'. rewrite Efs, elem_of_app, list_elem_of_singleton, (r_free _ _ Hr).
    destruct (decide (id' = h)) as [->|Hne]; [rewrite upd_eq|rewrite upd_ne by done]; naive_solver.
  - rewrite (r_wait _ _ Hr) by done. by rewrite HA.
  - intros ? ? ? [|]; naive_solver.
  - by rewrite HA.
  - eapply (handshake_upd _ _ _ i); eauto; try done. by rewrite HA.
  - rewrite HA. naive_solver.
  - right. by slot_self Hi.
  - by left.
  - by eapply slot_of_others_quiet.
  - by destruct (r_noquit _ _ Hr).
Qed.

(** The in-flight table when slot [id] is queued for command [c] ... *)
Lemma queue_dispatch id i c :
  0 <= id < 256 -> A id = Reserved i c ->
  let m := <[cmd_key c := default [] (in_flight s !! cmd_key c) ++ [id]]> (in_flight s) in
  forall k q, m !! k = Some q -> NoDup q /\
    forall id', id' ∈ q -> 0 <= id' < 256 /\
      exists i' c', upd A id (Pending i c) id' = Pending i' c' /\ cmd_key c' = k.
Proof using Hr.
  intros Hid HA m k q Hk.
  assert (Hold : forall k q, in_flight s !! k = Some q -> NoDup q /\ (id ∉ q) /\
    forall id', id' ∈ q -> 0 <= id' < 256 /\
      exists i' c', upd A id (Pending i c) id' = Pending i' c' /\ cmd_key c' = k).
  { intros k' q' Hk'. destruct (r_queue _ _ Hr _ _ Hk') as [Hnd Hin].
    assert (Hni : id ∉ q').
    { intros Hq. destruct (Hin _ Hq) as (_ & ? & ? & E & _). congruence. }
    split; [done|]. split; [done|]. intros id' Hq. destruct (Hin _ Hq) as (? & j & c' & E & ?).
    split; [done|]. exists j, c'. rewrite upd_ne; [done|]. by intros ->. }
  apply lookup_insert_Some in Hk as [[<- <-]|[Hne Hk]]; [|naive_solver].
  destruct (in_flight s !! cmd_key c) as [q|] eqn:E; simpl.
  - destruct (Hold _ _ E) as (Hnd & Hni & Hin). split.
    + apply NoDup_app. split; [done|]. split; [|apply NoDup_singleton].
      intros x Hx ->%list_elem_of_singleton. done.
    + intros id' [Hq| ->%list_elem_of_singleton]%elem_of_app; [by apply Hin|].
      split; [done|]. exists i, c. by rewrite upd_eq.
  - split; [apply NoDup_singleton|]. intros id' ->%list_elem_of_singleton.
    split; [done|]. exists i, c. by rewrite upd_eq.
Qed.

Lemma pending_dispatch id i c :
  A id = Reserved i c ->
  let m := <[cmd_key c := default [] (in_flight s !! cmd_key c) ++ [id]]> (in_flight s) in
  forall id' i' c', 0 <= id' < 256 -> upd A id (Pending i c) id' = Pending i' c' ->
    exists q, m !! cmd_key c' = Some q /\ id' ∈ q.
Proof using Hr.
  intros HA m id' i' c' Hid' HB. subst m. destruct (decide (id' = id)) as [->|Hne].
  - rewrite upd_eq in HB. simplify_eq. rewrite lookup_insert_eq. eexists. split; [done|].
    apply elem_of_app. right. by left.
  - rewrite upd_ne in HB by done. destruct (r_pending _ _ Hr _ _ _ Hid' HB) as (q & Hq & Hin).
    destruct (decide (cmd_key c' = cmd_key c)) as [E|E].
    + rewrite E, lookup_insert_eq. rewrite E in Hq. rewrite Hq. simpl.
      eexists. split; [done|]. apply elem_of_app. by left.
    + rewrite lookup_insert_ne by done. eauto.
Qed.

(** ... and when the oldest slot of a core is answered. *)
Lemma queue_respond id i c r q0 :
  A id = Pending i c -> in_flight s !! resp_key r = Some (id :: q0) ->
  forall k q, (<[resp_key r := q0]> (in_flight s)) !! k = Some q -> NoDup q /\
    forall id', id' ∈ q -> 0 <= id' < 256 /\
      exists i' c', upd A id (Ready i c r) id' = Pending i' c' /\ cmd_key c' = k.
Proof using Hr.
  intros HA Eq k q Hk. destruct (r_queue _ _ Hr _ _ Eq) as [Hnd Hin].
  apply NoDup_cons in Hnd as [Hni Hnd].
  destruct (Hin id) as (_ & ? & ? & HA' & Hkey); [by left|]. rewrite HA in HA'. simplify_eq.
  apply lookup_insert_Some in Hk as [[<- <-]|[Hne Hk]].
  - split; [done|]. intros id' Hq. destruct (Hin id') as (? & j & c' & ? & ?); [by right|].
    split; [done|]. exists j, c'. rewrite upd_ne; [done|]. by intros ->.
  - destruct (r_queue _ _ Hr _ _ Hk) as [Hnd' Hin']. split; [done|].
    intros id' Hq. destruct (Hin' id' Hq) as (? & j & c' & HA' & ?).
    split; [done|]. exists j, c'. rewrite upd_ne; [done|]. intros ->.
    rewrite HA in HA'. congruence.
Qed.

Lemma pending_respond id i c r q0 :
  A id = Pending i c -> in_flight s !! resp_key r = Some (id :: q0) ->
  forall id' i' c', 0 <= id' < 256 -> upd A id (Ready i c r) id' = Pending i' c' ->
    exists q, (<[resp_key r := q0]> (in_flight s)) !! cmd_key c' = Some q /\ id' ∈ q.
Proof using Hr.
  intros HA Eq id' i' c' Hid' HB. destruct (decide (id' = id)) as [->|Hne].
  { by rewrite upd_eq in HB. }
  rewrite upd_ne in HB by done. destruct (r_pending _ _ Hr _ _ _ Hid' HB) as (q & Hq & Hin).
  destruct (decide (cmd_key c' = resp_key r)) as [E|E].
  - rewrite E in *. rewrite Eq in Hq. simplify_eq. rewrite lookup_insert_eq.
    eexists. split; [done|]. apply elem_of_cons in Hin as [->|]; done.
  - rewrite lookup_insert_ne by done. eauto.
Qed.

(** The server queues the reserved slot behind the core's earlier commands. *)
Lemma sim_dispatch t :
  getXd (cmd (csf s)) <> 0 -> exec info LServerDispatch s = Some (Done t) ->
  exists B, slot_step A B /\ related t B.
Proof using Hr.
  intros Hx. simpl. destruct (spc s) eqn:Es; try done.
  destruct (r_noquit _ _ Hr) as [Hq El]. rewrite El. intros; simplify_eq.
  destruct (r_hs _ _ Hr) as [|i c|i c|i c|i c id' H1 H2 H3 H4 Hi Hn Hc Hw Hid| |];
    try congruence.
  assert (id' = id) as -> by congruence.
  unfold server_dispatch. rewrite Hq, Hc. rewrite Hc in Hx. apply Z.eqb_neq in Hx.
  rewrite Hx in *. simpl in *. destruct Hid as [Hid HA].
  assert (Ecl : clients s = <[i := CPosted c]> (clients s)) by (by rewrite list_insert_id).
  exists (upd A id (Pending i c)). split; [by apply ss_dispatch|].
  split; simpl; try done.
  - apply (r_idx _ _ Hr).
  - apply (r_nodup _ _ Hr).
  - intros id'. etransitivity; [apply (r_free _ _ Hr)|].
    destruct (decide (id' = id)) as [->|]; [|by rewrite upd_ne].
    rewrite upd_eq, HA. naive_solver.
  - intros id' Hid'. rewrite (r_wait _ _ Hr) by done.
    destruct (decide (id' = id)) as [->|]; [|by rewrite upd_ne]. by rewrite upd_eq, HA.
  - intros id' j c' r Hid' HB. destruct (decide (id' = id)) as [->|].
    + rewrite upd_eq in HB. naive_solver.
    + rewrite upd_ne in HB by done. eapply (r_resp _ _ Hr); eauto.
  - by apply queue_dispatch.
  - by apply pending_dispatch.
  - eapply (hs_dispatched _ _ i c); try done; simpl.
    unfold dispatched. rewrite Hx, Hw, upd_eq. simpl. eauto.
  - eapply (clients_upd _ id _ i (CPosted c)); [done| |done]. rewrite HA. naive_solver.
  - eapply (owners_upd _ id _ i).
    + right. apply owner_slot; [done|]. by rewrite HA.
    + right. split; [done|]. unfold slot_of; simpl. by rewrite Hi, Hx, Hw.
    + by eapply (slot_of_others _ _ i (CPosted c)).
Qed.

(** A response makes the oldest pending slot of its core ready. *)
Lemma sim_respond t b0 b1 b2 :
  exec info (LRespond b0 b1 b2) s = Some (Done t) ->
  exists B, slot_step A B /\ related t B.
Proof using Hr.
  simpl. destruct (cmdserverlock s); [done|]. intros He. injection He as He.
  unfold register_response in He. set (r := decode_response b0 b1 b2 info) in *.
  destruct (in_flight s !! resp_key r) as [q|] eqn:Eq.
  2:{ simplify_eq. exists A. split; [constructor|].
      apply (related_same s); try done. }
  apply bind_Done in He as (id & Hhd & He). apply bind_Done in He as (rs & Hrs & He).
  apply bind_Done in He as (w & Hwt & He). simplify_eq.
  destruct q as [|id0 q]; simpl in Hhd; [done|]. injection Hhd as ->. simpl.
  apply vset_Done in Hrs as [Hlr ->]. apply vset_Done in Hwt as [Hlw ->].
  destruct (r_queue _ _ Hr _ _ Eq) as [Hnd Hin].
  destruct (Hin id) as (Hid & i & c & HA & Hkey); [by left|].
  exists (upd A id (Ready i c r)). split; [by apply ss_respond|].
  split; simpl; try done.
  - destruct (r_idx _ _ Hr) as [(? & ? & ?) ?]. split; [|done].
    unfold csf_shape; simpl. by rewrite !length_zinsert.
  - apply (r_nodup _ _ Hr).
  - intros id'. etransitivity; [apply (r_free _ _ Hr)|].
    destruct (decide (id' = id)) as [->|]; [|by rewrite upd_ne].
    rewrite upd_eq, HA. naive_solver.
  - intros id' Hid'. destruct (decide (id' = id)) as [->|].
    + rewrite upd_eq. by apply zlookup_zinsert_eq.
    + rewrite upd_ne, zlookup_zinsert_ne by done. by apply (r_wait _ _ Hr).
  - intros id' j c' r' Hid' HB. destruct (decide (id' = id)) as [->|].
    + rewrite upd_eq in HB. destruct HB; simplify_eq. by rewrite zlookup_zinsert_eq.
    + rewrite upd_ne in HB by done. rewrite zlookup_zinsert_ne by done.
      eapply (r_resp _ _ Hr); eauto.
  - by apply queue_respond.
  - by apply pending_respond.
  - eapply (handshake_move s); eauto using r_hs, dispatched_respond; try done.
    intros j p c' id' _ _ HR. rewrite upd_ne; [done|]. congruence.
  - intros j p Hj. apply client_ok_respond; [done|]. by apply (r_client _ _ Hr).
  - eapply (owners_upd _ id _ i); try done.
    + right. apply owner_slot; [done|]. by rewrite HA.
    + right. split; [done|]. apply owner_slot; [done|]. by rewrite HA.
  - by destruct (r_noquit _ _ Hr).
Qed.

End slot_steps.

(** ** The whole system *)

(** Every step of the system is a step of the slot machine. *)
Lemma simulation info s t A :
  related s A -> step_without_shutdown info s t -> exists B, slot_step A B /\ related t B.
Proof.
  intros Hr (l & Hl & He).
  assert (Hq : related t A -> exists B, slot_step A B /\ related t B)
    by (intros; exists A; split; [constructor|done]).
  destruct l; try done.
  - apply Hq. by eapply sim_want_send.
  - apply Hq. by eapply sim_lock_send.
  - apply Hq. by eapply sim_post.
  - apply Hq. by eapply sim_wake.
  - destruct (decide (getXd (cmd (csf s)) = 0)).
    + apply Hq. by eapply sim_alloc_quiet.
    + by eapply sim_alloc.
  - destruct (decide (getXd (cmd (csf s)) = 0)).
    + apply Hq. by eapply sim_dispatch_quiet.
    + by eapply sim_dispatch.
  - apply Hq. by eapply sim_answer.
  - apply Hq. by eapply sim_read_handle.
  - apply Hq. by eapply sim_return.
  - by eapply sim_get_lock.
  - apply Hq. by eapply sim_get_read.
  - by eapply sim_get_free.
  - apply Hq. by eapply sim_forget.
  - by eapply sim_respond.
  - apply Hq. by eapply sim_pop.
Qed.

Lemma boot_related f n : length (responses f) = 256%nat -> related (boot f n) (fun _ => Free).
Proof.
  intros Hlen.
  assert (Hcl : forall j p, clients (boot f n) !! j = Some p -> p = CIdle).
  { intros j p Hj. simpl in Hj. by apply lookup_replicate in Hj as [-> _]. }
  split; try done.
  - split; [|left; simpl; lia]. split; [done|]. done.
  - apply (NoDup_zrange 0 256).
  - intros id. change (free_slots (csf (boot f n))) with (zrange 0 256).
    rewrite elem_of_zrange. naive_solver.
  - intros id Hid. change (wait_for_response (csf (boot f n))) with (replicate 256 true).
    unfold zlookup. rewrite decide_True by lia. apply lookup_replicate_2. lia.
  - intros id i c r _ [?|?]; done.
  - apply hs_idle; try done. intros j p Hj. by rewrite (Hcl _ _ Hj).
  - intros j p Hj. by rewrite (Hcl _ _ Hj).
Qed.

Lemma run_related info s t A :
  steps (step_without_shutdown info) s t -> related s A ->
  exists B, steps slot_step A B /\ related t B.
Proof.
  intros Hs. revert A. induction Hs as [s|s t u Hst Htu IH]; intros A Hr.
  - exists A. split; [constructor|done].
  - destruct (simulation _ _ _ _ Hr Hst) as (B & HAB & HB).
    destruct (IH B HB) as (C & HBC & HC). exists C. split; [|done]. by econstructor.
Qed.

(** A client that holds a slot is the one the slot was reserved for. *)
Lemma slot_owner s A i id : related s A -> slot_of s i = Some id -> owner (A id) = Some i.
Proof.
  intros Hr Hs. destruct (slot_of_lookup _ _ _ Hs) as [p Hi].
  pose proof (r_client _ _ Hr _ _ Hi) as Hc. unfold slot_of in Hs. rewrite Hi in Hs.
  assert (Hd : forall c h, (getXd c =? 0) = false -> dispatched A i c h -> owner (A h) = Some i).
  { intros c h Hx Hd. unfold dispatched in Hd. rewrite Hx in Hd.
    destruct Hd as (_ & [E|[r E]]); by rewrite E. }
  destruct p; simplify_eq; simpl in Hc.
  - destruct (getXd c =? 0) eqn:Hx; [done|]. pose proof (r_hs _ _ Hr) as Hh.
    hs_inv Hh Hi; repeat match goal with
      | H : spc s = _ |- _ => rewrite H in Hs; clear H
      | H : cmd_recieve_server_resp_lock (csf s) = _ |- _ => rewrite H in Hs; clear H
      end; simplify_eq; [|by apply (Hd ck)].
    match goal with H : if negb (_ =? 0) then _ else _ |- _ =>
      rewrite Hx in H; destruct H as [_ E]; by rewrite E end.
  - destruct (getXd c =? 0) eqn:Hx; simplify_eq. pose proof (r_hs _ _ Hr) as Hh.
    hs_inv Hh Hi; eauto.
  - destruct (getXd c =? 0) eqn:Hx; simplify_eq; eauto.
  - destruct (getXd c =? 0) eqn:Hx; simplify_eq. destruct Hc as (_ & _ & Hc). eauto.
  - destruct Hc as [_ [r E]]. by rewrite E.
  - destruct Hc as [_ E]. by rewrite E.
Qed.

(** Two clients never hold one slot. *)
Lemma slots_distinct s A i j id :
  related s A -> slot_of s i = Some id -> slot_of s j = Some id -> i = j.
Proof.
  intros Hr Hi Hj. apply (slot_owner _ _ _ _ Hr) in Hi, Hj. congruence.
Qed.

(** What no step changes: how many clients there are, and that the lock of the
    free list is free between the steps. *)
Lemma exec_frame info l s t : exec info l s = Some (Done t) ->
  length (clients t) = length (clients s) /\
  free_list_lock (csf t) = free_list_lock (csf s).
Proof.
  intros He. destruct l; simpl in He; unfold server_alloc, server_dispatch,
    register_response, pop_slot, push_slot in He; repeat case_match; simplify_eq/=;
    repeat match goal with H : (_ ≫= _) = Done _ |- _ =>
      apply bind_Done in H as (? & ? & ?); simplify_eq/= end;
    rewrite ?length_insert; try done.
Qed.

Lemma run_frame info s t : steps (step_without_shutdown info) s t ->
  length (clients t) = length (clients s) /\
  free_list_lock (csf t) = free_list_lock (csf s).
Proof.
  induction 1 as [|s t u (l & _ & He) _ IH]; [done|].
  apply exec_frame in He. destruct He, IH. split; congruence.
Qed.

(** When every slot is taken there are 256 clients besides the one posting. *)
Lemma exhausted_clients s A i c :
  related s A -> free_slots (csf s) = [] -> spc s = SGot ->
  clients s !! i = Some (CPosted c) -> cmd_recieve_server_resp_lock (csf s) = true ->
  (256 < length (clients s))%nat.
Proof.
  intros Hr Hf Hs Hi Hl.
  assert (Hown : forall id, id ∈ zrange 0 256 -> exists j, owner (A id) = Some j /\
    slot_of s j = Some id).
  { intros id Hid. apply elem_of_zrange in Hid. apply (r_owner _ _ Hr); [lia|].
    intros HA. assert (id ∈ free_slots (csf s)) as Hin by (apply (r_free _ _ Hr); split; [lia|done]).
    rewrite Hf in Hin. by apply elem_of_nil in Hin. }
  set (js := filter (fun j => j <> i) (seq 0 (length (clients s)))).
  assert (Hlen : (length (zrange 0 256) <= length js)%nat).
  { apply (pigeon (fun id => owner (A id))).
    - apply NoDup_zrange.
    - intros id Hid. destruct (Hown id Hid) as (j & Ho & Hsl). exists j. split; [done|].
      apply list_elem_of_filter. split.
      + intros ->. unfold slot_of in Hsl. rewrite Hi, Hs, Hl in Hsl. by destruct (_ =? 0).
      + destruct (slot_of_lookup _ _ _ Hsl) as [p Hp]. apply lookup_lt_Some in Hp.
        apply elem_of_seq. lia.
    - intros id1 id2 j Hin1 Hin2 Ho1 Ho2.
      destruct (Hown id1 Hin1) as (j1 & ? & ?), (Hown id2 Hin2) as (j2 & ? & ?). congruence. }
  rewrite length_zrange in Hlen. apply lookup_lt_Some in Hi.
  pose proof (length_filter_ne i (seq 0 (length (clients s)))) as Hlt.
  rewrite length_seq in Hlt. assert (i ∈ seq 0 (length (clients s))) by (apply elem_of_seq; lia).
  specialize (Hlt H). fold js in Hlt. lia.
Qed.

(** A related state with at most 256 clients has no undefined step. *)
Lemma defined_steps info s A l :
  related s A -> (length (clients s) <= 256)%nat -> is_stop l = false ->
  (forall b0 b1 b2, l <> LRespond b0 b1 b2) ->
  exec info l s = None \/ exists t, exec info l s = Some (Done t).
Proof.
  intros Hr Hn Hl Hnr. destruct l; try done; simpl; try (repeat case_match; by eauto).
  - destruct (spc s) eqn:Es; eauto. destruct (free_list_lock _); eauto. right.
    unfold server_alloc. destruct (negb _) eqn:Hx; [|eauto].
    pose proof (pop_slot_spec _ (r_idx _ _ Hr)) as Hsp.
    destruct (pop_slot (csf s)) as [[id f']| | | |]; try done; [simpl; eauto|].
    destruct (r_hs _ _ Hr) as [|i c|i c|i c H1 H2 H3 H4 Hi Hn' Hc| | |]; try congruence.
    pose proof (exhausted_clients s A i c Hr Hsp Es Hi H3). lia.
  - destruct (clients s !! i) as [[]|] eqn:Hi; eauto.
    destruct (r_client _ _ Hr _ _ Hi) as (Hw & Hrec & Hd). unfold getter_get.
    rewrite Hw, Hrec. unfold dispatched in Hd. destruct (negb _); [|eauto].
    destruct Hd as [Hid _]. pose proof (r_wait _ _ Hr _ Hid) as Hwait.
    unfold vget, vset. rewrite Hwait. simpl. destruct (is_ready _); simpl; eauto.
  - destruct (clients s !! i) as [[]|] eqn:Hi; eauto. right.
    destruct (r_client _ _ Hr _ _ Hi) as [Hh [r HA]].
    destruct (r_resp _ _ Hr h i c r Hh (or_intror HA)) as [Hv _].
    unfold vget. rewrite Hv. simpl. eauto.
  - destruct (clients s !! i) as [[]|] eqn:Hi; eauto. destruct (free_list_lock _); eauto. right.
    destruct (r_client _ _ Hr _ _ Hi) as [Hid HA].
    destruct (push_slot_spec _ h (r_idx _ _ Hr) Hid (free_count_lt _ _ _ _ _ _ Hr Hid HA))
      as (f'' & -> & _). simpl. eauto.
  - by destruct (Hnr b0 b1 b2).
Qed.

(** ** First in, first out per core *)

Definition queue_of (s : sys) (k : system_core_pair) : list Z := default [] (in_flight s !! k).

(** The slots queued for core [k], and those answered for it, along a run. *)
Definition queued_by (k : system_core_pair) (l : label) (s : sys) : list Z :=
  match l, spc s with
  | LServerDispatch, SAlloc id =>
      if quit (csf s) then []
      else if getXd (cmd (csf s)) =? 0 then []
      else if decide (cmd_key (cmd (csf s)) = k) then [id] else []
  | _, _ => []
  end.
Definition answered_by (info : beethoven_pack_info) (k : system_core_pair) (l : label) (s : sys)
    : list Z :=
  match l with
  | LRespond b0 b1 b2 =>
      if decide (resp_key (decode_response b0 b1 b2 info) = k)
      then option_list (head (queue_of s k)) else []
  | _ => []
  end.
Fixpoint along (info : beethoven_pack_info) (g : label -> sys -> list Z) (ls : list label)
    (s : sys) : list Z :=
  match ls with
  | [] => []
  | l :: ls' =>
      match exec info l s with
      | Some (Done t) => g l s ++ along info g ls' t
      | _ => []
      end
  end.

Lemma fifo_step info k l s t : exec info l s = Some (Done t) ->
  queue_of s k ++ queued_by k l s = answered_by info k l s ++ queue_of t k.
Proof.
  intros He.
  assert (Hsame : in_flight t = in_flight s -> queued_by k l s = [] ->
    answered_by info k l s = [] ->
    queue_of s k ++ queued_by k l s = answered_by info k l s ++ queue_of t k).
  { intros E E1 E2. unfold queue_of at 2. rewrite E, E1, E2, app_nil_r. done. }
  destruct l; try (by apply Hsame; [|done|done]; simpl in He; unfold server_alloc, pop_slot,
    push_slot in He; repeat case_match; simplify_eq/=;
    repeat match goal with H : (_ ≫= _) = Done _ |- _ =>
      apply bind_Done in H as (? & ? & ?); simplify_eq/= end).
  - simpl in *. destruct (spc s) eqn:Es; try done.
    destruct (cmdserverlock s); simplify_eq. unfold server_dispatch, queue_of.
    destruct (quit (csf s)); [by rewrite app_nil_r|].
    destruct (getXd (cmd (csf s)) =? 0) eqn:Hx; simpl; [by rewrite app_nil_r|].
    case_decide as Hk; [by rewrite Hk, lookup_insert_eq|].
    by rewrite lookup_insert_ne, app_nil_r.
  - simpl in *. destruct (cmdserverlock s); [done|]. injection He as He.
    unfold register_response in He.
    set (r := decode_response b0 b1 b2 info) in *. unfold queue_of.
    destruct (in_flight s !! resp_key r) as [q|] eqn:Eq.
    + repeat (apply bind_Done in He as (? & ? & He)). simplify_eq.
      destruct q as [|id0 q]; [done|]. simpl. case_decide as Hk.
      * rewrite <- Hk, Eq, lookup_insert_eq. simpl. by rewrite app_nil_r.
      * by rewrite lookup_insert_ne, app_nil_r.
    + simplify_eq. simpl. rewrite app_nil_r. case_decide as Hk; [|done].
      by rewrite <- Hk, Eq.
Qed.

(** ** Progress of the handshake *)

(** The steps a [send] consists of, on either side. *)
Definition is_handshake (l : label) : bool :=
  match l with
  | LLockSend _ | LPost _ | LServerWake | LServerAlloc | LServerDispatch
  | LAnswer _ | LReadHandle _ | LReturn _ => true
  | _ => false
  end.

(** How many steps a client and the server are from the end of the [send]. *)
Definition client_rank (p : client_pc) : nat :=
  match p with
  | CWantSend _ => 8 | CHoldSend _ => 7 | CPosted _ => 3 | CAnswered _ => 2
  | CReleased _ _ => 1 | _ => 0
  end.
Definition server_rank (s : sys) : nat :=
  match spc s with
  | SWait => if server_mut (csf s) then 0 else 3
  | SGot => 2
  | SAlloc _ => 1
  | SQuit => 0
  end.
Definition send_rank (s : sys) : nat :=
  sum_list_with client_rank (clients s) + server_rank s.

Lemma sum_list_insert {A} (g : A -> nat) (l : list A) i p q :
  l !! i = Some p ->
  (sum_list_with g (<[i := q]> l) + g p = sum_list_with g l + g q)%nat.
Proof.
  revert i. induction l as [|a l IH]; intros [|i] Hi; simpl in *; simplify_eq; [lia|].
  specialize (IH _ Hi). lia.
Qed.

Lemma sum_list_zero {A} (g : A -> nat) (l : list A) :
  sum_list_with g l = 0%nat \/ exists i p, l !! i = Some p /\ (0 < g p)%nat.
Proof.
  induction l as [|a l [IH|(i & p & ? & ?)]]; simpl.
  - by left.
  - destruct (g a) eqn:E; [left; lia|]. right. exists 0%nat, a. split; [done|lia].
  - right. by exists (S i), p.
Qed.

(** A [send] under way always has a next step, which brings it closer to its
    end. *)
Lemma handshake_step info s A :
  related s A -> (length (clients s) <= 256)%nat -> free_list_lock (csf s) = false ->
  (0 < send_rank s)%nat ->
  exists l t, is_handshake l = true /\ exec info l s = Some (Done t) /\
    (send_rank t < send_rank s)%nat.
Proof.
  intros Hr Hn Hfl Hrank. pose proof (r_hs _ _ Hr) as Hh.
  assert (Hdef : forall l, is_handshake l = true -> exec info l s <> None ->
    exists t, exec info l s = Some (Done t)).
  { intros l Hl Hne. destruct (defined_steps info s A l Hr Hn) as [?|?]; try done;
      by destruct l. }
  pose proof (fun i p q => sum_list_insert client_rank (clients s) i p q) as Hsum.
  unfold send_rank, server_rank in *.
  destruct Hh as [H1 H2 H3 H4 Hq|i c H1 H2 H3 H4 Hi _|i c H1 H2 H3 H4 Hi _|
    i c H1 H2 H3 H4 Hi _|i c id H1 H2 H3 H4 Hi _|i c H1 H2 H3 H4 Hi _|
    i c H1 H2 H3 H4 Hi _]; rewrite H4, ?H2 in *.
  - destruct (sum_list_zero client_rank (clients s)) as [E|(i & p & Hi & Hp)]; [lia|].
    pose proof (Hq _ _ Hi). destruct p; simpl in *; try done; try lia.
    + exists (LLockSend i). eexists. simpl. rewrite Hi, H1. split_and!; try done.
      simpl. rewrite H4, H2. specialize (Hsum i _ (CHoldSend c) Hi). simpl in Hsum. lia.
    + exists (LReturn i). eexists. simpl. rewrite Hi. split_and!; try done.
      simpl. rewrite H4, H2.
      specialize (Hsum i _ (CHandle c (mk_getter (negb (getXd c =? 0)) false h)) Hi).
      simpl in Hsum. lia.
  - exists (LPost i). eexists. simpl. rewrite Hi. split_and!; try done.
    simpl. rewrite H4. specialize (Hsum i _ (CPosted c) Hi). simpl in Hsum. lia.
  - exists LServerWake. eexists. simpl. rewrite H4, H2. split_and!; try done. simpl. lia.
  - destruct (Hdef LServerAlloc) as [t Ht]; [done| |].
    { simpl. by rewrite H4, Hfl. }
    exists LServerAlloc, t. split_and!; try done. simpl in Ht. rewrite H4, Hfl in Ht.
    injection Ht as Ht. unfold server_alloc in Ht. destruct (negb _).
    + apply bind_Done in Ht as ([id f'] & _ & Ht). simplify_eq/=. lia.
    + simplify_eq/=. lia.
  - exists LServerDispatch. eexists. simpl. destruct (r_noquit _ _ Hr) as [Hqt ->].
    rewrite H4. split_and!; try done. unfold server_dispatch. rewrite Hqt. simpl. rewrite H2. lia.
  - exists (LAnswer i). eexists. simpl. rewrite Hi, H3. split_and!; try done.
    simpl. rewrite H4, H2. specialize (Hsum i _ (CAnswered c) Hi). simpl in Hsum. lia.
  - exists (LReadHandle i). eexists. simpl. rewrite Hi. split_and!; try done.
    simpl. rewrite H4, H2.
    specialize (Hsum i _ (CReleased c (pthread_wait_id (csf s))) Hi). simpl in Hsum. lia.
Qed.

Lemma handshakes_finish info s A :
  related s A -> (length (clients s) <= 256)%nat -> free_list_lock (csf s) = false ->
  exists ls t, (length ls <= send_rank s)%nat /\ Forall (fun l => is_handshake l = true) ls /\
    run info ls s = Some (Done t) /\ send_rank t = 0%nat.
Proof.
  remember (send_rank s) as n eqn:En. revert s A En.
  induction n as [n IH] using lt_wf_ind. intros s A -> Hr Hn Hfl.
  destruct (decide (send_rank s = 0%nat)) as [E|E].
  { exists [], s. split_and!; [simpl; lia|constructor|done|done]. }
  destruct (handshake_step info s A Hr Hn Hfl) as (l & t & Hl & Ht & Hlt); [lia|].
  destruct (exec_frame _ _ _ _ Ht) as [Hlen Hfl'].
  destruct (simulation info s t A Hr) as (B & _ & HB); [exists l; split; [by destruct l|done]|].
  destruct (IH _ Hlt t B eq_refl HB) as (ls & u & Hls & Hall & Hrun & Hu); [lia|congruence|].
  exists (l :: ls), u. simpl. rewrite Ht. split_and!; [lia|by constructor|done|done].
Qed.

Lemma sum_list_lookup {A} (g : A -> nat) (l : list A) i p :
  l !! i = Some p -> (g p <= sum_list_with g l)%nat.
Proof.
  revert i. induction l as [|a l IH]; intros [|i] Hi; simpl in *; simplify_eq; [lia|].
  specialize (IH _ Hi). lia.
Qed.

Lemma send_rank_le s : (send_rank s <= 8 * length (clients s) + 3)%nat.
Proof.
  unfold send_rank.
  assert (Hs : (sum_list_with client_rank (clients s) <= 8 * length (clients s))%nat).
  { induction (clients s) as [|p l IH]; simpl; [lia|]. destruct p; simpl; lia. }
  assert ((server_rank s <= 3)%nat).
  { unfold server_rank. destruct (spc s), (server_mut (csf s)); lia. }
  lia.
Qed.

(** A run of the executable semantics without shutdown is a run of the system. *)
Lemma run_steps info ls s t :
  forallb (fun l => negb (is_stop l)) ls = true -> run info ls s = Some (Done t) ->
  steps (step_without_shutdown info) s t.
Proof.
  revert s. induction ls as [|l ls IH]; intros s Hall; simpl.
  { intros; simplify_eq. constructor. }
  simpl in Hall. zb. destruct (exec info l s) as [[u| | | |]|] eqn:He; try done.
  intros Hrun. econstructor; [by exists l|eauto].
Qed.

(** ** A concrete session: two clients, one command each to one core *)

Definition demo_info : beethoven_pack_info := mk_pack_info 4 8.
Definition demo_file : cmd_server_file :=
  mk_csf false false false [] (replicate 256 (mk_rocc_response 0 0 0 0)) 0 false [] 0 0 false
    (start_cmd 0 false 0 0 0 0 0 0 0).
Definition demo_cmd (xd' : bool) : rocc_cmd := start_cmd 2 xd' 0 0 0 1 10 20 0.
Definition send_labels (i : nat) (c : rocc_cmd) : list label :=
  [LWantSend i c; LLockSend i; LPost i; LServerWake; LServerAlloc; LServerDispatch;
   LAnswer i; LReadHandle i; LReturn i].
(** System 2, core 1, data 7: bits 5-8 and 9-16 of the third word. *)
Definition demo_session : list label :=
  send_labels 0 (demo_cmd true) ++ send_labels 1 (demo_cmd true) ++
  [LRespond 7 0 576; LGetLock 0; LGetRead 0; LGetFree 0].
Definition demo_state (ls : list label) (n : nat) : sys :=
  match run demo_info ls (boot demo_file n) with
  | Some (Done t) => t
  | _ => boot demo_file n
  end.

Lemma demo_steps : steps (step_without_shutdown demo_info) (boot demo_file 2) (demo_state demo_session 2).
Proof.
  apply (run_steps _ demo_session); by vm_compute.
Qed.

(** ** Properties *)

(** C1. Every run of the daemon and any number of clients in which no client calls
    [shutdown] and no step is undefined, under any interleaving of their steps, is a
    run of the abstract slot machine that
    starts with every response slot free: the concrete state stays related to
    the abstract one (free list, response mutexes, response array, in-flight
    queues, handshake phase and each client's view agree with it). *)
Theorem cmd_server_refines_slots info f n s :
  length (responses f) = MAX_CONCURRENT_COMMANDS ->
  steps (step_without_shutdown info) (boot f n) s ->
  exists A, steps slot_step (fun _ => Free) A /\ related s A.
Proof. intros Hf Hs. eapply run_related; [done|]. by apply boot_related. Qed.

Lemma cmd_server_refines_slots_witness :
  exists A, steps slot_step (fun _ => Free) A /\ related (demo_state demo_session 2) A.
Proof.
  apply (cmd_server_refines_slots demo_info demo_file 2); [reflexivity|exact demo_steps].
Defined.

(** C2. In runs without a [shutdown] and without undefined steps, the response a client
    obtains from [get] was produced by the system its own command was sent to and by a
    core that agrees with the command's core in the low eight bits: the server compares
    [getCoreId], which is all that is left of a core identifier, so that cores 256
    apart are the same to it ([getCoreId_aliases]). *)
Theorem response_matches_command info f n s i c r :
  length (responses f) = MAX_CONCURRENT_COMMANDS ->
  steps (step_without_shutdown info) (boot f n) s -> clients s !! i = Some (CDone c r) ->
  resp_system_id r = getSystemId c /\ resp_core_id r = getCoreId c.
Proof.
  intros Hf Hs Hi. destruct (run_related _ _ _ _ Hs (boot_related f n Hf)) as (A & _ & Hr).
  pose proof (r_client _ _ Hr _ _ Hi) as Hk. unfold client_ok, resp_key, cmd_key in Hk.
  by injection Hk.
Qed.

Lemma response_matches_command_witness :
  clients (demo_state demo_session 2) !! 0%nat
    = Some (CDone (demo_cmd true) (mk_rocc_response 7 1 2 0)) /\ 2 = 2 /\ 1 = 1.
Proof.
  split; [vm_compute; reflexivity|].
  apply (response_matches_command demo_info demo_file 2 (demo_state demo_session 2) 0
           (demo_cmd true) (mk_rocc_response 7 1 2 0));
    [reflexivity|exact demo_steps|vm_compute; reflexivity].
Defined.

(** C20. In runs without a [shutdown] and without undefined steps, no response slot is
    ever held by two clients at once, and a slot that a client holds is not on the free
    list. *)
Theorem slots_are_exclusive info f n s i j id :
  length (responses f) = MAX_CONCURRENT_COMMANDS ->
  steps (step_without_shutdown info) (boot f n) s -> slot_of s i = Some id ->
  (slot_of s j = Some id -> i = j) /\ (id ∉ free_slots (csf s)).
Proof.
  intros Hf Hs Hi. destruct (run_related _ _ _ _ Hs (boot_related f n Hf)) as (A & _ & Hr).
  split; [eauto using slots_distinct|]. intros Hin.
  apply (r_free _ _ Hr) in Hin as [_ HA]. apply (slot_owner _ _ _ _ Hr) in Hi.
  by rewrite HA in Hi.
Qed.

Lemma slots_are_exclusive_witness :
  slot_of (demo_state demo_session 2) 1 = Some 254 /\
  (slot_of (demo_state demo_session 2) 0 = Some 254 -> 1%nat = 0%nat) /\
  (254 ∉ free_slots (csf (demo_state demo_session 2))).
Proof.
  split; [vm_compute; reflexivity|].
  apply (slots_are_exclusive demo_info demo_file 2);
    [reflexivity|exact demo_steps|vm_compute; reflexivity].
Defined.

(** With at most 256 clients no step of the server or of a client is
    undefined: reserving a slot never reads past the free list, returning one
    never writes past it, and every handle indexes the response arrays. *)
Theorem no_undefined_step_up_to_256 info f n s l :
  length (responses f) = MAX_CONCURRENT_COMMANDS -> (n <= 256)%nat ->
  steps (step_without_shutdown info) (boot f n) s -> is_stop l = false ->
  (forall b0 b1 b2, l <> LRespond b0 b1 b2) ->
  exec info l s = None \/ exists t, exec info l s = Some (Done t).
Proof.
  intros Hf Hn Hs Hl Hnr. destruct (run_related _ _ _ _ Hs (boot_related f n Hf)) as (A & _ & Hr).
  destruct (run_frame _ _ _ Hs) as [Hlen _]. simpl in Hlen. rewrite length_replicate in Hlen.
  by eapply defined_steps; try lia.
Qed.

Lemma no_undefined_step_up_to_256_witness :
  exec demo_info (LWantSend 0 (demo_cmd true)) (boot demo_file 2) = None \/
  exists t, exec demo_info (LWantSend 0 (demo_cmd true)) (boot demo_file 2) = Some (Done t).
Proof.
  apply (no_undefined_step_up_to_256 demo_info demo_file 2);
    [reflexivity|lia|apply steps_refl|reflexivity|discriminate].
Defined.

(** Responses of one core are delivered in the order its commands were
    queued: along any run, what core [k] had outstanding followed by what was
    queued for it is what was answered followed by what is still outstanding. *)
Theorem responses_fifo_per_core info k ls s t :
  run info ls s = Some (Done t) ->
  queue_of s k ++ along info (queued_by k) ls s =
  along info (answered_by info k) ls s ++ queue_of t k.
Proof.
  revert s. induction ls as [|l ls IH]; intros s; simpl.
  { intros; simplify_eq. by rewrite app_nil_r. }
  destruct (exec info l s) as [[u| | | |]|] eqn:He; try done. intros Hrun.
  rewrite app_assoc, (fifo_step _ _ _ _ _ He), <- !app_assoc. f_equal. by apply IH.
Qed.

Lemma responses_fifo_per_core_witness :
  along demo_info (queued_by (2, 1)) demo_session (boot demo_file 2) = [255; 254] /\
  [] ++ along demo_info (queued_by (2, 1)) demo_session (boot demo_file 2) =
  along demo_info (answered_by demo_info (2, 1)) demo_session (boot demo_file 2)
    ++ queue_of (demo_state demo_session 2) (2, 1).
Proof.
  split; [vm_compute; reflexivity|].
  apply (responses_fifo_per_core demo_info (2, 1) demo_session (boot demo_file 2)).
  vm_compute. reflexivity.
Defined.

(** C21. No deadlock in [send]: with at most 256 clients, from every state reached
    without a [shutdown], handshake steps alone (the server's and the senders') lead in at
    most [send_rank] <= 8n + 3 steps to a state in which no client is inside
    [send] any more. *)
Theorem sends_complete info f n s :
  length (responses f) = MAX_CONCURRENT_COMMANDS -> (n <= 256)%nat ->
  steps (step_without_shutdown info) (boot f n) s ->
  exists ls t, (length ls <= 8 * n + 3)%nat /\
    Forall (fun l => is_handshake l = true) ls /\ run info ls s = Some (Done t) /\
    forall i p, clients t !! i = Some p -> client_rank p = 0%nat.
Proof.
  intros Hf Hn Hs. destruct (run_related _ _ _ _ Hs (boot_related f n Hf)) as (A & _ & Hr).
  destruct (run_frame _ _ _ Hs) as [Hlen Hfl]. simpl in Hlen. rewrite length_replicate in Hlen.
  destruct (handshakes_finish info s A Hr) as (ls & t & Hls & Hall & Hrun & Ht); [lia|done|].
  exists ls, t. split_and!; try done.
  - pose proof (send_rank_le s). lia.
  - intros i p Hp. unfold send_rank in Ht. pose proof (sum_list_lookup client_rank _ _ _ Hp). lia.
Qed.

Lemma sends_complete_witness :
  exists ls t, (length ls <= 8 * 2 + 3)%nat /\
    Forall (fun l => is_handshake l = true) ls /\
    run demo_info ls (demo_state demo_session 2) = Some (Done t) /\
    forall i p, clients t !! i = Some p -> client_rank p = 0%nat.
Proof.
  apply (sends_complete demo_info demo_file 2); [reflexivity|lia|exact demo_steps].
Defined.

(** The 257th outstanding command drives the server outside the free list:
    with every slot handed out the 16-bit index has wrapped to 65535, and the
    next command that expects a response reads [free_list[65535]]. *)
Theorem free_list_underflow :
  run demo_info (mjoin ((fun i => send_labels i (demo_cmd true)) <$> seq 0 257))
    (boot demo_file 257) = Some Undef.
Proof. vm_compute. reflexivity. Qed.

(** [shutdown] wakes the server before it sets [quit], so the server can
    serve the last command a second time: one [send] followed by [shutdown]
    puts the same command into the queue twice, and the server goes back to
    waiting instead of quitting. *)
Theorem shutdown_may_replay :
  exists t, run demo_info
    (send_labels 0 (demo_cmd false) ++
     [LForget 0; LWantStop 0; LLockStop 0; LPostStop 0; LServerWake; LServerAlloc;
      LServerDispatch; LSetQuit 0]) (boot demo_file 1) = Some (Done t) /\
    cmds t = [demo_cmd false; demo_cmd false] /\ spc t = SWait /\ quit (csf t) = true.
Proof. eexists. split; [vm_compute; reflexivity|]. vm_compute. done. Qed.

(** The hypothesis that nobody calls [shutdown] is needed: the answer to the command
    that is served a second time is left over, the next client takes it before its
    own is there, and from then on two clients can hold one slot. *)
Theorem shutdown_breaks_exclusion :
  exists t, run demo_info
    ([LWantSend 0 (demo_cmd true); LLockSend 0; LPost 0; LServerWake; LServerAlloc;
      LServerDispatch; LAnswer 0; LReadHandle 0;
      LWantStop 1; LLockStop 1; LPostStop 1; LServerWake; LServerAlloc; LServerDispatch;
      LSetQuit 1; LReturn 0;
      LWantSend 2 (demo_cmd true); LLockSend 2; LPost 2; LServerWake; LServerAlloc;
      LAnswer 2; LReadHandle 2; LServerDispatch;
      LWantSend 3 (demo_cmd true); LLockSend 3; LPost 3; LAnswer 3; LReadHandle 3])
    (boot demo_file 4) = Some (Done t) /\
    slot_of t 2 = Some 253 /\ slot_of t 3 = Some 253.
Proof. eexists. split; [vm_compute; reflexivity|]. vm_compute. done. Qed.

(** A [shutdown] that falls between another client's release of the send
    lock and its [quit = false] is lost: the flag ends false and the woken
    server serves a command instead of returning. *)
Theorem shutdown_may_be_lost :
  exists t, run demo_info
    ([LWantSend 0 (demo_cmd false); LLockSend 0; LPost 0; LServerWake; LServerAlloc;
      LServerDispatch; LAnswer 0; LReadHandle 0;
      LWantStop 1; LLockStop 1; LPostStop 1; LSetQuit 1; LReturn 0;
      LServerWake; LServerAlloc; LServerDispatch]) (boot demo_file 2) = Some (Done t) /\
    clients t !! 1%nat = Some CStopped /\ spc t = SWait /\ quit (csf t) = false.
Proof. eexists. split; [vm_compute; reflexivity|]. vm_compute. done. Qed.

End CmdServer.
