(* ===== verification/DeviceAllocator.v ===== *)
(** * The device memory allocator

    [device_allocator<allocator_bytes>] of
    [libbeethoven/include/beethoven/allocator/device_allocator.h], the
    allocator the data server uses for the memory of a discrete card.  Memory
    is cut into superblocks of 2 MiB; requests up to 1 MiB are blocks of one
    size class inside a superblock, larger ones are runs of superblocks.

    The class is a template over the size of the memory: the section is over
    [allocator_bytes].  Its mutexes order concurrent callers; a call of [malloc]
    or [free] is modelled as one atomic operation, which is how the data server,
    its only user, calls it. *)

From S2P Require Import Prelude.

Module Alloc.

Definition superblock_size : Z := Z.shiftl 1 21.
Definition min_block_size : Z := Z.shiftl 1 12.

(** [log2up]: the loop over [acc], a 64-bit accumulator. *)
Fixpoint log2up_loop (n : nat) (i acc val : Z) : Z :=
  match n with
  | O => 64
  | S n' => if val <=? acc then i else log2up_loop n' (i + 1) (u64 (Z.shiftl acc 1)) val
  end.
Definition log2up (val : Z) : Z := log2up_loop 64 0 1 val.

Record superblock := mk_sb {
  log_block_size : Z;        (* uint8_t *)
  flags : Z;                 (* uint8_t *)
  free_blocks : list Z       (* uint16_t *)
}.

Record device_allocator := mk_alloc {
  superblock_free_idx : Z;          (* uint32_t *)
  free_list : list Z;               (* uint32_t *)
  superblocks : list superblock;
  superblock_head_list : list (list Z)  (* std::set per size class, increasing *)
}.

Definition BLOCK_ALLOC : Z := 1.
Definition BASE_ALLOCATION : Z := 2.
Definition log_min_block : Z := log2up min_block_size.
Definition log_superblock_size : Z := log2up superblock_size.
Definition num_lists : Z := log_superblock_size - log_min_block.

(** [mask = (mask << 1) | 1], [n] times from 1. *)
Definition grow_mask (n : Z) : Z :=
  Nat.iter (Z.to_nat n) (fun mask => u64 (Z.lor (Z.shiftl mask 1) 1)) 1.
Definition block_id_mask (lbs : Z) : Z := grow_mask lbs.

(** Insertion into a [std::set] of superblock ids. *)
Fixpoint set_emplace (x : Z) (l : list Z) : list Z :=
  match l with
  | [] => [x]
  | y :: l' => if x <? y then x :: l else if x =? y then l else y :: set_emplace x l'
  end.

(** [v.insert(std::upper_bound(begin, end, x), x)]; the search needs the
    elements up to [x] to precede the larger ones. *)
Fixpoint upper_bound_insert (x : Z) (l : list Z) : outcome (list Z) :=
  match l with
  | [] => Done [x]
  | y :: l' =>
      if y <=? x then l'' ← upper_bound_insert x l'; Done (y :: l'')
      else if forallb (fun z => x <? z) l' then Done (x :: l) else Undef
  end.

(** [v.back()] together with [v.pop_back()]. *)
Definition pop_back {A} (l : list A) : outcome (A * list A) :=
  x ← or_undef (last l); Done (x, take (length l - 1) l).

(** [unpack_free_list_THREAD_UNSAFE]: one iteration takes one element off. *)
Fixpoint unpack_loop (n : nat) (idx : Z) (l : list Z) : Z * list Z :=
  match n with
  | O => (idx, l)
  | S n' =>
      match last l with
      | Some x => if u32 (x + 1) =? idx then unpack_loop n' (u32 (idx - 1)) (take (length l - 1) l)
                  else (idx, l)
      | None => (idx, l)
      end
  end.
Definition unpack_free_list (idx : Z) (l : list Z) : Z * list Z := unpack_loop (length l) idx l.

(** The maximal runs of consecutive ids in the free list, as the loop of
    [malloc] collects them. *)
Fixpoint free_segments (cur_begin cur_len : Z) (l : list Z) : list (Z * Z) :=
  match l with
  | [] => []
  | x :: l' =>
      let len := cur_len + 1 in
      match l' with
      | [] => [(cur_begin, len)]
      | y :: _ => if y =? u32 (x + 1) then free_segments cur_begin len l'
                  else (cur_begin, len) :: free_segments y 0 l'
      end
  end.

(** The best-fit loop, [while (!segments.empty())]: it looks at [back()] and
    removes nothing.  [start] is the variable [alloc_start], which has no value
    before the first success. *)
Fixpoint best_fit (fuel : nat) (segments : list (Z * Z)) (needed best : Z)
    (start : option Z) : outcome (option Z) :=
  match last segments with
  | None => Done start
  | Some (seg_start, seg_size) =>
      match fuel with
      | O => Stuck
      | S fuel' =>
          if needed <=? seg_size then
            if seg_size <? best then best_fit fuel' segments needed seg_size (Some seg_start)
            else if seg_size =? best then
              match start with
              | None => Undef
              | Some st =>
                  best_fit fuel' segments needed
                    (if seg_start <? st then seg_size else best)
                    (if seg_start <? st then Some seg_start else start)
              end
            else best_fit fuel' segments needed best start
          else best_fit fuel' segments needed best start
      end
  end.

Definition set_flags (f : Z) (sb : superblock) : superblock :=
  mk_sb (log_block_size sb) f (free_blocks sb).
Definition set_free_blocks (bs : list Z) (sb : superblock) : superblock :=
  mk_sb (log_block_size sb) (flags sb) bs.
Definition with_superblocks (st : device_allocator) (sbs : list superblock)
    : device_allocator :=
  mk_alloc (superblock_free_idx st) (free_list st) sbs (superblock_head_list st).

(** [superblocks[i].flags = 0] for the tail of a huge allocation. *)
Fixpoint clear_flags (sbs : list superblock) (ids : list Z) : outcome (list superblock) :=
  match ids with
  | [] => Done sbs
  | i :: ids' =>
      sb ← vget sbs i;
      sbs' ← vset sbs i (set_flags 0 sb);
      clear_flags sbs' ids'
  end.

(** Walking down to the base of a huge allocation. *)
Fixpoint find_base (n : nat) (sbs : list superblock) (id : Z) : outcome Z :=
  if id <? 0 then Done id
  else match n with
  | O => Stuck
  | S n' =>
      sb ← vget sbs id;
      if Z.land (flags sb) BASE_ALLOCATION =? 0 then find_base n' sbs (id - 1) else Done id
  end.

Section allocator.
Variable allocator_bytes : Z.

Definition addr_bits : Z := log2up allocator_bytes.
Definition log_num_superblocks : Z := addr_bits - log_superblock_size.
Definition num_superblocks : Z := Z.shiftl 1 log_num_superblocks.
Definition superblock_free_idx_lim : Z := Z.shiftl 1 (addr_bits - log_superblock_size).
Definition superblock_id_mask : Z := grow_mask log_num_superblocks.

(** The constructor, with the member initialisers. *)
Definition new_allocator : device_allocator :=
  mk_alloc 0 [] (replicate (Z.to_nat num_superblocks) (mk_sb 0 0 []))
    (replicate (Z.to_nat num_lists) []).

(** [get_block_info(fpga_addr)]. *)
Definition get_block_info (st : device_allocator) (fpga_addr : Z) : outcome (Z * Z) :=
  let superblock_id := u32 (Z.land (Z.shiftr fpga_addr log_superblock_size) superblock_id_mask) in
  sb ← vget (superblocks st) superblock_id;
  if negb (Z.land (flags sb) BLOCK_ALLOC =? 0) then
    Done (superblock_id, u32 (Z.land (Z.shiftr fpga_addr (log_block_size sb))
                                     (block_id_mask log_superblock_size)))
  else Done (superblock_id, 0).

(** [malloc], the branch that allocates inside a superblock. *)
Definition malloc_small (st : device_allocator) (lbs idx : Z) : outcome (Z * device_allocator) :=
  let block_size := Z.shiftl 1 lbs in
  sblist ← vget (superblock_head_list st) idx;
  match sblist with
  | [] =>
      let '(superblock_id, fidx, fl) :=
        match free_list st with
        | x :: fl => (x, superblock_free_idx st, fl)
        | [] => (superblock_free_idx st, u32 (superblock_free_idx st + 1), [])
        end in
      let n_blocks := Z.shiftl 1 (log_superblock_size - lbs) in
      if n_blocks >=? 65536 then Exit 2
      else
        _ ← vget (superblocks st) superblock_id;
        '(block_id, bs) ← pop_back (zrange 0 (Z.to_nat n_blocks));
        sbs ← vset (superblocks st) superblock_id (mk_sb lbs BLOCK_ALLOC bs);
        heads ← vset (superblock_head_list st) idx (set_emplace superblock_id []);
        Done (u64 (superblock_id * superblock_size + block_id * block_size),
              mk_alloc fidx fl sbs heads)
  | superblock_id :: rest =>
      my_sb ← vget (superblocks st) superblock_id;
      '(block_id, bs) ← pop_back (free_blocks my_sb);
      sbs ← vset (superblocks st) superblock_id (set_free_blocks bs my_sb);
      heads ← vset (superblock_head_list st) idx
                (match bs with [] => rest | _ => sblist end);
      Done (u64 (superblock_id * superblock_size + block_id * block_size),
            mk_alloc (superblock_free_idx st) (free_list st) sbs heads)
  end.

(** [malloc], the branch for a run of superblocks.  [1 << n] is a shift of an
    [int]. *)
Definition malloc_large (fuel : nat) (st : device_allocator) (lbs : Z)
    : outcome (Z * device_allocator) :=
  if lbs - log_superblock_size >=? 32 then Undef
  else
    let needed := u32 (Z.shiftl 1 (lbs - log_superblock_size)) in
    if negb (Z.land needed (Z.shiftl 65535 16) =? 0) then Exit 1
    else
      found ← best_fit fuel (free_segments 0 0 (free_list st)) needed
                (Z.shiftl 1 log_num_superblocks) None;
      '(alloc_start, fidx, fl) ←
        match found with
        | Some start =>
            match list_find (fun x => x = start) (free_list st) with
            | Some (i, _) =>
                if (i + Z.to_nat needed <=? length (free_list st))%nat
                then Done (start, superblock_free_idx st,
                           take i (free_list st) ++ drop (i + Z.to_nat needed) (free_list st))
                else Undef
            | None => Undef
            end
        | None =>
            if u32 (superblock_free_idx st + needed) >? superblock_free_idx_lim then Exit 3
            else Done (superblock_free_idx st, u32 (superblock_free_idx st + needed),
                       free_list st)
        end;
      base ← vget (superblocks st) alloc_start;
      sbs ← vset (superblocks st) alloc_start
              (mk_sb (log_block_size base) BASE_ALLOCATION [u16 needed]);
      sbs' ← clear_flags sbs (zrange (alloc_start + 1) (Z.to_nat (needed - 1)));
      Done (u32 (alloc_start * superblock_size),
            mk_alloc fidx fl sbs' (superblock_head_list st)).

(** [malloc(len)].  It starts with [1 << log_block_size], a shift of an [int]. *)
Definition malloc (fuel : nat) (st : device_allocator) (len : Z)
    : outcome (Z * device_allocator) :=
  let lbs := Z.max (log2up len) log_min_block in
  let idx := if lbs <? log_min_block then 0 else lbs - log_min_block in
  if lbs >=? 32 then Undef
  else if idx <? num_lists then malloc_small st lbs idx else malloc_large fuel st lbs.

(** [free], the branch for a block of a superblock. *)
Definition free_small (st : device_allocator) (sb_id block_id : Z) (sb : superblock)
    : outcome device_allocator :=
  let bs := free_blocks sb ++ [u16 block_id] in
  sbs ← vset (superblocks st) sb_id (set_free_blocks bs sb);
  let max_occ := Z.shiftl 1 (log_superblock_size - log_block_size sb) in
  let size := Z.of_nat (length bs) in
  let st' := with_superblocks st sbs in
  if ((size =? max_occ) || (size =? 1))%bool then
    let head_idx := u8 (log_block_size sb - log_min_block) in
    if head_idx >=? num_lists then Exit 6
    else
      pq ← vget (superblock_head_list st) head_idx;
      if size =? max_occ then
        match pq with
        | [] => Undef
        | _ :: pq' =>
            heads ← vset (superblock_head_list st) head_idx pq';
            if u32 (sb_id + 1) =? superblock_free_idx st then
              let '(i, l) := unpack_free_list (u32 (superblock_free_idx st - 1)) (free_list st) in
              Done (mk_alloc i l sbs heads)
            else
              l ← upper_bound_insert sb_id (free_list st);
              Done (mk_alloc (superblock_free_idx st) l sbs heads)
        end
      else
        heads ← vset (superblock_head_list st) head_idx (set_emplace sb_id pq);
        Done (mk_alloc (superblock_free_idx st) (free_list st) sbs heads)
  else Done st'.

(** [free], the branch for a run of superblocks. *)
Definition free_large (st : device_allocator) (sb_id : Z) (sb : superblock)
    : outcome device_allocator :=
  id ← (if Z.land (flags sb) BASE_ALLOCATION =? 0
        then find_base (S (Z.to_nat sb_id)) (superblocks st) sb_id else Done sb_id);
  if id <? 0 then Exit 7
  else if negb (Z.land (flags sb) BLOCK_ALLOC =? 0) then Exit 8
  else
    base ← vget (superblocks st) id;
    n ← or_undef (head (free_blocks base));
    sbs ← vset (superblocks st) id (set_free_blocks [] base);
    if id + n + 1 =? superblock_free_idx st then
      let '(i, l) := unpack_free_list id (free_list st) in
      Done (mk_alloc i l sbs (superblock_head_list st))
    else
      Done (mk_alloc (superblock_free_idx st)
              (free_list st ++ (u32 <$> zrange id (Z.to_nat n))) sbs (superblock_head_list st)).

(** [free(fpga_addr)]. *)
Definition free (st : device_allocator) (fpga_addr : Z) : outcome device_allocator :=
  '(sb_id, block_id) ← get_block_info st fpga_addr;
  sb ← vget (superblocks st) sb_id;
  if (negb (Z.land (flags sb) BLOCK_ALLOC =? 0) && negb (Z.land (flags sb) BASE_ALLOCATION =? 0))%bool
  then Exit 4
  else if negb (Z.land (flags sb) BLOCK_ALLOC =? 0) then free_small st sb_id block_id sb
  else free_large st sb_id sb.

(** A sequence of [malloc]s, with the addresses they return. *)
Fixpoint mallocs (fuel : nat) (lens : list Z) (st : device_allocator)
    : outcome (list Z * device_allocator) :=
  match lens with
  | [] => Done ([], st)
  | len :: lens' =>
      '(a, st') ← malloc fuel st len;
      '(as', st'') ← mallocs fuel lens' st';
      Done (a :: as', st'')
  end.

(** ** The invariant of an allocator that has only allocated

    [live] are the regions handed out; 12, 21 and 9 are the values of
    [log_min_block], [log_superblock_size] and [num_lists]. *)

Definition disj (r s : Z * Z) : Prop := r.1 + r.2 <= s.1 \/ s.1 + s.2 <= r.1.

Definition block_region (lbs sb b : Z) : Z * Z :=
  (sb * superblock_size + b * 2 ^ lbs, 2 ^ lbs).

(** A superblock of size class [idx] that has free blocks. *)
Definition head_ok (st : device_allocator) (idx sb : Z) (S : superblock) : Prop :=
  zlookup (superblocks st) sb = Some S /\ 0 <= sb < superblock_free_idx st /\
  log_block_size S = idx + 12 /\ free_blocks S <> [] /\
  NoDup (free_blocks S) /\
  forall b, b ∈ free_blocks S -> 0 <= b < 2 ^ (21 - log_block_size S).

(** A block that the next [malloc] of its class may hand out. *)
Definition free_region (st : device_allocator) (r : Z * Z) : Prop :=
  exists idx l sb S b, zlookup (superblock_head_list st) idx = Some l /\ sb ∈ l /\
    zlookup (superblocks st) sb = Some S /\ b ∈ free_blocks S /\
    r = block_region (log_block_size S) sb b.

Record inv (st : device_allocator) (live : list (Z * Z)) : Prop := {
  i_len : Z.of_nat (length (superblocks st)) = num_superblocks;
  i_heads : length (superblock_head_list st) = 9%nat;
  i_fl : free_list st = [];
  i_idx : 0 <= superblock_free_idx st <= num_superblocks;
  i_set : forall idx l, zlookup (superblock_head_list st) idx = Some l -> NoDup l;
  i_head : forall idx l sb, zlookup (superblock_head_list st) idx = Some l -> sb ∈ l ->
    exists S, head_ok st idx sb S;
  i_live : Forall (fun r => r.1 + r.2 <= superblock_free_idx st * superblock_size) live;
  i_sep : forall r, free_region st r -> Forall (disj r) live
}.

End allocator.

(** ** Lemmas on the helpers *)

Lemma log_consts : log_min_block = 12 /\ log_superblock_size = 21 /\ num_lists = 9.
Proof. by vm_compute. Qed.
Lemma superblock_size_pow : superblock_size = 2 ^ 21.
Proof. reflexivity. Qed.

Lemma log2up_loop_spec n i val :
  0 <= i -> i + Z.of_nat n = 64 -> 0 <= val < 2 ^ 64 -> (i = 0 \/ 2 ^ (i - 1) < val) ->
  log2up_loop n i (u64 (2 ^ i)) val = Z.log2_up val.
Proof.
  revert i. induction n as [|n IH]; intros i Hi Hn Hv Hlow; simpl.
  - symmetry. apply Z.log2_up_unique; [lia|]. replace i with 64 in Hlow by lia.
    destruct Hlow; [lia|]. change (Z.pred 64) with (64 - 1). lia.
  - assert (Hp : u64 (2 ^ i) = 2 ^ i).
    { apply u64_small. split; [lia|]. apply Z.pow_lt_mono_r; lia. }
    destruct (val <=? u64 (2 ^ i)) eqn:E; zb; rewrite Hp in E.
    + destruct (decide (val <= 1)) as [Hs|Hs].
      * rewrite Z.log2_up_eqn0 by lia. destruct Hlow as [|Hlow]; [done|].
        destruct (decide (i = 0)); [done|]. pose proof (Z.pow_pos_nonneg 2 (i - 1)). lia.
      * symmetry. apply Z.log2_up_unique.
        -- destruct (decide (i = 0)) as [->|]; [simpl in E; lia|lia].
        -- destruct Hlow as [->|]; [simpl in E; lia|]. unfold Z.pred.
           replace (i + -1) with (i - 1) by lia. lia.
    + rewrite <- (IH (i + 1)); try lia.
      * f_equal. rewrite Hp, Z.shiftl_mul_pow2, Z.pow_add_r by lia. done.
      * right. by replace (i + 1 - 1) with i by lia.
Qed.

Lemma log2up_log2_up val : 0 <= val < 2 ^ 64 -> log2up val = Z.log2_up val.
Proof.
  intros Hv. unfold log2up. change 1 with (u64 (2 ^ 0)). apply log2up_loop_spec; try lia.
Qed.

Lemma pop_back_Done {A} (l : list A) x l' : pop_back l = Done (x, l') -> l = l' ++ [x].
Proof.
  unfold pop_back. destruct (last l) as [y|] eqn:E; simpl; [|done]. intros [= <- <-].
  apply last_Some in E as [k ->]. rewrite length_app. simpl.
  replace (length k + 1 - 1)%nat with (length k) by lia. by rewrite take_app_length.
Qed.

Lemma pop_back_zrange n : (0 < n)%nat ->
  pop_back (zrange 0 n) = Done (Z.of_nat n - 1, zrange 0 (n - 1)).
Proof.
  intros Hn. assert (E : zrange 0 n = zrange 0 (n - 1) ++ [Z.of_nat n - 1]).
  { unfold zrange. replace (Z.of_nat n) with (Z.of_nat (n - 1) + 1) at 1 by lia.
    rewrite seqZ_app by lia. f_equal. rewrite seqZ_cons by lia.
    change (Z.pred 1) with 0. rewrite seqZ_nil by lia. f_equal. lia. }
  unfold pop_back. rewrite E, last_snoc. simpl. rewrite length_app. simpl.
  replace (length (zrange 0 (n - 1)) + 1 - 1)%nat with (length (zrange 0 (n - 1))) by lia.
  by rewrite take_app_length.
Qed.

Lemma clear_flags_frame ids sbs sbs' :
  clear_flags sbs ids = Done sbs' ->
  length sbs' = length sbs /\ forall j, j ∉ ids -> zlookup sbs' j = zlookup sbs j.
Proof.
  revert sbs. induction ids as [|i ids IH]; intros sbs; simpl.
  { intros [= <-]. done. }
  intros H. apply bind_Done in H as (sb & _ & H). apply bind_Done in H as (sbs1 & Hs & H).
  apply vset_Done in Hs as [_ ->]. destruct (IH _ H) as [Hl Hj].
  rewrite length_zinsert in Hl. split; [done|]. intros j Hn.
  rewrite Hj by set_solver. apply zlookup_zinsert_ne. set_solver.
Qed.

Lemma block_disj lbs sb b b' : 0 <= lbs -> b <> b' ->
  disj (block_region lbs sb b) (block_region lbs sb b').
Proof.
  intros Hl Hne. unfold disj, block_region; simpl.
  pose proof (Z.pow_pos_nonneg 2 lbs). destruct (decide (b < b')); [left|right]; nia.
Qed.

Lemma disj_sym r s : disj r s -> disj s r.
Proof. unfold disj. tauto. Qed.

Lemma block_in_superblock lbs sb b : 0 <= lbs <= 21 -> 0 <= b < 2 ^ (21 - lbs) ->
  sb * superblock_size <= (block_region lbs sb b).1 /\
  (block_region lbs sb b).1 + (block_region lbs sb b).2 <= (sb + 1) * superblock_size.
Proof.
  intros Hl Hb. unfold block_region; simpl. rewrite superblock_size_pow.
  pose proof (Z.pow_pos_nonneg 2 lbs).
  assert (E : 2 ^ 21 = 2 ^ (21 - lbs) * 2 ^ lbs) by (rewrite <- Z.pow_add_r by lia; f_equal; lia).
  nia.
Qed.

Lemma other_superblock_disj lbs lbs' sb sb' b b' :
  0 <= lbs <= 21 -> 0 <= lbs' <= 21 -> sb <> sb' ->
  0 <= b < 2 ^ (21 - lbs) -> 0 <= b' < 2 ^ (21 - lbs') ->
  disj (block_region lbs sb b) (block_region lbs' sb' b').
Proof.
  intros Hl Hl' Hne Hb Hb'. pose proof (block_in_superblock lbs sb b Hl Hb).
  pose proof (block_in_superblock lbs' sb' b' Hl' Hb'). rewrite superblock_size_pow in *.
  unfold disj. destruct (decide (sb < sb')); [left|right]; lia.
Qed.

#[local] Opaque log_min_block log_superblock_size num_lists superblock_size.

(** ** One [malloc] *)

Section malloc_steps.
Variable ab : Z.
Hypothesis Hab : 2 ^ 21 <= ab <= 2 ^ 32.

Lemma num_superblocks_bounds : 1 <= num_superblocks ab <= 2048.
Proof using Hab.
  unfold num_superblocks, log_num_superblocks, addr_bits.
  destruct log_consts as (_ & -> & _). rewrite log2up_log2_up by lia.
  assert (21 <= Z.log2_up ab) by (rewrite <- (Z.log2_up_pow2 21) by lia; apply Z.log2_up_le_mono; lia).
  assert (Z.log2_up ab <= 32) by (rewrite <- (Z.log2_up_pow2 32) by lia; apply Z.log2_up_le_mono; lia).
  rewrite Z.shiftl_1_l. split.
  - change 1 with (2 ^ 0). apply Z.pow_le_mono_r; lia.
  - change 2048 with (2 ^ 11). apply Z.pow_le_mono_r; lia.
Qed.

Lemma log_num_superblocks_bounds :
  0 <= log_num_superblocks ab <= 11 /\ num_superblocks ab = 2 ^ log_num_superblocks ab.
Proof using Hab.
  split; [|apply Z.shiftl_1_l]. unfold log_num_superblocks, addr_bits.
  destruct log_consts as (_ & -> & _). rewrite log2up_log2_up by lia.
  assert (21 <= Z.log2_up ab) by (rewrite <- (Z.log2_up_pow2 21) by lia; apply Z.log2_up_le_mono; lia).
  assert (Z.log2_up ab <= 32) by (rewrite <- (Z.log2_up_pow2 32) by lia; apply Z.log2_up_le_mono; lia).
  lia.
Qed.

Lemma num_superblocks_bytes : num_superblocks ab * superblock_size = 2 ^ Z.log2_up ab.
Proof using Hab.
  unfold num_superblocks, log_num_superblocks, addr_bits.
  destruct log_consts as (_ & -> & _). rewrite log2up_log2_up by lia.
  assert (21 <= Z.log2_up ab) by (rewrite <- (Z.log2_up_pow2 21) by lia; apply Z.log2_up_le_mono; lia).
  rewrite Z.shiftl_1_l, superblock_size_pow, <- Z.pow_add_r by lia. f_equal. lia.
Qed.

#[local] Opaque num_superblocks.

Lemma head_class st live idx l sb S :
  inv ab st live -> zlookup (superblock_head_list st) idx = Some l -> sb ∈ l ->
  zlookup (superblocks st) sb = Some S ->
  head_ok st idx sb S /\ 12 <= log_block_size S <= 20.
Proof.
  intros Hi Hl Hsb HS. destruct (i_head _ _ _ Hi _ _ _ Hl Hsb) as (S' & Hok).
  pose proof Hok as (HS' & _ & Hlog & _). rewrite HS in HS'. simplify_eq. split; [done|].
  apply zlookup_Some_range in Hl. pose proof (i_heads _ _ _ Hi) as Hh. lia.
Qed.

(** Every free block lies below the unallocated space, in its superblock. *)
Lemma free_region_bounds st live r :
  inv ab st live -> free_region st r ->
  0 <= r.1 /\ r.1 + r.2 <= superblock_free_idx st * superblock_size.
Proof.
  intros Hi (idx & l & sb & S & b & Hl & Hsb & HS & Hb & ->).
  destruct (head_class _ _ _ _ _ _ Hi Hl Hsb HS) as [(_ & Hr & _ & _ & _ & Hbs) Hlog].
  specialize (Hbs b Hb).
  pose proof (block_in_superblock (log_block_size S) sb b). rewrite superblock_size_pow in *. lia.
Qed.

(** A fresh superblock: the branch of [malloc] when its class has no block. *)
Lemma malloc_fresh st live lbs sbs heads :
  inv ab st live -> 12 <= lbs <= 20 ->
  zlookup (superblock_head_list st) (lbs - 12) = Some [] ->
  let id := superblock_free_idx st in
  let n := Z.to_nat (2 ^ (21 - lbs)) in
  0 <= id < num_superblocks ab ->
  sbs = zinsert id (mk_sb lbs BLOCK_ALLOC (zrange 0 (n - 1))) (superblocks st) ->
  heads = zinsert (lbs - 12) [id] (superblock_head_list st) ->
  let r := block_region lbs id (2 ^ (21 - lbs) - 1) in
  Forall (disj r) live /\ inv ab (mk_alloc (id + 1) [] sbs heads) (r :: live).
Proof using Hab.
  intros Hi Hlbs Hempty id n Hid -> -> r.
  assert (Hn : 2 <= 2 ^ (21 - lbs)).
  { change 2 with (2 ^ 1) at 1. apply Z.pow_le_mono_r; lia. }
  assert (Hlen := i_len _ _ _ Hi). assert (Hhl := i_heads _ _ _ Hi).
  pose proof (block_in_superblock lbs id (2 ^ (21 - lbs) - 1)) as Hr. fold r in Hr.
  rewrite superblock_size_pow in Hr.
  assert (Hlive : Forall (disj r) live).
  { eapply Forall_impl; [apply (i_live _ _ _ Hi)|]. intros s Hs. right.
    fold id in Hs. rewrite superblock_size_pow in Hs. lia. }
  assert (Hnew : forall b, b ∈ zrange 0 (n - 1) -> 0 <= b < 2 ^ (21 - lbs) - 1)
    by (intros b Hb; apply elem_of_zrange in Hb; lia).
  split; [done|]. split; simpl; try done.
  - by rewrite length_zinsert.
  - by rewrite length_zinsert.
  - lia.
  - intros idx l Hl. destruct (decide (idx = lbs - 12)) as [->|Hne].
    + rewrite zlookup_zinsert_eq in Hl by lia. simplify_eq. apply NoDup_singleton.
    + rewrite zlookup_zinsert_ne in Hl by done. by eapply (i_set _ _ _ Hi).
  - intros idx l sb Hl Hsb. unfold head_ok; simpl.
    destruct (decide (idx = lbs - 12)) as [->|Hne].
    + rewrite zlookup_zinsert_eq in Hl by lia. simplify_eq. apply list_elem_of_singleton in Hsb as ->.
      eexists. rewrite zlookup_zinsert_eq by lia. split; [done|]. simpl.
      split_and!; try lia.
      * intros E. apply (f_equal length) in E. rewrite length_zrange in E. simpl in E. lia.
      * apply NoDup_zrange.
      * intros b Hb. apply Hnew in Hb. lia.
    + rewrite zlookup_zinsert_ne in Hl by done.
      destruct (i_head _ _ _ Hi _ _ _ Hl Hsb) as (S & HS & Hr' & ?). exists S.
      rewrite zlookup_zinsert_ne by lia. split; [done|]. split; [lia|done].
  - constructor; [rewrite superblock_size_pow; lia|].
    eapply Forall_impl; [apply (i_live _ _ _ Hi)|]. intros s Hs. fold id in Hs.
    rewrite superblock_size_pow in *. lia.
  - intros s (idx & l & sb & S & b & Hl & Hsb & HS & Hb & ->).
    cbn [superblock_head_list superblocks] in *.
    destruct (decide (idx = lbs - 12)) as [->|Hne].
    + rewrite zlookup_zinsert_eq in Hl by lia. simplify_eq. apply list_elem_of_singleton in Hsb as ->.
      rewrite zlookup_zinsert_eq in HS by lia. simplify_eq. cbn [free_blocks log_block_size] in *. apply Hnew in Hb.
      constructor; [apply block_disj; lia|].
      pose proof (block_in_superblock lbs id b) as Hbr. rewrite superblock_size_pow in Hbr.
      eapply Forall_impl; [apply (i_live _ _ _ Hi)|]. intros s Hs. right.
      fold id in Hs. rewrite superblock_size_pow in Hs. lia.
    + rewrite zlookup_zinsert_ne in Hl by done.
      destruct (i_head _ _ _ Hi _ _ _ Hl Hsb) as (S' & _ & Hsbr & _).
      rewrite zlookup_zinsert_ne in HS by (fold id in Hsbr; lia).
      assert (Hfr : free_region st (block_region (log_block_size S) sb b))
        by (by exists idx, l, sb, S, b).
      constructor; [|by apply (i_sep _ _ _ Hi)].
      pose proof (free_region_bounds _ _ _ Hi Hfr) as Hb'. left. fold id in Hb'.
      rewrite superblock_size_pow in Hb'. lia.
Qed.

(** A block of a superblock that has one: the other branch. *)
Lemma malloc_reuse st live lbs sb rest S bs b :
  inv ab st live -> 12 <= lbs <= 20 ->
  zlookup (superblock_head_list st) (lbs - 12) = Some (sb :: rest) ->
  zlookup (superblocks st) sb = Some S -> free_blocks S = bs ++ [b] ->
  let r := block_region lbs sb b in
  Forall (disj r) live /\ 0 <= r.1 /\
  r.1 + r.2 <= superblock_free_idx st * superblock_size /\
  inv ab (mk_alloc (superblock_free_idx st) (free_list st)
            (zinsert sb (set_free_blocks bs S) (superblocks st))
            (zinsert (lbs - 12) (match bs with [] => rest | _ => sb :: rest end)
               (superblock_head_list st))) (r :: live).
Proof using Hab.
  intros Hi Hlbs Hl HS Hbs r.
  destruct (head_class _ _ _ _ sb S Hi Hl ltac:(by left) HS) as [Hok _].
  pose proof Hok as (_ & Hsb & Hlog & _ & Hnd & Hrange). rewrite Hbs in Hnd, Hrange.
  assert (Elog : log_block_size S = lbs) by lia. rewrite Elog in Hrange.
  apply NoDup_app in Hnd as (Hnd & Hnb & _).
  assert (Hb : b ∉ bs) by (intros Hin; apply (Hnb b Hin); by left).
  assert (Hfr : free_region st r).
  { exists (lbs - 12), (sb :: rest), sb, S, b. split_and!; try done; [by left| |by rewrite Elog].
    rewrite Hbs. apply elem_of_app. right. by left. }
  destruct (free_region_bounds _ _ _ Hi Hfr) as [Hr0 Hr1].
  pose proof (i_set _ _ _ Hi _ _ Hl) as Hns. apply NoDup_cons in Hns as [Hnin Hns].
  assert (Hsb' := zlookup_Some_range _ _ _ HS). assert (Hl' := zlookup_Some_range _ _ _ Hl).
  split; [by apply (i_sep _ _ _ Hi)|]. split; [done|]. split; [done|].
  set (l' := match bs with [] => rest | _ => sb :: rest end).
  assert (Hl'in : forall x, x ∈ l' -> x ∈ sb :: rest /\ (x = sb -> bs <> [])).
  { intros x. unfold l'. destruct bs; [|done]. intros Hx. split; [by right|]. by intros ->. }
  split; simpl.
  - rewrite length_zinsert. apply (i_len _ _ _ Hi).
  - rewrite length_zinsert. apply (i_heads _ _ _ Hi).
  - apply (i_fl _ _ _ Hi).
  - apply (i_idx _ _ _ Hi).
  - intros idx l. destruct (decide (idx = lbs - 12)) as [->|Hne].
    + rewrite zlookup_zinsert_eq by lia. intros [= <-]. unfold l'.
      destruct bs; [done|]. by constructor.
    + rewrite zlookup_zinsert_ne by done. apply (i_set _ _ _ Hi).
  - intros idx l x Hx Hin. unfold head_ok; simpl.
    destruct (decide (x = sb)) as [->|Hxs].
    + exists (set_free_blocks bs S). rewrite zlookup_zinsert_eq by lia. simpl.
      destruct (decide (idx = lbs - 12)) as [->|Hne].
      * rewrite zlookup_zinsert_eq in Hx by lia. injection Hx as <-.
        destruct (Hl'in sb Hin) as [_ Hnil]. rewrite Elog. split_and!; try lia; try done.
        -- by apply Hnil.
        -- intros b' Hb'. apply Hrange, elem_of_app. by left.
      * rewrite zlookup_zinsert_ne in Hx by done.
        destruct (head_class _ _ _ _ _ _ Hi Hx Hin HS) as [(_ & _ & Hlog' & _) _]. lia.
    + assert (exists l0, zlookup (superblock_head_list st) idx = Some l0 /\ x ∈ l0)
        as (l0 & Hl0 & Hx0).
      { destruct (decide (idx = lbs - 12)) as [->|Hne].
        - rewrite zlookup_zinsert_eq in Hx by lia. injection Hx as <-. eexists. split; [done|].
          by apply Hl'in.
        - rewrite zlookup_zinsert_ne in Hx by done. eauto. }
      rewrite zlookup_zinsert_ne by done. by apply (i_head _ _ _ Hi idx l0).
  - constructor; [done|]. apply (i_live _ _ _ Hi).
  - intros s (idx & l & x & S' & b' & Hx & Hin & HS' & Hb' & ->).
    cbn [superblock_head_list superblocks] in *.
    destruct (decide (x = sb)) as [->|Hxs].
    + rewrite zlookup_zinsert_eq in HS' by lia. injection HS' as <-. simpl in *. rewrite Elog.
      constructor; [apply block_disj; [lia|]; by intros ->|].
      apply (i_sep _ _ _ Hi). exists (lbs - 12), (sb :: rest), sb, S, b'.
      split_and!; try done; [by left| |by rewrite Elog].
      rewrite Hbs. apply elem_of_app. by left.
    + rewrite zlookup_zinsert_ne in HS' by done.
      assert (exists l0, zlookup (superblock_head_list st) idx = Some l0 /\ x ∈ l0)
        as (l0 & Hl0 & Hx0).
      { destruct (decide (idx = lbs - 12)) as [->|Hne].
        - rewrite zlookup_zinsert_eq in Hx by lia. injection Hx as <-. eexists. split; [done|].
          by apply Hl'in.
        - rewrite zlookup_zinsert_ne in Hx by done. eauto. }
      constructor.
      * destruct (head_class _ _ _ _ _ _ Hi Hl0 Hx0 HS') as [(_ & _ & _ & _ & _ & Hrg) Hlg].
        apply other_superblock_disj; try lia; [by apply Hrg|]. apply Hrange, elem_of_app. right. by left.
      * apply (i_sep _ _ _ Hi). by exists idx, l0, x, S', b'.
Qed.

(** A run of fresh superblocks. *)
Lemma malloc_run st live n sbs :
  inv ab st live -> let id := superblock_free_idx st in
  0 < n -> id + n <= num_superblocks ab -> length sbs = length (superblocks st) ->
  (forall j, j < id -> zlookup sbs j = zlookup (superblocks st) j) ->
  let r := (id * superblock_size, n * superblock_size) in
  Forall (disj r) live /\
  inv ab (mk_alloc (id + n) (free_list st) sbs (superblock_head_list st)) (r :: live).
Proof using Hab.
  intros Hi id Hn Hlim Hlen Hsame r.
  assert (Hlive : Forall (disj r) live).
  { eapply Forall_impl; [apply (i_live _ _ _ Hi)|]. intros s Hs. by right. }
  pose proof (i_idx _ _ _ Hi) as Hidx. fold id in Hidx.
  split; [done|]. split; simpl.
  - rewrite Hlen. apply (i_len _ _ _ Hi).
  - apply (i_heads _ _ _ Hi).
  - apply (i_fl _ _ _ Hi).
  - lia.
  - apply (i_set _ _ _ Hi).
  - intros idx l sb Hl Hsb. destruct (i_head _ _ _ Hi _ _ _ Hl Hsb) as (S & HS & Hr & ?).
    exists S. fold id in Hr. split; simpl; [by rewrite Hsame by lia|]. split; [lia|done].
  - subst r. rewrite superblock_size_pow. constructor; cbn [fst snd]; [lia|].
    eapply Forall_impl; [apply (i_live _ _ _ Hi)|]. intros s Hs. fold id in Hs.
    rewrite superblock_size_pow in Hs. lia.
  - intros s (idx & l & sb & S & b & Hl & Hsb & HS & Hb & ->).
    cbn [superblock_head_list superblocks] in *.
    destruct (i_head _ _ _ Hi _ _ _ Hl Hsb) as (S' & _ & Hr & _). fold id in Hr.
    rewrite Hsame in HS by lia.
    assert (Hfr : free_region st (block_region (log_block_size S) sb b))
      by (by exists idx, l, sb, S, b).
    constructor; [|by apply (i_sep _ _ _ Hi)].
    destruct (free_region_bounds _ _ _ Hi Hfr). by left.
Qed.

(** The size of the block a request is rounded to. *)
Definition block_bytes (len : Z) : Z := 2 ^ Z.max (Z.log2_up len) 12.

Lemma block_bytes_ge len : 0 <= len -> len <= block_bytes len.
Proof.
  intros Hl. unfold block_bytes. destruct (decide (len <= 1)).
  - pose proof (Z.pow_pos_nonneg 2 (Z.max (Z.log2_up len) 12)). lia.
  - pose proof (Z.log2_up_spec len). assert (2 ^ Z.log2_up len <= 2 ^ Z.max (Z.log2_up len) 12)
      by (apply Z.pow_le_mono_r; lia). lia.
Qed.

(** What [malloc] returns is a region of the rounded size, aligned, below the
    unallocated space, away from everything handed out before. *)
Definition malloc_good (live : list (Z * Z)) (st' : device_allocator) (len a : Z) : Prop :=
  Forall (disj (a, block_bytes len)) live /\ 0 <= a /\
  a + block_bytes len <= num_superblocks ab * superblock_size /\
  a mod (Z.min (block_bytes len) superblock_size) = 0 /\
  inv ab st' ((a, block_bytes len) :: live).

Lemma block_aligned lbs sb b : 0 <= lbs <= 21 ->
  (block_region lbs sb b).1 mod (Z.min (2 ^ lbs) superblock_size) = 0.
Proof.
  intros Hl. unfold block_region. rewrite superblock_size_pow. cbn [fst].
  rewrite Z.min_l by (apply Z.pow_le_mono_r; lia).
  replace (2 ^ 21) with (2 ^ (21 - lbs) * 2 ^ lbs)
    by (rewrite <- Z.pow_add_r by lia; f_equal; lia).
  rewrite Z.mul_assoc, <- Z.mul_add_distr_r. apply Z.mod_mul. lia.
Qed.

Lemma malloc_small_good st live len a st' :
  inv ab st live -> Z.log2_up len <= 20 ->
  let lbs := Z.max (Z.log2_up len) 12 in
  malloc_small st lbs (lbs - 12) = Done (a, st') -> malloc_good live st' len a.
Proof using Hab.
  intros Hi Hlen lbs Hm. assert (Hlbs : 12 <= lbs <= 20) by lia.
  assert (Hbb : block_bytes len = 2 ^ lbs) by done.
  unfold malloc_small in Hm. destruct log_consts as (_ & E2 & _). rewrite E2 in Hm. clear E2.
  pose proof num_superblocks_bounds as Hnum. pose proof (i_idx _ _ _ Hi) as Hidx.
  pose proof (i_len _ _ _ Hi) as Hlenb.
  assert (H64 : forall sb b, 0 <= sb < 2048 -> 0 <= b < 2 ^ (21 - lbs) ->
    u64 (sb * superblock_size + b * Z.shiftl 1 lbs) = (block_region lbs sb b).1).
  { intros sb b Hs Hb. rewrite Z.shiftl_1_l. apply u64_small.
    pose proof (block_in_superblock lbs sb b ltac:(lia) Hb) as Hbr. unfold block_region in Hbr.
    unfold block_region. rewrite superblock_size_pow in *. cbn [fst snd] in *.
    pose proof (Z.pow_pos_nonneg 2 lbs). lia. }
  apply bind_Done in Hm as (l & Hl & Hm). apply vget_Done in Hl.
  rewrite Z.shiftl_1_l in Hm.
  destruct l as [|sb rest].
  - rewrite (i_fl _ _ _ Hi) in Hm.
    destruct (2 ^ (21 - lbs) >=? 65536); [done|].
    apply bind_Done in Hm as (S0 & HS0 & Hm). apply vget_Done, zlookup_Some_range in HS0.
    assert (Hn : 0 < 2 ^ (21 - lbs)) by (apply Z.pow_pos_nonneg; lia).
    rewrite pop_back_zrange in Hm by lia. simpl in Hm.
    apply bind_Done in Hm as (sbs & Hsbs & Hm). apply vset_Done in Hsbs as [_ ->].
    apply bind_Done in Hm as (heads & Hh & Hm). apply vset_Done in Hh as [_ ->].
    injection Hm as <- <-. rewrite Z2Nat.id by lia.
    destruct (malloc_fresh st live lbs _ _ Hi Hlbs Hl ltac:(lia) eq_refl eq_refl) as [Hd Hinv].
    rewrite u32_small by lia. rewrite H64 by lia.
    pose proof (block_in_superblock lbs (superblock_free_idx st) (2 ^ (21 - lbs) - 1)
      ltac:(lia) ltac:(lia)) as Hbr.
    unfold malloc_good. rewrite Hbb. split_and!; try done.
    + rewrite superblock_size_pow in Hbr. lia.
    + rewrite superblock_size_pow in *. unfold block_region in *. cbn [fst snd] in *. lia.
    + apply block_aligned. lia.
  - apply bind_Done in Hm as (S & HS & Hm). apply vget_Done in HS.
    apply bind_Done in Hm as ([b bs] & Hpop & Hm). apply pop_back_Done in Hpop.
    apply bind_Done in Hm as (sbs & Hsbs & Hm). apply vset_Done in Hsbs as [_ ->].
    apply bind_Done in Hm as (heads & Hh & Hm). apply vset_Done in Hh as [_ ->].
    injection Hm as <- <-.
    destruct (malloc_reuse st live lbs sb rest S bs b Hi Hlbs Hl HS Hpop) as (Hd & H0 & H1 & Hinv).
    destruct (head_class _ _ _ _ sb S Hi Hl ltac:(by left) HS) as [(_ & Hsb & Hlog & _ & _ & Hrg) _].
    rewrite H64; [|lia|].
    2:{ replace (21 - lbs) with (21 - log_block_size S) by lia. apply Hrg. rewrite Hpop.
        apply elem_of_app. right. by left. }
    unfold malloc_good. rewrite Hbb. split_and!; try done.
    + rewrite superblock_size_pow in *. unfold block_region in *. cbn [fst snd] in *. lia.
    + apply block_aligned. lia.
Qed.

Lemma malloc_large_good fuel st live len a st' :
  inv ab st live -> let lbs := Z.max (Z.log2_up len) 12 in 21 <= lbs ->
  malloc_large ab fuel st lbs = Done (a, st') -> malloc_good live st' len a.
Proof using Hab.
  intros Hi lbs Hlbs Hm. assert (Hbb : block_bytes len = 2 ^ lbs) by done.
  unfold malloc_large in Hm. destruct log_consts as (_ & E2 & _). rewrite E2 in Hm. clear E2.
  destruct (lbs - 21 >=? 32) eqn:Eshift; [done|]. zb.
  pose proof num_superblocks_bounds as Hnum. pose proof (i_idx _ _ _ Hi) as Hidx.
  pose proof (i_len _ _ _ Hi) as Hlenb.
  rewrite Z.shiftl_1_l in Hm. set (n := 2 ^ (lbs - 21)) in *.
  assert (Hn : 0 < n <= 2 ^ 31).
  { split; [apply Z.pow_pos_nonneg; lia|]. apply Z.pow_le_mono_r; lia. }
  rewrite (u32_small n) in Hm by lia.
  destruct (negb _); [done|]. rewrite (i_fl _ _ _ Hi) in Hm.
  assert (Hbf : best_fit fuel (free_segments 0 0 []) n
    (Z.shiftl 1 (log_num_superblocks ab)) None = Done None) by by destruct fuel.
  rewrite Hbf in Hm. cbn [mbind outcome_bind] in Hm.
  rewrite (u32_small (superblock_free_idx st + n)) in Hm by lia.
  change (superblock_free_idx_lim ab) with (num_superblocks ab) in Hm.
  destruct (superblock_free_idx st + n >? num_superblocks ab) eqn:Elim; [done|]. zb.
  cbn [mbind outcome_bind] in Hm.
  apply bind_Done in Hm as (base & Hbase & Hm). apply bind_Done in Hm as (sbs & Hsbs & Hm).
  apply vset_Done in Hsbs as [_ ->]. apply bind_Done in Hm as (sbs' & Hcl & Hm).
  apply clear_flags_frame in Hcl as [Hlen Hframe]. rewrite length_zinsert in Hlen.
  injection Hm as <- <-. rewrite u32_small by (rewrite superblock_size_pow; lia).
  destruct (malloc_run st live n sbs' Hi) as [Hd Hinv]; [lia|lia|done| |].
  { intros j Hj. rewrite Hframe; [apply zlookup_zinsert_ne; lia|].
    intros Hin. apply elem_of_zrange in Hin. lia. }
  assert (Hnb : n * superblock_size = block_bytes len).
  { rewrite Hbb, superblock_size_pow. subst n. rewrite <- Z.pow_add_r by lia. f_equal. lia. }
  rewrite Hnb in Hd, Hinv. unfold malloc_good. rewrite (i_fl _ _ _ Hi) in Hinv.
  split_and!; try done.
  - rewrite superblock_size_pow. lia.
  - rewrite <- Hnb, superblock_size_pow. lia.
  - rewrite Z.min_r by (rewrite <- Hnb, superblock_size_pow; lia).
    apply Z.mod_mul. rewrite superblock_size_pow. lia.
Qed.

Lemma malloc_step fuel st live len a st' :
  inv ab st live -> 0 <= len < 2 ^ 64 -> malloc ab fuel st len = Done (a, st') ->
  malloc_good live st' len a.
Proof using Hab.
  intros Hi Hlen. unfold malloc. rewrite log2up_log2_up by done.
  destruct log_consts as (E1 & E2 & E3). rewrite E1, E3. clear E1 E2 E3.
  destruct (_ >=? 32); [done|]. destruct (Z.max (Z.log2_up len) 12 <? 12) eqn:E; zb; [lia|].
  destruct (Z.max (Z.log2_up len) 12 - 12 <? 9) eqn:E'; zb.
  - apply malloc_small_good; [done|lia].
  - apply malloc_large_good; [done|lia].
Qed.

Lemma new_inv : inv ab (new_allocator ab) [].
Proof using Hab.
  pose proof num_superblocks_bounds as Hnum. unfold new_allocator.
  destruct log_consts as (_ & _ & ->).
  assert (Hl : forall idx l, zlookup (replicate 9 ([] : list Z)) idx = Some l -> l = []).
  { intros idx l. unfold zlookup. case_decide; [|done]. intros Hx.
    by apply lookup_replicate in Hx as [-> _]. }
  split; simpl; try done; try lia.
  - rewrite length_replicate. lia.
  - intros idx l Hx. rewrite (Hl _ _ Hx). constructor.
  - intros idx l sb Hx Hin. rewrite (Hl _ _ Hx) in Hin. by apply elem_of_nil in Hin.
Qed.

(** The regions of a sequence of [malloc]s are good with respect to each other
    and to everything handed out before. *)
Lemma mallocs_good fuel lens st live addrs st' :
  inv ab st live -> Forall (fun len => 0 <= len < 2 ^ 64) lens ->
  mallocs ab fuel lens st = Done (addrs, st') ->
  length addrs = length lens /\
  forall i a len, addrs !! i = Some a -> lens !! i = Some len ->
    Forall (disj (a, block_bytes len)) live /\ 0 <= a /\
    a + block_bytes len <= num_superblocks ab * superblock_size /\
    a mod (Z.min (block_bytes len) superblock_size) = 0 /\
    forall j b len', (j < i)%nat -> addrs !! j = Some b -> lens !! j = Some len' ->
      disj (a, block_bytes len) (b, block_bytes len').
Proof using Hab.
  revert st live addrs. induction lens as [|len lens IH]; intros st live addrs Hi Hall; simpl.
  { intros [= <- <-]. split; [done|]. intros i a len Ha. by rewrite lookup_nil in Ha. }
  inversion Hall as [|? ? Hlen Hall']; subst. intros Hm.
  apply bind_Done in Hm as ([a st1] & Hm & Hr). apply bind_Done in Hr as ([as' st2] & Hms & Hr).
  simplify_eq. destruct (malloc_step _ _ _ _ _ _ Hi Hlen Hm) as (Hd & H0 & Hb & Hal & Hi1).
  destruct (IH _ _ _ Hi1 Hall' Hms) as [Hl Hrest]. split; [simpl; by rewrite Hl|].
  intros [|i] a' len' Ha Hle; simpl in Ha, Hle; simplify_eq.
  { split_and!; try done. intros j b len'' Hj. lia. }
  destruct (Hrest i a' len' Ha Hle) as (Hd' & ? & ? & ? & Hj).
  inversion Hd'; subst. split_and!; try done.
  intros [|j] b len'' Hji Hb' Hl''; simpl in Hb', Hl''; simplify_eq; [done|].
  by apply (Hj j); [lia| |].
Qed.

End malloc_steps.

(** ** Lemmas for the allocator's other behaviours *)

Lemma free_segments_sizes l b c : 0 <= c ->
  Forall (fun seg => seg.2 <= c + Z.of_nat (length l)) (free_segments b c l).
Proof.
  revert b c. induction l as [|x l IH]; intros b c Hc; simpl; [constructor|].
  destruct l as [|y l]; [repeat constructor; simpl; lia|].
  case_match.
  - eapply Forall_impl; [apply IH; lia|]. simpl. intros; lia.
  - constructor; [simpl; lia|]. eapply Forall_impl; [apply IH; lia|]. simpl. intros; lia.
Qed.

Lemma free_segments_nonempty l b c : l <> [] -> free_segments b c l <> [].
Proof.
  revert b c. induction l as [|x l IH]; intros b c Hl; [done|]. simpl.
  destruct l as [|y l]; [done|]. case_match; [|done]. by apply IH.
Qed.

(** Nothing leaves the list the best-fit loop waits to be empty. *)
Lemma best_fit_stuck fuel segs seg needed best start :
  last segs = Some seg -> (seg.2 < best \/ (seg.2 = best /\ start <> None)) ->
  best_fit fuel segs needed best start = Stuck.
Proof.
  revert best start. induction fuel as [|fuel IH]; intros best start Hl Hb;
    destruct seg as [sst sz]; simpl in *; rewrite Hl; [done|].
  destruct (needed <=? sz); [|by apply IH].
  destruct (sz <? best) eqn:E; zb; [apply IH; [done|right; done]|].
  destruct Hb as [|[-> Hs]]; [lia|]. rewrite Z.eqb_refl.
  destruct start as [x|]; [|done]. apply IH; [done|]. right.
  split; [by destruct (sst <? x)|by destruct (sst <? x)].
Qed.

Lemma grow_mask_spec n : 0 <= n < 63 -> grow_mask n = 2 ^ (n + 1) - 1.
Proof.
  intros Hn. unfold grow_mask. rewrite <- (Z2Nat.id n) at 2 by lia.
  assert (Hm : (Z.to_nat n < 63)%nat) by lia. clear Hn. revert Hm.
  generalize (Z.to_nat n) as m. clear n.
  induction m as [|m IH]; intros Hm; [done|].
  rewrite Nat2Z.inj_succ, Z.add_succ_l, Z.pow_succ_r by lia.
  change (Nat.iter (S m) ?f 1) with (f (Nat.iter m f 1)). cbv beta. rewrite IH by lia.
  assert (Hp : 0 < 2 ^ (Z.of_nat m + 1) < 2 ^ 63)
    by (split; [apply Z.pow_pos_nonneg; lia|apply Z.pow_lt_mono_r; lia]).
  rewrite Z.lor_comm, (lor_shiftl_add 1 _ 1) by lia. change (2 ^ 1) with 2.
  rewrite u64_small by lia. lia.
Qed.

(** Facts about the state that sequences of [malloc]s lead to. *)
Section malloc_outcomes.
Variable ab : Z.
Hypothesis Hab : 2 ^ 21 <= ab <= 2 ^ 32.

Lemma mallocs_inv fuel lens st live addrs st' :
  inv ab st live -> Forall (fun len => 0 <= len < 2 ^ 64) lens ->
  mallocs ab fuel lens st = Done (addrs, st') -> exists live', inv ab st' live'.
Proof using Hab.
  revert st live addrs. induction lens as [|len lens IH]; intros st live addrs Hi Hall; simpl.
  { intros [= <- <-]. eauto. }
  inversion Hall as [|? ? Hlen Hall']; subst. intros Hm.
  apply bind_Done in Hm as ([a st1] & Hm & Hr). apply bind_Done in Hr as ([as' st2] & Hms & Hr).
  simplify_eq. destruct (malloc_step ab Hab _ _ _ _ _ _ Hi Hlen Hm) as (_ & _ & _ & _ & Hi1).
  eauto.
Qed.

Lemma log2_up_class len : 0 <= len ->
  (len <= 2 ^ 20 <-> Z.log2_up len <= 20).
Proof.
  intros Hl. destruct (decide (len <= 0)) as [|Hp].
  - rewrite Z.log2_up_eqn0 by lia. lia.
  - rewrite Z.log2_up_le_pow2 by lia. done.
Qed.

Lemma malloc_unfold fuel st len : 0 <= len < 2 ^ 64 ->
  malloc ab fuel st len =
  let lbs := Z.max (Z.log2_up len) 12 in
  if lbs <=? 20 then malloc_small st lbs (lbs - 12) else if lbs >=? 32 then Undef else malloc_large ab fuel st lbs.
Proof using Hab.
  intros Hlen. unfold malloc. rewrite log2up_log2_up by done.
  destruct log_consts as (E1 & E2 & E3). rewrite E1, E3. clear E1 E2 E3. cbv zeta.
  destruct (Z.max (Z.log2_up len) 12 <? 12) eqn:E; zb; [lia|].
  destruct (_ >=? 32) eqn:E3; zb; [destruct (_ <=? 20) eqn:E2; zb; [lia|done]|].
  destruct (_ - 12 <? 9) eqn:E1, (_ <=? 20) eqn:E2; zb; try done; lia.
Qed.

Lemma malloc_small_total fuel st live len :
  inv ab st live -> superblock_free_idx st < num_superblocks ab -> 0 <= len <= 2 ^ 20 ->
  exists a st', malloc ab fuel st len = Done (a, st').
Proof using Hab.
  intros Hi Hleft Hlen. rewrite malloc_unfold by lia. cbv zeta.
  assert (Hlg : Z.log2_up len <= 20) by (apply log2_up_class; lia).
  set (lbs := Z.max (Z.log2_up len) 12). destruct (lbs <=? 20) eqn:E; zb; [|lia].
  pose proof (i_idx _ _ _ Hi) as Hidx. pose proof (i_len _ _ _ Hi) as Hl.
  pose proof (i_heads _ _ _ Hi) as Hh.
  unfold malloc_small. destruct log_consts as (_ & E2 & _). rewrite E2. clear E2.
  destruct (zlookup_in_range (superblock_head_list st) (lbs - 12)) as [l Hll]; [lia|].
  assert (Hvg : vget (superblock_head_list st) (lbs - 12) = Done l) by by apply vget_Done.
  rewrite Hvg. cbn [mbind outcome_bind].
  destruct l as [|sb rest].
  - rewrite (i_fl _ _ _ Hi).
    assert (Hn : 2 <= 2 ^ (21 - lbs) < 65536).
    { rewrite <- (Z.pow_1_r 2) at 1. change 65536 with (2 ^ 16).
      split; [apply Z.pow_le_mono_r; lia|apply Z.pow_lt_mono_r; lia]. }
    rewrite Z.shiftl_1_l. destruct (_ >=? 65536) eqn:E6; zb; [lia|].
    destruct (zlookup_in_range (superblocks st) (superblock_free_idx st)) as [S0 HS0]; [lia|].
    rewrite (vget_Some _ _ _ HS0). cbn [mbind outcome_bind].
    rewrite pop_back_zrange by lia. cbn [mbind outcome_bind].
    rewrite !vset_in_range by lia. cbn [mbind outcome_bind]. eauto.
  - destruct (i_head _ _ _ Hi _ _ sb Hll ltac:(by left)) as (S & HS & _ & _ & Hne & _).
    rewrite (vget_Some _ _ _ HS). cbn [mbind outcome_bind].
    apply zlookup_Some_range in HS.
    destruct (pop_back (free_blocks S)) as [[b bs]| | | |] eqn:Ep;
      cbn [mbind outcome_bind];
      [rewrite vset_in_range by lia; cbn [mbind outcome_bind];
       rewrite vset_in_range by lia; cbn [mbind outcome_bind]; eauto|..];
      unfold pop_back in Ep; destruct (last (free_blocks S)) eqn:El; try done;
      by apply last_None in El.
Qed.

Lemma needed_bounds len : 2 ^ 20 < len <= 2 ^ 31 ->
  let lbs := Z.max (Z.log2_up len) 12 in
  21 <= lbs <= 31 /\ u32 (Z.shiftl 1 (lbs - 21)) = 2 ^ (lbs - 21) /\
  0 < 2 ^ (lbs - 21) <= 2 ^ 15 /\
  Z.land (2 ^ (lbs - 21)) (Z.shiftl 65535 16) = 0 /\
  block_bytes len / superblock_size = 2 ^ (lbs - 21).
Proof.
  intros Hlen lbs.
  assert (H20 : ~ Z.log2_up len <= 20) by (rewrite <- log2_up_class by lia; lia).
  assert (H31 : Z.log2_up len <= 31) by (apply Z.log2_up_le_pow2; lia).
  assert (Hn : 0 < 2 ^ (lbs - 21) <= 2 ^ 15)
    by (split; [apply Z.pow_pos_nonneg; lia|apply Z.pow_le_mono_r; lia]).
  split_and!; try lia.
  - rewrite Z.shiftl_1_l. apply u32_small. lia.
  - apply land_shiftl_low; lia.
  - unfold block_bytes. fold lbs. rewrite superblock_size_pow.
    replace lbs with (lbs - 21 + 21) at 1 by lia. rewrite Z.pow_add_r by lia.
    apply Z.div_mul. lia.
Qed.

Lemma clear_flags_total ids sbs :
  Forall (fun i => 0 <= i < Z.of_nat (length sbs)) ids -> exists sbs', clear_flags sbs ids = Done sbs'.
Proof.
  revert sbs. induction ids as [|i ids IH]; intros sbs Hall; simpl; [eauto|].
  inversion Hall as [|? ? Hi Hall']; subst. destruct (zlookup_in_range sbs i Hi) as [sb Hsb].
  unfold vget, vset. rewrite Hsb. cbn [or_undef mbind outcome_bind].
  apply IH. by rewrite length_zinsert.
Qed.

Lemma malloc_large_exact fuel st live len :
  inv ab st live -> 2 ^ 20 < len <= 2 ^ 31 ->
  let needed := block_bytes len / superblock_size in
  if num_superblocks ab <? superblock_free_idx st + needed
  then malloc ab fuel st len = Exit 3
  else exists st', malloc ab fuel st len
         = Done (superblock_free_idx st * superblock_size, st') /\
       superblock_free_idx st' = superblock_free_idx st + needed.
Proof using Hab.
  intros Hi Hlen. rewrite malloc_unfold by lia. cbv zeta.
  destruct (needed_bounds len Hlen) as (Hlbs & Hu & Hn & Hland & ->).
  set (lbs := Z.max (Z.log2_up len) 12) in *. destruct (lbs <=? 20) eqn:E; zb; [lia|].
  destruct (lbs >=? 32) eqn:E32; zb; [lia|].
  pose proof (i_idx _ _ _ Hi) as Hidx. pose proof (i_len _ _ _ Hi) as Hl.
  pose proof (num_superblocks_bounds ab Hab) as Hnum.
  unfold malloc_large. destruct log_consts as (_ & E2 & _). rewrite E2. clear E2.
  destruct (_ >=? 32) eqn:E3; zb; [lia|]. rewrite Hu, Hland. cbn [negb Z.eqb].
  rewrite (i_fl _ _ _ Hi). set (n := 2 ^ (lbs - 21)) in *.
  assert (Hbf : best_fit fuel (free_segments 0 0 []) n
    (Z.shiftl 1 (log_num_superblocks ab)) None = Done None) by by destruct fuel.
  rewrite Hbf. cbn [mbind outcome_bind]. rewrite (u32_small (_ + n)) by lia.
  change (superblock_free_idx_lim ab) with (num_superblocks ab). rewrite Z.gtb_ltb.
  destruct (num_superblocks ab <? _) eqn:Elim; [done|]. zb. cbn [mbind outcome_bind].
  destruct (zlookup_in_range (superblocks st) (superblock_free_idx st)) as [S0 HS0]; [lia|].
  unfold vget, vset. rewrite HS0. cbn [or_undef mbind outcome_bind].
  match goal with |- context [clear_flags ?s ?i] =>
    destruct (clear_flags_total i s) as [sbs' ->] end.
  { rewrite length_zinsert. apply Forall_forall. intros i Hin. apply elem_of_zrange in Hin. lia. }
  cbn [mbind outcome_bind]. rewrite u32_small by (rewrite superblock_size_pow; lia). eauto.
Qed.

Lemma malloc_large_stuck fuel st len :
  free_list st <> [] -> Z.of_nat (length (free_list st)) < num_superblocks ab ->
  2 ^ 20 < len <= 2 ^ 31 -> malloc ab fuel st len = Stuck.
Proof using Hab.
  intros Hfl Hsmall Hlen. rewrite malloc_unfold by lia. cbv zeta.
  destruct (needed_bounds len Hlen) as (Hlbs & Hu & Hn & Hland & _).
  set (lbs := Z.max (Z.log2_up len) 12) in *. destruct (lbs <=? 20) eqn:E; zb; [lia|].
  destruct (lbs >=? 32) eqn:E32; zb; [lia|].
  unfold malloc_large. destruct log_consts as (_ & E2 & _). rewrite E2. clear E2.
  destruct (_ >=? 32) eqn:E3; zb; [lia|]. rewrite Hu, Hland. cbn [negb Z.eqb].
  pose proof (free_segments_nonempty (free_list st) 0 0 Hfl) as Hne.
  destruct (last (free_segments 0 0 (free_list st))) as [seg|] eqn:El;
    [|by apply last_None in El].
  rewrite (best_fit_stuck _ _ seg); [done|done|]. left.
  pose proof (free_segments_sizes (free_list st) 0 0 ltac:(lia)) as Hsz.
  apply last_Some_elem_of in El. rewrite Forall_forall in Hsz. specialize (Hsz _ El).
  simpl in Hsz. change (Z.shiftl 1 (log_num_superblocks ab)) with (num_superblocks ab). lia.
Qed.

Lemma get_block_info_block st sb b lbs bs :
  0 <= sb < num_superblocks ab -> 12 <= lbs <= 20 -> 0 <= b < 2 ^ (21 - lbs) ->
  zlookup (superblocks st) sb = Some (mk_sb lbs BLOCK_ALLOC bs) ->
  get_block_info ab st (block_region lbs sb b).1
    = Done (sb, (sb * 2 ^ (21 - lbs) + b) mod 2 ^ 22).
Proof using Hab.
  intros Hsb Hlbs Hb HS. pose proof (num_superblocks_bounds ab Hab) as Hnum.
  pose proof (block_in_superblock lbs sb b ltac:(lia) Hb) as Hbr.
  assert (Hlog : 0 <= log_num_superblocks ab <= 11 /\
                 num_superblocks ab = 2 ^ log_num_superblocks ab).
  { apply log_num_superblocks_bounds. done. }
  destruct Hlog as [Hlog Hnp].
  set (addr := (block_region lbs sb b).1) in *.
  assert (E1 : addr / 2 ^ 21 = sb).
  { rewrite superblock_size_pow in Hbr. unfold block_region in Hbr. cbn [fst snd] in Hbr.
    pose proof (Z.pow_pos_nonneg 2 lbs).
    symmetry. apply (Z.div_unique _ _ _ (addr - sb * 2 ^ 21)); lia. }
  assert (E2 : addr / 2 ^ lbs = sb * 2 ^ (21 - lbs) + b).
  { subst addr. unfold block_region. rewrite superblock_size_pow. cbn [fst].
    replace (2 ^ 21) with (2 ^ (21 - lbs) * 2 ^ lbs)
      by (rewrite <- Z.pow_add_r by lia; f_equal; lia).
    rewrite Z.mul_assoc, <- Z.mul_add_distr_r. apply Z.div_mul. lia. }
  unfold get_block_info, superblock_id_mask, block_id_mask.
  destruct log_consts as (_ & -> & _).
  rewrite (grow_mask_spec (log_num_superblocks ab)), (grow_mask_spec 21) by lia.
  rewrite land_ones_mod, Z.shiftr_div_pow2, E1 by lia.
  assert (Hmod : sb mod 2 ^ (log_num_superblocks ab + 1) = sb).
  { apply Z.mod_small. rewrite Z.pow_add_r by lia. lia. }
  rewrite Hmod, u32_small by lia. unfold vget. rewrite HS. cbn [or_undef mbind outcome_bind].
  change (Z.land (flags _) BLOCK_ALLOC =? 0) with false. cbn [negb log_block_size].
  rewrite land_ones_mod, Z.shiftr_div_pow2, E2 by lia. change (21 + 1) with 22.
  pose proof (Z.mod_pos_bound (sb * 2 ^ (21 - lbs) + b) (2 ^ 22)).
  by rewrite u32_small by lia.
Qed.

End malloc_outcomes.

(** ** Properties *)

(** C3. Blocks handed out by any sequence of [malloc]s, with no [free] among them, on a
    fresh allocator for a memory of 2 MiB to 4 GiB are pairwise disjoint, at least as
    long as requested, inside the superblocks of the memory (which are those of its
    size rounded up to a power of two), and aligned to their (power of two) size or,
    for runs of superblocks, to 2 MiB.  Both hypotheses are needed:
    [large_malloc_wraps] has a memory of 16 GiB, [free_then_malloc_overlaps] a [free]. *)
Theorem mallocs_disjoint ab fuel lens addrs st i j a b len len' :
  2 ^ 21 <= ab <= 2 ^ 32 -> Forall (fun len => 0 <= len < 2 ^ 64) lens ->
  mallocs ab fuel lens (new_allocator ab) = Done (addrs, st) ->
  (j < i)%nat -> addrs !! i = Some a -> lens !! i = Some len ->
  addrs !! j = Some b -> lens !! j = Some len' ->
  (a + len <= b \/ b + len' <= a) /\ 0 <= a /\
  a + len <= 2 ^ Z.log2_up ab /\ a mod (Z.min (block_bytes len) superblock_size) = 0.
Proof.
  intros Hab Hall Hm Hji Ha Hl Hb Hl'.
  destruct (mallocs_good ab Hab _ _ _ _ _ _ (new_inv ab Hab) Hall Hm) as [_ Hg].
  destruct (Hg i a len Ha Hl) as (_ & H0 & Hend & Hal & Hdj).
  specialize (Hdj j b len' Hji Hb Hl'). unfold disj in Hdj; simpl in Hdj.
  assert (0 <= len < 2 ^ 64) by (by eapply Forall_lookup_1 in Hl; [|exact Hall]).
  assert (0 <= len' < 2 ^ 64) by (by eapply Forall_lookup_1 in Hl'; [|exact Hall]).
  pose proof (block_bytes_ge len). pose proof (block_bytes_ge len').
  rewrite num_superblocks_bytes in Hend by lia. split_and!; try done; lia.
Qed.

Lemma mallocs_disjoint_witness :
  let lens := [100; 5000000; 4096; 1048576] in
  exists addrs st, mallocs (2 ^ 25) 0 lens (new_allocator (2 ^ 25)) = Done (addrs, st) /\
    addrs = [2093056; 2097152; 2088960; 11534336] /\
    (2088960 + 4096 <= 2097152 \/ 2097152 + 5000000 <= 2088960) /\ 0 <= 2088960 /\
    2088960 + 4096 <= 2 ^ Z.log2_up (2 ^ 25) /\
    2088960 mod (Z.min (block_bytes 4096) superblock_size) = 0.
Proof.
  eexists _, _. split; [vm_compute; reflexivity|]. split; [reflexivity|].
  eapply (mallocs_disjoint (2 ^ 25) 0 [100; 5000000; 4096; 1048576]
            [2093056; 2097152; 2088960; 11534336] _ 2 1);
    [lia|repeat constructor; lia|vm_compute; reflexivity|lia|reflexivity..].
Defined.

(** [log2up] is the ceiling of the base-2 logarithm on all 64-bit values. *)
Theorem log2up_is_log2_up val : 0 <= val < 2 ^ 64 -> log2up val = Z.log2_up val.
Proof. apply log2up_log2_up. Qed.

Lemma log2up_is_log2_up_witness : log2up 5000 = Z.log2_up 5000 /\ Z.log2_up 5000 = 13.
Proof. split; [apply log2up_is_log2_up; lia | reflexivity]. Defined.

(** As long as a superblock is left, a request of up to 1 MiB is served:
    after any successful sequence of [malloc]s, [malloc] of such a length
    returns an address. *)
Theorem small_malloc_succeeds ab fuel fuel' lens addrs st len :
  2 ^ 21 <= ab <= 2 ^ 32 -> Forall (fun len => 0 <= len < 2 ^ 64) lens ->
  mallocs ab fuel lens (new_allocator ab) = Done (addrs, st) ->
  superblock_free_idx st < num_superblocks ab -> 0 <= len <= 2 ^ 20 ->
  exists a st', malloc ab fuel' st len = Done (a, st').
Proof.
  intros Hab Hall Hm Hleft Hlen.
  destruct (mallocs_inv ab Hab _ _ _ _ _ _ (new_inv ab Hab) Hall Hm) as [live Hi].
  by eapply malloc_small_total.
Qed.

Lemma small_malloc_succeeds_witness :
  exists a st', malloc (2 ^ 25) 0 (new_allocator (2 ^ 25)) 70000 = Done (a, st').
Proof.
  apply (small_malloc_succeeds (2 ^ 25) 0 0 [] [] (new_allocator (2 ^ 25)) 70000);
    [lia|constructor|reflexivity|vm_compute; reflexivity|lia].
Defined.

(** A run of superblocks is cut from the unallocated space or refused: after
    any successful sequence of [malloc]s, a request of more than 1 MiB and at
    most 2 GiB exits with status 3 when fewer than the needed superblocks are
    left, and otherwise returns the start of the unallocated space. *)
Theorem large_malloc_outcome ab fuel fuel' lens addrs st len :
  2 ^ 21 <= ab <= 2 ^ 32 -> Forall (fun len => 0 <= len < 2 ^ 64) lens ->
  mallocs ab fuel lens (new_allocator ab) = Done (addrs, st) ->
  2 ^ 20 < len <= 2 ^ 31 ->
  let needed := block_bytes len / superblock_size in
  if num_superblocks ab <? superblock_free_idx st + needed
  then malloc ab fuel' st len = Exit 3
  else exists st', malloc ab fuel' st len
         = Done (superblock_free_idx st * superblock_size, st') /\
       superblock_free_idx st' = superblock_free_idx st + needed.
Proof.
  intros Hab Hall Hm Hlen.
  destruct (mallocs_inv ab Hab _ _ _ _ _ _ (new_inv ab Hab) Hall Hm) as [live Hi].
  by eapply malloc_large_exact.
Qed.

Lemma large_malloc_outcome_witness :
  exists st', malloc (2 ^ 25) 0 (new_allocator (2 ^ 25)) 5000000
         = Done (0 * superblock_size, st') /\ superblock_free_idx st' = 0 + 4.
Proof.
  apply (large_malloc_outcome (2 ^ 25) 0 0 [] [] (new_allocator (2 ^ 25)) 5000000);
    [lia|constructor|reflexivity|lia].
Defined.

(** The block number [free] computes for block [b] of superblock [sb] still
    contains the superblock's number: it is [b] only for superblock 0. *)
Theorem freed_block_id ab st sb b lbs bs :
  2 ^ 21 <= ab <= 2 ^ 32 -> 0 <= sb < num_superblocks ab -> 12 <= lbs <= 20 ->
  0 <= b < 2 ^ (21 - lbs) ->
  zlookup (superblocks st) sb = Some (mk_sb lbs BLOCK_ALLOC bs) ->
  get_block_info ab st (block_region lbs sb b).1
    = Done (sb, (sb * 2 ^ (21 - lbs) + b) mod 2 ^ 22).
Proof. intros. by eapply get_block_info_block. Qed.

Lemma freed_block_id_witness :
  let st := mk_alloc 2 [] [mk_sb 13 1 []; mk_sb 13 1 []] [] in
  get_block_info (2 ^ 22) st (1 * superblock_size + 255 * 2 ^ 13) = Done (1, 511).
Proof.
  intros st. apply (freed_block_id (2 ^ 22) st 1 255 13 []);
    [lia|vm_compute; split; discriminate || reflexivity|lia|vm_compute; split; discriminate || reflexivity
    |reflexivity].
Defined.

(** After a [free] in a superblock other than 0 the allocator hands out
    memory that is in use: 8 KiB returned at the end of this sequence of calls
    lie inside the 16 KiB block that is still allocated. *)
Theorem free_then_malloc_overlaps :
  exists a1 a2 a3 a4 b,
    ('(l, st) ← mallocs (2 ^ 25) 0 [4096; 8192; 16384; 8192] (new_allocator (2 ^ 25));
     st' ← free (2 ^ 25) st a2;
     '(x, _) ← malloc (2 ^ 25) 0 st' 8192;
     Done (l, x)) = Done ([a1; a2; a3; a4], b) /\
    a3 <= b /\ b + 8192 <= a3 + 16384.
Proof.
  exists 2093056, 4186112, 6275072, 4177920, 6283264.
  split; [vm_compute; reflexivity|]. lia.
Qed.

(** Above 4 GiB the address of a run of superblocks wraps: with 16 GiB of
    device memory the third 2 GiB request gets the address of the first. *)
Theorem large_malloc_wraps :
  fst <$> mallocs (2 ^ 34) 0 [2 ^ 31; 2 ^ 31; 2 ^ 31] (new_allocator (2 ^ 34))
    = Done [0; 2 ^ 31; 0].
Proof. vm_compute. reflexivity. Qed.

(** Above 2 GiB the size of the block is shifted out of an [int], although the branch
    for large blocks does not use it. *)
Theorem large_request_undefined ab fuel st len :
  2 ^ 31 < len < 2 ^ 64 -> malloc ab fuel st len = Undef.
Proof.
  intros Hl. unfold malloc. rewrite log2up_log2_up by lia.
  assert (31 < Z.log2_up len) as Hg by (apply Z.log2_up_lt_pow2; lia).
  destruct (_ >=? 32) eqn:E; zb; [done|lia].
Qed.

Lemma large_request_undefined_witness : malloc (2 ^ 34) 0 (new_allocator (2 ^ 34)) (2 ^ 31 + 1) = Undef.
Proof. apply (large_request_undefined (2 ^ 34) 0). lia. Defined.

(** Once a superblock is on the free list, a request of more than 1 MiB and at most 2 GiB
    never returns: the loop over the free segments removes none of them. *)
Theorem large_malloc_never_returns ab fuel st len :
  2 ^ 21 <= ab <= 2 ^ 32 -> free_list st <> [] ->
  Z.of_nat (length (free_list st)) < num_superblocks ab -> 2 ^ 20 < len <= 2 ^ 31 ->
  malloc ab fuel st len = Stuck.
Proof. intros. by apply malloc_large_stuck. Qed.

(** Allocating a superblock, giving it back and allocating again is enough. *)
Lemma large_malloc_never_returns_witness :
  exists st, ('(a, st1) ← malloc (2 ^ 25) 0 (new_allocator (2 ^ 25)) (2 ^ 21);
              free (2 ^ 25) st1 a) = Done st /\
    malloc (2 ^ 25) 1000 st (2 ^ 21) = Stuck.
Proof.
  eexists. split; [vm_compute; reflexivity|].
  apply (large_malloc_never_returns (2 ^ 25) 1000);
    [lia|discriminate|vm_compute; reflexivity|lia].
Defined.

End Alloc.
