(* ===== verification/AxiCtrl.v ===== *)
(** * The AXI-Lite control front end of the simulator

    [AXIControlIntf] of [runtime/include/core/state_machine.h]: three state
    machines (command transfer, response transfer, status polling) that share
    one AXI-Lite bus and are ticked once per clock edge.

    The wires the hardware drives are the argument [axi_in] of a tick, the wires
    the controller drives are the record [axi_out] (each keeps its value until
    it is set again).  The register addresses and the packing configuration come
    from a header generated with the hardware: they are section variables.  The
    queue [cmds] is the one the command server fills; a call of
    [register_reponse] is recorded in [registered], the labels [LRespond] of
    the command server.  The mutex around the queue makes the pop atomic. *)

From S2P Require Import Prelude RoccCmd.
Import Rocc.

Module Axi.

Inductive cmd_transfer_state :=
| CMD_INACTIVE
| CMD_BITS_WRITE_ADDR
| CMD_BITS_WRITE_DAT
| CMD_BITS_WRITE_B
| CMD_VALID_ADDR
| CMD_VALID_DAT
| CMD_VALID_WRITE_B
| CMD_RECHECK_READY_ADDR
| CMD_RECHECK_READY_DAT.

Inductive resp_transfer_state :=
| RESPT_INACTIVE
| RESPT_BITS_ADDR
| RESPT_BITS_READ
| RESPT_READY_ADDR
| RESPT_READY_WRITE
| RESPT_READY_WRITE_B
| RESPT_RECHECK_VALID_ADDR
| RESPT_RECHECK_VALID_READ.

Inductive update_state :=
| UPDATE_IDLE_RESP
| UPDATE_IDLE_CMD
| UPDATE_CMD_ADDR
| UPDATE_CMD_WAIT
| UPDATE_RESP_ADDR
| UPDATE_RESP_WAIT.

Record command_transaction := mk_ct {
  cmdbuf : list Z;
  cmd_progress : Z;
  cmd_state : cmd_transfer_state;
  ready_for_command : bool
}.
Definition cmd_payload_length : Z := 5.

Record response_transaction := mk_rt {
  resbuf : list Z;
  rsp_progress : Z;
  rsp_state : resp_transfer_state
}.
Definition rsp_payload_length : Z := 3.

(** What the hardware drives. *)
Record axi_in := mk_in {
  aw_ready : bool;
  w_ready : bool;
  b_valid : bool;
  ar_ready : bool;
  r_valid : bool;
  r_data : Z
}.

(** What the controller drives. *)
Record axi_out := mk_out {
  aw_valid : bool;
  aw_addr : Z;
  w_valid : bool;
  w_data : Z;
  b_ready : bool;
  ar_valid : bool;
  ar_addr : Z;
  r_ready : bool
}.

Definition drive_aw (a : Z) (o : axi_out) : axi_out :=
  mk_out true a (w_valid o) (w_data o) (b_ready o) (ar_valid o) (ar_addr o) (r_ready o).
Definition drive_w (d : Z) (o : axi_out) : axi_out :=
  mk_out (aw_valid o) (aw_addr o) true d (b_ready o) (ar_valid o) (ar_addr o) (r_ready o).
Definition drive_b (o : axi_out) : axi_out :=
  mk_out (aw_valid o) (aw_addr o) (w_valid o) (w_data o) true (ar_valid o) (ar_addr o) (r_ready o).
Definition drive_ar (a : Z) (o : axi_out) : axi_out :=
  mk_out (aw_valid o) (aw_addr o) (w_valid o) (w_data o) (b_ready o) true a (r_ready o).
Definition drive_r (o : axi_out) : axi_out :=
  mk_out (aw_valid o) (aw_addr o) (w_valid o) (w_data o) (b_ready o) (ar_valid o) (ar_addr o) true.
(** The five [set(0)] at the start of a tick; addresses and data stay. *)
Definition quiet_out (o : axi_out) : axi_out :=
  mk_out false (aw_addr o) false (w_data o) false false (ar_addr o) false.

Record ctrl := mk_ctrl {
  out : axi_out;
  ongoing_cmd : command_transaction;
  ongoing_rsp : response_transaction;
  ongoing_update : update_state;
  check_freq_ctr : Z;
  bus_occupied : bool;
  time_last_command : Z;
  memory_transacted : Z;
  start_times : gmap (Z * Z) Z;
  kill_sig : bool;
  cmds_inflight : Z;
  cmds : list rocc_cmd;
  registered : list (list Z)
}.

Definition check_freq : Z := 50.

Definition with_out (o : axi_out) (s : ctrl) : ctrl :=
  mk_ctrl o (ongoing_cmd s) (ongoing_rsp s) (ongoing_update s) (check_freq_ctr s)
    (bus_occupied s) (time_last_command s) (memory_transacted s) (start_times s)
    (kill_sig s) (cmds_inflight s) (cmds s) (registered s).
Definition with_cmd (c : command_transaction) (s : ctrl) : ctrl :=
  mk_ctrl (out s) c (ongoing_rsp s) (ongoing_update s) (check_freq_ctr s)
    (bus_occupied s) (time_last_command s) (memory_transacted s) (start_times s)
    (kill_sig s) (cmds_inflight s) (cmds s) (registered s).
Definition with_rsp (r : response_transaction) (s : ctrl) : ctrl :=
  mk_ctrl (out s) (ongoing_cmd s) r (ongoing_update s) (check_freq_ctr s)
    (bus_occupied s) (time_last_command s) (memory_transacted s) (start_times s)
    (kill_sig s) (cmds_inflight s) (cmds s) (registered s).
Definition with_upd (u : update_state) (s : ctrl) : ctrl :=
  mk_ctrl (out s) (ongoing_cmd s) (ongoing_rsp s) u (check_freq_ctr s)
    (bus_occupied s) (time_last_command s) (memory_transacted s) (start_times s)
    (kill_sig s) (cmds_inflight s) (cmds s) (registered s).
Definition with_bus (b : bool) (s : ctrl) : ctrl :=
  mk_ctrl (out s) (ongoing_cmd s) (ongoing_rsp s) (ongoing_update s) (check_freq_ctr s)
    b (time_last_command s) (memory_transacted s) (start_times s)
    (kill_sig s) (cmds_inflight s) (cmds s) (registered s).
Definition with_ctr (n : Z) (s : ctrl) : ctrl :=
  mk_ctrl (out s) (ongoing_cmd s) (ongoing_rsp s) (ongoing_update s) n
    (bus_occupied s) (time_last_command s) (memory_transacted s) (start_times s)
    (kill_sig s) (cmds_inflight s) (cmds s) (registered s).

Definition goto_cmd (st : cmd_transfer_state) (s : ctrl) : ctrl :=
  let c := ongoing_cmd s in
  with_cmd (mk_ct (cmdbuf c) (cmd_progress c) st (ready_for_command c)) s.
Definition goto_rsp (st : resp_transfer_state) (s : ctrl) : ctrl :=
  let r := ongoing_rsp s in with_rsp (mk_rt (resbuf r) (rsp_progress r) st) s.

(** A member array indexed in range, which both buffers are. *)
Definition buf_get (b : list Z) (i : Z) : Z := default 0 (zlookup b i).

Section controller.
Variable CMD_BITS CMD_VALID CMD_READY RESP_BITS RESP_VALID RESP_READY : Z.
Variable pack_cfg : beethoven_pack_info.
Variable num_ddr_channels : nat.

(** Taking a command from the queue: the [CMD_INACTIVE] case. *)
Definition start_command (now : Z) (s : ctrl) : outcome ctrl :=
  match cmds s with
  | [] => Done s
  | c :: rest =>
      ws ← pack false pack_cfg c 255;
      Done (mk_ctrl (out s)
              (mk_ct ws 0 CMD_BITS_WRITE_ADDR (ready_for_command (ongoing_cmd s)))
              (ongoing_rsp s) (ongoing_update s) (check_freq_ctr s) true
              (time_last_command s) (memory_transacted s)
              (if negb (getXd c =? 0)
               then <[(getSystemId c, getCoreId c) := now]> (start_times s)
               else start_times s)
              (getOpcode c =? ROCC_OP_FLUSH)
              (if getXd c =? 1 then cmds_inflight s + 1 else cmds_inflight s)
              rest (registered s))
  end.

(** The end of a beat: [CMD_VALID_WRITE_B] once the response is in. *)
Definition finish_beat (now : Z) (s : ctrl) : ctrl :=
  let c := ongoing_cmd s in
  let p := cmd_progress c + 1 in
  if p =? cmd_payload_length then
    let stats := (0 <? num_ddr_channels)%nat in
    mk_ctrl (out s) (mk_ct (cmdbuf c) p CMD_INACTIVE (ready_for_command c))
      (ongoing_rsp s) (ongoing_update s) (check_freq_ctr s) false
      (if stats then now else time_last_command s)
      (if stats then 0 else memory_transacted s)
      (start_times s) (kill_sig s) (cmds_inflight s) (cmds s) (registered s)
  else with_cmd (mk_ct (cmdbuf c) p CMD_RECHECK_READY_ADDR (ready_for_command c)) s.

Definition is_idle (u : update_state) : bool :=
  match u with UPDATE_IDLE_CMD | UPDATE_IDLE_RESP => true | _ => false end.

Definition update_command_state (i : axi_in) (now : Z) (s : ctrl) : outcome ctrl :=
  let c := ongoing_cmd s in
  match cmd_state c with
  | CMD_BITS_WRITE_ADDR =>
      let s := with_cmd (mk_ct (cmdbuf c) (cmd_progress c) (cmd_state c) false) s in
      let s := with_out (drive_aw CMD_BITS (out s)) s in
      Done (if aw_ready i then goto_cmd CMD_BITS_WRITE_DAT s else s)
  | CMD_BITS_WRITE_DAT =>
      let s := with_out (drive_w (buf_get (cmdbuf c) (cmd_progress c)) (out s)) s in
      Done (if w_ready i then goto_cmd CMD_BITS_WRITE_B s else s)
  | CMD_BITS_WRITE_B =>
      let s := with_out (drive_b (out s)) s in
      Done (if b_valid i then goto_cmd CMD_VALID_ADDR s else s)
  | CMD_VALID_ADDR =>
      let s := with_out (drive_aw CMD_VALID (out s)) s in
      Done (if aw_ready i then goto_cmd CMD_VALID_DAT s else s)
  | CMD_VALID_DAT =>
      let s := with_out (drive_w 1 (out s)) s in
      Done (if w_ready i then goto_cmd CMD_VALID_WRITE_B s else s)
  | CMD_VALID_WRITE_B =>
      let s := with_out (drive_b (out s)) s in
      Done (if b_valid i then finish_beat now s else s)
  | CMD_RECHECK_READY_ADDR =>
      let s := with_out (drive_ar CMD_READY (out s)) s in
      Done (if ar_ready i then goto_cmd CMD_RECHECK_READY_DAT s else s)
  | CMD_RECHECK_READY_DAT =>
      let s := with_out (drive_r (out s)) s in
      Done (if r_valid i then
              goto_cmd (if negb (r_data i =? 0) then CMD_BITS_WRITE_ADDR
                        else CMD_RECHECK_READY_ADDR) s
            else s)
  | CMD_INACTIVE =>
      if (ready_for_command c && negb (bus_occupied s) && is_idle (ongoing_update s))%bool
      then start_command now s else Done s
  end.

(** Delivering a complete response. *)
Definition finish_response (s : ctrl) : ctrl :=
  let r := ongoing_rsp s in
  let resp := decode_response (buf_get (resbuf r) 0) (buf_get (resbuf r) 1)
                (buf_get (resbuf r) 2) pack_cfg in
  let id := (resp_system_id resp, resp_core_id resp) in
  mk_ctrl (out s) (ongoing_cmd s) (mk_rt (resbuf r) (rsp_progress r) RESPT_INACTIVE)
    (ongoing_update s) (check_freq_ctr s) false (time_last_command s) (memory_transacted s)
    (match start_times s !! id with Some _ => start_times s | None => <[id := 0]> (start_times s) end)
    (kill_sig s) (cmds_inflight s - 1) (cmds s) (registered s ++ [resbuf r]).

(** [RESPT_READY_WRITE_B], which [RESPT_READY_WRITE] falls through to. *)
Definition ready_write_b (i : axi_in) (s : ctrl) : ctrl :=
  let s := with_out (drive_b (out s)) s in
  if b_valid i then
    if rsp_progress (ongoing_rsp s) =? rsp_payload_length then finish_response s
    else goto_rsp RESPT_RECHECK_VALID_ADDR s
  else s.

Definition update_resp_state (i : axi_in) (s : ctrl) : ctrl :=
  let r := ongoing_rsp s in
  match rsp_state r with
  | RESPT_INACTIVE => s
  | RESPT_BITS_ADDR =>
      let s := with_out (drive_ar RESP_BITS (out s)) s in
      if ar_ready i then goto_rsp RESPT_BITS_READ s else s
  | RESPT_BITS_READ =>
      let s := with_out (drive_r (out s)) s in
      if r_valid i then
        with_rsp (mk_rt (zinsert (rsp_progress r) (r_data i) (resbuf r))
                    (u8 (rsp_progress r + 1)) RESPT_READY_ADDR) s
      else s
  | RESPT_READY_ADDR =>
      let s := with_out (drive_aw RESP_READY (out s)) s in
      if aw_ready i then goto_rsp RESPT_READY_WRITE s else s
  | RESPT_READY_WRITE =>
      let s := with_out (drive_w 1 (out s)) s in
      ready_write_b i (if w_ready i then goto_rsp RESPT_READY_WRITE_B s else s)
  | RESPT_READY_WRITE_B => ready_write_b i s
  | RESPT_RECHECK_VALID_ADDR =>
      let s := with_out (drive_ar RESP_VALID (out s)) s in
      if ar_ready i then goto_rsp RESPT_RECHECK_VALID_READ s else s
  | RESPT_RECHECK_VALID_READ =>
      let s := with_out (drive_r (out s)) s in
      if r_valid i then
        goto_rsp (if negb (r_data i =? 0) then RESPT_BITS_ADDR
                  else RESPT_RECHECK_VALID_ADDR) s
      else s
  end.

Definition update_update_state (i : axi_in) (s : ctrl) : ctrl :=
  match ongoing_update s with
  | UPDATE_IDLE_RESP =>
      if (negb (bus_occupied s) && (check_freq_ctr s >? check_freq))%bool
      then with_upd UPDATE_RESP_ADDR (with_bus true (with_ctr 0 s))
      else with_ctr (check_freq_ctr s + 1) s
  | UPDATE_RESP_ADDR =>
      let s := with_out (drive_ar RESP_VALID (out s)) s in
      if ar_ready i then with_upd UPDATE_RESP_WAIT s else s
  | UPDATE_RESP_WAIT =>
      let s := with_out (drive_r (out s)) s in
      if r_valid i then
        let s := with_rsp (mk_rt (resbuf (ongoing_rsp s)) 0 (rsp_state (ongoing_rsp s))) s in
        with_upd UPDATE_IDLE_CMD
          (if negb (r_data i =? 0) then goto_rsp RESPT_BITS_ADDR s else with_bus false s)
      else s
  | UPDATE_IDLE_CMD =>
      if (negb (bus_occupied s) && (check_freq_ctr s >? check_freq))%bool
      then with_upd UPDATE_CMD_ADDR (with_bus true (with_ctr 0 s))
      else with_ctr (check_freq_ctr s + 1) s
  | UPDATE_CMD_ADDR =>
      let s := with_out (drive_ar CMD_READY (out s)) s in
      if ar_ready i then with_upd UPDATE_CMD_WAIT s else s
  | UPDATE_CMD_WAIT =>
      let s := with_out (drive_r (out s)) s in
      let s :=
        if r_valid i then
          let c := ongoing_cmd s in
          with_upd (if 0 <? cmds_inflight s then UPDATE_IDLE_RESP else UPDATE_IDLE_CMD)
            (with_cmd (mk_ct (cmdbuf c) (cmd_progress c) (cmd_state c)
                         (negb (r_data i =? 0))) s)
        else s in
      with_bus false s
  end.

(** [tick]. *)
Definition tick (i : axi_in) (now : Z) (s : ctrl) : outcome ctrl :=
  s ← update_command_state i now (with_out (quiet_out (out s)) s);
  Done (update_update_state i (update_resp_state i s)).

(** The controller as constructed, with the queue the server has filled. *)
Definition ctrl_init (cs : list rocc_cmd) : ctrl :=
  mk_ctrl (mk_out false 0 false 0 false false 0 false)
    (mk_ct [0; 0; 0; 0; 0] 0 CMD_INACTIVE false) (mk_rt [0; 0; 0] 0 RESPT_INACTIVE)
    UPDATE_IDLE_CMD 0 false 0 0 ∅ false 0 cs [].

(** ** The other side of the bus

    An AXI-Lite slave sees a write when the data handshake of an address it
    accepted takes place, and a read likewise. *)

Record slave := mk_slave {
  waddr : Z;
  writes : list (Z * Z);
  raddr : Z;
  reads : list (Z * Z)
}.

Definition slave_step (i : axi_in) (o : axi_out) (sl : slave) : slave :=
  let wa := if (aw_valid o && aw_ready i)%bool then aw_addr o else waddr sl in
  let ra := if (ar_valid o && ar_ready i)%bool then ar_addr o else raddr sl in
  mk_slave wa
    (if (w_valid o && w_ready i)%bool then writes sl ++ [(wa, w_data o)] else writes sl) ra
    (if (r_ready o && r_valid i)%bool then reads sl ++ [(ra, r_data i)] else reads sl).

(** Controller and slave over a sequence of clock edges. *)
Fixpoint run (is_ : list axi_in) (now : Z) (s : ctrl) (sl : slave) : outcome (ctrl * slave) :=
  match is_ with
  | [] => Done (s, sl)
  | i :: is' =>
      s' ← tick i now s;
      run is' (now + 1) s' (slave_step i (out s') sl)
  end.

Definition slave_init : slave := mk_slave 0 [] 0 [].

(** ** What the bus must carry *)

(** The register writes that transfer words: each word, then the strobe. *)
Definition beats (ws : list Z) : list (Z * Z) := ws ≫= fun w => [(CMD_BITS, w); (CMD_VALID, 1)].
Definition words (c : rocc_cmd) : list Z := pack_words c (rd c).
Definition cmd_writes (sl : slave) : list (Z * Z) :=
  filter (fun w => w.1 = CMD_BITS \/ w.1 = CMD_VALID) (writes sl).
Definition resp_reads (sl : slave) : list Z :=
  snd <$> filter (fun r => r.1 = RESP_BITS) (reads sl).

Definition cmd_active (s : ctrl) : bool :=
  match cmd_state (ongoing_cmd s) with CMD_INACTIVE => false | _ => true end.
Definition rsp_active (s : ctrl) : bool :=
  match rsp_state (ongoing_rsp s) with RESPT_INACTIVE => false | _ => true end.
Definition upd_active (s : ctrl) : bool := negb (is_idle (ongoing_update s)).

(** Which of the three machines has the bus. *)
Inductive phase (s : ctrl) : Prop :=
| ph_idle :
    cmd_active s = false -> rsp_active s = false -> upd_active s = false ->
    bus_occupied s = false -> phase s
| ph_cmd :
    cmd_active s = true -> rsp_active s = false -> upd_active s = false ->
    bus_occupied s = true -> phase s
| ph_rsp :
    cmd_active s = false -> rsp_active s = true -> upd_active s = false ->
    bus_occupied s = true -> phase s
| ph_upd :
    cmd_active s = false -> rsp_active s = false -> upd_active s = true ->
    bus_occupied s = true \/ ongoing_update s = UPDATE_CMD_WAIT -> phase s.

(** The part of a transfer that is on the bus already. *)
Definition cmd_part (c : command_transaction) : list (Z * Z) :=
  let p := Z.to_nat (cmd_progress c) in
  match cmd_state c with
  | CMD_INACTIVE => []
  | CMD_BITS_WRITE_ADDR | CMD_BITS_WRITE_DAT
  | CMD_RECHECK_READY_ADDR | CMD_RECHECK_READY_DAT => beats (take p (cmdbuf c))
  | CMD_BITS_WRITE_B | CMD_VALID_ADDR | CMD_VALID_DAT =>
      beats (take p (cmdbuf c)) ++ [(CMD_BITS, buf_get (cmdbuf c) (cmd_progress c))]
  | CMD_VALID_WRITE_B => beats (take (S p) (cmdbuf c))
  end.
Definition rsp_part (r : response_transaction) : list Z :=
  match rsp_state r with
  | RESPT_INACTIVE => []
  | _ => take (Z.to_nat (rsp_progress r)) (resbuf r)
  end.

Definition cmd_range (c : command_transaction) : Prop :=
  match cmd_state c with
  | CMD_INACTIVE => True
  | _ => 0 <= cmd_progress c < 5
  end.
Definition rsp_range (r : response_transaction) : Prop :=
  match rsp_state r with
  | RESPT_INACTIVE => True
  | RESPT_BITS_ADDR | RESPT_BITS_READ => 0 <= rsp_progress r < 3
  | RESPT_READY_ADDR | RESPT_READY_WRITE | RESPT_READY_WRITE_B => 1 <= rsp_progress r <= 3
  | RESPT_RECHECK_VALID_ADDR | RESPT_RECHECK_VALID_READ => 1 <= rsp_progress r < 3
  end.

Definition addr_ok (s : ctrl) (sl : slave) : Prop :=
  match cmd_state (ongoing_cmd s) with
  | CMD_BITS_WRITE_DAT => waddr sl = CMD_BITS
  | CMD_VALID_DAT => waddr sl = CMD_VALID
  | CMD_RECHECK_READY_DAT => raddr sl = CMD_READY
  | _ => True
  end /\
  match rsp_state (ongoing_rsp s) with
  | RESPT_READY_WRITE => waddr sl = RESP_READY
  | RESPT_BITS_READ => raddr sl = RESP_BITS
  | RESPT_RECHECK_VALID_READ => raddr sl = RESP_VALID
  | _ => True
  end /\
  match ongoing_update s with
  | UPDATE_CMD_WAIT => raddr sl = CMD_READY
  | UPDATE_RESP_WAIT => raddr sl = RESP_VALID
  | _ => True
  end.

(** The commands of [cs] taken so far and what they put on the bus. *)
Definition cmd_ok (cs : list rocc_cmd) (s : ctrl) (sl : slave) : Prop :=
  exists dn cur, cs = dn ++ cur ++ cmds s /\
    cmd_writes sl = (dn ≫= fun c => beats (words c)) ++ cmd_part (ongoing_cmd s) /\
    (if cmd_active s then exists c, cur = [c] /\ cmdbuf (ongoing_cmd s) = words c
     else cur = []).

Definition rsp_ok (s : ctrl) (sl : slave) : Prop :=
  resp_reads sl = mjoin (registered s) ++ rsp_part (ongoing_rsp s) /\
  Forall (fun r => length r = 3%nat) (registered s).

Record axi_inv (cs : list rocc_cmd) (s : ctrl) (sl : slave) : Prop := {
  a_phase : phase s;
  a_rbuf : length (resbuf (ongoing_rsp s)) = 3%nat;
  a_cmd_range : cmd_range (ongoing_cmd s);
  a_rsp_range : rsp_range (ongoing_rsp s);
  a_addr : addr_ok s sl;
  a_cmd : cmd_ok cs s sl;
  a_rsp : rsp_ok s sl
}.

End controller.

#[global] Arguments pack : simpl never.
#[global] Arguments words : simpl never.
#[global] Arguments beats : simpl never.

(** ** Lemmas on the bus *)

Section invariant.
Variable CMD_BITS CMD_VALID CMD_READY RESP_BITS RESP_VALID RESP_READY : Z.
Variable pack_cfg : beethoven_pack_info.
Variable num_ddr_channels : nat.
Hypothesis Haddr :
  NoDup [CMD_BITS; CMD_VALID; CMD_READY; RESP_BITS; RESP_VALID; RESP_READY].

Abbreviation tick' := (tick CMD_BITS CMD_VALID CMD_READY RESP_BITS RESP_VALID RESP_READY
  pack_cfg num_ddr_channels).
Abbreviation inv' := (axi_inv CMD_BITS CMD_VALID CMD_READY RESP_BITS RESP_VALID RESP_READY).

Lemma addrs_distinct :
  RESP_READY <> CMD_BITS /\ RESP_READY <> CMD_VALID /\ CMD_VALID <> CMD_BITS /\
  CMD_READY <> RESP_BITS /\ RESP_VALID <> RESP_BITS.
Proof using Haddr.
  repeat (apply NoDup_cons in Haddr as [? Haddr]).
  rewrite !not_elem_of_cons in *. destruct_and!. split_and!; congruence.
Qed.

Lemma cmd_writes_app i o sl :
  cmd_writes CMD_BITS CMD_VALID (slave_step i o sl) =
  cmd_writes CMD_BITS CMD_VALID sl ++
  (if (w_valid o && w_ready i)%bool
   then filter (fun w => w.1 = CMD_BITS \/ w.1 = CMD_VALID)
          [(waddr (slave_step i o sl), w_data o)] else []).
Proof.
  unfold cmd_writes, slave_step; simpl. destruct (w_valid o && w_ready i)%bool;
    [apply filter_app|by rewrite app_nil_r].
Qed.

Lemma resp_reads_app i o sl :
  resp_reads RESP_BITS (slave_step i o sl) =
  resp_reads RESP_BITS sl ++
  (if (r_ready o && r_valid i && bool_decide (raddr (slave_step i o sl) = RESP_BITS))%bool
   then [r_data i] else []).
Proof.
  unfold resp_reads, slave_step; simpl. destruct (r_ready o && r_valid i)%bool; simpl;
    [|by rewrite app_nil_r].
  rewrite filter_app, fmap_app. f_equal. case_bool_decide.
  - rewrite filter_cons_True by done. by rewrite filter_nil.
  - rewrite filter_cons_False by done. by rewrite filter_nil.
Qed.

Lemma take_buf_S (l : list Z) p : 0 <= p < Z.of_nat (length l) ->
  take (S (Z.to_nat p)) l = take (Z.to_nat p) l ++ [buf_get l p].
Proof.
  intros Hp. unfold buf_get. destruct (zlookup_in_range l p Hp) as [x Hx]. rewrite Hx.
  simpl. apply take_S_r. unfold zlookup in Hx. by rewrite decide_True in Hx by lia.
Qed.

Lemma beats_take_S (l : list Z) p : 0 <= p < Z.of_nat (length l) ->
  beats CMD_BITS CMD_VALID (take (S (Z.to_nat p)) l) =
  beats CMD_BITS CMD_VALID (take (Z.to_nat p) l) ++ [(CMD_BITS, buf_get l p); (CMD_VALID, 1)].
Proof. intros Hp. unfold beats. by rewrite take_buf_S, bind_app by done. Qed.

(** A machine that is off the bus before and after keeps its account. *)
Lemma cmd_ok_frame cs s s' sl sl' :
  cmd_ok CMD_BITS CMD_VALID cs s sl -> cmds s' = cmds s ->
  cmd_active s = false -> cmd_active s' = false ->
  cmd_writes CMD_BITS CMD_VALID sl' = cmd_writes CMD_BITS CMD_VALID sl ->
  cmd_ok CMD_BITS CMD_VALID cs s' sl'.
Proof.
  intros (dn & cur & Hcs & Hw & Hcur) Eq Ha Ha' Ew. exists dn, cur.
  rewrite Ha in Hcur. rewrite Ha', Eq, Ew, Hw. split_and!; try done. f_equal.
  unfold cmd_active in *. unfold cmd_part. by destruct (cmd_state (ongoing_cmd s)),
    (cmd_state (ongoing_cmd s')).
Qed.

Lemma rsp_ok_frame s s' sl sl' :
  rsp_ok RESP_BITS s sl -> registered s' = registered s ->
  rsp_active s = false -> rsp_part (ongoing_rsp s') = [] ->
  resp_reads RESP_BITS sl' = resp_reads RESP_BITS sl -> rsp_ok RESP_BITS s' sl'.
Proof.
  intros [Hr Hl] Eq Ha Ha' Er. split; [|by rewrite Eq]. rewrite Eq, Er, Hr, Ha'. f_equal.
  unfold rsp_active in *. unfold rsp_part. by destruct (rsp_state (ongoing_rsp s)).
Qed.

(** Computing one tick from a known state. *)
Ltac open_ctrl s :=
  destruct s as [o [buf p cst rdy] [rbuf rp rst] u ctr bus tl mt stt ks inf q reg];
  unfold cmd_active, rsp_active, upd_active in *; simpl in *.

Ltac nowrites :=
  rewrite cmd_writes_app; simpl; rewrite ?andb_false_r, ?andb_false_l, ?app_nil_r; try done.
Ltac noreads :=
  rewrite resp_reads_app; simpl; rewrite ?andb_false_r, ?andb_false_l, ?app_nil_r; try done.

Lemma resp_inactive i s : rsp_active s = false ->
  update_resp_state RESP_BITS RESP_VALID RESP_READY pack_cfg i s = s.
Proof. unfold rsp_active, update_resp_state. by destruct (rsp_state (ongoing_rsp s)). Qed.

Lemma cmd_inactive i now s :
  cmd_active s = false -> bus_occupied s = true \/ upd_active s = true ->
  update_command_state CMD_BITS CMD_VALID CMD_READY pack_cfg num_ddr_channels i now s = Done s.
Proof.
  unfold cmd_active, upd_active, update_command_state.
  destruct (cmd_state (ongoing_cmd s)); try done. intros _ [->|Hu].
  - by rewrite andb_false_r.
  - apply negb_true_iff in Hu. by rewrite Hu, andb_false_r.
Qed.

(** An idle poller either counts or takes a free bus. *)
Lemma inv_upd_idle cs i s sl : inv' cs s sl -> is_idle (ongoing_update s) = true ->
  inv' cs (update_update_state CMD_READY RESP_VALID i s) sl.
Proof.
  intros [Hp Hrb Hcr Hrr Had Hc Hr] Hu. unfold update_update_state.
  assert (Hctr : forall n, inv' cs (with_ctr n s) sl).
  { intros n. split; try done. by destruct Hp; [apply ph_idle|apply ph_cmd|apply ph_rsp|apply ph_upd]. }
  assert (Hgo : forall u, bus_occupied s = false -> (u = UPDATE_RESP_ADDR \/ u = UPDATE_CMD_ADDR) ->
    inv' cs (with_upd u (with_bus true (with_ctr 0 s))) sl).
  { intros u Hb Hu'. destruct Hp; try congruence.
    2:{ unfold upd_active in *. by rewrite Hu in *. }
    split; try done.
    - apply ph_upd; try done; [by destruct Hu' as [->| ->]|by left].
    - destruct Had as (? & ? & _). split_and!; try done. by destruct Hu' as [->| ->]. }
  destruct (ongoing_update s) eqn:Eu; try done;
    destruct (negb (bus_occupied s) && _)%bool eqn:Eb; try apply Hctr;
    apply andb_true_iff in Eb as [Eb _]; apply negb_true_iff in Eb; apply Hgo; auto.
Qed.

Definition cmd_addr_ok (c : command_transaction) (sl : slave) : Prop :=
  match cmd_state c with
  | CMD_BITS_WRITE_DAT => waddr sl = CMD_BITS
  | CMD_VALID_DAT => waddr sl = CMD_VALID
  | CMD_RECHECK_READY_DAT => raddr sl = CMD_READY
  | _ => True
  end.

(** The invariant after a step of the command machine, from what that machine
    did; the other two are at rest. *)
Lemma cmd_build cs s s' sl sl' dn c :
  rsp_active s = false -> is_idle (ongoing_update s) = true ->
  length (resbuf (ongoing_rsp s)) = 3%nat -> rsp_ok RESP_BITS s sl ->
  cs = dn ++ [c] ++ cmds s ->
  ongoing_rsp s' = ongoing_rsp s -> ongoing_update s' = ongoing_update s ->
  cmds s' = cmds s -> registered s' = registered s -> bus_occupied s' = true ->
  cmd_active s' = true -> cmd_range (ongoing_cmd s') ->
  cmdbuf (ongoing_cmd s') = words c -> cmd_addr_ok (ongoing_cmd s') sl' ->
  cmd_writes CMD_BITS CMD_VALID sl' =
    (dn ≫= fun c => beats CMD_BITS CMD_VALID (words c)) ++
    cmd_part CMD_BITS CMD_VALID (ongoing_cmd s') ->
  resp_reads RESP_BITS sl' = resp_reads RESP_BITS sl ->
  inv' cs s' sl' /\ rsp_active s' = false /\ is_idle (ongoing_update s') = true.
Proof.
  intros Hra Hu Hrb Hr Hcs Er Eu Eq Eg Eb Ha Hrange Hbuf Had Hw Hrd.
  assert (Hra' : rsp_active s' = false) by (unfold rsp_active in *; by rewrite Er).
  rewrite Eu. split; [|done].
  assert (Hpart : rsp_part (ongoing_rsp s') = []).
  { rewrite Er. unfold rsp_active in Hra. unfold rsp_part. by destruct (rsp_state _). }
  split.
  - apply ph_cmd; try done. unfold upd_active. by rewrite Eu, Hu.
  - by rewrite Er.
  - done.
  - rewrite Er. unfold rsp_active in Hra. unfold rsp_range. by destruct (rsp_state _).
  - split; [done|]. rewrite Er, Eu. unfold rsp_active in Hra.
    split; [by destruct (rsp_state _)|by destruct (ongoing_update s)].
  - exists dn, [c]. rewrite Eq, Ha. eauto.
  - by eapply rsp_ok_frame.
Qed.

Ltac cfin := unfold cmd_active, cmd_range, cmd_addr_ok, cmd_part; simpl;
  repeat match goal with
  | H : cmd_state (ongoing_cmd _) = _ |- _ => rewrite H
  end; simpl;
  repeat match goal with
  | H : aw_ready _ = _ |- _ => rewrite H
  | H : ar_ready _ = _ |- _ => rewrite H
  end; try done.

Lemma cmd_defined i now s : cmd_active s = true ->
  exists s', update_command_state CMD_BITS CMD_VALID CMD_READY pack_cfg num_ddr_channels i now
    (with_out (quiet_out (out s)) s) = Done s'.
Proof.
  unfold cmd_active, update_command_state. simpl.
  destruct (cmd_state (ongoing_cmd s)); try done; eauto.
Qed.

(** One transition of the command machine. *)
Lemma cmd_step cs i now s sl s' :
  inv' cs s sl -> cmd_active s = true ->
  update_command_state CMD_BITS CMD_VALID CMD_READY pack_cfg num_ddr_channels i now
    (with_out (quiet_out (out s)) s) = Done s' ->
  inv' cs s' (slave_step i (out s') sl) /\ rsp_active s' = false /\
  is_idle (ongoing_update s') = true.
Proof using Haddr.
  intros [Hp Hrb Hcr Hrr (Had & _) Hc Hr] Ha Ht.
  destruct Hp as [?|_ Hra Hua Hbus|?|?]; try congruence.
  destruct addrs_distinct as (Hd1 & Hd2 & Hd3 & Hd4 & Hd5).
  destruct Hc as (dn & cur & Hcs & Hw & Hcur). rewrite Ha in Hcur.
  destruct Hcur as (c & -> & Hbuf).
  assert (Hlen : length (cmdbuf (ongoing_cmd s)) = 5%nat) by (by rewrite Hbuf).
  assert (Hu : is_idle (ongoing_update s) = true)
    by (unfold upd_active in Hua; by apply negb_false_iff in Hua).
  assert (Hs' : cmd_active s' = true -> cmd_range (ongoing_cmd s') ->
    ongoing_rsp s' = ongoing_rsp s /\ ongoing_update s' = ongoing_update s /\
    cmds s' = cmds s /\ registered s' = registered s /\ bus_occupied s' = true /\
    cmdbuf (ongoing_cmd s') = cmdbuf (ongoing_cmd s) ->
    cmd_addr_ok (ongoing_cmd s') (slave_step i (out s') sl) ->
    cmd_writes CMD_BITS CMD_VALID (slave_step i (out s') sl) =
      (dn ≫= fun c => beats CMD_BITS CMD_VALID (words c)) ++
      cmd_part CMD_BITS CMD_VALID (ongoing_cmd s') ->
    resp_reads RESP_BITS (slave_step i (out s') sl) = resp_reads RESP_BITS sl ->
    inv' cs s' (slave_step i (out s') sl) /\ rsp_active s' = false /\
    is_idle (ongoing_update s') = true).
  { intros ? ? (? & ? & ? & ? & ? & ?) ? ? ?. eapply cmd_build; eauto. congruence. }
  unfold update_command_state in Ht. unfold cmd_active in Ha. unfold cmd_range in Hcr.
  unfold cmd_part in Hw. simpl in Ht.
  assert (Hwx : forall a, w_valid (out s') = false ->
    cmd_writes CMD_BITS CMD_VALID sl = a -> cmd_writes CMD_BITS CMD_VALID (slave_step i (out s') sl) = a).
  { intros a Hv <-. by rewrite cmd_writes_app, Hv, app_nil_r. }
  assert (Hrx : r_ready (out s') = false ->
    resp_reads RESP_BITS (slave_step i (out s') sl) = resp_reads RESP_BITS sl).
  { intros Hv. by rewrite resp_reads_app, Hv, app_nil_r. }
  destruct (cmd_state (ongoing_cmd s)) eqn:Est; try done; injection Ht as <-.
  - destruct (aw_ready i) eqn:Ei; apply Hs'; cfin; try (by apply Hwx); try (by apply Hrx).
  - destruct (w_ready i) eqn:Ei; apply Hs'; cfin; try (by apply Hrx).
    + rewrite cmd_writes_app. simpl. rewrite Ei, Had, filter_cons_True by (by left).
      by rewrite filter_nil, Hw, <- app_assoc.
    + rewrite cmd_writes_app. simpl. by rewrite Ei, app_nil_r.
  - destruct (b_valid i) eqn:Ei; apply Hs'; cfin; try (by apply Hwx); try (by apply Hrx).
  - destruct (aw_ready i) eqn:Ei; apply Hs'; cfin; try (by apply Hwx); try (by apply Hrx).
  - destruct (w_ready i) eqn:Ei; apply Hs'; cfin; try (by apply Hrx).
    + rewrite cmd_writes_app. simpl. rewrite Ei, Had, filter_cons_True by (by right).
      rewrite filter_nil, Hw, beats_take_S by lia. by rewrite <- !app_assoc.
    + rewrite cmd_writes_app. simpl. by rewrite Ei, app_nil_r.
  - destruct (b_valid i) eqn:Ei; [|apply Hs'; cfin; try (by apply Hwx); try (by apply Hrx)].
    unfold finish_beat in *. simpl in *. unfold cmd_payload_length in *.
    destruct (cmd_progress (ongoing_cmd s) + 1 =? 5) eqn:Ep; zb.
    + assert (Hp : Z.to_nat (cmd_progress (ongoing_cmd s)) = 4%nat) by lia.
      rewrite Hp, Hbuf in Hw. rewrite take_ge in Hw by done.
      split_and!; try done. split; simpl; try done.
      * by apply ph_idle; try done; apply negb_false_iff.
      * split; [done|]. simpl. unfold rsp_active in Hra.
        split; [by destruct (rsp_state _)|by destruct (ongoing_update s)].
      * exists (dn ++ [c]), []. split_and!; [by rewrite <- app_assoc| |done].
        rewrite bind_app. simpl. rewrite !app_nil_r. by apply Hwx.
    + apply Hs'; cfin; [lia|]. apply Hwx; [done|].
      by replace (Z.to_nat (cmd_progress (ongoing_cmd s) + 1))
        with (S (Z.to_nat (cmd_progress (ongoing_cmd s)))) by lia.
  - destruct (ar_ready i) eqn:Ei; apply Hs'; cfin; try (by apply Hwx); try (by apply Hrx).
  - destruct (r_valid i) eqn:Ei; [destruct (negb (r_data i =? 0)) eqn:Ed|]; apply Hs'; cfin;
      try (by apply Hwx); rewrite resp_reads_app; simpl; rewrite Had, bool_decide_false by done;
      by rewrite andb_false_r, app_nil_r.
Qed.

Definition rsp_addr_ok (r : response_transaction) (sl : slave) : Prop :=
  match rsp_state r with
  | RESPT_READY_WRITE => waddr sl = RESP_READY
  | RESPT_BITS_READ => raddr sl = RESP_BITS
  | RESPT_RECHECK_VALID_READ => raddr sl = RESP_VALID
  | _ => True
  end.

(** The invariant after a step of the response machine. *)
Lemma rsp_build cs s s' sl sl' :
  cmd_active s = false -> is_idle (ongoing_update s) = true ->
  cmd_ok CMD_BITS CMD_VALID cs s sl ->
  ongoing_cmd s' = ongoing_cmd s -> ongoing_update s' = ongoing_update s -> cmds s' = cmds s ->
  bus_occupied s' = rsp_active s' ->
  rsp_range (ongoing_rsp s') -> length (resbuf (ongoing_rsp s')) = 3%nat ->
  rsp_addr_ok (ongoing_rsp s') sl' ->
  cmd_writes CMD_BITS CMD_VALID sl' = cmd_writes CMD_BITS CMD_VALID sl ->
  rsp_ok RESP_BITS s' sl' ->
  inv' cs s' sl' /\ is_idle (ongoing_update s') = true.
Proof.
  intros Ha Hu Hc Ec Eu Eq Eb Hrange Hlen Had Hw Hr.
  assert (Ha' : cmd_active s' = false) by (unfold cmd_active in *; by rewrite Ec).
  assert (Hua : upd_active s' = false) by (unfold upd_active; by rewrite Eu, Hu).
  rewrite Eu. split; [|done]. split; try done.
  - destruct (rsp_active s') eqn:E; [by apply ph_rsp|by apply ph_idle].
  - rewrite Ec. unfold cmd_active in Ha. unfold cmd_range. by destruct (cmd_state _).
  - unfold cmd_active in Ha. unfold addr_ok. rewrite Ec, Eu.
    split_and!; [by destruct (cmd_state _)|done|by destruct (ongoing_update s)].
  - by eapply cmd_ok_frame.
Qed.

Lemma take_insert_S (l : list Z) p x : 0 <= p < Z.of_nat (length l) ->
  take (Z.to_nat (p + 1)) (zinsert p x l) = take (Z.to_nat p) l ++ [x].
Proof.
  intros Hp. replace (Z.to_nat (p + 1)) with (S (Z.to_nat p)) by lia.
  unfold zinsert. rewrite decide_True by lia.
  rewrite (take_S_r _ _ x) by (apply list_lookup_insert_eq; lia). f_equal.
  by rewrite take_insert_ge.
Qed.

Ltac rfin := unfold rsp_active, rsp_range, rsp_addr_ok, rsp_ok, rsp_part; simpl;
  repeat match goal with
  | H : rsp_state (ongoing_rsp _) = _ |- _ => rewrite H
  end; simpl;
  repeat match goal with
  | H : aw_ready _ = _ |- _ => rewrite H
  | H : ar_ready _ = _ |- _ => rewrite H
  end; try done; try lia.

(** The three words of a finished response join the registered ones. *)
Lemma registered_finish (regs : list (list Z)) (buf a : list Z) p :
  length buf = 3%nat -> p = 3 -> Forall (fun r => length r = 3%nat) regs ->
  a = mjoin regs ++ take (Z.to_nat p) buf ->
  a = mjoin (regs ++ [buf]) ++ [] /\ Forall (fun r => length r = 3%nat) (regs ++ [buf]).
Proof.
  intros Hl -> Hall ->. rewrite take_ge by (simpl; lia). rewrite join_app, !app_nil_r. simpl.
  rewrite app_nil_r. split; [done|]. apply Forall_app. auto.
Qed.

(** One transition of the response machine. *)
Lemma rsp_step cs i s sl :
  inv' cs s sl -> rsp_active s = true ->
  let s' := update_resp_state RESP_BITS RESP_VALID RESP_READY pack_cfg i
              (with_out (quiet_out (out s)) s) in
  inv' cs s' (slave_step i (out s') sl) /\ is_idle (ongoing_update s') = true.
Proof using Haddr.
  intros [Hp Hrb Hcr Hrr (_ & Had & _) Hc [Hr Hreg]] Ha s'.
  destruct Hp as [?|?|Hca _ Hua Hbus|?]; try congruence.
  destruct addrs_distinct as (Hd1 & Hd2 & Hd3 & Hd4 & Hd5).
  assert (Hu : is_idle (ongoing_update s) = true)
    by (unfold upd_active in Hua; by apply negb_false_iff in Hua).
  assert (Hs' : bus_occupied s' = rsp_active s' ->
    ongoing_cmd s' = ongoing_cmd s /\ ongoing_update s' = ongoing_update s /\
    cmds s' = cmds s /\ length (resbuf (ongoing_rsp s')) = 3%nat ->
    rsp_range (ongoing_rsp s') -> rsp_addr_ok (ongoing_rsp s') (slave_step i (out s') sl) ->
    cmd_writes CMD_BITS CMD_VALID (slave_step i (out s') sl) = cmd_writes CMD_BITS CMD_VALID sl ->
    rsp_ok RESP_BITS s' (slave_step i (out s') sl) ->
    inv' cs s' (slave_step i (out s') sl) /\ is_idle (ongoing_update s') = true).
  { intros ? (? & ? & ? & ?) ? ? ? ?. by eapply rsp_build. }
  assert (Hwx : w_valid (out s') = false ->
    cmd_writes CMD_BITS CMD_VALID (slave_step i (out s') sl) = cmd_writes CMD_BITS CMD_VALID sl).
  { intros Hv. by rewrite cmd_writes_app, Hv, app_nil_r. }
  assert (Hrx : forall a, r_ready (out s') = false -> resp_reads RESP_BITS sl = a ->
    resp_reads RESP_BITS (slave_step i (out s') sl) = a).
  { intros a Hv <-. by rewrite resp_reads_app, Hv, app_nil_r. }
  subst s'. unfold update_resp_state in *. unfold rsp_active in Ha. unfold rsp_range in Hrr.
  unfold rsp_part in Hr. simpl in *.
  destruct (rsp_state (ongoing_rsp s)) eqn:Est; try done.
  - destruct (ar_ready i) eqn:Ei; apply Hs'; rfin; try (by apply Hwx);
      split; try done; by apply Hrx.
  - destruct (r_valid i) eqn:Ei; apply Hs'; rfin; try (by apply Hwx).
    + by rewrite length_zinsert.
    + rewrite u8_small by lia. lia.
    + split; [|done]. rewrite resp_reads_app. simpl. rewrite Ei, Had, bool_decide_true by done.
      rewrite u8_small, take_insert_S by lia. by rewrite Hr, <- app_assoc.
    + split; [|done]. rewrite resp_reads_app. simpl. by rewrite Ei, app_nil_r.
  - destruct (aw_ready i) eqn:Ei; apply Hs'; rfin; try (by apply Hwx);
      split; try done; by apply Hrx.
  - assert (Hwx' : forall o, w_valid o = true -> aw_valid o = false ->
      cmd_writes CMD_BITS CMD_VALID (slave_step i o sl) = cmd_writes CMD_BITS CMD_VALID sl).
    { intros o Hv Hv'. rewrite cmd_writes_app, Hv. simpl. rewrite Hv', Had.
      destruct (w_ready i); [|by rewrite app_nil_r].
      rewrite filter_cons_False by (simpl; intros [?|?]; congruence). by rewrite app_nil_r. }
    clear Hwx. unfold ready_write_b in *. destruct (w_ready i), (b_valid i) eqn:Eb; simpl in *;
      rfin; try (by apply Hs'; rfin; first [by apply Hwx' | split; [by apply Hrx|done]]);
      destruct (rsp_progress (ongoing_rsp s) =? rsp_payload_length) eqn:Ep;
      unfold rsp_payload_length in Ep; zb; apply Hs'; rfin; try (by apply Hwx');
      try (by eapply registered_finish; eauto; apply Hrx); (split; [by apply Hrx|done]).
  - unfold ready_write_b in *. destruct (b_valid i) eqn:Eb; simpl in *;
      rfin; try (by apply Hs'; rfin; first [by apply Hwx | split; [by apply Hrx|done]]);
      destruct (rsp_progress (ongoing_rsp s) =? rsp_payload_length) eqn:Ep;
      unfold rsp_payload_length in Ep; zb; apply Hs'; rfin; try (by apply Hwx);
      try (by eapply registered_finish; eauto; apply Hrx); (split; [by apply Hrx|done]).
  - destruct (ar_ready i) eqn:Ei; apply Hs'; rfin; try (by apply Hwx);
      split; try done; by apply Hrx.
  - destruct (r_valid i) eqn:Ei; [destruct (negb (r_data i =? 0)) eqn:Ed|]; apply Hs'; rfin;
      try (by apply Hwx); split; try done;
      rewrite resp_reads_app; simpl; rewrite Had, bool_decide_false by done;
      by rewrite andb_false_r, app_nil_r.
Qed.

Ltac ufin := unfold addr_ok, cmd_active, rsp_active, upd_active, rsp_range, rsp_part; simpl;
  repeat match goal with
  | H : cmd_state (ongoing_cmd _) = _ |- _ => rewrite H
  | H : rsp_state (ongoing_rsp _) = _ |- _ => rewrite H
  | H : ongoing_update _ = _ |- _ => rewrite H
  | H : ar_ready _ = _ |- _ => rewrite H
  end; try done; try lia.

(** One transition of the poller, when it is the one on the bus. *)
Lemma upd_step cs i s sl :
  inv' cs s sl -> upd_active s = true ->
  let s' := update_update_state CMD_READY RESP_VALID i (with_out (quiet_out (out s)) s) in
  inv' cs s' (slave_step i (out s') sl).
Proof using Haddr.
  intros [Hp Hrb Hcr Hrr (Hadc & Hadr & Had) Hc Hr] Ha s'.
  destruct Hp as [?|?|?|Hca Hra _ Hb]; try congruence.
  destruct addrs_distinct as (Hd1 & Hd2 & Hd3 & Hd4 & Hd5).
  assert (Hs' : (rsp_part (ongoing_rsp s') = [] /\ phase s' /\ cmd_active s' = false) ->
    cmds s' = cmds s /\ registered s' = registered s /\
    length (resbuf (ongoing_rsp s')) = 3%nat ->
    rsp_range (ongoing_rsp s') -> addr_ok CMD_BITS CMD_VALID CMD_READY RESP_BITS RESP_VALID
      RESP_READY s' (slave_step i (out s') sl) ->
    w_valid (out s') = false ->
    resp_reads RESP_BITS (slave_step i (out s') sl) = resp_reads RESP_BITS sl ->
    inv' cs s' (slave_step i (out s') sl)).
  { intros (Hpart & Hph & Hca') (Eq & Eg & Hl) Hrg Had' Hwv Hrd. split; try done.
    - unfold cmd_active in Hca'. unfold cmd_range.
      destruct (cmd_state (ongoing_cmd s')); done.
    - eapply cmd_ok_frame; eauto. by rewrite cmd_writes_app, Hwv, app_nil_r.
    - by eapply rsp_ok_frame. }
  assert (Hrx : r_ready (out s') = false \/ raddr (slave_step i (out s') sl) <> RESP_BITS ->
    resp_reads RESP_BITS (slave_step i (out s') sl) = resp_reads RESP_BITS sl).
  { rewrite resp_reads_app. intros [->|Hn]; [by rewrite app_nil_r|].
    rewrite bool_decide_false by done. by rewrite andb_false_r, app_nil_r. }
  assert (Hpt : rsp_part (ongoing_rsp s) = []).
  { unfold rsp_active in Hra. unfold rsp_part. by destruct (rsp_state _). }
  assert (Hcst : cmd_state (ongoing_cmd s) = CMD_INACTIVE)
    by (unfold cmd_active in Hca; by destruct (cmd_state _)).
  assert (Hrst : rsp_state (ongoing_rsp s) = RESPT_INACTIVE)
    by (unfold rsp_active in Hra; by destruct (rsp_state _)).
  subst s'. unfold update_update_state in *. unfold upd_active in Ha. simpl in *.
  destruct (ongoing_update s) eqn:Eu; try done.
  - destruct (ar_ready i) eqn:Ei; apply Hs'; try (by ufin); try (by apply Hrx; left);
      split_and!; ufin; apply ph_upd; ufin; destruct Hb; (done || auto).
  - destruct (r_valid i) eqn:Ei; apply Hs'; try (by ufin);
      try (by apply Hrx; right; simpl; rewrite Had);
      destruct (0 <? cmds_inflight s) eqn:El; try (split_and!; ufin).
    all: try (by apply ph_idle; ufin); try (by apply ph_upd; ufin; right); try (by ufin; rewrite El).
  - destruct (ar_ready i) eqn:Ei; apply Hs'; try (by ufin); try (by apply Hrx; left);
      split_and!; ufin; apply ph_upd; ufin; destruct Hb; (done || auto).
  - destruct Hb as [Hb|]; [|done].
    destruct (r_valid i) eqn:Ei; [destruct (negb (r_data i =? 0)) eqn:Ed|]; apply Hs'; try (by ufin);
      try (by apply Hrx; right; simpl; rewrite Had); split_and!; ufin.
    all: try (by apply ph_rsp; ufin); try (by apply ph_idle; ufin); try (by apply ph_upd; ufin; left).
Qed.

(** Nobody is on the bus: a command may be taken. *)
Lemma idle_step cs i now s sl :
  inv' cs s sl -> cmd_active s = false -> rsp_active s = false -> upd_active s = false ->
  Forall (fun c => pack_ok c = true) cs ->
  exists s', update_command_state CMD_BITS CMD_VALID CMD_READY pack_cfg num_ddr_channels i now
      (with_out (quiet_out (out s)) s) = Done s' /\
    inv' cs s' (slave_step i (out s') sl) /\ rsp_active s' = false /\
    is_idle (ongoing_update s') = true.
Proof.
  intros [Hp Hrb Hcr Hrr (_ & Hadr & Had) Hc Hr] Ha Hra Hua Hok.
  assert (Hu : is_idle (ongoing_update s) = true)
    by (unfold upd_active in Hua; by apply negb_false_iff in Hua).
  assert (Hrst : rsp_state (ongoing_rsp s) = RESPT_INACTIVE)
    by (unfold rsp_active in Hra; by destruct (rsp_state _)).
  assert (Hcst : cmd_state (ongoing_cmd s) = CMD_INACTIVE)
    by (unfold cmd_active in Ha; by destruct (cmd_state _)).
  assert (Hsame : let s' := with_out (quiet_out (out s)) s in
    inv' cs s' (slave_step i (out s') sl) /\ rsp_active s' = false /\
    is_idle (ongoing_update s') = true).
  { split_and!; try done. split; try done.
    - destruct Hp; [by apply ph_idle|congruence..].
    - unfold addr_ok; simpl. rewrite Hcst, Hrst. split_and!; try done; by destruct (ongoing_update s). }
  unfold update_command_state. simpl. rewrite Hcst.
  destruct (ready_for_command _ && _ && _)%bool eqn:Eg; [|eauto].
  unfold start_command. simpl. destruct (cmds s) as [|c rest] eqn:Eq; [eauto|].
  destruct Hc as (dn & cur & Hcs & Hw & Hcur). rewrite Ha in Hcur. subst cur.
  rewrite Eq in Hcs. simpl in Hcs.
  assert (Hc : pack_ok c = true).
  { rewrite Hcs in Hok. apply Forall_app in Hok as [_ Hok]. by inversion Hok. }
  rewrite pack_cases, Hc. simpl. eexists. split; [done|]. split_and!; try done.
  split; try done.
  - apply ph_cmd; try done.
  - exists dn, [c]. split_and!; try done.
    + rewrite cmd_writes_app; simpl. rewrite app_nil_r, Hw. f_equal.
      unfold cmd_part. by rewrite Hcst.
    + by exists c.
Qed.

(** One clock edge, whatever the hardware does. *)
Lemma tick_inv cs i now s sl :
  inv' cs s sl -> Forall (fun c => pack_ok c = true) cs ->
  exists s', tick' i now s = Done s' /\ inv' cs s' (slave_step i (out s') sl).
Proof using Haddr.
  intros Hi Hok. unfold tick.
  assert (Hupd : forall t, inv' cs t (slave_step i (out t) sl) ->
    is_idle (ongoing_update t) = true ->
    inv' cs (update_update_state CMD_READY RESP_VALID i t)
      (slave_step i (out (update_update_state CMD_READY RESP_VALID i t)) sl)).
  { intros t Ht Hu. assert (Eo : out (update_update_state CMD_READY RESP_VALID i t) = out t).
    { unfold update_update_state. destruct (ongoing_update t); try done; by case_match. }
    rewrite Eo. by apply inv_upd_idle. }
  destruct (a_phase _ _ _ _ _ _ _ _ _ Hi) as [Ha Hra Hua Hb|Ha Hra Hua Hb|Ha Hra Hua Hb|Ha Hra Hua Hb].
  - destruct (idle_step cs i now s sl Hi Ha Hra Hua Hok) as (s1 & -> & Hi1 & Hr1 & Hu1). simpl.
    eexists. split; [done|]. rewrite resp_inactive by done. by apply Hupd.
  - destruct (cmd_defined i now s Ha) as [s1 Hs1]. rewrite Hs1.
    destruct (cmd_step cs i now s sl s1 Hi Ha Hs1) as (Hi1 & Hr1 & Hu1). simpl.
    eexists. split; [done|]. rewrite resp_inactive by done. by apply Hupd.
  - rewrite cmd_inactive by auto. simpl. eexists. split; [done|].
    destruct (rsp_step cs i s sl Hi Hra) as [Hi1 Hu1]. by apply Hupd.
  - rewrite cmd_inactive by auto. simpl. eexists. split; [done|].
    rewrite resp_inactive by done. by apply upd_step.
Qed.

Lemma run_inv cs is_ now s sl :
  inv' cs s sl -> Forall (fun c => pack_ok c = true) cs ->
  exists s' sl', run CMD_BITS CMD_VALID CMD_READY RESP_BITS RESP_VALID RESP_READY pack_cfg
      num_ddr_channels is_ now s sl = Done (s', sl') /\ inv' cs s' sl'.
Proof using Haddr.
  revert now s sl. induction is_ as [|i is_ IH]; intros now s sl Hi Hok; simpl; [eauto|].
  destruct (tick_inv cs i now s sl Hi Hok) as (s1 & -> & Hi1). simpl. by apply IH.
Qed.

Lemma init_inv cs : inv' cs (ctrl_init cs) slave_init.
Proof.
  split; try done.
  - by apply ph_idle.
  - exists [], []. done.
Qed.

Lemma beats_app l k :
  beats CMD_BITS CMD_VALID (l ++ k) = beats CMD_BITS CMD_VALID l ++ beats CMD_BITS CMD_VALID k.
Proof. apply bind_app. Qed.

Lemma cmd_part_prefix c : cmd_range c -> length (cmdbuf c) = 5%nat ->
  cmd_part CMD_BITS CMD_VALID c `prefix_of` beats CMD_BITS CMD_VALID (cmdbuf c).
Proof.
  intros Hr Hl.
  assert (Ht : forall n, beats CMD_BITS CMD_VALID (take n (cmdbuf c))
                `prefix_of` beats CMD_BITS CMD_VALID (cmdbuf c)).
  { intros n. rewrite <- (take_drop n (cmdbuf c)) at 2. rewrite beats_app. by eexists. }
  unfold cmd_range, cmd_part in *. destruct (cmd_state c); try apply Ht; [apply prefix_nil| | |];
    (etransitivity; [|apply (Ht (S (Z.to_nat (cmd_progress c))))]);
    rewrite beats_take_S by lia; apply prefix_app; by eexists.
Qed.

(** What the bus carries is an initial part of what the queue asks for. *)
Lemma cmd_ok_prefix cs s sl :
  cmd_ok CMD_BITS CMD_VALID cs s sl -> cmd_range (ongoing_cmd s) ->
  cmd_writes CMD_BITS CMD_VALID sl `prefix_of`
    (cs ≫= fun c => beats CMD_BITS CMD_VALID (words c)).
Proof.
  intros (dn & cur & -> & -> & Hcur) Hr. rewrite !bind_app. apply prefix_app.
  destruct (cmd_active s) eqn:Ha.
  - destruct Hcur as (c & -> & Hbuf). apply prefix_app_r.
    change ([c] ≫= _) with (beats CMD_BITS CMD_VALID (words c) ++ []).
    rewrite app_nil_r, <- Hbuf. apply cmd_part_prefix; [done|]. by rewrite Hbuf.
  - unfold cmd_active in Ha. unfold cmd_part. destruct (cmd_state _); try done.
    apply prefix_nil.
Qed.

Lemma phase_exclusive s : phase s ->
  (Nat.b2n (cmd_active s) + Nat.b2n (rsp_active s) + Nat.b2n (upd_active s) <= 1)%nat /\
  ((cmd_active s || rsp_active s)%bool = true -> bus_occupied s = true).
Proof. intros [-> -> -> -> | -> -> -> -> | -> -> -> -> | -> -> -> _]; simpl; split; try done; lia. Qed.

End invariant.

(** ** A bus that answers at once *)

Definition ready_in : axi_in := mk_in true true true true true 1.

Section ready_hardware.
Variable CMD_BITS CMD_VALID CMD_READY RESP_BITS RESP_VALID RESP_READY : Z.
Variable pack_cfg : beethoven_pack_info.
Variable num_ddr_channels : nat.
Abbreviation run' := (run CMD_BITS CMD_VALID CMD_READY RESP_BITS RESP_VALID RESP_READY
  pack_cfg num_ddr_channels).

Lemma run_app is1 is2 now s sl :
  run' (is1 ++ is2) now s sl =
  '(s', sl') ← run' is1 now s sl; run' is2 (now + Z.of_nat (length is1)) s' sl'.
Proof.
  revert now s sl. induction is1 as [|i is1 IH]; intros now s sl.
  { simpl. by rewrite Z.add_0_r. }
  change (run' ((i :: is1) ++ is2) now s sl) with
    (s' ← tick CMD_BITS CMD_VALID CMD_READY RESP_BITS RESP_VALID RESP_READY pack_cfg
            num_ddr_channels i now s; run' (is1 ++ is2) (now + 1) s' (slave_step i (out s') sl)).
  change (run' (i :: is1) now s sl) with
    (s' ← tick CMD_BITS CMD_VALID CMD_READY RESP_BITS RESP_VALID RESP_READY pack_cfg
            num_ddr_channels i now s; run' is1 (now + 1) s' (slave_step i (out s') sl)).
  destruct (tick _ _ _ _ _ _ _ _ _ _ _) as [t| | | |]; try done.
  cbn [mbind outcome_bind]. rewrite IH.
  replace (now + 1 + Z.of_nat (length is1)) with (now + Z.of_nat (length (i :: is1)))
    by (simpl length; lia). done.
Qed.

(** The controller right after the first poll of the hardware. *)
Definition polled (c : rocc_cmd) : ctrl :=
  mk_ctrl (mk_out false 0 false 0 false false CMD_READY true)
    (mk_ct [0; 0; 0; 0; 0] 0 CMD_INACTIVE true) (mk_rt [0; 0; 0] 0 RESPT_INACTIVE)
    UPDATE_IDLE_CMD 0 false 0 0 ∅ false 0 [c] [].

Lemma run_poll c : run' (replicate 54 ready_in) 0 (ctrl_init [c]) slave_init =
  Done (polled c, mk_slave 0 [] CMD_READY [(CMD_READY, 1)]).
Proof. reflexivity. Qed.

(** The controller with a command of five words just taken. *)
Definition loaded (o : axi_out) (w0 w1 w2 w3 w4 : Z) (st : gmap (Z * Z) Z) (k : bool) (inf : Z)
    : ctrl :=
  mk_ctrl o (mk_ct [w0; w1; w2; w3; w4] 0 CMD_BITS_WRITE_ADDR true)
    (mk_rt [0; 0; 0] 0 RESPT_INACTIVE) UPDATE_IDLE_CMD 1 true 0 0 st k inf [] [].

Lemma run_transfer o w0 w1 w2 w3 w4 st k inf now sl :
  writes sl = [] ->
  exists s sl', run' (replicate 38 ready_in) now (loaded o w0 w1 w2 w3 w4 st k inf) sl
      = Done (s, sl') /\
    writes sl' = beats CMD_BITS CMD_VALID [w0; w1; w2; w3; w4] /\
    cmd_active s = false /\ bus_occupied s = false.
Proof.
  intros Hw. destruct sl as [wa w ra r]. cbn [writes] in Hw. subst w.
  eexists _, _. split; [vm_compute; reflexivity|]. done.
Qed.

Lemma run_command c : pack_ok c = true ->
  exists s sl, run' (replicate 93 ready_in) 0 (ctrl_init [c]) slave_init = Done (s, sl) /\
    writes sl = beats CMD_BITS CMD_VALID (words c) /\
    cmd_active s = false /\ bus_occupied s = false.
Proof.
  intros Hc. change 93%nat with (54 + (1 + 38))%nat. rewrite !replicate_add, run_app, run_poll.
  cbn [mbind outcome_bind]. rewrite run_app.
  assert (Ht : exists st k inf, run' (replicate 1 ready_in)
      (0 + Z.of_nat (length (replicate 54 ready_in))) (polled c)
      (mk_slave 0 [] CMD_READY [(CMD_READY, 1)]) =
    Done (loaded (mk_out false 0 false 0 false false CMD_READY false)
            (pack_word0 c (rd c)) (u32 (Z.shiftr (rs1 c) 32)) (u32 (Z.land (rs1 c) (2 ^ 32 - 1)))
            (u32 (Z.shiftr (rs2 c) 32)) (u32 (Z.land (rs2 c) (2 ^ 32 - 1))) st k inf,
          mk_slave 0 [] CMD_READY [(CMD_READY, 1)])).
  { eexists _, _, _. cbn [replicate run]. unfold tick, update_command_state. simpl.
    unfold start_command. simpl. rewrite pack_cases, Hc. reflexivity. }
  destruct Ht as (st & k & inf & ->). cbn [mbind outcome_bind]. by apply run_transfer.
Qed.

End ready_hardware.

(** ** Properties *)

(** What has been read of the responses. *)
Lemma responses_so_far CMD_BITS CMD_VALID CMD_READY RESP_BITS RESP_VALID RESP_READY cs s sl :
  axi_inv CMD_BITS CMD_VALID CMD_READY RESP_BITS RESP_VALID RESP_READY cs s sl ->
  Forall (fun r => length r = 3%nat) (registered s) /\
  exists rest, resp_reads RESP_BITS sl = mjoin (registered s) ++ rest /\ (length rest <= 3)%nat.
Proof.
  intros Hi. destruct (a_rsp _ _ _ _ _ _ _ _ _ Hi) as [Hr Hl]. split; [done|]. eexists. split; [done|].
  unfold rsp_part. pose proof (a_rbuf _ _ _ _ _ _ _ _ _ Hi) as Hb.
  destruct (rsp_state _); simpl; rewrite ?length_take; lia.
Qed.

Section properties.
Variable CMD_BITS CMD_VALID CMD_READY RESP_BITS RESP_VALID RESP_READY : Z.
Variable pack_cfg : beethoven_pack_info.
Variable num_ddr_channels : nat.
Abbreviation run' := (run CMD_BITS CMD_VALID CMD_READY RESP_BITS RESP_VALID RESP_READY
  pack_cfg num_ddr_channels).

(** C9. Whatever the hardware does on its side of the bus and for however many
    clock edges, the controller never fails on commands that pass the range
    checks, and the register writes it has completed are an initial part of
    what the queue asks for: for every command in order its five words, each
    written to the data register once and followed by one strobe. *)
Theorem commands_delivered_in_order cs is_ :
  NoDup [CMD_BITS; CMD_VALID; CMD_READY; RESP_BITS; RESP_VALID; RESP_READY] ->
  Forall (fun c => pack_ok c = true) cs ->
  exists s sl, run' is_ 0 (ctrl_init cs) slave_init = Done (s, sl) /\
    cmd_writes CMD_BITS CMD_VALID sl `prefix_of`
      (cs ≫= fun c => beats CMD_BITS CMD_VALID (words c)).
Proof.
  intros Hd Hok. destruct (run_inv _ _ _ _ _ _ pack_cfg num_ddr_channels Hd cs is_ 0 _ _
    (init_inv _ _ _ _ _ _ cs) Hok) as (s & sl & Hrun & Hi).
  exists s, sl. split; [done|]. eapply cmd_ok_prefix; [apply Hi|apply Hi].
Qed.

(** At every clock edge at most one of the command, response and polling
    machines is active, and the bus is marked occupied while a command or a
    response is being transferred. *)
Theorem one_machine_on_the_bus cs is_ s sl :
  NoDup [CMD_BITS; CMD_VALID; CMD_READY; RESP_BITS; RESP_VALID; RESP_READY] ->
  Forall (fun c => pack_ok c = true) cs ->
  run' is_ 0 (ctrl_init cs) slave_init = Done (s, sl) ->
  (Nat.b2n (cmd_active s) + Nat.b2n (rsp_active s) + Nat.b2n (upd_active s) <= 1)%nat /\
  ((cmd_active s || rsp_active s)%bool = true -> bus_occupied s = true).
Proof.
  intros Hd Hok Hrun. destruct (run_inv _ _ _ _ _ _ pack_cfg num_ddr_channels Hd cs is_ 0 _ _
    (init_inv _ _ _ _ _ _ cs) Hok) as (s' & sl' & Hrun' & Hi).
  rewrite Hrun in Hrun'. injection Hrun' as <- <-. apply phase_exclusive, Hi.
Qed.

(** The responses handed to the command server are exactly the words read
    from the response register, three at a time and in order; at most the three words
    of a response in progress are held back. *)
Theorem responses_read_in_order cs is_ s sl :
  NoDup [CMD_BITS; CMD_VALID; CMD_READY; RESP_BITS; RESP_VALID; RESP_READY] ->
  Forall (fun c => pack_ok c = true) cs ->
  run' is_ 0 (ctrl_init cs) slave_init = Done (s, sl) ->
  Forall (fun r => length r = 3%nat) (registered s) /\
  exists rest, resp_reads RESP_BITS sl = mjoin (registered s) ++ rest /\ (length rest <= 3)%nat.
Proof.
  intros Hd Hok Hrun. destruct (run_inv _ _ _ _ _ _ pack_cfg num_ddr_channels Hd cs is_ 0 _ _
    (init_inv _ _ _ _ _ _ cs) Hok) as (s' & sl' & Hrun' & Hi).
  rewrite Hrun in Hrun'. injection Hrun' as <- <-. by eapply responses_so_far.
Qed.

(** On a bus that always answers, a queued command has been written to the
    hardware, word by word, 93 clock edges after the start (54 to poll, one to
    take the command, 38 for the transfer), and the bus is free again. *)
Theorem command_reaches_hardware c : pack_ok c = true ->
  exists s sl, run' (replicate 93 ready_in) 0 (ctrl_init [c]) slave_init = Done (s, sl) /\
    writes sl = beats CMD_BITS CMD_VALID (words c) /\
    cmd_active s = false /\ bus_occupied s = false.
Proof. intros Hc. by apply run_command. Qed.

End properties.

Definition demo_queue : list rocc_cmd :=
  [start_cmd 1 true 2 0 0 3 17 42 5; start_cmd 0 false 0 0 0 1 7 9 0].
(** A hardware that is busy every other clock edge and answers 1. *)
Definition demo_bus (n : nat) : list axi_in :=
  mjoin (replicate n [ready_in; mk_in false true false true true 1]).

Lemma demo_queue_ok : Forall (fun c => pack_ok c = true) demo_queue.
Proof. repeat constructor. Qed.
Lemma demo_addrs : NoDup [0; 4; 8; 12; 16; 20].
Proof. repeat (constructor; [set_solver|]). constructor. Qed.

Lemma commands_delivered_in_order_witness :
  exists s sl, run 0 4 8 12 16 20 (mk_pack_info 4 8) 1 (demo_bus 40) 0 (ctrl_init demo_queue)
      slave_init = Done (s, sl) /\
    cmd_writes 0 4 sl `prefix_of` (demo_queue ≫= fun c => beats 0 4 (words c)).
Proof.
  apply (commands_delivered_in_order 0 4 8 12 16 20 (mk_pack_info 4 8) 1 demo_queue (demo_bus 40));
    [exact demo_addrs|exact demo_queue_ok].
Defined.

Definition demo_end (n : nat) : ctrl * slave :=
  match run 0 4 8 12 16 20 (mk_pack_info 4 8) 1 (demo_bus n) 0 (ctrl_init demo_queue) slave_init with
  | Done x => x
  | _ => (ctrl_init [], slave_init)
  end.

Lemma one_machine_on_the_bus_witness :
  let s := (demo_end 40).1 in
  (Nat.b2n (cmd_active s) + Nat.b2n (rsp_active s) + Nat.b2n (upd_active s) <= 1)%nat /\
  ((cmd_active s || rsp_active s)%bool = true -> bus_occupied s = true).
Proof.
  apply (one_machine_on_the_bus 0 4 8 12 16 20 (mk_pack_info 4 8) 1 demo_queue (demo_bus 40)
           (demo_end 40).1 (demo_end 40).2);
    [exact demo_addrs|exact demo_queue_ok|vm_compute; reflexivity].
Defined.

Lemma responses_read_in_order_witness :
  registered (demo_end 160).1 = [[1; 1; 1]] /\
  Forall (fun r => length r = 3%nat) (registered (demo_end 160).1) /\
  exists rest, resp_reads 12 (demo_end 160).2 = mjoin (registered (demo_end 160).1) ++ rest /\
    (length rest <= 3)%nat.
Proof.
  split; [vm_compute; reflexivity|].
  apply (responses_read_in_order 0 4 8 12 16 20 (mk_pack_info 4 8) 1 demo_queue (demo_bus 160)
           (demo_end 160).1 (demo_end 160).2);
    [exact demo_addrs|exact demo_queue_ok|vm_compute; reflexivity].
Defined.

Lemma command_reaches_hardware_witness :
  exists s sl, run 0 4 8 12 16 20 (mk_pack_info 4 8) 1 (replicate 93 ready_in) 0
      (ctrl_init [start_cmd 1 true 2 0 0 3 17 42 5]) slave_init = Done (s, sl) /\
    writes sl = beats 0 4 (words (start_cmd 1 true 2 0 0 3 17 42 5)) /\
    cmd_active s = false /\ bus_occupied s = false.
Proof. apply (command_reaches_hardware 0 4 8 12 16 20). reflexivity. Defined.

End Axi.
