(* ===== verification/AxiTypes.v ===== *)
(** * The widths of the bus controller

    The variables of the AXI control state machine
    ([runtime/include/core/state_machine.h]) are machine integers: 32-bit words in two
    small arrays, 8-bit progress counters, an [int] that counts clocks and one that
    counts commands.  [AxiCtrl] computes with unbounded integers; here every variable
    is shown to stay inside its type, so that no operation of the controller wraps or
    overflows. *)

From S2P Require Import Prelude RoccCmd AxiCtrl.

Module AxiTypes.
Import Rocc Axi.

Definition is_u32 (x : Z) : Prop := 0 <= x < 2 ^ 32.

(** [ctr] bounds the counter of clocks, [lo] and [hi] that of the commands. *)
Record typed (regs : list Z) (ctr lo hi : Z) (s : ctrl) : Prop := {
  ty_cmdbuf : length (cmdbuf (ongoing_cmd s)) = 5%nat /\ Forall is_u32 (cmdbuf (ongoing_cmd s));
  ty_cmdprog : 0 <= cmd_progress (ongoing_cmd s) <= 5;
  ty_resbuf : length (resbuf (ongoing_rsp s)) = 3%nat /\ Forall is_u32 (resbuf (ongoing_rsp s));
  ty_rspprog : 0 <= rsp_progress (ongoing_rsp s) <= 3;
  ty_ctr : 0 <= check_freq_ctr s <= ctr;
  ty_inflight : lo <= cmds_inflight s <= hi;
  ty_data : is_u32 (w_data (out s));
  ty_addr : aw_addr (out s) ∈ 0 :: regs /\ ar_addr (out s) ∈ 0 :: regs;
  ty_registered : Forall (fun r => length r = 3%nat /\ Forall is_u32 r) (registered s)
}.

(** ** Words *)

Lemma lor_u32 a b : is_u32 a -> is_u32 b -> is_u32 (Z.lor a b).
Proof.
  unfold is_u32. intros Ha Hb. assert (0 <= Z.lor a b) by (apply Z.lor_nonneg; lia). split; [done|].
  destruct (decide (Z.lor a b = 0)) as [->|Hz]; [lia|]. apply Z.log2_lt_pow2; [lia|]. rewrite Z.log2_lor by lia.
  apply Z.max_lub_lt; [destruct (decide (a = 0)) as [->|]; [done|apply Z.log2_lt_pow2; lia]|
    destruct (decide (b = 0)) as [->|]; [done|apply Z.log2_lt_pow2; lia]].
Qed.

(** A masked field shifted into place. *)
Lemma field_u32 x m k : 0 <= m -> 0 <= k -> Z.shiftl m k < 2 ^ 32 -> is_u32 (Z.shiftl (Z.land x m) k).
Proof.
  intros Hm Hk Hb. rewrite Z.shiftl_mul_pow2 in * by lia. assert (0 <= Z.land x m) by (apply Z.land_nonneg; by right).
  assert (Z.land x m <= m).
  { assert (m - Z.land x m = Z.ldiff m (Z.land x m)) as E.
    { apply Z.sub_nocarry_ldiff. by rewrite Z.ldiff_land, <- Z.land_assoc, Z.land_lnot_diag, Z.land_0_r. }
    assert (0 <= Z.ldiff m (Z.land x m)) by (apply Z.ldiff_nonneg; by left). lia. }
  unfold is_u32. split; [nia|]. nia.
Qed.

Lemma pack_word0_u32 c rrd : is_u32 (pack_word0 c rrd).
Proof.
  unfold pack_word0. repeat apply lor_u32; try (apply field_u32; vm_compute; congruence).
  - rewrite <- (Z.shiftl_0_r (Z.land _ 127)). apply field_u32; vm_compute; congruence.
  - rewrite Z.shiftr_land. change (Z.shiftr 992 5) with 31. apply field_u32; vm_compute; congruence.
  - apply u32_range.
Qed.

Lemma pack_u32 info c ws : pack false info c 255 = Done ws -> length ws = 5%nat /\ Forall is_u32 ws.
Proof.
  rewrite pack_cases. destruct (pack_ok c); [|done]. intros [= <-]. split; [done|]. unfold pack_words.
  repeat constructor; try apply pack_word0_u32; apply u32_range.
Qed.

Lemma buf_get_u32 l i : Forall is_u32 l -> is_u32 (buf_get l i).
Proof.
  intros Hl. unfold buf_get. destruct (zlookup l i) as [x|] eqn:E; cbn; [|unfold is_u32; lia].
  unfold zlookup in E. case_decide; [|done]. eapply Forall_lookup_1; [exact Hl|exact E].
Qed.

(** ** One tick *)

Section Tick.
Variable CMD_BITS CMD_VALID CMD_READY RESP_BITS RESP_VALID RESP_READY : Z.
Variable pack_cfg : beethoven_pack_info.
Variable num_ddr_channels : nat.
Abbreviation regs := [CMD_BITS; CMD_VALID; CMD_READY; RESP_BITS; RESP_VALID; RESP_READY].
Abbreviation typed := (typed regs).

Ltac typed_fields := cbn [out ongoing_cmd ongoing_rsp check_freq_ctr cmds_inflight registered cmdbuf cmd_progress cmd_state
  resbuf rsp_progress rsp_state w_data aw_addr ar_addr with_out with_cmd with_rsp with_upd with_bus with_ctr
  drive_aw drive_w drive_b drive_ar drive_r goto_cmd goto_rsp quiet_out] in *.
Ltac reg := first [assumption|apply list_elem_of_In; cbn; tauto].
Ltac typed_done := split; typed_fields; try assumption; try done; try lia; first [split; reg|unfold is_u32; lia].

Lemma quiet_typed c lo hi s : typed c lo hi s -> typed c lo hi (with_out (quiet_out (out s)) s).
Proof. intros []. by split. Qed.

Lemma command_typed i now c lo hi s s' : typed c lo hi s -> cmd_range (ongoing_cmd s) ->
  update_command_state CMD_BITS CMD_VALID CMD_READY pack_cfg num_ddr_channels i now s = Done s' -> typed c lo (hi + 1) s'.
Proof.
  intros [Hb Hp Hr Hrp Hc Hf Hd [Ha1 Ha2] Hg] Hrange. unfold update_command_state, cmd_range in *.
  destruct (cmd_state (ongoing_cmd s)) eqn:Est.
  1: case_match; [|intros [= <-]; typed_done]; unfold start_command; destruct (cmds s) as [|x rest]; [intros [= <-]; typed_done|];
     destruct (pack _ _ _ _) as [ws| | | |] eqn:Ew; try done; cbn [mbind outcome_bind]; intros [= <-];
     apply pack_u32 in Ew; split; typed_fields; try done; try lia; case_match; lia.
  all: intros [= <-].
  all: try (unfold finish_beat; repeat case_match; typed_done).
  all: pose proof (buf_get_u32 (cmdbuf (ongoing_cmd s)) (cmd_progress (ongoing_cmd s)) (proj2 Hb)).
  all: repeat case_match; typed_done.
Qed.

Lemma ready_write_typed i c lo hi s : typed c lo hi s -> typed c (lo - 1) hi (ready_write_b pack_cfg i s).
Proof.
  intros [Hb Hp Hr Hrp Hc Hf Hd [Ha1 Ha2] Hg]. unfold ready_write_b, finish_response. repeat case_match; try typed_done.
  all: split; typed_fields; try done; try lia; apply Forall_app; (split; [done|]); by constructor.
Qed.

Lemma zinsert_u32 i x l : is_u32 x -> Forall is_u32 l -> Forall is_u32 (zinsert i x l).
Proof. intros Hx Hl. unfold zinsert. case_decide; [|done]. by apply Forall_insert. Qed.

Lemma response_typed i c lo hi s : typed c lo hi s -> rsp_range (ongoing_rsp s) -> is_u32 (r_data i) ->
  typed c (lo - 1) hi (update_resp_state RESP_BITS RESP_VALID RESP_READY pack_cfg i s).
Proof.
  intros Ht Hrange Hx. unfold update_resp_state, rsp_range in *. destruct (rsp_state (ongoing_rsp s)) eqn:Est.
  all: try (apply ready_write_typed).
  all: destruct Ht as [Hb Hp Hr Hrp Hc Hf Hd [Ha1 Ha2] Hg].
  all: try (repeat case_match; typed_done).
  case_match; [|typed_done]. split; typed_fields; try done; try lia; [|rewrite u8_small; lia].
  rewrite length_zinsert. split; [tauto|]. apply zinsert_u32; [done|tauto].
Qed.

Lemma update_typed i c lo hi s : typed c lo hi s -> typed (c + 1) lo hi (update_update_state CMD_READY RESP_VALID i s).
Proof.
  intros [Hb Hp Hr Hrp Hc Hf Hd [Ha1 Ha2] Hg]. unfold update_update_state. repeat case_match; typed_done.
Qed.

Lemma tick_typed i now c lo hi s s' : typed c lo hi s -> cmd_range (ongoing_cmd s) -> rsp_range (ongoing_rsp s) ->
  is_u32 (r_data i) ->
  tick CMD_BITS CMD_VALID CMD_READY RESP_BITS RESP_VALID RESP_READY pack_cfg num_ddr_channels i now s = Done s' ->
  typed (c + 1) (lo - 1) (hi + 1) s'.
Proof.
  intros Ht Hc Hr Hx. unfold tick. destruct (update_command_state _ _ _ _ _ _ _ _) as [s1| | | |] eqn:E; try done.
  cbn [mbind outcome_bind]. intros [= <-]. assert (ongoing_rsp s1 = ongoing_rsp s) as Er.
  { revert E. unfold update_command_state, start_command, finish_beat. repeat case_match; intros E; try done;
      try (by injection E as <-); destruct (pack _ _ _ _); try done; by injection E as <-. }
  apply command_typed with (c := c) (lo := lo) (hi := hi) in E; [|by apply quiet_typed|done].
  apply update_typed, response_typed; [done|by rewrite Er|done].
Qed.

Lemma run_typed is_ : forall cs now c lo hi s sl s' sl',
  NoDup regs -> Forall (fun c => pack_ok c = true) cs -> Forall (fun i => is_u32 (r_data i)) is_ ->
  axi_inv CMD_BITS CMD_VALID CMD_READY RESP_BITS RESP_VALID RESP_READY cs s sl -> typed c lo hi s ->
  run CMD_BITS CMD_VALID CMD_READY RESP_BITS RESP_VALID RESP_READY pack_cfg num_ddr_channels is_ now s sl = Done (s', sl') ->
  typed (c + Z.of_nat (length is_)) (lo - Z.of_nat (length is_)) (hi + Z.of_nat (length is_)) s'.
Proof.
  induction is_ as [|i is_ IH]; intros cs now c lo hi s sl s' sl' Hd Hok Hx Hi Ht; cbn [run length].
  { intros [= <- <-]. by rewrite !Z.add_0_r, Z.sub_0_r. }
  apply Forall_cons in Hx as [Hx1 Hx]. destruct (tick_inv _ _ _ _ _ _ pack_cfg num_ddr_channels Hd cs i now s sl Hi Hok) as (s1 & E & Hi1).
  rewrite E. cbn [mbind outcome_bind]. intros Hr.
  apply (tick_typed i now c lo hi) in E; [|done|apply Hi|apply Hi|done].
  specialize (IH cs _ _ _ _ _ _ _ _ Hd Hok Hx Hi1 E Hr). rewrite Nat2Z.inj_succ.
  replace (c + Z.succ _) with (c + 1 + Z.of_nat (length is_)) by lia.
  replace (lo - Z.succ _) with (lo - 1 - Z.of_nat (length is_)) by lia.
  by replace (hi + Z.succ _) with (hi + 1 + Z.of_nat (length is_)) by lia.
Qed.

Lemma init_typed cs : typed 0 0 0 (ctrl_init cs).
Proof.
  split; cbn; try lia; try done.
  - split; [done|]. repeat constructor; unfold is_u32; lia.
  - split; [done|]. repeat constructor; unfold is_u32; lia.
  - split; by apply elem_of_cons; left.
Qed.

(** C23. In every run of fewer than 2^31 clock edges, whatever the slave answers, the
    variables of the controller stay inside their C++ types: the buffers hold five
    and three 32-bit words, the progress counters index them, the counters of clocks
    and of commands under way do not overflow an [int], the data on the bus is a
    32-bit word, and the addresses on it are the six registers (or zero, before the
    first access). *)
Theorem controller_state_typed cs is_ s sl :
  NoDup regs -> Forall (fun c => pack_ok c = true) cs -> Forall (fun i => is_u32 (r_data i)) is_ ->
  Z.of_nat (length is_) < 2 ^ 31 ->
  run CMD_BITS CMD_VALID CMD_READY RESP_BITS RESP_VALID RESP_READY pack_cfg num_ddr_channels is_ 0 (ctrl_init cs) slave_init
    = Done (s, sl) ->
  typed (2 ^ 31 - 1) (- 2 ^ 31 + 1) (2 ^ 31 - 1) s.
Proof.
  intros Hd Hok Hx Hn Hr.
  destruct (run_typed is_ cs 0 0 0 0 _ _ _ _ Hd Hok Hx (init_inv _ _ _ _ _ _ cs) (init_typed cs) Hr). split; try done; lia.
Qed.

End Tick.

Lemma controller_state_typed_witness : typed [0; 4; 8; 12; 16; 20] (2 ^ 31 - 1) (- 2 ^ 31 + 1) (2 ^ 31 - 1) (demo_end 40).1.
Proof.
  apply (controller_state_typed 0 4 8 12 16 20 (mk_pack_info 4 8) 1 demo_queue (demo_bus 40) (demo_end 40).1 (demo_end 40).2).
  - exact demo_addrs.
  - exact demo_queue_ok.
  - assert (forallb (fun i => (0 <=? r_data i) && (r_data i <? 2 ^ 32)) (demo_bus 40) = true) as H by (vm_compute; reflexivity).
    rewrite forallb_forall in H. apply Forall_forall. intros i Hi%list_elem_of_In. specialize (H i Hi). unfold is_u32.
    apply andb_prop in H as [H1%Z.leb_le H2%Z.ltb_lt]. split; [exact H1|exact H2].
  - vm_compute. reflexivity.
  - vm_compute. reflexivity.
Defined.

End AxiTypes.
