(* ===== verification/ChipkitUart.v ===== *)
(** * The UART front end of the chip-kit simulator

    [ChipkitControlIntf] of [runtime/include/frontends/chipkit/state_machine.h]
    (a transmitter that drives [rxd] of the chip and a receiver that samples
    its [txd], both ticked once per clock), the baud-rate selection of
    [runtime/src/frontends/chipkit/front_bus_ctrl_chipkit.cc] and the
    per-clock routine [tick_chip] of
    [runtime/include/frontends/chipkit/tick.h], which takes the front end by
    value.

    Pins are bytes ([Z]); counters are C [int]s that stay small. *)

From S2P Require Import Prelude.

Module Uart.

Definition baud_table : list Z := [1302; 217; 108; 54; 27; 22; 20; 19; 16; 15; 10; 8; 6; 5; 4; 2].

(** [set_baud]: the assertion excludes setting 15, the table read is bounded. *)
Definition set_baud (baud_flag : Z) : outcome (Z * Z) :=
  if negb (baud_flag =? 15) then
    d ← vget baud_table baud_flag; Done (baud_flag, d * 4)
  else Exit 134.

Inductive uart_state_t := IDLE | START_BAUD | START | BITS | BITS_BAUD | STOP.

(** [test]. *)
Definition test (q idx : Z) : bool := negb (Z.land q (Z.shiftl 1 idx) =? 0).

(** [set] and [set_u]: bit [ti] of the target becomes bit [si] of the source. *)
Definition set_bit (target ti src si : Z) : Z :=
  Z.lor (Z.land target (Z.lnot (Z.shiftl 1 ti)))
    (Z.shiftl (Z.shiftr (Z.land src (Z.shiftl 1 si)) si) ti).

(** The transmitter's half of the structure, with the pin it drives. *)
Record tx := mk_tx {
  in_state : uart_state_t;
  baud_count_in : Z;
  in_byte_progress : Z;
  in_stream : list Z;
  in_enable : bool;
  rxd : Z
}.

(** The receiver's half. *)
Record rx := mk_rx {
  out_state : uart_state_t;
  baud_count_out : Z;
  out_byte_progress : Z;
  out_byte : Z;
  out_stream : list Z;
  out_enable : bool
}.

Section uart.
Variable baud_div : Z.

(** The first [switch] of [tick].  Reading or popping an empty queue has no
    meaning. *)
Definition tick_in (s : tx) : outcome tx :=
  let '(mk_tx st n p q en r) := s in
  match st with
  | IDLE =>
      match q with
      | _ :: _ => if en then Done (mk_tx START (n + 1) 0 q en 0) else Done (mk_tx IDLE n p q en 1)
      | [] => Done (mk_tx IDLE n p q en 1)
      end
  | START =>
      if n + 1 =? baud_div then
        b ← or_undef (head q); Done (mk_tx BITS_BAUD 0 (p + 1) q en (set_bit r 0 b p))
      else Done (mk_tx START (n + 1) p q en r)
  | BITS =>
      b ← or_undef (head q);
      let r' := set_bit r 0 b p in
      if baud_div >? 1 then Done (mk_tx BITS_BAUD 0 (p + 1) q en r')
      else if p + 1 =? 8 then Done (mk_tx STOP 0 (p + 1) (tail q) en r')
      else Done (mk_tx BITS 0 (p + 1) q en r')
  | BITS_BAUD =>
      if n + 1 =? baud_div then
        if p =? 8 then _ ← or_undef (head q); Done (mk_tx STOP 0 p (tail q) en r)
        else Done (mk_tx BITS 0 p q en r)
      else Done (mk_tx BITS_BAUD (n + 1) p q en r)
  | STOP =>
      if n + 1 =? 2 * baud_div then Done (mk_tx IDLE 0 p q en 1)
      else Done (mk_tx STOP (n + 1) p q en 1)
  | START_BAUD => Done s
  end.

(** The second [switch], given the pin [txd]. *)
Definition tick_out (txd : Z) (s : rx) : rx :=
  let '(mk_rx st n p b q en) := s in
  match st with
  | IDLE =>
      if ((txd =? 0) && en)%bool then
        if baud_div =? 1 then mk_rx BITS n 0 0 q en else mk_rx START_BAUD 1 p 0 q en
      else s
  | START_BAUD =>
      if n + 1 =? baud_div then mk_rx BITS 0 0 b q en else mk_rx START_BAUD (n + 1) p b q en
  | BITS =>
      let b' := set_bit b p txd 0 in
      if baud_div =? 1 then
        if p + 1 =? 8 then mk_rx STOP 0 (p + 1) b' q en else mk_rx BITS n (p + 1) b' q en
      else mk_rx BITS_BAUD 1 (p + 1) b' q en
  | BITS_BAUD =>
      if n + 1 =? baud_div then
        if p =? 8 then mk_rx STOP 0 p b q en else mk_rx BITS 0 p b q en
      else mk_rx BITS_BAUD 0 p b q en
  | STOP =>
      if n + 1 =? 2 * baud_div then mk_rx IDLE (n + 1) p 0 (q ++ [b]) en
      else mk_rx STOP (n + 1) p b q en
  | START => s
  end.

(** [tick]. *)
Definition tick (txd : Z) (s : tx * rx) : outcome (tx * rx) :=
  t ← tick_in s.1; Done (t, tick_out txd s.2).

(** The front end as constructed. *)
Definition tx_init (q : list Z) : tx := mk_tx IDLE 0 0 q true 1.
Definition rx_init : rx := mk_rx IDLE 0 0 0 [] false.

(** [n] clock edges of the transmitter. *)
Fixpoint run_in (n : nat) (s : tx) : outcome tx :=
  match n with
  | O => Done s
  | S n' => t ← tick_in s; run_in n' t
  end.

(** The receiver over a sequence of samples of its pin. *)
Definition run_out (txds : list Z) (s : rx) : rx := fold_left (fun s t => tick_out t s) txds s.

End uart.

(** ** [tick_chip] *)

(** The static variables of [tick.h] and the pins it drives. *)
Record chip := mk_chip {
  has_moved_memory : bool;
  has_moved_program : bool;
  has_reset : bool;
  static_steps : Z;
  aspsel : Z;
  reset : Z;
  chip_rxd : Z
}.

Section tick_chip.
Variable baud_div : Z.
Variable active_reset : bool.
(** The bytes [readMemFile2ChipkitDMA] produces for the two files, when they
    are given. *)
Variable dma_file trace_file : option (list Z).

(** [tick_chip]: [front] is the caller's front end, of which the function
    works on a copy; the pins are shared.  Dereferencing an absent file name
    has no meaning. *)
Definition tick_chip (front : tx) (s : chip) : outcome chip :=
  '(q, s) ←
    match dma_file with
    | Some bytes =>
        if has_moved_memory s then
          if (match in_stream front with [] => true | _ => false end
              && negb (has_moved_program s))%bool then
            bs ← or_undef trace_file;
            Done (in_stream front ++ bs,
                  mk_chip (has_moved_memory s) true (has_reset s) (static_steps s) 1
                    (reset s) (chip_rxd s))
          else Done (in_stream front, s)
        else Done (in_stream front ++ bytes,
                   mk_chip true (has_moved_program s) (has_reset s) (static_steps s) 0
                     (reset s) (chip_rxd s))
    | None =>
        if (match in_stream front with [] => true | _ => false end
            && negb (has_moved_program s))%bool then
          bs ← or_undef trace_file;
          Done (in_stream front ++ bs,
                mk_chip (has_moved_memory s) true (has_reset s) (static_steps s) 1
                  (reset s) (chip_rxd s))
        else Done (in_stream front, s)
    end;
  let s :=
    if (has_moved_memory s && negb (has_reset s) && (chip_rxd s =? 1))%bool then
      let n := static_steps s + 1 in
      if n =? 20 then
        mk_chip (has_moved_memory s) (has_moved_program s) true n (aspsel s)
          (b2z active_reset) (chip_rxd s)
      else
        mk_chip (has_moved_memory s) (has_moved_program s) (has_reset s) n (aspsel s)
          (reset s) (chip_rxd s)
    else
      mk_chip (has_moved_memory s) (has_moved_program s) (has_reset s) (static_steps s)
        (aspsel s) (b2z (negb active_reset)) (chip_rxd s) in
  t ← tick_in baud_div (mk_tx (in_state front) (baud_count_in front)
        (in_byte_progress front) q (in_enable front) (chip_rxd s));
  Done (mk_chip (has_moved_memory s) (has_moved_program s) (has_reset s) (static_steps s)
          (aspsel s) (reset s) (rxd t)).

Fixpoint tick_chips (n : nat) (front : tx) (s : chip) : outcome chip :=
  match n with
  | O => Done s
  | S n' => s' ← tick_chip front s; tick_chips n' front s'
  end.

End tick_chip.

(** ** The line as a function of time *)

(** What a UART transmitter with the code's bit lengths puts on the line [t]
    clocks after the byte's start. *)
Definition wave (div byte t : Z) : Z :=
  if t <? div - 1 then 0
  else let k := (t - (div - 1)) / (div + 1) in
       if k <? 8 then b2z (Z.testbit byte k) else 1.

(** Clock edges from a byte's start to the next idle state. *)
Definition frame_ticks (d : nat) : nat := (11 * d + 7)%nat.

(** ** Lemmas on the transmitter *)

Lemma set_bit_pin r b p : 0 <= p -> r = 0 \/ r = 1 -> set_bit r 0 b p = b2z (Z.testbit b p).
Proof.
  intros Hp Hr. unfold set_bit. change (Z.shiftl 1 0) with 1. rewrite Z.shiftl_0_r.
  assert (Hl : Z.land r (Z.lnot 1) = 0) by (destruct Hr; subst; reflexivity).
  rewrite Hl, Z.lor_0_l. rewrite Z.shiftr_land, Z.shiftr_shiftl_l, Z.sub_diag, Z.shiftl_0_r by lia.
  rewrite (land_ones_mod _ 1), <- Z.bit0_mod, Z.shiftr_spec by lia. simpl.
  unfold Z.b2z, b2z. by rewrite Z.add_0_l.
Qed.

Lemma b2z_pin b : b2z b = 0 \/ b2z b = 1.
Proof. destruct b; auto. Qed.

Section transmitter.
Variable d : nat.
Hypothesis Hd : (2 <= d)%nat.
Abbreviation div := (Z.of_nat d).
Abbreviation run' := (run_in div).

Lemma run_in_add n m s : run' (n + m) s = run' n s ≫= run' m.
Proof.
  revert s. induction n as [|n IH]; intros s; simpl; [done|].
  destruct (tick_in div s); try done. apply IH.
Qed.

Lemma run_in_1 s : run' 1 s = tick_in div s.
Proof. simpl. by destruct (tick_in div s). Qed.

Lemma run_in_pred n s : (0 < n)%nat -> run' n s = run' (n - 1) s ≫= tick_in div.
Proof using Hd.
  intros Hn. replace n with ((n - 1) + 1)%nat at 1 by lia. rewrite run_in_add.
  destruct (run' (n - 1) s); try done. apply run_in_1.
Qed.

Variable (b : Z) (q : list Z).

Lemma start_stage j p r : (1 + j < d)%nat ->
  run' j (mk_tx START 1 p (b :: q) true r) = Done (mk_tx START (1 + Z.of_nat j) p (b :: q) true r).
Proof using Hd.
  induction j as [|j IH]; intros Hj; [done|].
  replace (S j) with (j + 1)%nat by lia. rewrite run_in_add, IH by lia.
  cbn [mbind outcome_bind]. rewrite run_in_1. cbn [tick_in].
  destruct (_ =? _) eqn:E; zb; [lia|]. do 2 f_equal. lia.
Qed.

Lemma bit_stage j p r : (j < d)%nat ->
  run' j (mk_tx BITS_BAUD 0 p (b :: q) true r) = Done (mk_tx BITS_BAUD (Z.of_nat j) p (b :: q) true r).
Proof using Hd.
  induction j as [|j IH]; intros Hj; [done|].
  replace (S j) with (j + 1)%nat by lia. rewrite run_in_add, IH by lia.
  cbn [mbind outcome_bind]. rewrite run_in_1. cbn [tick_in].
  destruct (_ =? _) eqn:E; zb; [lia|]. do 2 f_equal. lia.
Qed.

Lemma stop_stage j p r : (0 < j < 2 * d)%nat ->
  run' j (mk_tx STOP 0 p q true r) = Done (mk_tx STOP (Z.of_nat j) p q true 1).
Proof using Hd.
  induction j as [|j IH]; intros Hj; [lia|]. destruct (decide (j = 0%nat)) as [->|].
  - rewrite run_in_1. cbn [tick_in]. destruct (_ =? _) eqn:E; zb; [lia|]. done.
  - replace (S j) with (j + 1)%nat by lia. rewrite run_in_add, IH by lia.
    cbn [mbind outcome_bind]. rewrite run_in_1. cbn [tick_in].
    destruct (_ =? _) eqn:E; zb; [lia|]. do 2 f_equal. lia.
Qed.

Abbreviation idle p0 r0 := (mk_tx IDLE 0 p0 (b :: q) true r0).
Abbreviation bit k := (b2z (Z.testbit b (Z.of_nat k))).

(** The start of data bit [k]. *)
Lemma reach_bit k p0 r0 : (k < 8)%nat ->
  run' (d + k * (d + 1)) (idle p0 r0)
  = Done (mk_tx BITS_BAUD 0 (Z.of_nat k + 1) (b :: q) true (bit k)).
Proof using Hd.
  induction k as [|k IH]; intros Hk.
  - replace (d + 0 * (d + 1))%nat with (1 + ((d - 2) + 1))%nat by lia.
    rewrite run_in_add, run_in_1. cbn [tick_in]. cbn [mbind outcome_bind].
    rewrite run_in_add, start_stage by lia. cbn [mbind outcome_bind]. rewrite run_in_1. cbn [tick_in].
    destruct (_ =? _) eqn:E; zb; [|lia]. cbn [head or_undef mbind outcome_bind].
    by rewrite set_bit_pin by lia.
  - replace (d + S k * (d + 1))%nat with ((d + k * (d + 1)) + ((d - 1) + (1 + 1)))%nat by lia.
    rewrite run_in_add, IH by lia. cbn [mbind outcome_bind].
    rewrite run_in_add, bit_stage by lia. cbn [mbind outcome_bind].
    rewrite run_in_add, run_in_1. cbn [tick_in].
    destruct (_ =? _) eqn:E; zb; [|lia]. destruct (Z.of_nat k + 1 =? 8) eqn:E8; zb; [lia|].
    cbn [mbind outcome_bind]. rewrite run_in_1. cbn [tick_in].
    destruct (div >? 1) eqn:Ed; zb; [|lia]. cbn [head or_undef mbind outcome_bind].
    rewrite set_bit_pin by (lia || apply b2z_pin).
    do 3 f_equal; [lia|]. do 2 f_equal. lia.
Qed.

Lemma reach_stop p0 r0 :
  run' (d + 8 * (d + 1) - 1) (idle p0 r0) = Done (mk_tx STOP 0 8 q true (bit 7)).
Proof using Hd.
  replace (d + 8 * (d + 1) - 1)%nat with ((d + 7 * (d + 1)) + ((d - 1) + 1))%nat by lia.
  rewrite run_in_add, reach_bit by lia. cbn [mbind outcome_bind].
  rewrite run_in_add, bit_stage by lia. cbn [mbind outcome_bind]. rewrite run_in_1. cbn [tick_in].
  destruct (_ =? _) eqn:E; zb; [|lia]. done.
Qed.

(** A whole frame. *)
Lemma reach_idle p0 r0 :
  run' (frame_ticks d) (idle p0 r0) = Done (mk_tx IDLE 0 8 q true 1).
Proof using Hd.
  unfold frame_ticks.
  replace (11 * d + 7)%nat with ((d + 8 * (d + 1) - 1) + ((2 * d - 1) + 1))%nat by lia.
  rewrite run_in_add, reach_stop. cbn [mbind outcome_bind].
  rewrite run_in_add, stop_stage by lia. cbn [mbind outcome_bind]. rewrite run_in_1. cbn [tick_in].
  destruct (_ =? _) eqn:E; zb; [done|lia].
Qed.

Lemma wave_bit k j : (k < 8)%nat -> (j <= d)%nat ->
  wave div b (Z.of_nat (d + k * (d + 1) + j) - 1) = bit k.
Proof using Hd.
  intros Hk Hj. unfold wave. destruct (_ <? _) eqn:E; zb; [lia|].
  assert (Hq : (Z.of_nat (d + k * (d + 1) + j) - 1 - (div - 1)) / (div + 1) = Z.of_nat k).
  { symmetry. apply (Z.div_unique _ _ _ (Z.of_nat j)); lia. }
  rewrite Hq. destruct (_ <? 8) eqn:E8; zb; [done|lia].
Qed.

(** The value on the line at each clock of a frame. *)
Lemma frame_wave t p0 r0 : (t < frame_ticks d)%nat ->
  exists s, run' (S t) (idle p0 r0) = Done s /\ rxd s = wave div b (Z.of_nat t).
Proof using Hd.
  intros Ht. unfold frame_ticks in Ht.
  destruct (decide (S t < d)%nat) as [Hs|Hs].
  { replace (S t) with (1 + t)%nat by lia. rewrite run_in_add, run_in_1. cbn [tick_in].
    cbn [mbind outcome_bind]. rewrite start_stage by lia. eexists. split; [done|].
    unfold wave. destruct (_ <? _) eqn:E; zb; [done|lia]. }
  destruct (decide (S t < d + 8 * (d + 1) - 1)%nat) as [Hb|Hb].
  { set (k := ((S t - d) / (d + 1))%nat). set (j := ((S t - d) mod (d + 1))%nat).
    assert (Hkj : (S t - d = (d + 1) * k + j)%nat) by (apply Nat.div_mod; lia).
    assert (Hj : (j < d + 1)%nat) by (apply Nat.mod_upper_bound; lia).
    assert (Hk : (k < 8)%nat) by nia.
    replace (Z.of_nat t) with (Z.of_nat (d + k * (d + 1) + j) - 1) by lia.
    rewrite wave_bit by lia.
    replace (S t) with (d + k * (d + 1) + j)%nat by lia.
    rewrite run_in_add, reach_bit by lia. cbn [mbind outcome_bind].
    destruct (decide (j = d)) as [->|Hjd].
    - rewrite run_in_pred, bit_stage by lia. cbn [mbind outcome_bind tick_in]. destruct (_ =? _) eqn:E; zb; [|lia].
      destruct (Z.of_nat k + 1 =? 8) eqn:E8; zb; eexists; (split; [done|done]).
    - rewrite bit_stage by lia. eexists. split; [done|done]. }
  destruct (decide (S t = d + 8 * (d + 1) - 1)%nat) as [He|He].
  { rewrite He, reach_stop. eexists. split; [done|]. simpl.
    replace (Z.of_nat t) with (Z.of_nat (d + 7 * (d + 1) + d) - 1) by lia.
    by rewrite wave_bit by lia. }
  set (m := (S t - (d + 8 * (d + 1) - 1))%nat).
  replace (S t) with ((d + 8 * (d + 1) - 1) + m)%nat by lia.
  rewrite run_in_add, reach_stop. cbn [mbind outcome_bind].
  assert (Hw : wave div b (Z.of_nat t) = 1).
  { unfold wave. destruct (_ <? _) eqn:E; zb; [lia|].
    assert (8 <= (Z.of_nat t - (div - 1)) / (div + 1)) by (apply Z.div_le_lower_bound; lia).
    destruct (_ <? 8) eqn:E8; zb; [lia|done]. }
  rewrite Hw. destruct (decide (m = 2 * d)%nat) as [->|Hm].
  - rewrite run_in_pred, stop_stage by lia. cbn [mbind outcome_bind tick_in]. destruct (_ =? _) eqn:E; zb; eexists; (split; [done|done]).
  - rewrite stop_stage by lia. eexists. split; [done|done].
Qed.

End transmitter.

(** Frames follow each other. *)
Lemma reach_frame d i p0 r0 q : (2 <= d)%nat -> (i <= length q)%nat ->
  exists p r, run_in (Z.of_nat d) (i * frame_ticks d) (mk_tx IDLE 0 p0 q true r0)
    = Done (mk_tx IDLE 0 p (drop i q) true r).
Proof.
  intros Hd. revert p0 r0 q. induction i as [|i IH]; intros p0 r0 q Hi; [by eexists _, _|].
  destruct q as [|b q]; [simpl in Hi; lia|].
  replace (S i * frame_ticks d)%nat with (frame_ticks d + i * frame_ticks d)%nat by lia.
  rewrite run_in_add, reach_idle by done. cbn [mbind outcome_bind]. apply IH. simpl in Hi. lia.
Qed.

(** ** A receiver that samples in the middle of each nominal bit *)

Definition sample_byte (d : Z) (line : Z -> Z) : Z :=
  fold_right (fun k acc => line (d / 2 + (k + 1) * d) + 2 * acc) 0 (zrange 0 8).

Lemma wave_mid d b k : 12 <= d -> 0 <= k < 8 ->
  wave d b (d / 2 + (k + 1) * d) = b2z (Z.testbit b k).
Proof.
  intros Hd Hk. pose proof (Z.div_mod d 2). pose proof (Z.mod_pos_bound d 2).
  unfold wave. destruct (_ <? _) eqn:E; zb; [lia|].
  assert (Hq : (d / 2 + (k + 1) * d - (d - 1)) / (d + 1) = k).
  { symmetry. apply (Z.div_unique _ _ _ (d / 2 + 1 - k)); lia. }
  rewrite Hq. destruct (_ <? 8) eqn:E8; zb; [done|lia].
Qed.

Definition of_bits (b : Z) : Z :=
  fold_right (fun k acc => b2z (Z.testbit b k) + 2 * acc) 0 (zrange 0 8).

Lemma of_bits_byte b : 0 <= b < 256 -> of_bits b = b.
Proof.
  intros Hb. assert (Hall : forallb (fun b => of_bits b =? b) (zrange 0 256) = true)
    by (vm_compute; reflexivity).
  rewrite forallb_forall in Hall. apply Z.eqb_eq, Hall, list_elem_of_In, elem_of_zrange. lia.
Qed.

Lemma sample_wave d b : 12 <= d -> 0 <= b < 256 -> sample_byte d (wave d b) = b.
Proof.
  intros Hd Hb. rewrite <- (of_bits_byte b) at 2 by done. unfold sample_byte, of_bits.
  change (zrange 0 8) with [0; 1; 2; 3; 4; 5; 6; 7]. cbn [fold_right].
  by rewrite !wave_mid by lia.
Qed.

(** ** Lemmas on the receiver *)

Definition rx_stuck (s : rx) : Prop :=
  match out_state s with
  | IDLE | START_BAUD | BITS => True
  | BITS_BAUD => baud_count_out s = 0 \/ baud_count_out s = 1
  | _ => False
  end.

Lemma rx_stuck_tick div txd s : 2 < div -> rx_stuck s ->
  rx_stuck (tick_out div txd s) /\ out_stream (tick_out div txd s) = out_stream s.
Proof.
  intros Hd. destruct s as [st n p b q en]. unfold rx_stuck, tick_out. simpl.
  destruct st; try done; intros Hn.
  - destruct (_ && _)%bool; [|done]. destruct (div =? 1); done.
  - destruct (_ =? _); done.
  - destruct (div =? 1) eqn:E; zb; [lia|]. simpl. auto.
  - destruct (_ =? _) eqn:E; zb; [lia|]. simpl. auto.
Qed.

(** ** Lemmas on [tick_chip] *)

Lemma tick_chip_done div act mem prog s :
  has_moved_memory s = true -> has_moved_program s = true ->
  exists s', tick_chip div act (Some mem) (Some prog) (tx_init []) s = Done s' /\
    has_moved_memory s' = true /\ has_moved_program s' = true /\ chip_rxd s' = 1.
Proof.
  intros Hm Hp. unfold tick_chip. simpl. rewrite Hm, Hp. simpl.
  destruct (has_reset s), (chip_rxd s =? 1), (static_steps s + 1 =? 20); simpl;
    (eexists; split; [reflexivity|]); simpl; rewrite ?Hm, ?Hp; done.
Qed.

Lemma tick_chips_done div act mem prog n s :
  has_moved_memory s = true -> has_moved_program s = true ->
  exists s', tick_chips div act (Some mem) (Some prog) (S n) (tx_init []) s = Done s' /\
    chip_rxd s' = 1.
Proof.
  revert s. induction n as [|n IH]; intros s Hm Hp.
  - destruct (tick_chip_done div act mem prog s Hm Hp) as (s1 & E & _ & _ & Hr).
    exists s1. simpl. by rewrite E.
  - destruct (tick_chip_done div act mem prog s Hm Hp) as (s1 & E & Hm1 & Hp1 & _).
    destruct (IH s1 Hm1 Hp1) as (s2 & E2 & Hr2). exists s2.
    change (tick_chips div act (Some mem) (Some prog) (S (S n)) (tx_init []) s) with
      (s' ← tick_chip div act (Some mem) (Some prog) (tx_init []) s;
       tick_chips div act (Some mem) (Some prog) (S n) (tx_init []) s').
    by rewrite E.
Qed.

(** ** Properties *)

(** The transmitter's line, clock by clock: byte [i] of the stream starts
    [i] frames after the beginning, its start bit lasts [div - 1] clocks, every
    data bit [div + 1] clocks, least significant first, and the line is high
    for the rest of the frame of [11 div + 7] clocks. *)
Theorem transmitter_waveform d q i b t :
  (2 <= d)%nat -> q !! i = Some b -> (t < frame_ticks d)%nat ->
  exists s, run_in (Z.of_nat d) (i * frame_ticks d + S t) (tx_init q) = Done s /\
    rxd s = wave (Z.of_nat d) b (Z.of_nat t).
Proof.
  intros Hd Hb Ht. pose proof (lookup_lt_Some _ _ _ Hb).
  destruct (reach_frame d i 0 1 q Hd) as (p & r & Hr); [lia|].
  rewrite run_in_add. unfold tx_init. rewrite Hr. cbn [mbind outcome_bind].
  rewrite (drop_S q b i Hb). by apply frame_wave.
Qed.

Lemma transmitter_waveform_witness :
  exists s, run_in 16 (1 * frame_ticks 16 + S 40) (tx_init [65; 90]) = Done s /\ rxd s = 1.
Proof. apply (transmitter_waveform 16 [65; 90] 1 90 40); [lia|reflexivity|unfold frame_ticks; lia]. Defined.

(** Every baud setting that [set_baud] accepts gives a line from which a
    receiver that samples the middle of each nominal bit reads the byte that
    was sent. *)
Theorem transmitted_byte_is_readable baud_flag sel div b :
  0 <= baud_flag -> set_baud baud_flag = Done (sel, div) -> 0 <= b < 256 ->
  sample_byte div (wave div b) = b /\ wave div b (div / 2) = 0 /\
  wave div b (div / 2 + 9 * div) = 1.
Proof.
  intros Hf Hs Hb. assert (Hdiv : 16 <= div).
  { unfold set_baud in Hs. destruct (baud_flag =? 15) eqn:E; zb; [done|]. simpl in Hs.
    apply bind_Done in Hs as (v & Hv & Hs). simplify_eq. apply vget_Done in Hv.
    pose proof (zlookup_Some_range _ _ _ Hv) as Hr. change (length baud_table) with 16%nat in Hr.
    unfold zlookup in Hv. rewrite decide_True in Hv by lia.
    assert (Hl : (Z.to_nat sel < 15)%nat) by lia.
    revert Hv Hl. generalize (Z.to_nat sel) as m. intros m Hv Hl.
    do 15 (destruct m as [|m]; [simpl in Hv; simplify_eq; lia|]). lia. }
  pose proof (Z.div_mod div 2). pose proof (Z.mod_pos_bound div 2).
  split; [apply sample_wave; lia|]. unfold wave. split.
  - destruct (_ <? _) eqn:E; zb; [done|lia].
  - destruct (_ <? _) eqn:E; zb; [lia|].
    assert (8 <= (div / 2 + 9 * div - (div - 1)) / (div + 1)) by (apply Z.div_le_lower_bound; lia).
    destruct (_ <? 8) eqn:E8; zb; [lia|done].
Qed.

Lemma transmitted_byte_is_readable_witness :
  set_baud 14 = Done (14, 16) /\ sample_byte 16 (wave 16 165) = 165 /\
  wave 16 165 (16 / 2) = 0 /\ wave 16 165 (16 / 2 + 9 * 16) = 1.
Proof.
  split; [reflexivity|].
  apply (transmitted_byte_is_readable 14 14 16 165); [lia|reflexivity|lia].
Defined.

(** The receiver never delivers a byte, whatever arrives on its pin, at any
    baud setting: [BITS_BAUD] clears its counter on every clock, so it waits
    for ever for the counter to reach the divisor. *)
Theorem receiver_never_delivers div txds en :
  2 < div -> out_stream (run_out div txds (mk_rx IDLE 0 0 0 [] en)) = [].
Proof.
  intros Hd. assert (Hi : rx_stuck (mk_rx IDLE 0 0 0 [] en)) by done.
  assert (Hq : out_stream (mk_rx IDLE 0 0 0 [] en) = []) by done. revert Hi Hq.
  generalize (mk_rx IDLE 0 0 0 [] en). unfold run_out.
  induction txds as [|t txds IH]; intros s Hs Hq; simpl; [done|].
  destruct (rx_stuck_tick div t s Hd Hs) as [Hs' Hq']. apply IH; [done|congruence].
Qed.

(** Nine bit times of a well-formed frame for 0x55 are not enough, nor is any
    other input. *)
Lemma receiver_never_delivers_witness :
  out_stream (run_out 16 (wave 16 85 <$> zrange 0 400) (mk_rx IDLE 0 0 0 [] true)) = [].
Proof. apply (receiver_never_delivers 16). lia. Defined.

(** [tick_chip] works on a copy of the front end, so the bytes it loads are
    gone when it returns: from the third clock on the chip's line stays high
    and nothing of the memory image or the program is ever sent. *)
Theorem loaded_bytes_are_lost div act mem prog n :
  exists s, tick_chips div act (Some mem) (Some prog) (3 + n) (tx_init [])
      (mk_chip false false false 0 0 0 1) = Done s /\ chip_rxd s = 1.
Proof.
  assert (H2 : exists s, tick_chips div act (Some mem) (Some prog) 2 (tx_init [])
    (mk_chip false false false 0 0 0 1) = Done s /\
    has_moved_memory s = true /\ has_moved_program s = true).
  { destruct mem, prog; unfold tick_chips, tick_chip; simpl; eexists; (split; [done|]); done. }
  destruct H2 as (s2 & E2 & Hm & Hp).
  destruct (tick_chips_done div act mem prog n s2 Hm Hp) as (s3 & E3 & Hr). exists s3.
  split; [|done]. rewrite <- E3. clear E3.
  simpl in E2. change (3 + n)%nat with (S (S (S n))).
  change (tick_chips div act (Some mem) (Some prog) (S (S (S n))) ?f ?s) with
    (s' ← tick_chip div act (Some mem) (Some prog) f s;
     s'' ← tick_chip div act (Some mem) (Some prog) f s';
     tick_chips div act (Some mem) (Some prog) (S n) f s'').
  apply bind_Done in E2 as (s1 & E1 & E2). rewrite E1. cbn [mbind outcome_bind].
  apply bind_Done in E2 as (s2' & E2 & E3). injection E3 as ->. by rewrite E2.
Qed.

End Uart.
