(* ===== verification/MemImage.v ===== *)
(** * The memory images of the chipkit test bench

    [runtime/src/frontends/chipkit/util.cc]: a memory image (addresses after [@],
    then bytes in hexadecimal) is turned into the write commands that are sent to
    the chip over its UART.  The file is a list of characters; [char] is signed. *)

From Stdlib Require Import Ascii String.
From S2P Require Import Prelude Text.

Module Image.
Import Text.

#[local] Open Scope char_scope.
#[local] Open Scope Z_scope.

Definition code (c : ascii) : Z := Z.of_nat (nat_of_ascii c).

(** [(c = getc(f)) != EOF] for a [char]: the byte 255 is taken for the end. *)
Definition is_EOF (c : ascii) : bool := code c =? 255.

(** [strtol(buf, nullptr, 16)]. *)
Definition strtol16 (w : list ascii) : Z :=
  let sg := sign w in
  let v := (digits 16 0 (hex_prefix 16 sg.2)).1 in
  if sg.1 then Z.max (- v) (- 2 ^ 63) else Z.min v (2 ^ 63 - 1).

(** [push_val] of an address: its bytes in memory order. *)
Definition push_val (v : Z) : list Z :=
  [u8 v; u8 (Z.shiftr v 8); u8 (Z.shiftr v 16); u8 (Z.shiftr v 24)].

(** The variables of the loop: the queue, the address, the bytes of [inst_buf] in
    use, and [buf] once something was read into it. *)
Record loader := mk_loader { vec : list Z; addr : Z; inst_buf : list Z; buf : option (list ascii) }.

(** [fscanf(f, "%s", buf)]: 256 bytes with the terminator; at the end of the file
    [buf] keeps its contents. *)
Definition scan (f : list ascii) (l : loader) : outcome (list ascii * list ascii) :=
  match skipws f with
  | [] => b ← or_undef (buf l); Done (b, [])
  | s => let r := word s in if Z.of_nat (length r.1) <? 256 then Done r else Undef
  end.

(** The bytes of a write command. *)
Definition command (a : Z) (bytes : list Z) : list Z := [119] ++ push_val (u32 a) ++ bytes ++ [10].

Definition push_byte (w : list ascii) (l : loader) : outcome loader :=
  let bytes := inst_buf l ++ [u8 (strtol16 w)] in
  if Nat.eqb (length bytes) 4 then
    if addr l + 4 <? 2 ^ 31
    then Done (mk_loader (vec l ++ command (addr l) bytes) (addr l + 4) [] (Some w))
    else Undef
  else Done (mk_loader (vec l) (addr l) bytes (Some w)).

Section Load.
(** Whether the assertions are compiled out. *)
Variable ndebug : bool.

Definition finish (l : loader) : outcome (list Z) :=
  match inst_buf l with [] => Done (vec l) | _ => if ndebug then Done (vec l) else Exit 134 end.

(** The loop; every round reads at least one character. *)
Fixpoint load (fuel : nat) (f : list ascii) (l : loader) : outcome (list Z) :=
  match fuel with
  | O => Stuck
  | S fuel' =>
      match f with
      | [] => finish l
      | c0 :: f0 =>
          if is_EOF c0 then finish l
          else
            match (if isspace c0 then skipws f0 else f) with
            | [] => finish l
            | c :: f1 =>
                if is_EOF c then finish l
                else if bool_decide (c = "@") then
                  '(w, f2) ← scan f1 l;
                  load fuel' f2 (mk_loader (vec l) (s32 (strtol16 w)) (inst_buf l) (Some w))
                else
                  '(w, f2) ← scan (c :: f1) l; l' ← push_byte w l; load fuel' f2 l'
            end
      end
  end.

Definition readMemFile2ChipkitDMA (q : list Z) (file : option (list ascii)) : outcome (list Z) :=
  match file with
  | Some f => load (S (length f)) f (mk_loader q 0 [] None)
  | None => Undef
  end.

End Load.

(** ** The loop ends *)

Lemma skipws_length s : (length (skipws s) <= length s)%nat.
Proof. induction s as [|c s IH]; cbn; [done|]. destruct (isspace c); cbn; lia. Qed.

Lemma word_length s : (length (word s).2 <= length s)%nat.
Proof. induction s as [|c s IH]; cbn; [done|]. destruct (isspace c); cbn; lia. Qed.

Lemma word_length_lt c s : isspace c = false -> (length (word (c :: s)).2 <= length s)%nat.
Proof. intros Hc. cbn. rewrite Hc. cbn. apply word_length. Qed.

Lemma skipws_head s c s' : skipws s = c :: s' -> isspace c = false.
Proof. induction s as [|x s IH]; cbn; [done|]. destruct (isspace x) eqn:E; [done|]. by intros [= <- _]. Qed.

Lemma skipws_word c s : isspace c = false -> skipws (c :: s) = c :: s.
Proof. intros Hc. cbn. by rewrite Hc. Qed.

Lemma scan_length f l w f2 : scan f l = Done (w, f2) -> (length f2 <= length f)%nat.
Proof.
  unfold scan. pose proof (skipws_length f) as Hs. destruct (skipws f) as [|c s] eqn:E.
  - intros (b & _ & [= <- <-])%bind_Done. cbn. lia.
  - pose proof (word_length (c :: s)) as Hw. destruct (word (c :: s)) as [w' r']. destruct (_ <? _); [|done].
    intros [= <- <-]. cbn in *. lia.
Qed.

Lemma scan_shorter c f l w f2 : isspace c = false -> scan (c :: f) l = Done (w, f2) -> (length f2 <= length f)%nat.
Proof.
  intros Hc. unfold scan. rewrite skipws_word by done. pose proof (word_length_lt c f Hc) as Hw.
  destruct (word (c :: f)) as [w' r']. destruct (_ <? _); [|done]. by intros [= <- <-].
Qed.

(** The first character of a round, and what follows it. *)
Lemma first_char c0 (f0 : list ascii) c f1 :
  (if isspace c0 then skipws f0 else c0 :: f0) = c :: f1 -> isspace c = false /\ (length f1 <= length f0)%nat.
Proof.
  destruct (isspace c0) eqn:E.
  - intros H. split; [by eapply skipws_head|]. pose proof (skipws_length f0). rewrite H in *. cbn in *. lia.
  - by intros [= <- <-].
Qed.

Lemma load_not_stuck nd fuel : forall f l, (length f < fuel)%nat -> load nd fuel f l <> Stuck.
Proof.
  assert (forall l, finish nd l <> Stuck) as Hf by (intros l; unfold finish; destruct (inst_buf l), nd; done).
  induction fuel as [|fuel IH]; intros f l Hl; [lia|]. cbn [load]. destruct f as [|c0 f0]; [done|].
  destruct (is_EOF c0); [done|]. destruct (if isspace c0 then _ else _) as [|c f1] eqn:E; [done|].
  destruct (first_char c0 f0 c f1 E) as [Hc Hf1]. cbn in Hl. destruct (is_EOF c); [done|]. case_bool_decide.
  - destruct (scan f1 l) as [[w f2]| | | |] eqn:Es; cbn [mbind outcome_bind]; try done.
    + apply IH. apply scan_length in Es. lia.
    + unfold scan in Es. destruct (skipws f1); [by destruct (buf l)|by destruct (_ <? _)].
  - destruct (scan (c :: f1) l) as [[w f2]| | | |] eqn:Es; cbn [mbind outcome_bind]; try done.
    + unfold push_byte. destruct (Nat.eqb _ 4); [destruct (_ <? _)|]; cbn [mbind outcome_bind]; try done;
        apply IH; apply scan_shorter in Es; (done || lia).
    + unfold scan in Es. destruct (skipws (c :: f1)); [by destruct (buf l)|by destruct (_ <? _)].
Qed.

(** More fuel changes nothing. *)
Lemma load_more nd fuel : forall f l m, (fuel <= m)%nat -> load nd fuel f l <> Stuck -> load nd m f l = load nd fuel f l.
Proof.
  induction fuel as [|fuel IH]; intros f l m Hm Hs; [done|]. destruct m as [|m]; [lia|]. cbn [load] in Hs |- *.
  destruct f as [|c0 f0]; [done|]. destruct (is_EOF c0); [done|].
  destruct (if isspace c0 then _ else _) as [|c f1]; [done|]. destruct (is_EOF c); [done|]. case_bool_decide.
  - destruct (scan f1 l) as [[w f2]| | | |]; try done. cbn [mbind outcome_bind] in *. apply IH; [lia|done].
  - destruct (scan (c :: f1) l) as [[w f2]| | | |]; try done. cbn [mbind outcome_bind] in *.
    destruct (push_byte w l) as [l'| | | |]; try done. cbn [mbind outcome_bind] in *. apply IH; [lia|done].
Qed.

Lemma load_enough nd n f l r : load nd n f l = Done r -> load nd (S (length f)) f l = Done r.
Proof.
  intros Hn. rewrite <- Hn. destruct (decide (n <= S (length f))%nat).
  - apply load_more; [done|]. by rewrite Hn.
  - symmetry. apply load_more; [lia|]. apply load_not_stuck. lia.
Qed.

(** ** Images as a linker writes them *)

Definition digit_upper (d : Z) : ascii := ascii_of_nat (Z.to_nat (if d <? 10 then 48 + d else 55 + d)).

(** [n] hexadecimal digits. *)
Fixpoint hexn (n : nat) (v : Z) : list ascii :=
  match n with O => [] | S n' => hexn n' (v / 16) ++ [digit_upper (v mod 16)] end.

Definition newline : ascii := ascii_of_nat 10.
Definition byte_text (b : Z) : list ascii := hexn 2 b ++ [" "].

(** A section of an image: its address and its words of four bytes. *)
Record section := mk_section { base : Z; words : list (Z * Z * Z * Z) }.
Definition word_bytes (w : Z * Z * Z * Z) : list Z := let '(a, b, c, d) := w in [a; b; c; d].
Definition word_text (w : Z * Z * Z * Z) : list ascii := concat (map byte_text (word_bytes w)).
Definition section_text (s : section) : list ascii :=
  "@" :: hexn 8 (base s) ++ newline :: concat (map word_text (words s)) ++ [newline].
Definition image_text (i : list section) : list ascii := concat (map section_text i).

(** The commands that write an image. *)
Fixpoint word_commands (a : Z) (ws : list (Z * Z * Z * Z)) : list Z :=
  match ws with [] => [] | w :: ws' => command a (word_bytes w) ++ word_commands (a + 4) ws' end.
Definition image_commands (i : list section) : list Z := concat (map (fun s => word_commands (base s) (words s)) i).

(** Bytes are bytes, and no address leaves the half of the address space its
    section starts in. *)
Definition section_ok (s : section) : Prop :=
  0 <= base s < 2 ^ 32 /\ s32 (base s) + 4 * Z.of_nat (length (words s)) < 2 ^ 31 /\
  Forall (fun w => Forall (fun b => 0 <= b < 256) (word_bytes w)) (words s).

Definition upper_ok (d : Z) : bool :=
  let c := digit_upper d in
  (digit_value c =? d) && negb (isspace c) && negb (is_EOF c) &&
  negb (bool_decide (c = "-")) && negb (bool_decide (c = "+")) && negb (bool_decide (c = "@")).

Lemma digit_upper_ok d : 0 <= d < 16 ->
  digit_value (digit_upper d) = d /\ isspace (digit_upper d) = false /\ is_EOF (digit_upper d) = false /\
  digit_upper d <> "-" /\ digit_upper d <> "+" /\ digit_upper d <> "@".
Proof.
  intros Hd. assert (upper_ok d = true) as H.
  { apply (zrange_forallb upper_ok 0 16); [vm_compute; reflexivity|lia]. }
  unfold upper_ok in H. zb. repeat match goal with H : bool_decide _ = false |- _ => apply bool_decide_eq_false in H end. done.
Qed.

Lemma digits_hexn n : forall v s, 0 <= v < 16 ^ Z.of_nat n -> digits 16 0 (hexn n v ++ s) = digits 16 v s.
Proof.
  induction n as [|n IH]; intros v s Hv; [cbn in Hv; by replace v with 0 by lia|]. cbn [hexn].
  rewrite Nat2Z.inj_succ, Z.pow_succ_r in Hv by lia. pose proof (Z.mod_pos_bound v 16).
  rewrite <- app_assoc, IH by (split; [apply Z.div_pos|apply Z.div_lt_upper_bound]; lia).
  cbn. destruct (digit_upper_ok (v mod 16)) as [-> _]; [lia|]. rewrite (proj2 (Z.ltb_lt _ _)) by lia.
  f_equal. pose proof (Z.div_mod v 16). lia.
Qed.

Lemma length_hexn n : forall v, length (hexn n v) = n.
Proof. induction n as [|n IH]; intros v; [done|]. cbn [hexn]. rewrite length_app, IH. cbn. lia. Qed.

(** The characters of a number. *)
Definition hex_digit (c : ascii) : Prop := exists d, c = digit_upper d /\ 0 <= d < 16.

Lemma hexn_digits n : forall v, Forall hex_digit (hexn n v).
Proof.
  induction n as [|n IH]; intros v; cbn [hexn]; [constructor|]. apply Forall_app. split; [done|]. repeat constructor.
  exists (v mod 16). split; [done|]. by apply Z.mod_pos_bound.
Qed.

Lemma hex_prefix_digits c1 c2 s : digit_value c2 < 16 -> hex_prefix 16 (c1 :: c2 :: s) = c1 :: c2 :: s.
Proof. intros H. unfold hex_prefix. repeat case_match; subst; try done; cbn in H; lia. Qed.

Lemma strtol_hexn n v : (2 <= n)%nat -> 0 <= v < 16 ^ Z.of_nat n -> v < 2 ^ 63 -> strtol16 (hexn n v) = v.
Proof.
  intros Hn Hv Hm. pose proof (digits_hexn n v [] Hv) as Hd. rewrite app_nil_r in Hd.
  pose proof (length_hexn n v) as Hl. pose proof (hexn_digits n v) as Hf. unfold strtol16.
  destruct (hexn n v) as [|c1 [|c2 u]]; cbn in Hl; try lia. inversion Hf as [|? ? (d1 & -> & H1) Hf2]; subst.
  inversion Hf2 as [|? ? (d2 & -> & H2) _]; subst.
  destruct (digit_upper_ok d1 H1) as (_ & _ & _ & Hm1 & Hm2 & _). destruct (digit_upper_ok d2 H2) as (Hv2 & _).
  rewrite sign_digit by done. cbn [fst snd]. rewrite hex_prefix_digits by lia. rewrite Hd. cbn [digits fst]. lia.
Qed.

Lemma hexn_no_space n v : forallb (fun c => negb (isspace c)) (hexn n v) = true.
Proof.
  apply forallb_forall. intros c Hc%list_elem_of_In. destruct (proj1 (Forall_forall _ _) (hexn_digits n v) c Hc) as (d & -> & Hd).
  by destruct (digit_upper_ok d Hd) as (_ & -> & _).
Qed.

(** Reading a number of [n] digits. *)
Lemma scan_hexn n v s l : (2 <= n < 256)%nat -> ends s -> scan (hexn n v ++ s) l = Done (hexn n v, s).
Proof.
  intros Hn Hs. unfold scan. pose proof (length_hexn n v) as Hl. pose proof (hexn_digits n v) as Hf.
  assert (skipws (hexn n v ++ s) = hexn n v ++ s) as Ek.
  { destruct (hexn n v) as [|c u]; cbn in Hl; [lia|]. inversion Hf as [|? ? (d & -> & Hd) _]; subst.
    apply skipws_word. by destruct (digit_upper_ok d Hd) as (_ & ? & _). }
  rewrite Ek. destruct (hexn n v ++ s) as [|c u] eqn:E; [apply app_eq_nil in E as [E _]; rewrite E in Hl; cbn in Hl; lia|].
  rewrite <- E, word_app by (done || apply hexn_no_space). cbn [fst]. by rewrite Hl, (proj2 (Z.ltb_lt _ _)) by lia.
Qed.

(** A round of the loop depends on what follows the spaces. *)
Lemma load_round nd fuel f l : load nd (S fuel) f l =
  match skipws f with
  | [] => finish nd l
  | c :: f1 =>
      if is_EOF c then finish nd l
      else if bool_decide (c = "@") then
        '(w, f2) ← scan f1 l; load nd fuel f2 (mk_loader (vec l) (s32 (strtol16 w)) (inst_buf l) (Some w))
      else '(w, f2) ← scan (c :: f1) l; l' ← push_byte w l; load nd fuel f2 l'
  end.
Proof.
  destruct f as [|c0 f0]; [done|]. cbn [load skipws]. destruct (isspace c0) eqn:E.
  - assert (is_EOF c0 = false) as ->; [|done]. unfold isspace, is_EOF, code in *. apply Z.eqb_neq.
    apply orb_prop in E as [E|E]; zb; lia.
  - by destruct (is_EOF c0).
Qed.

Lemma skipws_spaces sp f : forallb isspace sp = true -> skipws (sp ++ f) = skipws f.
Proof. induction sp as [|c sp IH]; cbn; [done|]. by intros [-> ?]%andb_prop; apply IH. Qed.

Lemma load_skip nd fuel sp f l : forallb isspace sp = true -> load nd fuel (sp ++ f) l = load nd fuel f l.
Proof. intros H. destruct fuel; [done|]. by rewrite !load_round, skipws_spaces. Qed.

Lemma load_newline nd fuel f l : load nd fuel (newline :: f) l = load nd fuel f l.
Proof. by apply (load_skip nd fuel [newline]). Qed.

(** A byte, and an address. *)
Lemma load_byte nd fuel b s l : 0 <= b < 256 -> 
  load nd (S fuel) (byte_text b ++ s) l =
  (l' ← (let bytes := inst_buf l ++ [b] in
     if Nat.eqb (length bytes) 4 then
       if addr l + 4 <? 2 ^ 31
       then Done (mk_loader (vec l ++ command (addr l) bytes) (addr l + 4) [] (Some (hexn 2 b)))
       else Undef
     else Done (mk_loader (vec l) (addr l) bytes (Some (hexn 2 b))));
   load nd fuel s l').
Proof.
  intros Hb. unfold byte_text. rewrite <- app_assoc. rewrite load_round.
  pose proof (scan_hexn 2 b ([" "] ++ s) l ltac:(lia) eq_refl) as Hs.
  pose proof (strtol_hexn 2 b ltac:(lia) ltac:(cbn; lia) ltac:(lia)) as Hv.
  pose proof (hexn_digits 2 b) as Hf. destruct (hexn 2 b) as [|c u] eqn:E; [by pose proof (length_hexn 2 b) as Hl; rewrite E in Hl|].
  apply Forall_cons_1 in Hf as [(d & -> & Hd) _]. destruct (digit_upper_ok d Hd) as (_ & Hsp & He & _ & _ & Hat).
  cbn [app] in Hs |- *. rewrite skipws_word, He, bool_decide_false, Hs by done. cbn [mbind outcome_bind].
  unfold push_byte. rewrite Hv, u8_small by done.
  destruct (Nat.eqb _ 4); [destruct (_ <? _)|]; cbn [mbind outcome_bind]; try done; by apply (load_skip nd fuel [" "]).
Qed.

Lemma load_word nd fuel w s l :
  Forall (fun b => 0 <= b < 256) (word_bytes w) -> inst_buf l = [] -> addr l + 4 < 2 ^ 31 ->
  exists b, load nd (4 + fuel) (word_text w ++ s) l =
    load nd fuel s (mk_loader (vec l ++ command (addr l) (word_bytes w)) (addr l + 4) [] b).
Proof.
  destruct w as [[[b0 b1] b2] b3]. cbn [word_bytes]. intros Hb Hi Ha.
  inversion Hb as [|? ? H0 Hb1]; subst. inversion Hb1 as [|? ? H1 Hb2]; subst.
  inversion Hb2 as [|? ? H2 Hb3]; subst. inversion Hb3 as [|? ? H3 _]; subst.
  exists (Some (hexn 2 b3)). unfold word_text. cbn [word_bytes map concat]. rewrite app_nil_r, <- !app_assoc.
  do 4 (cbn [Nat.add]; rewrite load_byte by done; cbn [inst_buf addr vec]; rewrite ?Hi; cbn [app length Nat.eqb];
    cbn [mbind outcome_bind]).
  by rewrite (proj2 (Z.ltb_lt _ _)) by lia.
Qed.

(** [push_val] sees an address modulo [2 ^ 32]. *)
Lemma u32_s32 a k : u32 (s32 a + k) = u32 (a + k).
Proof.
  unfold u32, s32, swrap, wrapw. change (32 - 1) with 31.
  replace ((a + 2 ^ 31) mod 2 ^ 32 - 2 ^ 31 + k) with ((a + 2 ^ 31) mod 2 ^ 32 + (k - 2 ^ 31)) by lia.
  rewrite Zplus_mod_idemp_l. f_equal. lia.
Qed.

Lemma load_words nd ws : forall fuel a k s v b,
  Forall (fun w => Forall (fun x => 0 <= x < 256) (word_bytes w)) ws -> s32 a + k + 4 * Z.of_nat (length ws) < 2 ^ 31 ->
  exists b' a', load nd (4 * length ws + fuel) (concat (map word_text ws) ++ s) (mk_loader v (s32 a + k) [] b) =
    load nd fuel s (mk_loader (v ++ word_commands (a + k) ws) a' [] b').
Proof.
  induction ws as [|w ws IH]; intros fuel a k s v b Hw Ha.
  - exists b, (s32 a + k). cbn. by rewrite app_nil_r.
  - apply Forall_cons_1 in Hw as [Hw Hws]. cbn [length] in Ha. cbn [map concat]. rewrite <- app_assoc.
    replace (4 * length (w :: ws) + fuel)%nat with (4 + (4 * length ws + fuel))%nat by (cbn; lia).
    destruct (load_word nd (4 * length ws + fuel) w (concat (map word_text ws) ++ s) (mk_loader v (s32 a + k) [] b))
      as [b1 ->]; [done|done|cbn; lia|]. cbn [vec addr]. rewrite <- Z.add_assoc.
    destruct (IH fuel a (k + 4) s (v ++ command (s32 a + k) (word_bytes w)) b1 Hws) as (b' & a' & E); [lia|].
    rewrite E. exists b', a'. cbn [word_commands]. rewrite <- app_assoc, Z.add_assoc. unfold command at 1. by rewrite u32_s32.
Qed.

Definition rounds (i : list section) : nat := sum_list (map (fun s => S (4 * length (words s))) i).

Lemma load_section nd sec fuel s v a b : section_ok sec ->
  exists b' a', load nd (S (4 * length (words sec) + fuel)) (section_text sec ++ s) (mk_loader v a [] b) =
    load nd fuel s (mk_loader (v ++ word_commands (base sec) (words sec)) a' [] b').
Proof.
  intros (Hb & Hr & Hw). unfold section_text. rewrite load_round. cbn [app].
  rewrite skipws_word by done. change (is_EOF "@") with false. rewrite bool_decide_true by done. rewrite <- app_assoc.
  rewrite scan_hexn by (done || lia). cbn [mbind outcome_bind vec inst_buf].
  rewrite strtol_hexn by (cbn; lia). cbn [app].
  rewrite load_newline, <- app_assoc.
  destruct (load_words nd (words sec) fuel (base sec) 0 ([newline] ++ s) v (Some (hexn 8 (base sec))) Hw) as (b' & a' & E); [lia|].
  rewrite !Z.add_0_r in E. rewrite E. exists b', a'. by apply (load_skip nd fuel [newline]).
Qed.

Lemma load_image nd i : forall v a b, Forall section_ok i ->
  load nd (rounds i + 1) (image_text i) (mk_loader v a [] b) = Done (v ++ image_commands i).
Proof.
  induction i as [|sec i IH]; intros v a b Hi; [cbn; by rewrite app_nil_r|]. apply Forall_cons_1 in Hi as [Hs Hi].
  change (image_text (sec :: i)) with (section_text sec ++ image_text i).
  change (image_commands (sec :: i)) with (word_commands (base sec) (words sec) ++ image_commands i).
  destruct (load_section nd sec (rounds i + 1) (image_text i) v a b Hs) as (b' & a' & E).
  replace (rounds (sec :: i) + 1)%nat with (S (4 * length (words sec) + (rounds i + 1))) by (unfold rounds; cbn; lia).
  rewrite E, IH by done. by rewrite app_assoc.
Qed.

(** Loading an image as a linker writes it (eight digits of address after
    [@], bytes of two digits, whole words) queues, after what was queued before,
    one write command for each word in order, with its address and its bytes. *)
Theorem image_is_loaded nd q i :
  Forall section_ok i -> readMemFile2ChipkitDMA nd q (Some (image_text i)) = Done (q ++ image_commands i).
Proof. intros Hi. apply (load_enough nd (rounds i + 1)). by apply load_image. Qed.

Definition demo_image : list section :=
  [mk_section 64 [(1, 2, 3, 4); (171, 205, 239, 0)]; mk_section 4294967288 [(9, 8, 7, 6)]].

Lemma image_is_loaded_witness :
  readMemFile2ChipkitDMA false [7] (Some (image_text demo_image)) =
  Done ([7] ++ [119; 64; 0; 0; 0; 1; 2; 3; 4; 10] ++ [119; 68; 0; 0; 0; 171; 205; 239; 0; 10] ++
        [119; 248; 255; 255; 255; 9; 8; 7; 6; 10]).
Proof.
  apply (image_is_loaded false [7] demo_image). repeat constructor; cbn; lia.
Defined.

(** A section that does not end with a whole word is not rejected when
    another follows: its last bytes are written at the address of that section,
    as the beginning of its first word. *)
Theorem partial_word_moves nd q a :
  0 <= a < 2 ^ 31 - 4 ->
  readMemFile2ChipkitDMA nd q
    (Some ("@" :: hexn 8 0 ++ newline :: byte_text 1 ++ byte_text 2 ++ newline ::
           "@" :: hexn 8 a ++ newline :: byte_text 3 ++ byte_text 4 ++ [newline])) =
  Done (q ++ command a [1; 2; 3; 4]).
Proof.
  intros Ha. apply (load_enough nd 7).
  rewrite load_round, skipws_word by done. change (is_EOF "@") with false. rewrite bool_decide_true by done.
  rewrite scan_hexn by (done || lia). cbn [mbind outcome_bind vec inst_buf].
  rewrite load_newline. do 2 (rewrite load_byte by lia; cbn [inst_buf addr vec app length Nat.eqb]; cbn [mbind outcome_bind]).
  rewrite load_newline.
  rewrite load_round, skipws_word by done. change (is_EOF "@") with false. rewrite bool_decide_true by done.
  rewrite scan_hexn by (done || lia). cbn [mbind outcome_bind vec inst_buf].
  rewrite strtol_hexn by (cbn; lia). rewrite s32_small by lia.
  rewrite load_newline. do 2 (rewrite load_byte by lia; cbn [inst_buf addr vec app length Nat.eqb]; cbn [mbind outcome_bind]).
  by rewrite (proj2 (Z.ltb_lt _ _)) by lia.
Qed.

Lemma partial_word_moves_witness :
  readMemFile2ChipkitDMA false []
    (Some ("@" :: hexn 8 0 ++ newline :: byte_text 1 ++ byte_text 2 ++ newline ::
           "@" :: hexn 8 256 ++ newline :: byte_text 3 ++ byte_text 4 ++ [newline])) =
  Done [119; 0; 1; 0; 0; 1; 2; 3; 4; 10].
Proof. apply (partial_word_moves false [] 256). lia. Defined.

End Image.
