(* ===== verification/DataServer.v ===== *)
(** * The data server

    The daemon's memory thread: [address_translator] and the request loop
    [data_server_f] of [runtime/src/core/data_server.cc] and
    [runtime/include/core/data_server.h], with the requests that
    [fpga_handle_t::malloc], [free], [copy_to_fpga] and [copy_from_fpga] of
    [libbeethoven/src/fpga_handle_impl/fpga_handle_discrete.cc] write into the
    shared [data_server_file].

    The server works against an allocator through the class
    [MemAllocator], which states what the server relies on; the device
    allocator is an instance.  The host address of a new mapping and the random
    numbers that cut a DMA transfer into pieces come from the operating system
    and the C library: they are arguments. *)

From S2P Require Import Prelude RoccCmd RuntimeIpc DeviceAllocator.
Import Ipc.

Module DataServer.

(** [address_translator::addr_pair]. *)
Record addr_pair := mk_pair {
  fpga_addr : Z;        (* uint64_t *)
  mapping_length : Z;   (* uint64_t *)
  cpu_addr : Z          (* void * *)
}.

(** [std::set<addr_pair>]: increasing in [fpga_addr]. *)
Definition mappings := list addr_pair.

Definition contains (fp : Z) (m : addr_pair) : bool :=
  (fpga_addr m <=? fp) && (u64 (fpga_addr m + mapping_length m) >? fp).

(** [translate]; the build that does not end the simulation instead. *)
Fixpoint translate (ms : mappings) (fp : Z) : outcome Z :=
  match ms with
  | [] => Throw
  | m :: ms' =>
      if contains fp m then
        if u64 (fpga_addr m + mapping_length m) <=? fp then Throw
        else Done (cpu_addr m + (fp - fpga_addr m))
      else translate ms' fp
  end.

(** [mappings.emplace]: nothing happens when the key is there. *)
Fixpoint add_mapping (p : addr_pair) (ms : mappings) : mappings :=
  match ms with
  | [] => [p]
  | m :: ms' =>
      if fpga_addr p <? fpga_addr m then p :: ms
      else if fpga_addr p =? fpga_addr m then ms
      else m :: add_mapping p ms'
  end.

(** [remove_mapping]. *)
Fixpoint remove_mapping (a : Z) (ms : mappings) : outcome mappings :=
  match ms with
  | [] => Throw
  | m :: ms' =>
      if fpga_addr m =? a then Done ms'
      else ms'' ← remove_mapping a ms'; Done (m :: ms'')
  end.

(** [get_mapping]. *)
Fixpoint get_mapping (a : Z) (ms : mappings) : outcome (Z * Z) :=
  match ms with
  | [] => Throw
  | m :: ms' => if fpga_addr m =? a then Done (cpu_addr m, mapping_length m)
                else get_mapping a ms'
  end.

(** What the server needs from an allocator of device memory: the regions it
    has handed out are known, and a new one does not meet them. *)
Class MemAllocator (A : Type) := {
  mem_malloc : A -> Z -> outcome (Z * A);
  mem_free : A -> Z -> outcome A;
  mem_inv : A -> list (Z * Z) -> Prop;
  mem_malloc_spec a live len p a' :
    mem_inv a live -> 0 <= len < 2 ^ 64 -> mem_malloc a len = Done (p, a') ->
    exists sz, len <= sz /\ 0 < sz /\ 0 <= p /\ p + sz < 2 ^ 64 /\
      Forall (Alloc.disj (p, sz)) live /\ mem_inv a' ((p, sz) :: live)
}.

(** One piece of a DMA transfer as it is handed to the simulator. *)
Record dma_request := mk_dma {
  dma_ptr : Z;
  dma_fpga_addr : Z;
  dma_len : Z;
  dma_write : bool
}.

(** The loops of [MOVE_FROM_FPGA] and [MOVE_TO_FPGA] in the simulator with DMA:
    [rand()] is taken modulo the beats that are left, capped at 64. *)
Fixpoint dma_loop (fuel : nat) (rands : list Z) (wr : bool) (ptr1 ptr2 amt_left : Z)
    : outcome (list dma_request) :=
  if amt_left =? 0 then Done []
  else match fuel, rands with
  | S fuel', r :: rands' =>
      let lim := Z.min 64 (Z.shiftr amt_left 6) in
      if lim =? 0 then Undef
      else
        let n := Z.max 1 (r mod lim) in
        rest ← dma_loop fuel' rands' wr (ptr1 + 64 * n) (u64 (ptr2 + 64 * n))
                 (u64 (amt_left - n * 64));
        Done (mk_dma ptr1 ptr2 (64 * n) wr :: rest)
  | _, _ => Stuck
  end.

Section server.
Context {A : Type} `{MemAllocator A}.

Record state := mk_state {
  allocator : A;
  at_ : mappings
}.

Definition set_reply (v : Z) (name : list Z) (f : data_server_file) : data_server_file :=
  mk_dsf (ds_server_mut f) (data_cmd_send_lock f) (data_cmd_recieve_resp_lock f) name
    (resp_id f) (operation f) v (op2_argument f) (op3_argument f) (is_simulation f).

(** One round of the request loop with the custom allocator, in the simulator
    with DMA: the reply goes into the shared file, DMA requests come out.
    [naddr] is the address [mmap] returned, [name] the name of the new shared
    file; the failures of [shm_open] and [ftruncate] that throw are [None]. *)
Definition serve (naddr : option Z) (name : list Z) (fuel : nat) (rands : list Z)
    (f : data_server_file) (s : state) : outcome (data_server_file * state * list dma_request) :=
  match operation f with
  | ALLOC =>
      match naddr with
      | None => Throw
      | Some h =>
          if h =? 0 then Throw
          else
            '(fp, al) ← mem_malloc (allocator s) (op_argument f);
            Done (set_reply fp name f,
                  mk_state al (add_mapping (mk_pair fp (op_argument f) h) (at_ s)), [])
      end
  | FREE =>
      al ← mem_free (allocator s) (op_argument f);
      _ ← get_mapping (op_argument f) (at_ s);
      ms ← remove_mapping (op_argument f) (at_ s);
      Done (f, mk_state al ms, [])
  | MOVE_FROM_FPGA =>
      p ← translate (at_ s) (op2_argument f);
      ds ← dma_loop fuel rands false p (op2_argument f) (op3_argument f);
      Done (f, s, ds)
  | MOVE_TO_FPGA =>
      p ← translate (at_ s) (op_argument f);
      ds ← dma_loop fuel rands true p (op_argument f) (op3_argument f);
      Done (f, s, ds)
  end.

(** The requests of the client library: what each writes into the file. *)
Definition request_malloc (len : Z) (f : data_server_file) : data_server_file :=
  mk_dsf (ds_server_mut f) (data_cmd_send_lock f) (data_cmd_recieve_resp_lock f) (fname f)
    (resp_id f) ALLOC len (op2_argument f) (op3_argument f) (is_simulation f).
Definition request_free (a : Z) (f : data_server_file) : data_server_file :=
  mk_dsf (ds_server_mut f) (data_cmd_send_lock f) (data_cmd_recieve_resp_lock f) (fname f)
    (resp_id f) FREE a (op2_argument f) (op3_argument f) (is_simulation f).
Definition request_copy_to (a len : Z) (f : data_server_file) : data_server_file :=
  mk_dsf (ds_server_mut f) (data_cmd_send_lock f) (data_cmd_recieve_resp_lock f) (fname f)
    (resp_id f) MOVE_TO_FPGA a (op2_argument f) len (is_simulation f).
Definition request_copy_from (a len : Z) (f : data_server_file) : data_server_file :=
  mk_dsf (ds_server_mut f) (data_cmd_send_lock f) (data_cmd_recieve_resp_lock f) (fname f)
    (resp_id f) MOVE_FROM_FPGA (op_argument f) a len (is_simulation f).

(** A sequence of allocations: lengths with the host addresses [mmap] gave. *)
Fixpoint alloc_all (reqs : list (Z * Z)) (f : data_server_file) (s : state)
    : outcome (list Z * data_server_file * state) :=
  match reqs with
  | [] => Done ([], f, s)
  | (len, h) :: reqs' =>
      '(f', s', _) ← serve (Some h) [] 0 [] (request_malloc len f) s;
      '(ps, f'', s'') ← alloc_all reqs' f' s';
      Done (op_argument f' :: ps, f'', s'')
  end.

End server.
Arguments state A : clear implicits.

(** ** The device allocator as an instance *)

Section device_instance.
Variable ab : Z.
Hypothesis Hab : 2 ^ 21 <= ab <= 2 ^ 32.

Lemma device_malloc_spec fuel a live len p a' :
  Alloc.inv ab a live -> 0 <= len < 2 ^ 64 -> Alloc.malloc ab fuel a len = Done (p, a') ->
  exists sz, len <= sz /\ 0 < sz /\ 0 <= p /\ p + sz < 2 ^ 64 /\
    Forall (Alloc.disj (p, sz)) live /\ Alloc.inv ab a' ((p, sz) :: live).
Proof using Hab.
  intros Hi Hl Hm. destruct (Alloc.malloc_step ab Hab _ _ _ _ _ _ Hi Hl Hm)
    as (Hd & H0 & Hend & _ & Hi').
  exists (Alloc.block_bytes len). pose proof (Alloc.block_bytes_ge len).
  pose proof (Alloc.num_superblocks_bounds ab Hab). rewrite Alloc.superblock_size_pow in Hend.
  assert (0 < Alloc.block_bytes len) by (apply Z.pow_pos_nonneg; lia).
  split_and!; try done; lia.
Qed.

End device_instance.

(** The sizes of device memory the allocator is correct for. *)
Class GoodSize (ab : Z) : Prop := good_size : 2 ^ 21 <= ab <= 2 ^ 32.
Definition device_mem (ab : Z) : Type := Alloc.device_allocator.

#[export] Instance device_mem_allocator (ab : Z) (Hab : GoodSize ab)
    : MemAllocator (device_mem ab) :=
  {| mem_malloc := Alloc.malloc ab 0;
     mem_free := Alloc.free ab;
     mem_inv := Alloc.inv ab;
     mem_malloc_spec := device_malloc_spec ab Hab 0 |}.

(** ** Lemmas on the address map *)

Definition key_lt (m n : addr_pair) : Prop := fpga_addr m < fpga_addr n.

Lemma elem_of_add_mapping p ms m :
  m ∈ add_mapping p ms -> m = p \/ m ∈ ms.
Proof.
  induction ms as [|n ms IH]; simpl.
  - intros ->%list_elem_of_singleton. auto.
  - repeat case_match; rewrite ?elem_of_cons in *; naive_solver.
Qed.

Lemma add_mapping_in p ms :
  (forall m, m ∈ ms -> fpga_addr m <> fpga_addr p) -> p ∈ add_mapping p ms.
Proof.
  induction ms as [|n ms IH]; simpl; intros Hne; [by left|]. repeat case_match; zb.
  - by left.
  - by destruct (Hne n ltac:(by left)).
  - right. apply IH. intros m Hm. apply Hne. by right.
Qed.

Lemma add_mapping_mono p ms m : m ∈ ms -> m ∈ add_mapping p ms.
Proof.
  induction ms as [|n ms IH]; simpl; [by intros ?%elem_of_nil|].
  repeat case_match; rewrite ?elem_of_cons in *; naive_solver.
Qed.

(** [translate] finds the mapping when no other one contains the address. *)
Lemma translate_unique ms m fp :
  m ∈ ms -> contains fp m = true ->
  (forall n, n ∈ ms -> contains fp n = true -> n = m) ->
  translate ms fp = Done (cpu_addr m + (fp - fpga_addr m)).
Proof.
  induction ms as [|n ms IH]; simpl; intros Hm Hc Hu; [by apply elem_of_nil in Hm|].
  destruct (contains fp n) eqn:E.
  - rewrite (Hu n) in * by (auto; by left). unfold contains in E. zb.
    destruct (_ <=? fp) eqn:E'; zb; [lia|done].
  - apply IH; [|done|].
    + apply elem_of_cons in Hm as [->|]; [congruence|done].
    + intros k Hk. apply Hu. by right.
Qed.

(** ** The map follows the allocator *)

Section refinement.
Context {A : Type} `{MemAllocator A}.

(** Each mapping belongs to a live region of the allocator and the regions do
    not meet. *)
Definition covered (live : list (Z * Z)) (m : addr_pair) : Prop :=
  exists sz, (fpga_addr m, sz) ∈ live /\ mapping_length m <= sz /\ 0 < sz /\
    0 <= fpga_addr m /\ fpga_addr m + sz < 2 ^ 64 /\ 0 <= mapping_length m.

Fixpoint pairwise (l : list (Z * Z)) : Prop :=
  match l with
  | [] => True
  | x :: l' => Forall (Alloc.disj x) l' /\ pairwise l'
  end.

Record ds_inv (s : state A) (live : list (Z * Z)) : Prop := {
  d_mem : mem_inv (allocator s) live;
  d_pair : pairwise live;
  d_cov : forall m, m ∈ at_ s -> covered live m;
  d_key : forall m n, m ∈ at_ s -> n ∈ at_ s -> fpga_addr m = fpga_addr n -> m = n
}.

Lemma pairwise_disj live x y : pairwise live -> x ∈ live -> y ∈ live -> x <> y ->
  Alloc.disj x y.
Proof.
  induction live as [|z live IH]; simpl; [by intros _ ?%elem_of_nil|].
  intros [Hz Hl] [->|Hx]%elem_of_cons [->|Hy]%elem_of_cons Hne; try done.
  - rewrite Forall_forall in Hz. by apply Hz.
  - rewrite Forall_forall in Hz. apply Alloc.disj_sym. by apply Hz.
  - by apply IH.
Qed.

(** Two mappings that contain one address are one. *)
Lemma contains_unique s live m n fp :
  ds_inv s live -> m ∈ at_ s -> n ∈ at_ s ->
  contains fp m = true -> contains fp n = true -> m = n.
Proof.
  intros [_ Hp Hc Hk] Hm Hn Em En. apply Hk; [done..|].
  destruct (Hc m Hm) as (sz & Hin & ? & ? & ? & ? & ?).
  destruct (Hc n Hn) as (sz' & Hin' & ? & ? & ? & ? & ?).
  unfold contains in *. zb. rewrite u64_small in * by lia.
  destruct (decide ((fpga_addr m, sz) = (fpga_addr n, sz'))) as [E|Hne]; [by simplify_eq|].
  destruct (pairwise_disj _ _ _ Hp Hin Hin' Hne); simpl in *; lia.
Qed.

Lemma serve_alloc s live len h nm fuel rs f f' s' ds :
  ds_inv s live -> 0 <= len < 2 ^ 64 ->
  serve (Some h) nm fuel rs (request_malloc len f) s = Done (f', s', ds) ->
  exists live', ds_inv s' live' /\ mk_pair (op_argument f') len h ∈ at_ s' /\
    (forall m, m ∈ at_ s -> m ∈ at_ s').
Proof.
  intros [Hm Hp Hc Hk] Hl Hs. unfold serve in Hs. simpl in Hs.
  destruct (h =? 0); [done|]. apply bind_Done in Hs as ([fp al] & Ha & Hs). simplify_eq. simpl.
  destruct (mem_malloc_spec _ _ _ _ _ Hm Hl Ha) as (sz & Hsz & Hpos & Hfp & Hend & Hd & Hm').
  assert (Hfresh : forall m, m ∈ at_ s -> fpga_addr m <> fp).
  { intros m Hin E. destruct (Hc m Hin) as (sz' & Hin' & ? & ? & ? & ? & ?).
    rewrite Forall_forall in Hd. destruct (Hd _ Hin'); simpl in *; lia. }
  exists ((fp, sz) :: live). split_and!; [split; simpl|..].
  - done.
  - done.
  - intros m [->|Hin]%elem_of_add_mapping.
    + exists sz. simpl. split; [by left|lia].
    + destruct (Hc m Hin) as (sz' & ? & ?). exists sz'. split; [by right|done].
  - intros m n [->|Hin]%elem_of_add_mapping [->|Hin']%elem_of_add_mapping E; try done.
    + by destruct (Hfresh n Hin').
    + by destruct (Hfresh m Hin).
    + by apply Hk.
  - by apply add_mapping_in.
  - intros m. apply add_mapping_mono.
Qed.

(** Every byte of a mapping translates to its place in the host. *)
Lemma mapped_translates s live p len h off :
  ds_inv s live -> mk_pair p len h ∈ at_ s -> 0 <= off < len -> translate (at_ s) (p + off) = Done (h + off).
Proof.
  intros Hi Hin Hoff. destruct (d_cov _ _ Hi _ Hin) as (sz & _ & ? & ? & ? & ? & ?). simpl in *.
  assert (Hc : contains (p + off) (mk_pair p len h) = true).
  { unfold contains. simpl. rewrite u64_small by lia. lia. }
  rewrite (translate_unique _ (mk_pair p len h)); [f_equal; simpl; lia|done|done|].
  intros n Hn En. by eapply contains_unique.
Qed.

Lemma empty_ds_inv (a : A) : mem_inv a [] -> ds_inv (mk_state a []) [].
Proof. intros Ha. split; simpl; try done; [by intros m ?%elem_of_nil|by intros m n ?%elem_of_nil]. Qed.

Lemma alloc_all_maps reqs f s live ps f' s' :
  ds_inv s live -> Forall (fun r => 0 <= r.1 < 2 ^ 64) reqs ->
  alloc_all reqs f s = Done (ps, f', s') ->
  exists live', ds_inv s' live' /\ (forall m, m ∈ at_ s -> m ∈ at_ s') /\
    forall i p len h, ps !! i = Some p -> reqs !! i = Some (len, h) ->
      mk_pair p len h ∈ at_ s'.
Proof.
  revert f s live ps. induction reqs as [|[len h] reqs IH]; intros f s live ps Hi Hall; simpl.
  { intros [= <- <- <-]. by exists live. }
  inversion Hall as [|? ? Hlen Hall']; subst. simpl in Hlen. intros Hs.
  apply bind_Done in Hs as ([[f1 s1] ds] & Hserve & Hs).
  apply bind_Done in Hs as ([[ps1 f2] s2] & Hrest & Hs). simplify_eq.
  destruct (serve_alloc _ _ _ _ _ _ _ _ _ _ _ Hi Hlen Hserve) as (live1 & Hi1 & Hin & Hmono).
  destruct (IH _ _ _ _ Hi1 Hall' Hrest) as (live2 & Hi2 & Hmono2 & Hps).
  exists live2. split_and!; [done|eauto|].
  intros [|i] p len' h' Hp Hq; simpl in *; simplify_eq; eauto.
Qed.

End refinement.

(** ** Lemmas on DMA transfers *)

(** Requests that follow each other from [p1], [p2] on and move [n] bytes. *)
Fixpoint contiguous (p1 p2 n : Z) (ds : list dma_request) : Prop :=
  match ds with
  | [] => n = 0
  | d :: ds' =>
      dma_ptr d = p1 /\ dma_fpga_addr d = p2 /\ 0 < dma_len d <= 4096 /\
      dma_len d mod 64 = 0 /\ contiguous (p1 + dma_len d) (p2 + dma_len d) (n - dma_len d) ds'
  end.

Lemma dma_loop_covers fuel rands wr p1 p2 k :
  0 <= k -> (Z.to_nat k <= fuel)%nat -> (Z.to_nat k <= length rands)%nat ->
  0 <= p2 -> p2 + 64 * k < 2 ^ 64 ->
  exists ds, dma_loop fuel rands wr p1 p2 (64 * k) = Done ds /\
    contiguous p1 p2 (64 * k) ds /\ Forall (fun d => dma_write d = wr) ds.
Proof.
  revert rands p1 p2 k. induction fuel as [|fuel IH]; intros rands p1 p2 k Hk Hf Hr Hp Hend.
  { assert (k = 0) as -> by lia. exists []. by destruct rands. }
  destruct (decide (k = 0)) as [->|Hnz]; [by exists []|].
  destruct rands as [|r rands]; [simpl in Hr; lia|]. simpl in Hr.
  cbn [dma_loop]. destruct (64 * k =? 0) eqn:E; zb; [lia|].
  assert (Hsh : Z.shiftr (64 * k) 6 = k).
  { rewrite Z.shiftr_div_pow2 by lia. change (2 ^ 6) with 64. rewrite Z.mul_comm.
    apply Z.div_mul. lia. }
  rewrite Hsh. destruct (Z.min 64 k =? 0) eqn:E0; zb; [lia|].
  pose proof (Z.mod_pos_bound r (Z.min 64 k)). set (n := Z.max 1 (r mod Z.min 64 k)).
  assert (Hn : 1 <= n <= 64 /\ n <= k) by lia.
  rewrite (u64_small (p2 + 64 * n)) by lia.
  replace (64 * k - n * 64) with (64 * (k - n)) by lia. rewrite (u64_small (64 * (k - n))) by lia.
  destruct (IH rands (p1 + 64 * n) (p2 + 64 * n) (k - n)) as (ds & -> & Hc & Hw); try lia.
  eexists. split; [done|]. split; [|by constructor]. simpl. split_and!; try done; try lia.
  - rewrite Z.mul_comm. apply Z.mod_mul. lia.
  - by replace (64 * k - 64 * n) with (64 * (k - n)) by lia.
Qed.

(** A length that is not a multiple of 64 ends in a remainder by zero. *)
Lemma dma_loop_undef fuel rands wr p1 p2 n :
  0 <= n < 2 ^ 64 -> n mod 64 <> 0 -> (Z.to_nat (n / 64) < fuel)%nat ->
  (Z.to_nat (n / 64) < length rands)%nat -> dma_loop fuel rands wr p1 p2 n = Undef.
Proof.
  revert rands p1 p2 n. induction fuel as [|fuel IH]; intros rands p1 p2 n Hn Hm Hf Hr; [lia|].
  destruct rands as [|r rands]; [simpl in Hr; lia|]. simpl in Hr.
  cbn [dma_loop]. destruct (n =? 0) eqn:E; zb; [by subst n|].
  rewrite Z.shiftr_div_pow2 by lia. change (2 ^ 6) with 64.
  pose proof (Z.div_mod n 64). pose proof (Z.mod_pos_bound n 64).
  destruct (Z.min 64 (n / 64) =? 0) eqn:E0; zb; [done|].
  assert (0 <= n / 64) by (apply Z.div_pos; lia).
  pose proof (Z.mod_pos_bound r (Z.min 64 (n / 64))).
  set (m := Z.max 1 (r mod Z.min 64 (n / 64))). assert (Hmm : 1 <= m <= n / 64) by lia.
  assert (Hu : u64 (n - m * 64) = n + (- m) * 64) by (rewrite u64_small by lia; lia).
  assert (Hdiv : (n + - m * 64) / 64 = n / 64 - m) by (rewrite Z.div_add by lia; lia).
  rewrite Hu, IH; [done|lia| |lia..]. by rewrite Z.mod_add by lia.
Qed.

(** ** Properties *)

(** After any sequence of allocations, every byte of every allocation
    translates to the byte at the same offset of its own host mapping: no
    allocation hides another one.  Stated for every allocator that keeps its
    regions apart. *)
Theorem translate_after_allocs {A} `{MemAllocator A} reqs f (a : A) ps f' s' i p len h off :
  mem_inv a [] -> Forall (fun r => 0 <= r.1 < 2 ^ 64) reqs ->
  alloc_all reqs f (mk_state a []) = Done (ps, f', s') ->
  ps !! i = Some p -> reqs !! i = Some (len, h) -> 0 <= off < len ->
  translate (at_ s') (p + off) = Done (h + off).
Proof.
  intros Ha Hall Hs Hp Hr Hoff.
  destruct (alloc_all_maps _ _ _ _ _ _ _ (empty_ds_inv a Ha) Hall Hs) as (live & Hi' & _ & Hmap).
  eapply mapped_translates; [done|by eapply Hmap|done].
Qed.

#[local] Instance good_32M : GoodSize (2 ^ 25).
Proof. unfold GoodSize. lia. Defined.
Definition demo_reqs : list (Z * Z) := [(5000, 1000000); (3000000, 2000000); (64, 9000000)].
Definition demo_file : data_server_file :=
  dsf_init (mk_dsf false false false [] 0 ALLOC 0 0 0 true).

Lemma translate_after_allocs_witness :
  exists ps f' s',
    alloc_all (A := device_mem (2 ^ 25)) demo_reqs demo_file
      (mk_state (Alloc.new_allocator (2 ^ 25)) []) = Done (ps, f', s') /\
    ps = [2088960; 2097152; 8384512] /\
    translate (at_ s') (2097152 + 12345) = Done (2000000 + 12345).
Proof.
  eexists _, _, _. split; [vm_compute; reflexivity|]. split; [reflexivity|].
  eapply (translate_after_allocs (A := device_mem (2 ^ 25)) demo_reqs demo_file
            (Alloc.new_allocator (2 ^ 25)) [2088960; 2097152; 8384512] _ _ 1 2097152 3000000);
    [apply Alloc.new_inv; lia|repeat constructor; simpl; lia|vm_compute; reflexivity
    |reflexivity|reflexivity|lia].
Defined.

(** A DMA transfer of whole 64-byte beats is cut, whatever [rand] returns,
    into at most as many pieces as there are beats, each a positive multiple of
    64 bytes and at most 4096, that cover the transfer from its start without a
    gap or an overlap. *)
Theorem dma_covers_transfer rands wr p1 p2 k :
  0 <= k -> (Z.to_nat k <= length rands)%nat -> 0 <= p2 -> p2 + 64 * k < 2 ^ 64 ->
  exists ds, dma_loop (Z.to_nat k) rands wr p1 p2 (64 * k) = Done ds /\
    contiguous p1 p2 (64 * k) ds /\ Forall (fun d => dma_write d = wr) ds.
Proof. intros. by apply dma_loop_covers. Qed.

Lemma dma_covers_transfer_witness :
  exists ds, dma_loop (Z.to_nat 5) [7; 7; 7; 7; 7] true 1000 4096 (64 * 5) = Done ds /\
    contiguous 1000 4096 (64 * 5) ds /\ Forall (fun d => dma_write d = true) ds.
Proof. apply (dma_covers_transfer [7; 7; 7; 7; 7] true 1000 4096 5); simpl; lia. Defined.

(** A transfer whose length is not a multiple of 64 bytes ends in a
    remainder by zero, whatever [rand] returns. *)
Theorem dma_partial_beat_undefined rands wr p1 p2 n :
  0 <= n < 2 ^ 64 -> n mod 64 <> 0 -> (Z.to_nat (n / 64) < length rands)%nat ->
  dma_loop (length rands) rands wr p1 p2 n = Undef.
Proof. intros. by apply dma_loop_undef. Qed.

Lemma dma_partial_beat_undefined_witness : dma_loop 3 [1; 2; 3] false 0 0 100 = Undef.
Proof.
  apply (dma_partial_beat_undefined [1; 2; 3] false 0 0 100);
    [lia|vm_compute; discriminate|vm_compute; lia].
Defined.

End DataServer.
