(* ===== verification/DataProtocol.v ===== *)
(** * The data server and its clients

    The protocol between [fpga_handle_t::malloc], [copy_to_fpga], [copy_from_fpga] and
    [free] of [libbeethoven/src/fpga_handle_impl/fpga_handle_discrete.cc] and the
    request loop of [runtime/src/core/data_server.cc]: any number of client threads
    and the server as one transition system over the shared [data_server_file].  A
    transition is a stretch of code between two blocking operations; a step that locks
    a mutex is enabled only while the mutex is free.  What the server does with a
    request is [serve] of [DataServer].

    The specification is the server without its protocol: requests executed one after
    the other. *)

From S2P Require Import Prelude RuntimeIpc DeviceAllocator DataServer.
Import Ipc DataServer.

Module DataProtocol.

#[local] Open Scope Z_scope.

(** The four calls of a client. *)
Inductive request :=
| RMalloc (len : Z)
| RFree (fpga_addr : Z)
| RCopyTo (fpga_addr len : Z)
| RCopyFrom (fpga_addr len : Z).

(** What each writes into the shared file. *)
Definition write_request (r : request) (f : data_server_file) : data_server_file :=
  match r with
  | RMalloc len => request_malloc len f
  | RFree a => request_free a f
  | RCopyTo a len => request_copy_to a len f
  | RCopyFrom a len => request_copy_from a len f
  end.

(** What the operating system and the C library answer while a request is served: the
    address of [mmap], the name of the new file, random numbers. *)
Record environment := mk_env {
  naddr : option Z;
  name : list Z;
  dma_fuel : nat;
  rands : list Z
}.

(** What [malloc] reads when its request was served: device address and file name; the
    other calls read nothing. *)
Definition reply : Type := option (Z * list Z).
Definition read_reply (r : request) (f : data_server_file) : reply :=
  match r with RMalloc _ => Some (op_argument f, fname f) | _ => None end.

(** Where a client is: outside, waiting for [data_cmd_send_lock], holding it, waiting
    for the answer, holding the answer, back with the result ([malloc] with the address
    that it mapped), or with the exception of [malloc] in flight. *)
Inductive client_pc :=
| CIdle
| CWant (r : request)
| CHold (r : request)
| CPosted (r : request)
| CAnswered (r : request)
| CReturned (r : request) (a : reply) (ptr : Z)
| CThrown (r : request).

(** The server: blocked on [server_mut], woken up, or ended by an exception. *)
Inductive server_pc := SWait | SGot | SDead.

Section Protocol.
Context {A : Type} `{MemAllocator A}.

(** One request as the server executed it. *)
Record served := mk_served {
  sv_client : nat;
  sv_request : request;
  sv_env : environment;
  sv_reply : reply
}.

(** The two histories are not part of the program: what the server executed, and what
    clients came back with. *)
Record sys := mk_sys {
  file : data_server_file;
  memory : state A;
  spc : server_pc;
  clients : list client_pc;
  log : list served;
  returns : list (nat * request * reply)
}.

Definition set_send_lock (b : bool) (f : data_server_file) : data_server_file :=
  mk_dsf (ds_server_mut f) b (data_cmd_recieve_resp_lock f) (fname f) (resp_id f) (operation f) (op_argument f)
    (op2_argument f) (op3_argument f) (is_simulation f).
Definition set_server_mut (b : bool) (f : data_server_file) : data_server_file :=
  mk_dsf b (data_cmd_send_lock f) (data_cmd_recieve_resp_lock f) (fname f) (resp_id f) (operation f) (op_argument f)
    (op2_argument f) (op3_argument f) (is_simulation f).
Definition set_recv_lock (b : bool) (f : data_server_file) : data_server_file :=
  mk_dsf (ds_server_mut f) (data_cmd_send_lock f) b (fname f) (resp_id f) (operation f) (op_argument f)
    (op2_argument f) (op3_argument f) (is_simulation f).

Definition with_client (s : sys) (f : data_server_file) (i : nat) (p : client_pc) : sys :=
  mk_sys f (memory s) (spc s) (<[i := p]> (clients s)) (log s) (returns s).

(** [data_server_f] up to its loop: the file is initialised and [server_mut] locked; a
    second lock blocks. *)
Definition boot (f : data_server_file) (m : state A) (n : nat) : sys :=
  mk_sys (set_server_mut true (dsf_init f)) m SWait (replicate n CIdle) [] [].

Inductive label :=
| LCall (i : nat) (r : request)
| LLockSend (i : nat)
| LPost (i : nat)
| LWake
| LServe (e : environment)
| LAnswer (i : nat)
| LReturn (i : nat) (ptr : Z)
| LThrow (i : nat)
| LForget (i : nat).

(** The client whose request is being served; a history variable again. *)
Definition is_posted (p : client_pc) : bool := match p with CPosted _ => true | _ => false end.
Definition poster (cs : list client_pc) : option (nat * request) :=
  match list_find (fun p => is_posted p = true) cs with
  | Some (i, CPosted r) => Some (i, r)
  | _ => None
  end.

(** The body of the loop and the [unlock] that answers; an exception ends the daemon. *)
Definition server_serve (e : environment) (s : sys) : sys :=
  match serve (naddr e) (name e) (dma_fuel e) (rands e) (file s) (memory s) with
  | Done (f', m', _) =>
      mk_sys (set_recv_lock false f') m' SWait (clients s)
        (log s ++ match poster (clients s) with
                  | Some (i, r) => [mk_served i r e (read_reply r f')]
                  | None => []
                  end)
        (returns s)
  | _ => mk_sys (file s) (memory s) SDead (clients s) (log s) (returns s)
  end.

Definition is_malloc (r : request) : bool := match r with RMalloc _ => true | _ => false end.

(** One step; [None] when it is not enabled.  [LForget] is a client that goes on, after
    its call or after it has caught the exception. *)
Definition exec (l : label) (s : sys) : option sys :=
  let f := file s in
  match l with
  | LCall i r =>
      match clients s !! i with
      | Some CIdle => Some (with_client s f i (CWant r))
      | _ => None
      end
  | LLockSend i =>
      match clients s !! i, data_cmd_send_lock f with
      | Some (CWant r), false => Some (with_client s (set_send_lock true f) i (CHold r))
      | _, _ => None
      end
  | LPost i =>
      match clients s !! i with
      | Some (CHold r) => Some (with_client s (set_server_mut false (write_request r f)) i (CPosted r))
      | _ => None
      end
  | LWake =>
      match spc s, ds_server_mut f with
      | SWait, false => Some (mk_sys (set_server_mut true f) (memory s) SGot (clients s) (log s) (returns s))
      | _, _ => None
      end
  | LServe e =>
      match spc s with
      | SGot => Some (server_serve e s)
      | _ => None
      end
  | LAnswer i =>
      match clients s !! i, data_cmd_recieve_resp_lock f with
      | Some (CPosted r), false => Some (with_client s (set_recv_lock true f) i (CAnswered r))
      | _, _ => None
      end
  | LReturn i ptr =>
      match clients s !! i with
      | Some (CAnswered r) =>
          Some (mk_sys (set_send_lock false f) (memory s) (spc s) (<[i := CReturned r (read_reply r f) ptr]> (clients s))
                  (log s) (returns s ++ [(i, r, read_reply r f)]))
      | _ => None
      end
  | LThrow i =>
      match clients s !! i with
      | Some (CAnswered r) => if is_malloc r then Some (with_client s f i (CThrown r)) else None
      | _ => None
      end
  | LForget i =>
      match clients s !! i with
      | Some (CReturned _ _ _) | Some (CThrown _) => Some (with_client s f i CIdle)
      | _ => None
      end
  end.

Fixpoint run (ls : list label) (s : sys) : option sys :=
  match ls with
  | [] => Some s
  | l :: ls' => match exec l s with Some s' => run ls' s' | None => None end
  end.

(** ** The specification: one request after the other *)

Definition blank : data_server_file := mk_dsf false false false [] 0 ALLOC 0 0 0 false.

Definition execute (r : request) (e : environment) (m : state A) : outcome (reply * state A) :=
  '(f', m', _) ← serve (naddr e) (name e) (dma_fuel e) (rands e) (write_request r blank) m;
  Done (read_reply r f', m').

(** A log is a sequential run from [m] to [m']. *)
Fixpoint sequential (l : list served) (m m' : state A) : Prop :=
  match l with
  | [] => m' = m
  | x :: l' => exists m1, execute (sv_request x) (sv_env x) m = Done (sv_reply x, m1) /\ sequential l' m1 m'
  end.

End Protocol.
Arguments sys A : clear implicits.

(** ** The invariant of the protocol *)

Section Invariant.
Context {A : Type} `{MemAllocator A}.

(** The file holds a request. *)
Definition holds (r : request) (f : data_server_file) : Prop :=
  match r with
  | RMalloc len => operation f = ALLOC /\ op_argument f = len
  | RFree a => operation f = FREE /\ op_argument f = a
  | RCopyTo a len => operation f = MOVE_TO_FPGA /\ op_argument f = a /\ op3_argument f = len
  | RCopyFrom a len => operation f = MOVE_FROM_FPGA /\ op2_argument f = a /\ op3_argument f = len
  end.

(** A client between taking [data_cmd_send_lock] and leaving its call. *)
Definition inside (p : client_pc) : bool :=
  match p with CHold _ | CPosted _ | CAnswered _ => true | _ => false end.

(** The mutexes, with the server. *)
Definition locks (s : sys A) : server_pc * bool * bool * bool :=
  (spc s, ds_server_mut (file s), data_cmd_send_lock (file s), data_cmd_recieve_resp_lock (file s)).

Definition ret_of (x : served) : nat * request * reply := (sv_client x, sv_request x, sv_reply x).

(** Client [i] is inside at [p], and no other one is. *)
Definition only_inside (cs : list client_pc) (i : nat) (p : client_pc) : Prop :=
  cs !! i = Some p /\ forall j q, cs !! j = Some q -> inside q = true -> j = i.

(** Every served request has been taken back by its client, or all but the last. *)
Definition settled (s : sys A) : Prop := returns s = map ret_of (log s).
Definition unsettled (s : sys A) (i : nat) (r : request) : Prop :=
  exists l x, log s = l ++ [x] /\ ret_of x = (i, r, read_reply r (file s)) /\ returns s = map ret_of l.

(** The stations of a request. *)
Inductive phase (s : sys A) : Prop :=
| PFree : locks s = (SWait, true, false, true) -> (forall j q, clients s !! j = Some q -> inside q = false) ->
    settled s -> phase s
| PHold i r : locks s = (SWait, true, true, true) -> only_inside (clients s) i (CHold r) -> settled s -> phase s
| PPosted i r : locks s = (SWait, false, true, true) -> only_inside (clients s) i (CPosted r) -> holds r (file s) ->
    settled s -> phase s
| PGot i r : locks s = (SGot, true, true, true) -> only_inside (clients s) i (CPosted r) -> holds r (file s) ->
    settled s -> phase s
| PDead i r : locks s = (SDead, true, true, true) -> only_inside (clients s) i (CPosted r) -> settled s -> phase s
| PServed i r : locks s = (SWait, true, true, false) -> only_inside (clients s) i (CPosted r) -> unsettled s i r -> phase s
| PAnswered i r : locks s = (SWait, true, true, true) -> only_inside (clients s) i (CAnswered r) -> unsettled s i r -> phase s
| PThrown i r : locks s = (SWait, true, true, true) -> (forall j q, clients s !! j = Some q -> inside q = false) ->
    unsettled s i r -> phase s.

Lemma only_inside_same cs i p j q : only_inside cs i p -> cs !! j = Some q -> inside q = true -> j = i /\ q = p.
Proof using.
  intros [Hi Ho] Hj Hq. assert (j = i) as -> by (by eapply Ho). rewrite Hi in Hj. by injection Hj as ->.
Qed.

(** A client outside moves outside. *)
Lemma only_inside_other cs i p j q q' : only_inside cs i p -> cs !! j = Some q -> inside q = false -> inside q' = false ->
  inside p = true -> only_inside (<[j := q']> cs) i p.
Proof using.
  intros [Hi Ho] Hj Hq Hq' Hp. assert (i <> j) by congruence. split; [by rewrite list_lookup_insert_ne|].
  intros k x Hk Hx. destruct (decide (k = j)) as [->|].
  - rewrite list_lookup_insert_eq in Hk by (by eapply lookup_lt_Some). congruence.
  - rewrite list_lookup_insert_ne in Hk by done. by eapply Ho.
Qed.

(** The client inside moves on. *)
Lemma only_inside_move cs i p p' : only_inside cs i p -> only_inside (<[i := p']> cs) i p'.
Proof using.
  intros [Hi Ho]. apply lookup_lt_Some in Hi as Hl. split; [by rewrite list_lookup_insert_eq|].
  intros k x Hk Hx. destruct (decide (k = i)) as [->|Hne]; [done|]. rewrite list_lookup_insert_ne in Hk by done. by eapply Ho.
Qed.

Lemma none_inside_leave (cs : list client_pc) i p p' : only_inside cs i p -> inside p' = false ->
  forall (j : nat) q, <[i := p']> cs !! j = Some q -> inside q = false.
Proof using.
  intros [Hi Ho] Hp j q Hj. destruct (inside q) eqn:E; [|done]. apply lookup_lt_Some in Hi as Hl.
  destruct (decide (j = i)) as [->|Hne].
  - rewrite list_lookup_insert_eq in Hj by done. congruence.
  - rewrite list_lookup_insert_ne in Hj by done. by destruct (Hne (Ho _ _ Hj E)).
Qed.

Lemma none_inside_other (cs : list client_pc) (j : nat) q' : (forall (j : nat) q, cs !! j = Some q -> inside q = false) -> inside q' = false ->
  forall (k : nat) q, <[j := q']> cs !! k = Some q -> inside q = false.
Proof using.
  intros Hn Hq k q Hk. destruct (decide (k = j)) as [->|].
  - apply list_lookup_insert_Some in Hk as [(_ & <- & _)|[? _]]; done.
  - rewrite list_lookup_insert_ne in Hk by done. by eapply Hn.
Qed.

Lemma none_inside_enter (cs : list client_pc) (j : nat) q p : (forall (j : nat) q, cs !! j = Some q -> inside q = false) -> cs !! j = Some q ->
  only_inside (<[j := p]> cs) j p.
Proof using.
  intros Hn Hj. apply lookup_lt_Some in Hj as Hl. split; [by rewrite list_lookup_insert_eq|].
  intros k x Hk Hx. destruct (decide (k = j)) as [->|Hne]; [done|]. rewrite list_lookup_insert_ne in Hk by done.
  by rewrite (Hn _ _ Hk) in Hx.
Qed.

Lemma poster_of cs i r : only_inside cs i (CPosted r) -> poster cs = Some (i, r).
Proof using.
  intros [Hi Ho]. unfold poster.
  destruct (list_find_elem_of (fun p => is_posted p = true) cs (CPosted r)) as [[k p] Hk]; [by eapply list_elem_of_lookup_2|done|].
  rewrite Hk. apply list_find_Some in Hk as (Hk & Hp & _).
  assert (k = i) as -> by (eapply Ho; [exact Hk|by destruct p]). rewrite Hi in Hk. by injection Hk as <-.
Qed.

(** What the server does depends on the request in the file only. *)
Lemma serve_executes r f e m f' m' ds : holds r f ->
  serve (naddr e) (name e) (dma_fuel e) (rands e) f m = Done (f', m', ds) ->
  execute r e m = Done (read_reply r f', m') /\
  ds_server_mut f' = ds_server_mut f /\ data_cmd_send_lock f' = data_cmd_send_lock f /\
  data_cmd_recieve_resp_lock f' = data_cmd_recieve_resp_lock f.
Proof using.
  unfold execute, serve, holds. destruct r as [len|a|a len|a len]; cbn [write_request request_malloc request_free
    request_copy_to request_copy_from operation op_argument op2_argument op3_argument].
  - intros [-> <-]. destruct (naddr e) as [h|]; [|done]. destruct (h =? 0); [done|].
    intros ([fp al] & -> & [= <- <- <-])%bind_Done. done.
  - intros [-> <-] (al & -> & Hs)%bind_Done. cbn [mbind outcome_bind]. apply bind_Done in Hs as (q & -> & Hs).
    cbn [mbind outcome_bind]. apply bind_Done in Hs as (ms & -> & [= <- <- <-]). done.
  - intros (-> & <- & <-) (q & -> & Hs)%bind_Done. cbn [mbind outcome_bind]. apply bind_Done in Hs as (d & -> & [= <- <- <-]). done.
  - intros (-> & <- & <-) (q & -> & Hs)%bind_Done. cbn [mbind outcome_bind]. apply bind_Done in Hs as (d & -> & [= <- <- <-]). done.
Qed.

Lemma execute_serves r f e m a m' : holds r f -> execute r e m = Done (a, m') ->
  exists f' ds, serve (naddr e) (name e) (dma_fuel e) (rands e) f m = Done (f', m', ds) /\ read_reply r f' = a.
Proof using.
  unfold execute, serve, holds. destruct r as [len|b|b len|b len]; cbn [write_request request_malloc request_free
    request_copy_to request_copy_from operation op_argument op2_argument op3_argument].
  - intros [-> <-]. destruct (naddr e) as [h|]; [|done]. destruct (h =? 0); [done|].
    destruct (mem_malloc _ _) as [[fp al]| | | |]; try done. intros [= <- <-]. by eexists _, _.
  - intros [-> <-]. destruct (mem_free _ _) as [al| | | |]; try done. cbn [mbind outcome_bind].
    destruct (get_mapping _ _) as [q| | | |]; try done. cbn [mbind outcome_bind].
    destruct (remove_mapping _ _) as [ms| | | |]; try done. intros [= <- <-]. by eexists _, _.
  - intros (-> & <- & <-). destruct (translate _ _) as [q| | | |]; try done. cbn [mbind outcome_bind].
    destruct (dma_loop _ _ _ _ _ _) as [d| | | |]; try done. intros [= <- <-]. by eexists _, _.
  - intros (-> & <- & <-). destruct (translate _ _) as [q| | | |]; try done. cbn [mbind outcome_bind].
    destruct (dma_loop _ _ _ _ _ _) as [d| | | |]; try done. intros [= <- <-]. by eexists _, _.
Qed.

Lemma sequential_snoc l x m m1 m2 : sequential l m m1 -> execute (sv_request x) (sv_env x) m1 = Done (sv_reply x, m2) ->
  sequential (l ++ [x]) m m2.
Proof using.
  revert m. induction l as [|y l IH]; intros m; cbn.
  - intros -> E. by exists m2.
  - intros (m3 & E3 & Hs) E. exists m3. split; [done|]. by apply IH.
Qed.

(** A step of a client outside the protocol changes nothing of it. *)
Lemma phase_outside s j q q' : clients s !! j = Some q -> inside q = false -> inside q' = false -> phase s ->
  phase (with_client s (file s) j q').
Proof using.
  intros Hj Hq Hq' Hp. destruct s as [f m p cs l rs]. cbn in *.
  destruct Hp as [L Hn S|i r L Ho S|i r L Ho Hh S|i r L Ho Hh S|i r L Ho S|i r L Ho S|i r L Ho S|i r L Ho S]; cbn in *.
  - apply PFree; [done| |done]. by apply none_inside_other.
  - apply (PHold _ i r); [done| |done]. by eapply only_inside_other.
  - apply (PPosted _ i r); [done| |done|done]. by eapply only_inside_other.
  - apply (PGot _ i r); [done| |done|done]. by eapply only_inside_other.
  - apply (PDead _ i r); [done| |done]. by eapply only_inside_other.
  - apply (PServed _ i r); [done| |done]. by eapply only_inside_other.
  - apply (PAnswered _ i r); [done| |done]. by eapply only_inside_other.
  - apply (PThrown _ i r); [done| |done]. by apply none_inside_other.
Qed.

(** Finds the phase from the mutexes and from the client that is inside. *)
Ltac which_phase Hp :=
  destruct Hp as [L Hn S|i' r' L Ho S|i' r' L Ho Hh S|i' r' L Ho Hh S|i' r' L Ho S|i' r' L Ho S|i' r' L Ho S|i' r' L Ho S];
  unfold locks in L; cbn in *; try congruence;
  try match goal with
  | Hc : ?cs !! ?i = Some ?q, Hn : forall j q, ?cs !! j = Some q -> inside q = false |- _ =>
      let E := fresh in pose proof (Hn _ _ Hc) as E; discriminate E
  | Hc : ?cs !! ?i = Some ?q, Ho : only_inside ?cs _ ?p |- _ =>
      let E := fresh in destruct (only_inside_same _ _ _ _ _ Ho Hc eq_refl) as [<- E]; try discriminate E; injection E as <-
  end.

Lemma exec_phase l s s' : phase s -> exec l s = Some s' -> phase s'.
Proof using.
  intros Hp He. destruct l as [i r|i|i| |e|i|i ptr|i|i]; cbn in He.
  - destruct (clients s !! i) as [[]|] eqn:Ec; try done. injection He as <-. by eapply phase_outside.
  - destruct (clients s !! i) as [[]|] eqn:Ec; try done. destruct (data_cmd_send_lock (file s)) eqn:El; [done|].
    injection He as <-. destruct Hp as [L Hn S|i' r' L Ho S|i' r' L Ho Hh S|i' r' L Ho Hh S|i' r' L Ho S|i' r' L Ho S|i' r' L Ho S|i' r' L Ho S]; unfold locks in L; try congruence.
    apply (PHold _ i r); [unfold locks in *; cbn in *; congruence| |done]. by eapply none_inside_enter.
  - destruct (clients s !! i) as [[]|] eqn:Ec; try done. injection He as <-. which_phase Hp.
    apply (PPosted _ i r); [unfold locks; destruct r; cbn; congruence|by eapply only_inside_move|by destruct r|done].
  - destruct (spc s) eqn:Es; try done. destruct (ds_server_mut (file s)) eqn:Em; [done|]. injection He as <-.
    destruct Hp as [L Hn S|i' r' L Ho S|i' r' L Ho Hh S|i' r' L Ho Hh S|i' r' L Ho S|i' r' L Ho S|i' r' L Ho S|i' r' L Ho S]; unfold locks in L; try congruence.
    apply (PGot _ i' r'); [unfold locks; cbn; congruence|done|by destruct r'|done].
  - destruct (spc s) eqn:Es; try done. injection He as <-.
    destruct Hp as [L Hn S|i' r' L Ho S|i' r' L Ho Hh S|i' r' L Ho Hh S|i' r' L Ho S|i' r' L Ho S|i' r' L Ho S|i' r' L Ho S]; unfold locks in L; try congruence. rename i' into i, r' into r.
    unfold server_serve. destruct (serve _ _ _ _ _ _) as [[[f' m'] ds]| | | |] eqn:Esv;
      try (apply (PDead _ i r); [unfold locks; cbn; congruence|done|done]).
    destruct (serve_executes _ _ _ _ _ _ _ Hh Esv) as (_ & E1 & E2 & E3).
    apply (PServed _ i r); [unfold locks; cbn; congruence|done|].
    exists (log s), (mk_served i r e (read_reply r f')). cbn. rewrite (poster_of _ _ _ Ho). split_and!; [done|by destruct r|done].
  - destruct (clients s !! i) as [[]|] eqn:Ec; try done. destruct (data_cmd_recieve_resp_lock (file s)) eqn:El; [done|].
    injection He as <-. which_phase Hp.
    apply (PAnswered _ i r); [unfold locks; cbn; congruence|by eapply only_inside_move|]. by destruct r.
  - destruct (clients s !! i) as [[]|] eqn:Ec; try done. injection He as <-. which_phase Hp.
    apply PFree; [unfold locks; cbn; congruence|by eapply none_inside_leave|].
    destruct S as (l & x & El & Ex & Er). unfold settled. cbn. rewrite El, Er, map_app. cbn. by rewrite Ex.
  - destruct (clients s !! i) as [[]|] eqn:Ec; try done. destruct (is_malloc r); [|done]. injection He as <-. which_phase Hp.
    apply (PThrown _ i r); [unfold locks; cbn; congruence|by eapply none_inside_leave|done].
  - destruct (clients s !! i) as [[]|] eqn:Ec; try done; injection He as <-; by eapply phase_outside.
Qed.

Lemma boot_phase f m n : phase (boot f m n).
Proof using.
  apply PFree; [done| |done]. intros j q Hj. cbn in Hj. apply lookup_replicate in Hj as [-> _]. done.
Qed.

(** The memory of the server is that of the requests in the log, one after the other. *)
Lemma exec_sequential l s s' m0 : phase s -> sequential (log s) m0 (memory s) -> exec l s = Some s' ->
  sequential (log s') m0 (memory s').
Proof using.
  intros Hp Hs He. destruct l as [i r|i|i| |e|i|i ptr|i|i]; cbn in He;
    try (destruct (clients s !! i) as [[]|]; try done; repeat case_match; try done; injection He as <-; exact Hs).
  - repeat case_match; try done. by injection He as <-.
  - destruct (spc s) eqn:Es; try done. injection He as <-.
    destruct Hp as [L Hn S|i' r' L Ho S|i' r' L Ho Hh S|i' r' L Ho Hh S|i' r' L Ho S|i' r' L Ho S|i' r' L Ho S|i' r' L Ho S]; unfold locks in L; try congruence. rename i' into i, r' into r.
    unfold server_serve. destruct (serve _ _ _ _ _ _) as [[[f' m'] ds]| | | |] eqn:Esv; try done. cbn.
    rewrite (poster_of _ _ _ Ho). destruct (serve_executes _ _ _ _ _ _ _ Hh Esv) as (Ex & _). by eapply sequential_snoc.
Qed.

Lemma run_invariant ls s s' m0 : phase s -> sequential (log s) m0 (memory s) -> run ls s = Some s' ->
  phase s' /\ sequential (log s') m0 (memory s').
Proof using.
  revert s. induction ls as [|l ls IH]; intros s Hp Hs Hr; cbn in Hr; [by injection Hr as <-|].
  destruct (exec l s) as [s1|] eqn:E; [|done]. eapply IH; [by eapply exec_phase|by eapply exec_sequential|done].
Qed.

(** What clients have come back with is the log, but for the last request at most. *)
Lemma phase_returns s : phase s -> exists pending, map ret_of (log s) = returns s ++ pending /\ (length pending <= 1)%nat.
Proof using.
  intros [L Hn S|i r L Ho S|i r L Ho Hh S|i r L Ho Hh S|i r L Ho S|i r L Ho S|i r L Ho S|i r L Ho S];
    try (exists []; rewrite app_nil_r; split; [by rewrite S|cbn; lia]).
  all: destruct S as (l & x & El & Ex & Er); exists [ret_of x]; rewrite El, Er, map_app; split; [done|cbn; lia].
Qed.

(** ** Buffers *)

Definition no_free (l : list served) : Prop :=
  forall x, x ∈ l -> match sv_request x with RFree _ => False | RMalloc len => 0 <= len < 2 ^ 64 | _ => True end.

(** Every [malloc] in the log has its mapping, with the host address of its own file. *)
Lemma sequential_maps l m m' live : sequential l m m' -> ds_inv m live -> no_free l ->
  exists live', ds_inv m' live' /\ (forall p, p ∈ at_ m -> p ∈ at_ m') /\
    forall x len a nm, x ∈ l -> sv_request x = RMalloc len -> sv_reply x = Some (a, nm) ->
      exists h, naddr (sv_env x) = Some h /\ mk_pair a len h ∈ at_ m'.
Proof using.
  revert m live. induction l as [|y l IH]; intros m live; cbn [sequential].
  { intros -> Hi _. exists live. split_and!; [done|done|]. by intros ? ? ? ? ?%elem_of_nil. }
  intros (m1 & Ex & Hs) Hi Hnf.
  assert (Hnf' : no_free l) by (intros x Hx; apply Hnf; by right).
  assert (Hy : exists live1, ds_inv m1 live1 /\ (forall p, p ∈ at_ m -> p ∈ at_ m1) /\
    forall len a nm, sv_request y = RMalloc len -> sv_reply y = Some (a, nm) ->
      exists h, naddr (sv_env y) = Some h /\ mk_pair a len h ∈ at_ m1).
  { pose proof (Hnf y ltac:(left)) as Hr. unfold execute in Ex. apply bind_Done in Ex as ([[f1 m2] ds] & Esv & [= Erep ->]).
    destruct (sv_request y) as [len|a|a len|a len]; [| done | |].
    - destruct (naddr (sv_env y)) as [h|] eqn:En; [|by unfold serve in Esv; cbn in Esv].
      destruct (serve_alloc _ _ _ _ _ _ _ _ _ _ _ Hi Hr Esv) as (live1 & Hi1 & Hin & Hmono).
      exists live1. split_and!; [done|done|]. intros len' a nm [= <-] Hrep. rewrite Hrep in Erep. injection Erep as <- _.
      by exists h.
    - unfold serve in Esv. cbn in Esv. apply bind_Done in Esv as (q & _ & Esv). apply bind_Done in Esv as (d & _ & [= _ <- _]).
      exists live. split_and!; [done|done|]. done.
    - unfold serve in Esv. cbn in Esv. apply bind_Done in Esv as (q & _ & Esv). apply bind_Done in Esv as (d & _ & [= _ <- _]).
      exists live. split_and!; [done|done|]. done. }
  destruct Hy as (live1 & Hi1 & Hmono1 & Hy). destruct (IH m1 live1 Hs Hi1 Hnf') as (live2 & Hi2 & Hmono2 & Hl).
  exists live2. split_and!; [done|auto|]. intros x len a nm Hx Hr Ha. apply elem_of_cons in Hx as [->|Hx]; [|by eapply Hl].
  destruct (Hy len a nm Hr Ha) as (h & Hh & Hin). exists h. auto.
Qed.

(** ** The exception of [malloc] *)

(** The lock is taken and nobody is there to give it back. *)
Definition blocked (s : sys A) : Prop :=
  locks s = (SWait, true, true, true) /\ forall j q, clients s !! j = Some q -> inside q = false.

(** Clients move outside the protocol, and nothing else does. *)
Lemma blocked_step l s s' : blocked s -> exec l s = Some s' ->
  blocked s' /\ log s' = log s /\ returns s' = returns s /\ memory s' = memory s.
Proof using.
  intros [L Hn] He. unfold locks in L. injection L as Ls Lm Lk Lr.
  assert (Hc : forall j p q, clients s !! j = Some p -> inside q = false -> blocked (with_client s (file s) j q)).
  { intros j p q Hj Hq. split; [unfold locks; cbn; congruence|]. by apply none_inside_other. }
  destruct l as [j q|j|j| |e|j|j ptr|j|j]; cbn in He; try (destruct (clients s !! j) as [q'|] eqn:Ej; [|done]);
    try (destruct q'; try done; try (pose proof (Hn _ _ Ej) as E; discriminate E); rewrite ?Lk in He; try done;
      injection He as <-; (split; [by eapply Hc|done])).
  - by rewrite Ls, Lm in He.
  - by rewrite Ls in He.
Qed.

(** A [malloc] that threw has left the lock behind. *)
Definition thrown_blocks (s : sys A) : Prop := forall i r, clients s !! i = Some (CThrown r) -> blocked s.

Lemma exec_thrown l s s' : phase s -> thrown_blocks s -> exec l s = Some s' -> thrown_blocks s'.
Proof using.
  intros Hp Ht He i r Hi.
  assert (clients s !! i = Some (CThrown r) \/ exists j, l = LThrow j) as [Hs|[j ->]].
  { destruct l as [j q|j|j| |e|j|j ptr|j|j]; [..|by right; eexists|]; left; cbn in He;
      try (destruct (clients s !! j) as [[]|] eqn:Ej; try done);
      repeat case_match; try done; simplify_eq; cbn in Hi; try done;
      try (apply list_lookup_insert_Some in Hi as [(_ & [=] & _)|[_ Hi]]; done).
    by unfold server_serve in Hi; case_match; [destruct a as [[? ?] ?]|..]. }
  { by destruct (blocked_step _ _ _ (Ht _ _ Hs) He). }
  cbn in He. destruct (clients s !! j) as [[]|] eqn:Ec; try done. destruct (is_malloc r0); [|done]. injection He as <-.
  which_phase Hp. split; [unfold locks; cbn; congruence|]. by eapply none_inside_leave.
Qed.

Lemma run_thrown ls : forall s s', phase s -> thrown_blocks s -> run ls s = Some s' -> thrown_blocks s'.
Proof using.
  induction ls as [|l ls IH]; intros s s' Hp Ht Hr; cbn in Hr; [by injection Hr as <-|].
  destruct (exec l s) as [s1|] eqn:E; [|done]. eapply IH; [by eapply exec_phase|by eapply exec_thrown|done].
Qed.

Lemma run_blocked ls : forall s s', blocked s -> run ls s = Some s' ->
  log s' = log s /\ returns s' = returns s /\ memory s' = memory s.
Proof using.
  induction ls as [|l ls IH]; intros s s' Hb Hr; cbn in Hr; [by injection Hr as <-|].
  destruct (exec l s) as [s1|] eqn:E; [|done]. destruct (blocked_step _ _ _ Hb E) as (Hb1 & E1 & E2 & E3).
  destruct (IH _ _ Hb1 Hr) as (F1 & F2 & F3). by rewrite F1, F2, F3.
Qed.

End Invariant.

(** ** Theorems *)

(** C4. Whatever the interleaving of any number of clients with the server, what the
    server did is a sequential run of the requests, and what the clients came back
    with are exactly the replies of that run, each for its own request and in its
    order, but for the last one at most, which its client has not taken yet. *)
Theorem data_requests_serialised {A} `{MemAllocator A} f (m : state A) n ls s :
  run ls (boot f m n) = Some s ->
  sequential (log s) m (memory s) /\
  exists pending, map ret_of (log s) = returns s ++ pending /\ (length pending <= 1)%nat.
Proof.
  intros Hr. destruct (run_invariant ls _ s m (boot_phase f m n) eq_refl Hr) as [Hp Hs].
  split; [done|]. by apply phase_returns.
Qed.

(** C5. As long as nothing is freed every byte of every buffer that any client got from
    [malloc] translates to its own place in the host file that was made for it.  The
    allocator is any that keeps the regions it hands out apart ([MemAllocator]); the
    one of the runtime does so for memories of 2 MiB to 4 GiB ([device_mem_allocator]),
    and not for larger ones ([Alloc.large_malloc_wraps]). *)
Theorem buffers_translate {A} `{MemAllocator A} f (a : A) n ls s i len p nm :
  mem_inv a [] -> run ls (boot f (mk_state a []) n) = Some s -> no_free (log s) ->
  (i, RMalloc len, Some (p, nm)) ∈ returns s ->
  exists x h, x ∈ log s /\ ret_of x = (i, RMalloc len, Some (p, nm)) /\ naddr (sv_env x) = Some h /\
    forall off, 0 <= off < len -> translate (at_ (memory s)) (p + off) = Done (h + off).
Proof.
  intros Ha Hr Hnf Hin. destruct (run_invariant ls _ s (mk_state a []) (boot_phase f _ n) eq_refl Hr) as [Hp Hs].
  destruct (phase_returns s Hp) as (pending & Hret & _).
  assert (Hx : (i, RMalloc len, Some (p, nm)) ∈ map ret_of (log s)) by (rewrite Hret; apply elem_of_app; by left).
  apply list_elem_of_fmap in Hx as (x & Ex & Hx).
  destruct (sequential_maps _ _ _ _ Hs (empty_ds_inv a Ha) Hnf) as (live & Hi & _ & Hmap).
  pose proof Ex as Ex'. unfold ret_of in Ex'. injection Ex' as E1 E2 E3.
  destruct (Hmap x len p nm Hx (eq_sym E2) (eq_sym E3)) as (h & Hh & Hm).
  exists x, h. split_and!; [done|done|done|]. intros off Hoff. by eapply mapped_translates.
Qed.

(** C29. A [malloc] that cannot open or map its file throws with [data_cmd_send_lock]
    taken: from then on no request of any client is ever served. *)
Theorem failed_malloc_blocks_all {A} `{MemAllocator A} f (m : state A) n ls s i r ls' s' :
  run ls (boot f m n) = Some s -> clients s !! i = Some (CThrown r) -> run ls' s = Some s' ->
  log s' = log s /\ returns s' = returns s /\ memory s' = memory s.
Proof.
  intros Hr Hi Hr'. eapply run_blocked; [|exact Hr'].
  eapply (run_thrown ls); [by apply boot_phase| |exact Hr|exact Hi].
  intros j q Hj. cbn in Hj. by apply lookup_replicate in Hj as [? _].
Qed.

(** C22. When no client is inside the protocol a client that wants to make a request gets
    its answer after six steps of its own and the server's, whenever the request can be
    served at all. *)
Theorem request_completes {A} `{MemAllocator A} f (m : state A) n ls s i r e a m' ptr :
  run ls (boot f m n) = Some s -> clients s !! i = Some (CWant r) -> data_cmd_send_lock (file s) = false ->
  execute r e (memory s) = Done (a, m') ->
  exists s', run [LLockSend i; LPost i; LWake; LServe e; LAnswer i; LReturn i ptr] s = Some s' /\
    clients s' !! i = Some (CReturned r a ptr) /\ memory s' = m'.
Proof.
  intros Hr Hi Hl Hx. destruct (run_invariant ls _ s m (boot_phase f m n) eq_refl Hr) as [Hp _].
  destruct Hp as [L Hn S|i' r' L Ho S|i' r' L Ho Hh S|i' r' L Ho Hh S|i' r' L Ho S|i' r' L Ho S|i' r' L Ho S|i' r' L Ho S];
    unfold locks in L; try congruence. injection L as Ls Lm _ Lr.
  apply lookup_lt_Some in Hi as Hlen.
  set (s1 := with_client s (set_send_lock true (file s)) i (CHold r)).
  assert (H1 : exec (LLockSend i) s = Some s1) by (cbn; by rewrite Hi, Hl).
  set (s2 := with_client s1 (set_server_mut false (write_request r (file s1))) i (CPosted r)).
  assert (H2 : exec (LPost i) s1 = Some s2) by (cbn; by rewrite list_lookup_insert_eq).
  set (s3 := mk_sys (set_server_mut true (file s2)) (memory s2) SGot (clients s2) (log s2) (returns s2)).
  assert (H3 : exec LWake s2 = Some s3) by (cbn; by rewrite Ls).
  assert (Hin : clients s3 !! i = Some (CPosted r)) by (cbn; by rewrite list_lookup_insert_eq by (by rewrite length_insert)).
  destruct (execute_serves r (file s3) e (memory s) a m') as (f' & ds & Esv & Ea); [by destruct r|done|].
  set (s4 := server_serve e s3). assert (H4 : exec (LServe e) s3 = Some s4) by done.
  assert (H4c : clients s4 = clients s3 /\ file s4 = set_recv_lock false f' /\ memory s4 = m')
    by (unfold s4, server_serve; change (memory s3) with (memory s); by rewrite Esv).
  destruct H4c as (C4 & F4 & M4).
  set (s5 := with_client s4 (set_recv_lock true (file s4)) i (CAnswered r)).
  assert (R4 : data_cmd_recieve_resp_lock (file s4) = false) by (by rewrite F4).
  assert (H5 : exec (LAnswer i) s4 = Some s5) by (cbn [exec]; by rewrite C4, Hin, R4).
  assert (Hl4 : (i < length (clients s4))%nat) by (rewrite C4; by eapply lookup_lt_Some).
  eexists. cbn [run]. rewrite H1, H2, H3, H4, H5. unfold exec.
  assert (clients s5 !! i = Some (CAnswered r)) as -> by (unfold s5; cbn [with_client clients]; by rewrite list_lookup_insert_eq).
  split_and!; [reflexivity| |done]. cbn [clients]. rewrite list_lookup_insert_eq.
  - rewrite <- Ea. unfold s5. cbn [with_client file]. rewrite F4. by destruct r.
  - unfold s5. cbn [with_client clients]. by rewrite length_insert.
Qed.

(** ** Instances *)

#[local] Instance demo_size : GoodSize (2 ^ 25).
Proof. unfold GoodSize. lia. Defined.
Definition demo_memory : state (device_mem (2 ^ 25)) := mk_state (Alloc.new_allocator (2 ^ 25)) [].
Definition demo_env (h : Z) : environment := mk_env (Some h) [47; 98] 0 [].
Definition demo_boot : sys (device_mem (2 ^ 25)) := boot blank demo_memory 2.

(** Two clients that allocate at the same time; the second one is served first. *)
Definition demo_labels : list label :=
  [LCall 0 (RMalloc 5000); LCall 1 (RMalloc 64); LLockSend 1; LPost 1; LWake; LServe (demo_env 700000); LAnswer 1; LReturn 1 1;
   LLockSend 0; LPost 0; LWake; LForget 1; LServe (demo_env 900000); LAnswer 0; LReturn 0 2].

Abbreviation first := (1%nat, RMalloc 64, Some (2093056, [47; 98])).
Abbreviation second := (0%nat, RMalloc 5000, Some (4186112, [47; 98])).
Example demo_protocol_run :
  match run demo_labels demo_boot with
  | Some s => (returns s, map (fun x => (ret_of x, naddr (sv_env x))) (log s))
  | None => ([], [])
  end = ([first; second], [(first, Some 700000); (second, Some 900000)]).
Proof. vm_compute. reflexivity. Qed.

Lemma demo_memory_inv : mem_inv (allocator demo_memory) [].
Proof. apply Alloc.new_inv. lia. Qed.

Lemma data_requests_serialised_witness : exists s, run demo_labels demo_boot = Some s /\
  sequential (log s) demo_memory (memory s) /\ returns s = [first; second].
Proof.
  pose proof demo_protocol_run as Hd. destruct (run demo_labels demo_boot) as [s|] eqn:E; [|discriminate Hd].
  exists s. split; [done|]. split; [|congruence].
  exact (proj1 (data_requests_serialised blank demo_memory 2 demo_labels s E)).
Defined.

Lemma buffers_translate_witness : exists s, run demo_labels demo_boot = Some s /\
  translate (at_ (memory s)) (4186112 + 4999) = Done (900000 + 4999).
Proof.
  pose proof demo_protocol_run as Hd. destruct (run demo_labels demo_boot) as [s|] eqn:E; [|discriminate Hd].
  exists s. split; [done|]. injection Hd as Hret Hlog.
  assert (Hx : forall x, x ∈ log s -> (ret_of x, naddr (sv_env x)) ∈ [(first, Some 700000); (second, Some 900000)]).
  { intros x Hx. rewrite <- Hlog. by apply (list_elem_of_fmap_2 (fun x => (ret_of x, naddr (sv_env x)))). }
  assert (Hnf : no_free (log s)).
  { intros x Hin. apply Hx in Hin. unfold ret_of in Hin.
    apply elem_of_cons in Hin as [[= _ -> _ _]|Hin]; [lia|]. apply list_elem_of_singleton in Hin as [= _ -> _ _]. lia. }
  assert (Hin : second ∈ returns s) by (rewrite Hret; right; left).
  destruct (buffers_translate blank (Alloc.new_allocator (2 ^ 25)) 2 demo_labels s 0 5000 4186112 [47; 98] demo_memory_inv E Hnf Hin)
    as (x & h & Hxl & Hrx & Hh & Ht).
  apply Hx in Hxl. rewrite Hrx, Hh in Hxl. apply elem_of_cons in Hxl as [Hxl|Hxl]; [discriminate Hxl|].
  apply list_elem_of_singleton in Hxl as [= ->]. apply Ht. lia.
Defined.

(** A client whose file cannot be opened; it catches the exception and calls again, and
    another one calls: both wait for ever. *)
Definition demo_throw : list label :=
  [LCall 0 (RMalloc 64); LLockSend 0; LPost 0; LWake; LServe (demo_env 700000); LAnswer 0; LThrow 0].

Lemma failed_malloc_blocks_all_witness : exists s s', run demo_throw demo_boot = Some s /\
  run [LForget 0; LCall 0 (RMalloc 64); LCall 1 (RCopyTo 0 64)] s = Some s' /\ returns s' = returns s /\
  exec (LLockSend 0) s' = None /\ exec (LLockSend 1) s' = None.
Proof.
  assert (Hd : match run demo_throw demo_boot with
    | Some s => match clients s !! 0%nat, run [LForget 0; LCall 0 (RMalloc 64); LCall 1 (RCopyTo 0 64)] s with
                | Some (CThrown _), Some s' => match exec (LLockSend 0) s', exec (LLockSend 1) s' with None, None => true | _, _ => false end
                | _, _ => false end
    | None => false end = true) by (vm_compute; reflexivity).
  destruct (run demo_throw demo_boot) as [s|] eqn:E; [|discriminate Hd].
  destruct (clients s !! 0%nat) as [[| | | | | |r]|] eqn:Ec; try discriminate Hd.
  destruct (run [LForget 0; LCall 0 (RMalloc 64); LCall 1 (RCopyTo 0 64)] s) as [s'|] eqn:E'; [|discriminate Hd].
  destruct (exec (LLockSend 0) s') eqn:Ex0; [discriminate Hd|]. destruct (exec (LLockSend 1) s') eqn:Ex; [discriminate Hd|].
  exists s, s'. split; [reflexivity|]. split; [exact E'|]. split; [|split; [exact Ex0|exact Ex]].
  exact (proj1 (proj2 (failed_malloc_blocks_all blank demo_memory 2 demo_throw s 0 r [LForget 0; LCall 0 (RMalloc 64); LCall 1 (RCopyTo 0 64)] s' E Ec E'))).
Defined.

Lemma request_completes_witness : exists s s' a, run [LCall 0 (RMalloc 64); LCall 1 (RMalloc 64)] demo_boot = Some s /\
  run [LLockSend 1; LPost 1; LWake; LServe (demo_env 700000); LAnswer 1; LReturn 1 5] s = Some s' /\
  clients s' !! 1%nat = Some (CReturned (RMalloc 64) a 5).
Proof.
  assert (Hd : match run [LCall 0 (RMalloc 64); LCall 1 (RMalloc 64)] demo_boot with
    | Some s => match clients s !! 1%nat, execute (RMalloc 64) (demo_env 700000) (memory s) with
                | Some (CWant (RMalloc 64)), Done _ => negb (data_cmd_send_lock (file s))
                | _, _ => false end
    | None => false end = true) by (vm_compute; reflexivity).
  destruct (run [LCall 0 (RMalloc 64); LCall 1 (RMalloc 64)] demo_boot) as [s|] eqn:E; [|discriminate Hd].
  assert (Ec : clients s !! 1%nat = Some (CWant (RMalloc 64))).
  { cbn in E. injection E as <-. reflexivity. }
  rewrite Ec in Hd. destruct (execute (RMalloc 64) (demo_env 700000) (memory s)) as [[a m']| | | |] eqn:Ex; try discriminate Hd.
  destruct (data_cmd_send_lock (file s)) eqn:El; [discriminate Hd|].
  destruct (request_completes blank demo_memory 2 _ s 1 (RMalloc 64) (demo_env 700000) a m' 5 E Ec El Ex) as (s' & Hr & Hc & _).
  exists s, s', a. split; [done|]. split; [exact Hr|exact Hc].
Defined.

End DataProtocol.
