(* ===== verification/DataBuilds.v ===== *)
(** * The data server: the other builds

    [data_server_f] of [runtime/src/core/data_server.cc] where the preprocessor chooses
    otherwise than in [DataServer]: without the custom allocator a buffer has its host
    address as its device address; the simulator without DMA and the Zynq card move no
    data; on an AWS card the server copies between the host and the card's memory,
    which it has mapped.  Both memories are functions from addresses to bytes. *)

From stdpp Require Import relations.
From S2P Require Import Prelude RuntimeIpc DeviceAllocator DataServer.
Import Ipc DataServer.

Module DataBuilds.

#[local] Open Scope Z_scope.

(** ** Without the custom allocator *)

(** [ALLOC] and [FREE] of a build without [BEETHOVEN_USE_CUSTOM_ALLOC]. *)
Definition plain_alloc (naddr : option Z) (name : list Z) (f : data_server_file) (ms : mappings)
    : outcome (data_server_file * mappings) :=
  match naddr with
  | None => Throw
  | Some h =>
      if h =? 0 then Throw
      else Done (set_reply h name f, add_mapping (mk_pair h (op_argument f) h) ms)
  end.

Definition plain_free (f : data_server_file) (ms : mappings) : outcome mappings :=
  _ ← get_mapping (op_argument f) ms;
  remove_mapping (op_argument f) ms.

(** ** Copies *)

Definition bytes := Z -> Z.
Definition memcpy (dst src n : Z) (to from : bytes) : bytes :=
  fun a => if (dst <=? a) && (a <? dst + n) then from (src + (a - dst)) else to a.

Record memories := mk_mem { host : bytes; card : bytes }.

(** [MOVE_TO_FPGA] and [MOVE_FROM_FPGA] on an AWS card. *)
Definition aws_move (f : data_server_file) (ms : mappings) (m : memories) : outcome memories :=
  match operation f with
  | MOVE_TO_FPGA =>
      shaddr ← translate ms (op_argument f);
      Done (mk_mem (host m) (memcpy (op_argument f) shaddr (op3_argument f) (card m) (host m)))
  | MOVE_FROM_FPGA =>
      shaddr ← translate ms (op2_argument f);
      Done (mk_mem (memcpy shaddr (op2_argument f) (op3_argument f) (host m) (card m)) (card m))
  | _ => Done m
  end.

(** A simulator without DMA, and the Zynq card, which shares its memory with the host. *)
Definition no_move (f : data_server_file) (m : memories) : memories := m.

(** ** Lemmas *)

Lemma memcpy_in dst src n to from off : 0 <= off < n -> memcpy dst src n to from (dst + off) = from (src + off).
Proof. intros Ho. unfold memcpy. destruct (Z.leb_spec dst (dst + off)), (Z.ltb_spec (dst + off) (dst + n)); try lia. f_equal. lia. Qed.

Lemma memcpy_out dst src n to from a : ~ (dst <= a < dst + n) -> memcpy dst src n to from a = to a.
Proof. intros Ho. unfold memcpy. destruct (Z.leb_spec dst a), (Z.ltb_spec a (dst + n)); try done. lia. Qed.

(** A request of the plain build and the map after it. *)
Inductive plain_step (ms : mappings) : mappings -> Prop :=
| plain_step_alloc naddr name f f' ms' : plain_alloc naddr name f ms = Done (f', ms') -> plain_step ms ms'
| plain_step_free f ms' : plain_free f ms = Done ms' -> plain_step ms ms'.

Definition same_address (m : addr_pair) : Prop := cpu_addr m = fpga_addr m.

Lemma remove_mapping_sub a ms ms' : remove_mapping a ms = Done ms' -> forall m, m ∈ ms' -> m ∈ ms.
Proof.
  revert ms'. induction ms as [|x ms IH]; intros ms'; cbn; [done|]. destruct (fpga_addr x =? a).
  - intros [= <-] m Hm. by right.
  - intros (ms2 & E & [= <-])%bind_Done m Hm. apply elem_of_cons in Hm as [->|Hm]; [left|right; by eapply IH].
Qed.

Lemma plain_step_same ms ms' : plain_step ms ms' -> Forall same_address ms -> Forall same_address ms'.
Proof.
  rewrite !Forall_forall. intros [na nm f f' ms1 E|f ms1 E] Hs m Hm.
  - unfold plain_alloc in E. destruct na as [h|]; [|done]. destruct (h =? 0); [done|]. injection E as _ <-.
    apply elem_of_add_mapping in Hm as [->|Hm]; [done|by apply Hs].
  - unfold plain_free in E. apply bind_Done in E as (x & _ & E). eapply Hs, remove_mapping_sub; done.
Qed.

Lemma translate_same ms fp a : Forall same_address ms -> translate ms fp = Done a -> a = fp.
Proof.
  induction ms as [|m ms IH]; intros Hs; cbn; [done|]. apply Forall_cons in Hs as [Hm Hs]. unfold same_address in Hm.
  destruct (contains fp m); [|by apply IH]. destruct (_ <=? fp); [done|]. intros [= <-]. lia.
Qed.

(** ** Theorems *)

(** Without the custom allocator an address translates to itself or to nothing,
    whatever was allocated and freed. *)
Theorem plain_translate_identity ms fp a : rtc plain_step [] ms -> translate ms fp = Done a -> a = fp.
Proof.
  intros Hr. apply translate_same.
  assert (H0 : Forall same_address []) by constructor. revert H0. generalize (@nil addr_pair), ms, Hr.
  clear. induction 1 as [|x y z Hxy Hyz IH]; intros H0; [done|]. apply IH. by eapply plain_step_same.
Qed.

(** On an AWS card copying a buffer to the card writes exactly the buffer's bytes of the
    host into its device addresses, and copying it back leaves the host as it was. *)
Theorem aws_copy_roundtrip {A} `{MemAllocator A} (s : state A) live p len h f f' m :
  ds_inv s live -> mk_pair p len h ∈ at_ s -> 0 < len ->
  exists m1 m2,
    aws_move (request_copy_to p len f) (at_ s) m = Done m1 /\ host m1 = host m /\
    (forall off, 0 <= off < len -> card m1 (p + off) = host m (h + off)) /\
    (forall a, ~ (p <= a < p + len) -> card m1 a = card m a) /\
    aws_move (request_copy_from p len f') (at_ s) m1 = Done m2 /\ forall a, host m2 a = host m a.
Proof.
  intros Hi Hin Hlen. pose proof (mapped_translates s live p len h 0 Hi Hin ltac:(lia)) as Ht. rewrite !Z.add_0_r in Ht.
  eexists _, _. unfold aws_move. cbn [request_copy_to request_copy_from operation op_argument op2_argument op3_argument].
  rewrite Ht. cbn [mbind outcome_bind host card]. split_and!; [reflexivity|done| | |reflexivity|]; cbn [host card].
  - intros off Hoff. by apply memcpy_in.
  - intros a Ha. by apply memcpy_out.
  - intros a. destruct (decide (h <= a < h + len)) as [Ha|Ha]; [|by apply memcpy_out].
    replace a with (h + (a - h)) by lia. rewrite !memcpy_in by lia. done.
Qed.

(** ** Instances *)

Lemma plain_translate_identity_witness : translate [mk_pair 4096 100 4096] 4100 = Done 4100 /\ 4100 = 4100.
Proof.
  split; [reflexivity|]. apply (plain_translate_identity [mk_pair 4096 100 4096]); [|reflexivity].
  eapply rtc_l; [|apply rtc_refl]. eapply (plain_step_alloc _ (Some 4096) [] (request_malloc 100 (mk_dsf false false false [] 0 ALLOC 0 0 0 false))).
  reflexivity.
Defined.

#[local] Instance builds_size : GoodSize (2 ^ 25).
Proof. unfold GoodSize. lia. Defined.

Lemma aws_copy_roundtrip_witness : exists (s : state (device_mem (2 ^ 25))) p m1,
  aws_move (request_copy_to p 5000 demo_file) (at_ s) (mk_mem (fun a => a mod 256) (fun _ => 0)) = Done m1 /\
  card m1 (p + 77) = (1000000 + 77) mod 256.
Proof.
  assert (Hd : match serve (A := device_mem (2 ^ 25)) (Some 1000000) [] 0 [] (request_malloc 5000 demo_file)
      (mk_state (Alloc.new_allocator (2 ^ 25)) []) with Done _ => true | _ => false end = true) by (vm_compute; reflexivity).
  destruct (serve _ _ _ _ _ _) as [[[f1 s1] ds]| | | |] eqn:E; try discriminate Hd.
  destruct (serve_alloc (A := device_mem (2 ^ 25)) (mk_state (Alloc.new_allocator (2 ^ 25)) []) [] 5000 1000000 [] 0 [] demo_file f1 s1 ds)
    as (live & Hi & Hin & _); [apply empty_ds_inv, Alloc.new_inv; lia|lia|exact E|].
  destruct (aws_copy_roundtrip s1 live (op_argument f1) 5000 1000000 demo_file demo_file (mk_mem (fun a => a mod 256) (fun _ => 0)) Hi Hin ltac:(lia))
    as (m1 & m2 & E1 & _ & Hc & _).
  exists s1, (op_argument f1), m1. split; [exact E1|]. rewrite Hc by lia. reflexivity.
Defined.

End DataBuilds.
