(* ===== verification/RemotePtr.v ===== *)
(** * Reference-counted pointers to device memory

    [remote_ptr] of [libbeethoven/include/beethoven/allocator/alloc.h] and
    [libbeethoven/src/allocator/alloc.cc]: the constructors, the two
    assignments, the two pointer-arithmetic operators and the destructor.

    The pointer objects of a program are a map from variables to records.  The
    heap pair of a counter and a mutex that several objects share is a control
    block: [heap] maps its address to the 16-bit counter.  A call of [munmap] is
    recorded in [unmapped] (it is taken to succeed).  The mutex is not modelled: an
    operation is atomic.  [owned] is a history variable: the host range each
    control block was created for. *)

From S2P Require Import Prelude.

Module RemotePtr.

Record remote_ptr := mk_ptr {
  fpga_addr : Z;
  host_addr : Z;
  len : Z;               (* size_t *)
  offset : Z;            (* ptrdiff_t *)
  ctl : option nat       (* mutex and count, both null or both set *)
}.

Record mem := mk_mem {
  objs : gmap nat remote_ptr;
  heap : gmap nat Z;
  next : nat;
  unmapped : list (nat * Z * Z);
  owned : gmap nat (Z * Z)
}.

(** [getFpgaAddr], [getLen], [getHostAddr] and [operator==]. *)
Definition getFpgaAddr (p : remote_ptr) : Z := u64 (fpga_addr p).
Definition getLen (p : remote_ptr) : Z := len p.
Definition getHostAddr (p : remote_ptr) : Z := host_addr p.
Definition ptr_eqb (p q : remote_ptr) : bool := fpga_addr p =? fpga_addr q.

Definition with_obj (v : nat) (p : remote_ptr) (m : mem) : mem :=
  mk_mem (<[v := p]> (objs m)) (heap m) (next m) (unmapped m) (owned m).

(** [( *count)++] under the mutex; touching a deleted block has no meaning. *)
Definition incr (c : option nat) (m : mem) : outcome mem :=
  match c with
  | None => Done m
  | Some id =>
      n ← or_undef (heap m !! id);
      Done (mk_mem (objs m) (<[id := u16 (n + 1)]> (heap m)) (next m) (unmapped m) (owned m))
  end.

(** The release of a control block: [--( *count) == 0] deletes it and unmaps the
    range; [always] is the destructor, which does not test [host_addr]. *)
Definition release (always : bool) (p : remote_ptr) (m : mem) : outcome mem :=
  match ctl p with
  | None => Done m
  | Some id =>
      n ← or_undef (heap m !! id);
      let n' := u16 (n - 1) in
      if n' =? 0 then
        Done (mk_mem (objs m) (delete id (heap m)) (next m)
                (if (always || negb (host_addr p =? 0))%bool
                 then unmapped m ++ [(id, host_addr p - offset p, u64 (len p + offset p))]
                 else unmapped m) (owned m))
      else Done (mk_mem (objs m) (<[id := n']> (heap m)) (next m) (unmapped m) (owned m))
  end.

Inductive op :=
| New (v : nat) (faddr haddr l : Z)
| Default (v : nat)
| FromAddr (v : nat) (faddr : Z)
| Copy (v w : nat)
| Move (v w : nat)
| Plus (v w : nat) (q : Z)
| Minus (v w : nat) (q : Z)
| AssignCopy (v w : nat)
| AssignMove (v w : nat)
| Destroy (v : nat).

(** A variable that is being constructed does not exist yet. *)
Definition fresh (v : nat) (m : mem) : outcome unit :=
  match objs m !! v with None => Done tt | Some _ => Undef end.

(** A copy that joins the control block of [w]. *)
Definition share (v : nat) (p : remote_ptr) (m : mem) : outcome mem :=
  m' ← incr (ctl p) m; Done (with_obj v p m').

Definition exec (o : op) (m : mem) : outcome mem :=
  match o with
  | New v f h l =>
      _ ← fresh v m;
      let id := next m in
      Done (mk_mem (<[v := mk_ptr f h l 0 (Some id)]> (objs m)) (<[id := 1]> (heap m))
              (S id) (unmapped m) (<[id := (h, u64 l)]> (owned m)))
  | Default v => _ ← fresh v m; Done (with_obj v (mk_ptr 0 0 0 0 None) m)
  | FromAddr v f => _ ← fresh v m; Done (with_obj v (mk_ptr f 0 0 0 None) m)
  | Copy v w =>
      _ ← fresh v m; p ← or_undef (objs m !! w); share v p m
  | Move v w =>
      _ ← fresh v m;
      p ← or_undef (objs m !! w);
      Done (with_obj v p (with_obj w (mk_ptr 0 0 0 0 None) m))
  | Plus v w q =>
      _ ← fresh v m;
      p ← or_undef (objs m !! w);
      share v (mk_ptr (fpga_addr p + q) (host_addr p + q) (u64 (len p - q)) (offset p + q)
                 (ctl p)) m
  | Minus v w q =>
      _ ← fresh v m;
      p ← or_undef (objs m !! w);
      share v (mk_ptr (fpga_addr p - q) (host_addr p - q) (u64 (len p + q)) (offset p - q)
                 (ctl p)) m
  | AssignCopy v w =>
      p ← or_undef (objs m !! v);
      p' ← or_undef (objs m !! w);
      if decide (v = w) then Done m
      else
        m' ← release false p m;
        share v p' m'
  | AssignMove v w =>
      _ ← or_undef (objs m !! v);
      p' ← or_undef (objs m !! w);
      let m' := with_obj v p' m in
      p'' ← or_undef (objs m' !! w);
      Done (with_obj w (mk_ptr (fpga_addr p'') (host_addr p'') (len p'') (offset p'') None) m')
  | Destroy v =>
      p ← or_undef (objs m !! v);
      m' ← release true p m;
      Done (mk_mem (delete v (objs m')) (heap m') (next m') (unmapped m') (owned m'))
  end.

Fixpoint execs (os : list op) (m : mem) : outcome mem :=
  match os with
  | [] => Done m
  | o :: os' => m' ← exec o m; execs os' m'
  end.

Definition mem_init : mem := mk_mem ∅ ∅ 0 [] ∅.

(** ** Specification side *)

(** How many objects hold control block [id]. *)
Definition refs (m : gmap nat remote_ptr) (id : nat) : nat :=
  size (filter (fun kv => ctl kv.2 = Some id) m).

(** The counter of a block minus its holders. *)
Definition bal (m : mem) (id : nat) : Z :=
  default 0 (heap m !! id) - Z.of_nat (refs (objs m) id).

(** An assignment that drops a block without releasing it. *)
Definition leaks (o : op) (m : mem) : bool :=
  match o with
  | AssignMove v w =>
      match objs m !! v with
      | Some p => match ctl p with Some _ => true | None => false end
      | None => false
      end
  | _ => false
  end.

(** The variables an operation needs and those it creates. *)
Definition well_formed (o : op) (m : mem) : bool :=
  match o with
  | New v _ _ _ | Default v | FromAddr v _ => bool_decide (objs m !! v = None)
  | Copy v w | Move v w | Plus v w _ | Minus v w _ =>
      bool_decide (objs m !! v = None) && bool_decide (is_Some (objs m !! w))
  | AssignCopy v w | AssignMove v w =>
      bool_decide (is_Some (objs m !! v)) && bool_decide (is_Some (objs m !! w))
  | Destroy v => bool_decide (is_Some (objs m !! v))
  end.

(** The release of an object in an assignment skips [munmap] at a null address. *)
Definition skips_unmap (o : op) (m : mem) : bool :=
  match o with
  | AssignCopy v w =>
      match objs m !! v with
      | Some p => (host_addr p =? 0) && negb (bool_decide (ctl p = None))
      | None => false
      end
  | _ => false
  end.

(** Every operation of a run meets [ok] in the state it starts from. *)
Fixpoint run_ok (ok : op -> mem -> bool) (os : list op) (m : mem) : bool :=
  match os with
  | [] => true
  | o :: os' => ok o m && match exec o m with Done m' => run_ok ok os' m' | _ => true end
  end.

Definition clean (o : op) (m : mem) : bool :=
  well_formed o m && negb (leaks o m) && negb (skips_unmap o m).

Record inv (k : Z) (m : mem) : Prop := {
  v_heap : forall id n, heap m !! id = Some n -> 1 <= n <= k /\ (id < next m)%nat;
  v_bal : forall id, 0 <= bal m id;
  v_own : forall v p id, objs m !! v = Some p -> ctl p = Some id ->
    owned m !! id = Some (host_addr p - offset p, u64 (len p + offset p));
  v_next : forall id b, owned m !! id = Some b -> (id < next m)%nat;
  v_unmap : forall e, e ∈ unmapped m -> heap m !! e.1.1 = None /\ owned m !! e.1.1 = Some (e.1.2, e.2);
  v_once : NoDup ((fun e => e.1.1) <$> unmapped m)
}.

(** ** Lemmas on reference counts *)

Definition holds (p : remote_ptr) (id : nat) : Z := if decide (ctl p = Some id) then 1 else 0.

Lemma refs_insert m v p id : m !! v = None ->
  Z.of_nat (refs (<[v := p]> m) id) = Z.of_nat (refs m id) + holds p id.
Proof.
  intros Hv. unfold refs, holds. case_decide as Hc.
  - rewrite map_filter_insert_True by done. rewrite map_size_insert_None; [lia|].
    apply map_lookup_filter_None. left. done.
  - rewrite map_filter_insert_False by done. rewrite delete_id by done. lia.
Qed.

Lemma refs_delete m v p id : m !! v = Some p ->
  Z.of_nat (refs (delete v m) id) = Z.of_nat (refs m id) - holds p id.
Proof.
  intros Hv. rewrite <- (insert_delete_id m v p) at 2 by done.
  rewrite refs_insert by apply lookup_delete_eq. lia.
Qed.

Lemma refs_update m v p q id : m !! v = Some p ->
  Z.of_nat (refs (<[v := q]> m) id) = Z.of_nat (refs m id) - holds p id + holds q id.
Proof.
  intros Hv. rewrite <- insert_delete_eq, refs_insert by apply lookup_delete_eq.
  rewrite (refs_delete m v p) by done. lia.
Qed.

Lemma refs_empty id : refs ∅ id = 0%nat.
Proof. reflexivity. Qed.

(** A block that an object holds is on the heap. *)
Lemma held_alive k m v p id :
  inv k m -> objs m !! v = Some p -> ctl p = Some id ->
  exists n, heap m !! id = Some n /\ 1 <= n <= k /\ (1 <= refs (objs m) id)%nat.
Proof.
  intros Hi Hv Hc.
  assert (Hr : (1 <= refs (objs m) id)%nat).
  { rewrite <- (insert_delete_id (objs m) v p) by done.
    pose proof (refs_insert (delete v (objs m)) v p id (lookup_delete_eq _ _)) as E.
    unfold holds in E. rewrite decide_True in E by done. lia. }
  pose proof (v_bal _ _ Hi id) as Hb. unfold bal in Hb.
  destruct (heap m !! id) as [n|] eqn:E; simpl in Hb; [|lia].
  exists n. split; [done|]. split; [by apply (v_heap _ _ Hi id)|done].
Qed.

Lemma inv_mono k k' m : k <= k' -> inv k m -> inv k' m.
Proof.
  intros Hk [Hh Hb Ho Hn Hu Ho1]. split; try done. intros id n Hid.
  destruct (Hh id n Hid). split; [lia|done].
Qed.

(** Objects change but no block gains a holder. *)
Lemma inv_objs k m O :
  inv k m -> (forall id, (refs O id <= refs (objs m) id)%nat) ->
  (forall v p id, O !! v = Some p -> ctl p = Some id ->
     owned m !! id = Some (host_addr p - offset p, u64 (len p + offset p))) ->
  inv k (mk_mem O (heap m) (next m) (unmapped m) (owned m)).
Proof.
  intros [Hh Hb Ho Hn Hu Ho1] Hr Hp. split; try done. intros id.
  specialize (Hb id). specialize (Hr id). unfold bal in *. simpl. lia.
Qed.

Definition clear (p : remote_ptr) : remote_ptr :=
  mk_ptr (fpga_addr p) (host_addr p) (len p) (offset p) None.

Lemma holds_none p id : ctl p = None -> holds p id = 0.
Proof. intros E. unfold holds. rewrite E. by rewrite decide_False. Qed.

(** The variable is new, or holds no block. *)
Definition vacant (v : nat) (m : mem) : Prop :=
  match objs m !! v with None => True | Some p => ctl p = None end.

Lemma refs_vacant m v q id : vacant v m ->
  Z.of_nat (refs (<[v := q]> (objs m)) id) = Z.of_nat (refs (objs m) id) + holds q id.
Proof.
  unfold vacant. destruct (objs m !! v) as [p|] eqn:E; intros Hv.
  - rewrite (refs_update _ _ p), (holds_none p) by done. lia.
  - by apply refs_insert.
Qed.

Lemma owned_insert k m v q :
  inv k m -> (forall id, ctl q = Some id ->
    owned m !! id = Some (host_addr q - offset q, u64 (len q + offset q))) ->
  forall w p id, <[v := q]> (objs m) !! w = Some p -> ctl p = Some id ->
    owned m !! id = Some (host_addr p - offset p, u64 (len p + offset p)).
Proof.
  intros Hi Hq w p id Hw Hc. apply lookup_insert_Some in Hw as [[-> ->]|[_ Hw]]; [by apply Hq|].
  by eapply (v_own _ _ Hi).
Qed.

(** An object without a block comes into being, or replaces one without. *)
Lemma inv_none k m v q : inv k m -> vacant v m -> ctl q = None ->
  inv k (with_obj v q m) /\ forall id, bal (with_obj v q m) id = bal m id.
Proof.
  intros Hi Hv Hq.
  assert (Hr : forall id, Z.of_nat (refs (<[v := q]> (objs m)) id) = Z.of_nat (refs (objs m) id)).
  { intros id. rewrite refs_vacant, holds_none by done. lia. }
  split; [|intros id; unfold bal; simpl; by rewrite Hr].
  apply inv_objs; [done| |].
  - intros id. specialize (Hr id). lia.
  - eapply owned_insert; [done|]. by rewrite Hq.
Qed.

(** A copy joins a block that is alive. *)
Lemma share_ok k m v q :
  inv k m -> vacant v m -> k < 65535 ->
  (forall id, ctl q = Some id -> (exists n, heap m !! id = Some n) /\
     owned m !! id = Some (host_addr q - offset q, u64 (len q + offset q))) ->
  exists m', share v q m = Done m' /\ inv (k + 1) m' /\ forall id, bal m' id = bal m id.
Proof.
  intros Hi Hv Hk Hq. unfold share, incr. destruct (ctl q) as [c|] eqn:Ec.
  - destruct (Hq c eq_refl) as [[n Hn] Hown]. rewrite Hn. simpl.
    destruct (v_heap _ _ Hi c n Hn) as [Hnk Hnx].
    rewrite u16_small by lia.
    assert (Hbal : forall id, bal (mk_mem (<[v := q]> (objs m)) (<[c := n + 1]> (heap m)) (next m)
      (unmapped m) (owned m)) id = bal m id).
    { intros id. unfold bal. simpl. rewrite refs_vacant by done. unfold holds. rewrite Ec.
      destruct (decide (id = c)) as [->|Hne].
      - rewrite lookup_insert_eq, Hn, decide_True by done. simpl. lia.
      - rewrite lookup_insert_ne by done. rewrite decide_False by congruence. lia. }
    eexists. split; [done|]. split; [|done]. split; simpl.
    + intros id n' Hid. apply lookup_insert_Some in Hid as [[<- <-]|[_ Hid]]; [split; [lia|done]|].
      destruct (v_heap _ _ Hi id n' Hid). split; [lia|done].
    + intros id. rewrite Hbal. apply (v_bal _ _ Hi).
    + eapply owned_insert; [done|]. intros id Hid. rewrite Ec in Hid. by simplify_eq.
    + apply (v_next _ _ Hi).
    + intros e He. destruct (v_unmap _ _ Hi e He) as [H1 H2]. split; [|done].
      rewrite lookup_insert_ne; [done|]. congruence.
    + apply (v_once _ _ Hi).
  - simpl. destruct (inv_none k m v q Hi Hv Ec) as [Hi' Hb]. eexists. split; [done|].
    split; [|done]. by eapply inv_mono; [|done]; lia.
Qed.

(** An object gives its block back. *)
Lemma release_ok k m v p b :
  inv k m -> k < 65536 -> objs m !! v = Some p ->
  exists m1, release b p m = Done m1 /\ objs m1 = objs m /\
    inv k (with_obj v (clear p) m1) /\ forall id, bal (with_obj v (clear p) m1) id = bal m id.
Proof.
  intros Hi Hk Hv. unfold release. destruct (ctl p) as [c|] eqn:Ec.
  2:{ exists m. split_and!; try done.
      - apply inv_none; [done| |done]. unfold vacant. by rewrite Hv.
      - apply (inv_none k); [done| |done]. unfold vacant. by rewrite Hv. }
  destruct (held_alive k m v p c Hi Hv Ec) as (n & Hn & Hnk & Hr). rewrite Hn. simpl.
  rewrite u16_small by lia. pose proof (v_own _ _ Hi v p c Hv Ec) as Hown.
  assert (Hbal : forall H U, (forall id, default 0 (H !! id) =
      default 0 (heap m !! id) - (if decide (id = c) then 1 else 0)) ->
    forall id, bal (mk_mem (<[v := clear p]> (objs m)) H (next m) U (owned m)) id = bal m id).
  { intros H U HH id. unfold bal. simpl. rewrite (refs_update _ _ p) by done. rewrite HH.
    rewrite (holds_none (clear p)) by done. unfold holds. rewrite Ec.
    destruct (decide (id = c)) as [->|]; [rewrite decide_True by done|rewrite decide_False by congruence]; lia. }
  assert (Ho : forall w q id, <[v := clear p]> (objs m) !! w = Some q -> ctl q = Some id ->
    owned m !! id = Some (host_addr q - offset q, u64 (len q + offset q)))
    by (eapply owned_insert; [done|done]).
  destruct (n - 1 =? 0) eqn:E; zb.
  - eexists. split_and!; [done|done| |].
    2:{ apply Hbal. simpl. intros id. destruct (decide (id = c)) as [->|].
        - rewrite lookup_delete_eq, Hn. simpl. lia.
        - rewrite lookup_delete_ne by done. lia. }
    split; simpl; try done.
    + intros id n' Hid. apply lookup_delete_Some in Hid as [_ Hid]. by apply (v_heap _ _ Hi).
    + intros id. unfold with_obj. simpl. rewrite Hbal; [apply (v_bal _ _ Hi)|].
      simpl. intros id'. destruct (decide (id' = c)) as [->|].
      * rewrite lookup_delete_eq, Hn. simpl. lia.
      * rewrite lookup_delete_ne by done. lia.
    + apply (v_next _ _ Hi).
    + intros e He. assert (He' : e ∈ unmapped m \/ e = (c, host_addr p - offset p, u64 (len p + offset p))).
      { destruct (_ || _)%bool; [|by left]. apply elem_of_app in He as [|He]; [by left|].
        right. by apply list_elem_of_singleton in He. }
      destruct He' as [He'| ->].
      * destruct (v_unmap _ _ Hi e He') as [H1 H2]. split; [|done].
        rewrite lookup_delete_ne; [done|]. congruence.
      * simpl. by rewrite lookup_delete_eq.
    + destruct (_ || _)%bool; [|apply (v_once _ _ Hi)]. rewrite fmap_app. simpl.
      apply NoDup_app. split; [apply (v_once _ _ Hi)|]. split; [|apply NoDup_singleton].
      intros x Hx ->%list_elem_of_singleton. apply list_elem_of_fmap in Hx as (e & -> & He).
      destruct (v_unmap _ _ Hi e He) as [H1 _]. congruence.
  - eexists. split_and!; [done|done| |].
    2:{ apply Hbal. simpl. intros id. destruct (decide (id = c)) as [->|].
        - rewrite lookup_insert_eq, Hn. simpl. lia.
        - rewrite lookup_insert_ne by done. lia. }
    split; simpl; try done.
    + intros id n' Hid. apply lookup_insert_Some in Hid as [[<- <-]|[_ Hid]].
      * destruct (v_heap _ _ Hi c n Hn). split; [lia|done].
      * by apply (v_heap _ _ Hi).
    + intros id. unfold with_obj. simpl. rewrite Hbal; [apply (v_bal _ _ Hi)|].
      simpl. intros id'. destruct (decide (id' = c)) as [->|].
      * rewrite lookup_insert_eq, Hn. simpl. lia.
      * rewrite lookup_insert_ne by done. lia.
    + apply (v_next _ _ Hi).
    + intros e He. destruct (v_unmap _ _ Hi e He) as [H1 H2]. split; [|done].
      rewrite lookup_insert_ne; [done|]. congruence.
    + apply (v_once _ _ Hi).
Qed.

(** A new control block for a new mapping. *)
Lemma new_ok k m v f h l :
  inv k m -> 0 <= k -> objs m !! v = None ->
  exists m', exec (New v f h l) m = Done m' /\ inv (k + 1) m' /\ forall id, bal m' id = bal m id.
Proof.
  intros Hi Hk Hv. unfold exec, fresh. rewrite Hv. cbn [mbind outcome_bind].
  assert (Hnh : heap m !! next m = None).
  { destruct (heap m !! next m) eqn:E; [|done]. destruct (v_heap _ _ Hi _ _ E). lia. }
  assert (Hno : owned m !! next m = None).
  { destruct (owned m !! next m) eqn:E; [|done]. apply (v_next _ _ Hi) in E. lia. }
  eexists. split; [done|].
  match goal with |- inv _ ?m' /\ _ => assert (Hbal : forall id, bal m' id = bal m id) end.
  { intros id. unfold bal. simpl. rewrite refs_insert by done. unfold holds. simpl.
    destruct (decide (id = next m)) as [->|].
    - rewrite lookup_insert_eq, decide_True, Hnh by done. simpl. lia.
    - rewrite lookup_insert_ne, decide_False by congruence. lia. }
  split; [|done]. split; simpl.
  - intros id n Hid. apply lookup_insert_Some in Hid as [[<- <-]|[_ Hid]]; [lia|].
    destruct (v_heap _ _ Hi id n Hid). lia.
  - intros id. rewrite Hbal. apply (v_bal _ _ Hi).
  - intros w q id Hw Hc. apply lookup_insert_Some in Hw as [[<- <-]|[_ Hw]]; simpl in *; simplify_eq.
    + rewrite lookup_insert_eq. by rewrite Z.sub_0_r, Z.add_0_r.
    + pose proof (v_own _ _ Hi w q id Hw Hc). rewrite lookup_insert_ne; congruence.
  - intros id b Hid. apply lookup_insert_Some in Hid as [[<- <-]|[_ Hid]]; [lia|].
    apply (v_next _ _ Hi) in Hid. lia.
  - intros e He. destruct (v_unmap _ _ Hi e He).
    rewrite !lookup_insert_ne by congruence. done.
  - apply (v_once _ _ Hi).
Qed.

(** The object that was moved from keeps no block. *)
Lemma move_ok k m v w p e :
  inv k m -> objs m !! v = None -> objs m !! w = Some p -> ctl e = None ->
  inv k (with_obj v p (with_obj w e m)) /\
  forall id, bal (with_obj v p (with_obj w e m)) id = bal m id.
Proof.
  intros Hi Hv Hw He. assert (v <> w) by congruence.
  assert (Hr : forall id, Z.of_nat (refs (<[v := p]> (<[w := e]> (objs m))) id) =
    Z.of_nat (refs (objs m) id)).
  { intros id. rewrite refs_insert by by rewrite lookup_insert_ne.
    rewrite (refs_update _ _ p), (holds_none e) by done. lia. }
  split; [|intros id; unfold bal; simpl; by rewrite Hr].
  apply (inv_objs k m); [done| |]; simpl.
  - intros id. specialize (Hr id). lia.
  - intros x q id Hx Hc. apply lookup_insert_Some in Hx as [[<- <-]|[_ Hx]]; [by eapply (v_own _ _ Hi)|].
    apply lookup_insert_Some in Hx as [[<- <-]|[_ Hx]]; [congruence|by eapply (v_own _ _ Hi)].
Qed.

Lemma assign_move_ok k m v w p p' :
  inv k m -> objs m !! v = Some p -> objs m !! w = Some p' ->
  exists m', exec (AssignMove v w) m = Done m' /\ inv k m' /\
    (ctl p = None -> forall id, bal m' id = bal m id).
Proof.
  intros Hi Hv Hw. unfold exec. rewrite Hv, Hw. simpl.
  assert (Hl : <[v := p']> (objs m) !! w = Some p').
  { destruct (decide (v = w)) as [->|]; [apply lookup_insert_eq|by rewrite lookup_insert_ne]. }
  rewrite Hl. simpl. eexists. split; [done|]. fold (clear p').
  assert (Hr : forall id, Z.of_nat (refs (<[w := clear p']> (<[v := p']> (objs m))) id) =
    Z.of_nat (refs (objs m) id) - holds p id).
  { intros id. rewrite (refs_update _ _ p'), (refs_update _ _ p), (holds_none (clear p')) by done. lia. }
  split; [|intros Hc id; unfold bal; simpl; rewrite Hr, holds_none by done; lia].
  apply (inv_objs k m); [done| |]; simpl.
  - intros id. specialize (Hr id). assert (0 <= holds p id) by (unfold holds; case_decide; lia). lia.
  - intros x q id Hx Hc. apply lookup_insert_Some in Hx as [[<- <-]|[_ Hx]]; [done|].
    apply lookup_insert_Some in Hx as [[<- <-]|[_ Hx]]; by eapply (v_own _ _ Hi).
Qed.

Lemma assign_copy_ok k m v w p p' :
  inv k m -> k < 65535 -> objs m !! v = Some p -> objs m !! w = Some p' ->
  exists m', exec (AssignCopy v w) m = Done m' /\ inv (k + 1) m' /\ forall id, bal m' id = bal m id.
Proof.
  intros Hi Hk Hv Hw. unfold exec. rewrite Hv, Hw. simpl. case_decide as Hvw.
  { exists m. split; [done|]. split; [by apply (inv_mono k); [lia|]|done]. }
  destruct (release_ok k m v p false Hi ltac:(lia) Hv) as (m1 & -> & Hm1 & Hi1 & Hb1). simpl.
  assert (Hsh : share v p' m1 = share v p' (with_obj v (clear p) m1)).
  { unfold share, incr, with_obj. simpl. destruct (ctl p') as [c|]; simpl.
    - destruct (heap m1 !! c); simpl; [|done]. by rewrite insert_insert_eq.
    - by rewrite insert_insert_eq. }
  rewrite Hsh. destruct (share_ok k (with_obj v (clear p) m1) v p') as (m2 & Hm2 & Hi2 & Hb2); try done.
  - unfold vacant. simpl. by rewrite lookup_insert_eq.
  - intros id Hc. assert (Hw' : objs (with_obj v (clear p) m1) !! w = Some p').
    { simpl. rewrite lookup_insert_ne by done. by rewrite Hm1. }
    destruct (held_alive _ _ _ _ _ Hi1 Hw' Hc) as (n & Hn & _). split; [by exists n|].
    apply (v_own _ _ Hi1 w p' id Hw' Hc).
  - exists m2. split; [done|]. split; [done|]. intros id. by rewrite Hb2, Hb1.
Qed.

Lemma destroy_ok k m v p :
  inv k m -> k < 65536 -> objs m !! v = Some p ->
  exists m', exec (Destroy v) m = Done m' /\ inv k m' /\ forall id, bal m' id = bal m id.
Proof.
  intros Hi Hk Hv. unfold exec. rewrite Hv. simpl.
  destruct (release_ok k m v p true Hi Hk Hv) as (m1 & -> & Hm1 & Hi1 & Hb1). simpl.
  eexists. split; [done|].
  assert (Hl : objs (with_obj v (clear p) m1) !! v = Some (clear p)) by apply lookup_insert_eq.
  assert (Hr : forall id, Z.of_nat (refs (delete v (objs m1)) id) =
    Z.of_nat (refs (objs (with_obj v (clear p) m1)) id)).
  { intros id. rewrite <- (delete_insert_eq (objs m1) v (clear p)).
    rewrite (refs_delete _ _ (clear p)), (holds_none (clear p)) by done. simpl. lia. }
  split.
  - apply (inv_objs k (with_obj v (clear p) m1)); [done| |].
    + intros id. specialize (Hr id). lia.
    + intros x q id Hx Hc. apply lookup_delete_Some in Hx as [Hne Hx].
      apply (v_own _ _ Hi1 x q id); [|done]. simpl. by rewrite lookup_insert_ne.
  - intros id. rewrite <- Hb1. unfold bal. simpl. by rewrite Hr.
Qed.

(** A shifted copy still names the mapping of its block. *)
Lemma shifted_range p q : 
  let p' := mk_ptr (fpga_addr p + q) (host_addr p + q) (u64 (len p - q)) (offset p + q) (ctl p) in
  (host_addr p' - offset p', u64 (len p' + offset p')) =
  (host_addr p - offset p, u64 (len p + offset p)).
Proof.
  simpl. f_equal; [lia|]. unfold u64, wrapw. rewrite Zplus_mod_idemp_l. f_equal. lia.
Qed.

Lemma shift_ok k m v w p p' :
  inv k m -> k < 65535 -> objs m !! v = None -> objs m !! w = Some p -> ctl p' = ctl p ->
  (host_addr p' - offset p', u64 (len p' + offset p')) =
    (host_addr p - offset p, u64 (len p + offset p)) ->
  exists m', share v p' m = Done m' /\ inv (k + 1) m' /\ forall id, bal m' id = bal m id.
Proof.
  intros Hi Hk Hv Hw Hc Hr. apply share_ok; [done| |done|].
  - unfold vacant. by rewrite Hv.
  - intros id Hid. rewrite Hc in Hid. rewrite Hr.
    destruct (held_alive _ _ _ _ _ Hi Hw Hid) as (n & Hn & _). split; [by exists n|].
    by eapply (v_own _ _ Hi).
Qed.

(** One operation on objects that exist. *)
Lemma exec_ok k m o :
  inv k m -> 0 <= k < 65535 -> well_formed o m = true ->
  exists m', exec o m = Done m' /\ inv (k + 1) m' /\
    (leaks o m = false -> forall id, bal m' id = bal m id).
Proof.
  intros Hi Hk Hw.
  assert (Hup : forall m', inv k m' -> inv (k + 1) m') by (intros; apply (inv_mono k); [lia|done]).
  assert (Hfr : forall v, objs m !! v = None -> fresh v m = Done tt)
    by (intros v E; unfold fresh; by rewrite E).
  destruct o as [v f h l|v|v f|v w|v w|v w q|v w q|v w|v w|v]; unfold well_formed in Hw; zb;
    repeat match goal with H : bool_decide _ = true |- _ => apply bool_decide_eq_true in H end;
    repeat match goal with H : is_Some _ |- _ => destruct H as [? ?] end.
  - destruct (new_ok k m v f h l) as (m' & ? & ? & ?); [done|lia|done|]. exists m'. by split_and!.
  - unfold exec. rewrite Hfr by done. cbn [mbind outcome_bind]. eexists. split; [done|].
    destruct (inv_none k m v (mk_ptr 0 0 0 0 None) Hi) as [? ?]; [unfold vacant; by rewrite Hw|done|].
    split; [by apply Hup|done].
  - unfold exec. rewrite Hfr by done. cbn [mbind outcome_bind]. eexists. split; [done|].
    destruct (inv_none k m v (mk_ptr f 0 0 0 None) Hi) as [? ?]; [unfold vacant; by rewrite Hw|done|].
    split; [by apply Hup|done].
  - unfold exec. rewrite Hfr by done. rewrite H0. simpl.
    destruct (shift_ok k m v w x x) as (m' & ? & ? & ?); try done; [lia|]. exists m'. by split_and!.
  - unfold exec. rewrite Hfr by done. rewrite H0. simpl. eexists. split; [done|].
    destruct (move_ok k m v w x (mk_ptr 0 0 0 0 None)) as [? ?]; try done.
    split; [by apply Hup|done].
  - unfold exec. rewrite Hfr by done. rewrite H0. cbn [mbind outcome_bind or_undef].
    edestruct (shift_ok k m v w x) as (m' & ? & ? & ?); [done|lia|done|done| |apply shifted_range|].
    + done.
    + exists m'. by split_and!.
  - unfold exec. rewrite Hfr by done. rewrite H0. cbn [mbind outcome_bind or_undef].
    edestruct (shift_ok k m v w x) as (m' & ? & ? & ?);
      [done|lia|done|done| |apply (shifted_range x (- q))|].
    + done.
    + exists m'. rewrite Z.sub_opp_r in *. by split_and!.
  - destruct (assign_copy_ok k m v w x0 x) as (m' & ? & ? & ?); try done; [lia|]. exists m'. by split_and!.
  - destruct (assign_move_ok k m v w x0 x) as (m' & ? & ? & Hb); try done. exists m'.
    split_and!; [done|by apply Hup|]. unfold leaks. rewrite H. intros Hl. apply Hb. by destruct (ctl x0).
  - destruct (destroy_ok k m v x) as (m' & ? & ? & ?); [done|lia|done|]. exists m'.
    split_and!; [done|by apply Hup|done].
Qed.

(** ** Every block that is gone was unmapped *)

Definition freed (m : mem) : Prop :=
  forall id b, owned m !! id = Some b -> heap m !! id = None -> (id, b.1, b.2) ∈ unmapped m.

Lemma freed_heap m m' :
  (forall id, heap m' !! id = None -> heap m !! id = None) ->
  owned m' = owned m -> unmapped m' = unmapped m -> freed m -> freed m'.
Proof. intros Hh Ho Hu Hf id b. rewrite Ho, Hu. intros H1 H2. apply Hf; [done|by apply Hh]. Qed.

Lemma incr_freed c m m' : incr c m = Done m' -> freed m -> freed m'.
Proof.
  unfold incr. destruct c as [id|]; [|by intros [= ->]].
  destruct (heap m !! id); simpl; [|done]. intros [= <-]. apply freed_heap; try done.
  intros id'. simpl. rewrite lookup_insert_None. naive_solver.
Qed.

Lemma share_freed v p m m' : share v p m = Done m' -> freed m -> freed m'.
Proof.
  unfold share. destruct (incr (ctl p) m) as [m1| | | |] eqn:E; simpl; try done.
  intros [= <-] Hf. by apply (incr_freed _ _ _ E).
Qed.

Lemma release_freed k b v p m m' :
  inv k m -> objs m !! v = Some p -> (b || negb ((host_addr p =? 0) && negb (bool_decide (ctl p = None))))%bool = true ->
  release b p m = Done m' -> freed m -> freed m'.
Proof.
  intros Hi Hv Hb. unfold release. destruct (ctl p) as [c|] eqn:Ec; [|by intros [= ->]].
  destruct (heap m !! c) as [n|] eqn:En; simpl; [|done].
  rewrite bool_decide_eq_false_2 in Hb by done. simpl in Hb. rewrite andb_true_r in Hb. rewrite Hb.
  destruct (u16 (n - 1) =? 0); intros [= <-] Hf.
  - intros id r Hid Hn. simpl in *. destruct (decide (id = c)) as [->|Hne].
    + rewrite (v_own _ _ Hi v p c Hv Ec) in Hid. injection Hid as <-. set_solver.
    + rewrite lookup_delete_ne in Hn by done. apply elem_of_app. left. by apply Hf.
  - revert Hf. apply freed_heap; try done. intros id. simpl. rewrite lookup_insert_None. naive_solver.
Qed.

Lemma exec_freed k m o m' :
  inv k m -> skips_unmap o m = false -> exec o m = Done m' -> freed m -> freed m'.
Proof.
  intros Hi Hs He Hf.
  destruct o as [v f h l|v|v f|v w|v w|v w q|v w q|v w|v w|v]; unfold exec in He;
    repeat match type of He with
    | context [fresh ?v m] => destruct (fresh v m) eqn:?; try done; cbn [mbind outcome_bind] in He
    | context [or_undef (objs m !! ?v)] =>
        destruct (objs m !! v) as [?p|] eqn:?; try done; cbn [mbind outcome_bind or_undef] in He
    end; try (by eapply share_freed); try (injection He as <-; done).
  - injection He as <-. intros id b Hid Hn. simpl in *. apply lookup_insert_None in Hn as [Hn Hne].
    rewrite lookup_insert_ne in Hid by done. by apply Hf.
  - case_decide; [by injection He as <-|]. unfold skips_unmap in Hs.
    match goal with H : objs m !! v = Some _ |- _ => rewrite H in Hs end.
    match type of He with context [release ?b ?q m] =>
      destruct (release b q m) as [m1| | | |] eqn:Er; try done end. simpl in He.
    eapply share_freed; [done|]. eapply release_freed; [done|done| |done|done]. by rewrite Hs.
  - destruct (_ !! w) in He; try done. by injection He as <-.
  - destruct (release true p m) as [m1| | | |] eqn:Er; try done. simpl in He. injection He as <-.
    eapply (release_freed k true v p m m1); done.
Qed.

(** ** Runs *)

Lemma execs_inv ok os : forall k m,
  (forall o m, ok o m = true -> well_formed o m = true) ->
  0 <= k -> k + Z.of_nat (length os) <= 65535 -> inv k m -> run_ok ok os m = true ->
  exists m', execs os m = Done m' /\ inv (k + Z.of_nat (length os)) m'.
Proof.
  induction os as [|o os IH]; intros k m Hok Hk Hl Hi Hr; simpl in *.
  - exists m. split; [done|]. apply (inv_mono k); [lia|done].
  - zb. destruct (exec_ok k m o Hi) as (m1 & E & Hi1 & _); [lia|by apply Hok|].
    rewrite E in *. simpl. destruct (IH (k + 1) m1) as (m' & Hm' & Hi'); try done; try lia.
    exists m'. split; [done|]. apply (inv_mono (k + 1 + Z.of_nat (length os))); [lia|done].
Qed.

Lemma execs_clean os : forall k m,
  0 <= k -> k + Z.of_nat (length os) <= 65535 -> inv k m -> run_ok clean os m = true ->
  (forall id, bal m id = 0) -> freed m ->
  exists m', execs os m = Done m' /\ inv (k + Z.of_nat (length os)) m' /\
    (forall id, bal m' id = 0) /\ freed m'.
Proof.
  induction os as [|o os IH]; intros k m Hk Hl Hi Hr Hb Hf; simpl in *.
  - exists m. split; [done|]. split; [|done]. apply (inv_mono k); [lia|done].
  - zb. unfold clean in H. zb. destruct (exec_ok k m o Hi) as (m1 & E & Hi1 & Hb1); [lia|done|].
    rewrite E in *. simpl. destruct (IH (k + 1) m1) as (m' & Hm' & Hi' & ? & ?); try done; try lia.
    + intros id. by rewrite Hb1.
    + by apply (exec_freed k m o m1).
    + exists m'. split_and!; try done. apply (inv_mono (k + 1 + Z.of_nat (length os))); [lia|done].
Qed.

Lemma inv_init : inv 0 mem_init.
Proof.
  split; simpl; try by intros *; rewrite lookup_empty.
  - intros id. unfold bal. simpl. by rewrite refs_empty, lookup_empty.
  - intros e He. by apply not_elem_of_nil in He.
  - constructor.
Qed.

(** C36. Over any program of at most 65535 operations on existing [remote_ptr]
    objects no deleted counter is touched (the run is defined); at its end the
    block of every live object is still allocated and its host range has not
    been unmapped; every [munmap] was of the range its block was created with,
    and no block was unmapped twice. *)
Theorem mapping_outlives_pointers os :
  Z.of_nat (length os) <= 65535 -> run_ok well_formed os mem_init = true ->
  exists m, execs os mem_init = Done m /\
    (forall v p id, objs m !! v = Some p -> ctl p = Some id ->
       is_Some (heap m !! id) /\ id ∉ ((fun e => e.1.1) <$> unmapped m)) /\
    (forall e, e ∈ unmapped m -> owned m !! e.1.1 = Some (e.1.2, e.2)) /\
    NoDup ((fun e => e.1.1) <$> unmapped m).
Proof.
  intros Hl Hr. destruct (execs_inv well_formed os 0 mem_init) as (m & Hm & Hi);
    [done|lia|lia|apply inv_init|done|].
  exists m. split; [done|]. split; [|split].
  - intros v p id Hv Hc. destruct (held_alive _ _ _ _ _ Hi Hv Hc) as (n & Hn & _).
    split; [by exists n|]. intros (e & -> & He)%list_elem_of_fmap.
    destruct (v_unmap _ _ Hi e He). congruence.
  - intros e He. by apply (v_unmap _ _ Hi e He).
  - apply (v_once _ _ Hi).
Qed.

(** When no move-assignment overwrites an object that holds a block (and no
    copy-assignment overwrites one whose host address is null), the counter of
    every block is the number of objects that hold it, and a host range has been
    unmapped exactly when no object refers to its block any more. *)
Theorem unmapped_iff_unreferenced os :
  Z.of_nat (length os) <= 65535 -> run_ok clean os mem_init = true ->
  exists m, execs os mem_init = Done m /\
    (forall id, default 0 (heap m !! id) = Z.of_nat (refs (objs m) id)) /\
    (forall id b, owned m !! id = Some b ->
       (refs (objs m) id = 0%nat <-> (id, b.1, b.2) ∈ unmapped m)).
Proof.
  intros Hl Hr. destruct (execs_clean os 0 mem_init) as (m & Hm & Hi & Hb & Hf);
    [lia|lia|apply inv_init|done| |done|].
  { intros id. unfold bal. simpl. by rewrite refs_empty, lookup_empty. }
  assert (Hc : forall id, default 0 (heap m !! id) = Z.of_nat (refs (objs m) id)).
  { intros id. specialize (Hb id). unfold bal in Hb. lia. }
  exists m. split_and!; [done|done|]. intros id b Hid. split.
  - intros H0. apply Hf; [done|]. specialize (Hc id). rewrite H0 in Hc.
    destruct (heap m !! id) as [n|] eqn:E; [|done]. simpl in Hc.
    destruct (v_heap _ _ Hi id n E). lia.
  - intros He. destruct (v_unmap _ _ Hi _ He) as [Hn _]. simpl in Hn. specialize (Hc id).
    rewrite Hn in Hc. simpl in Hc. lia.
Qed.

(** A buffer, a view into it, a copy, and the end of all three. *)
Definition demo : list op :=
  [New 0 4096 100000 64; Plus 1 0 16; Copy 2 1; Default 3; AssignCopy 3 2; Destroy 0; Move 4 1;
   Destroy 2; Minus 5 4 16; Destroy 3; Destroy 4].

Lemma mapping_outlives_pointers_witness :
  exists m, execs demo mem_init = Done m /\
    (forall v p id, objs m !! v = Some p -> ctl p = Some id ->
       is_Some (heap m !! id) /\ id ∉ ((fun e => e.1.1) <$> unmapped m)) /\
    (forall e, e ∈ unmapped m -> owned m !! e.1.1 = Some (e.1.2, e.2)) /\
    NoDup ((fun e => e.1.1) <$> unmapped m).
Proof. apply (mapping_outlives_pointers demo); [simpl; lia|vm_compute; reflexivity]. Defined.

Lemma unmapped_iff_unreferenced_witness :
  exists m, execs demo mem_init = Done m /\
    (forall id, default 0 (heap m !! id) = Z.of_nat (refs (objs m) id)) /\
    (forall id b, owned m !! id = Some b ->
       (refs (objs m) id = 0%nat <-> (id, b.1, b.2) ∈ unmapped m)).
Proof. apply (unmapped_iff_unreferenced demo); [simpl; lia|vm_compute; reflexivity]. Defined.

Lemma execs_app os os' m : execs (os ++ os') m = (m' ← execs os m; execs os' m').
Proof.
  revert m. induction os as [|o os IH]; intros m; [done|]. cbn [app execs].
  destruct (exec o m); try done. apply IH.
Qed.

(** [k] copies of variable 0, in the variables from [s] on. *)
Definition copies (s k : nat) : list op := (fun v => Copy v 0) <$> seq s k.

Lemma copies_run p id k : ctl p = Some id -> forall s m n, (0 < s)%nat -> objs m !! 0%nat = Some p ->
  (forall v, (s <= v)%nat -> objs m !! v = None) -> heap m !! id = Some (u16 n) ->
  exists m', execs (copies s k) m = Done m' /\ (forall v, (v < s)%nat -> objs m' !! v = objs m !! v) /\
    (forall v, (s <= v < s + k)%nat -> objs m' !! v = Some p) /\
    heap m' !! id = Some (u16 (n + Z.of_nat k)) /\ unmapped m' = unmapped m.
Proof.
  intros Hp. induction k as [|k IH]; intros s m n Hs H0 Hf Hh.
  { exists m. split_and!; [done|done|lia|by rewrite Z.add_0_r|done]. }
  unfold copies. cbn [seq fmap list_fmap execs exec]. unfold fresh, share, incr.
  rewrite (Hf s) by lia. cbn [mbind outcome_bind]. rewrite H0. cbn [or_undef mbind outcome_bind].
  rewrite Hp, Hh. cbn [or_undef mbind outcome_bind].
  match goal with |- context [execs _ ?mm] => set (m1 := mm) end.
  destruct (IH (S s) m1 (n + 1)) as (m' & E & Hlt & Hge & Hh' & Hu); [lia|..].
  - unfold m1. cbn [objs with_obj]. by rewrite lookup_insert_ne by lia.
  - intros v Hv. unfold m1. cbn [objs with_obj]. rewrite lookup_insert_ne by lia. apply Hf. lia.
  - unfold m1. cbn [heap with_obj]. rewrite lookup_insert_eq. f_equal. unfold u16, wrapw. by rewrite Zplus_mod_idemp_l.
  - exists m'. split_and!; [exact E|..].
    + intros v Hv. rewrite Hlt by lia. unfold m1. cbn [objs with_obj]. by rewrite lookup_insert_ne by lia.
    + intros v Hv. destruct (decide (v = s)) as [->|]; [|apply Hge; lia].
      rewrite Hlt by lia. unfold m1. cbn [objs with_obj]. by rewrite lookup_insert_eq.
    + rewrite Hh'. do 2 f_equal. lia.
    + by rewrite Hu.
Qed.

(** The bound on the operations is needed: the counter has 16 bits.  With 65537 objects
    on one block it stands at 1, and the end of one of them deletes the counter and
    unmaps the range that the other 65536 refer to. *)
Theorem counter_wraps f h l k : Z.of_nat k = 65536 -> exists m,
  execs (New 0 f h l :: copies 1 k ++ [Destroy 1]) mem_init = Done m /\
  (forall v, (v = 0 \/ 2 <= v <= k)%nat -> objs m !! v = Some (mk_ptr f h l 0 (Some 0%nat))) /\
  heap m !! 0%nat = None /\ unmapped m = [(0%nat, h, u64 l)].
Proof.
  intros Hn. set (p := mk_ptr f h l 0 (Some 0%nat)).
  set (m1 := mk_mem (<[0%nat := p]> ∅) (<[0%nat := 1]> ∅) 1 [] (<[0%nat := (h, u64 l)]> ∅)).
  change (execs _ mem_init) with (execs (copies 1 k ++ [Destroy 1]) m1).
  destruct (copies_run p 0 k eq_refl 1 m1 1) as (m2 & E2 & Hlt & Hge & Hh & Hu); [lia|reflexivity| |reflexivity|].
  { intros v Hv. unfold m1. cbn [objs]. rewrite lookup_insert_ne by lia. apply lookup_empty. }
  assert (execs (copies 1 k ++ [Destroy 1]) m1 = execs [Destroy 1] m2) as ->.
  { rewrite execs_app, E2. done. }
  cbn [execs exec]. rewrite (Hge 1%nat) by lia. cbn [or_undef mbind outcome_bind]. unfold release. cbn [ctl p].
  rewrite Hh, Hn. change (u16 (1 + 65536)) with 1. cbn [or_undef mbind outcome_bind].
  change (u16 (1 - 1) =? 0) with true. cbn [orb host_addr offset len p]. eexists. split; [reflexivity|].
  cbn [objs heap unmapped]. split_and!.
  - intros v Hv. rewrite lookup_delete_ne by lia. destruct Hv as [->|Hv]; [by rewrite Hlt by lia|apply Hge; lia].
  - apply lookup_delete_eq.
  - rewrite Hu, Z.sub_0_r, Z.add_0_r. done.
Qed.

(** Move-assignment to an object that owns the last reference to a mapping
    neither decrements the counter nor unmaps: after both objects are gone the
    first mapping is still counted once and was never unmapped. *)
Theorem move_assignment_leaks (f1 h1 l1 f2 h2 l2 : Z) :
  exists m, execs [New 0 f1 h1 l1; New 1 f2 h2 l2; AssignMove 0 1; Destroy 0; Destroy 1] mem_init = Done m /\
    objs m = ∅ /\ heap m !! 0%nat = Some 1 /\ unmapped m = [(1%nat, h2, u64 l2)].
Proof.
  eexists. split; [reflexivity|]. cbn -[u64]. rewrite Z.sub_0_r, Z.add_0_r. by split_and!.
Qed.

End RemotePtr.
