(* ===== verification/Channels.v ===== *)
(** * Wires and AXI channels of the simulation runtime

    [runtime/include/core/data_wrapper.h] and [runtime/src/core/data_wrapper.cc]
    (handles on the ports of a Verilator model),
    [runtime/include/frontends/axi/vpi_handle.h] (handles on the nets of a VPI
    simulator), and the channel templates of
    [runtime/include/core/address_channel.h], [data_channel.h] and
    [response_channel.h].

    The template parameters of the channels are types of wires: class [Wire] is
    what the channels ask of them, and the handles are its instances.  A port of
    a Verilator model is its value and its size in bytes; the VPI is a parameter
    with the behaviour that IEEE 1364 gives its four calls. *)

From S2P Require Import Prelude.

Module Channels.

(** What the channel templates use of a one-word wire. *)
Class Wire (W : Type) := {
  wget : W -> Z;                 (* get() *)
  wset : Z -> W -> W             (* set(value) *)
}.

(** A wire read by 32-bit chunk. *)
Class ChunkWire (W : Type) := { wchunk : W -> Z -> outcome Z }.   (* get(idx) *)

(** A data bus. *)
Class DataWire (W : Type) := {
  dset_word : Z -> Z -> W -> outcome W;      (* set(payload, idx) *)
  dget_array : W -> outcome (list Z)         (* get_array() *)
}.

(** ** Verilator ports *)

(** [GetSetWrapper<T>]: [l] is [sizeof(T)]. *)
Record GetSetWrapper (l : Z) := mk_gsw { gsw_val : Z }.
Arguments mk_gsw {l} _.
Arguments gsw_val {l} _.

(** [get(idx)]: ports of up to four bytes ignore the index. *)
Definition gsw_geti {l} (p : GetSetWrapper l) (idx : Z) : Z :=
  if l <=? 4 then gsw_val p
  else if idx =? 0 then Z.land (gsw_val p) 0xFFFFFFFF
  else Z.shiftr (gsw_val p) 32.

Definition gsw_get {l} (p : GetSetWrapper l) : Z := gsw_geti p 0.

(** [memcpy(ptr, &value, l)] on a little-endian machine. *)
Definition gsw_set {l} (value : Z) (p : GetSetWrapper l) : GetSetWrapper l :=
  mk_gsw (wrapw (8 * l) value).

#[export] Instance gsw_wire l : Wire (GetSetWrapper l) := {| wget := gsw_get; wset := gsw_set |}.
#[export] Instance gsw_chunk l : ChunkWire (GetSetWrapper l) :=
  {| wchunk p i := Done (gsw_geti p i) |}.

(** A wire that keeps a flag. *)
Class FlagWire (W : Type) `{Wire W} := flag_wire : forall b w, wget (wset (b2z b) w) = b2z b.

(** The [n] low bytes of [v], least significant first. *)
Fixpoint le_bytes (n : nat) (v : Z) : list Z :=
  match n with
  | O => []
  | S n' => u8 v :: le_bytes n' (Z.shiftr v 8)
  end.

(** [GetSetDataWrapper<uint8_t, l>]: the bytes of the port. *)
Definition GetSetDataWrapper : Type := list Z.

(** Overwrite the bytes from [off] on. *)
Definition put_bytes (off : nat) (bs d : list Z) : list Z :=
  take off d ++ bs ++ drop (off + length bs) d.

Definition gsd_geti (d : GetSetDataWrapper) (idx : Z) : outcome Z := vget d idx.

(** [set(uint64_t)]: eight bytes, or the whole port when it is smaller. *)
Definition gsd_set (value : Z) (d : GetSetDataWrapper) : GetSetDataWrapper :=
  put_bytes 0 (le_bytes (Nat.min 8 (length d)) value) d.

(** [set(payload, idx)]: the 32-bit word at [idx]. *)
Definition gsd_set_word (payload idx : Z) (d : GetSetDataWrapper) : outcome GetSetDataWrapper :=
  if (0 <=? idx) && (4 * idx + 4 <=? Z.of_nat (length d))
  then Done (put_bytes (Z.to_nat (4 * idx)) (le_bytes 4 payload) d) else Undef.

Definition gsd_get_array (d : GetSetDataWrapper) : list Z := d.

#[export] Instance gsd_data : DataWire GetSetDataWrapper :=
  {| dset_word := gsd_set_word; dget_array d := Done (gsd_get_array d) |}.

(** ** VPI nets *)

(** The calls of the VPI the handles make.  [vpi_vec] is the array a read with
    [vpiVectorVal] gives, one entry for each 32 bits of the net. *)
Class Vpi (N : Type) := {
  vpi_size : N -> Z;
  vpi_int : N -> Z;
  vpi_vec : N -> list Z;
  vpi_put_int : Z -> N -> N;
  vpi_put_vec : list Z -> N -> N
}.

(** IEEE 1364-2005, 27.14: the size of the value array. *)
Class VpiOk (N : Type) `{Vpi N} := {
  vpi_size_pos : forall n, 1 <= vpi_size n;
  vpi_vec_length : forall n, Z.of_nat (length (vpi_vec n)) = (vpi_size n + 31) / 32
}.

Section VpiHandles.
Context {N : Type} `{Vpi N}.

(** [VCSShortHandle(handle)]: nets of 64 bits and more are refused. *)
Definition short_handle (n : N) : outcome N :=
  if Z.shiftr (vpi_size n) 5 >? 1 then Exit 1 else Done n.
Definition short_get (n : N) : Z := u32 (vpi_int n).
Definition short_geti (n : N) (chunk : Z) : outcome Z := x ← vget (vpi_vec n) chunk; Done (u32 x).
Definition short_set (v : Z) (n : N) : N := vpi_put_int (s32 v) n.
Definition short_set_byte (payload idx : Z) (n : N) : N :=
  vpi_put_int (s32 (Z.lor (Z.land (vpi_int n) (Z.lnot (Z.shiftl 0xFF (idx * 8))))
                          (u32 (Z.shiftl (u8 payload) (idx * 8))))) n.

(** [VCSLongHandle]: [nchunks] is initialised with the size of the net in bits. *)
Record VCSLongHandle := mk_long { long_net : N; nchunks : Z }.

Definition long_handle (n : N) : VCSLongHandle := mk_long n (vpi_size n).

Definition long_geti (h : VCSLongHandle) (idx : Z) : outcome Z :=
  if nchunks h =? 1 then Done (u32 (vpi_int (long_net h)))
  else x ← vget (vpi_vec (long_net h)) idx; Done (u32 x).

(** Byte [off] of a chunk. *)
Definition chunk_byte (payload : Z) (off : Z) : Z :=
  u8 (Z.shiftr (Z.land payload (u32 (Z.shiftl 0xFF (off * 8)))) (off * 8)).

(** The loop of [get_array]. *)
Fixpoint gather (vec : list Z) (idx : Z) (n : nat) : outcome (list Z) :=
  match n with
  | O => Done []
  | S n' =>
      payload ← vget vec idx;
      rest ← gather vec (idx + 1) n';
      Done (map (chunk_byte (u32 payload)) [0; 1; 2; 3] ++ rest)
  end.

Definition long_get_array (h : VCSLongHandle) : outcome (list Z) :=
  gather (vpi_vec (long_net h)) 0 (Z.to_nat (nchunks h / 4)).

Definition long_set (v : Z) (h : VCSLongHandle) : VCSLongHandle :=
  mk_long (vpi_put_int (s32 v) (long_net h)) (nchunks h).

(** [set(const uint32_t *val)] reads [nchunks] words. *)
Definition long_set_words (val : list Z) (h : VCSLongHandle) : outcome VCSLongHandle :=
  if nchunks h <=? Z.of_nat (length val)
  then Done (mk_long (vpi_put_vec (take (Z.to_nat (nchunks h)) val) (long_net h)) (nchunks h))
  else Undef.

(** [set(payload, chunk)]: read, modify, write. *)
Definition long_set_word (payload chunk : Z) (h : VCSLongHandle) : outcome VCSLongHandle :=
  v ← vset (vpi_vec (long_net h)) chunk payload;
  Done (mk_long (vpi_put_vec v (long_net h)) (nchunks h)).

End VpiHandles.
Arguments VCSLongHandle N : clear implicits.

(** ** The channels *)

Section AddressChannel.
Context {id_t axisize_t burst_t addr_t len_t byte_t : Type}.
Context `{Wire id_t, Wire axisize_t, Wire burst_t, ChunkWire addr_t, Wire addr_t, Wire len_t, Wire byte_t}.

Record address_channel := mk_ac {
  ready_field : byte_t;
  valid_field : byte_t;
  id_field : id_t;
  size_field : axisize_t;
  burst_field : burst_t;
  addr_field : addr_t;
  len_field : len_t
}.

Definition ac_init (ready valid : byte_t) (id : id_t) (size : axisize_t) (burst : burst_t)
    (addr : addr_t) (len : len_t) : address_channel :=
  mk_ac ready valid id size burst addr len.

Definition ac_getReady (c : address_channel) : bool := negb (wget (ready_field c) =? 0).
Definition ac_getValid (c : address_channel) : bool := negb (wget (valid_field c) =? 0).
Definition ac_getId (c : address_channel) : Z := wget (id_field c).
Definition ac_getSize (c : address_channel) : Z := wget (size_field c).
Definition ac_getBurst (c : address_channel) : Z := wget (burst_field c).
(** chunk 0 of the address *)
Definition ac_getAddr (c : address_channel) : outcome Z := wchunk (addr_field c) 0.
Definition ac_getLen (c : address_channel) : Z := wget (len_field c).
Definition ac_fire (c : address_channel) : bool := ac_getReady c && ac_getValid c.

Definition ac_setReady (v : bool) (c : address_channel) : address_channel :=
  mk_ac (wset (b2z v) (ready_field c)) (valid_field c) (id_field c) (size_field c)
    (burst_field c) (addr_field c) (len_field c).
Definition ac_setValid (v : bool) (c : address_channel) : address_channel :=
  mk_ac (ready_field c) (wset (b2z v) (valid_field c)) (id_field c) (size_field c)
    (burst_field c) (addr_field c) (len_field c).
Definition ac_setId (v : Z) (c : address_channel) : address_channel :=
  mk_ac (ready_field c) (valid_field c) (wset v (id_field c)) (size_field c)
    (burst_field c) (addr_field c) (len_field c).
Definition ac_setSize (v : Z) (c : address_channel) : address_channel :=
  mk_ac (ready_field c) (valid_field c) (id_field c) (wset v (size_field c))
    (burst_field c) (addr_field c) (len_field c).
Definition ac_setBurst (v : Z) (c : address_channel) : address_channel :=
  mk_ac (ready_field c) (valid_field c) (id_field c) (size_field c)
    (wset v (burst_field c)) (addr_field c) (len_field c).
Definition ac_setAddr (v : Z) (c : address_channel) : address_channel :=
  mk_ac (ready_field c) (valid_field c) (id_field c) (size_field c)
    (burst_field c) (wset v (addr_field c)) (len_field c).
Definition ac_setLen (v : Z) (c : address_channel) : address_channel :=
  mk_ac (ready_field c) (valid_field c) (id_field c) (size_field c)
    (burst_field c) (addr_field c) (wset v (len_field c)).
End AddressChannel.
Arguments address_channel : clear implicits.

Section DataChannel.
Context {id_t strb_t byte_t data_t : Type}.
Context `{Wire id_t, ChunkWire strb_t, Wire byte_t, DataWire data_t}.

Record data_channel := mk_dc {
  dc_ready : byte_t;
  dc_valid : byte_t;
  dc_data : data_t;
  dc_strb : strb_t;
  dc_id : id_t;
  dc_last : byte_t
}.

Definition dc_init (ready valid last : byte_t) (id : id_t) (strb : strb_t) (data : data_t)
    : data_channel := mk_dc ready valid data strb id last.

Definition dc_setData (payload idx : Z) (c : data_channel) : outcome data_channel :=
  d ← dset_word payload idx (dc_data c);
  Done (mk_dc (dc_ready c) (dc_valid c) d (dc_strb c) (dc_id c) (dc_last c)).
Definition dc_getReady (c : data_channel) : bool := negb (wget (dc_ready c) =? 0).
Definition dc_setReady (v : Z) (c : data_channel) : data_channel :=
  mk_dc (wset v (dc_ready c)) (dc_valid c) (dc_data c) (dc_strb c) (dc_id c) (dc_last c).
Definition dc_getValid (c : data_channel) : bool := negb (wget (dc_valid c) =? 0).
Definition dc_setValid (v : Z) (c : data_channel) : data_channel :=
  mk_dc (dc_ready c) (wset v (dc_valid c)) (dc_data c) (dc_strb c) (dc_id c) (dc_last c).
Definition dc_getData (c : data_channel) : outcome (list Z) := dget_array (dc_data c).
Definition dc_getId (c : data_channel) : Z := wget (dc_id c).
Definition dc_setId (v : Z) (c : data_channel) : data_channel :=
  mk_dc (dc_ready c) (dc_valid c) (dc_data c) (dc_strb c) (wset v (dc_id c)) (dc_last c).
Definition dc_getLast (c : data_channel) : bool := negb (wget (dc_last c) =? 0).
Definition dc_setLast (v : Z) (c : data_channel) : data_channel :=
  mk_dc (dc_ready c) (dc_valid c) (dc_data c) (dc_strb c) (dc_id c) (wset v (dc_last c)).
Definition dc_fire (c : data_channel) : bool := dc_getReady c && dc_getValid c.

(** [getStrb(i)]: bit [i mod 32] of chunk [i / 32]. *)
Definition dc_getStrb (c : data_channel) (i : Z) : outcome bool :=
  payload ← wchunk (dc_strb c) (i / 32);
  Done (negb (Z.land (Z.shiftr (u32 payload) (i mod 32)) 1 =? 0)).
End DataChannel.
Arguments data_channel : clear implicits.

Section ResponseChannel.
Context {id_t byte_t : Type} `{Wire id_t, Wire byte_t}.

Record response_channel := mk_rc {
  rc_ready : byte_t;
  rc_valid : byte_t;
  rc_id : id_t;
  send_ids : list Z;
  to_enqueue : list Z
}.

Definition rc_init (ready valid : byte_t) (id : id_t) (c : response_channel) : response_channel :=
  mk_rc ready valid id (send_ids c) (to_enqueue c).
Definition rc_getReady (c : response_channel) : bool := negb (wget (rc_ready c) =? 0).
Definition rc_setReady (v : Z) (c : response_channel) : response_channel :=
  mk_rc (wset v (rc_ready c)) (rc_valid c) (rc_id c) (send_ids c) (to_enqueue c).
Definition rc_getValid (c : response_channel) : bool := negb (wget (rc_valid c) =? 0).
Definition rc_setValid (v : Z) (c : response_channel) : response_channel :=
  mk_rc (rc_ready c) (wset v (rc_valid c)) (rc_id c) (send_ids c) (to_enqueue c).
(** declared [uint8_t] *)
Definition rc_getId (c : response_channel) : Z := u8 (wget (rc_id c)).
Definition rc_setId (v : Z) (c : response_channel) : response_channel :=
  mk_rc (rc_ready c) (rc_valid c) (wset v (rc_id c)) (send_ids c) (to_enqueue c).
Definition rc_setSendIds (ids : list Z) (c : response_channel) : response_channel :=
  mk_rc (rc_ready c) (rc_valid c) (rc_id c) ids (to_enqueue c).
Definition rc_fire (c : response_channel) : bool := rc_getReady c && rc_getValid c.
End ResponseChannel.
Arguments response_channel : clear implicits.

(** ** What the handles give *)

(** The one-byte ports of the ready, valid and last signals. *)
#[export] Instance gsw_flag : FlagWire (GetSetWrapper 1).
Proof. intros [] [v]; reflexivity. Qed.

(** A port read back after a write keeps its low 32 bits. *)
Lemma gsw_get_set l v (p : GetSetWrapper l) :
  1 <= l -> gsw_get (gsw_set v p) = wrapw (Z.min 32 (8 * l)) v.
Proof.
  intros Hl. unfold gsw_get, gsw_geti, gsw_set. simpl. destruct (l <=? 4) eqn:E; zb.
  - by rewrite Z.min_r by lia.
  - rewrite Z.min_l by lia. change 0xFFFFFFFF with (2 ^ 32 - 1).
    rewrite land_ones_mod by lia. unfold wrapw. apply Z.mod_mod_divide.
    exists (2 ^ (8 * l - 32)). rewrite <- Z.pow_add_r by lia. f_equal. lia.
Qed.

Lemma shiftr_land_bit v i : 0 <= i -> negb (Z.land (Z.shiftr v i) 1 =? 0) = Z.testbit v i.
Proof.
  intros Hi. change 1 with (Z.ones 1). rewrite Z.land_ones by lia.
  rewrite Z.pow_1_r, <- Z.bit0_mod, Z.shiftr_spec, Z.add_0_l by lia. by destruct (Z.testbit v i).
Qed.

(** A strobe port of one, two, four or eight bytes: [getStrb(i)] is bit [i]
    of the port for every byte lane [i] of the bus. *)
Theorem getStrb_is_lane_bit (l : Z) {id_t byte_t data_t} `{Wire id_t, Wire byte_t, DataWire data_t}
    (c : data_channel id_t (GetSetWrapper l) byte_t data_t) i :
  l = 1 \/ l = 2 \/ l = 4 \/ l = 8 -> 0 <= gsw_val (dc_strb c) < 2 ^ (8 * l) -> 0 <= i < 8 * l ->
  dc_getStrb c i = Done (Z.testbit (gsw_val (dc_strb c)) i).
Proof.
  intros Hl Hv Hi. unfold dc_getStrb, wchunk, gsw_chunk, gsw_geti. cbn [mbind outcome_bind].
  f_equal. set (v := gsw_val (dc_strb c)) in *.
  pose proof (Z.mod_pos_bound i 32 ltac:(lia)).
  rewrite shiftr_land_bit by lia. destruct (l <=? 4) eqn:E; zb.
  - assert (2 ^ (8 * l) <= 2 ^ 32) by (apply Z.pow_le_mono_r; lia).
    rewrite u32_small by lia. rewrite Z.mod_small by lia. done.
  - assert (l = 8) as -> by lia. destruct (i / 32 =? 0) eqn:E0; zb.
    + assert (i < 32) by (pose proof (Z.div_mod i 32); lia).
      change 0xFFFFFFFF with (2 ^ 32 - 1). rewrite land_ones_mod by lia.
      rewrite u32_small by (apply Z.mod_pos_bound; lia).
      rewrite (Z.mod_small i 32) by lia. by rewrite Z.mod_pow2_bits_low by lia.
    + assert (i / 32 = 1) by (assert (0 <= i / 32 < 2); [split; [apply Z.div_pos; lia|apply Z.div_lt_upper_bound; lia]|lia]).
      rewrite u32_small by (rewrite Z.shiftr_div_pow2 by lia; split;
        [apply Z.div_pos; lia|apply Z.div_lt_upper_bound; lia]).
      rewrite Z.shiftr_spec by lia. f_equal. pose proof (Z.div_mod i 32). lia.
Qed.

Lemma length_le_bytes n v : length (le_bytes n v) = n.
Proof. revert v. induction n; intros v; simpl; auto. Qed.

Lemma le_bytes_lookup n v j : (j < n)%nat -> le_bytes n v !! j = Some (u8 (Z.shiftr v (8 * Z.of_nat j))).
Proof.
  revert v j. induction n as [|n IH]; intros v j Hj; [lia|]. destruct j as [|j]; [done|].
  cbn [le_bytes lookup list_lookup]. rewrite IH by lia. rewrite Z.shiftr_shiftr by lia. do 3 f_equal. lia.
Qed.

Lemma length_put_bytes off bs d : (off + length bs <= length d)%nat -> length (put_bytes off bs d) = length d.
Proof. intros Hl. unfold put_bytes. rewrite !length_app, length_take, length_drop. lia. Qed.

Lemma put_bytes_lookup off bs d j :
  (off + length bs <= length d)%nat ->
  put_bytes off bs d !! j =
  if decide (off <= j < off + length bs)%nat then bs !! (j - off)%nat else d !! j.
Proof.
  intros Hl. unfold put_bytes. case_decide as Hj.
  - rewrite lookup_app_r, length_take by (rewrite length_take; lia).
    rewrite lookup_app_l by lia. f_equal. lia.
  - destruct (decide (j < off)%nat).
    + rewrite lookup_app_l by (rewrite length_take; lia). by rewrite lookup_take_lt by lia.
    + rewrite !lookup_app_r by (rewrite ?length_take; lia). rewrite lookup_drop, length_take.
      f_equal. lia.
Qed.

(** A 32-bit word put on the bus occupies its four lanes, and no other changes. *)
Lemma gsd_set_word_lookup payload idx d d' :
  gsd_set_word payload idx d = Done d' ->
  length d' = length d /\
  forall j : nat, d' !! j =
    if decide (4 * idx <= Z.of_nat j < 4 * idx + 4)
    then Some (u8 (Z.shiftr payload (8 * (Z.of_nat j - 4 * idx)))) else d !! j.
Proof.
  unfold gsd_set_word. destruct ((0 <=? idx) && _)%bool eqn:E; [|done]. zb.
  pose proof (length_le_bytes 4 payload) as Hb. pose proof (le_bytes_lookup 4 payload) as Hlk.
  revert Hb Hlk. generalize (le_bytes 4 payload). intros bs Hb Hlk [= <-].
  assert (Hl : (Z.to_nat (4 * idx) + length bs <= length d)%nat) by lia.
  split; [by apply length_put_bytes|]. intros j. rewrite put_bytes_lookup by done.
  rewrite Hb. case_decide; case_decide; try lia; [|done].
  rewrite Hlk by lia. do 4 f_equal. lia.
Qed.

Section VpiFacts.
Context {N : Type} `{VpiOk N}.

Lemma gather_oob vec k n :
  0 <= k <= Z.of_nat (length vec) -> Z.of_nat (length vec) < k + Z.of_nat n ->
  gather vec k n = Undef.
Proof.
  revert k. induction n as [|n IH]; intros k Hk Hn; cbn [gather]; [lia|].
  destruct (zlookup vec k) as [x|] eqn:E; unfold vget; rewrite E; [|done].
  apply zlookup_Some_range in E. cbn [or_undef mbind outcome_bind]. rewrite IH by lia. done.
Qed.

(** [get_array] of a VPI handle on a net of eight bits or more reads past the
    value array: the handle counts bits where the loop expects bytes. *)
Theorem vpi_get_array_undefined (n : N) : 8 <= vpi_size n -> long_get_array (long_handle n) = Undef.
Proof using H0.
  intros Hn. unfold long_get_array, long_handle. simpl. apply gather_oob.
  - split; [lia|]. lia.
  - rewrite vpi_vec_length. rewrite Z2Nat.id by (apply Z.div_pos; lia).
    assert (vpi_size n / 4 * 4 > vpi_size n - 4) by (pose proof (Z.div_mod (vpi_size n) 4);
      pose proof (Z.mod_pos_bound (vpi_size n) 4); lia).
    assert ((vpi_size n + 31) / 32 * 32 <= vpi_size n + 31) by (pose proof (Z.mul_div_le (vpi_size n + 31) 32); lia).
    assert (2 <= vpi_size n / 4) by (apply Z.div_le_lower_bound; lia).
    lia.
Qed.
End VpiFacts.

(** A net that stores its chunks. *)
#[local] Instance net_vpi : Vpi (Z * Z) := {|
  vpi_size n := Z.max 1 n.1;
  vpi_int n := s32 n.2;
  vpi_vec n := map (fun i => u32 (Z.shiftr n.2 (32 * i))) (zrange 0 (Z.to_nat ((Z.max 1 n.1 + 31) / 32)));
  vpi_put_int v n := (n.1, u32 v);
  vpi_put_vec l n := (n.1, fold_right (fun c acc => u32 c + 2 ^ 32 * acc) 0 l)
|}.

#[local] Instance net_vpi_ok : VpiOk (Z * Z).
Proof.
  split; intros n; simpl; [lia|]. rewrite length_map, length_zrange.
  rewrite Z2Nat.id; [done|]. apply Z.div_pos; lia.
Qed.

Lemma vpi_get_array_undefined_witness : long_get_array (long_handle (512, 7)) = Undef.
Proof. apply (vpi_get_array_undefined (512, 7)). simpl. lia. Defined.

Definition demo_w : data_channel (GetSetWrapper 1) (GetSetWrapper 8) (GetSetWrapper 1) GetSetDataWrapper :=
  mk_dc (mk_gsw 1) (mk_gsw 1) (replicate 64 0) (mk_gsw 0x8000000100000003) (mk_gsw 0) (mk_gsw 1).

Lemma getStrb_is_lane_bit_witness : dc_getStrb demo_w 32 = Done true /\ dc_getStrb demo_w 2 = Done false.
Proof.
  split.
  - rewrite (getStrb_is_lane_bit 8 demo_w 32); [reflexivity|lia|simpl; lia|lia].
  - rewrite (getStrb_is_lane_bit 8 demo_w 2); [reflexivity|lia|simpl; lia|lia].
Defined.

End Channels.
