(* ===== verification/MemCtrl.v ===== *)
(** * The DDR side of the simulation runtime

    [runtime/include/core/mem_ctrl.h], [runtime/src/core/mem_ctrl.cc] and the
    memory part of [tick_signals] in [runtime/src/core/tick.cc]: AXI read and
    write bursts are queued, cut into DRAM transactions, and answered as the DRAM
    model calls back.

    The DRAM model is a parameter here ([DramSystem]).  Transactions of the
    source are shared objects: [rtxs] and [wtxs] are the objects made for read
    and write addresses, and the queues hold their indices.  The objects pushed
    by the read callback are held by one queue only and are stored there by
    value.  The number of DRAM clocks in a tick is an argument, which
    [DdrClock] computes.  The size and length ports of
    AXI have 3 and 8 bits, so the [int] products of the source do not overflow. *)

From S2P Require Import Prelude DataServer Channels.

Module MemCtrl.
Import Channels.

(** What the runtime calls of [dramsim3::JedecDRAMSystem]; a clock returns the
    callbacks it made, in order: the address and whether it was a write. *)
Class DramSystem (D : Type) := {
  WillAcceptTransaction : D -> Z -> bool -> bool;
  AddTransaction : D -> Z -> bool -> D;
  ClockTick : D -> D * list (Z * bool)
}.

Record mem_cfg := mk_cfg {
  DDR_BUS_WIDTH_BYTES : Z;
  axi_ddr_bus_multiplicity : Z;
  DDR_ENQUEUE_SIZE_BYTES : Z;
  TOTAL_BURST : Z
}.

(** [mem_ctrl::init], once the configuration has been read. *)
Definition init (W : Z) (found : bool) (bus_width BL : Z) : outcome mem_cfg :=
  if negb found then Exit (-1)
  else
    let b := Z.quot bus_width 8 in
    if b =? 0 then Undef
    else
      let c := mk_cfg b (Z.quot W b) (b * BL) BL in
      if b >? W then Exit 134 else Done c.

Record memory_transaction := mk_tx {
  addr : Z;
  size : Z;
  len : Z;
  axi_bus_beats_progress : Z;
  id : Z;
  fixed : bool;
  fpga_addr : Z;
  dram_tx_n_enqueues : Z;
  dram_tx_axi_enqueue_progress : Z;
  dram_tx_load_progress : Z;
  can_be_last : bool;
  is_intermediate : bool;
  ddr_bus_beats_retrieved : list bool
}.

Definition set_addr (v : Z) (t : memory_transaction) : memory_transaction :=
  mk_tx v (size t) (len t) (axi_bus_beats_progress t) (id t) (fixed t) (fpga_addr t)
    (dram_tx_n_enqueues t) (dram_tx_axi_enqueue_progress t) (dram_tx_load_progress t)
    (can_be_last t) (is_intermediate t) (ddr_bus_beats_retrieved t).
Definition set_progress (v : Z) (t : memory_transaction) : memory_transaction :=
  mk_tx (addr t) (size t) (len t) v (id t) (fixed t) (fpga_addr t)
    (dram_tx_n_enqueues t) (dram_tx_axi_enqueue_progress t) (dram_tx_load_progress t)
    (can_be_last t) (is_intermediate t) (ddr_bus_beats_retrieved t).
Definition set_enqueued (v : Z) (t : memory_transaction) : memory_transaction :=
  mk_tx (addr t) (size t) (len t) (axi_bus_beats_progress t) (id t) (fixed t) (fpga_addr t)
    (dram_tx_n_enqueues t) v (dram_tx_load_progress t)
    (can_be_last t) (is_intermediate t) (ddr_bus_beats_retrieved t).
Definition set_loaded (v : Z) (l : list bool) (t : memory_transaction) : memory_transaction :=
  mk_tx (addr t) (size t) (len t) (axi_bus_beats_progress t) (id t) (fixed t) (fpga_addr t)
    (dram_tx_n_enqueues t) (dram_tx_axi_enqueue_progress t) v
    (can_be_last t) (is_intermediate t) l.
Definition set_origin (fa : Z) (last : bool) (t : memory_transaction) : memory_transaction :=
  mk_tx (addr t) (size t) (len t) (axi_bus_beats_progress t) (id t) (fixed t) fa
    (dram_tx_n_enqueues t) (dram_tx_axi_enqueue_progress t) (dram_tx_load_progress t)
    last (is_intermediate t) (ddr_bus_beats_retrieved t).

Section Config.
Variable W : Z.             (* DATA_BUS_WIDTH / 8 *)
Variable cfg : mem_cfg.

(** The constructor of [memory_transaction]. *)
Definition new_tx (a sz l progress : Z) (fx : bool) (i fa : Z) (inter : bool)
    : outcome memory_transaction :=
  if DDR_ENQUEUE_SIZE_BYTES cfg =? 0 then Undef
  else
    let n := Z.quot (l * sz) (DDR_ENQUEUE_SIZE_BYTES cfg) in
    let n := if n =? 0 then 1 else n in
    Done (mk_tx a sz l progress i fx fa n 0 0 true inter
            (replicate (Z.to_nat (n * TOTAL_BURST cfg)) false)).

Definition axi_bus_beats_length (t : memory_transaction) : Z := Z.quot (len t * size t) W.

Definition dramsim_tx_finished (t : memory_transaction) : bool :=
  dram_tx_n_enqueues t <=? dram_tx_axi_enqueue_progress t.

Definition bankId (t : memory_transaction) : Z := s32 (Z.shiftr (fpga_addr t) 12).

Fixpoint all_set (v : list bool) (i : Z) (n : nat) : outcome bool :=
  match n with
  | O => Done true
  | S n' => x ← vget v i; (if (x : bool) then all_set v (i + 1) n' else Done false : outcome bool)
  end.

Definition dramsim_hasBeatReady (t : memory_transaction) : outcome bool :=
  if axi_bus_beats_progress t =? axi_bus_beats_length t then Done false
  else
    let m := axi_ddr_bus_multiplicity cfg in
    x ← all_set (ddr_bus_beats_retrieved t) (axi_bus_beats_progress t * m) (Z.to_nat m);
    if (x : bool) then vget (ddr_bus_beats_retrieved t) (axi_bus_beats_progress t * m) else Done false.

(** ** The read callback *)

Fixpoint mark (v : list bool) (i : Z) (n : nat) : outcome (list bool) :=
  match n with
  | O => Done v
  | S n' => v' ← vset v i true; mark v' (i + 1) n'
  end.

(** The [while] loop: every beat that is complete becomes a one-beat
    transaction for the read channel. *)
Fixpoint emit (fuel : nat) (t : memory_transaction) : outcome (memory_transaction * list memory_transaction) :=
  x ← dramsim_hasBeatReady t;
  if (x : bool) then
    match fuel with
    | O => Stuck
    | S fuel' =>
        let done := axi_bus_beats_progress t =? axi_bus_beats_length t - 1 in
        i ← new_tx (addr t) (size t) 1 0 false (id t) 0 true;
        '(t', outs) ← emit fuel' (set_progress (axi_bus_beats_progress t + 1)
                                    (set_addr (addr t + size t) t));
        Done (t', set_origin (fpga_addr t) done i :: outs)
    end
  else Done (t, []).

Definition emit_fuel (t : memory_transaction) : nat := Z.to_nat (axi_bus_beats_length t).

Record rside := mk_rside {
  rtxs : list memory_transaction;
  ddr_read_q : list nat;
  in_flight_reads : gmap Z (list nat);
  read_transactions : list memory_transaction
}.

Definition read_callback (a : Z) (s : rside) : outcome rside :=
  q ← or_undef (in_flight_reads s !! a);
  n ← or_undef (head q);
  t ← or_undef (rtxs s !! n);
  v ← mark (ddr_bus_beats_retrieved t)
           (Z.quot (s32 (a - fpga_addr t)) (DDR_BUS_WIDTH_BYTES cfg)) (Z.to_nat (TOTAL_BURST cfg));
  let t1 := set_loaded (dram_tx_load_progress t + 1) v t in
  '(t2, outs) ← emit (emit_fuel t1) t1;
  Done (mk_rside (<[n := t2]> (rtxs s)) (ddr_read_q s) (<[a := tail q]> (in_flight_reads s))
          (read_transactions s ++ outs)).

(** ** The write callback *)

Context {id_t byte_t : Type}.

Record wside := mk_wside {
  wtxs : list memory_transaction;
  ddr_write_q : list nat;
  in_flight_writes : gmap Z (list nat);
  write_transactions : list nat;
  num_in_flight_writes : Z;
  b : response_channel id_t byte_t
}.

Definition enqueue_response (i : Z) (c : response_channel id_t byte_t) : response_channel id_t byte_t :=
  mk_rc (rc_ready c) (rc_valid c) (rc_id c) (send_ids c) (to_enqueue c ++ [u32 i]).

Definition write_callback (a : Z) (s : wside) : outcome wside :=
  q ← or_undef (in_flight_writes s !! a);
  n ← or_undef (head q);
  t ← or_undef (wtxs s !! n);
  let t' := set_progress (axi_bus_beats_progress t - 1) t in
  Done (mk_wside (<[n := t']> (wtxs s)) (ddr_write_q s) (<[a := tail q]> (in_flight_writes s))
          (write_transactions s) (num_in_flight_writes s)
          (if axi_bus_beats_progress t' =? 0 then enqueue_response (id t') (b s) else b s)).

(** ** [try_to_enqueue_ddr] *)

Context {D : Type} `{DramSystem D}.

Definition dimm_addr (t : memory_transaction) : Z :=
  u64 (fpga_addr t + DDR_ENQUEUE_SIZE_BYTES cfg * dram_tx_axi_enqueue_progress t).

Fixpoint erase_first (n : nat) (q : list nat) : list nat :=
  match q with
  | [] => []
  | m :: q' => if decide (m = n) then q' else m :: erase_first n q'
  end.

(** The next read to send: old ones first, at most one transaction of an id. *)
Fixpoint pick_read (d : D) (txs : list memory_transaction) (older : list Z) (q : list nat)
    : outcome (option nat) :=
  match q with
  | [] => Done None
  | n :: q' =>
      t ← or_undef (txs !! n);
      if WillAcceptTransaction d (fpga_addr t) false
         && negb (bool_decide (id t ∈ older))
         && WillAcceptTransaction d (dimm_addr t) false
      then Done (Some n)
      else pick_read d txs (older ++ [id t]) q'
  end.

Definition push_in_flight (a : Z) (n : nat) (m : gmap Z (list nat)) : gmap Z (list nat) :=
  <[a := default [] (m !! a) ++ [n]]> m.

Definition enqueue_read_ddr (d : D) (s : rside) : outcome (D * rside) :=
  o ← pick_read d (rtxs s) [] (ddr_read_q s);
  match o with
  | None => Done (d, s)
  | Some n =>
      t ← or_undef (rtxs s !! n);
      let a := dimm_addr t in
      let t' := set_enqueued (dram_tx_axi_enqueue_progress t + 1) t in
      Done (AddTransaction d a false,
            mk_rside (<[n := t']> (rtxs s))
              (if dramsim_tx_finished t' then erase_first n (ddr_read_q s) else ddr_read_q s)
              (push_in_flight a n (in_flight_reads s)) (read_transactions s))
  end.

Fixpoint pick_write (d : D) (txs : list memory_transaction) (q : list nat) : outcome (option nat) :=
  match q with
  | [] => Done None
  | n :: q' =>
      t ← or_undef (txs !! n);
      if WillAcceptTransaction d (dimm_addr t) true then Done (Some n) else pick_write d txs q'
  end.

Definition enqueue_write_ddr (d : D) (s : wside) : outcome (D * wside) :=
  o ← pick_write d (wtxs s) (ddr_write_q s);
  match o with
  | None => Done (d, s)
  | Some n =>
      t ← or_undef (wtxs s !! n);
      let a := dimm_addr t in
      let t' := set_enqueued (dram_tx_axi_enqueue_progress t + 1) t in
      Done (AddTransaction d a true,
            mk_wside (<[n := t']> (wtxs s))
              (if dramsim_tx_finished t' then erase_first n (ddr_write_q s) else ddr_write_q s)
              (push_in_flight a n (in_flight_writes s)) (write_transactions s)
              (num_in_flight_writes s) (b s))
  end.

Definition try_to_enqueue_ddr (d : D) (r : rside) (w : wside) : outcome (D * rside * wside) :=
  '(d1, r1) ← enqueue_read_ddr d r;
  '(d2, w1) ← enqueue_write_ddr d1 w;
  Done (d2, r1, w1).

(** ** One DRAM clock of a channel *)

Fixpoint callbacks (cs : list (Z * bool)) (r : rside) (w : wside) : outcome (rside * wside) :=
  match cs with
  | [] => Done (r, w)
  | (a, false) :: cs' => r' ← read_callback a r; callbacks cs' r' w
  | (a, true) :: cs' => w' ← write_callback a w; callbacks cs' r w'
  end.

Definition ddr_clock (d : D) (r : rside) (w : wside) : outcome (D * rside * wside) :=
  let '(d', cs) := ClockTick d in
  '(r', w') ← callbacks cs r w;
  try_to_enqueue_ddr d' r' w'.

End Config.
Arguments wside : clear implicits.

(** ** The beat buffer of a read *)

Lemma mark_spec n : forall v i,
  0 <= i -> i + Z.of_nat n <= Z.of_nat (length v) ->
  exists v', mark v i n = Done v' /\ length v' = length v /\
    forall j, zlookup v' j = if decide (i <= j < i + Z.of_nat n) then Some true else zlookup v j.
Proof.
  induction n as [|n IH]; intros v i Hi Hn; cbn [mark].
  - exists v. split_and!; try done. intros j. by rewrite decide_False by lia.
  - rewrite vset_in_range by lia. cbn [mbind outcome_bind].
    destruct (IH (zinsert i true v) (i + 1)) as (v' & E & Hl & Hv); [lia|rewrite length_zinsert; lia|].
    rewrite length_zinsert in Hl. exists v'. split_and!; try done. intros j. rewrite Hv.
    destruct (decide (i = j)) as [->|Hne].
    + rewrite decide_False, decide_True by lia. by rewrite zlookup_zinsert_eq by lia.
    + rewrite zlookup_zinsert_ne by done. case_decide; case_decide; try lia; done.
Qed.

Lemma all_set_spec n : forall v i,
  0 <= i -> i + Z.of_nat n <= Z.of_nat (length v) ->
  exists b : bool, all_set v i n = Done b /\
    (b = true <-> forall j, i <= j < i + Z.of_nat n -> zlookup v j = Some true).
Proof.
  induction n as [|n IH]; intros v i Hi Hn; cbn [all_set].
  - exists true. split; [done|]. split; [intros _ j; lia|done].
  - destruct (zlookup_in_range v i) as [x Hx]; [lia|]. rewrite (vget_Some _ _ _ Hx).
    cbn [mbind outcome_bind]. destruct x.
    + destruct (IH v (i + 1)) as (b & -> & Hb); [lia|lia|]. exists b. split; [done|].
      rewrite Hb. split; intros HH j Hj; [|apply HH; lia].
      destruct (decide (i = j)) as [->|]; [done|apply HH; lia].
    + exists false. split; [done|]. split; [done|]. intros HH. rewrite HH in Hx by lia. done.
Qed.

(** The configuration [init] computes for a DDR bus that divides the AXI bus. *)
Record cfg_ok (W : Z) (cfg : mem_cfg) : Prop := {
  c_bus : 1 <= DDR_BUS_WIDTH_BYTES cfg;
  c_mult : 1 <= axi_ddr_bus_multiplicity cfg;
  c_burst : 1 <= TOTAL_BURST cfg;
  c_W : W = DDR_BUS_WIDTH_BYTES cfg * axi_ddr_bus_multiplicity cfg;
  c_enq : DDR_ENQUEUE_SIZE_BYTES cfg = DDR_BUS_WIDTH_BYTES cfg * TOTAL_BURST cfg
}.

Lemma init_cfg_ok W b m BL :
  1 <= b -> 1 <= m -> 1 <= BL -> W = b * m ->
  exists cfg, init W true (8 * b) BL = Done cfg /\ cfg_ok W cfg /\
    cfg = mk_cfg b m (b * BL) BL.
Proof.
  intros Hb Hm HB ->. unfold init. cbn [negb]. rewrite Z.mul_comm, Z.quot_mul by lia.
  destruct (b =? 0) eqn:E; zb; [lia|].
  destruct (b >? b * m) eqn:E2; zb; [nia|].
  rewrite (Z.mul_comm b m), Z.quot_mul by lia.
  eexists. split; [done|]. split; [|done]. by split; simpl; try lia.
Qed.

Section Reads.
Context (W : Z) (cfg : mem_cfg) (Hc : cfg_ok W cfg).
Let m := axi_ddr_bus_multiplicity cfg.
Let BL := TOTAL_BURST cfg.

(** Beat [i] of the bus has come back from the DRAM in full. *)
Definition beat_in (v : list bool) (i : Z) : Prop :=
  forall j, i * axi_ddr_bus_multiplicity cfg <= j < (i + 1) * axi_ddr_bus_multiplicity cfg ->
    zlookup v j = Some true.

(** The buffer has room for every beat of the bus. *)
Definition room (t : memory_transaction) : Prop :=
  axi_bus_beats_length W t * axi_ddr_bus_multiplicity cfg <= Z.of_nat (length (ddr_bus_beats_retrieved t)).

Lemma hasBeatReady_spec t :
  0 <= axi_bus_beats_progress t <= axi_bus_beats_length W t -> room t ->
  exists b : bool, dramsim_hasBeatReady W cfg t = Done b /\
    (b = true <-> axi_bus_beats_progress t < axi_bus_beats_length W t /\
       beat_in (ddr_bus_beats_retrieved t) (axi_bus_beats_progress t)).
Proof using Hc.
  intros Hp Hr. unfold dramsim_hasBeatReady. pose proof (c_mult _ _ Hc) as Hm. unfold room in Hr.
  destruct (_ =? _) eqn:E; zb; [exists false; split; [done|]; split; [done|lia]|].
  set (p := axi_bus_beats_progress t) in *. set (M := axi_ddr_bus_multiplicity cfg) in *.
  set (v := ddr_bus_beats_retrieved t) in *.
  assert ((p + 1) * M <= Z.of_nat (length v)) by nia.
  destruct (all_set_spec (Z.to_nat M) v (p * M)) as (b & -> & Hb); [nia|lia|].
  cbn [mbind outcome_bind]. assert (Heq : b = true <-> beat_in v p).
  { rewrite Hb. unfold beat_in. fold M. rewrite Z2Nat.id by lia.
    split; intros HH j Hj; apply HH; lia. }
  destruct b.
  - rewrite (vget_Some _ _ true); [|apply Heq; [done|unfold M; lia]].
    exists true. split; [done|]. split; [|done]. intros _. split; [lia|by apply Heq].
  - exists false. split; [done|]. split; [done|]. intros [_ ?]. by apply Heq.
Qed.

(** The one-beat transaction that carries beat [i] of [t]. *)
Definition beat_of (t : memory_transaction) (k : Z) (o : memory_transaction) : Prop :=
  addr o = addr t + size t * (k - axi_bus_beats_progress t) /\
  size o = size t /\ len o = 1 /\ axi_bus_beats_progress o = 0 /\ id o = id t /\
  fixed o = false /\ fpga_addr o = fpga_addr t /\
  can_be_last o = (k =? axi_bus_beats_length W t - 1).

Definition advance (p : Z) (t : memory_transaction) : memory_transaction :=
  set_progress p (set_addr (addr t + size t * (p - axi_bus_beats_progress t)) t).

Lemma emit_spec fuel : forall t,
  0 <= axi_bus_beats_progress t <= axi_bus_beats_length W t -> room t ->
  axi_bus_beats_length W t - axi_bus_beats_progress t <= Z.of_nat fuel ->
  exists p outs, emit W cfg fuel t = Done (advance p t, outs) /\
    axi_bus_beats_progress t <= p <= axi_bus_beats_length W t /\
    Forall2 (beat_of t) (zrange (axi_bus_beats_progress t) (Z.to_nat (p - axi_bus_beats_progress t))) outs /\
    (forall i, axi_bus_beats_progress t <= i < p -> beat_in (ddr_bus_beats_retrieved t) i) /\
    (p < axi_bus_beats_length W t -> ~ beat_in (ddr_bus_beats_retrieved t) p).
Proof using Hc.
  pose proof (c_bus _ _ Hc). pose proof (c_burst _ _ Hc). pose proof (c_enq _ _ Hc).
  induction fuel as [|fuel IH]; intros t Hp Hr Hf;
    destruct (hasBeatReady_spec t Hp Hr) as (b & Eb & Hb); cbn [emit]; rewrite Eb;
    cbn [mbind outcome_bind].
  - destruct b; [destruct Hb as [Hb _]; destruct (Hb eq_refl); lia|].
    exists (axi_bus_beats_progress t), []. unfold advance. rewrite Z.sub_diag, Z.mul_0_r, Z.add_0_r.
    split; [by destruct t|]. split; [lia|]. split; [constructor|]. split; [lia|]. lia.
  - destruct b.
    + destruct Hb as [Hb _]. destruct (Hb eq_refl) as [Hlt Hin].
      unfold new_tx. destruct (DDR_ENQUEUE_SIZE_BYTES cfg =? 0) eqn:E0; zb; [nia|].
      cbn [mbind outcome_bind].
      set (t1 := set_progress (axi_bus_beats_progress t + 1) (set_addr (addr t + size t) t)).
      destruct (IH t1) as (p & outs & E & Hpp & Ho & Hall & Hnext); [simpl; unfold axi_bus_beats_length in *; simpl; lia|done| |].
      { unfold axi_bus_beats_length in *. simpl. lia. }
      assert (Hl1 : axi_bus_beats_length W t1 = axi_bus_beats_length W t) by done.
      rewrite Hl1 in *. change (axi_bus_beats_progress t1) with (axi_bus_beats_progress t + 1) in *.
      rewrite E. cbn [mbind outcome_bind]. eexists p, _. split.
      { assert (advance p t1 = advance p t) as ->; [|reflexivity].
        unfold advance, t1, set_progress, set_addr. simpl. f_equal. lia. }
      split; [lia|]. split_and!.
      * replace (Z.to_nat (p - axi_bus_beats_progress t)) with
          (S (Z.to_nat (p - (axi_bus_beats_progress t + 1)))) by lia.
        rewrite zrange_S. constructor.
        -- unfold beat_of. simpl. rewrite Z.sub_diag. split_and!; try done. lia.
        -- eapply Forall2_impl; [exact Ho|]. intros k o (Ha & Hrest). split; [|exact Hrest].
           rewrite Ha. unfold t1. simpl. lia.
      * intros i Hi. destruct (decide (i = axi_bus_beats_progress t)) as [->|]; [done|].
        apply Hall. lia.
      * done.
    + exists (axi_bus_beats_progress t), []. unfold advance. rewrite Z.sub_diag, Z.mul_0_r, Z.add_0_r.
      split; [by destruct t|]. split; [lia|]. split; [constructor|]. split; [lia|].
      intros Hlt Hin. destruct Hb as [_ Hb]. discriminate Hb. done.
Qed.

(** ** All completions of one read, in any order *)

(** What the [i]-th one-beat transaction of a read from host address [base] is. *)
Definition read_beat (base l rid : Z) (i : Z) (o : memory_transaction) : Prop :=
  addr o = base + W * i /\ size o = W /\ len o = 1 /\ id o = rid /\
  can_be_last o = (i =? l - 1).

(** The object of the read after the DRAM transactions [S] have completed, with
    [p] beats handed to the read channel. *)
Record read_state (base l rid fa N : Z) (S : list Z) (p : Z) (t : memory_transaction) : Prop := {
  rs_addr : addr t = base + W * p;
  rs_size : size t = W;
  rs_len : len t = l;
  rs_prog : axi_bus_beats_progress t = p;
  rs_id : id t = rid;
  rs_fa : fpga_addr t = fa;
  rs_buf : Z.of_nat (length (ddr_bus_beats_retrieved t)) = N * TOTAL_BURST cfg;
  rs_bits : forall j, 0 <= j < N * TOTAL_BURST cfg ->
    zlookup (ddr_bus_beats_retrieved t) j = Some (bool_decide (j / TOTAL_BURST cfg ∈ S));
  rs_p : 0 <= p <= l
}.
Arguments rs_addr {_ _ _ _ _ _ _ _} _.
Arguments rs_size {_ _ _ _ _ _ _ _} _.
Arguments rs_len {_ _ _ _ _ _ _ _} _.
Arguments rs_prog {_ _ _ _ _ _ _ _} _.
Arguments rs_id {_ _ _ _ _ _ _ _} _.
Arguments rs_fa {_ _ _ _ _ _ _ _} _.
Arguments rs_buf {_ _ _ _ _ _ _ _} _.
Arguments rs_bits {_ _ _ _ _ _ _ _} _.
Arguments rs_p {_ _ _ _ _ _ _ _} _.

Lemma beat_in_iff base l rid fa N S p t i :
  read_state base l rid fa N S p t -> 0 <= i -> (i + 1) * m <= N * BL ->
  beat_in (ddr_bus_beats_retrieved t) i <->
  (forall j, i * m <= j < (i + 1) * m -> j / BL ∈ S).
Proof using Hc.
  intros Hs Hi Hr. pose proof (c_mult _ _ Hc). unfold beat_in. fold m.
  split; intros HH j Hj; specialize (HH j Hj).
  - rewrite (rs_bits Hs) in HH by (fold BL; nia).
    injection HH as HH. by apply bool_decide_eq_true in HH.
  - rewrite (rs_bits Hs) by (fold BL; nia). f_equal. by apply bool_decide_eq_true.
Qed.

Lemma read_callback_spec base l rid fa N S p n k s t rest :
  1 <= l -> l * m <= N * BL -> 0 <= k < N -> 0 <= DDR_ENQUEUE_SIZE_BYTES cfg * k < 2 ^ 31 ->
  rtxs s !! n = Some t -> read_state base l rid fa N S p t ->
  (forall i, 0 <= i < p -> beat_in (ddr_bus_beats_retrieved t) i) ->
  in_flight_reads s !! (fa + DDR_ENQUEUE_SIZE_BYTES cfg * k) = Some (n :: rest) ->
  exists t' p' outs,
    read_callback W cfg (fa + DDR_ENQUEUE_SIZE_BYTES cfg * k) s =
      Done (mk_rside (<[n := t']> (rtxs s)) (ddr_read_q s)
              (<[fa + DDR_ENQUEUE_SIZE_BYTES cfg * k := rest]> (in_flight_reads s))
              (read_transactions s ++ outs)) /\
    read_state base l rid fa N (S ++ [k]) p' t' /\ p <= p' /\
    Forall2 (read_beat base l rid) (zrange p (Z.to_nat (p' - p))) outs /\
    (forall i, 0 <= i < p' -> beat_in (ddr_bus_beats_retrieved t') i) /\
    (p' < l -> ~ beat_in (ddr_bus_beats_retrieved t') p').
Proof using Hc.
  intros Hl Hroom Hk Hek Ht Hs Hbefore Hq.
  pose proof (c_mult _ _ Hc) as Hm. pose proof (c_bus _ _ Hc). pose proof (c_burst _ _ Hc) as HB.
  pose proof (c_enq _ _ Hc) as HE. pose proof (c_W _ _ Hc) as HW. fold m in Hm, HW. fold BL in HB, HE.
  unfold read_callback. rewrite Hq. cbn [or_undef head mbind outcome_bind]. rewrite Ht.
  cbn [or_undef mbind outcome_bind]. rewrite (rs_fa Hs).
  rewrite Z.add_simpl_l, s32_small by lia.
  assert (Hquot : Z.quot (DDR_ENQUEUE_SIZE_BYTES cfg * k) (DDR_BUS_WIDTH_BYTES cfg) = BL * k).
  { rewrite HE, <- Z.mul_assoc, Z.mul_comm, Z.quot_mul by lia. done. }
  rewrite Hquot. fold BL.
  destruct (mark_spec (Z.to_nat BL) (ddr_bus_beats_retrieved t) (BL * k)) as (v & -> & Hlv & Hv);
    [nia|rewrite (rs_buf Hs); fold BL; nia|].
  cbn [mbind outcome_bind]. rewrite Z2Nat.id in Hv by lia.
  set (t1 := set_loaded (dram_tx_load_progress t + 1) v t).
  assert (Hlen : axi_bus_beats_length W t1 = l).
  { unfold axi_bus_beats_length, t1. simpl. rewrite (rs_len Hs), (rs_size Hs).
    apply Z.quot_mul. nia. }
  assert (Hbits : forall j, 0 <= j < N * BL -> zlookup v j = Some (bool_decide (j / BL ∈ S ++ [k]))).
  { intros j Hj. rewrite Hv. case_decide as Hd.
    - f_equal. symmetry. apply bool_decide_eq_true. apply elem_of_app. right. apply list_elem_of_singleton.
      symmetry. apply (Z.div_unique j BL k (j - BL * k)); lia.
    - rewrite (rs_bits Hs) by done. f_equal. apply bool_decide_ext.
      rewrite elem_of_app, list_elem_of_singleton. split; [by left|]. intros [|Hjk]; [done|].
      pose proof (Z.div_mod j BL ltac:(lia)). pose proof (Z.mod_pos_bound j BL ltac:(lia)).
      fold BL in Hjk. rewrite Hjk in *. lia. }
  destruct (emit_spec (emit_fuel W t1) t1) as (p' & outs & E & Hpp & Ho & Hall & Hnext).
  { rewrite Hlen. simpl. rewrite (rs_prog Hs). apply (rs_p Hs). }
  { unfold room. rewrite Hlen. fold m. simpl. rewrite Hlv, (rs_buf Hs). done. }
  { unfold emit_fuel. rewrite Hlen. simpl. rewrite (rs_prog Hs).
    pose proof (rs_p Hs). lia. }
  rewrite Hlen in *. change (axi_bus_beats_progress t1) with (axi_bus_beats_progress t) in *.
  rewrite (rs_prog Hs) in *. rewrite E. cbn [mbind outcome_bind].
  pose proof (rs_p Hs) as Hp0.
  exists (advance p' t1), p', outs. split; [done|]. split_and!; try lia.
  - split; simpl; try (destruct Hs; done); try lia.
    + rewrite (rs_addr Hs), (rs_size Hs), (rs_prog Hs). lia.
    + rewrite Hlv. apply (rs_buf Hs).
  - eapply Forall2_impl; [exact Ho|]. intros i o (Ha & Hsz & Hln & _ & Hid & _ & _ & Hlast).
    rewrite Hlen in Hlast. unfold t1 in Ha, Hsz, Hid. simpl in *.
    rewrite (rs_addr Hs), (rs_size Hs), (rs_prog Hs) in Ha.
    unfold read_beat. rewrite Ha, Hsz, Hid. destruct Hs. split_and!; try done. lia.
  - intros i Hi. simpl. destruct (decide (p <= i)); [apply Hall; lia|].
    intros j Hj. rewrite Hv. case_decide; [done|]. by apply (Hbefore i ltac:(lia)).
  - exact Hnext.
Qed.

Lemma completions_spec {id_t byte_t} base l rid fa N n (w : wside id_t byte_t) ks : forall S p s t,
  1 <= l -> l * m <= N * BL -> (forall k, 0 <= k < N -> DDR_ENQUEUE_SIZE_BYTES cfg * k < 2 ^ 31) ->
  rtxs s !! n = Some t -> read_state base l rid fa N S p t ->
  (forall i, 0 <= i < p -> beat_in (ddr_bus_beats_retrieved t) i) ->
  (p < l -> ~ beat_in (ddr_bus_beats_retrieved t) p) ->
  NoDup ks ->
  (forall k, k ∈ ks -> 0 <= k < N /\
     exists rest, in_flight_reads s !! (fa + DDR_ENQUEUE_SIZE_BYTES cfg * k) = Some (n :: rest)) ->
  exists s' t' p' outs,
    callbacks W cfg (map (fun k => (fa + DDR_ENQUEUE_SIZE_BYTES cfg * k, false)) ks) s w = Done (s', w) /\
    read_transactions s' = read_transactions s ++ outs /\ p <= p' /\
    read_state base l rid fa N (S ++ ks) p' t' /\
    Forall2 (read_beat base l rid) (zrange p (Z.to_nat (p' - p))) outs /\
    (forall i, 0 <= i < p' -> beat_in (ddr_bus_beats_retrieved t') i) /\
    (p' < l -> ~ beat_in (ddr_bus_beats_retrieved t') p').
Proof using Hc.
  induction ks as [|k ks IH]; intros S p s t Hl Hroom HE Ht Hs Hb Hn Hnd Hq.
  - exists s, t, p, []. rewrite !app_nil_r, Z.sub_diag. split_and!; done.
  - destruct (Hq k) as [Hk [rest Hr]]; [by left|].
    destruct (read_callback_spec base l rid fa N S p n k s t rest) as
      (t1 & p1 & o1 & E1 & Hs1 & Hp1 & Ho1 & Hb1 & Hn1); try done.
    { split; [|by apply HE]. pose proof (c_bus _ _ Hc). pose proof (c_burst _ _ Hc).
      rewrite (c_enq _ _ Hc). nia. }
    cbn [map callbacks]. rewrite E1. cbn [mbind outcome_bind].
    apply NoDup_cons in Hnd as [Hkn Hnd].
    match goal with |- context [callbacks _ _ _ ?s1 _] =>
      destruct (IH (S ++ [k]) p1 s1 t1) as (s' & t' & p' & o2 & E2 & Hrt & Hp' & Hs' & Ho2 & Hb' & Hn');
      [done|done|done|simpl; apply list_lookup_insert_eq; by eapply lookup_lt_Some|done|done|done|done| |] end.
    { intros k' Hk'. destruct (Hq k') as [? [rest' Hr']]; [by right|]. split; [done|]. exists rest'. simpl.
      rewrite lookup_insert_ne; [done|]. intros Heq. pose proof (c_bus _ _ Hc).
      pose proof (c_burst _ _ Hc). pose proof (c_enq _ _ Hc) as HEq.
      assert (k = k') as ->; [|done].
      apply (Z.mul_reg_l _ _ (DDR_ENQUEUE_SIZE_BYTES cfg)); [rewrite HEq; nia|lia]. }
    exists s', t', p', (o1 ++ o2). split; [done|]. split; [rewrite Hrt; simpl; by rewrite <- app_assoc|].
    split; [lia|]. rewrite <- (app_assoc S [k] ks) in Hs'. split; [done|]. split; [|done].
    replace (Z.to_nat (p' - p)) with (Z.to_nat (p1 - p) + Z.to_nat (p' - p1))%nat by lia.
    rewrite zrange_app. apply Forall2_app; [done|]. by replace (p + Z.of_nat (Z.to_nat (p1 - p))) with p1 by lia.
Qed.

(** The size of the buffer of a new read. *)
Lemma new_read base l rid fa t0 :
  1 <= l -> (l * W <= DDR_ENQUEUE_SIZE_BYTES cfg \/ (DDR_ENQUEUE_SIZE_BYTES cfg | l * W)) ->
  new_tx cfg base W l 0 false rid fa false = Done t0 ->
  let N := dram_tx_n_enqueues t0 in
  1 <= N /\ l * m <= N * BL /\ (forall k, 0 <= k < N -> DDR_ENQUEUE_SIZE_BYTES cfg * k < l * W) /\
  forall e, read_state base l rid fa N [] 0 (set_enqueued e t0).
Proof using Hc.
  intros Hl Hdiv. pose proof (c_mult _ _ Hc) as Hm. pose proof (c_bus _ _ Hc) as Hb.
  pose proof (c_burst _ _ Hc) as HB. pose proof (c_enq _ _ Hc) as HE. pose proof (c_W _ _ Hc) as HW.
  fold m in Hm, HW. fold BL in HB, HE. unfold new_tx. set (E := DDR_ENQUEUE_SIZE_BYTES cfg) in *.
  assert (1 <= E) by nia. assert (1 <= W) by nia. destruct (E =? 0) eqn:E0; zb; [lia|].
  intros [= <-]. simpl. set (N := if Z.quot (l * W) E =? 0 then 1 else Z.quot (l * W) E).
  assert (HN : 1 <= N /\ l * m <= N * BL /\ (forall k, 0 <= k < N -> E * k < l * W)).
  { unfold N. clear N. rewrite Z.quot_div_nonneg by nia. destruct Hdiv as [Hle|[q Hq]].
    - assert (Hcase : l * W / E = 0 \/ l * W = E).
      { destruct (decide (l * W = E)); [by right|]. left. apply Z.div_small. nia. }
      destruct Hcase as [->|Heq]; simpl.
      + split; [lia|]. split; [nia|]. intros k Hk. assert (k = 0) as -> by lia. nia.
      + rewrite Heq, Z.div_same by lia. simpl. split; [lia|]. split; [nia|].
        intros k Hk. assert (k = 0) as -> by lia. nia.
    - rewrite Hq, Z.div_mul by lia. assert (1 <= q) by nia.
      destruct (q =? 0) eqn:Eq; zb; [lia|]. split; [lia|]. split; [nia|]. intros k Hk. nia. }
  destruct HN as (HN & Hroom & Hk). split_and!; try done. intros e.
  split; simpl; try done.
  - lia.
  - rewrite length_replicate, Z2Nat.id by (fold BL; nia). done.
  - intros j Hj. fold BL in Hj |- *. unfold zlookup. rewrite decide_True by lia.
    rewrite lookup_replicate_2 by lia. done.
  - lia.
Qed.

End Reads.

(** C6. A read of [l] full bus beats, of less than 2^31 bytes, whose byte length fits in
    one DRAM transaction or is a multiple of it (other lengths index outside the
    buffer, [partial_burst_read_undefined]), whose parts are the oldest reads in flight
    at their addresses.  In whatever order its DRAM transactions
    complete, the beats handed to the read channel are the first [p] of the
    burst, in address order, with the read's id and only the [l]-th marked as
    last; every DRAM word of those [p] beats had completed, the next beat had
    not, and [p] is [l] once every DRAM transaction has completed. *)
Theorem read_beats_in_order {id_t byte_t} W cfg base l rid fa t0 n e s (w : wside id_t byte_t) ks :
  cfg_ok W cfg -> 1 <= l ->
  (l * W <= DDR_ENQUEUE_SIZE_BYTES cfg \/ (DDR_ENQUEUE_SIZE_BYTES cfg | l * W)) -> l * W < 2 ^ 31 ->
  new_tx cfg base W l 0 false rid fa false = Done t0 ->
  rtxs s !! n = Some (set_enqueued e t0) -> NoDup ks ->
  (forall k, k ∈ ks -> 0 <= k < dram_tx_n_enqueues t0 /\
     exists rest, in_flight_reads s !! (fa + DDR_ENQUEUE_SIZE_BYTES cfg * k) = Some (n :: rest)) ->
  exists s' p outs,
    callbacks W cfg (map (fun k => (fa + DDR_ENQUEUE_SIZE_BYTES cfg * k, false)) ks) s w = Done (s', w) /\
    read_transactions s' = read_transactions s ++ outs /\ 0 <= p <= l /\
    Forall2 (read_beat W base l rid) (zrange 0 (Z.to_nat p)) outs /\
    (forall j, 0 <= j < p * axi_ddr_bus_multiplicity cfg -> j / TOTAL_BURST cfg ∈ ks) /\
    (p < l -> exists j, p * axi_ddr_bus_multiplicity cfg <= j < (p + 1) * axi_ddr_bus_multiplicity cfg /\
       j / TOTAL_BURST cfg ∉ ks) /\
    ((forall k, 0 <= k < dram_tx_n_enqueues t0 -> k ∈ ks) -> p = l).
Proof.
  intros Hc Hl Hdiv Hsz Ht0 Hn Hnd Hq.
  destruct (new_read W cfg Hc base l rid fa t0 Hl Hdiv Ht0) as (HN & Hroom & HE & Hs0).
  specialize (Hs0 e). set (N := dram_tx_n_enqueues t0) in *.
  pose proof (c_mult _ _ Hc) as Hm. pose proof (c_burst _ _ Hc) as HB.
  set (m := axi_ddr_bus_multiplicity cfg) in *. set (BL := TOTAL_BURST cfg) in *.
  destruct (completions_spec W cfg Hc base l rid fa N n w ks [] 0 s (set_enqueued e t0)) as
    (s' & t' & p & outs & Hrun & Hrt & _ & Hs & Ho & Hall & Hnext); try done.
  { intros k Hk. specialize (HE k Hk). lia. }
  { lia. }
  { intros _ Hin. specialize (proj1 (beat_in_iff W cfg Hc _ _ _ _ _ _ _ _ 0 Hs0 ltac:(lia) ltac:(fold m BL; nia)) Hin 0 ltac:(fold m; lia)).
    apply not_elem_of_nil. }
  simpl in Hs. rewrite Z.sub_0_r in Ho. pose proof (rs_p _ _ _ _ _ _ _ _ _ _ Hs) as Hp.
  assert (Hiff : forall i, 0 <= i < l -> beat_in cfg (ddr_bus_beats_retrieved t') i <->
    (forall j, i * m <= j < (i + 1) * m -> j / BL ∈ ks)).
  { intros i Hi. apply (beat_in_iff W cfg Hc _ _ _ _ _ _ _ _ i Hs); [lia|]. fold m BL. nia. }
  exists s', p, outs. split; [done|]. split; [done|]. split; [done|]. split; [done|]. split_and!.
  - intros j Hj. assert (Hi : 0 <= j / m < p) by (split; [apply Z.div_pos; lia|apply Z.div_lt_upper_bound; lia]).
    apply (Hiff (j / m)); [lia|by apply Hall|].
    pose proof (Z.div_mod j m ltac:(lia)). pose proof (Z.mod_pos_bound j m ltac:(lia)). lia.
  - intros Hlt. destruct (decide (Forall (fun j => j / BL ∈ ks) (zrange (p * m) (Z.to_nat m)))) as [HF|HF].
    + exfalso. apply (Hnext Hlt). apply Hiff; [lia|]. intros j Hj.
      rewrite Forall_forall in HF. apply HF. apply elem_of_zrange. lia.
    + apply not_Forall_Exists in HF; [|apply _]. apply Exists_exists in HF as (j & Hj & HF).
      apply elem_of_zrange in Hj. exists j. split; [lia|done].
  - intros Hcov. destruct (decide (p = l)); [done|]. exfalso.
    apply (Hnext ltac:(lia)). apply Hiff; [lia|]. intros j Hj. apply Hcov.
    split; [apply Z.div_pos; nia|]. apply Z.div_lt_upper_bound; nia.
Qed.

(** A 512-bit AXI bus over a 64-bit DDR4 bus with bursts of eight. *)
Definition ddr4 : mem_cfg := mk_cfg 8 8 64 8.

Lemma ddr4_ok : cfg_ok 64 ddr4.
Proof. by split; simpl; try lia. Qed.

Definition demo_tx : memory_transaction :=
  mk_tx 10000 64 3 0 5 false 4096 3 0 0 true false (replicate 24 false).
Definition demo_rside : rside :=
  mk_rside [set_enqueued 3 demo_tx] [] {[4096 := [0%nat]; 4160 := [0%nat]; 4224 := [0%nat]]} [].
Definition demo_wside : wside (GetSetWrapper 1) (GetSetWrapper 1) :=
  mk_wside [] [] ∅ [] 0 (mk_rc (mk_gsw 0) (mk_gsw 0) (mk_gsw 0) [] []).

Lemma read_beats_in_order_witness :
  exists s' p outs,
    callbacks 64 ddr4 (map (fun k => (4096 + 64 * k, false)) [2; 0; 1]) demo_rside demo_wside =
      Done (s', demo_wside) /\
    read_transactions s' = [] ++ outs /\ 0 <= p <= 3 /\
    Forall2 (read_beat 64 10000 3 5) (zrange 0 (Z.to_nat p)) outs /\
    (forall j, 0 <= j < p * 8 -> j / 8 ∈ [2; 0; 1]) /\
    (p < 3 -> exists j, p * 8 <= j < (p + 1) * 8 /\ j / 8 ∉ [2; 0; 1]) /\
    ((forall k, 0 <= k < 3 -> k ∈ [2; 0; 1]) -> p = 3).
Proof.
  apply (read_beats_in_order 64 ddr4 10000 3 5 4096 demo_tx 0 3 demo_rside demo_wside [2; 0; 1]).
  - apply ddr4_ok.
  - lia.
  - right. exists 3. reflexivity.
  - lia.
  - reflexivity.
  - reflexivity.
  - by apply (bool_decide_unpack _).
  - intros k Hk. assert (k = 0 \/ k = 1 \/ k = 2) as [-> | [-> | ->]] by set_solver;
      (split; [simpl; lia|]); exists []; reflexivity.
Defined.

(** A read of five beats of 16 bytes over a 64-bit DDR bus with bursts of
    eight: the length is cut down to one DRAM transaction, and when it completes
    the loop looks at a beat the buffer does not have. *)
Theorem partial_burst_read_undefined base rid fa :
  exists t0, new_tx (mk_cfg 8 2 64 8) base 16 5 0 false rid fa false = Done t0 /\
    dram_tx_n_enqueues t0 = 1 /\
    read_callback 16 (mk_cfg 8 2 64 8) fa (mk_rside [t0] [] {[fa := [0%nat]]} []) = Undef.
Proof.
  eexists. split; [reflexivity|]. split; [reflexivity|].
  unfold read_callback. cbn [in_flight_reads rtxs]. rewrite lookup_singleton_eq.
  cbn [or_undef head mbind outcome_bind lookup list_lookup fpga_addr]. rewrite Z.sub_diag. reflexivity.
Qed.

End MemCtrl.
