(* ===== verification/Tick.v ===== *)
(** * One cycle of the memory interfaces

    The memory part of [tick_signals] in [runtime/src/core/tick.cc]: DRAM clocks,
    the AXI handshakes of every memory channel, and the memory they read and
    write.  Host memory is a map from byte addresses; a byte that is not in the
    map is not mapped.  The Verilator build is modelled: an exception of the
    address translation leaves the function. *)

From S2P Require Import Prelude DataServer Channels MemCtrl.

Module Tick.
Import Channels MemCtrl.

Definition max_in_flight_writes : Z := 32.
Definition max_q_length : Z := 40.

Abbreviation hmem := (gmap Z Z).

Definition load8 (h : hmem) (a : Z) : outcome Z := or_undef (h !! a).

(** A 32-bit little-endian load. *)
Definition load32 (h : hmem) (a : Z) : outcome Z :=
  b0 ← load8 h a; b1 ← load8 h (a + 1); b2 ← load8 h (a + 2); b3 ← load8 h (a + 3);
  Done (b0 + 2 ^ 8 * b1 + 2 ^ 16 * b2 + 2 ^ 24 * b3).

Definition store8 (h : hmem) (a v : Z) : outcome hmem :=
  _ ← load8 h a; Done (<[a := v]> h).

Section Tick.
Context {id_t axisize_t burst_t addr_t len_t strb_t byte_t data_t D : Type}.
Context `{Wire id_t, Wire axisize_t, Wire burst_t, ChunkWire addr_t, Wire addr_t, Wire len_t,
          ChunkWire strb_t, Wire byte_t, DataWire data_t, DramSystem D}.
Variable W : Z.             (* DATA_BUS_WIDTH / 8 *)
Variable cfg : mem_cfg.

Record mem_interface := mk_mem {
  aw : address_channel id_t axisize_t burst_t addr_t len_t byte_t;
  ar : address_channel id_t axisize_t burst_t addr_t len_t byte_t;
  w : data_channel byte_t strb_t byte_t data_t;
  r : data_channel id_t byte_t byte_t data_t;
  rs : rside;
  ws : wside id_t byte_t;
  mem_sys : D
}.

(** What the channels share: the host memory, the address map, a counter. *)
Record world := mk_world {
  host : hmem;
  at_map : DataServer.mappings;
  memory_transacted : Z
}.

Definition can_accept_read (s : rside) : bool := Z.of_nat (length (ddr_read_q s)) <? max_q_length.
Definition can_accept_write (s : wside id_t byte_t) : bool :=
  Z.of_nat (length (ddr_write_q s)) <? max_q_length.
Definition has_credit (s : wside id_t byte_t) : bool := num_in_flight_writes s <? max_in_flight_writes.

(** ** DRAM clocks *)

Definition clock_mem (m : mem_interface) : outcome mem_interface :=
  '(d, r', w') ← ddr_clock W cfg (mem_sys m) (rs m) (ws m);
  Done (mk_mem (aw m) (ar m) (w m) (r m) r' w' d).

Fixpoint clock_mems (ms : list mem_interface) : outcome (list mem_interface) :=
  match ms with
  | [] => Done []
  | m :: ms' => m' ← clock_mem m; ms'' ← clock_mems ms'; Done (m' :: ms'')
  end.

Fixpoint clocks (n : nat) (ms : list mem_interface) : outcome (list mem_interface) :=
  match n with
  | O => Done ms
  | S n' => ms' ← clock_mems ms; clocks n' ms'
  end.

(** ** First pass over the channels: read data and read addresses *)

Definition with_reads (q : list memory_transaction) (s : rside) : rside :=
  mk_rside (rtxs s) (ddr_read_q s) (in_flight_reads s) q.

Definition read_fire (g : world) (m : mem_interface) : outcome (world * mem_interface) :=
  if dc_getValid (r m) && dc_getReady (r m) then
    match read_transactions (rs m) with
    | [] => Undef
    | t :: q =>
        let t := set_progress (axi_bus_beats_progress t + 1) t in
        let t := if fixed t then t else set_addr (addr t + size t) t in
        let q' := if dc_getLast (r m) || negb (can_be_last t) then q else t :: q in
        Done (mk_world (host g) (at_map g) (memory_transacted g + W),
              mk_mem (aw m) (ar m) (w m) (r m) (with_reads q' (rs m)) (ws m) (mem_sys m))
    end
  else Done (g, m).

(** [None]: the address translated to a null pointer and the tick returned. *)
Definition read_address (g : world) (m : mem_interface) : outcome (option mem_interface) :=
  if ac_getReady (ar m) && ac_getValid (ar m) then
    a ← ac_getAddr (ar m);
    p ← DataServer.translate (at_map g) a;
    if p =? 0 then Done None
    else
      t ← new_tx cfg p (Z.shiftl 1 (ac_getSize (ar m))) (ac_getLen (ar m) + 1) 0 false
            (s32 (ac_getId (ar m))) a false;
      let s := rs m in
      Done (Some (mk_mem (aw m) (ar m) (w m) (r m)
              (mk_rside (rtxs s ++ [t]) (ddr_read_q s ++ [length (rtxs s)]) (in_flight_reads s)
                 (read_transactions s)) (ws m) (mem_sys m)))
  else Done (Some m).

(** ** Second pass: responses, read data out, write addresses, write data *)

Definition with_b (c : response_channel id_t byte_t) (s : wside id_t byte_t) : wside id_t byte_t :=
  mk_wside (wtxs s) (ddr_write_q s) (in_flight_writes s) (write_transactions s)
    (num_in_flight_writes s) c.

Definition response_fire (s : wside id_t byte_t) : outcome (wside id_t byte_t) :=
  if rc_getReady (b s) && rc_getValid (b s) then
    match send_ids (b s) with
    | [] => Undef
    | _ :: q =>
        Done (mk_wside (wtxs s) (ddr_write_q s) (in_flight_writes s) (write_transactions s)
                (num_in_flight_writes s - 1) (rc_setSendIds q (b s)))
    end
  else Done s.

(** The loop that puts [n] words from [src] on the bus. *)
Fixpoint put_words (h : hmem) (src start : Z) (i : Z) (n : nat)
    (c : data_channel id_t byte_t byte_t data_t)
    : outcome (data_channel id_t byte_t byte_t data_t) :=
  match n with
  | O => Done c
  | S n' =>
      x ← load32 h (src + 4 * i);
      c' ← dc_setData x (i + start) c;
      put_words h src start (i + 1) n' c'
  end.

Definition present_read (h : hmem) (q : list memory_transaction)
    (c : data_channel id_t byte_t byte_t data_t)
    : outcome (data_channel id_t byte_t byte_t data_t) :=
  match q with
  | [] => Done (dc_setLast 0 (dc_setValid 0 c))
  | t :: _ =>
      let start := Z.quot (Z.rem (axi_bus_beats_progress t * size t) W) 4 in
      c1 ← put_words h (addr t) start 0 (Z.to_nat (Z.quot (size t) 4)) c;
      let am_done := len t =? axi_bus_beats_progress t + 1 in
      Done (dc_setId (u64 (id t))
              (dc_setLast (b2z (am_done && can_be_last t)) (dc_setValid 1 c1)))
  end.

Definition present_response (c : response_channel id_t byte_t) : response_channel id_t byte_t :=
  let c1 := match send_ids c with
            | [] => rc_setValid 0 c
            | i :: _ => rc_setId i (rc_setValid 1 c)
            end in
  match to_enqueue c1 with
  | [] => c1
  | i :: q => mk_rc (rc_ready c1) (rc_valid c1) (rc_id c1) (send_ids c1 ++ [i]) q
  end.

Definition write_address (g : world) (c : address_channel id_t axisize_t burst_t addr_t len_t byte_t)
    (s : wside id_t byte_t) : outcome (option (wside id_t byte_t)) :=
  if ac_getValid c && ac_getReady c then
    a ← ac_getAddr c;
    p ← DataServer.translate (at_map g) a;
    if p =? 0 then Done None
    else
      t ← new_tx cfg p (Z.shiftl 1 (ac_getSize c)) (1 + ac_getLen c) 0 (ac_getBurst c =? 0)
            (s32 (ac_getId c)) a false;
      Done (Some (mk_wside (wtxs s ++ [t]) (ddr_write_q s) (in_flight_writes s)
                    (write_transactions s ++ [length (wtxs s)]) (num_in_flight_writes s + 1) (b s)))
  else Done (Some s).

(** The byte loop of a write beat. *)
Fixpoint write_bytes (c : data_channel byte_t strb_t byte_t data_t) (data : list Z) (a off : Z)
    (n : nat) (h : hmem) (cnt : Z) : outcome (hmem * Z) :=
  match n with
  | O => Done (h, cnt)
  | S n' =>
      x ← dc_getStrb c off;
      if (x : bool) then
        v ← vget data off;
        h' ← store8 h (a + off) v;
        write_bytes c data a (off + 1) n' h' (cnt + 1)
      else write_bytes c data a (off + 1) n' h cnt
  end.

Definition write_data (g : world) (c : data_channel byte_t strb_t byte_t data_t)
    (s : wside id_t byte_t)
    : outcome (world * data_channel byte_t strb_t byte_t data_t * wside id_t byte_t) :=
  match write_transactions s with
  | [] => Done (g, dc_setReady (b2z (has_credit s)) c, s)
  | n :: q =>
      if dc_getValid c && dc_getReady c then
        t ← or_undef (wtxs s !! n);
        data ← dc_getData c;
        '(h, cnt) ← write_bytes c data (addr t) 0 (Z.to_nat W) (host g) (memory_transacted g + W);
        let g' := mk_world h (at_map g) cnt in
        let t := set_progress (axi_bus_beats_progress t + 1) t in
        let t := if fixed t then t else set_addr (addr t + size t) t in
        if dc_getLast c then
          let t := set_progress 1 (set_enqueued 0 t) in
          let s' := mk_wside (<[n := t]> (wtxs s)) (ddr_write_q s ++ [n]) (in_flight_writes s) q
                      (num_in_flight_writes s) (b s) in
          Done (g', dc_setReady (b2z (negb (bool_decide (q = [])) || has_credit s')) c, s')
        else
          Done (g', dc_setReady 1 c,
                mk_wside (<[n := t]> (wtxs s)) (ddr_write_q s) (in_flight_writes s)
                  (write_transactions s) (num_in_flight_writes s) (b s))
      else Done (g, c, s)
  end.

(** A stretch of the tick gives the new state, and [false] when it returned from
    the whole tick. *)
Definition second_pass (g : world) (m : mem_interface) : outcome (bool * (world * mem_interface)) :=
  ws1 ← response_fire (ws m);
  r1 ← present_read (host g) (read_transactions (rs m)) (r m);
  let ws2 := with_b (present_response (b ws1)) ws1 in
  o ← write_address g (aw m) ws2;
  match o with
  | None => Done (false, (g, mk_mem (aw m) (ar m) (w m) r1 (rs m) ws2 (mem_sys m)))
  | Some ws3 =>
      '(g', w1, ws4) ← write_data g (w m) ws3;
      Done (true, (g', mk_mem (ac_setReady (has_credit ws4) (aw m))
                         (ac_setReady (can_accept_read (rs m)) (ar m)) w1 r1 (rs m) ws4 (mem_sys m)))
  end.

Definition first_pass (g : world) (m : mem_interface) : outcome (bool * (world * mem_interface)) :=
  '(g', m1) ← read_fire g m;
  o ← read_address g' m1;
  match o with None => Done (false, (g', m1)) | Some m2 => Done (true, (g', m2)) end.

(** A loop over the channels that an early return cuts. *)
Fixpoint each (f : world -> mem_interface -> outcome (bool * (world * mem_interface)))
    (g : world) (ms : list mem_interface) : outcome (bool * (world * list mem_interface)) :=
  match ms with
  | [] => Done (true, (g, []))
  | m :: ms' =>
      '(go, (g1, m1)) ← f g m;
      if (go : bool) then
        '(go', (g2, ms2)) ← each f g1 ms';
        Done (go', (g2, m1 :: ms2))
      else Done (false, (g1, m1 :: ms'))
  end.

(** The memory part of [tick_signals]; [false] when the tick returned early. *)
Definition tick_mems (ddr_ticks : nat) (g : world) (ms : list mem_interface)
    : outcome (bool * (world * list mem_interface)) :=
  ms1 ← clocks ddr_ticks ms;
  '(go, (g1, ms2)) ← each first_pass g ms1;
  if (go : bool) then each second_pass g1 ms2 else Done (false, (g1, ms2)).

End Tick.
Arguments mem_interface : clear implicits.
Arguments world : clear implicits.

(** ** Credits of the write channel *)

(** How many of the first [L] indices satisfy [f]. *)
Definition count (f : nat -> bool) (L : nat) : nat := length (filter (fun n => f n = true) (seq 0 L)).

Lemma count_S f L : count f (S L) = (count f L + if f L then 1 else 0)%nat.
Proof.
  unfold count. rewrite seq_S, filter_app, length_app. simpl.
  destruct (f L) eqn:E; [by rewrite filter_cons_True|by rewrite filter_cons_False by congruence].
Qed.

Lemma count_ext f g L : (forall n, (n < L)%nat -> f n = g n) -> count f L = count g L.
Proof.
  induction L as [|L IH]; intros Hfg; [done|]. rewrite !count_S, IH by auto. by rewrite Hfg by lia.
Qed.

Lemma count_flip f g L n :
  (n < L)%nat -> f n = true -> g n = false -> (forall m, m <> n -> f m = g m) -> count f L = S (count g L).
Proof.
  induction L as [|L IH]; intros Hn Hf Hg Hfg; [lia|]. rewrite !count_S.
  destruct (decide (n = L)) as [->|].
  - rewrite Hf, Hg, (count_ext f g) by (intros m ?; apply Hfg; lia). lia.
  - rewrite IH by (done || lia). rewrite (Hfg L) by done. lia.
Qed.

Section Credits.
Context {id_t byte_t : Type} `{Wire id_t, Wire byte_t}.
Local Abbreviation wside := (wside id_t byte_t).

(** A write whose data has arrived and that has not been answered. *)
Definition unanswered (txs : list memory_transaction) (T : list nat) (n : nat) : bool :=
  match txs !! n with
  | Some t => negb (bool_decide (n ∈ T)) && (axi_bus_beats_progress t =? 1)
  | None => false
  end.

Definition closed (s : wside) (n : nat) : Prop :=
  (n < length (wtxs s))%nat /\ n ∉ write_transactions s.

Record credit_inv (s : wside) : Prop := {
  ci_num : num_in_flight_writes s =
    Z.of_nat (length (write_transactions s) + count (unanswered (wtxs s) (write_transactions s)) (length (wtxs s)) +
              length (to_enqueue (b s)) + length (send_ids (b s)));
  ci_open : forall n, n ∈ write_transactions s -> (n < length (wtxs s))%nat;
  ci_nodup : NoDup (write_transactions s);
  ci_prog : forall n t, wtxs s !! n = Some t -> n ∉ write_transactions s -> axi_bus_beats_progress t <= 1;
  ci_flight : forall a q n, in_flight_writes s !! a = Some q -> n ∈ q -> closed s n;
  ci_queue : forall n, n ∈ ddr_write_q s -> closed s n;
  ci_valid : rc_getValid (b s) = true -> send_ids (b s) <> []
}.

Lemma unanswered_ne txs T m n t' : n <> m -> unanswered (<[n := t']> txs) T m = unanswered txs T m.
Proof. intros Hne. unfold unanswered. by rewrite list_lookup_insert_ne. Qed.

Lemma unanswered_eq txs T n t' : (n < length txs)%nat ->
  unanswered (<[n := t']> txs) T n = negb (bool_decide (n ∈ T)) && (axi_bus_beats_progress t' =? 1).
Proof. intros Hn. unfold unanswered. by rewrite list_lookup_insert_eq. Qed.

(** A write that is still open, or was answered already, changes: the count stays. *)
Lemma count_keep txs T n t t' :
  txs !! n = Some t ->
  (n ∈ T \/ (axi_bus_beats_progress t =? 1) = (axi_bus_beats_progress t' =? 1)) ->
  count (unanswered (<[n := t']> txs) T) (length txs) = count (unanswered txs T) (length txs).
Proof.
  intros Ht Hor. apply count_ext. intros m Hm. destruct (decide (n = m)) as [->|]; [|by apply unanswered_ne].
  rewrite unanswered_eq by done. unfold unanswered. rewrite Ht. destruct Hor as [Hin | ->]; [|done].
  by rewrite bool_decide_eq_true_2.
Qed.

Lemma write_callback_inv a s s' : credit_inv s -> write_callback a s = Done s' ->
  credit_inv s' /\ num_in_flight_writes s' = num_in_flight_writes s.
Proof.
  intros Hi. unfold write_callback.
  destruct (in_flight_writes s !! a) as [q|] eqn:Eq; [|done]. cbn [or_undef mbind outcome_bind].
  destruct q as [|n q]; [done|]. cbn [head or_undef mbind outcome_bind].
  destruct (wtxs s !! n) as [t|] eqn:Et; [|done]. cbn [or_undef mbind outcome_bind].
  intros E. assert (Hcl : closed s n) by (eapply (ci_flight _ Hi); [done|by left]).
  destruct Hcl as [Hn Hopen]. pose proof (ci_prog _ Hi n t Et Hopen) as Hp.
  injection E as <-. split; [|done].
  set (t' := set_progress (axi_bus_beats_progress t - 1) t).
  assert (Hcnt : (count (unanswered (wtxs s) (write_transactions s)) (length (wtxs s)) + length (to_enqueue (b s)) =
    count (unanswered (<[n := t']> (wtxs s)) (write_transactions s)) (length (wtxs s)) +
    length (to_enqueue (if (axi_bus_beats_progress t' =? 0)%Z then enqueue_response (id t') (b s) else b s)))%nat).
  { destruct (decide (axi_bus_beats_progress t = 1)) as [H1|H1].
    - unfold t' at 2. cbn [axi_bus_beats_progress set_progress]. rewrite H1. simpl. rewrite length_app. simpl.
      rewrite (count_flip (unanswered (wtxs s) (write_transactions s))
        (unanswered (<[n := t']> (wtxs s)) (write_transactions s)) (length (wtxs s)) n); [lia|done| | |].
      + unfold unanswered. rewrite Et, H1, bool_decide_eq_false_2 by done. done.
      + rewrite unanswered_eq by done. unfold t'. simpl. rewrite H1. by rewrite andb_false_r.
      + intros m Hm. by rewrite unanswered_ne.
    - destruct (axi_bus_beats_progress t' =? 0) eqn:E; unfold t' in E; simpl in E; zb; [lia|]. f_equal.
      symmetry. apply (count_keep _ _ _ t); [done|]. right. unfold t'. simpl.
      destruct (axi_bus_beats_progress t =? 1) eqn:E1, (axi_bus_beats_progress t - 1 =? 1) eqn:E2; zb; lia || done. }
  split; simpl.
  - rewrite (ci_num _ Hi). rewrite length_insert. fold t'. unfold t' in Hcnt at 3. simpl in Hcnt.
    destruct (axi_bus_beats_progress t - 1 =? 0); simpl in *; lia.
  - intros m Hm. rewrite length_insert. by apply (ci_open _ Hi).
  - apply (ci_nodup _ Hi).
  - intros m t2 Hm Ho. destruct (decide (n = m)) as [->|].
    + rewrite list_lookup_insert_eq in Hm by done. injection Hm as <-. unfold t'. simpl. lia.
    + rewrite list_lookup_insert_ne in Hm by done. by apply (ci_prog _ Hi m).
  - intros a' q' m Hq Hm. unfold closed. simpl. rewrite length_insert.
    apply lookup_insert_Some in Hq as [[<- <-]|[_ Hq]]; [|by apply (ci_flight _ Hi a' q')].
    eapply (ci_flight _ Hi); [exact Eq|by right].
  - intros m Hm. unfold closed. simpl. rewrite length_insert. by apply (ci_queue _ Hi).
  - pose proof (ci_valid _ Hi). by destruct (_ =? 0).
Qed.

Lemma erase_first_subset n q x : x ∈ erase_first n q -> x ∈ q.
Proof.
  induction q as [|y q IH]; simpl; [done|]. case_decide; [by right|].
  intros [->|]%elem_of_cons; [by left|right; auto].
Qed.

Lemma pick_write_in {D} `{DramSystem D} cfg (d : D) txs q n : pick_write cfg d txs q = Done (Some n) -> n ∈ q.
Proof.
  induction q as [|m q IH]; cbn [pick_write]; [done|]. destruct (txs !! m); [|done].
  cbn [or_undef mbind outcome_bind]. destruct (WillAcceptTransaction _ _ _).
  - intros [= ->]. by left.
  - intros E. right. auto.
Qed.

Lemma enqueue_write_inv {D} `{DramSystem D} cfg (d d' : D) s s' :
  credit_inv s -> enqueue_write_ddr cfg d s = Done (d', s') ->
  credit_inv s' /\ num_in_flight_writes s' = num_in_flight_writes s.
Proof.
  intros Hi. unfold enqueue_write_ddr. destruct (pick_write _ _ _ _) as [[n|]| | | |] eqn:Ep; try done;
    cbn [mbind outcome_bind]; [|by intros [= <- <-]].
  apply pick_write_in in Ep. destruct (ci_queue _ Hi n Ep) as [Hn Hopen].
  destruct (wtxs s !! n) as [t|] eqn:Et; [|done]. cbn [or_undef mbind outcome_bind].
  intros E. injection E as <- <-. split; [|done]. split; simpl.
  - rewrite (ci_num _ Hi), length_insert, (count_keep _ _ _ t) by (done || by right). done.
  - intros m Hm. rewrite length_insert. by apply (ci_open _ Hi).
  - apply (ci_nodup _ Hi).
  - intros m t2 Hm Ho. destruct (decide (n = m)) as [->|].
    + rewrite list_lookup_insert_eq in Hm by done. injection Hm as <-. simpl. by apply (ci_prog _ Hi m).
    + rewrite list_lookup_insert_ne in Hm by done. by apply (ci_prog _ Hi m).
  - intros a q m Hq Hm. unfold closed. simpl. rewrite length_insert. unfold push_in_flight in Hq.
    apply lookup_insert_Some in Hq as [[<- <-]|[_ Hq]]; [|by apply (ci_flight _ Hi a q)].
    apply elem_of_app in Hm as [Hm| ->%list_elem_of_singleton]; [|done].
    destruct (in_flight_writes s !! _) as [q|] eqn:Eq; [|by apply not_elem_of_nil in Hm].
    by apply (ci_flight _ Hi (dimm_addr cfg t) q).
  - intros m Hm. unfold closed. simpl. rewrite length_insert. apply (ci_queue _ Hi).
    destruct (dramsim_tx_finished _); [by apply erase_first_subset in Hm|done].
  - apply (ci_valid _ Hi).
Qed.

Lemma callbacks_inv W cfg cs : forall rr rr' s s',
  credit_inv s -> callbacks W cfg cs rr s = Done (rr', s') ->
  credit_inv s' /\ num_in_flight_writes s' = num_in_flight_writes s.
Proof.
  induction cs as [|[a []] cs IH]; intros rr rr' s s' Hi; cbn [callbacks].
  - by intros [= <- <-].
  - destruct (write_callback a s) as [s1| | | |] eqn:E; try done. cbn [mbind outcome_bind]. intros Hc.
    destruct (write_callback_inv a s s1 Hi E) as [Hi1 <-]. by eapply IH.
  - destruct (read_callback W cfg a rr) as [r1| | | |] eqn:E; try done. cbn [mbind outcome_bind]. by apply IH.
Qed.

Lemma ddr_clock_inv {D} `{DramSystem D} W cfg (d d' : D) rr rr' s s' :
  credit_inv s -> ddr_clock W cfg d rr s = Done (d', rr', s') ->
  credit_inv s' /\ num_in_flight_writes s' = num_in_flight_writes s.
Proof.
  intros Hi. unfold ddr_clock, try_to_enqueue_ddr. destruct (ClockTick d) as [d1 cs].
  destruct (callbacks W cfg cs rr s) as [[r1 s1]| | | |] eqn:Ec; try done. cbn [mbind outcome_bind].
  destruct (callbacks_inv _ _ _ _ _ _ _ Hi Ec) as [Hi1 Hn1].
  destruct (enqueue_read_ddr cfg d1 r1) as [[d2 r2]| | | |]; try done. cbn [mbind outcome_bind].
  destruct (enqueue_write_ddr cfg d2 s1) as [[d3 s3]| | | |] eqn:Ee; try done. cbn [mbind outcome_bind].
  intros [= <- <- <-]. destruct (enqueue_write_inv _ _ _ _ _ Hi1 Ee) as [Hi3 Hn3]. split; [done|]. lia.
Qed.

Lemma responses_inv `{!FlagWire byte_t} s s1 : credit_inv s -> response_fire s = Done s1 ->
  let s2 := with_b (present_response (b s1)) s1 in
  credit_inv s2 /\ num_in_flight_writes s2 <= num_in_flight_writes s.
Proof.
  intros Hi Hf.
  assert (Hs1 : exists q c, s1 = mk_wside (wtxs s) (ddr_write_q s) (in_flight_writes s) (write_transactions s)
      (num_in_flight_writes s - Z.of_nat c) (rc_setSendIds q (b s)) /\
      length (send_ids (b s)) = (c + length q)%nat).
  { unfold response_fire in Hf. destruct (rc_getReady (b s) && rc_getValid (b s)).
    - destruct (send_ids (b s)) as [|i q] eqn:Es; [done|]. injection Hf as <-. exists q, 1%nat. done.
    - injection Hf as <-. exists (send_ids (b s)), 0%nat. rewrite Z.sub_0_r. split; [|done].
      by destruct s as [? ? ? ? ? [? ? ? ? ?]]. }
  destruct Hs1 as (q & c & -> & Hc). clear Hf. simpl. split; [|lia].
  destruct Hi as [Hnum Hopen Hnd Hprog Hfl Hq Hv].
  assert (Hp : forall ch, let ch' := present_response (ch : response_channel id_t byte_t) in
    (length (to_enqueue ch') + length (send_ids ch') = length (to_enqueue ch) + length (send_ids ch))%nat /\
    (rc_getValid ch' = true -> send_ids ch' <> [])).
  { intros ch. unfold present_response. destruct (send_ids ch) as [|i sq] eqn:Es; simpl;
      destruct (to_enqueue ch) as [|j tq] eqn:Et; simpl; rewrite ?Es, ?Et, ?length_app; simpl; split; try lia; try done.
    - unfold rc_getValid. simpl. by rewrite (flag_wire false). }
  specialize (Hp (rc_setSendIds q (b s))). simpl in Hp. destruct Hp as [Hlen Hval].
  split; simpl; try done. rewrite Hnum. lia.
Qed.

Lemma write_address_inv {axisize_t burst_t addr_t len_t}
    `{Wire axisize_t, Wire burst_t, ChunkWire addr_t, Wire len_t} cfg g
    (c : address_channel id_t axisize_t burst_t addr_t len_t byte_t) s s' :
  credit_inv s -> write_address cfg g c s = Done (Some s') ->
  credit_inv s' /\ (s' = s \/
    (ac_getReady c = true /\ num_in_flight_writes s' = num_in_flight_writes s + 1)).
Proof.
  intros Hi. unfold write_address.
  destruct (ac_getValid c && ac_getReady c)%bool eqn:Ev; [|intros [= <-]; auto].
  apply andb_prop in Ev as [_ Hr].
  destruct (ac_getAddr c) as [a| | | |]; try done. cbn [mbind outcome_bind].
  destruct (DataServer.translate _ a) as [p| | | |]; try done. cbn [mbind outcome_bind].
  destruct (p =? 0); [done|].
  destruct (new_tx _ _ _ _ _ _ _ _ _) as [t| | | |] eqn:En; try done. cbn [mbind outcome_bind].
  intros [= <-]. split; [|by right]. destruct Hi as [Hnum Hopen Hnd Hprog Hfl Hq Hv].
  assert (Hcl : forall n, closed s n -> closed (mk_wside (wtxs s ++ [t]) (ddr_write_q s) (in_flight_writes s)
    (write_transactions s ++ [length (wtxs s)]) (num_in_flight_writes s + 1) (b s)) n).
  { intros n [Hn Ho]. split; simpl; [rewrite length_app; simpl; lia|].
    rewrite elem_of_app, list_elem_of_singleton. intros [?| ->]; [done|lia]. }
  split; simpl.
  - rewrite !length_app. simpl. rewrite (Nat.add_1_r (length (wtxs s))), count_S.
    rewrite (count_ext _ (unanswered (wtxs s) (write_transactions s))).
    2:{ intros n Hn. unfold unanswered. rewrite lookup_app_l by done.
        destruct (wtxs s !! n); [|done]. f_equal. f_equal. apply bool_decide_ext.
        rewrite elem_of_app, list_elem_of_singleton. split; [|by left]. intros [?| ->]; [done|lia]. }
    unfold unanswered at 2. rewrite lookup_app_r, Nat.sub_diag by done. simpl.
    rewrite bool_decide_eq_true_2 by set_solver. simpl. rewrite Hnum. lia.
  - intros n. rewrite elem_of_app, list_elem_of_singleton, length_app. simpl.
    intros [Hn| ->]; [apply Hopen in Hn|]; lia.
  - apply NoDup_app. split; [done|]. split; [|apply NoDup_singleton].
    intros n Hn ->%list_elem_of_singleton. apply Hopen in Hn. lia.
  - intros n t' Hn Ho. rewrite elem_of_app, list_elem_of_singleton in Ho.
    apply lookup_app_Some in Hn as [Hn|[Hge Hn]]; [apply (Hprog n); [done|naive_solver]|].
    apply list_lookup_singleton_Some in Hn as [Hn _]. naive_solver lia.
  - intros a' q n Hq' Hn. by apply Hcl, (Hfl a' q).
  - intros n Hn. by apply Hcl, Hq.
  - done.
Qed.

Lemma write_data_inv {strb_t data_t} `{ChunkWire strb_t, DataWire data_t} W g
    (c : data_channel byte_t strb_t byte_t data_t) s g' c' s' :
  credit_inv s -> write_data W g c s = Done (g', c', s') ->
  credit_inv s' /\ num_in_flight_writes s' = num_in_flight_writes s.
Proof.
  intros Hi. unfold write_data. destruct (write_transactions s) as [|n q] eqn:Eq; [by intros [= <- <- <-]|].
  destruct (dc_getValid c && dc_getReady c)%bool; [|by intros [= <- <- <-]].
  destruct (wtxs s !! n) as [t|] eqn:Et; [|done]. cbn [or_undef mbind outcome_bind].
  destruct (dc_getData c) as [data| | | |]; try done. cbn [mbind outcome_bind].
  destruct (write_bytes _ _ _ _ _ _ _) as [[h cnt]| | | |]; try done. cbn [mbind outcome_bind].
  set (t1 := if fixed _ then _ else _).
  pose proof (lookup_lt_Some _ _ _ Et) as Hn. destruct Hi as [Hnum Hopen Hnd Hprog Hfl Hq Hv].
  rewrite Eq in Hnd, Hopen. apply NoDup_cons in Hnd as [Hnq Hnd].
  destruct (dc_getLast c); intros E; injection E as <- <- <-; (split; [|done]).
  - set (t2 := set_progress 1 (set_enqueued 0 t1)).
    assert (Hcl : forall m, closed s m -> (m < length (<[n := t2]> (wtxs s)))%nat /\ m ∉ q).
    { intros m [Hm Ho]. rewrite Eq in Ho. rewrite length_insert. split; [done|set_solver]. }
    split; simpl.
    + rewrite Hnum, Eq, length_insert. simpl.
      rewrite (count_flip (unanswered (<[n := t2]> (wtxs s)) q) (unanswered (wtxs s) (n :: q)) _ n); [lia|done| | |].
      * rewrite unanswered_eq by done. by rewrite bool_decide_eq_false_2.
      * unfold unanswered. rewrite Et. by rewrite bool_decide_eq_true_2 by (by left).
      * intros m Hm. rewrite unanswered_ne by done. unfold unanswered. destruct (wtxs s !! m); [|done].
        f_equal. f_equal. apply bool_decide_ext. rewrite elem_of_cons. naive_solver.
    + intros m Hm. rewrite length_insert. apply Hopen. by right.
    + done.
    + intros m t3 Hm Ho. destruct (decide (n = m)) as [->|].
      * rewrite list_lookup_insert_eq in Hm by done. injection Hm as <-. simpl. lia.
      * rewrite list_lookup_insert_ne in Hm by done. apply (Hprog m); [done|]. rewrite Eq. set_solver.
    + intros a q' m Hq' Hm. by apply Hcl, (Hfl a q').
    + intros m [Hm| ->%list_elem_of_singleton]%elem_of_app; [by apply Hcl, Hq|].
      split; simpl; [by rewrite length_insert|done].
    + done.
  - assert (Hcl : forall m, closed s m -> (m < length (<[n := t1]> (wtxs s)))%nat /\ m ∉ n :: q).
    { intros m [Hm Ho]. rewrite Eq in Ho. by rewrite length_insert. }
    split; simpl.
    + rewrite Hnum, Eq, length_insert. rewrite (count_keep _ _ _ t) by (done || left; by left). done.
    + intros m Hm. rewrite length_insert. by apply Hopen.
    + by apply NoDup_cons.
    + intros m t3 Hm Ho. rewrite list_lookup_insert_ne in Hm by set_solver.
      apply (Hprog m); [done|]. by rewrite Eq.
    + intros a q' m Hq' Hm. by apply Hcl, (Hfl a q').
    + intros m Hm. by apply Hcl, Hq.
    + done.
Qed.

End Credits.

(** ** Runs *)

Section Runs.
Context {id_t axisize_t burst_t addr_t len_t strb_t byte_t data_t D : Type}.
Context `{Wire id_t, Wire axisize_t, Wire burst_t, ChunkWire addr_t, Wire addr_t, Wire len_t,
          ChunkWire strb_t, Wire byte_t, DataWire data_t, DramSystem D}.
Context {Hflag : FlagWire byte_t}.
Variable W : Z.
Variable cfg : mem_cfg.
Local Abbreviation mem_interface := (mem_interface id_t axisize_t burst_t addr_t len_t strb_t byte_t data_t D).

(** Between two ticks the hardware may change its own outputs only. *)
Record env (m m' : mem_interface) : Prop := {
  env_rs : rs m' = rs m;
  env_sys : mem_sys m' = mem_sys m;
  env_ws : exists rdy, ws m' = with_b (mk_rc rdy (rc_valid (b (ws m))) (rc_id (b (ws m)))
             (send_ids (b (ws m))) (to_enqueue (b (ws m)))) (ws m);
  env_aw : ready_field (aw m') = ready_field (aw m);
  env_ar : ready_field (ar m') = ready_field (ar m);
  env_w : dc_ready (w m') = dc_ready (w m);
  env_r : dc_valid (r m') = dc_valid (r m) /\ dc_data (r m') = dc_data (r m) /\
          dc_id (r m') = dc_id (r m) /\ dc_last (r m') = dc_last (r m)
}.

(** A channel before its first transaction. *)
Definition quiet (m : mem_interface) : Prop :=
  ws m = mk_wside [] [] ∅ [] 0 (b (ws m)) /\ send_ids (b (ws m)) = [] /\ to_enqueue (b (ws m)) = [] /\
  rc_getValid (b (ws m)) = false.

(** The states of a simulation: ticks with any number of DRAM clocks, hardware
    activity, and changes of the memory and the address map by the host. *)
Inductive reach : world -> list mem_interface -> Prop :=
| reach_init g ms : Forall quiet ms -> reach g ms
| reach_env g ms g' ms' : reach g ms -> Forall2 env ms ms' -> reach g' ms'
| reach_tick g ms n go g' ms' : reach g ms -> tick_mems W cfg n g ms = Done (go, (g', ms')) -> reach g' ms'.

Definition chan_inv (m : mem_interface) : Prop :=
  credit_inv (ws m) /\ num_in_flight_writes (ws m) <= 32 /\
  (ac_getReady (aw m) = true -> num_in_flight_writes (ws m) < 32).

Lemma quiet_inv m : quiet m -> chan_inv m.
Proof.
  intros (Hw & Hs & Ht & Hv). split; [|rewrite Hw; simpl; lia].
  split; rewrite Hw; simpl.
  - by rewrite Hs, Ht.
  - intros n Hn. by apply not_elem_of_nil in Hn.
  - constructor.
  - done.
  - intros a q n Hq. by rewrite lookup_empty in Hq.
  - intros n Hn. by apply not_elem_of_nil in Hn.
  - congruence.
Qed.

Lemma env_inv m m' : env m m' -> chan_inv m -> chan_inv m'.
Proof.
  intros [Hrs Hsys [rdy Hws] Haw _ _ _] ([Hnum Hopen Hnd Hprog Hfl Hq Hv] & Hle & Hr).
  unfold chan_inv, ac_getReady. rewrite Haw, Hws. split; [|done]. by split.
Qed.

Lemma clock_mem_inv m m' : clock_mem W cfg m = Done m' -> chan_inv m -> chan_inv m'.
Proof.
  unfold clock_mem. destruct (ddr_clock _ _ _ _ _) as [[[d rr] s]| | | |] eqn:E; try done.
  cbn [mbind outcome_bind]. intros [= <-] (Hi & Hle & Hr).
  destruct (ddr_clock_inv _ _ _ _ _ _ _ _ Hi E) as [Hi' Hn]. unfold chan_inv. simpl. by rewrite Hn.
Qed.

Lemma clocks_inv n : forall ms ms', clocks W cfg n ms = Done ms' -> Forall chan_inv ms -> Forall chan_inv ms'.
Proof.
  assert (Hone : forall ms ms', clock_mems W cfg ms = Done ms' -> Forall chan_inv ms -> Forall chan_inv ms').
  { induction ms as [|m ms IH]; intros ms'; cbn [clock_mems]; [by intros [= <-]|].
    destruct (clock_mem W cfg m) as [m1| | | |] eqn:E; try done. cbn [mbind outcome_bind].
    destruct (clock_mems W cfg ms) as [ms1| | | |]; try done. cbn [mbind outcome_bind].
    intros [= <-] [Hm Hms]%Forall_cons. constructor; [by eapply clock_mem_inv|by apply IH]. }
  induction n as [|n IH]; intros ms ms'; cbn [clocks]; [by intros [= <-]|].
  destruct (clock_mems W cfg ms) as [ms1| | | |] eqn:E; try done. cbn [mbind outcome_bind].
  intros Hc Hi. apply (IH ms1 ms' Hc). by eapply Hone.
Qed.

Lemma first_pass_inv g m go g' m' : first_pass W cfg g m = Done (go, (g', m')) -> chan_inv m -> chan_inv m'.
Proof.
  unfold first_pass, read_fire, read_address. intros E Hi.
  assert (Hws : ws m' = ws m /\ aw m' = aw m).
  { destruct (dc_getValid (r m) && dc_getReady (r m))%bool;
      [destruct (read_transactions (rs m)); [done|]|]; cbn [mbind outcome_bind ar at_map] in E;
      (destruct (ac_getReady (ar m) && ac_getValid (ar m))%bool; [|by injection E as <- <- <-]);
      (destruct (ac_getAddr (ar m)) as [a| | | |]; try done); cbn [mbind outcome_bind] in E;
      (destruct (DataServer.translate _ a) as [p| | | |]; try done); cbn [mbind outcome_bind] in E;
      (destruct (p =? 0); [by injection E as <- <- <-|]);
      (destruct (new_tx _ _ _ _ _ _ _ _ _) as [t| | | |]; try done); cbn [mbind outcome_bind] in E;
      by injection E as <- <- <-. }
  destruct Hws as [Hw1 Hw2]. unfold chan_inv. by rewrite Hw1, Hw2.
Qed.

Lemma second_pass_inv g m go g' m' : second_pass W cfg g m = Done (go, (g', m')) -> chan_inv m -> chan_inv m'.
Proof using Hflag.
  unfold second_pass. intros E (Hi & Hle & Hr).
  destruct (response_fire (ws m)) as [s1| | | |] eqn:E1; try done. cbn [mbind outcome_bind] in E.
  destruct (responses_inv _ _ Hi E1) as [Hi2 Hn2].
  destruct (present_read _ _ _ _) as [r1| | | |]; try done. cbn [mbind outcome_bind] in E.
  set (s2 := with_b _ s1) in *.
  destruct (write_address _ _ _ _) as [[s3|]| | | |] eqn:E3; try done; cbn [mbind outcome_bind] in E.
  2:{ injection E as <- <- <-. unfold chan_inv. cbn [ws aw]. split; [done|]. split; [lia|]. intros Ha. specialize (Hr Ha). lia. }
  destruct (write_address_inv _ _ _ _ _ Hi2 E3) as [Hi3 Hn3].
  destruct (write_data _ _ _ _) as [[[g4 w4] s4]| | | |] eqn:E4; try done. cbn [mbind outcome_bind] in E.
  injection E as <- <- <-. destruct (write_data_inv _ _ _ _ _ _ _ Hi3 E4) as [Hi4 Hn4].
  split; [done|]. cbn [ws aw]. assert (num_in_flight_writes s3 <= 32).
  { destruct Hn3 as [->|[Hready ->]]; [lia|]. specialize (Hr Hready). lia. }
  split; [lia|]. unfold ac_getReady, ac_setReady. cbn [ready_field]. rewrite flag_wire. unfold has_credit.
  destruct (_ <? _) eqn:El; [|done]. zb. unfold max_in_flight_writes in El. lia.
Qed.

Lemma each_inv f : (forall g m go g' m', f g m = Done (go, (g', m')) -> chan_inv m -> chan_inv m') ->
  forall ms g go g' ms', each f g ms = Done (go, (g', ms')) -> Forall chan_inv ms -> Forall chan_inv ms'.
Proof.
  intros Hf. induction ms as [|m ms IH]; intros g go g' ms'; cbn [each]; [by intros [= <- <- <-]|].
  destruct (f g m) as [[[] [g1 m1]]| | | |] eqn:E; try done; cbn [mbind outcome_bind].
  - destruct (each f g1 ms) as [[go2 [g2 ms2]]| | | |] eqn:E2; try done. cbn [mbind outcome_bind].
    intros [= <- <- <-] [Hm Hms]%Forall_cons. constructor; [by eapply Hf|by eapply IH].
  - intros [= <- <- <-] [Hm Hms]%Forall_cons. constructor; [by eapply Hf|done].
Qed.

Lemma reach_inv g ms : reach g ms -> Forall chan_inv ms.
Proof using Hflag.
  induction 1 as [g ms Hq|g ms g' ms' Hr IH Henv|g ms n go g' ms' Hr IH Ht].
  - eapply Forall_impl; [exact Hq|]. apply quiet_inv.
  - clear Hr. induction Henv; [done|]. apply Forall_cons in IH as [? ?]. constructor; [by eapply env_inv|auto].
  - unfold tick_mems in Ht. destruct (clocks W cfg n ms) as [ms1| | | |] eqn:E1; try done.
    cbn [mbind outcome_bind] in Ht. apply (clocks_inv _ _ _ E1) in IH.
    destruct (each (first_pass W cfg) g ms1) as [[[] [g2 ms2]]| | | |] eqn:E2; try done;
      cbn [mbind outcome_bind] in Ht.
    + eapply each_inv; [exact second_pass_inv|exact Ht|]. eapply each_inv; [exact first_pass_inv|exact E2|done].
    + injection Ht as <- <- <-. eapply each_inv; [exact first_pass_inv|exact E2|done].
Qed.

(** C13. Whatever the hardware, the host and the DRAM do: on every memory channel
    the in-flight count is exactly the writes still receiving data, plus the
    complete ones not answered yet, plus the responses waiting to be sent; it
    never exceeds 32; and a response is only driven while one is queued. *)
Theorem write_credits_conserved g ms m :
  reach g ms -> m ∈ ms ->
  num_in_flight_writes (ws m) =
    Z.of_nat (length (write_transactions (ws m)) +
              count (unanswered (wtxs (ws m)) (write_transactions (ws m))) (length (wtxs (ws m))) +
              length (to_enqueue (b (ws m))) + length (send_ids (b (ws m)))) /\
  0 <= num_in_flight_writes (ws m) <= 32 /\
  (rc_getValid (b (ws m)) = true -> send_ids (b (ws m)) <> []).
Proof using Hflag.
  intros Hr Hm. apply reach_inv in Hr. rewrite Forall_forall in Hr. destruct (Hr m Hm) as (Hi & Hle & _).
  pose proof (ci_num _ Hi). split; [done|]. split; [lia|]. apply (ci_valid _ Hi).
Qed.

End Runs.

(** ** Data of writes and reads *)

Section Data.
Context {id_t byte_t : Type} {l : Z} `{Wire id_t, Wire byte_t}.
Local Abbreviation wchan := (data_channel byte_t (GetSetWrapper l) byte_t GetSetDataWrapper).
Local Abbreviation rchan := (data_channel id_t byte_t byte_t GetSetDataWrapper).











(** ** Reading a beat back *)







End Data.

(** ** Concrete runs *)

(** A DRAM in which an access takes [latency] clocks. *)
Record toy := mk_toy { latency : Z -> nat; pending : list (Z * bool * nat) }.
#[export] Instance toy_dram : DramSystem toy := {|
  WillAcceptTransaction d a wr := (length (pending d) <? 8)%nat;
  AddTransaction d a wr := mk_toy (latency d) (pending d ++ [(a, wr, latency d a)]);
  ClockTick d :=
    (mk_toy (latency d) (map (fun p => (p.1, Nat.pred p.2)) (filter (fun p => p.2 <> 0%nat) (pending d))),
     map fst (filter (fun p => p.2 = 0%nat) (pending d)))
|}.

Abbreviation port n := (GetSetWrapper n).
Abbreviation chan := (mem_interface (port 1) (port 1) (port 1) (port 8) (port 1) (port 1) (port 1)
  GetSetDataWrapper toy).

(** A 64-bit AXI bus on a 64-bit DDR bus without bursts. *)
Definition small : mem_cfg := mk_cfg 8 1 8 1.

(** The channel with its address and write ports driven by the hardware. *)
Definition drive (awv arv i a : Z) (m : chan) : chan :=
  mk_mem (mk_ac (ready_field (aw m)) (mk_gsw awv) (mk_gsw i) (mk_gsw 3) (mk_gsw 1) (mk_gsw a) (mk_gsw 0))
         (mk_ac (ready_field (ar m)) (mk_gsw arv) (mk_gsw i) (mk_gsw 3) (mk_gsw 1) (mk_gsw a) (mk_gsw 0))
         (mk_dc (dc_ready (w m)) (mk_gsw awv) (replicate 8 7) (mk_gsw 255) (mk_gsw 0) (mk_gsw 1))
         (r m) (rs m) (ws m) (mem_sys m).

Definition idle_chan (lat : Z -> nat) : chan :=
  mk_mem (mk_ac (mk_gsw 1) (mk_gsw 0) (mk_gsw 0) (mk_gsw 3) (mk_gsw 1) (mk_gsw 0) (mk_gsw 0))
         (mk_ac (mk_gsw 1) (mk_gsw 0) (mk_gsw 0) (mk_gsw 3) (mk_gsw 1) (mk_gsw 0) (mk_gsw 0))
         (mk_dc (mk_gsw 1) (mk_gsw 0) (replicate 8 0) (mk_gsw 0) (mk_gsw 0) (mk_gsw 0))
         (mk_dc (mk_gsw 0) (mk_gsw 0) (replicate 8 0) (mk_gsw 0) (mk_gsw 0) (mk_gsw 0))
         (mk_rside [] [] ∅ []) (mk_wside [] [] ∅ [] 0 (mk_rc (mk_gsw 1) (mk_gsw 0) (mk_gsw 0) [] []))
         (mk_toy lat []).

(** 16 bytes of host memory, mapped from address 0 of the device. *)
Definition demo_world : world :=
  mk_world (list_to_map (map (fun a => (a, 0)) (zrange 4096 16))) [DataServer.mk_pair 0 16 4096] 0.

(** The hardware drives its ports, then a tick with one DRAM clock. *)
Definition demo_step (awv arv i a : Z) (x : world * chan) : world * chan :=
  match tick_mems 8 small 1 x.1 [drive awv arv i a x.2] with
  | Done (_, (g, [m])) => (g, m)
  | _ => x
  end.

Definition demo_write : world * chan :=
  demo_step 1 0 3 8 (demo_world, idle_chan (fun _ => 2%nat)).

Lemma idle_reach lat : reach 8 small demo_world [idle_chan lat].
Proof. apply reach_init. constructor; [|constructor]. by split_and!. Qed.

Lemma demo_step_reach awv arv i a x :
  reach 8 small x.1 [x.2] ->
  reach 8 small (demo_step awv arv i a x).1 [(demo_step awv arv i a x).2].
Proof.
  intros Hr. unfold demo_step.
  destruct (tick_mems 8 small 1 x.1 [drive awv arv i a x.2]) as [[go [g [|m []]]]| | | |] eqn:E; try done.
  refine (reach_tick 8 small x.1 [drive awv arv i a x.2] 1 go g [m] _ E).
  refine (reach_env 8 small x.1 [x.2] x.1 _ Hr _). constructor; [|constructor].
  split; try done. exists (rc_ready (b (ws x.2))). by destruct x as [? [? ? ? ? ? [? ? ? ? ? []] ?]].
Qed.

Lemma write_credits_conserved_witness :
  num_in_flight_writes (ws demo_write.2) = 1 /\ 0 <= num_in_flight_writes (ws demo_write.2) <= 32.
Proof.
  destruct (write_credits_conserved 8 small demo_write.1 [demo_write.2] demo_write.2)
    as (_ & Hle & _); [apply demo_step_reach, idle_reach|by left|].
  split; [vm_compute; reflexivity|exact Hle].
Defined.



(** Two reads with the same id, of addresses 0 and then 8; the DRAM needs longer
    for address 0. *)
Definition demo_reads : world * chan :=
  demo_step 0 0 0 0 (demo_step 0 0 0 0 (demo_step 0 1 3 8 (demo_step 0 1 3 0
    (demo_world, idle_chan (fun a => if a =? 0 then 9%nat else 0%nat))))).

(** Reads of one id can be answered out of order: the second read is sent to
    the DRAM as soon as the first has been handed over in full, not when it has
    come back, so a DRAM that is slower for the first address makes the data of
    the second the only data on the read channel. *)
Theorem same_id_reads_reordered :
  let m := demo_reads.2 in
  reach 8 small demo_reads.1 [m] /\
  map (fun t => (fpga_addr t, id t)) (rtxs (rs m)) = [(0, 3); (8, 3)] /\
  in_flight_reads (rs m) !! 0 = Some [0%nat] /\
  map (fun t => (fpga_addr t, id t)) (read_transactions (rs m)) = [(8, 3)] /\
  dc_getValid (r m) = true /\ dc_getId (r m) = 3 /\ dc_getLast (r m) = true.
Proof.
  split; [repeat apply demo_step_reach; apply idle_reach|]. split_and!; vm_compute; reflexivity.
Qed.

End Tick.
