(* ===== verification/DmaEngine.v ===== *)
(** * The DMA engine of the simulation runtime

    The [BEETHOVEN_HAS_DMA] part of [tick_signals] in [runtime/src/core/tick.cc]:
    one request of the data server ([dma_valid], [dma_write], [dma_len],
    [dma_fpga_addr], [dma_ptr]) is played on the AXI interface of the DMA port.
    The ports the hardware drives are an input record, the ports the engine drives
    an output record.  The transfer unit is 64 bytes, the width of the bus. *)

From S2P Require Import Prelude Channels Tick.

Module Dma.
Import Tick.

Record dma_in := mk_din {
  aw_ready : bool;
  ar_ready : bool;
  w_ready : bool;
  b_valid : bool;
  b_id : Z;
  r_valid : bool;
  r_data : list Z
}.

(** The address ports a transfer drives. *)
Record dma_addr := mk_daddr { da_addr : Z; da_id : Z; da_size : Z; da_len : Z; da_burst : Z }.

Record dma_out := mk_dout {
  aw_valid : bool;
  aw_port : dma_addr;
  ar_valid : bool;
  ar_port : dma_addr;
  w_valid : bool;
  w_words : list Z;
  w_last : bool;
  b_ready : bool;
  r_ready : bool
}.

Record dma := mk_dma {
  dma_valid : bool;
  dma_in_progress : bool;
  dma_write : bool;
  dma_len : Z;
  dma_fpga_addr : Z;
  dma_ptr : Z;
  dma_txprogress : Z;
  dma_txlength : Z;
  id1 : Z;
  id2 : Z;
  waiting : bool;             (* dma_wait_lock is held *)
  out : dma_out
}.

Definition set_run (valid prog : bool) (txp txl : Z) (wait : bool) (o : dma_out) (s : dma) : dma :=
  mk_dma valid prog (dma_write s) (dma_len s) (dma_fpga_addr s) (dma_ptr s) txp txl (id1 s) (id2 s) wait o.

(** The five lines that silence the ports. *)
Definition quiet_ports (o : dma_out) : dma_out :=
  mk_dout false (aw_port o) false (ar_port o) false (w_words o) (w_last o) false false.

(** [if (dma_valid && not dma_in_progress)]: the address phase.  [rnd] is
    [rand()]. *)
Definition start_dma (i : dma_in) (rnd : Z) (s : dma) : dma :=
  if dma_valid s && negb (dma_in_progress s) then
    let txl := s32 (Z.shiftr (dma_len s) 6) in
    let id := Z.rem rnd 16 in
    let port := mk_daddr (dma_fpga_addr s) id 6 (u64 (dma_len s / 64 - 1)) 1 in
    let o := out s in
    if dma_write s then
      mk_dma true (aw_ready i) true (dma_len s) (dma_fpga_addr s) (dma_ptr s) 0 txl id (id2 s) (waiting s)
        (mk_dout true port (ar_valid o) (ar_port o) (w_valid o) (w_words o) (w_last o) (b_ready o) (r_ready o))
    else
      mk_dma true (ar_ready i) false (dma_len s) (dma_fpga_addr s) (dma_ptr s) 0 txl (id1 s) id (waiting s)
        (mk_dout (aw_valid o) (aw_port o) true port (w_valid o) (w_words o) (w_last o) (b_ready o) (r_ready o))
  else s.

(** The words of beat [p]: [n] loads from [dma_ptr]. *)
Fixpoint beat_words (h : hmem) (ptr p : Z) (k : Z) (n : nat) : outcome (list Z) :=
  match n with
  | O => Done []
  | S n' =>
      x ← load32 h (ptr + 4 * (k + 16 * p));
      l ← beat_words h ptr p (k + 1) n';
      Done (x :: l)
  end.

(** The comparison of a read beat with the host's copy. *)
Fixpoint check_beat (h : hmem) (data : list Z) (src : Z) (k : Z) (n : nat) : outcome unit :=
  match n with
  | O => Done tt
  | S n' =>
      x ← vget data k;
      y ← load8 h (src + k);
      if x =? y then check_beat h data src (k + 1) n' else Exit 1
  end.

Definition finish_dma (s : dma) (o : dma_out) (p : Z) : dma :=
  set_run false false p (dma_txlength s) false o s.

(** [if (dma_in_progress)]: the data phase. *)
Definition run_dma (i : dma_in) (h : hmem) (s : dma) : outcome dma :=
  if dma_in_progress s then
    let o := out s in
    let p := dma_txprogress s in
    if dma_write s then
      if p <? dma_txlength s then
        ws ← beat_words h (dma_ptr s) p 0 16;
        let o' := mk_dout (aw_valid o) (aw_port o) (ar_valid o) (ar_port o) true ws
                    (p + 1 =? dma_txlength s) (b_ready o) (r_ready o) in
        Done (set_run (dma_valid s) true (if w_ready i then p + 1 else p) (dma_txlength s) (waiting s) o' s)
      else
        let o' := mk_dout (aw_valid o) (aw_port o) (ar_valid o) (ar_port o) (w_valid o) (w_words o)
                    (w_last o) true (r_ready o) in
        if b_valid i then Done (finish_dma s o' p)
        else Done (set_run (dma_valid s) true p (dma_txlength s) (waiting s) o' s)
    else
      let o' := mk_dout (aw_valid o) (aw_port o) (ar_valid o) (ar_port o) (w_valid o) (w_words o)
                  (w_last o) (b_ready o) true in
      if r_valid i then
        _ ← check_beat h (r_data i) (dma_ptr s + 64 * p) 0 64;
        if p + 1 =? dma_txlength s then Done (finish_dma s o' (p + 1))
        else Done (set_run (dma_valid s) true (p + 1) (dma_txlength s) (waiting s) o' s)
      else Done (set_run (dma_valid s) true p (dma_txlength s) (waiting s) o' s)
  else Done s.

Definition dma_tick (i : dma_in) (rnd : Z) (h : hmem) (s : dma) : outcome dma :=
  let s0 := set_run (dma_valid s) (dma_in_progress s) (dma_txprogress s) (dma_txlength s) (waiting s)
              (quiet_ports (out s)) s in
  run_dma i h (start_dma i rnd s0).

(** ** Runs *)

(** Beats the hardware took, with their [WLAST]. *)
Definition taken (i : dma_in) (s : dma) : list (list Z * bool) :=
  if w_valid (out s) && w_ready i then [(w_words (out s), w_last (out s))] else [].

Fixpoint dma_run (is_ : list (dma_in * Z)) (h : hmem) (s : dma) : outcome (dma * list (list Z * bool)) :=
  match is_ with
  | [] => Done (s, [])
  | (i, rnd) :: rest =>
      s1 ← dma_tick i rnd h s;
      '(s2, l) ← dma_run rest h s1;
      Done (s2, taken i s1 ++ l)
  end.

(** A request of [n] beats that the engine has not looked at yet. *)
Definition request (wr : bool) (n fa ptr : Z) (s : dma) : Prop :=
  dma_valid s = true /\ dma_in_progress s = false /\ dma_write s = wr /\ dma_len s = 64 * n /\
  dma_fpga_addr s = fa /\ dma_ptr s = ptr /\ waiting s = true /\ 1 <= n < 2 ^ 25.

(** The words of the beats [lo, lo + 1, ...]. *)
Definition beats_of (h : hmem) (ptr n : Z) (lo : Z) (k : nat) : list (outcome (list Z) * bool) :=
  map (fun p => (beat_words h ptr p 0 16, p + 1 =? n)) (zrange lo k).

(** Source bytes of the transfer are mapped. *)
Definition source_ok (h : hmem) (ptr n : Z) : Prop :=
  forall x, ptr <= x < ptr + 64 * n -> is_Some (h !! x).

Lemma beat_words_total (h : hmem) ptr p n k :
  0 <= k -> (forall x, ptr + 4 * (k + 16 * p) <= x < ptr + 4 * (k + 16 * p) + 4 * Z.of_nat n -> is_Some (h !! x)) ->
  exists l, beat_words h ptr p k n = Done l.
Proof.
  revert k. induction n as [|n IH]; intros k Hk Hm; cbn [beat_words]; [by eexists|].
  unfold load32, load8.
  destruct (Hm (ptr + 4 * (k + 16 * p))) as [? ->]; [lia|].
  destruct (Hm (ptr + 4 * (k + 16 * p) + 1)) as [? ->]; [lia|].
  destruct (Hm (ptr + 4 * (k + 16 * p) + 2)) as [? ->]; [lia|].
  destruct (Hm (ptr + 4 * (k + 16 * p) + 3)) as [? ->]; [lia|].
  cbn [or_undef mbind outcome_bind]. destruct (IH (k + 1)) as [l ->]; [lia|intros y Hy; apply Hm; lia|].
  by eexists.
Qed.

(** The engine is at beat [p] of a write of [n] beats. *)
Record writing (n ptr : Z) (p : Z) (s : dma) : Prop := {
  wr_valid : dma_valid s = true;
  wr_write : dma_write s = true;
  wr_len : dma_len s = 64 * n;
  wr_ptr : dma_ptr s = ptr;
  wr_wait : waiting s = true;
  wr_phase : (dma_in_progress s = false /\ p = 0) \/
             (dma_in_progress s = true /\ dma_txprogress s = p /\ dma_txlength s = n);
  wr_range : 0 <= p <= n /\ 1 <= n < 2 ^ 25
}.

(** The request has been served. *)
Definition served (s : dma) : Prop :=
  dma_valid s = false /\ dma_in_progress s = false /\ waiting s = false.

Lemma txlength_beats n : 1 <= n < 2 ^ 25 -> s32 (Z.shiftr (64 * n) 6) = n.
Proof.
  intros Hn. rewrite Z.shiftr_div_pow2 by lia. change (2 ^ 6) with 64.
  rewrite Z.mul_comm, Z.div_mul by lia. apply s32_small. lia.
Qed.

Lemma tick_served i rnd h s : served s -> exists s', dma_tick i rnd h s = Done s' /\ served s' /\ taken i s' = [].
Proof.
  intros (Hv & Hp & Hw). unfold dma_tick, start_dma, run_dma. simpl. rewrite Hv, Hp. simpl.
  eexists. split; [reflexivity|]. by split.
Qed.

Lemma tick_writing n ptr p i rnd (h : hmem) s :
  writing n ptr p s -> source_ok h ptr n ->
  exists s', dma_tick i rnd h s = Done s' /\
    ((writing n ptr p s' /\ taken i s' = []) \/
     (exists ws, beat_words h ptr p 0 16 = Done ws /\ writing n ptr (p + 1) s' /\
        taken i s' = [(ws, p + 1 =? n)]) \/
     (p = n /\ b_valid i = true /\ served s' /\ taken i s' = [])).
Proof.
  intros Hs Hsrc. pose proof (wr_range _ _ _ _ Hs) as [Hp Hn].
  set (s1 := start_dma i rnd (set_run (dma_valid s) (dma_in_progress s) (dma_txprogress s)
    (dma_txlength s) (waiting s) (quiet_ports (out s)) s)).
  assert (Hs1 : writing n ptr p s1 /\ w_valid (out s1) = false).
  { destruct Hs as [Hv Hw Hl Hpt Hwt Hph _]. unfold s1, start_dma. simpl. rewrite Hv, Hw. simpl.
    destruct Hph as [[Hip ->]|(Hip & Htp & Htl)]; rewrite Hip; simpl; (split; [|done]).
    - split; simpl; try done. destruct (aw_ready i); [right|left]; [|done].
      split; [done|]. split; [done|]. rewrite Hl. by apply txlength_beats.
    - split; simpl; try done. right. by rewrite ?Hip, Htp, Htl. }
  destruct Hs1 as [[Hv Hw Hl Hpt Hwt Hph _] Hwv]. unfold dma_tick. fold s1. unfold run_dma.
  destruct Hph as [[Hip Hp0]|(Hip & Htp & Htl)]; rewrite Hip; [|rewrite Hw, Htp, Htl].
  - exists s1. split; [done|]. left. unfold taken. rewrite Hwv. split; [|done]. split; try done. by left.
  - destruct (p <? n) eqn:Hlt; zb.
    + destruct (beat_words_total h ptr p 16 0) as [ws Ews]; [lia|intros x Hx; apply Hsrc; lia|].
      rewrite Hpt, Ews. cbn [mbind outcome_bind]. eexists. split; [reflexivity|].
      unfold taken. cbn [out w_valid w_words w_last set_run]. destruct (w_ready i); simpl.
      * right. left. exists ws. split; [done|]. split; [|done].
        split; simpl; try done; [right; by rewrite ?Htl|lia].
      * left. split; [|done]. split; simpl; try done. right. by rewrite ?Htl.
    + destruct (b_valid i) eqn:Hb; eexists; (split; [reflexivity|]).
      * right. right. split; [lia|]. split; [done|]. unfold taken, finish_dma. simpl. rewrite Hwv. done.
      * left. unfold taken. simpl. rewrite Hwv. split; [|done]. split; simpl; try done. right. by rewrite ?Htl.
Qed.

Lemma run_writing n ptr (h : hmem) is_ : forall p s,
  writing n ptr p s -> source_ok h ptr n ->
  exists s' l k, dma_run is_ h s = Done (s', l) /\ p + Z.of_nat k <= n /\
    map (fun x => (Done x.1, x.2)) l = beats_of h ptr n p k /\
    ((writing n ptr (p + Z.of_nat k) s') \/ (p + Z.of_nat k = n /\ served s')).
Proof.
  assert (Hserved : forall is_ s, served s -> exists s', dma_run is_ h s = Done (s', []) /\ served s').
  { clear is_. induction is_ as [|[i rnd] is_ IH]; intros s Hs; cbn [dma_run]; [by exists s|].
    destruct (tick_served i rnd h s Hs) as (s1 & -> & Hs1 & Ht). cbn [mbind outcome_bind].
    destruct (IH s1 Hs1) as (s2 & -> & Hs2). cbn [mbind outcome_bind]. rewrite Ht. by exists s2. }
  induction is_ as [|[i rnd] is_ IH]; intros p s Hs Hsrc; cbn [dma_run].
  - exists s, [], 0%nat. pose proof (wr_range _ _ _ _ Hs). change (Z.of_nat 0) with 0. rewrite Z.add_0_r.
    split; [done|]. split; [lia|]. split; [done|]. by left.
  - destruct (tick_writing n ptr p i rnd h s Hs Hsrc) as (s1 & -> & Hcase). cbn [mbind outcome_bind].
    destruct Hcase as [[Hs1 Ht]|[(ws & Ews & Hs1 & Ht)|(-> & _ & Hs1 & Ht)]].
    + destruct (IH p s1 Hs1 Hsrc) as (s' & l & k & -> & Hk & Hl & Hend). cbn [mbind outcome_bind].
      rewrite Ht. by exists s', l, k.
    + destruct (IH (p + 1) s1 Hs1 Hsrc) as (s' & l & k & -> & Hk & Hl & Hend). cbn [mbind outcome_bind].
      rewrite Ht. exists s', ((ws, p + 1 =? n) :: l), (S k).
      replace (p + Z.of_nat (S k)) with (p + 1 + Z.of_nat k) by lia. split_and!; try done.
      cbn [map fst snd]. rewrite Hl. unfold beats_of. rewrite zrange_S. cbn [map]. by rewrite Ews.
    + destruct (Hserved is_ s1 Hs1) as (s' & -> & Hs'). cbn [mbind outcome_bind]. rewrite Ht.
      exists s', [], 0%nat. change (Z.of_nat 0) with 0. rewrite Z.add_0_r.
      split; [done|]. split; [lia|]. split; [done|]. by right.
Qed.

(** C38. A DMA write of [n] 64-byte beats, under any behaviour of the hardware:
    the beats taken so far are the first ones of the source, in order, with only
    the [n]-th marked last; and the request is reported done only after all [n]
    were taken. *)
Theorem dma_write_streams_source n fa ptr (h : hmem) is_ s :
  request true n fa ptr s -> source_ok h ptr n ->
  exists s' l k, dma_run is_ h s = Done (s', l) /\ Z.of_nat k <= n /\
    map (fun x => (Done x.1, x.2)) l = beats_of h ptr n 0 k /\
    (waiting s' = false -> Z.of_nat k = n /\ served s').
Proof.
  intros (Hv & Hp & Hw & Hl & Ha & Hpt & Hwt & Hn) Hsrc.
  destruct (run_writing n ptr h is_ 0 s) as (s' & l & k & E & Hk & Hb & Hend); [|done|].
  { split; try done; [by left|lia]. }
  exists s', l, k. split_and!; try done. intros Hdone.
  destruct Hend as [Hs'|[Heq Hs']]; [rewrite (wr_wait _ _ _ _ Hs') in Hdone; done|done].
Qed.

Definition demo_source : hmem := list_to_map (map (fun a => (a, Z.rem a 256)) (zrange 4096 128)).
Definition demo_dma : dma :=
  mk_dma true false true 128 64 4096 0 0 0 0 true
    (mk_dout false (mk_daddr 0 0 0 0 0) false (mk_daddr 0 0 0 0 0) false [] false false false).
Definition demo_hw : list (dma_in * Z) :=
  replicate 5 (mk_din true true true true 0 false [], 5).

Lemma dma_write_streams_source_witness :
  exists s' l k, dma_run demo_hw demo_source demo_dma = Done (s', l) /\ Z.of_nat k <= 2 /\
    map (fun x => (Done x.1, x.2)) l = beats_of demo_source 4096 2 0 k /\
    (waiting s' = false -> Z.of_nat k = 2 /\ served s').
Proof.
  apply (dma_write_streams_source 2 64 4096 demo_source demo_hw demo_dma).
  - unfold request. simpl. split_and!; done || lia.
  - intros x Hx. eapply bool_decide_eq_true_1.
    apply (zrange_forallb (fun x => bool_decide (is_Some (demo_source !! x))) 4096 128 x);
      [vm_compute; reflexivity|lia].
Defined.

End Dma.
