(* ===== verification/SimLoop.v ===== *)
(** * The simulation loop of the AXI front end

    [runtime/src/frontends/axi/verilator_axi_frontend.cc]: the program that holds the
    design compiled by Verilator, resets it, and then alternates [tick_signals] with
    evaluations of the design, and [tick_signals] itself
    ([runtime/src/core/tick.cc]) as the composition of the bus controller, the memory
    channels and the DMA engine.

    The compiled design is generated code: a parameter with its own state, which maps
    the ports the runtime drives to the ports it drives itself.  The one assumption
    about it is that it does not write to its inputs ([design_ports]).  Like any
    clocked design it takes over its inputs when the clock has risen since the
    previous evaluation; [bus_of] reads the history of the evaluations that way.

    The other threads of the process act through [activity]: the command server
    ([runtime/src/core/cmd_server.cc]) queues commands and, once it sees a shutdown,
    sets [kill_sig] and returns with [cmdserverlock] held.  So the loop ends for two
    reasons, a command with the opcode of a flush and a shutdown, and a controller
    that needs the lock after the shutdown waits for ever ([Stuck], see
    [shutdown_may_block]).  No function of the repository makes a flush; the opcode is
    only compared. *)

From Stdlib Require Import Sorted.
From S2P Require Import Prelude RoccCmd AxiCtrl Channels MemCtrl Tick DmaEngine.

Module Sim.
Import Rocc Channels MemCtrl Tick.

(** One call of [eval]: the clock and reset ports, what the design drove on the
    control bus before the call, and what the runtime drives. *)
Record eval_event := mk_ev {
  ev_clock : bool;
  ev_reset : bool;
  ev_in : Axi.axi_in;
  ev_out : Axi.axi_out
}.

Section Sim.
Context {id_t axisize_t burst_t addr_t len_t strb_t byte_t data_t D T : Type}.
Context `{Wire id_t, Wire axisize_t, Wire burst_t, ChunkWire addr_t, Wire addr_t, Wire len_t,
          ChunkWire strb_t, Wire byte_t, DataWire data_t, DramSystem D}.
Variable W : Z.
Variable cfg : mem_cfg.
Variable CMD_BITS CMD_VALID CMD_READY RESP_BITS RESP_VALID RESP_READY : Z.
Variable pack_cfg : beethoven_pack_info.
Variable has_dma : bool.                  (* BEETHOVEN_HAS_DMA *)
Variable active_reset : bool.             (* HW_IS_RESET_ACTIVE_HIGH *)
Variable FPGA_CLOCK : Z.
Abbreviation mem := (mem_interface id_t axisize_t burst_t addr_t len_t strb_t byte_t data_t D).

(** The compiled design: the state of [VBeethovenTop] and its [eval], with [None]
    for an exception. *)
Variable eval : T -> bool -> bool -> Axi.axi_out -> list mem -> Dma.dma_out ->
  option (T * Axi.axi_in * list mem * Dma.dma_in).

(** The variables of the simulation.  The wires of the memory channels are in the
    channels; those of the control bus and of the DMA port are in [s00], [dma_ports]
    and the [out] records of the controller and the engine. *)
Record sim := mk_sim {
  top : T;
  clock : bool;
  RESET_NAME : bool;
  s00 : Axi.axi_in;
  ctl : Axi.ctrl;
  axi4_mems : list mem;
  shared : world;
  dma : Dma.dma;
  dma_ports : Dma.dma_in;
  main_time : Z;
  cycle_count : Z;
  dumps : list Z;
  evals : list eval_event
}.

Definition set_clock (c : bool) (s : sim) : sim :=
  mk_sim (top s) c (RESET_NAME s) (s00 s) (ctl s) (axi4_mems s) (shared s) (dma s) (dma_ports s)
    (main_time s) (cycle_count s) (dumps s) (evals s).
Definition set_reset (r : bool) (s : sim) : sim :=
  mk_sim (top s) (clock s) r (s00 s) (ctl s) (axi4_mems s) (shared s) (dma s) (dma_ports s)
    (main_time s) (cycle_count s) (dumps s) (evals s).

Definition fpga_clock_inc : Z := 500000 / FPGA_CLOCK.

Definition advance (s : sim) : sim :=
  mk_sim (top s) (clock s) (RESET_NAME s) (s00 s) (ctl s) (axi4_mems s) (shared s) (dma s) (dma_ports s)
    (u64 (main_time s + fpga_clock_inc)) (cycle_count s) (dumps s) (evals s).
Definition count_cycle (s : sim) : sim :=
  mk_sim (top s) (clock s) (RESET_NAME s) (s00 s) (ctl s) (axi4_mems s) (shared s) (dma s) (dma_ports s)
    (main_time s) (u64 (cycle_count s + 1)) (dumps s) (evals s).
(** [tfp->dump(main_time)] *)
Definition dump (s : sim) : sim :=
  mk_sim (top s) (clock s) (RESET_NAME s) (s00 s) (ctl s) (axi4_mems s) (shared s) (dma s) (dma_ports s)
    (main_time s) (cycle_count s) (dumps s ++ [main_time s]) (evals s).

(** [tick(&top)]: an exception of the design is passed on. *)
Definition tick (s : sim) : outcome sim :=
  match eval (top s) (clock s) (RESET_NAME s) (Axi.out (ctl s)) (axi4_mems s) (Dma.out (dma s)) with
  | None => Throw
  | Some (t, i, ms, d) =>
      Done (mk_sim t (clock s) (RESET_NAME s) i (ctl s) ms (shared s) (dma s) d (main_time s)
        (cycle_count s) (dumps s)
        (evals s ++ [mk_ev (clock s) (RESET_NAME s) (s00 s) (Axi.out (ctl s))]))
  end.

(** ** One cycle *)

(** When the command server sees [quit]: before the loop tests [kill_sig], or in the
    round, before the controller looks at its queue or before it registers a response. *)
Inductive moment := BeforeTest | BeforeCommand | BeforeResponse.

(** [kill_sig = true] *)
Definition set_kill (c : Axi.ctrl) : Axi.ctrl :=
  Axi.mk_ctrl (Axi.out c) (Axi.ongoing_cmd c) (Axi.ongoing_rsp c) (Axi.ongoing_update c)
    (Axi.check_freq_ctr c) (Axi.bus_occupied c) (Axi.time_last_command c) (Axi.memory_transacted c)
    (Axi.start_times c) true (Axi.cmds_inflight c) (Axi.cmds c) (Axi.registered c).

(** The controller is about to lock [cmdserverlock] for its queue. *)
Definition wants_queue (c : Axi.ctrl) : bool :=
  match Axi.cmd_state (Axi.ongoing_cmd c) with
  | Axi.CMD_INACTIVE =>
      Axi.ready_for_command (Axi.ongoing_cmd c) && negb (Axi.bus_occupied c) && Axi.is_idle (Axi.ongoing_update c)
  | _ => false
  end.

(** [ctrl->tick()] beside the command server.  The server keeps [cmdserverlock] when it
    quits, so that the controller waits for ever where it needs the lock: for its queue,
    and in [register_reponse].  Both write [kill_sig] under the lock. *)
Definition control_tick (quits : option moment) (n : nat) (i : Axi.axi_in) (now : Z) (c : Axi.ctrl)
    : outcome Axi.ctrl :=
  let run := Axi.tick CMD_BITS CMD_VALID CMD_READY RESP_BITS RESP_VALID RESP_READY pack_cfg n i now c in
  let registers c' := (length (Axi.registered c) <? length (Axi.registered c'))%nat in
  match quits with
  | None | Some BeforeTest => run
  | Some BeforeCommand =>
      if wants_queue c then Stuck
      else c' ← run; if registers c' then Stuck else Done (set_kill c')
  | Some BeforeResponse => c' ← run; if registers c' then Stuck else Done (set_kill c')
  end.

(** [tick_signals]: the controller, the memory channels, the DMA engine.  The number
    of DRAM clocks comes from the accumulator of [DdrClock], [rnd] from [rand]. *)
Definition tick_signals (quits : option moment) (ddr_ticks : nat) (rnd : Z) (s : sim) : outcome sim :=
  c ← control_tick quits (length (axi4_mems s)) (s00 s) (main_time s) (ctl s);
  '(go, (g, ms)) ← tick_mems W cfg ddr_ticks (shared s) (axi4_mems s);
  d ← (if (go : bool) && has_dma && bool_decide (axi4_mems s <> [])
       then Dma.dma_tick (dma_ports s) rnd (host g) (dma s) else Done (dma s));
  Done (mk_sim (top s) (clock s) (RESET_NAME s) (s00 s) c ms g d (dma_ports s) (main_time s)
          (cycle_count s) (dumps s) (evals s)).

(** What the other threads do before a round, when in it the server quits if it does,
    and the numbers the round draws. *)
Record activity := mk_act {
  arrivals : list rocc_cmd;
  quits : option moment;
  remap : world -> world;
  post : Dma.dma -> Dma.dma;
  ddr_ticks : nat;
  rnd : Z
}.

(** The command server appends to the queue of the controller. *)
Definition enqueue (cs : list rocc_cmd) (c : Axi.ctrl) : Axi.ctrl :=
  Axi.mk_ctrl (Axi.out c) (Axi.ongoing_cmd c) (Axi.ongoing_rsp c) (Axi.ongoing_update c)
    (Axi.check_freq_ctr c) (Axi.bus_occupied c) (Axi.time_last_command c) (Axi.memory_transacted c)
    (Axi.start_times c) (Axi.kill_sig c) (Axi.cmds_inflight c) (Axi.cmds c ++ cs) (Axi.registered c).

Definition before_test (a : activity) : bool := match quits a with Some BeforeTest => true | _ => false end.

(** The servers before the test of the loop. *)
Definition serve (a : activity) (s : sim) : sim :=
  let c := enqueue (arrivals a) (ctl s) in
  mk_sim (top s) (clock s) (RESET_NAME s) (s00 s) (if before_test a then set_kill c else c) (axi4_mems s)
    (remap a (shared s)) (post a (dma s)) (dma_ports s) (main_time s) (cycle_count s) (dumps s) (evals s).

(** The body of the loop. *)
Definition round (a : activity) (s : sim) : outcome sim :=
  let s := count_cycle (advance (set_clock true s)) in
  s ← tick_signals (quits a) (ddr_ticks a) (rnd a) s;
  s ← tick s;
  let s := set_clock false (dump s) in
  s ← tick s;
  Done (dump (advance s)).

(** [while (not kill_sig)]: the rounds of a schedule, and whether the loop ended. *)
Fixpoint main_loop (acts : list activity) (s : sim) : outcome (bool * sim) :=
  match acts with
  | [] => Done (Axi.kill_sig (ctl s), s)
  | a :: acts' =>
      let s := serve a s in
      if Axi.kill_sig (ctl s) then Done (true, s)
      else s' ← round a s; main_loop acts' s'
  end.

(** ** Reset *)

Definition reset_cycle (s : sim) : outcome sim :=
  s ← tick (set_clock false s);
  s ← tick (set_clock true (advance (dump s)));
  Done (advance (dump s)).

Fixpoint reset_cycles (n : nat) (s : sim) : outcome sim :=
  match n with
  | O => Done s
  | S n' => s' ← reset_cycle s; reset_cycles n' s'
  end.

(** The channels before the reset. *)
Definition init_channel (m : mem) : mem :=
  mk_mem (ac_setReady true (aw m)) (ar m) (w m) (dc_setValid 0 (r m)) (rs m)
    (with_b (rc_setValid 0 (b (ws m))) (ws m)) (mem_sys m).

(** [dma.b.setReady(0)] and the four lines after it. *)
Definition init_dma (d : Dma.dma) : Dma.dma :=
  Dma.set_run (Dma.dma_valid d) (Dma.dma_in_progress d) (Dma.dma_txprogress d) (Dma.dma_txlength d)
    (Dma.waiting d) (Dma.quiet_ports (Dma.out d)) d.

(** The simulation as [run_verilator] starts it: a controller that drives nothing.
    [q] are the commands the server has queued meanwhile. *)
Definition start (t : T) (i : Axi.axi_in) (di : Dma.dma_in) (q : list rocc_cmd) (ms : list mem) (g : world)
    (d : Dma.dma) : sim :=
  mk_sim t false active_reset i (Axi.ctrl_init q) (map init_channel ms) g
    (if has_dma && bool_decide (ms <> []) then init_dma d else d) di 0 0 [] [].

Definition reset_top (s : sim) : outcome sim :=
  s ← reset_cycles 50 s;
  Done (set_clock false (set_reset (negb active_reset) s)).

Definition run_verilator (acts : list activity) (s : sim) : outcome (bool * sim) :=
  s ← reset_top s;
  main_loop acts s.

(** ** What the design sees of the control bus *)

Definition in_reset (e : eval_event) : bool := Bool.eqb (ev_reset e) active_reset.
Definition rises (level : bool) (e : eval_event) : bool := ev_clock e && negb level.

(** The level of the clock at the last evaluation, and the slave. *)
Definition watch (st : bool * Axi.slave) (e : eval_event) : bool * Axi.slave :=
  (ev_clock e,
   if rises st.1 e && negb (in_reset e) then Axi.slave_step (ev_in e) (ev_out e) st.2 else st.2).
Definition seen (evs : list eval_event) : bool * Axi.slave := fold_left watch evs (false, Axi.slave_init).
Definition bus_of (evs : list eval_event) : Axi.slave := (seen evs).2.

(** Rising edges of a history, in reset and out of it, after the last level. *)
Definition tally (st : bool * (nat * nat)) (e : eval_event) : bool * (nat * nat) :=
  let up := Nat.b2n (rises st.1 e) in
  (ev_clock e, if in_reset e then ((st.2.1 + up)%nat, st.2.2) else (st.2.1, (st.2.2 + up)%nat)).
Definition edges (evs : list eval_event) : bool * (nat * nat) := fold_left tally evs (false, (0%nat, 0%nat)).

Definition all_arrivals (acts : list activity) : list rocc_cmd := acts ≫= arrivals.

(** A step that keeps everything but the design and its ports. *)
Record evaluates (s s' : sim) : Prop := {
  el_clock : clock s' = clock s;
  el_reset : RESET_NAME s' = RESET_NAME s;
  el_ctl : ctl s' = ctl s;
  el_time : main_time s' = main_time s;
  el_dumps : dumps s' = dumps s;
  el_evals : evals s' = evals s ++ [mk_ev (clock s) (RESET_NAME s) (s00 s) (Axi.out (ctl s))]
}.

Lemma tick_evaluates s s' : tick s = Done s' -> evaluates s s'.
Proof.
  unfold tick. destruct (eval _ _ _ _ _ _) as [[[[t i] ms] d]|]; [|done]. by intros [= <-].
Qed.

Lemma tick_signals_ctl q n x s s' : tick_signals q n x s = Done s' ->
  control_tick q (length (axi4_mems s)) (s00 s) (main_time s) (ctl s) = Done (ctl s') /\
  clock s' = clock s /\ RESET_NAME s' = RESET_NAME s /\ s00 s' = s00 s /\ evals s' = evals s /\
  main_time s' = main_time s /\ dumps s' = dumps s.
Proof.
  unfold tick_signals. destruct (control_tick _ _ _ _ _) as [c| | | |]; try done. cbn [mbind outcome_bind].
  destruct (tick_mems _ _ _ _ _) as [[go [g ms]]| | | |]; try done. cbn [mbind outcome_bind].
  case_match; [destruct (Dma.dma_tick _ _ _ _); try done|]; cbn [mbind outcome_bind]; by intros [= <-].
Qed.

(** A round: the controller's tick, then an evaluation with the clock high and one
    with the clock low. *)
Record round_of (a : activity) (s s' : sim) : Prop := {
  ro_ctl : control_tick (quits a) (length (axi4_mems s)) (s00 s) (u64 (main_time s + fpga_clock_inc)) (ctl s) = Done (ctl s');
  ro_clock : clock s' = false;
  ro_reset : RESET_NAME s' = RESET_NAME s;
  ro_evals : exists i, evals s' = evals s ++ [mk_ev true (RESET_NAME s) (s00 s) (Axi.out (ctl s'));
                                        mk_ev false (RESET_NAME s) i (Axi.out (ctl s'))];
  ro_time : main_time s' = u64 (u64 (main_time s + fpga_clock_inc) + fpga_clock_inc);
  ro_dumps : dumps s' = dumps s ++ [u64 (main_time s + fpga_clock_inc); main_time s']
}.

Lemma round_inv a s s' : round a s = Done s' -> round_of a s s'.
Proof.
  unfold round. destruct (tick_signals _ _ _ _) as [s1| | | |] eqn:E1; try done. cbn [mbind outcome_bind].
  destruct (tick s1) as [s2| | | |] eqn:E2; try done. cbn [mbind outcome_bind].
  destruct (tick (set_clock false (dump s2))) as [s3| | | |] eqn:E3; try done. cbn [mbind outcome_bind]. intros [= <-].
  apply tick_signals_ctl in E1 as (Ec & E1c & E1r & E1i & E1e & E1t & E1d).
  apply tick_evaluates in E2 as [E2c E2r E2k E2t E2d E2e]. apply tick_evaluates in E3 as [E3c E3r E3k E3t E3d E3e].
  cbn in *. split; cbn.
  - rewrite E3k, E2k. exact Ec.
  - done.
  - congruence.
  - exists (s00 s2). rewrite E3e, E2e, E1e, E3k, E2k, E1c, E1r, E1i, E2r, E1r, <- app_assoc. done.
  - by rewrite E3t, E2t, E1t.
  - rewrite E3d, E2d, E1d, E3t, E2t, E1t, <- app_assoc. done.
Qed.

Lemma seen_app e1 e2 : seen (e1 ++ e2) = fold_left watch e2 (seen e1).
Proof. apply fold_left_app. Qed.

Lemma reset_not_active : Bool.eqb (negb active_reset) active_reset = false.
Proof. by destruct active_reset. Qed.

(** Between two rounds the design has seen the bus as the controller left it. *)
Lemma round_bus a s s' : round_of a s s' -> RESET_NAME s = negb active_reset ->
  seen (evals s') = (false, if (seen (evals s)).1 then (seen (evals s)).2
                            else Axi.slave_step (s00 s) (Axi.out (ctl s')) (seen (evals s)).2).
Proof.
  intros [_ _ _ [i ->] _ _] Hr. rewrite seen_app. destruct (seen (evals s)) as [l sl].
  cbn [fold_left]. unfold watch, rises, in_reset. cbn [ev_clock ev_reset ev_in ev_out fst snd andb negb].
  rewrite Hr, reset_not_active. by destruct l.
Qed.

Lemma edges_app e1 e2 : edges (e1 ++ e2) = fold_left tally e2 (edges e1).
Proof. apply fold_left_app. Qed.

Lemma round_edges a s s' : round_of a s s' -> RESET_NAME s = negb active_reset ->
  edges (evals s') = (false, ((edges (evals s)).2.1, ((edges (evals s)).2.2 + Nat.b2n (negb (edges (evals s)).1))%nat)).
Proof.
  intros [_ _ _ [i ->] _ _] Hr. rewrite edges_app. destruct (edges (evals s)) as [l [m n]].
  cbn [fold_left]. unfold tally, rises, in_reset. cbn [ev_clock ev_reset fst snd andb negb].
  rewrite Hr, reset_not_active. cbn [fst snd Nat.b2n]. by rewrite Nat.add_0_r.
Qed.

(** *** The reset *)

(** In reset, after [k] cycles. *)
Record resetting (k : nat) (s0 s : sim) : Prop := {
  re_reset : RESET_NAME s = active_reset;
  re_ctl : ctl s = ctl s0;
  re_seen : seen (evals s) = (bool_decide (0 < k)%nat, Axi.slave_init);
  re_edges : edges (evals s) = (bool_decide (0 < k)%nat, (k, 0%nat))
}.

Lemma reset_cycle_step k s0 s s' : resetting k s0 s -> reset_cycle s = Done s' -> resetting (S k) s0 s'.
Proof.
  intros [Hr Hc Hs He]. unfold reset_cycle.
  destruct (tick (set_clock false s)) as [s1| | | |] eqn:E1; try done. cbn [mbind outcome_bind].
  destruct (tick (set_clock true (advance (dump s1)))) as [s2| | | |] eqn:E2; try done. cbn [mbind outcome_bind]. intros [= <-].
  apply tick_evaluates in E1 as [E1c E1r E1k E1t E1d E1e]. apply tick_evaluates in E2 as [E2c E2r E2k E2t E2d E2e].
  cbn in *. split; cbn [ctl RESET_NAME evals advance dump]; [congruence|congruence|..]; rewrite E2e, E1e, <- app_assoc.
  - rewrite seen_app, Hs. cbn [fold_left app]. unfold watch, rises, in_reset. cbn [ev_clock ev_reset ev_in ev_out fst snd andb negb].
    rewrite E1r, Hr, Bool.eqb_reflx. by rewrite bool_decide_true by lia.
  - rewrite edges_app, He. cbn [fold_left app]. unfold tally, rises, in_reset. cbn [ev_clock ev_reset fst snd andb negb Nat.b2n].
    rewrite E1r, Hr, Bool.eqb_reflx. cbn [fst snd Nat.b2n]. rewrite bool_decide_true by lia. by rewrite Nat.add_0_r, Nat.add_1_r.
Qed.

Lemma reset_cycles_step n : forall k s0 s s', resetting k s0 s -> reset_cycles n s = Done s' -> resetting (n + k) s0 s'.
Proof.
  induction n as [|n IH]; intros k s0 s s' Hk; cbn [reset_cycles]; [by intros [= <-]|].
  destruct (reset_cycle s) as [s1| | | |] eqn:E; try done. cbn [mbind outcome_bind]. intros Hs.
  replace (S n + k)%nat with (n + S k)%nat by lia. eapply IH; [|done]. by eapply reset_cycle_step.
Qed.

Lemma start_resetting t i di q ms g d : resetting 0 (start t i di q ms g d) (start t i di q ms g d).
Proof. by split. Qed.

(** After the reset the design has seen nothing of the bus, and the clock has been
    high at its last evaluation although the port is low again. *)
Lemma reset_top_done s0 s : resetting 0 s0 s0 -> reset_top s0 = Done s ->
  RESET_NAME s = negb active_reset /\ ctl s = ctl s0 /\ seen (evals s) = (true, Axi.slave_init) /\
  edges (evals s) = (true, (50%nat, 0%nat)).
Proof.
  unfold reset_top. intros Hst. destruct (reset_cycles 50 s0) as [s1| | | |] eqn:E; try done. cbn [mbind outcome_bind].
  intros [= <-]. apply (reset_cycles_step 50 0 s0) in E as [_ Hc Hs He]; [|done]. done.
Qed.

(** *** The controller in the loop *)

Abbreviation ctl_tick := (Axi.tick CMD_BITS CMD_VALID CMD_READY RESP_BITS RESP_VALID RESP_READY pack_cfg).
Abbreviation ctl_inv := (Axi.axi_inv CMD_BITS CMD_VALID CMD_READY RESP_BITS RESP_VALID RESP_READY).

(** The server quits in the round, before the controller is done. *)
Definition in_round (q : option moment) : bool :=
  match q with Some BeforeCommand | Some BeforeResponse => true | _ => false end.
Definition killed (b : bool) (c : Axi.ctrl) : Axi.ctrl := if b then set_kill c else c.

(** Where it does not wait, the controller does what it does without a shutdown. *)
Lemma control_tick_inv q n i now c c' : control_tick q n i now c = Done c' ->
  exists c0, ctl_tick n i now c = Done c0 /\ c' = killed (in_round q) c0.
Proof.
  unfold control_tick. destruct q as [[]|]; cbn [in_round killed]; try (intros ->; by eexists).
  - destruct (wants_queue c); [done|]. destruct (ctl_tick n i now c); try done. cbn [mbind outcome_bind].
    case_match; [done|]. intros [= <-]. by eexists.
  - destruct (ctl_tick n i now c); try done. cbn [mbind outcome_bind]. case_match; [done|]. intros [= <-]. by eexists.
Qed.

Lemma killed_out b c : Axi.out (killed b c) = Axi.out c /\ Axi.cmds (killed b c) = Axi.cmds c /\
  Axi.ongoing_cmd (killed b c) = Axi.ongoing_cmd c /\ Axi.registered (killed b c) = Axi.registered c /\
  Axi.kill_sig (killed b c) = (b || Axi.kill_sig c)%bool.
Proof. by destruct b. Qed.

(** The first tick of a controller drives nothing, so that the clock edge the design
    does not see after the reset carries nothing. *)
Lemma first_tick_silent n q i now : exists c,
  ctl_tick n i now (Axi.ctrl_init q) = Done c /\
  Axi.out c = Axi.out (Axi.ctrl_init q) /\ Axi.cmds c = q /\ Axi.kill_sig c = false.
Proof. eexists. split; [reflexivity|]. done. Qed.

Lemma slave_step_silent i q sl : Axi.slave_step i (Axi.out (Axi.ctrl_init q)) sl = sl.
Proof. by destruct sl. Qed.

Lemma enqueue_init cs cs' : enqueue cs' (Axi.ctrl_init cs) = Axi.ctrl_init (cs ++ cs').
Proof. done. Qed.

Lemma enqueue_inv cs cs' c sl : ctl_inv cs c sl -> ctl_inv (cs ++ cs') (enqueue cs' c) sl.
Proof.
  intros [Hp Hb Hcr Hrr Ha (dn & cur & Hcs & Hw & Hcur) Hrs]. split; try done.
  - destruct Hp; [by apply Axi.ph_idle|by apply Axi.ph_cmd|by apply Axi.ph_rsp|by apply Axi.ph_upd].
  - exists dn, cur. split; [|done]. rewrite Hcs. cbn [enqueue Axi.cmds]. by rewrite <- !app_assoc.
Qed.

Lemma killed_inv b cs c sl : ctl_inv cs c sl -> ctl_inv cs (killed b c) sl.
Proof.
  destruct b; [|done]. intros [Hp Hb Hcr Hrr Ha Hc Hrs]. split; try done.
  destruct Hp; [by apply Axi.ph_idle|by apply Axi.ph_cmd|by apply Axi.ph_rsp|by apply Axi.ph_upd].
Qed.

(** What a tick does to the queue. *)
Lemma machines_keep i c : let c' := Axi.update_update_state CMD_READY RESP_VALID i
    (Axi.update_resp_state RESP_BITS RESP_VALID RESP_READY pack_cfg i c) in
  Axi.cmds c' = Axi.cmds c /\ Axi.kill_sig c' = Axi.kill_sig c /\
  Axi.cmd_state (Axi.ongoing_cmd c') = Axi.cmd_state (Axi.ongoing_cmd c) /\
  Axi.cmd_progress (Axi.ongoing_cmd c') = Axi.cmd_progress (Axi.ongoing_cmd c).
Proof.
  cbn zeta. set (c1 := Axi.update_resp_state _ _ _ _ i c).
  assert (Axi.cmds c1 = Axi.cmds c /\ Axi.kill_sig c1 = Axi.kill_sig c /\ Axi.ongoing_cmd c1 = Axi.ongoing_cmd c) as (<- & <- & <-).
  { unfold c1, Axi.update_resp_state, Axi.ready_write_b. repeat case_match; done. }
  generalize c1. clear. intros c. unfold Axi.update_update_state. repeat case_match; done.
Qed.

Lemma tick_takes n i now c c' : ctl_tick n i now c = Done c' ->
  (Axi.cmds c' = Axi.cmds c /\ Axi.kill_sig c' = Axi.kill_sig c) \/
  exists x, Axi.cmds c = x :: Axi.cmds c' /\ Axi.kill_sig c' = (getOpcode x =? ROCC_OP_FLUSH) /\
    Axi.cmd_state (Axi.ongoing_cmd c') = Axi.CMD_BITS_WRITE_ADDR /\ Axi.cmd_progress (Axi.ongoing_cmd c') = 0.
Proof.
  unfold Axi.tick. destruct (Axi.update_command_state _ _ _ _ _ _ _ _) as [c1| | | |] eqn:E; try done.
  cbn [mbind outcome_bind]. intros [= <-]. destruct (machines_keep i c1) as (-> & -> & -> & ->). revert E.
  unfold Axi.update_command_state. cbn [Axi.ongoing_cmd Axi.with_out]. case_match; try (intros [= <-]; left; by repeat case_match).
  - case_match; [|intros [= <-]; by left]. unfold Axi.start_command. cbn [Axi.cmds Axi.with_out].
    destruct (Axi.cmds c) as [|x rest] eqn:Ex; [intros [= <-]; by left|].
    destruct (pack _ _ _ _) as [ws| | | |]; try done. cbn [mbind outcome_bind]. intros [= <-]. right. by exists x.
  - intros [= <-]. left. unfold Axi.finish_beat. by repeat case_match.
Qed.

Hypothesis Haddr : NoDup [CMD_BITS; CMD_VALID; CMD_READY; RESP_BITS; RESP_VALID; RESP_READY].

Definition is_flush (c : rocc_cmd) : bool := getOpcode c =? ROCC_OP_FLUSH.
Abbreviation bus_words cs := (cs ≫= fun c => Axi.beats CMD_BITS CMD_VALID (Axi.words c)).
Abbreviation bus_writes evs := (Axi.cmd_writes CMD_BITS CMD_VALID (bus_of evs)).

(** The controller and what the design has seen of it agree on the commands [cs]. *)
Definition agree (cs : list rocc_cmd) (s : sim) : Prop :=
  (seen (evals s)).1 = true /\ bus_of (evals s) = Axi.slave_init /\ ctl s = Axi.ctrl_init cs \/
  (seen (evals s)).1 = false /\ ctl_inv cs (ctl s) (bus_of (evals s)).

(** The simulation is running, and was given the commands [cs] so far. *)
Record running (cs : list rocc_cmd) (s : sim) : Prop := {
  rn_reset : RESET_NAME s = negb active_reset;
  rn_bus : agree cs s;
  rn_taken : exists tk, cs = tk ++ Axi.cmds (ctl s) /\ Forall (fun c => is_flush c = false) tk
}.

(** What the design took over is an initial part of what [cs] asks for, and the
    responses are what it gave away. *)
Definition in_step (cs : list rocc_cmd) (s : sim) : Prop :=
  bus_of (evals s) = Axi.slave_init /\ Axi.registered (ctl s) = [] \/ ctl_inv cs (ctl s) (bus_of (evals s)).

Lemma agree_in_step cs s : agree cs s -> in_step cs s.
Proof. intros [(_ & Hb & Hc)|[_ Hi]]; [left; by rewrite Hc|by right]. Qed.

Lemma in_step_prefix cs s : in_step cs s -> bus_writes (evals s) `prefix_of` bus_words cs.
Proof.
  intros [[-> _]|Hi]; [by apply prefix_nil|]. apply (Axi.cmd_ok_prefix _ _ _ (ctl s)); apply Hi.
Qed.

(** It has taken a flush from the queue. *)
Definition flushed (cs : list rocc_cmd) (s : sim) : Prop :=
  exists dn c rest, cs = dn ++ c :: rest /\ is_flush c = true /\ Forall (fun c => is_flush c = false) dn /\
    bus_writes (evals s) = bus_words dn.

Lemma flushed_app cs cs' s : flushed cs s -> flushed (cs ++ cs') s.
Proof. intros (dn & c & rest & -> & Hf & Hd & Hw). exists dn, c, (rest ++ cs'). by rewrite <- app_assoc. Qed.

Lemma running_start t i di q ms g d s :
  reset_top (start t i di q ms g d) = Done s -> running q s /\ Axi.kill_sig (ctl s) = false.
Proof.
  intros (Hr & Hc & Hs & _)%reset_top_done; [|apply start_resetting]. split; [|by rewrite Hc]. split; [done| |].
  - left. unfold bus_of. by rewrite Hs, Hc.
  - exists []. by rewrite Hc.
Qed.

(** The servers before the test of the loop. *)
Lemma serve_ctl a s : ctl (serve a s) = killed (before_test a) (enqueue (arrivals a) (ctl s)).
Proof. done. Qed.

Lemma serve_in_step cs a s : in_step cs s -> in_step (cs ++ arrivals a) (serve a s).
Proof.
  intros [[Hb Hc]|Hi]; [left|right]; rewrite serve_ctl; [|by apply killed_inv, enqueue_inv].
  by rewrite (proj1 (proj2 (proj2 (proj2 (killed_out _ _))))).
Qed.

Lemma serve_running cs a s : running cs s -> before_test a = false -> running (cs ++ arrivals a) (serve a s).
Proof.
  intros [Hr Hb (tk & Hcs & Hf)] Ht. unfold serve. rewrite Ht. split; [done| |].
  - destruct Hb as [(Hl & Hb & Hc)|[Hl Hi]]; [left|right]; split; try done; [|by apply enqueue_inv].
    split; [done|]. cbn [ctl]. by rewrite Hc, enqueue_init.
  - exists tk. split; [|done]. cbn [ctl enqueue Axi.cmds]. by rewrite Hcs, app_assoc.
Qed.

(** Once [kill_sig] is set the loop ends at its next test. *)
Lemma main_loop_killed acts s : Axi.kill_sig (ctl s) = true ->
  main_loop acts s = Done (true, match acts with [] => s | a :: _ => serve a s end).
Proof.
  intros Hk. destruct acts as [|a acts]; cbn [main_loop]; [by rewrite Hk|].
  rewrite serve_ctl. destruct (killed_out (before_test a) (enqueue (arrivals a) (ctl s))) as (_ & _ & _ & _ & ->).
  cbn [enqueue Axi.kill_sig]. by rewrite Hk, orb_true_r.
Qed.

Lemma ctl_step n i now cs c sl : ctl_inv cs c sl -> Forall (fun c => pack_ok c = true) cs ->
  exists c', ctl_tick n i now c = Done c' /\ ctl_inv cs c' (Axi.slave_step i (Axi.out c') sl).
Proof using Haddr. intros. by apply Axi.tick_inv. Qed.

(** The controller and the design after a round. *)
Lemma round_ctl cs a s s' : running cs s -> round_of a s s' -> Forall (fun c => pack_ok c = true) cs ->
  (seen (evals s')).1 = false /\ ctl_inv cs (ctl s') (bus_of (evals s')).
Proof using Haddr.
  intros [Hr Hb _] Ho Hok. pose proof (round_bus _ _ _ Ho Hr) as Hs. unfold agree, bus_of in *. rewrite Hs. split; [done|]. cbn [snd].
  destruct (control_tick_inv _ _ _ _ _ _ (ro_ctl _ _ _ Ho)) as (c0 & Ht & ->). rewrite (proj1 (killed_out _ c0)). apply killed_inv.
  destruct Hb as [(-> & -> & Hc)|[-> Hi]].
  - rewrite Hc in Ht. pose proof (Axi.init_inv CMD_BITS CMD_VALID CMD_READY RESP_BITS RESP_VALID RESP_READY cs) as Hi.
    destruct (ctl_step (length (axi4_mems s)) (s00 s) (u64 (main_time s + fpga_clock_inc)) _ _ _ Hi Hok) as (c & Ec & Hi').
    destruct (first_tick_silent (length (axi4_mems s)) cs (s00 s) (u64 (main_time s + fpga_clock_inc)))
      as (c' & Ec' & Eo & _). rewrite Ht in Ec, Ec'. injection Ec as <-. injection Ec' as <-.
    by rewrite Eo, slave_step_silent in Hi'.
  - destruct (ctl_step (length (axi4_mems s)) (s00 s) (u64 (main_time s + fpga_clock_inc)) _ _ _ Hi Hok) as (c & Ec & Hi').
    rewrite Ht in Ec. by injection Ec as <-.
Qed.

(** After a round the simulation is running, unless a flush was taken or the server
    quit in it. *)
Lemma round_running cs a s s' :
  running cs s -> round_of a s s' -> Axi.kill_sig (ctl s) = false -> Forall (fun c => pack_ok c = true) cs ->
  if Axi.kill_sig (ctl s') then flushed cs s' \/ in_round (quits a) = true
  else running cs s' /\ in_round (quits a) = false.
Proof using Haddr.
  intros Hrun Ho Hk Hok. destruct (round_ctl _ _ _ _ Hrun Ho Hok) as [Hl Hi].
  destruct Hrun as [Hr _ (tk & Hcs & Hnf)].
  destruct (control_tick_inv _ _ _ _ _ _ (ro_ctl _ _ _ Ho)) as (c0 & Ht & Ec).
  destruct (in_round (quits a)) eqn:Eq; [by rewrite Ec; cbn; right|]. cbn [killed] in Ec. rewrite <- Ec in Ht. clear c0 Ec.
  destruct (tick_takes _ _ _ _ _ Ht) as [[Hq Hk']|(x & Hq & Hk' & Hst & Hp)].
  - rewrite Hk', Hk. split; [|done]. split; [by rewrite (ro_reset _ _ _ Ho)|by right|]. exists tk. by rewrite Hq, <- Hcs.
  - assert (cs = (tk ++ [x]) ++ Axi.cmds (ctl s')) as Ecs.
    { rewrite Hcs, <- !app_assoc. cbn [app]. by rewrite <- Hq. }
    rewrite Hk'. destruct (getOpcode x =? ROCC_OP_FLUSH) eqn:Ef.
    + left. destruct (Axi.a_cmd _ _ _ _ _ _ _ _ _ Hi) as (dn & cur & Hd & Hw & Hcur).
      unfold Axi.cmd_active in Hcur. rewrite Hst in Hcur. destruct Hcur as (c & -> & _).
      rewrite Ecs, app_assoc in Hd. apply app_inv_tail in Hd. apply app_inj_tail in Hd as [<- <-].
      exists tk, x, (Axi.cmds (ctl s')). rewrite Ecs, <- app_assoc. split_and!; try done.
      rewrite Hw. unfold Axi.cmd_part. rewrite Hst, Hp. by rewrite app_nil_r.
    + split; [|done]. split; [by rewrite (ro_reset _ _ _ Ho)|by right|]. exists (tk ++ [x]). split; [done|].
      apply Forall_app. split; [done|]. by constructor.
Qed.

(** The server quits in some round of the schedule. *)
Definition shut_down (acts : list activity) : Prop := Exists (fun a => is_Some (quits a)) acts.

(** How the loop stands after the commands [cs]: still running, without a shutdown, or
    ended by a flush or by a shutdown. *)
Definition loop_state (k : bool) (cs : list rocc_cmd) (acts : list activity) (s : sim) : Prop :=
  if k then flushed cs s \/ shut_down acts else running cs s /\ ~ shut_down acts.

Lemma quits_none a : before_test a = false -> in_round (quits a) = false -> quits a = None.
Proof. unfold before_test. by destruct (quits a) as [[]|]. Qed.

Lemma quits_some a : before_test a = true \/ in_round (quits a) = true -> is_Some (quits a).
Proof. unfold before_test. destruct (quits a) as [[]|]; intros [|]; try done; by eexists. Qed.

(** The design and the controller agree on some of the commands [cs], in order. *)
Definition kept (cs : list rocc_cmd) (s : sim) : Prop := exists cs0, in_step cs0 s /\ cs0 `prefix_of` cs.

Lemma kept_killed cs acts s : in_step cs s ->
  kept (cs ++ all_arrivals acts) (match acts with [] => s | a :: _ => serve a s end).
Proof.
  intros Hi. destruct acts as [|a acts]; [exists cs; split; [done|by apply prefix_app_r]|].
  exists (cs ++ arrivals a). split; [by apply serve_in_step|].
  change (all_arrivals (a :: acts)) with (arrivals a ++ all_arrivals acts). rewrite app_assoc. by apply prefix_app_r.
Qed.

Lemma main_loop_runs acts : forall cs s k s', running cs s -> Axi.kill_sig (ctl s) = false ->
  Forall (fun c => pack_ok c = true) (cs ++ all_arrivals acts) -> main_loop acts s = Done (k, s') ->
  loop_state k (cs ++ all_arrivals acts) acts s' /\ kept (cs ++ all_arrivals acts) s'.
Proof using Haddr.
  induction acts as [|a acts IH]; intros cs s k s' Hr Hk Hok; cbn [main_loop].
  { rewrite Hk. intros [= <- <-]. unfold all_arrivals. cbn. rewrite app_nil_r. split.
    - split; [done|]. by intros ?%Exists_nil.
    - exists cs. split; [|done]. by apply agree_in_step, Hr. }
  change (all_arrivals (a :: acts)) with (arrivals a ++ all_arrivals acts) in *. rewrite app_assoc in *.
  apply Forall_app in Hok as [Hok1 Hok2]. pose proof (serve_in_step _ a _ (agree_in_step _ _ (rn_bus _ _ Hr))) as Hst.
  destruct (before_test a) eqn:Et.
  { assert (Axi.kill_sig (ctl (serve a s)) = true) as -> by (by rewrite serve_ctl, Et). intros [= <- <-].
    split; [|exists (cs ++ arrivals a); split; [done|by apply prefix_app_r]].
    right. apply Exists_cons. left. apply quits_some. by left. }
  pose proof (serve_running _ _ _ Hr Et) as Hr1.
  assert (Axi.kill_sig (ctl (serve a s)) = false) as Hk1 by (by rewrite serve_ctl, Et). rewrite Hk1.
  destruct (round a (serve a s)) as [s1| | | |] eqn:E; try done. cbn [mbind outcome_bind]. apply round_inv in E.
  pose proof (round_running _ _ _ _ Hr1 E Hk1 Hok1) as Hn. destruct (Axi.kill_sig (ctl s1)) eqn:Ek.
  - rewrite main_loop_killed by done. intros [= <- <-]. split.
    + destruct Hn as [Hn|Hn]; [left|right; apply Exists_cons; left; apply quits_some; by right].
      apply (flushed_app _ (all_arrivals acts)) in Hn. by destruct acts.
    + apply kept_killed. right. apply (round_ctl _ _ _ _ Hr1 E Hok1).
  - destruct Hn as [Hn Hq]. intros Hl. destruct (IH _ _ _ _ Hn Ek ltac:(by apply Forall_app) Hl) as [Hx Hs]. split; [|done].
    destruct k; cbn [loop_state] in *; [destruct Hx as [?|?]; [by left|right; by apply Exists_cons; right]|].
    destruct Hx as [Hx Hns]. split; [done|]. intros [[? Hc]|?]%Exists_cons; [|done].
    by rewrite (quits_none _ Et Hq) in Hc.
Qed.

(** C7. Whatever the design does with its ports, whatever commands the server queues
    and whenever it shuts down, and whatever the memory and the DMA engine do: as long
    as the rounds return, the register writes that the design takes over at its clock
    edges are an initial part of what the commands ask for, in the order they were
    queued.  The loop goes on only while the server has not quit; when it has ended,
    the server shuts down in the schedule, or a flush was
    taken from the queue: then the commands before the first flush have been written
    in full, and nothing of it or of what came after it.  All the while the responses
    handed to the server are the words the design gave away at its edges, three at a
    time and in order, at most the three words of a response in progress being held
    back.  The commands are those that pass the range checks of [pack], and the six
    registers of the bus have different addresses. *)
Theorem simulation_delivers_until_flush t i di q ms g d acts k s :
  Forall (fun c => pack_ok c = true) (q ++ all_arrivals acts) ->
  run_verilator acts (start t i di q ms g d) = Done (k, s) ->
  bus_writes (evals s) `prefix_of` bus_words (q ++ all_arrivals acts) /\
  (if (k : bool) then flushed (q ++ all_arrivals acts) s \/ shut_down acts else ~ shut_down acts) /\
  Forall (fun r => length r = 3%nat) (Axi.registered (ctl s)) /\
  exists rest, Axi.resp_reads RESP_BITS (bus_of (evals s)) = mjoin (Axi.registered (ctl s)) ++ rest /\ (length rest <= 3)%nat.
Proof using Haddr.
  intros Hok. unfold run_verilator. destruct (reset_top _) as [s1| | | |] eqn:E; try done. cbn [mbind outcome_bind].
  apply running_start in E as [Hr Hk]. intros Hl.
  destruct (main_loop_runs acts _ _ _ _ Hr Hk Hok Hl) as [Hx (cs0 & Hs & [cs1 Hp])]. split; [|split].
  - rewrite Hp, bind_app. apply prefix_app_r. by apply in_step_prefix.
  - destruct k; [done|by apply Hx].
  - destruct Hs as [[-> ->]|Hi]; [split; [done|exists []; split; [done|cbn; lia]]|]. by eapply Axi.responses_so_far.
Qed.

(** ** The clock *)

Lemma main_loop_step a acts s s' : main_loop (a :: acts) s = Done (false, s') ->
  exists s1, round a (serve a s) = Done s1 /\ main_loop acts s1 = Done (false, s').
Proof.
  cbn [main_loop]. destruct (Axi.kill_sig (ctl (serve a s))); [done|].
  destruct (round a (serve a s)) as [s1| | | |]; try done. eauto.
Qed.

Lemma main_loop_nil s s' : main_loop [] s = Done (false, s') -> s' = s.
Proof. cbn [main_loop]. by intros [= _ <-]. Qed.

Lemma main_loop_edges acts : forall s s' m n, RESET_NAME s = negb active_reset ->
  main_loop acts s = Done (false, s') -> edges (evals s) = (false, (m, n)) ->
  edges (evals s') = (false, (m, (n + length acts)%nat)).
Proof.
  induction acts as [|a acts IH]; intros s s' m n Hr Hl He.
  { apply main_loop_nil in Hl as ->. cbn. by rewrite Nat.add_0_r. }
  apply main_loop_step in Hl as (s1 & E%round_inv & Hl). pose proof (round_edges _ _ _ E Hr) as He1.
  change (evals (serve a s)) with (evals s) in He1. rewrite He in He1. cbn [fst snd negb Nat.b2n] in He1.
  rewrite (IH s1 s' m (n + 1)%nat); [cbn [length]; do 2 f_equal; lia| |done|done]. by rewrite (ro_reset _ _ _ E).
Qed.

(** The times of the evaluations [lo, lo + 1, ...]. *)
Definition stamps (lo : Z) (n : nat) : list Z := map (Z.mul fpga_clock_inc) (zrange lo n).

Lemma stamps_two lo n : stamps lo (2 * S n) = [fpga_clock_inc * lo; fpga_clock_inc * (lo + 1)] ++ stamps (lo + 2) (2 * n).
Proof.
  unfold stamps. replace (2 * S n)%nat with (S (S (2 * n))) by lia. rewrite !zrange_S. cbn [map app].
  by rewrite <- Z.add_assoc.
Qed.

Definition timed (j : Z) (s : sim) : Prop := main_time s = fpga_clock_inc * j.

Lemma u64_next j : 0 <= j -> 0 <= fpga_clock_inc -> fpga_clock_inc * (j + 1) < 2 ^ 64 ->
  u64 (fpga_clock_inc * j + fpga_clock_inc) = fpga_clock_inc * (j + 1).
Proof. intros. replace (fpga_clock_inc * j + fpga_clock_inc) with (fpga_clock_inc * (j + 1)) by lia. apply Z.mod_small. nia. Qed.

Lemma reset_cycle_times j s s' : 0 <= j -> 0 <= fpga_clock_inc -> fpga_clock_inc * (j + 2) < 2 ^ 64 ->
  timed j s -> reset_cycle s = Done s' ->
  timed (j + 2) s' /\ dumps s' = dumps s ++ [fpga_clock_inc * j; fpga_clock_inc * (j + 1)].
Proof.
  unfold timed, reset_cycle. intros Hj Hi Hb Ht.
  destruct (tick (set_clock false s)) as [s1| | | |] eqn:E1; try done. cbn [mbind outcome_bind].
  destruct (tick (set_clock true (advance (dump s1)))) as [s2| | | |] eqn:E2; try done. cbn [mbind outcome_bind]. intros [= <-].
  apply tick_evaluates in E1 as [_ _ _ E1t E1d _]. apply tick_evaluates in E2 as [_ _ _ E2t E2d _]. cbn in *.
  rewrite E2d, E2t, E1d, E1t, Ht. rewrite !u64_next by nia. split; [lia|]. by rewrite <- app_assoc.
Qed.

Lemma reset_cycles_times n : forall j s s', 0 <= j -> 0 <= fpga_clock_inc ->
  fpga_clock_inc * (j + 2 * Z.of_nat n) < 2 ^ 64 -> timed j s -> reset_cycles n s = Done s' ->
  timed (j + 2 * Z.of_nat n) s' /\ dumps s' = dumps s ++ stamps j (2 * n).
Proof.
  induction n as [|n IH]; intros j s s' Hj Hi Hb Ht; cbn [reset_cycles].
  { intros [= <-]. rewrite app_nil_r. split; [|done]. by rewrite Z.mul_0_r, Z.add_0_r. }
  destruct (reset_cycle s) as [s1| | | |] eqn:E; try done. cbn [mbind outcome_bind]. intros Hn.
  apply (reset_cycle_times j) in E as [Ht1 Hd1]; [|done|done|nia|done].
  apply (IH (j + 2)) in Hn as [Ht' Hd']; [|lia|done|nia|done]. rewrite stamps_two, Hd', Hd1, <- app_assoc. split; [|done].
  by replace (j + 2 * Z.of_nat (S n)) with (j + 2 + 2 * Z.of_nat n) by lia.
Qed.

Lemma main_loop_times acts : forall j s s', 0 <= j -> 0 <= fpga_clock_inc ->
  fpga_clock_inc * (j + 2 * Z.of_nat (length acts)) < 2 ^ 64 -> timed j s -> main_loop acts s = Done (false, s') ->
  timed (j + 2 * Z.of_nat (length acts)) s' /\ dumps s' = dumps s ++ stamps (j + 1) (2 * length acts).
Proof.
  induction acts as [|a acts IH]; intros j s s' Hj Hi Hb Ht Hl.
  { apply main_loop_nil in Hl as ->. rewrite app_nil_r. split; [|done]. by rewrite Z.mul_0_r, Z.add_0_r. }
  apply main_loop_step in Hl as (s1 & E%round_inv & Hl). destruct E as [_ _ _ _ Et Ed]. unfold timed in *. cbn [length serve main_time dumps] in *.
  rewrite Ht in Et, Ed. rewrite u64_next in Ed by nia. rewrite !u64_next in Et by nia. rewrite Et in Ed.
  replace (j + 1 + 1) with (j + 2) in * by lia.
  apply (IH (j + 2)) in Hl as [Ht' Hd']; [|lia|done|nia|done]. rewrite stamps_two, Hd', Ed, <- app_assoc.
  split; [by replace (j + 2 * Z.of_nat (S (length acts))) with (j + 2 + 2 * Z.of_nat (length acts)) by lia|].
  by replace (j + 2 + 1) with (j + 1 + 2) by lia; replace (j + 1 + 1) with (j + 2) by lia.
Qed.

Lemma stamps_sorted lo n : 0 < fpga_clock_inc -> StronglySorted Z.lt (stamps lo n).
Proof.
  intros Hi. revert lo. induction n as [|n IH]; intros lo; [constructor|]. unfold stamps. rewrite zrange_S. cbn [map].
  constructor; [apply IH|]. apply Forall_forall. intros x (y & -> & Hy)%list_elem_of_fmap. apply elem_of_zrange in Hy. nia.
Qed.

Lemma sorted_app l1 l2 : StronglySorted Z.lt l1 -> StronglySorted Z.lt l2 ->
  (forall x y, x ∈ l1 -> y ∈ l2 -> x < y) -> StronglySorted Z.lt (l1 ++ l2).
Proof.
  induction 1 as [|x l1 Hs IH Hx]; intros H2' Hc; [done|]. cbn [app]. constructor.
  - apply IH; [done|]. intros. apply Hc; [by apply elem_of_cons; right|done].
  - apply Forall_app. split; [done|]. apply Forall_forall. intros y Hy. apply Hc; [by apply elem_of_cons; left|done].
Qed.

(** C15. In a run of at least one round that has not ended, with a clock of at most
    500000 MHz: the design gets fifty clock edges in reset and then one for each round
    of the loop but the first, because the last evaluation of the reset leaves the
    clock high and the low level that is assigned after it is never evaluated.  The
    times written to the waveform are the half periods 0 to 99 and then those from 101
    on, the one between them being left out; they grow strictly as long as the time
    fits its 64 bits. *)
Theorem clock_of_the_simulation t i di q ms g d a acts s :
  let n := length (a :: acts) in
  0 < FPGA_CLOCK <= 500000 -> fpga_clock_inc * (100 + 2 * Z.of_nat n) < 2 ^ 64 ->
  run_verilator (a :: acts) (start t i di q ms g d) = Done (false, s) ->
  edges (evals s) = (false, (50%nat, (n - 1)%nat)) /\
  dumps s = stamps 0 100 ++ stamps 101 (2 * n) /\ StronglySorted Z.lt (dumps s).
Proof.
  intros n Hc Hb. unfold run_verilator. destruct (reset_top _) as [s0| | | |] eqn:E0; try done. cbn [mbind outcome_bind]. intros Hl.
  assert (0 < fpga_clock_inc) as Hi by (apply Z.div_str_pos; lia).
  destruct (reset_top_done _ _ (start_resetting _ _ _ _ _ _ _) E0) as (Hr & _ & _ & He). revert E0. unfold reset_top.
  destruct (reset_cycles 50 _) as [s1| | | |] eqn:E1; try done. cbn [mbind outcome_bind]. intros [= <-].
  apply (reset_cycles_times 50 0) in E1 as [Ht1 Hd1]; [|lia|lia|nia|by unfold timed; cbn; lia].
  set (s2 := set_clock false _) in *. assert (timed 100 s2) as Ht2 by exact Ht1. assert (dumps s2 = stamps 0 100) as Hd2 by exact Hd1.
  destruct (main_loop_times (a :: acts) 100 s2 s) as [_ Hd]; [lia|lia|done|done|done|]. rewrite Hd2 in Hd. split_and!; [|done|].
  - apply main_loop_step in Hl as (s3 & E3%round_inv & Hl). pose proof (round_edges _ _ _ E3 Hr) as He3.
    change (evals (serve a s2)) with (evals s2) in He3. rewrite He in He3. cbn [fst snd negb Nat.b2n] in He3. cbn [length] in n.
    rewrite (main_loop_edges acts s3 s 50 0); [unfold n; do 2 f_equal; lia|by rewrite (ro_reset _ _ _ E3)|done|done].
  - rewrite Hd. apply sorted_app; [by apply stamps_sorted..|].
    intros x y (x' & -> & Hx)%list_elem_of_fmap (y' & -> & Hy)%list_elem_of_fmap.
    apply elem_of_zrange in Hx. apply elem_of_zrange in Hy. nia.
Qed.

(** ** The memory channels in the loop *)

Section Channels.
Context {Hflag : FlagWire byte_t}.

(** The design drives its own ports only. *)
Hypothesis design_ports : forall t c rs o ms d t' i ms' d',
  eval t c rs o ms d = Some (t', i, ms', d') -> Forall2 env ms ms'.

(** A channel as it is declared, before the design is connected. *)
Definition fresh (m : mem) : Prop :=
  ws m = mk_wside [] [] ∅ [] 0 (b (ws m)) /\ send_ids (b (ws m)) = [] /\ to_enqueue (b (ws m)) = [].

Abbreviation served s := (reach W cfg (shared s) (axi4_mems s)).

Lemma fresh_quiet m : fresh m -> quiet (init_channel m).
Proof using Hflag.
  intros (Hw & Hs & Ht). unfold quiet, init_channel. cbn [ws b with_b rc_setValid send_ids to_enqueue].
  split_and!; try done; [by rewrite Hw|]. unfold rc_getValid, rc_setValid. cbn [rc_valid]. by rewrite (flag_wire false).
Qed.

Lemma env_same (ms : list mem) : Forall2 env ms ms.
Proof.
  induction ms as [|m ms IH]; constructor; [|done].
  split; try done. exists (rc_ready (b (ws m))). by destruct m as [? ? ? ? ? [? ? ? ? ? []] ?].
Qed.

Lemma eval_served s s' : served s -> tick s = Done s' -> served s'.
Proof using design_ports.
  unfold tick. destruct (eval _ _ _ _ _ _) as [[[[t i] ms] d]|] eqn:E; [|done]. intros Hr [= <-].
  eapply reach_env; [exact Hr|]. by eapply design_ports.
Qed.

Lemma tick_signals_served q n x s s' : served s -> tick_signals q n x s = Done s' -> served s'.
Proof.
  unfold tick_signals. destruct (control_tick _ _ _ _ _) as [c| | | |]; try done. cbn [mbind outcome_bind].
  destruct (tick_mems _ _ _ _ _) as [[go [g ms]]| | | |] eqn:E; try done. cbn [mbind outcome_bind]. intros Hr.
  case_match; [destruct (Dma.dma_tick _ _ _ _); try done|]; cbn [mbind outcome_bind]; intros [= <-]; by eapply reach_tick.
Qed.

Lemma reset_cycles_served n : forall s s', served s -> reset_cycles n s = Done s' -> served s'.
Proof using design_ports.
  induction n as [|n IH]; intros s s' Hs; cbn [reset_cycles]; [by intros [= <-]|]. unfold reset_cycle.
  destruct (tick (set_clock false s)) as [s1| | | |] eqn:E1; try done. cbn [mbind outcome_bind].
  destruct (tick (set_clock true (advance (dump s1)))) as [s2| | | |] eqn:E2; try done. cbn [mbind outcome_bind]. apply IH.
  apply eval_served in E1; [|done]. by apply eval_served in E2.
Qed.

Lemma round_served a s s' : served s -> round a s = Done s' -> served s'.
Proof using design_ports.
  unfold round. intros Hs. destruct (tick_signals _ _ _ _) as [s1| | | |] eqn:E1; try done. cbn [mbind outcome_bind].
  destruct (tick s1) as [s2| | | |] eqn:E2; try done. cbn [mbind outcome_bind].
  destruct (tick (set_clock false (dump s2))) as [s3| | | |] eqn:E3; try done. cbn [mbind outcome_bind]. intros [= <-].
  apply tick_signals_served in E1; [by apply eval_served in E3; [|apply eval_served in E2]|].
  eapply reach_env; [exact Hs|]. apply env_same.
Qed.

Lemma main_loop_served acts : forall s k s', served s -> main_loop acts s = Done (k, s') -> served s'.
Proof using design_ports.
  induction acts as [|a acts IH]; intros s k s' Hs; cbn [main_loop]; [by intros [= <- <-]|].
  assert (served (serve a s)) as Hs' by (eapply reach_env; [exact Hs|]; apply env_same).
  destruct (Axi.kill_sig (ctl (serve a s))); [by intros [= <- <-]|].
  destruct (round a (serve a s)) as [s1| | | |] eqn:E; try done. cbn [mbind outcome_bind]. apply IH. by eapply round_served.
Qed.

(** C14. In the whole simulation, from the reset on and whatever the design, the
    servers and the DRAM do, the states of the memory channels are states of the
    abstract machine of ticks and hardware activity: in particular, on every channel
    the writes in flight are counted exactly and are at most 32. *)
Theorem simulation_refines_channels t i di q ms g d acts k s :
  Forall fresh ms ->
  run_verilator acts (start t i di q ms g d) = Done (k, s) ->
  reach W cfg (shared s) (axi4_mems s) /\ Forall chan_inv (axi4_mems s).
Proof using design_ports Hflag.
  intros Hf. unfold run_verilator, reset_top. destruct (reset_cycles _ _) as [s1| | | |] eqn:E; try done.
  cbn [mbind outcome_bind]. intros Hl. assert (served s) as Hs; [|split; [done|by eapply reach_inv]].
  eapply main_loop_served; [|exact Hl]. apply reset_cycles_served in E; [done|]. cbn. apply reach_init.
  clear -Hf Hflag. induction Hf; cbn [map]; constructor; [by apply fresh_quiet|done].
Qed.

(** *** Runs without memory *)

Hypothesis eval_total : forall t c rs o ms d, is_Some (eval t c rs o ms d).

Lemma tick_total s : axi4_mems s = [] -> exists s', tick s = Done s' /\ axi4_mems s' = [].
Proof using design_ports eval_total.
  intros Hm. unfold tick. destruct (eval_total (top s) (clock s) (RESET_NAME s) (Axi.out (ctl s)) (axi4_mems s) (Dma.out (dma s)))
    as [[[[t i] ms] d] E]. rewrite E. eexists. split; [done|]. cbn. apply design_ports in E. rewrite Hm in E. by inversion E.
Qed.

Lemma reset_cycles_total n : forall s, axi4_mems s = [] -> exists s', reset_cycles n s = Done s' /\ axi4_mems s' = [].
Proof using design_ports eval_total.
  induction n as [|n IH]; intros s Hm; cbn [reset_cycles]; [by exists s|]. unfold reset_cycle.
  destruct (tick_total (set_clock false s)) as (s1 & -> & H1'); [done|]. cbn [mbind outcome_bind].
  destruct (tick_total (set_clock true (advance (dump s1)))) as (s2 & -> & H2'); [done|]. cbn [mbind outcome_bind]. by apply IH.
Qed.

Lemma round_total cs a s : axi4_mems s = [] -> running cs s -> Forall (fun c => pack_ok c = true) cs ->
  in_round (quits a) = false -> exists s', round a s = Done s' /\ axi4_mems s' = [].
Proof using design_ports eval_total Haddr.
  intros Hm Hr Hok Hq.
  assert (exists c, control_tick (quits a) 0 (s00 s) (u64 (main_time s + fpga_clock_inc)) (ctl s) = Done c) as [c Ec].
  { assert (forall n i now c, control_tick (quits a) n i now c = ctl_tick n i now c) as -> by (by destruct (quits a) as [[]|]).
    destruct Hr as [_ [(_ & _ & ->)|[_ Hi]] _].
    - destruct (first_tick_silent 0 cs (s00 s) (u64 (main_time s + fpga_clock_inc))) as (c & -> & _). by exists c.
    - destruct (ctl_step 0 (s00 s) (u64 (main_time s + fpga_clock_inc)) _ _ _ Hi Hok) as (c & -> & _). by exists c. }
  unfold round. set (s0 := count_cycle _).
  assert (exists s1, tick_signals (quits a) (ddr_ticks a) (rnd a) s0 = Done s1 /\ axi4_mems s1 = []) as (s1 & -> & Hm1).
  { unfold tick_signals. cbn [axi4_mems s0 count_cycle advance set_clock s00 main_time ctl shared].
    rewrite Hm. cbn [length]. rewrite Ec. cbn [mbind outcome_bind].
    assert (forall n g, tick_mems W cfg n g ([] : list mem) = Done (true, (g, []))) as ->.
    { intros n g. unfold tick_mems. assert (clocks W cfg n ([] : list mem) = Done []) as -> by (induction n as [|n IH]; cbn; [done|exact IH]). done. }
    cbn [mbind outcome_bind]. rewrite bool_decide_false by naive_solver. rewrite andb_false_r. cbn [mbind outcome_bind]. by eexists. }
  cbn [mbind outcome_bind]. destruct (tick_total s1) as (s2 & -> & Hm2); [done|]. cbn [mbind outcome_bind].
  destruct (tick_total (set_clock false (dump s2))) as (s3 & -> & Hm3); [done|]. cbn [mbind outcome_bind]. by eexists.
Qed.

Lemma main_loop_total acts : forall cs s, axi4_mems s = [] -> running cs s -> Axi.kill_sig (ctl s) = false ->
  Forall (fun c => pack_ok c = true) (cs ++ all_arrivals acts) -> Forall (fun a => in_round (quits a) = false) acts ->
  exists k s', main_loop acts s = Done (k, s').
Proof using design_ports eval_total Haddr.
  induction acts as [|a acts IH]; intros cs s Hm Hr Hk Hok Hq; cbn [main_loop]; [by eexists _, _|].
  change (all_arrivals (a :: acts)) with (arrivals a ++ all_arrivals acts) in Hok. rewrite app_assoc in Hok.
  pose proof Hok as [Hok1 Hok2]%Forall_app. inversion_clear Hq as [|? ? Hq1 Hqs].
  destruct (before_test a) eqn:Et; [rewrite serve_ctl, Et; by eexists _, _|].
  pose proof (serve_running _ _ _ Hr Et) as Hr1.
  assert (Axi.kill_sig (ctl (serve a s)) = false) as Hk1 by (by rewrite serve_ctl, Et). rewrite Hk1.
  destruct (round_total _ a (serve a s) Hm Hr1 Hok1 Hq1) as (s1 & E & Hm1). rewrite E. cbn [mbind outcome_bind].
  pose proof (round_running _ _ _ _ Hr1 (round_inv _ _ _ E) Hk1 Hok1) as Hn. destruct (Axi.kill_sig (ctl s1)) eqn:Ek1.
  - rewrite main_loop_killed by done. by eexists _, _.
  - by eapply IH; [done|apply Hn|..].
Qed.

(** A build without memory channels never fails: for every design that evaluates and
    every schedule of commands that pass the range checks, each round of the
    simulation returns, so that it is still running or was ended by a flush or by the
    server.  The server quits between two rounds here; in a round it can block the
    controller ([shutdown_may_block]). *)
Theorem simulation_without_memory_runs t i di q g d acts :
  Forall (fun c => pack_ok c = true) (q ++ all_arrivals acts) -> Forall (fun a => in_round (quits a) = false) acts ->
  exists k s, run_verilator acts (start t i di q [] g d) = Done (k, s).
Proof using design_ports eval_total Haddr.
  intros Hok Hq. unfold run_verilator. assert (exists s1, reset_top (start t i di q [] g d) = Done s1 /\ axi4_mems s1 = []) as (s1 & E & Hm).
  { unfold reset_top. destruct (reset_cycles_total 50 (start t i di q [] g d)) as (s1 & -> & Hm); [done|]. by eexists. }
  rewrite E. cbn [mbind outcome_bind]. apply running_start in E as [Hr Hk]. by eapply main_loop_total.
Qed.

End Channels.

End Sim.

(** ** Examples *)

(** A design that is always ready and leaves the memory channels alone. *)
Definition demo_din : Dma.dma_in := Dma.mk_din false false false false 0 false [].
Definition demo_dma : Dma.dma :=
  Dma.mk_dma false false false 0 0 0 0 0 0 0 false
    (Dma.mk_dout false (Dma.mk_daddr 0 0 0 0 0) false (Dma.mk_daddr 0 0 0 0 0) false [] false false false).
Definition demo_eval (t : unit) (c r : bool) (o : Axi.axi_out) (ms : list chan) (d : Dma.dma_out)
    : option (unit * Axi.axi_in * list chan * Dma.dma_in) := Some (tt, Axi.ready_in, ms, demo_din).

Definition demo_cmd : rocc_cmd := start_cmd 1 true 2 0 0 3 17 42 5.
Definition demo_flush : rocc_cmd := mk_rocc_cmd 0 0 ROCC_OP_FLUSH 0 0 0 0 0 0 0.
Definition quit_act (m : option moment) (cs : list rocc_cmd) : activity := mk_act cs m (fun g => g) (fun d => d) 0 0.
Definition demo_act : list rocc_cmd -> activity := quit_act None.
Abbreviation demo_run acts ms :=
  (run_verilator 8 small 0 4 8 12 16 20 (mk_pack_info 4 8) false true 250 demo_eval acts
    (start false true tt Axi.ready_in demo_din [demo_cmd] ms demo_world demo_dma)).

(** The commands arrive before the first round; the flush in the fortieth. *)
Definition demo_acts (n : nat) : list activity :=
  replicate 39 (demo_act []) ++ [demo_act [demo_flush]] ++ replicate n (demo_act []).
Definition ended {A} (o : outcome (bool * A)) : option bool := match o with Done (k, _) => Some k | _ => None end.

Lemma ended_done {A} (o : outcome (bool * A)) k : ended o = Some k -> exists s, o = Done (k, s).
Proof. destruct o as [[k' s]| | | |]; try done. intros [= ->]. by exists s. Qed.

Lemma demo_regs : NoDup [0; 4; 8; 12; 16; 20].
Proof. apply (bool_decide_eq_true_1 _). reflexivity. Qed.

Lemma demo_ports t c rs o ms d t' i ms' d' : demo_eval t c rs o ms d = Some (t', i, ms', d') -> Forall2 env ms ms'.
Proof. intros [= <- <- <- <-]. apply env_same. Qed.

Lemma demo_ok n : Forall (fun c => pack_ok c = true) ([demo_cmd] ++ all_arrivals (demo_acts n)).
Proof.
  unfold all_arrivals, demo_acts. rewrite !bind_app.
  assert (forall k, replicate k (demo_act []) ≫= arrivals = []) as H by (induction k as [|k IH]; [done|exact IH]).
  rewrite !H. cbn. by repeat constructor.
Qed.

(** The same commands, and a shutdown in the middle of writing the first. *)
Definition demo_stop : list activity := replicate 65 (demo_act []) ++ quit_act (Some BeforeCommand) [demo_cmd] :: demo_acts 9.

Lemma demo_stop_ok : Forall (fun c => pack_ok c = true) ([demo_cmd] ++ all_arrivals demo_stop).
Proof.
  assert (all_arrivals demo_stop = [demo_cmd; demo_flush]) as -> by (vm_compute; reflexivity).
  by repeat constructor.
Qed.

Lemma simulation_delivers_until_flush_witness :
  (exists s, demo_run (demo_acts 200) [] = Done (true, s) /\
    (flushed 0 4 true ([demo_cmd] ++ all_arrivals (demo_acts 200)) s \/ shut_down (demo_acts 200))) /\
  (exists s, demo_run demo_stop [] = Done (true, s) /\
    Axi.cmd_writes 0 4 (bus_of true (evals s)) `prefix_of`
      ([demo_cmd] ++ all_arrivals demo_stop) ≫= (fun c => Axi.beats 0 4 (Axi.words c))).
Proof.
  split.
  - destruct (ended_done (demo_run (demo_acts 200) []) true) as [s E]; [vm_compute; reflexivity|].
    exists s. split; [exact E|].
    exact (proj1 (proj2 (simulation_delivers_until_flush 8 small 0 4 8 12 16 20 (mk_pack_info 4 8) false true 250 demo_eval demo_regs
      tt Axi.ready_in demo_din [demo_cmd] [] demo_world demo_dma (demo_acts 200) true s (demo_ok 200) E))).
  - destruct (ended_done (demo_run demo_stop []) true) as [s E]; [vm_compute; reflexivity|].
    exists s. split; [exact E|].
    exact (proj1 (simulation_delivers_until_flush 8 small 0 4 8 12 16 20 (mk_pack_info 4 8) false true 250 demo_eval demo_regs
      tt Axi.ready_in demo_din [demo_cmd] [] demo_world demo_dma demo_stop true s demo_stop_ok E)).
Defined.

(** How many register writes the design has taken over. *)
Definition written {A} (evs : A -> list eval_event) (o : outcome (bool * A)) : option (bool * nat) :=
  match o with Done (k, s) => Some (k, length (Axi.cmd_writes 0 4 (bus_of true (evs s)))) | _ => None end.

(** A shutdown while a command is being written: the loop ends at its next test, and
    the rest of the command and the one that came after it are never written. *)
Lemma shutdown_drops_commands :
  exists n, written evals (demo_run demo_stop []) = Some (true, n) /\ (n < 10)%nat.
Proof. eexists. split; [vm_compute; reflexivity|lia]. Qed.

(** A shutdown in a round in which the controller looks at its queue: the server has
    kept the lock, and the round never ends. *)
Lemma shutdown_may_block :
  demo_run (replicate 54 (demo_act []) ++ [quit_act (Some BeforeCommand) []]) [] = Stuck.
Proof. vm_compute. reflexivity. Qed.

Definition demo_idle : list activity := replicate 9 (demo_act []).

Lemma clock_of_the_simulation_witness :
  exists s, demo_run (demo_act [] :: demo_idle) [] = Done (false, s) /\
    edges true (evals s) = (false, (50%nat, 9%nat)) /\ StronglySorted Z.lt (dumps s).
Proof.
  destruct (ended_done (demo_run (demo_act [] :: demo_idle) []) false) as [s E]; [vm_compute; reflexivity|].
  exists s. split; [exact E|].
  destruct (clock_of_the_simulation 8 small 0 4 8 12 16 20 (mk_pack_info 4 8) false true 250 demo_eval
    tt Axi.ready_in demo_din [demo_cmd] [] demo_world demo_dma (demo_act []) demo_idle s
    ltac:(lia) ltac:(vm_compute; reflexivity) E) as (He & _ & Hs). split; [exact He|exact Hs].
Defined.

Lemma simulation_refines_channels_witness :
  exists s, demo_run demo_idle [idle_chan (fun _ => 0%nat)] = Done (false, s) /\ Forall chan_inv (axi4_mems s).
Proof.
  destruct (ended_done (demo_run demo_idle [idle_chan (fun _ => 0%nat)]) false) as [s E]; [vm_compute; reflexivity|].
  exists s. split; [exact E|].
  refine (proj2 (simulation_refines_channels 8 small 0 4 8 12 16 20 (mk_pack_info 4 8) false true 250 demo_eval demo_ports
    tt Axi.ready_in demo_din [demo_cmd] [idle_chan (fun _ => 0%nat)] demo_world demo_dma demo_idle false s _ E)).
  constructor; [|constructor]. by split_and!.
Defined.

Lemma demo_no_quit n : Forall (fun a => in_round (quits a) = false) (demo_acts n).
Proof.
  unfold demo_acts. apply Forall_app. split; [by apply Forall_replicate|].
  apply Forall_app. split; [by repeat constructor|by apply Forall_replicate].
Qed.

Lemma simulation_without_memory_runs_witness : exists k s, demo_run (demo_acts 500) [] = Done (k, s).
Proof.
  exact (simulation_without_memory_runs 8 small 0 4 8 12 16 20 (mk_pack_info 4 8) false true 250 demo_eval demo_regs demo_ports
    (fun _ _ _ _ _ _ => ltac:(eexists; reflexivity)) tt Axi.ready_in demo_din [demo_cmd] demo_world demo_dma (demo_acts 500) (demo_ok 500) (demo_no_quit 500)).
Defined.

End Sim.
