(* ===== verification/DdrClock.v ===== *)
(** * The clock of the memory

    How many clocks of the DRAM fall into one clock of the design: the accumulator
    of [runtime/src/core/tick.cc] and the increments that the front ends compute
    ([verilator_axi_frontend.cc], [vpi_axi_frontend.cc]), in binary32 and binary64,
    put in front of the rounds of the main loop ([SimLoop]). *)

From Stdlib Require Import Floats.SpecFloat.
From S2P Require Import Prelude Fp.

Module DdrClock.
Import Fp.

(** [const float DDR_CLOCK = 1000.0 / tCK; ddr_clock_inc = DDR_CLOCK / FPGA_CLOCK]. *)
Definition ddr_clock_inc (tCK : double) (FPGA_CLOCK : Z) : float :=
  fdiv (f_of_d (ddiv (d_of_Z 1000) tCK)) (f_of_Z FPGA_CLOCK).

(** [ddr_clock_inc = (1000.0 / tCK) / DEFAULT_PL_CLOCK], rounded once at the end. *)
Definition vpi_ddr_clock_inc (tCK : double) (DEFAULT_PL_CLOCK : Z) : float :=
  f_of_d (ddiv (ddiv (d_of_Z 1000) tCK) (d_of_Z DEFAULT_PL_CLOCK)).

(** The accumulator: the whole clocks that are due, and the rest; a negative number
    of clocks runs none. *)
Definition ddr_step (inc acc : float) : outcome (nat * float) :=
  let acc' := fadd acc inc in
  n ← int_of (truncZ acc');
  Done (Z.to_nat n, fsub acc' (f_of_Z n)).

Fixpoint ddr_schedule (n : nat) (inc acc : float) : outcome (list nat * float) :=
  match n with
  | O => Done ([], acc)
  | S n' =>
      '(k, acc1) ← ddr_step inc acc;
      '(ks, acc2) ← ddr_schedule n' inc acc1;
      Done (k :: ks, acc2)
  end.

(** The rounds of a schedule with the clocks that the accumulator gives them: the
    activities of the main loop of [SimLoop]. *)
Definition timed {A} (set_ticks : A -> nat -> A) (inc : float) (acts : list A) : outcome (list A) :=
  '(ks, _) ← ddr_schedule (length acts) inc (S754_zero false);
  Done (zip_with set_ticks acts ks).

Lemma ddr_schedule_length n : forall inc acc ks acc', ddr_schedule n inc acc = Done (ks, acc') -> length ks = n.
Proof.
  induction n as [|n IH]; intros inc acc ks acc' H; cbn [ddr_schedule] in H; [by injection H as <- <-|].
  apply bind_Done in H as ([k acc1] & _ & H). apply bind_Done in H as ([ks1 acc2] & H & E). injection E as <- <-.
  cbn. f_equal. by apply (IH inc acc1 ks1 acc2).
Qed.

(** A schedule in two parts: the accumulator carries the rest over. *)
Lemma ddr_schedule_app n m inc : forall acc ks acc',
  ddr_schedule (n + m) inc acc = Done (ks, acc') <->
  exists k1 k2 a, ddr_schedule n inc acc = Done (k1, a) /\ ddr_schedule m inc a = Done (k2, acc') /\ ks = k1 ++ k2.
Proof.
  induction n as [|n IH]; intros acc ks acc'.
  { cbn. split; [intros H; by exists [], ks, acc|]. by intros (k1 & k2 & a & [= <- <-] & H & ->). }
  cbn [Nat.add ddr_schedule]. split.
  - intros H. apply bind_Done in H as ([k a1] & E1 & H). apply bind_Done in H as ([ks1 a2] & E2 & [= <- <-]).
    apply IH in E2 as (k1 & k2 & a & H1 & H2 & ->). exists (k :: k1), k2, a. rewrite E1. cbn [mbind outcome_bind]. by rewrite H1.
  - intros (k1 & k2 & a & H1 & H2 & ->). apply bind_Done in H1 as ([k a1] & E1 & H1). apply bind_Done in H1 as ([ks1 a2] & E2 & [= <- <-]).
    rewrite E1. cbn [mbind outcome_bind]. assert (ddr_schedule (n + m) inc a1 = Done (ks1 ++ k2, acc')) as -> by (apply IH; by exists ks1, k2, a2).
    done.
Qed.

(** DDR4-2400 ([tCK = 0.83]) next to a design at 250 MHz: 4.8 clocks of the memory to
    one of the design, and of 1000 the 4819 that the quotient has. *)
#[local] Abbreviation demo_run := (ddr_schedule 1000 (ddr_clock_inc (scaled false 83 10 (-2)) 250) (S754_zero false)).

Example ddr4_rate : exists acc ks, demo_run = Done (ks, acc) /\
  foldr Nat.add 0%nat ks = Z.to_nat 4819 /\ Forall (fun k => k = 4%nat \/ k = 5%nat) ks.
Proof.
  assert (match demo_run with
    | Done (l, _) => bool_decide (foldr Nat.add 0%nat l = Z.to_nat 4819) && forallb (fun k => (k =? 4)%nat || (k =? 5)%nat) l
    | _ => false end = true) as H by (vm_compute; reflexivity).
  destruct demo_run as [[ks acc]| | | |]; [|discriminate H..]. exists acc, ks. split; [done|].
  apply andb_prop in H as [H1 H2]. split; [by apply bool_decide_eq_true_1 in H1|].
  apply Forall_forall. intros k Hk. rewrite forallb_forall in H2.
  specialize (H2 k ltac:(by apply list_elem_of_In)). apply orb_prop in H2 as [H2|H2]; apply Nat.eqb_eq in H2; tauto.
Qed.

(** The two front ends round differently and can give the memory another rate: at
    300 MHz for [tCK = 0.94]. *)
Example front_ends_round_differently :
  ddr_clock_inc (scaled false 94 10 (-2)) 300 <> vpi_ddr_clock_inc (scaled false 94 10 (-2)) 300.
Proof. vm_compute. discriminate. Qed.

End DdrClock.
