(* ===== verification/VpiFront.v ===== *)
(** * The front ends of event-driven simulators

    [runtime/src/frontends/axi/vpi_axi_frontend.cc] and
    [runtime/src/frontends/chipkit/vcs_chipkit_frontend.cc]: the system tasks a test
    bench calls.  Two of them collect the nets of the design, [$init_structures] ties
    them to the channels by name and drives the ports that stay constant, and [$tick]
    runs a cycle of the runtime.  The simulator behind the VPI is a parameter: the
    class [Vpi] of [Channels] and the names of the nets.

    The tying of nets is a list of actions in the order of the source; the arguments
    of a call, whose order is not specified, have no effect besides the exit when a
    net is missing. *)

From Stdlib Require Import String.
From S2P Require Import Prelude RoccCmd AxiCtrl Channels MemCtrl Tick DmaEngine SimLoop ChipkitUart.

Module VpiFront.
Import Channels.

Inductive action :=
| Short (name : string)             (* VCSShortHandle(getHandle(name)) *)
| Long (name : string)              (* VCSLongHandle(getHandle(name)) *)
| Find (name : string)              (* getHandle(name) *)
| Put (name : string) (v : Z).      (* vpi_put_value(getHandle(name), v) *)

#[local] Open Scope string_scope.

(** ** The actions of the sources *)

(** The seven nets of an address channel, [addr] as its address handle. *)
Definition address_nets (addr : string -> action) (p : string) : list action :=
  [Short (p ++ "ready"); Short (p ++ "valid"); Short (p ++ "id"); Short (p ++ "size"); Short (p ++ "burst");
   addr (p ++ "addr"); Short (p ++ "len")].

(** The nets of one memory port or of the DMA port. *)
Definition port_nets (addr : string -> action) (p : string) : list action :=
  (address_nets addr (p ++ "ar") ++ address_nets addr (p ++ "aw") ++
  [Short (p ++ "wready"); Short (p ++ "wvalid"); Short (p ++ "wlast"); Long (p ++ "wstrb"); Long (p ++ "wdata");
   Short (p ++ "rready"); Short (p ++ "rvalid"); Short (p ++ "rlast"); Short (p ++ "rid"); Long (p ++ "rdata");
   Short (p ++ "bready"); Short (p ++ "bvalid"); Short (p ++ "bid")])%list.

Definition mem_actions : list action :=
  (port_nets Long "M00_AXI_" ++ [Put "M00_AXI_rvalid" 0; Put "M00_AXI_bvalid" 0])%list.
Definition dma_actions : list action := port_nets Long "dma_".

Definition s00 (n : string) : string := "S00_AXI_" ++ n.

(** The constant ports of the control bus. *)
Definition constant_actions : list action :=
  (map (fun n => Put (s00 n) 0)%Z
     ["arburst"; "arcache"; "arid"; "arlen"; "arlock"; "arprot"; "arqos"; "arregion"; "arvalid"] ++
   [Put (s00 "arsize") 2] ++
   map (fun n => Put (s00 n) 0)%Z
     ["awburst"; "awcache"; "awid"; "awlen"; "awlock"; "awprot"; "awqos"; "awregion"; "awvalid"] ++
   [Put (s00 "awsize") 2; Put (s00 "wlast") 1; Put (s00 "wstrb") 15;
    Put (s00 "wvalid") 0; Put (s00 "rready") 0; Put (s00 "bvalid") 0])%list.

Definition control_actions : list action :=
  [Short (s00 "arvalid"); Short (s00 "arready"); Long (s00 "araddr");
   Short (s00 "awvalid"); Short (s00 "awready"); Long (s00 "awaddr");
   Short (s00 "wvalid"); Short (s00 "wready"); Long (s00 "wdata");
   Short (s00 "rready"); Short (s00 "rvalid"); Long (s00 "rdata");
   Short (s00 "bready"); Short (s00 "bvalid")].

Definition axi_actions (has_mem has_dma : bool) : list action :=
  ((if has_mem then mem_actions else []) ++ (if has_dma then dma_actions else []) ++
  [Find (s00 "awid"); Find (s00 "arid")] ++ constant_actions ++ control_actions)%list.

(** [$init_structures] of the chipkit front end. *)
Definition chip_actions (has_mem : bool) (baud_sel : Z) : list action :=
  ((if has_mem then port_nets Short "M00_AXI_" else []) ++
  [Short "CHIP_UART_M_RXD"; Short "CHIP_UART_M_TXD"; Short "STDUART_uart_rxd"; Short "STDUART_uart_txd";
   Find "reset"; Put "CHIP_ASPSEL" 0; Put "CHIP_SCLK1" 0; Put "CHIP_SCLK2" 0; Put "CHIP_SHIFTIN" 0;
   Put "CHIP_SHIFTOUT" 0; Put "CHIP_FESEL" 0; Put "CHIP_UART_M_CTS" 0; Put "CHIP_UART_M_CTS" baud_sel;
   Put "CHIP_UART_M_RXD" 1; Put "STDUART_uart_rxd" 1])%list.

#[local] Close Scope string_scope.

(** ** The nets *)

Section Nets.
Context {N : Type} `{Vpi N}.
Variable vpi_name : N -> string.          (* vpi_get_str(vpiName, _) *)

(** The handles the test bench passed, and the nets they stand for. *)
Record front := mk_front { inputs : list nat; outputs : list nat; nets : gmap nat N }.

Definition init_input_signals (args : list nat) (f : front) : front :=
  mk_front (inputs f ++ args) (outputs f) (nets f).
Definition init_output_signals (args : list nat) (f : front) : front :=
  mk_front (inputs f) (outputs f ++ args) (nets f).

(** The first handle of a list whose net has the name. *)
Fixpoint find_handle (f : front) (name : string) (hs : list nat) : option (nat * N) :=
  match hs with
  | [] => None
  | h :: hs' =>
      match nets f !! h with
      | Some n => if String.eqb (vpi_name n) name then Some (h, n) else find_handle f name hs'
      | None => find_handle f name hs'
      end
  end.

Definition getHandle (f : front) (name : string) : outcome (nat * N) :=
  match find_handle f name (inputs f) with
  | Some x => Done x
  | None => match find_handle f name (outputs f) with Some x => Done x | None => Exit 1 end
  end.

Definition exec (a : action) (f : front) : outcome front :=
  match a with
  | Short name => '(_, n) ← getHandle f name; _ ← short_handle n; Done f
  | Long name | Find name => _ ← getHandle f name; Done f
  | Put name v =>
      '(h, n) ← getHandle f name;
      Done (mk_front (inputs f) (outputs f) (<[h := vpi_put_int v n]> (nets f)))
  end.

Fixpoint exec_all (l : list action) (f : front) : outcome front :=
  match l with
  | [] => Done f
  | a :: l' => f' ← exec a f; exec_all l' f'
  end.

(** ** What initialisation does *)

(** Driving a net changes neither its name nor its size. *)
Hypothesis vpi_name_put : forall v n, vpi_name (vpi_put_int v n) = vpi_name n.
Hypothesis vpi_size_put : forall v n, vpi_size (vpi_put_int v n) = vpi_size n.

(** The values a list of actions drives onto a name, in order. *)
Definition puts (name : string) (l : list action) : list Z :=
  omap (fun a => match a with Put m v => if String.eqb m name then Some v else None | _ => None end) l.
Definition drive (vs : list Z) (n : N) : N := fold_left (fun n v => vpi_put_int v n) vs n.

Lemma find_handle_Some f name hs h n : find_handle f name hs = Some (h, n) -> nets f !! h = Some n /\ vpi_name n = name.
Proof.
  induction hs as [|x hs IH]; cbn [find_handle]; [done|]. destruct (nets f !! x) as [m|] eqn:Ex; [|done].
  destruct (String.eqb_spec (vpi_name m) name); [|done]. by intros [= <- <-].
Qed.

Lemma getHandle_Done f name h n : getHandle f name = Done (h, n) -> nets f !! h = Some n /\ vpi_name n = name.
Proof.
  unfold getHandle. destruct (find_handle f name (inputs f)) as [x|] eqn:E; [intros [= ->]; by apply find_handle_Some in E|].
  destruct (find_handle f name (outputs f)) as [x|] eqn:E2; [intros [= ->]; by apply find_handle_Some in E2|done].
Qed.

Lemma getHandle_total f name : (exists h n, getHandle f name = Done (h, n)) \/ getHandle f name = Exit 1.
Proof.
  unfold getHandle. destruct (find_handle f name (inputs f)) as [[h n]|]; [left; eauto|].
  destruct (find_handle f name (outputs f)) as [[h n]|]; [left; eauto|by right].
Qed.

Definition put_net (h : nat) (v : Z) (n : N) (f : front) : front :=
  mk_front (inputs f) (outputs f) (<[h := vpi_put_int v n]> (nets f)).

(** Driving one net does not change which net a name stands for. *)
Lemma find_handle_put f h0 n0 v name hs : nets f !! h0 = Some n0 ->
  find_handle (put_net h0 v n0 f) name hs =
  match find_handle f name hs with
  | Some (h, n) => Some (h, if bool_decide (h = h0) then vpi_put_int v n0 else n)
  | None => None
  end.
Proof using vpi_name_put.
  intros Hn. induction hs as [|x hs IH]; cbn [find_handle]; [done|]. cbn [nets put_net].
  destruct (decide (x = h0)) as [->|Hx].
  - rewrite lookup_insert_eq, Hn, vpi_name_put. destruct (String.eqb (vpi_name n0) name); [|done]. by rewrite bool_decide_true.
  - rewrite lookup_insert_ne by done. destruct (nets f !! x) as [m|]; [|done].
    destruct (String.eqb (vpi_name m) name); [|done]. by rewrite bool_decide_false.
Qed.

Lemma getHandle_put f h0 n0 v name : nets f !! h0 = Some n0 ->
  getHandle (put_net h0 v n0 f) name =
  ('(h, n) ← getHandle f name; Done (h, if bool_decide (h = h0) then vpi_put_int v n0 else n)).
Proof using vpi_name_put.
  intros Hn. unfold getHandle. cbn [inputs outputs put_net]. rewrite !find_handle_put by done.
  destruct (find_handle f name (inputs f)) as [[h n]|]; [done|]. by destruct (find_handle f name (outputs f)) as [[h n]|].
Qed.

(** Whether an action finds its net, and the net fits its handle. *)
Definition bound (f : front) (a : action) : bool :=
  match a with
  | Short name => match getHandle f name with Done (_, n) => Z.shiftr (vpi_size n) 5 <=? 1 | _ => false end
  | Long name | Find name | Put name _ => match getHandle f name with Done _ => true | _ => false end
  end.

Lemma bound_put f h0 n0 v a : nets f !! h0 = Some n0 -> bound (put_net h0 v n0 f) a = bound f a.
Proof using vpi_name_put vpi_size_put.
  intros Hn. unfold bound. destruct a as [nm|nm|nm|nm w]; rewrite getHandle_put by done;
    destruct (getHandle f nm) as [[h n]| | | |] eqn:E; try done. cbn [mbind outcome_bind]. case_bool_decide as Hb; [|done].
  apply getHandle_Done in E as [E _]. subst h. rewrite vpi_size_put. congruence.
Qed.

Lemma exec_bound a f : if bound f a then exists f', exec a f = Done f' /\ forall b, bound f' b = bound f b else exec a f = Exit 1.
Proof using vpi_name_put vpi_size_put.
  destruct a as [nm|nm|nm|nm w]; cbn [bound exec]; (destruct (getHandle_total f nm) as [(h & n & E)|E]; rewrite E; cbn [mbind outcome_bind]); try done.
  - unfold short_handle. destruct (Z.leb_spec (Z.shiftr (vpi_size n) 5) 1), (Z.gtb_spec (Z.shiftr (vpi_size n) 5) 1); try lia; [by exists f|done].
  - by exists f.
  - by exists f.
  - apply getHandle_Done in E as [E _]. eexists. split; [done|]. intros b. by apply bound_put.
Qed.

Lemma exec_all_bound l : forall f,
  if forallb (bound f) l then exists f', exec_all l f = Done f' else exec_all l f = Exit 1.
Proof using vpi_name_put vpi_size_put.
  induction l as [|a l IH]; intros f; cbn [forallb exec_all]; [by exists f|].
  pose proof (exec_bound a f) as Ha. destruct (bound f a); cbn [andb]; [|by rewrite Ha].
  destruct Ha as (f' & -> & Hb). cbn [mbind outcome_bind]. specialize (IH f').
  assert (forallb (bound f') l = forallb (bound f) l) as <- by (clear -Hb; induction l as [|b l IHl]; cbn; [done|by rewrite Hb, IHl]).
  done.
Qed.

Lemma exec_all_nets l : forall f f' name h n, exec_all l f = Done f' -> getHandle f name = Done (h, n) ->
  getHandle f' name = Done (h, drive (puts name l) n).
Proof using vpi_name_put.
  induction l as [|a l IH]; intros f f' name h n; cbn [exec_all]; [by intros [= <-]|].
  destruct (exec a f) as [f1| | | |] eqn:E; try done. cbn [mbind outcome_bind]. intros Hl Hg. revert E.
  destruct a as [nm|nm|nm|nm v]; cbn [exec]; destruct (getHandle f nm) as [[h1 n1]| | | |] eqn:E1; try done; cbn [mbind outcome_bind].
  - destruct (short_handle n1); try done. cbn [mbind outcome_bind]. intros [= <-]. by apply (IH f).
  - intros [= <-]. by apply (IH f).
  - intros [= <-]. by apply (IH f).
  - intros [= <-]. change (puts name (Put nm v :: l)) with
      (match (if String.eqb nm name then Some v else None) with Some x => x :: puts name l | None => puts name l end).
    pose proof (getHandle_Done _ _ _ _ E1) as [Hn1 Hm1]. pose proof (getHandle_Done _ _ _ _ Hg) as [Hn Hm].
    destruct (String.eqb_spec nm name) as [->|Hne].
    + rewrite E1 in Hg. injection Hg as -> ->. cbn [drive fold_left]. eapply IH; [exact Hl|].
      change (getHandle (put_net h v n f) name = Done (h, vpi_put_int v n)). rewrite getHandle_put, E1 by done. cbn [mbind outcome_bind].
      by rewrite bool_decide_true.
    + eapply IH; [exact Hl|]. change (getHandle (put_net h1 v n1 f) name = Done (h, n)). rewrite getHandle_put, Hg by done. cbn [mbind outcome_bind].
      rewrite bool_decide_false; [done|]. intros ->. congruence.
Qed.

(** [$init_structures] succeeds exactly when the test bench passed every net the
    front end ties, and those tied through a 32-bit handle are narrower than 64 bits;
    otherwise the simulation exits with status 1.  When it succeeds every net has the
    values driven on it in their order, and a net that is not driven is as it was. *)
Theorem init_structures_iff l f :
  (if forallb (bound f) l then exists f', exec_all l f = Done f' else exec_all l f = Exit 1) /\
  forall f' name h n, exec_all l f = Done f' -> getHandle f name = Done (h, n) ->
    getHandle f' name = Done (h, drive (puts name l) n).
Proof using vpi_name_put vpi_size_put. split; [apply exec_all_bound|]. intros. by eapply exec_all_nets. Qed.

(** The AXI front end drives the valid output of the write response channel of the
    control bus, which belongs to the design, and leaves the ready input alone. *)
Theorem bready_is_not_driven f f' m d hb nb hv nv :
  exec_all (axi_actions m d) f = Done f' ->
  getHandle f (s00 "bready") = Done (hb, nb) -> getHandle f (s00 "bvalid") = Done (hv, nv) ->
  getHandle f' (s00 "bready") = Done (hb, nb) /\ getHandle f' (s00 "bvalid") = Done (hv, vpi_put_int 0 nv).
Proof using vpi_name_put.
  intros Hf Hb Hv. split; [rewrite (exec_all_nets _ _ _ _ _ _ Hf Hb)|rewrite (exec_all_nets _ _ _ _ _ _ Hf Hv)]; by destruct m, d.
Qed.

(** The chipkit front end drives the selected baud rate onto the clear-to-send pin,
    after the zero it had put there, and never onto the pin for the baud rate. *)
Theorem baud_rate_on_cts f f' m sel hc nc hs ns :
  exec_all (chip_actions m sel) f = Done f' ->
  getHandle f "CHIP_UART_M_CTS" = Done (hc, nc) -> getHandle f "CHIP_UART_M_BAUD_SEL" = Done (hs, ns) ->
  getHandle f' "CHIP_UART_M_CTS" = Done (hc, vpi_put_int sel (vpi_put_int 0 nc)) /\
  getHandle f' "CHIP_UART_M_BAUD_SEL" = Done (hs, ns).
Proof using vpi_name_put.
  intros Hf Hc Hs. split; [rewrite (exec_all_nets _ _ _ _ _ _ Hf Hc)|rewrite (exec_all_nets _ _ _ _ _ _ Hf Hs)]; by destruct m.
Qed.

End Nets.

(** ** The constants of the two AXI front ends *)

(** What the Verilator front end assigns to the inputs of the control bus before the
    loop. *)
Definition verilator_constants : list (string * Z) :=
  map (fun n => (s00 n, 0)) ["awvalid"; "wvalid"; "rready"; "arvalid"; "bready"]%string ++
  map (fun n => (s00 n, 0)) ["arregion"; "arqos"; "arprot"; "arcache"; "arlock"; "arlen"]%string ++
  [(s00 "arsize", 2); (s00 "arburst", 0)] ++
  map (fun n => (s00 n, 0)) ["awregion"; "awqos"; "awprot"; "awcache"; "awlock"; "awlen"]%string ++
  [(s00 "awsize", 2); (s00 "awburst", 0); (s00 "wlast", 1); (s00 "wstrb", 15)].

Definition vpi_constants : list (string * Z) :=
  omap (fun a => match a with Put n v => Some (n, v) | _ => None end) constant_actions.

(** The two front ends give the constant ports of the control bus the same values,
    but for four of them: only Verilator's drives the ready input of the write
    responses, and only the other one drives the two identifiers, which are zero
    anyway, and the valid output of the write responses. *)
Theorem front_ends_agree :
  filter (fun e => e ∉ vpi_constants) verilator_constants = [(s00 "bready", 0)] /\
  filter (fun e => e ∉ verilator_constants) vpi_constants = [(s00 "arid", 0); (s00 "awid", 0); (s00 "bvalid", 0)] /\
  NoDup (map fst vpi_constants) /\ NoDup (map fst verilator_constants).
Proof. split_and!; [vm_compute; reflexivity..| |]; apply (bool_decide_eq_true_1 _); vm_compute; reflexivity. Qed.

(** ** [$tick] *)

Section Ticks.
Context {id_t axisize_t burst_t addr_t len_t strb_t byte_t data_t D T : Type}.
Context `{Wire id_t, Wire axisize_t, Wire burst_t, ChunkWire addr_t, Wire addr_t, Wire len_t,
          ChunkWire strb_t, Wire byte_t, DataWire data_t, MemCtrl.DramSystem D}.
Variable W : Z.
Variable cfg : MemCtrl.mem_cfg.
Variable CMD_BITS CMD_VALID CMD_READY RESP_BITS RESP_VALID RESP_READY : Z.
Variable pack_cfg : RoccCmd.Rocc.beethoven_pack_info.
Variable has_dma : bool.
Variable DEFAULT_PL_CLOCK : Z.
Abbreviation sim := (@Sim.sim id_t axisize_t burst_t addr_t len_t strb_t byte_t data_t D T).

(** The simulator calls the task at each clock; the first 100000 picoseconds are
    left to the reset of the test bench.  [quits] is the command server's as in
    [SimLoop]. *)
Definition tick_calltf (quits : option Sim.moment) (ddr_ticks : nat) (rnd : Z) (s : sim) : outcome sim :=
  let s := Sim.advance DEFAULT_PL_CLOCK s in
  if 100000 <? Sim.main_time s
  then Sim.tick_signals W cfg CMD_BITS CMD_VALID CMD_READY RESP_BITS RESP_VALID RESP_READY pack_cfg has_dma quits ddr_ticks rnd s
  else Done s.

Fixpoint tick_calls (l : list (option Sim.moment * nat * Z)) (s : sim) : outcome sim :=
  match l with
  | [] => Done s
  | (q, n, x) :: l' => s' ← tick_calltf q n x s; tick_calls l' s'
  end.

Definition later (k : nat) (s : sim) : sim := Nat.iter k (Sim.advance DEFAULT_PL_CLOCK) s.

Lemma later_time k s : 0 <= Sim.fpga_clock_inc DEFAULT_PL_CLOCK -> Sim.main_time s = 0 ->
  Sim.fpga_clock_inc DEFAULT_PL_CLOCK * Z.of_nat k < 2 ^ 64 ->
  Sim.main_time (later k s) = Sim.fpga_clock_inc DEFAULT_PL_CLOCK * Z.of_nat k.
Proof.
  intros Hi Hs. induction k as [|k IH]; intros Hk; [by rewrite Z.mul_0_r|].
  change (later (S k) s) with (Sim.advance DEFAULT_PL_CLOCK (later k s)). cbn [Sim.advance Sim.main_time]. rewrite IH by nia.
  rewrite Sim.u64_next by nia. f_equal. lia.
Qed.

(** The runtime leaves the design alone for the first 100000 picoseconds: the
    calls of the task before that only count the time, and the first one after it
    runs a cycle. *)
Theorem ticks_start_after_reset l q n x s :
  let inc := Sim.fpga_clock_inc DEFAULT_PL_CLOCK in
  0 < inc <= 2 ^ 32 -> Sim.main_time s = 0 -> inc * Z.of_nat (length l) <= 100000 ->
  tick_calls l s = Done (later (length l) s) /\
  (100000 < inc * Z.of_nat (S (length l)) ->
   tick_calltf q n x (later (length l) s) =
   Sim.tick_signals W cfg CMD_BITS CMD_VALID CMD_READY RESP_BITS RESP_VALID RESP_READY pack_cfg has_dma q n x
     (later (S (length l)) s)).
Proof.
  intros inc Hi Hs Hl. split.
  - assert (forall l k, inc * Z.of_nat (k + length l) <= 100000 -> tick_calls l (later k s) = Done (later (k + length l) s)) as Hk.
    { clear l Hl. induction l as [|[[p m] y] l IH]; intros k Hk; cbn [tick_calls length]; [by rewrite Nat.add_0_r|].
      unfold tick_calltf. change (Sim.advance DEFAULT_PL_CLOCK (later k s)) with (later (S k) s). cbn [length] in Hk.
      rewrite later_time by (subst inc; nia). destruct (Z.ltb_spec 100000 (Sim.fpga_clock_inc DEFAULT_PL_CLOCK * Z.of_nat (S k))).
      { subst inc. nia. } cbn [mbind outcome_bind]. rewrite IH by (subst inc; nia). do 2 f_equal. lia. }
    apply (Hk l 0%nat). exact Hl.
  - intros Hn. unfold tick_calltf. change (Sim.advance DEFAULT_PL_CLOCK (later (length l) s)) with (later (S (length l)) s).
    rewrite later_time by (subst inc; nia). destruct (Z.ltb_spec 100000 (Sim.fpga_clock_inc DEFAULT_PL_CLOCK * Z.of_nat (S (length l)))); [done|].
    subst inc. lia.
Qed.

End Ticks.

(** [$tick] of the chipkit front end. *)
Definition chip_tick_calltf (baud_div : Z) (active_reset : bool) (dma_file trace_file : option (list Z)) (inc : Z)
    (front : Uart.tx) (st : Z * Uart.chip) : outcome (Z * Uart.chip) :=
  c ← Uart.tick_chip baud_div active_reset dma_file trace_file front st.2;
  Done (u64 (st.1 + inc), c).

(** ** Examples *)

(** Nets as a simulator keeps them. *)
Record net := mk_net { net_name : string; net_size : Z; net_value : Z }.
#[local] Instance net_vpi : Vpi net := {|
  vpi_size := net_size;
  vpi_int := net_value;
  vpi_vec n := [net_value n];
  vpi_put_int v n := mk_net (net_name n) (net_size n) v;
  vpi_put_vec vs n := mk_net (net_name n) (net_size n) (default 0 (head vs))
|}.

Definition net_of (a : action) : string := match a with Short n | Long n | Find n | Put n _ => n end.
Definition demo_front (l : list action) : front :=
  mk_front (seq 0 (length l)) [] (list_to_map (imap (fun i a => (i, mk_net (net_of a) 1 7)) l)).

Definition done {A} (o : outcome A) : bool := match o with Done _ => true | _ => false end.
Lemma done_exists {A} (o : outcome A) : done o = true -> exists x, o = Done x.
Proof. destruct o; try done. by eexists. Qed.

Lemma net_name_put v n : net_name (vpi_put_int v n) = net_name n.
Proof. done. Qed.
Lemma net_size_put v n : vpi_size (vpi_put_int v n) = vpi_size n.
Proof. done. Qed.

Lemma init_structures_iff_witness :
  exists f', exec_all net_name (chip_actions false 14) (demo_front (chip_actions false 14)) = Done f'.
Proof.
  exact (proj1 (init_structures_iff net_name net_name_put net_size_put (chip_actions false 14)
    (demo_front (chip_actions false 14)))).
Defined.

Lemma bready_is_not_driven_witness :
  exists f' hb hv, exec_all net_name (axi_actions false false) (demo_front (axi_actions false false)) = Done f' /\
    getHandle net_name f' (s00 "bready") = Done (hb, mk_net (s00 "bready") 1 7) /\
    getHandle net_name f' (s00 "bvalid") = Done (hv, mk_net (s00 "bvalid") 1 0).
Proof.
  destruct (done_exists (exec_all net_name (axi_actions false false) (demo_front (axi_actions false false)))) as [f' E];
    [vm_compute; reflexivity|].
  destruct (bready_is_not_driven net_name net_name_put (demo_front (axi_actions false false)) f' false false
    39 (mk_net (s00 "bready") 1 7) 26 (mk_net (s00 "bvalid") 1 7) E) as [Hb Hv]; [vm_compute; reflexivity..|].
  exists f', 39%nat, 26%nat. split_and!; [exact E|exact Hb|exact Hv].
Defined.

Definition chip_nets : list action := chip_actions false 14 ++ [Find "CHIP_UART_M_BAUD_SEL"%string].

Lemma baud_rate_on_cts_witness :
  exists f' hc hs, exec_all net_name (chip_actions false 14) (demo_front chip_nets) = Done f' /\
    getHandle net_name f' "CHIP_UART_M_CTS" = Done (hc, mk_net "CHIP_UART_M_CTS" 1 14) /\
    getHandle net_name f' "CHIP_UART_M_BAUD_SEL" = Done (hs, mk_net "CHIP_UART_M_BAUD_SEL" 1 7).
Proof.
  destruct (done_exists (exec_all net_name (chip_actions false 14) (demo_front chip_nets))) as [f' E];
    [vm_compute; reflexivity|].
  destruct (baud_rate_on_cts net_name net_name_put (demo_front chip_nets) f' false 14
    11 (mk_net "CHIP_UART_M_CTS" 1 7) 15 (mk_net "CHIP_UART_M_BAUD_SEL" 1 7) E) as [Hc Hs]; [vm_compute; reflexivity..|].
  exists f', 11%nat, 15%nat. split_and!; [exact E|exact Hc|exact Hs].
Defined.

#[local] Existing Instance Tick.toy_dram.
Definition demo_sim := Sim.start false true tt Axi.ready_in Sim.demo_din [] ([] : list Tick.chan) Tick.demo_world Sim.demo_dma.

Lemma ticks_start_after_reset_witness :
  tick_calls 8 Tick.small 0 4 8 12 16 20 (RoccCmd.Rocc.mk_pack_info 4 8) false 250 (replicate 50 (None, 1%nat, 0)) demo_sim
  = Done (later 250 50 demo_sim).
Proof.
  refine (proj1 (ticks_start_after_reset 8 Tick.small 0 4 8 12 16 20 (RoccCmd.Rocc.mk_pack_info 4 8) false 250
    (replicate 50 (None, 1%nat, 0)) None 0 0 demo_sim _ _ _)); [vm_compute; split; congruence|reflexivity|vm_compute; congruence].
Defined.

End VpiFront.
