(* ===== verification/DramCommon.v ===== *)
(** * DRAMsim3: addresses, commands and the configuration

    [runtime/DRAMsim3/include/dramsim3/common.h], [src/common.cc],
    [include/dramsim3/configuration.h] and [src/configuration.cc].  The settings
    come from an INI file; the reader is the class [Reader] here.  The
    floating-point settings are in [Power] and [Thermal]. *)

From S2P Require Import Prelude.

Module Dram.

(** ** [common.h] *)

Record Address := mk_addr {
  channel : Z;
  rank : Z;
  bankgroup : Z;
  bank : Z;
  row : Z;
  column : Z
}.

Definition no_address : Address := mk_addr (-1) (-1) (-1) (-1) (-1) (-1).

#[export] Instance Address_eq_dec : EqDecision Address.
Proof. solve_decision. Defined.

(** The [bit_width] bits of [addr] from [pos] on. *)
Definition ModuloWidth (addr bit_width pos : Z) : Z :=
  let a := Z.shiftr addr pos in
  u32 (Z.lxor a (u64 (Z.shiftl (Z.shiftr a bit_width) bit_width))).

Definition GetBitInPos (bits pos : Z) : Z := Z.land (Z.shiftr bits pos) 1.

(** The loop halves until 1 is left; 31 rounds are enough for an [int]. *)
Fixpoint LogBase2_loop (fuel : nat) (p i : Z) : Z :=
  match fuel with
  | O => i
  | S fuel' => if p >? 1 then LogBase2_loop fuel' (Z.quot p 2) (i + 1) else i
  end.
Definition LogBase2 (power_of_two : Z) : Z := LogBase2_loop 31 power_of_two 0.

(** [StringSplit]: the non-empty pieces between delimiters. *)
Fixpoint split_loop (s : list Ascii.ascii) (delim : Ascii.ascii) (cur : list Ascii.ascii)
    : list (list Ascii.ascii) :=
  match s with
  | [] => if bool_decide (cur = []) then [] else [cur]
  | c :: s' =>
      if Ascii.eqb c delim
      then (if bool_decide (cur = []) then [] else [cur]) ++ split_loop s' delim []
      else split_loop s' delim (cur ++ [c])
  end.
Definition StringSplit (s : list Ascii.ascii) (delim : Ascii.ascii) : list (list Ascii.ascii) :=
  split_loop s delim [].

Inductive CommandType :=
| READ | READ_PRECHARGE | WRITE | WRITE_PRECHARGE | ACTIVATE | PRECHARGE
| REFRESH_BANK | REFRESH | SREF_ENTER | SREF_EXIT | SIZE.

#[export] Instance CommandType_eq_dec : EqDecision CommandType.
Proof. solve_decision. Defined.

(** [static_cast<int>(cmd_type)], the index into the timing tables. *)
Definition cmd_index (t : CommandType) : Z :=
  match t with
  | READ => 0 | READ_PRECHARGE => 1 | WRITE => 2 | WRITE_PRECHARGE => 3 | ACTIVATE => 4
  | PRECHARGE => 5 | REFRESH_BANK => 6 | REFRESH => 7 | SREF_ENTER => 8 | SREF_EXIT => 9
  | SIZE => 10
  end.

Record Command := mk_cmd { cmd_type : CommandType; cmd_addr : Address; hex_addr : Z }.

#[export] Instance Command_eq_dec : EqDecision Command.
Proof. solve_decision. Defined.

(** [Command()]: no command. *)
Definition no_command : Command := mk_cmd SIZE no_address 0.

Definition IsValid (c : Command) : bool := negb (bool_decide (cmd_type c = SIZE)).
Definition IsRefresh (c : Command) : bool :=
  match cmd_type c with REFRESH | REFRESH_BANK => true | _ => false end.
Definition IsRead (c : Command) : bool :=
  match cmd_type c with READ | READ_PRECHARGE => true | _ => false end.
Definition IsWrite (c : Command) : bool :=
  match cmd_type c with WRITE | WRITE_PRECHARGE => true | _ => false end.
Definition IsReadWrite (c : Command) : bool := IsRead c || IsWrite c.
Definition IsRankCMD (c : Command) : bool :=
  match cmd_type c with REFRESH | SREF_ENTER | SREF_EXIT => true | _ => false end.

Definition Channel (c : Command) : Z := channel (cmd_addr c).
Definition Rank (c : Command) : Z := rank (cmd_addr c).
Definition Bankgroup (c : Command) : Z := bankgroup (cmd_addr c).
Definition Bank (c : Command) : Z := bank (cmd_addr c).
Definition Row (c : Command) : Z := row (cmd_addr c).
Definition Column (c : Command) : Z := column (cmd_addr c).

Record Transaction := mk_trans {
  t_addr : Z;
  added_cycle : Z;
  complete_cycle : Z;
  is_write : bool
}.

Definition new_transaction (a : Z) (wr : bool) : Transaction := mk_trans a 0 0 wr.

(** [AbruptExit]: a diagnostic and [std::exit(-1)]. *)
Definition AbruptExit {A} : outcome A := Exit (-1).

(** ** [configuration.h] *)

Inductive DRAMProtocol :=
| DDR3 | DDR4 | GDDR5 | GDDR5X | GDDR6 | LPDDR | LPDDR3 | LPDDR4 | HBM | HBM2 | HMC.

#[export] Instance DRAMProtocol_eq_dec : EqDecision DRAMProtocol.
Proof. solve_decision. Defined.

Inductive RefreshPolicy := RANK_LEVEL_SIMULTANEOUS | RANK_LEVEL_STAGGERED | BANK_LEVEL_STAGGERED.

Definition is_gddr (p : DRAMProtocol) : bool := match p with GDDR5 | GDDR5X | GDDR6 => true | _ => false end.
Definition is_hbm (p : DRAMProtocol) : bool := match p with HBM | HBM2 => true | _ => false end.
Definition is_hmc (p : DRAMProtocol) : bool := match p with HMC => true | _ => false end.
Definition is_ddr4 (p : DRAMProtocol) : bool := match p with DDR4 => true | _ => false end.

(** What the configuration asks of the INI reader. *)
Class Reader (R : Type) := {
  rd_get : R -> string -> string -> string -> string;
  rd_integer : R -> string -> string -> Z -> Z;
  rd_boolean : R -> string -> string -> bool -> bool
}.

(** The parameters of [InitSystemParams]. *)
Record SystemParams := mk_sys {
  channel_size : Z;
  channels : Z;
  bus_width : Z;
  address_mapping : string;
  queue_structure : string;
  row_buf_policy : string;
  cmd_queue_size : Z;
  trans_queue_size : Z;
  unified_queue : bool;
  write_buf_size : Z;
  refresh_policy : RefreshPolicy;
  enable_self_refresh : bool;
  sref_threshold : Z;
  aggressive_precharging_enabled : bool
}.

(** The parameters of [InitDRAMParams]. *)
Record Structure := mk_str {
  protocol : DRAMProtocol;
  bankgroups : Z;
  banks_per_group : Z;
  banks : Z;
  rows : Z;
  columns : Z;
  device_width : Z;
  BL : Z;
  num_dies : Z;
  enable_hbm_dual_cmd : bool;
  num_links : Z;
  link_width : Z;
  link_speed : Z;
  block_size : Z;
  xbar_queue_depth : Z;
  burst_cycle : Z
}.

(** What [CalculateSize] computes. *)
Record Size := mk_size { devices_per_rank : Z; ranks : Z; size_channel : Z }.

(** What [SetAddressMapping] computes. *)
Record Mapping := mk_map {
  request_size_bytes : Z;
  shift_bits : Z;
  ch_pos : Z; ra_pos : Z; bg_pos : Z; ba_pos : Z; ro_pos : Z; co_pos : Z;
  ch_mask : Z; ra_mask : Z; bg_mask : Z; ba_mask : Z; ro_mask : Z; co_mask : Z
}.

(** The parameters of [InitTimingParams]. *)
Record TimingParams := mk_tp {
  AL : Z; CL : Z; CWL : Z; RL : Z; WL : Z;
  tCCD_L : Z; tCCD_S : Z; tRTRS : Z; tRTP : Z; tWTR_L : Z; tWTR_S : Z; tWR : Z; tRP : Z;
  tRRD_L : Z; tRRD_S : Z; tRAS : Z; tRCD : Z; tRFC : Z; tRC : Z; tCKE : Z; tCKESR : Z;
  tXS : Z; tXP : Z; tRFCb : Z; tREFI : Z; tREFIb : Z; tFAW : Z; tRPRE : Z; tWPRE : Z;
  tPPD : Z; t32AW : Z; tRCDRD : Z; tRCDWR : Z; ideal_memory_latency : Z;
  read_delay : Z; write_delay : Z
}.

Record Config := mk_config {
  sys_ : SystemParams;
  str_ : Structure;
  size_ : Size;
  map_ : Mapping;
  tim_ : TimingParams;
  epoch_period : Z
}.

(** ** [configuration.cc] *)

(** [Config::AddressMapping]. *)
Definition field (a pos mask : Z) : Z := Z.land (Z.shiftr a pos) mask.
Definition AddressMapping (m : Mapping) (hex : Z) : Address :=
  let a := Z.shiftr hex (shift_bits m) in
  mk_addr (field a (ch_pos m) (ch_mask m)) (field a (ra_pos m) (ra_mask m))
    (field a (bg_pos m) (bg_mask m)) (field a (ba_pos m) (ba_mask m))
    (field a (ro_pos m) (ro_mask m)) (field a (co_pos m) (co_mask m)).

(** [CalculateSize]; a zero divisor has no meaning. *)
Definition CalculateSize (s : SystemParams) (d : Structure) : outcome Size :=
  if device_width d =? 0 then Undef
  else
    let dpr := Z.quot (bus_width s) (device_width d) in
    let page_size := Z.quot (columns d * device_width d) 8 in
    let megs_per_bank := Z.quot (page_size * Z.quot (rows d) 1024) 1024 in
    let megs_per_rank := megs_per_bank * banks d * dpr in
    if megs_per_rank >? channel_size s then Done (mk_size dpr 1 megs_per_rank)
    else if megs_per_rank =? 0 then Undef
    else
      let r := Z.quot (channel_size s) megs_per_rank in
      Done (mk_size dpr r (r * megs_per_rank)).

Definition GetDRAMProtocol (s : string) : outcome DRAMProtocol :=
  if bool_decide (s = "DDR3"%string) then Done DDR3
  else if bool_decide (s = "DDR4"%string) then Done DDR4
  else if bool_decide (s = "GDDR5"%string) then Done GDDR5
  else if bool_decide (s = "GDDR5X"%string) then Done GDDR5X
  else if bool_decide (s = "GDDR6"%string) then Done GDDR6
  else if bool_decide (s = "LPDDR"%string) then Done LPDDR
  else if bool_decide (s = "LPDDR3"%string) then Done LPDDR3
  else if bool_decide (s = "LPDDR4"%string) then Done LPDDR4
  else if bool_decide (s = "HBM"%string) then Done HBM
  else if bool_decide (s = "HBM2"%string) then Done HBM2
  else if bool_decide (s = "HMC"%string) then Done HMC
  else AbruptExit.

Definition parse_refresh_policy (s : string) : outcome RefreshPolicy :=
  if bool_decide (s = "RANK_LEVEL_SIMULTANEOUS"%string) then Done RANK_LEVEL_SIMULTANEOUS
  else if bool_decide (s = "RANK_LEVEL_STAGGERED"%string) then Done RANK_LEVEL_STAGGERED
  else if bool_decide (s = "BANK_LEVEL_STAGGERED"%string) then Done BANK_LEVEL_STAGGERED
  else AbruptExit.

Section Init.
Context {R : Type} `{Reader R}.
Variable reader : R.
Local Open Scope string_scope.
Local Open Scope Z_scope.

(** [Config::GetInteger]: the reader's [long] cut to an [int]. *)
Definition GetInteger (sec opt : string) (default_val : Z) : Z :=
  s32 (rd_integer reader sec opt default_val).

Definition InitSystemParams : outcome SystemParams :=
  p ← parse_refresh_policy (rd_get reader "system" "refresh_policy" "RANK_LEVEL_STAGGERED");
  Done (mk_sys (GetInteger "system" "channel_size" 1024) (GetInteger "system" "channels" 1)
    (GetInteger "system" "bus_width" 64)
    (rd_get reader "system" "address_mapping" "chrobabgraco")
    (rd_get reader "system" "queue_structure" "PER_BANK")
    (rd_get reader "system" "row_buf_policy" "OPEN_PAGE")
    (GetInteger "system" "cmd_queue_size" 16) (GetInteger "system" "trans_queue_size" 32)
    (rd_boolean reader "system" "unified_queue" false) (GetInteger "system" "write_buf_size" 16)
    p (rd_boolean reader "system" "enable_self_refresh" false)
    (GetInteger "system" "sref_threshold" 1000)
    (rd_boolean reader "system" "aggressive_precharging_enabled" false)).

(** The length of a burst in clock cycles. *)
Definition burst_cycles (p : DRAMProtocol) (bl : Z) : Z :=
  if bl =? 0 then 0
  else match p with
       | GDDR5 => Z.quot bl 4
       | GDDR5X => Z.quot bl 8
       | GDDR6 => Z.quot bl 16
       | _ => Z.quot bl 2
       end.

(** The burst length used for capacity. *)
Definition burst_length (p : DRAMProtocol) (bl : Z) : Z :=
  if bl =? 0 then (if is_hbm p then 4 else 8) else bl.

Definition InitDRAMParams : outcome Structure :=
  p ← GetDRAMProtocol (rd_get reader "dram_structure" "protocol" "DDR3");
  let bg := GetInteger "dram_structure" "bankgroups" 2 in
  let bpg := GetInteger "dram_structure" "banks_per_group" 2 in
  let enable := rd_boolean reader "dram_structure" "bankgroup_enable" true in
  let bpg' := if enable then bpg else bpg * bg in
  let bg' := if enable then bg else 1 in
  let dw := GetInteger "dram_structure" "device_width" 8 in
  let bs := GetInteger "hmc" "block_size" 64 in
  if is_hmc p && (dw =? 0) then Undef
  else
    let bl0 := if is_hmc p then Z.quot (bs * 8) dw else GetInteger "dram_structure" "BL" 8 in
    let bl := burst_length p bl0 in
    let cols := GetInteger "dram_structure" "columns" 1024 in
    Done (mk_str p bg' bpg' (bg' * bpg') (GetInteger "dram_structure" "rows" 65536)
            (if is_gddr p then cols * bl else if is_hbm p then cols * 2 else cols)
            dw bl (GetInteger "dram_structure" "num_dies" 1)
            (rd_boolean reader "dram_structure" "hbm_dual_cmd" true && is_hbm p)
            (GetInteger "hmc" "num_links" 4) (GetInteger "hmc" "link_width" 16)
            (GetInteger "hmc" "link_speed" 15000) bs
            (GetInteger "hmc" "xbar_queue_depth" 16) (burst_cycles p bl0)).

Definition InitTimingParams (d : Structure) : TimingParams :=
  let t opt def := GetInteger "timing" opt def in
  let al := t "AL" 0 in
  let cl := t "CL" 12 in
  let cwl := t "CWL" 12 in
  mk_tp al cl cwl (al + cl) (al + cwl)
    (t "tCCD_L" 6) (t "tCCD_S" 4) (t "tRTRS" 2) (t "tRTP" 5) (t "tWTR_L" 5) (t "tWTR_S" 5)
    (t "tWR" 10) (t "tRP" 10) (t "tRRD_L" 4) (t "tRRD_S" 4) (t "tRAS" 24) (t "tRCD" 10)
    (t "tRFC" 74) (t "tRAS" 24 + t "tRP" 10) (t "tCKE" 6) (t "tCKESR" 12) (t "tXS" 432)
    (t "tXP" 8) (t "tRFCb" 20) (t "tREFI" 7800) (t "tREFIb" 1950) (t "tFAW" 50)
    (t "tRPRE" 1) (t "tWPRE" 1) (t "tPPD" 0) (t "t32AW" 330) (t "tRCDRD" 24) (t "tRCDWR" 20)
    (t "ideal_memory_latency" 10) (al + cl + burst_cycle d) (al + cwl + burst_cycle d).

End Init.

(** ** [SetAddressMapping] *)

(** A two-letter field of the mapping string. *)
Inductive Field := F_ch | F_ra | F_bg | F_ba | F_ro | F_co.

#[export] Instance Field_eq_dec : EqDecision Field.
Proof. solve_decision. Defined.

Definition parse_field (s : string) : option Field :=
  if bool_decide (s = "ch"%string) then Some F_ch
  else if bool_decide (s = "ra"%string) then Some F_ra
  else if bool_decide (s = "bg"%string) then Some F_bg
  else if bool_decide (s = "ba"%string) then Some F_ba
  else if bool_decide (s = "ro"%string) then Some F_ro
  else if bool_decide (s = "co"%string) then Some F_co
  else None.

(** The pieces of two letters. *)
Fixpoint tokens (s : string) : list string :=
  match s with
  | String a (String b rest) => String a (String b EmptyString) :: tokens rest
  | String a EmptyString => [String a EmptyString]
  | EmptyString => []
  end.

(** [field_widths]. *)
Definition widths (s : SystemParams) (d : Structure) (z : Size) (f : Field) : Z :=
  match f with
  | F_ch => LogBase2 (channels s)
  | F_ra => LogBase2 (ranks z)
  | F_bg => LogBase2 (bankgroups d)
  | F_ba => LogBase2 (banks_per_group d)
  | F_ro => LogBase2 (rows d)
  | F_co => LogBase2 (columns d) - LogBase2 (BL d)
  end.

(** The [while] loop takes the fields from the back; a field that appears twice
    keeps its last position. *)
Fixpoint place (w : Field -> Z) (fs : list string) (pos : Z) (at_ : Field -> option Z)
    : outcome (Field -> option Z) :=
  match fs with
  | [] => Done at_
  | tok :: fs' =>
      match parse_field tok with
      | None => AbruptExit
      | Some f => place w fs' (pos + w f) (fun g => if decide (g = f) then Some pos else at_ g)
      end
  end.

(** [std::map::at] throws for a field that is missing. *)
Definition pos_at (at_ : Field -> option Z) (f : Field) : outcome Z :=
  match at_ f with Some p => Done p | None => Throw end.

(** [(1 << width) - 1], an [int] expression. *)
Definition mask_of (width : Z) : Z := Z.shiftl 1 width - 1.

Definition SetAddressMapping (s : SystemParams) (d : Structure) (z : Size) : outcome Mapping :=
  let req := Z.quot (bus_width s) 8 * BL d in
  let w := widths s d z in
  if negb (String.length (address_mapping s) =? 12)%nat then AbruptExit
  else
    at_ ← place w (reverse (tokens (address_mapping s))) 0 (fun _ => None);
    ch ← pos_at at_ F_ch; ra ← pos_at at_ F_ra; bg ← pos_at at_ F_bg;
    ba ← pos_at at_ F_ba; ro ← pos_at at_ F_ro; co ← pos_at at_ F_co;
    Done (mk_map req (LogBase2 req) ch ra bg ba ro co
            (mask_of (w F_ch)) (mask_of (w F_ra)) (mask_of (w F_bg))
            (mask_of (w F_ba)) (mask_of (w F_ro)) (mask_of (w F_co))).

(** [Config::Config] without the output names. *)
Definition load_config {R} `{Reader R} (reader : R) : outcome Config :=
  s ← InitSystemParams reader;
  d ← InitDRAMParams reader;
  z ← CalculateSize s d;
  m ← SetAddressMapping s d z;
  Done (mk_config s d z m (InitTimingParams reader d) (GetInteger reader "other" "epoch_period" 100000)).

(** ** The address mapping is a bijection *)

Lemma LogBase2_loop_ge fuel : forall p i, i <= LogBase2_loop fuel p i.
Proof.
  induction fuel as [|fuel IH]; intros p i; simpl; [lia|]. destruct (p >? 1); [|lia].
  specialize (IH (Z.quot p 2) (i + 1)). lia.
Qed.

Lemma LogBase2_nonneg p : 0 <= LogBase2 p.
Proof. apply LogBase2_loop_ge. Qed.

Lemma LogBase2_loop_le fuel : forall p i, 1 <= p -> 2 ^ (LogBase2_loop fuel p i - i) <= p.
Proof.
  induction fuel as [|fuel IH]; intros p i Hp; simpl; [by rewrite Z.sub_diag|].
  destruct (p >? 1) eqn:E; zb; [|by rewrite Z.sub_diag].
  assert (1 <= Z.quot p 2) as Hq by (apply Z.quot_le_lower_bound; lia). specialize (IH (Z.quot p 2) (i + 1) Hq).
  pose proof (LogBase2_loop_ge fuel (Z.quot p 2) (i + 1)) as Hge.
  replace (LogBase2_loop fuel (Z.quot p 2) (i + 1) - i) with (Z.succ (LogBase2_loop fuel (Z.quot p 2) (i + 1) - (i + 1))) by lia.
  rewrite Z.pow_succ_r by lia. pose proof (Z.mul_quot_le p 2). lia.
Qed.

(** Rounded down for any positive number. *)
Lemma LogBase2_le p : 1 <= p -> 2 ^ LogBase2 p <= p.
Proof. intros Hp. unfold LogBase2. rewrite <- (Z.sub_0_r (LogBase2_loop 31 p 0)). by apply LogBase2_loop_le. Qed.

(** For a power of two the loop counts its exponent. *)
Lemma LogBase2_pow (k : nat) : (k <= 31)%nat -> LogBase2 (2 ^ Z.of_nat k) = Z.of_nat k.
Proof.
  intros Hk. unfold LogBase2.
  assert (Hgen : forall fuel j i, (j <= fuel)%nat -> LogBase2_loop fuel (2 ^ Z.of_nat j) i = i + Z.of_nat j).
  { induction fuel as [|fuel IH]; intros j i Hj; simpl; [assert (j = 0%nat) as -> by lia; simpl; lia|].
    destruct j as [|j]; [simpl; lia|]. rewrite Nat2Z.inj_succ, Z.pow_succ_r by lia.
    destruct (2 * 2 ^ Z.of_nat j >? 1) eqn:E; zb; [|lia].
    rewrite Z.mul_comm, Z.quot_mul by lia. rewrite IH by lia. lia. }
  rewrite Hgen by done. lia.
Qed.

(** Position of a field in a list of fields laid out from bit 0. *)
Fixpoint pos_of (w : Field -> Z) (fs : list Field) (f : Field) : option Z :=
  match fs with
  | [] => None
  | g :: fs' => if decide (f = g) then Some 0 else (fun p => w g + p) <$> pos_of w fs' f
  end.

Definition total (w : Field -> Z) (fs : list Field) : Z := fold_right (fun f acc => w f + acc) 0 fs.

(** The number whose field [f] is [v f]. *)
Fixpoint assemble (w : Field -> Z) (fs : list Field) (v : Field -> Z) : Z :=
  match fs with
  | [] => 0
  | f :: fs' => v f + 2 ^ w f * assemble w fs' v
  end.

Lemma pos_of_None w fs f : pos_of w fs f = None <-> f ∉ fs.
Proof.
  induction fs as [|g fs IH]; simpl; [split; [intros _; apply not_elem_of_nil|done]|].
  case_decide as E; [subst; split; [done|set_solver]|].
  rewrite fmap_None, IH. set_solver.
Qed.

Lemma place_spec w toks : forall pos at_ at',
  place w toks pos at_ = Done at' ->
  exists fs, mapM parse_field toks = Some fs /\ length fs = length toks /\
    (forall f, f ∈ fs \/ at' f = at_ f) /\
    (NoDup fs -> forall f, at' f = match pos_of w fs f with Some q => Some (pos + q) | None => at_ f end).
Proof.
  induction toks as [|tok toks IH]; intros pos at_ at'; cbn [place].
  - intros [= <-]. exists []. split_and!; try done. intros f. by right.
  - destruct (parse_field tok) as [f0|] eqn:Ef; [|done]. intros Hp.
    destruct (IH _ _ _ Hp) as (fs & Hm & Hl & Hin & Hpos).
    exists (f0 :: fs). simpl. rewrite Ef, Hm. split_and!; try done; [simpl; lia| |].
    + intros f. destruct (Hin f) as [|Heq]; [left; by right|].
      destruct (decide (f = f0)) as [->|]; [left; by left|]. right. rewrite Heq.
      destruct (decide (f = f0)); done.
    + intros [Hnot Hnd]%NoDup_cons f. rewrite Hpos by done. destruct (decide (f = f0)) as [->|Hne].
      * rewrite (proj2 (pos_of_None w fs f0)) by done. f_equal. lia.
      * destruct (pos_of w fs f); simpl; [|done]. f_equal. lia.
Qed.

Lemma assemble_range w fs v :
  (forall f, f ∈ fs -> 0 <= w f) -> (forall f, f ∈ fs -> 0 <= v f < 2 ^ w f) ->
  0 <= assemble w fs v < 2 ^ total w fs /\ 0 <= total w fs.
Proof.
  induction fs as [|g fs IH]; intros Hw Hv; simpl; [done|].
  destruct IH as [Ha Ht]; [set_solver|set_solver|].
  assert (0 <= w g) by (apply Hw; by left). assert (0 <= v g < 2 ^ w g) by (apply Hv; by left).
  assert (Hpos : 0 < 2 ^ w g) by lia. rewrite Z.pow_add_r by lia. split; [|lia]. nia.
Qed.

Lemma field_mod a pos width : 0 <= pos -> 0 <= width ->
  field a pos (mask_of width) = a / 2 ^ pos mod 2 ^ width.
Proof.
  intros. unfold field, mask_of. rewrite Z.shiftl_1_l, land_ones_mod, Z.shiftr_div_pow2 by done. done.
Qed.

Lemma pos_of_nonneg w fs f p : (forall f, f ∈ fs -> 0 <= w f) -> pos_of w fs f = Some p -> 0 <= p.
Proof.
  revert p. induction fs as [|g fs IH]; intros p Hw; simpl; [done|]. case_decide; [intros [= <-]; lia|].
  destruct (pos_of w fs f) as [q|] eqn:E; [|done]. intros [= <-].
  assert (0 <= w g) by (apply Hw; by left). assert (0 <= q) by (apply (IH q); set_solver). lia.
Qed.

(** A field of an assembled number is what was put there. *)
Lemma assemble_field w fs v f p :
  (forall f, f ∈ fs -> 0 <= w f) -> (forall f, f ∈ fs -> 0 <= v f < 2 ^ w f) ->
  pos_of w fs f = Some p -> assemble w fs v / 2 ^ p mod 2 ^ w f = v f.
Proof.
  revert p. induction fs as [|g fs IH]; intros p Hw Hv; simpl; [done|].
  assert (Hwg : 0 <= w g) by (apply Hw; by left). assert (Hvg : 0 <= v g < 2 ^ w g) by (apply Hv; by left).
  case_decide as E; [subst|].
  - intros [= <-]. rewrite Z.pow_0_r, Z.div_1_r, Z.mul_comm, Z.mod_add by lia. by apply Z.mod_small.
  - destruct (pos_of w fs f) as [q|] eqn:Eq; [|done]. intros [= <-].
    assert (0 <= q) by (apply (pos_of_nonneg w fs f); [set_solver|done]).
    rewrite Z.pow_add_r by lia. rewrite <- Z.div_div by lia.
    rewrite (Z.mul_comm (2 ^ w g) (assemble w fs v)), Z.div_add, (Z.div_small (v g)), Z.add_0_l by lia.
    apply IH; [set_solver|set_solver|done].
Qed.

(** Every number below [2 ^ total] is assembled from its fields. *)
Lemma assemble_fields w fs a :
  NoDup fs -> (forall f, f ∈ fs -> 0 <= w f) -> 0 <= a < 2 ^ total w fs ->
  forall v, (forall f p, pos_of w fs f = Some p -> v f = a / 2 ^ p mod 2 ^ w f) -> assemble w fs v = a.
Proof.
  revert a. induction fs as [|g fs IH]; intros a Hnd Hw Ha v Hv; simpl in *; [lia|].
  apply NoDup_cons in Hnd as [Hg Hnd].
  assert (Hwg : 0 <= w g) by (apply Hw; by left).
  assert (Ht : 0 <= total w fs).
  { apply (assemble_range w fs (fun _ => 0)); intros f Hf; [apply Hw; by right|]. split; [lia|].
    assert (0 <= w f) by (apply Hw; by right). lia. }
  rewrite (IH (a / 2 ^ w g)); [|done|set_solver| |].
  - rewrite (Hv g 0) by (by rewrite decide_True). rewrite Z.pow_0_r, Z.div_1_r.
    pose proof (Z.div_mod a (2 ^ w g)). lia.
  - rewrite Z.pow_add_r in Ha by lia. split; [apply Z.div_pos; lia|]. apply Z.div_lt_upper_bound; lia.
  - intros f p Hp. assert (f <> g) by (intros ->; apply Hg; destruct (decide (g ∈ fs)); [done|];
      by rewrite (proj2 (pos_of_None w fs g)) in Hp).
    rewrite (Hv f (w g + p)) by (rewrite decide_False by done; by rewrite Hp).
    assert (0 <= p) by (apply (pos_of_nonneg w fs f); [set_solver|done]).
    rewrite Z.pow_add_r, Z.div_div by lia. done.
Qed.

Lemma total_perm w fs gs : fs ≡ₚ gs -> total w fs = total w gs.
Proof. induction 1; simpl; lia. Qed.

Definition all_fields : list Field := [F_ch; F_ra; F_bg; F_ba; F_ro; F_co].

Definition get_field (f : Field) (a : Address) : Z :=
  match f with
  | F_ch => channel a | F_ra => rank a | F_bg => bankgroup a
  | F_ba => bank a | F_ro => row a | F_co => column a
  end.

Lemma length_tokens s : String.length s = 12%nat -> length (tokens s) = 6%nat.
Proof.
  intros H. do 12 (destruct s as [|? s]; [discriminate H|]). destruct s; [done|discriminate H].
Qed.

(** What a successful [SetAddressMapping] has computed: a layout of the six
    fields, each once. *)
Lemma mapping_layout s d z m :
  SetAddressMapping s d z = Done m ->
  exists fs, NoDup fs /\ (forall f, f ∈ fs) /\ total (widths s d z) fs = total (widths s d z) all_fields /\
    shift_bits m = LogBase2 (Z.quot (bus_width s) 8 * BL d) /\
    forall hex f, (forall g, 0 <= widths s d z g) ->
      exists p, pos_of (widths s d z) fs f = Some p /\
        get_field f (AddressMapping m hex) =
        Z.shiftr hex (shift_bits m) / 2 ^ p mod 2 ^ widths s d z f.
Proof.
  unfold SetAddressMapping. set (w := widths s d z).
  destruct (String.length (address_mapping s) =? 12)%nat eqn:El; [|done]. apply Nat.eqb_eq in El. cbn [negb].
  destruct (place w _ 0 _) as [at_| | | |] eqn:Ep; try done. cbn [mbind outcome_bind].
  destruct (place_spec _ _ _ _ _ Ep) as (fs & _ & Hlen & Hin & Hpos).
  rewrite length_reverse, length_tokens in Hlen by done. unfold pos_at.
  destruct (at_ F_ch) as [ch|] eqn:E1; [|done]. destruct (at_ F_ra) as [ra|] eqn:E2; [|done].
  destruct (at_ F_bg) as [bg|] eqn:E3; [|done]. destruct (at_ F_ba) as [ba|] eqn:E4; [|done].
  destruct (at_ F_ro) as [ro|] eqn:E5; [|done]. destruct (at_ F_co) as [co|] eqn:E6; [|done].
  cbn [mbind outcome_bind]. intros [= <-].
  assert (Hall : forall f, f ∈ fs) by (intros f; destruct (Hin f) as [|Hf]; [done|]; destruct f; congruence).
  assert (Hperm : all_fields ≡ₚ fs).
  { apply submseteq_length_Permutation; [|rewrite Hlen; done].
    apply NoDup_submseteq; [|done]. by apply (bool_decide_unpack _). }
  assert (Hnd : NoDup fs) by (rewrite <- Hperm; by apply (bool_decide_unpack _)).
  exists fs. split; [done|]. split; [done|]. split.
  { symmetry. by apply total_perm. }
  split; [done|]. intros hex f Hw. specialize (Hpos Hnd f).
  destruct (pos_of w fs f) as [p|] eqn:Epf; [|apply pos_of_None in Epf; by destruct Epf]. exists p. split; [done|].
  assert (0 <= p) by (apply (pos_of_nonneg w fs f); [done|done]). rewrite Z.add_0_l in Hpos.
  assert (Hf : forall x, at_ f = Some x -> x = p) by (intros x Hx; congruence).
  unfold AddressMapping. destruct f;
    cbn [get_field channel rank bankgroup bank row column shift_bits ch_pos ra_pos bg_pos ba_pos
         ro_pos co_pos ch_mask ra_mask bg_mask ba_mask ro_mask co_mask];
    [rewrite (Hf _ E1)|rewrite (Hf _ E2)|rewrite (Hf _ E3)|rewrite (Hf _ E4)|rewrite (Hf _ E5)|rewrite (Hf _ E6)];
    apply field_mod; done.
Qed.

(** Every address falls on a bank of the device. *)
Lemma mapping_in_range s d z m hex :
  SetAddressMapping s d z = Done m -> (forall f, 0 <= widths s d z f) ->
  1 <= ranks z -> 1 <= bankgroups d -> 1 <= banks_per_group d ->
  0 <= rank (AddressMapping m hex) < ranks z /\ 0 <= bankgroup (AddressMapping m hex) < bankgroups d /\
  0 <= bank (AddressMapping m hex) < banks_per_group d.
Proof.
  intros Hm Hw Hr Hg Hb. destruct (mapping_layout _ _ _ _ Hm) as (fs & _ & _ & _ & _ & Hf).
  assert (Hin : forall f n, 2 ^ widths s d z f <= n -> 0 <= get_field f (AddressMapping m hex) < n).
  { intros f n Hn. destruct (Hf hex f Hw) as (p & _ & ->).
    pose proof (Z.mod_pos_bound (Z.shiftr hex (shift_bits m) / 2 ^ p) (2 ^ widths s d z f)). specialize (Hw f).
    pose proof (Z.pow_pos_nonneg 2 (widths s d z f)). lia. }
  split; [|split]; [apply (Hin F_ra)|apply (Hin F_bg)|apply (Hin F_ba)]; by apply LogBase2_le.
Qed.

(** C24. When [SetAddressMapping] accepts a mapping string, whatever the order of
    its fields, the split of a byte address into channel, rank, bank group, bank,
    row and column is one-to-one on the requests of the device: two addresses in
    the device with the same fields are in the same request, and every
    combination of field values in range is reached. *)
Theorem address_mapping_bijective s d z m :
  SetAddressMapping s d z = Done m -> (forall f, 0 <= widths s d z f) ->
  let n := total (widths s d z) all_fields in
  (forall a b, 0 <= a < 2 ^ (shift_bits m + n) -> 0 <= b < 2 ^ (shift_bits m + n) ->
     AddressMapping m a = AddressMapping m b ->
     Z.shiftr a (shift_bits m) = Z.shiftr b (shift_bits m)) /\
  (forall x : Address, (forall f, 0 <= get_field f x < 2 ^ widths s d z f) ->
     exists a, 0 <= a < 2 ^ (shift_bits m + n) /\ AddressMapping m a = x).
Proof.
  intros Hm Hw. destruct (mapping_layout _ _ _ _ Hm) as (fs & Hnd & Hall & Htot & Hsh & Hf).
  set (w := widths s d z) in *. rewrite <- Htot.
  assert (Hs0 : 0 <= shift_bits m) by (rewrite Hsh; apply LogBase2_nonneg).
  assert (Ht0 : 0 <= total w fs).
  { apply (assemble_range w fs (fun _ => 0)); [done|]. intros f _. specialize (Hw f). lia. }
  split.
  - intros a b Ha Hb Heq.
    assert (Hrec : forall x, 0 <= x < 2 ^ (shift_bits m + total w fs) ->
      assemble w fs (fun f => get_field f (AddressMapping m x)) = Z.shiftr x (shift_bits m)).
    { intros x Hx. apply assemble_fields; [done|done| |].
      - rewrite Z.shiftr_div_pow2 by done. rewrite Z.pow_add_r in Hx by done.
        split; [apply Z.div_pos; lia|]. apply Z.div_lt_upper_bound; lia.
      - intros f p Hp. destruct (Hf x f Hw) as (p' & Hp' & ->). by simplify_eq. }
    rewrite <- (Hrec a Ha), <- (Hrec b Hb), Heq. done.
  - intros x Hx. set (v := assemble w fs (fun f => get_field f x)).
    destruct (assemble_range w fs (fun f => get_field f x)) as [Hv _]; [done|by intros|].
    exists (v * 2 ^ shift_bits m). split.
    { rewrite Z.add_comm, Z.pow_add_r by done. fold v in Hv. nia. }
    assert (Hget : forall f, get_field f (AddressMapping m (v * 2 ^ shift_bits m)) = get_field f x).
    { intros f. destruct (Hf (v * 2 ^ shift_bits m) f Hw) as (p & Hp & ->).
      rewrite Z.shiftr_div_pow2, Z.div_mul by lia. by apply (assemble_field w fs (fun f => get_field f x)). }
    pose proof (Hget F_ch); pose proof (Hget F_ra); pose proof (Hget F_bg);
    pose proof (Hget F_ba); pose proof (Hget F_ro); pose proof (Hget F_co).
    destruct (AddressMapping m _), x. simpl in *. congruence.
Qed.

(** The DDR4 part of the default configuration. *)
Definition demo_sys : SystemParams :=
  mk_sys 4096 1 64 "rochrababgco" "PER_BANK" "OPEN_PAGE" 8 32 false 16 RANK_LEVEL_STAGGERED false 1000 false.
Definition demo_str : Structure :=
  mk_str DDR4 4 4 16 65536 1024 8 8 1 false 4 16 15000 64 16 4.
Definition demo_size : Size := mk_size 8 1 8192.
Definition demo_map : Mapping :=
  mk_map 64 6 11 11 7 9 11 0 0 0 3 3 65535 127.
(** The timing of [DDR4_8Gb_x8_2400.ini]. *)
Definition demo_tim : TimingParams :=
  mk_tp 0 17 12 17 12 6 4 1 9 9 3 18 17 6 4 39 17 420 56 6 7 432 8 20 9360 1950 26 1 1 0 330 24 20 10 21 16.
Definition demo_config : Config := mk_config demo_sys demo_str demo_size demo_map demo_tim 1204819.

Lemma address_mapping_bijective_witness :
  exists a, 0 <= a < 2 ^ (6 + 27) /\ AddressMapping demo_map a = mk_addr 0 0 3 2 1000 77.
Proof.
  apply (address_mapping_bijective demo_sys demo_str demo_size demo_map).
  - vm_compute. reflexivity.
  - intros []; vm_compute; discriminate.
  - intros []; vm_compute; split; (discriminate || reflexivity).
Defined.

End Dram.
