(* ===== verification/Ini.v ===== *)
(** * The INI reader of the configuration

    [runtime/DRAMsim3/include/dramsim3/INIReader.h]: a line-based parser in C that
    calls a handler for each pair of a name and a value, and the class that keeps
    the pairs and reads them as strings, integers and truth values.  A file is the
    list of its characters; the buffers of the parser are C strings.  Numbers with
    a fraction ([GetReal]) are not modelled. *)

From Stdlib Require Import Ascii String.
From S2P Require Import Prelude Text Fp DramCommon.

Module Ini.
Import Text.

#[local] Open Scope char_scope.
#[local] Open Scope Z_scope.

Abbreviation chars := (list ascii).

Definition newline : ascii := ascii_of_nat 10.

(** ** The C part *)

Definition INI_MAX_LINE : nat := 200.
Definition MAX_SECTION : nat := 50.
Definition MAX_NAME : nat := 50.

(** The C string in a buffer ends at the first null character. *)
Fixpoint cstr (s : chars) : chars :=
  match s with c :: s' => if bool_decide (c = zero) then [] else c :: cstr s' | [] => [] end.

(** [fgets] with room for [n] characters: to the end of the line, if it fits. *)
Fixpoint fgets_loop (n : nat) (f : chars) : chars * chars :=
  match n, f with
  | S n', c :: f' => if bool_decide (c = newline) then ([c], f') else let r := fgets_loop n' f' in (c :: r.1, r.2)
  | _, _ => ([], f)
  end.
Definition fgets (num : nat) (f : chars) : option (chars * chars) :=
  match f with [] => None | _ => Some (fgets_loop (num - 1) f) end.

Fixpoint rstrip (s : chars) : chars :=
  match s with
  | [] => []
  | c :: s' => match rstrip s' with [] => if isspace c then [] else [c] | r => c :: r end
  end.

Definition lskip (s : chars) : chars := skipws s.

(** Where [find_chars_or_comment] stops: what it passed, and the rest. *)
Fixpoint find_loop (was_space : bool) (s stop : chars) : chars * chars :=
  match s with
  | [] => ([], [])
  | c :: s' =>
      if bool_decide (c ∈ stop) || (was_space && bool_decide (c = ";")) then ([], s)
      else let r := find_loop (isspace c) s' stop in (c :: r.1, r.2)
  end.
Definition find_chars_or_comment (s stop : chars) : chars * chars := find_loop false s stop.

(** [strncpy0] into a buffer of [size] characters. *)
Definition strncpy0 (src : chars) (size : nat) : chars := take (size - 1) src.

(** A value up to an inline comment, without spaces around it. *)
Definition value_of (s : chars) : chars := rstrip (find_chars_or_comment s []).1.

(** What a line asks for. *)
Inductive line_kind :=
| Blank
| Continuation (value : chars)
| Section_ (name : chars)
| Pair (name value : chars)
| Bad.

(** The byte order mark of UTF-8. *)
Definition bom : chars := map ascii_of_nat [239; 187; 191]%nat.
Definition skip_bom (first : bool) (line : chars) : chars :=
  if first && bool_decide (take 3 line = bom) then drop 3 line else line.

(** The case analysis of the loop of [ini_parse_stream]; [start > line] when
    something was skipped at the front. *)
Definition classify (first : bool) (prev_name line : chars) : line_kind :=
  let body := rstrip (skip_bom first line) in
  let start := lskip body in
  let moved := bool_decide (skip_bom first line <> line) || bool_decide (start <> body) in
  match start with
  | [] => Blank
  | c :: start' =>
      if bool_decide (c = ";") || bool_decide (c = "#") then Blank
      else if bool_decide (prev_name <> []) && moved then Continuation (value_of start)
      else if bool_decide (c = "[") then
        match find_chars_or_comment start' ["]"] with
        | (name, "]" :: _) => Section_ name
        | _ => Bad
        end
      else
        match find_chars_or_comment start ["="; ":"] with
        | (name, ("=" | ":") :: rest) => Pair (rstrip name) (value_of (lskip rest))
        | _ => Bad
        end
  end.

(** ** The class *)

Record INIReader := mk_ini {
  _error : Z;
  _values : gmap chars chars;
  _sections : gset chars
}.

Definition tolower (c : ascii) : ascii :=
  let n := nat_of_ascii c in if (65 <=? n)%nat && (n <=? 90)%nat then ascii_of_nat (n + 32) else c.

Definition MakeKey (section name : chars) : chars := map tolower (section ++ ["="] ++ name).

(** [_values[key]] makes an empty value for a new key. *)
Definition append_value (old : option chars) (value : chars) : chars :=
  match old with
  | Some (c :: s) => (c :: s) ++ [newline] ++ value
  | _ => value
  end.

Definition ValueHandler (section name value : chars) (r : INIReader) : INIReader :=
  let key := MakeKey section name in
  mk_ini (_error r) (<[key := append_value (_values r !! key) value]> (_values r)) ({[section]} ∪ _sections r).

(** The local variables of [ini_parse_stream]. *)
Record parser := mk_parser { section : chars; prev_name : chars; lineno : Z; reader : INIReader }.

Definition set_error (line : Z) (r : INIReader) : INIReader :=
  if _error r =? 0 then mk_ini line (_values r) (_sections r) else r.

(** A round of the loop.  The handler never fails. *)
Definition parse_line (line : chars) (p : parser) : parser :=
  let n := lineno p + 1 in
  match classify (n =? 1) (prev_name p) (cstr line) with
  | Blank => mk_parser (section p) (prev_name p) n (reader p)
  | Continuation v => mk_parser (section p) (prev_name p) n (ValueHandler (section p) (prev_name p) v (reader p))
  | Section_ s => mk_parser (strncpy0 s MAX_SECTION) [] n (reader p)
  | Pair name v => mk_parser (section p) (strncpy0 name MAX_NAME) n (ValueHandler (section p) name v (reader p))
  | Bad => mk_parser (section p) (prev_name p) n (set_error n (reader p))
  end.

Fixpoint parse_stream (fuel : nat) (f : chars) (p : parser) : outcome parser :=
  match fuel with
  | O => Stuck
  | S fuel' =>
      match fgets INI_MAX_LINE f with
      | None => Done p
      | Some (line, f') => parse_stream fuel' f' (parse_line line p)
      end
  end.

Definition empty_reader (e : Z) : INIReader := mk_ini e ∅ ∅.
Definition new_parser : parser := mk_parser [] [] 0 (empty_reader 0).

(** [ini_parse_stream], [ini_parse] and the constructor; a file that cannot be
    opened is [None]. *)
Definition ini_parse_stream (f : chars) : outcome parser := parse_stream (S (length f)) f new_parser.
Definition ini_parse (file : option chars) : outcome INIReader :=
  match file with
  | None => Done (empty_reader (-1))
  | Some f => p ← ini_parse_stream f; Done (reader p)
  end.
Definition new_INIReader (file : option chars) : outcome INIReader := ini_parse file.

Definition ParseError (r : INIReader) : Z := _error r.
Definition Sections (r : INIReader) : gset chars := _sections r.

Definition Get (r : INIReader) (sec name default_value : chars) : chars :=
  default default_value (_values r !! MakeKey sec name).

(** [strtol(value, &end, 0)]: the base is in the prefix; [None] when no digit was
    read and [end = value]. *)
Definition prefix0 (s : chars) : Z * chars :=
  match s with
  | "0" :: ("x" | "X") :: c :: s' => if digit_value c <? 16 then (16, c :: s') else (8, s)
  | "0" :: _ => (8, s)
  | _ => (10, s)
  end.

Definition strtol0 (s : chars) : option Z :=
  let sg := sign (skipws s) in
  let p := prefix0 sg.2 in
  let r := digits p.1 0 p.2 in
  if bool_decide (length r.2 = length p.2) then None
  else Some (if sg.1 then Z.max (- r.1) (- 2 ^ 63) else Z.min r.1 (2 ^ 63 - 1)).

Definition GetInteger (r : INIReader) (sec name : chars) (default_value : Z) : Z :=
  default default_value (strtol0 (Get r sec name [])).

Definition GetReal (r : INIReader) (sec name : chars) (default_value : Fp.double) : Fp.double :=
  default default_value (Fp.strtod (Get r sec name [])).

Definition text_of (s : string) : chars := list_ascii_of_string s.

Definition GetBoolean (r : INIReader) (sec name : chars) (default_value : bool) : bool :=
  let v := map tolower (Get r sec name []) in
  if bool_decide (v ∈ map text_of ["true"; "yes"; "on"; "1"]%string) then true
  else if bool_decide (v ∈ map text_of ["false"; "no"; "off"; "0"]%string) then false
  else default_value.

(** The reader the configuration asks. *)
#[export] Instance ini_Reader : Dram.Reader INIReader := {
  rd_get r sec name d := string_of_list_ascii (Get r (text_of sec) (text_of name) (text_of d));
  rd_integer r sec name d := GetInteger r (text_of sec) (text_of name) d;
  rd_boolean r sec name d := GetBoolean r (text_of sec) (text_of name) d
}.

(** [Config::Config]: only a file that cannot be opened is an error. *)
Definition read_config (file : option chars) : outcome Dram.Config :=
  r ← new_INIReader file;
  if ParseError r <? 0 then Dram.AbruptExit else Dram.load_config r.

(** ** Parsing ends, within the buffers *)

Lemma fgets_loop_split n : forall f, f = (fgets_loop n f).1 ++ (fgets_loop n f).2.
Proof.
  induction n as [|n IH]; intros f; [done|]. destruct f as [|c f]; [done|]. cbn [fgets_loop].
  case_bool_decide; [done|]. cbn. f_equal. apply IH.
Qed.

Lemma fgets_shorter num f l f' : (2 <= num)%nat -> fgets num f = Some (l, f') -> (length f' < length f)%nat.
Proof.
  unfold fgets. intros Hn Hf. destruct f as [|c f]; [done|]. injection Hf as Hf.
  destruct (num - 1)%nat as [|m] eqn:E; [lia|]. pose proof (fgets_loop_split (S m) (c :: f)) as Hs. rewrite Hf in Hs. cbn in Hf, Hs.
  apply (f_equal length) in Hs. rewrite length_app in Hs. cbn in Hs.
  case_bool_decide; injection Hf as <- <-; cbn in *; lia.
Qed.

(** The buffers of the parser hold their contents, and the error is the number of
    a line that was read. *)
Definition in_bounds (p : parser) : Prop :=
  (length (section p) < MAX_SECTION)%nat /\ (length (prev_name p) < MAX_NAME)%nat /\
  0 <= _error (reader p) <= lineno p.

Lemma strncpy0_length s n : (0 < n)%nat -> (length (strncpy0 s n) < n)%nat.
Proof. intros. unfold strncpy0. rewrite length_take. lia. Qed.

Lemma parse_line_bounds l p : in_bounds p -> in_bounds (parse_line l p) /\ lineno (parse_line l p) = lineno p + 1.
Proof.
  intros (Hs & Hn & He). unfold parse_line, in_bounds.
  assert (0 < MAX_SECTION)%nat by (unfold MAX_SECTION; lia). assert (0 < MAX_NAME)%nat by (unfold MAX_NAME; lia).
  assert (0 <= _error (set_error (lineno p + 1) (reader p)) <= lineno p + 1).
  { unfold set_error. destruct (_error (reader p) =? 0); cbn [_error]; lia. }
  destruct (classify _ _ _); cbn [section prev_name lineno reader ValueHandler _error length];
    (split; [split; [|split]|]); try lia; by apply strncpy0_length.
Qed.

Lemma parse_stream_ends fuel : forall f p, (length f < fuel)%nat -> in_bounds p ->
  exists q, parse_stream fuel f p = Done q /\ in_bounds q /\ lineno q <= lineno p + Z.of_nat (length f).
Proof.
  induction fuel as [|fuel IH]; intros f p Hf Hp; [lia|]. cbn [parse_stream].
  destruct (fgets INI_MAX_LINE f) as [[l f']|] eqn:E; [|exists p; split_and!; try done; lia].
  apply fgets_shorter in E; [|unfold INI_MAX_LINE; lia]. destruct (parse_line_bounds l p Hp) as [Hp' Hl].
  destruct (IH f' (parse_line l p)) as (q & -> & Hq & Hn); [lia|done|]. exists q. split_and!; try done. lia.
Qed.

Lemma new_parser_bounds : in_bounds new_parser.
Proof. unfold in_bounds, MAX_SECTION, MAX_NAME. cbn. lia. Qed.

(** C40. Whatever the bytes of a configuration file, parsing it ends; the section
    and the name kept between lines fit their buffers with the terminator, and
    the error reported is 0 or the number of a line of the file. *)
Theorem ini_parse_total f :
  exists p, ini_parse_stream f = Done p /\ in_bounds p /\ lineno p <= Z.of_nat (length f).
Proof.
  destruct (parse_stream_ends (S (length f)) f new_parser) as (q & E & Hq & Hl); [lia|apply new_parser_bounds|].
  exists q. split_and!; try done.
Qed.

(** More fuel changes nothing. *)
Lemma parse_stream_more fuel : forall f p q m, (fuel <= m)%nat -> parse_stream fuel f p = Done q -> parse_stream m f p = Done q.
Proof.
  induction fuel as [|fuel IH]; intros f p q m Hm Hq; [done|]. destruct m as [|m]; [lia|]. cbn [parse_stream] in *.
  destruct (fgets INI_MAX_LINE f) as [[l f']|]; [|done]. by apply IH; [lia|].
Qed.

Lemma parse_stream_enough n f q : parse_stream n f new_parser = Done q -> ini_parse_stream f = Done q.
Proof.
  intros Hn. unfold ini_parse_stream. destruct (decide (n <= S (length f))%nat) as [|Hg]; [by apply (parse_stream_more n)|].
  destruct (parse_stream_ends (S (length f)) f new_parser) as (q' & E & _); [lia|apply new_parser_bounds|].
  rewrite E. by rewrite (parse_stream_more (S (length f)) f new_parser q' n) in Hn; [|lia|].
Qed.

(** ** Files as they are written *)

(** A character that is kept in the middle of a line. *)
Definition plain_char (c : ascii) : bool := negb (bool_decide (c = newline)) && negb (bool_decide (c = zero)).

Definition ok_section (s : chars) : Prop :=
  (length s < MAX_SECTION)%nat /\
  Forall (fun c => plain_char c = true /\ isspace c = false /\ c <> "]") s.

Definition ok_name (s : chars) : Prop :=
  (exists c s', s = c :: s' /\ c <> "[" /\ c <> ";" /\ c <> "#" /\ c <> ascii_of_nat 239) /\
  Forall (fun c => plain_char c = true /\ isspace c = false /\ c <> "=" /\ c <> ":") s.

(** A value without spaces around it and without a comment. *)
Definition ok_value (v : chars) : Prop :=
  v <> [] /\ skipws v = v /\ rstrip v = v /\ find_loop false v [] = (v, []) /\ forallb plain_char v = true.

Definition pair_line (n v : chars) : chars := n ++ [" "; "="; " "] ++ v.
Definition section_line (s : chars) : chars := "[" :: s ++ ["]"].

Definition ok_pair (e : chars * chars) : Prop :=
  ok_name e.1 /\ ok_value e.2 /\ (length (pair_line e.1 e.2) < INI_MAX_LINE - 1)%nat.

Lemma forallb_Forall {A} (f : A -> bool) l : Forall (fun x => f x = true) l -> forallb f l = true.
Proof. intros H. apply forallb_forall. intros x Hx%list_elem_of_In. by eapply Forall_forall in H. Qed.

Lemma fgets_loop_line l : forall n f, forallb plain_char l = true -> (length l < n)%nat ->
  fgets_loop n (l ++ newline :: f) = (l ++ [newline], f).
Proof.
  induction l as [|c l IH]; intros n f Hl Hn; (destruct n as [|n]; [cbn in Hn; lia|]); cbn.
  - by rewrite bool_decide_true.
  - cbn in Hl, Hn. apply andb_prop in Hl as [Hc Hl]. apply andb_prop in Hc as [Hc _]. apply negb_true_iff in Hc. rewrite Hc.
    rewrite IH by (done || lia). done.
Qed.

Lemma fgets_line l f : forallb plain_char l = true -> (length l < INI_MAX_LINE - 1)%nat ->
  fgets INI_MAX_LINE (l ++ newline :: f) = Some (l ++ [newline], f).
Proof. intros. unfold fgets. rewrite fgets_loop_line by done. by destruct l. Qed.

Lemma cstr_line l : forallb plain_char l = true -> cstr (l ++ [newline]) = l ++ [newline].
Proof.
  induction l as [|c l IH]; intros Hl; [done|]. cbn in *. apply andb_prop in Hl as [Hc Hl].
  apply andb_prop in Hc as [_ Hc]. apply negb_true_iff in Hc. by rewrite Hc, IH.
Qed.

Lemma rstrip_spaces s : rstrip (s ++ [newline]) = rstrip s.
Proof. induction s as [|c s IH]; [done|]. cbn. by rewrite IH. Qed.

Lemma rstrip_app u v : v <> [] -> rstrip v = v -> rstrip (u ++ v) = u ++ v.
Proof.
  intros Hv Hr. induction u as [|c u IH]; [done|]. cbn. rewrite IH. destruct (u ++ v) eqn:E; [|done].
  by apply app_eq_nil in E as [_ ->].
Qed.

Lemma rstrip_no_space s : Forall (fun c => isspace c = false) s -> rstrip s = s.
Proof. induction 1 as [|c s Hc _ IH]; [done|]. cbn. rewrite IH, Hc. by destruct s. Qed.

Lemma rstrip_blank s c : isspace c = true -> rstrip (s ++ [c]) = rstrip s.
Proof. intros Hc. induction s as [|x s IH]; cbn; [by rewrite Hc|]. by rewrite IH. Qed.

Lemma skip_bom_id b c l : c <> ascii_of_nat 239 -> skip_bom b (c :: l) = c :: l.
Proof.
  intros Hc. unfold skip_bom. rewrite bool_decide_false; [by rewrite andb_false_r|]. cbn. intros [= ? ?]. done.
Qed.

Lemma find_word w : forall s stop, Forall (fun c => isspace c = false /\ c ∉ stop) w ->
  find_loop false (w ++ s) stop = (w ++ (find_loop false s stop).1, (find_loop false s stop).2).
Proof.
  induction w as [|c w IH]; intros s stop Hw; cbn; [by destruct (find_loop false s stop)|].
  apply Forall_cons in Hw as [(Hc & Hn) Hw]. rewrite bool_decide_false by done.
  rewrite Hc, IH by done. done.
Qed.

Lemma same_place (x : chars) : bool_decide (x <> x) = false.
Proof. apply bool_decide_eq_false. intros H. by apply H. Qed.

Lemma classify_section b prev s : ok_section s -> classify b prev (section_line s ++ [newline]) = Section_ s.
Proof.
  intros [_ Hs]. unfold classify, section_line. cbn [app]. rewrite skip_bom_id by done.
  assert (rstrip ("[" :: (s ++ ["]"]) ++ [newline]) = "[" :: s ++ ["]"]) as ->.
  { change ("[" :: (s ++ ["]"]) ++ [newline]) with (("[" :: s ++ ["]"]) ++ [newline]). rewrite rstrip_spaces.
    by apply (rstrip_app ("[" :: s) ["]"]). }
  unfold lskip. change (skipws ("[" :: s ++ ["]"])) with ("[" :: s ++ ["]"]).
  rewrite !same_place. rewrite andb_false_r.
  unfold find_chars_or_comment. rewrite find_word.
  - cbn. by rewrite app_nil_r.
  - eapply Forall_impl; [exact Hs|]. intros c (_ & Hc & Hn). split; [done|]. by rewrite list_elem_of_singleton.
Qed.

Lemma skipws_nonspace c l : isspace c = false -> skipws (c :: l) = c :: l.
Proof. intros Hc. cbn. by rewrite Hc. Qed.

Lemma classify_pair b prev n v : ok_name n -> ok_value v -> classify b prev (pair_line n v ++ [newline]) = Pair n v.
Proof.
  intros [(c & n' & En & H1 & H2 & H3 & H4) Hn] (Hv & Hl & Hr & Hf & _). unfold classify.
  assert (isspace c = false) as Hc by (rewrite En in Hn; by apply Forall_cons in Hn as [(_ & ? & _) _]).
  assert (exists u, pair_line n v = c :: u) as [u Eu] by (rewrite En; eexists; reflexivity).
  assert (rstrip (pair_line n v ++ [newline]) = pair_line n v) as Er.
  { rewrite rstrip_spaces. unfold pair_line. rewrite app_assoc. by apply rstrip_app. }
  rewrite Eu in *. cbn [app] in *. rewrite skip_bom_id by done. rewrite Er. unfold lskip. rewrite skipws_nonspace by done.
  rewrite !same_place.
  rewrite (bool_decide_false (c = ";")), (bool_decide_false (c = "#")), (bool_decide_false (c = "[")) by done. rewrite andb_false_r.
  cbn [orb]. rewrite <- Eu. unfold find_chars_or_comment, pair_line. rewrite find_word.
  - assert (find_loop false ([" "; "="; " "] ++ v) ["="; ":"] = ([" "], "=" :: " " :: v)) as -> by reflexivity.
    cbn [fst snd]. unfold value_of, find_chars_or_comment. change (skipws (" " :: v)) with (skipws v).
    rewrite Hl, Hf. cbn [fst]. rewrite Hr.
    rewrite (rstrip_blank n " ") by done. rewrite rstrip_no_space; [done|].
    eapply Forall_impl; [exact Hn|]. by intros x (_ & ? & _).
  - eapply Forall_impl; [exact Hn|]. intros x (_ & ? & ? & ?). split; [done|]. rewrite !elem_of_cons, elem_of_nil. tauto.
Qed.

Lemma plain_section s : ok_section s -> forallb plain_char (section_line s) = true.
Proof.
  intros [_ Hs]. unfold section_line. cbn. rewrite forallb_app. cbn. rewrite andb_true_r.
  apply forallb_Forall. eapply Forall_impl; [exact Hs|]. by intros x (? & _).
Qed.

Lemma plain_pair n v : ok_name n -> ok_value v -> forallb plain_char (pair_line n v) = true.
Proof.
  intros [_ Hn] (_ & _ & _ & _ & Hv). unfold pair_line. rewrite !forallb_app, Hv. cbn. rewrite andb_true_r.
  apply forallb_Forall. eapply Forall_impl; [exact Hn|]. by intros x (? & _).
Qed.

(** One line of a file. *)
Lemma parse_one fuel l f p : forallb plain_char l = true -> (length l < INI_MAX_LINE - 1)%nat ->
  parse_stream (S fuel) (l ++ newline :: f) p = parse_stream fuel f (parse_line (l ++ [newline]) p).
Proof. intros. cbn [parse_stream]. by rewrite fgets_line. Qed.

Lemma parse_section_line s p : ok_section s ->
  parse_line (section_line s ++ [newline]) p = mk_parser s [] (lineno p + 1) (reader p).
Proof.
  intros Hs. unfold parse_line. rewrite cstr_line by (by apply plain_section). rewrite classify_section by done.
  unfold strncpy0. rewrite take_ge; [done|]. destruct Hs as [Hs _]. lia.
Qed.

Lemma parse_pair_line n v p : ok_name n -> ok_value v ->
  parse_line (pair_line n v ++ [newline]) p =
  mk_parser (section p) (strncpy0 n MAX_NAME) (lineno p + 1) (ValueHandler (section p) n v (reader p)).
Proof. intros Hn Hv. unfold parse_line. rewrite cstr_line by (by apply plain_pair). by rewrite classify_pair. Qed.

(** A document: sections with their pairs. *)
Abbreviation document := (list (chars * list (chars * chars))).
Definition pair_text (e : chars * chars) : chars := pair_line e.1 e.2 ++ [newline].
Definition section_text (s : chars * list (chars * chars)) : chars :=
  section_line s.1 ++ [newline] ++ concat (map pair_text s.2).
Definition document_text (d : document) : chars := concat (map section_text d).

Definition ok_document (d : document) : Prop := Forall (fun s => ok_section s.1 /\ Forall ok_pair s.2) d.

(** The settings of a document, in order. *)
Definition settings (d : document) : list (chars * chars * chars) :=
  concat (map (fun s => map (fun e => (s.1, e.1, e.2)) s.2) d).
Definition keys (d : document) : list chars := map (fun x => MakeKey x.1.1 x.1.2) (settings d).

Definition store (r : INIReader) (x : chars * chars * chars) : INIReader := ValueHandler x.1.1 x.1.2 x.2 r.

Lemma parse_pairs es : forall s p, Forall ok_pair es -> section p = s ->
  exists q, section q = s /\ reader q = fold_left store (map (fun e => (s, e.1, e.2)) es) (reader p) /\
    forall fuel f, parse_stream (length es + fuel) (concat (map pair_text es) ++ f) p = parse_stream fuel f q.
Proof.
  induction es as [|[n v] es IH]; intros s p He Hs; [by exists p|]. apply Forall_cons in He as [(Hn & Hv & Hl) He].
  cbn [fst snd] in *.
  destruct (IH s (mk_parser (section p) (strncpy0 n MAX_NAME) (lineno p + 1) (ValueHandler (section p) n v (reader p))))
    as (q & Hq & Hr & E); [done|done|]. exists q. split_and!; [done|cbn; by rewrite Hr, Hs|]. intros fuel f.
  cbn [map concat length Nat.add]. unfold pair_text at 1. cbn [fst snd]. rewrite <- !app_assoc. cbn [app].
  rewrite parse_one by (done || by apply plain_pair). rewrite parse_pair_line by done. apply E.
Qed.

Lemma plain_section_length s : ok_section s -> (length (section_line s) < INI_MAX_LINE - 1)%nat.
Proof. intros [Hs _]. unfold section_line, INI_MAX_LINE. unfold MAX_SECTION in Hs. cbn. rewrite length_app. cbn. lia. Qed.

Lemma parse_sections d : forall p, ok_document d ->
  exists n q, parse_stream n (document_text d) p = Done q /\ reader q = fold_left store (settings d) (reader p).
Proof.
  induction d as [|[s es] d IH]; intros p Hd; [by exists 1%nat, p|]. apply Forall_cons in Hd as [[Hs He] Hd]. cbn [fst snd] in *.
  destruct (parse_pairs es s (mk_parser s [] (lineno p + 1) (reader p))) as (q & Hq & Hr & Eq); [done|done|].
  destruct (IH q Hd) as (n & q' & En & Hr'). exists (S (length es + n)), q'. split.
  - change (document_text ((s, es) :: d)) with (section_text (s, es) ++ document_text d).
    unfold section_text. cbn [fst snd]. rewrite <- !app_assoc. cbn [app].
    rewrite parse_one by (by apply plain_section || by apply plain_section_length).
    rewrite parse_section_line by done. by rewrite Eq.
  - change (settings ((s, es) :: d)) with (map (fun e => (s, e.1, e.2)) es ++ settings d).
    rewrite fold_left_app, Hr', Hr. done.
Qed.

(** Distinct settings are kept as they are. *)
Lemma store_all l : forall r, NoDup (map (fun x => MakeKey x.1.1 x.1.2) l) ->
  (forall x, x ∈ l -> _values r !! MakeKey x.1.1 x.1.2 = None) ->
  let r' := fold_left store l r in
  _error r' = _error r /\
  (forall x, x ∈ l -> _values r' !! MakeKey x.1.1 x.1.2 = Some x.2) /\
  (forall k, k ∉ map (fun x => MakeKey x.1.1 x.1.2) l -> _values r' !! k = _values r !! k).
Proof.
  induction l as [|x l IH]; intros r Hn Hr; cbn [fold_left map] in *.
  { split_and!; [done| |done]. by intros x ?%elem_of_nil. }
  apply NoDup_cons in Hn as [Hx Hn].
  assert (_values (store r x) = <[MakeKey x.1.1 x.1.2 := x.2]> (_values r)) as Es.
  { unfold store, ValueHandler. cbn [_values]. by rewrite (Hr x) by apply elem_of_cons, or_introl, eq_refl. }
  assert (forall y, y ∈ l -> MakeKey y.1.1 y.1.2 <> MakeKey x.1.1 x.1.2) as Hne.
  { intros y Hy E. apply Hx. rewrite <- E. by apply (list_elem_of_fmap_2 (fun x => MakeKey x.1.1 x.1.2)). }
  destruct (IH (store r x) Hn) as (He & Hin & Hout).
  { intros y Hy. rewrite Es, lookup_insert_ne by (intros E; by apply (Hne y Hy)). apply Hr. apply elem_of_cons. by right. }
  split_and!; [done| |].
  - intros y [->|Hy]%elem_of_cons; [|by apply Hin]. rewrite Hout by done. by rewrite Es, lookup_insert_eq.
  - intros k [Hk Hkl]%not_elem_of_cons. rewrite Hout by done. by rewrite Es, lookup_insert_ne.
Qed.

(** C39. Reading a configuration that was written section by section gives back
    every setting, whatever the case of the letters it is asked for in, and the
    default for everything else; no error is reported. *)
Theorem ini_roundtrip d :
  ok_document d -> NoDup (keys d) ->
  exists r, new_INIReader (Some (document_text d)) = Done r /\ ParseError r = 0 /\
    (forall s n v s' n' def, (s, n, v) ∈ settings d -> MakeKey s' n' = MakeKey s n -> Get r s' n' def = v) /\
    (forall s n def, MakeKey s n ∉ keys d -> Get r s n def = def).
Proof.
  intros Hd Hk. destruct (parse_sections d new_parser Hd) as (n & q & En & Hr).
  exists (reader q). cbn [new_INIReader ini_parse]. rewrite (parse_stream_enough n _ q En). split; [done|].
  destruct (store_all (settings d) (empty_reader 0) Hk) as (He & Hin & Hout); [done|].
  cbn [reader new_parser] in Hr. rewrite <- Hr in He, Hin, Hout. unfold ParseError, Get. split_and!; [done| |].
  - intros s m v s' m' def Hx ->. pose proof (Hin (s, m, v) Hx) as E. cbn [fst snd] in E. by rewrite E.
  - intros s m def Hx. by rewrite Hout.
Qed.

(** ** Numbers *)

Lemma show_head_nonzero fuel : forall v, 0 < v < 10 ^ Z.of_nat fuel ->
  exists d s, show fuel 10 v = digit_char d :: s /\ 0 < d < 10.
Proof.
  induction fuel as [|fuel IH]; intros v Hv; [cbn in Hv; lia|]. cbn [show].
  destruct (Z.ltb_spec v 10); [exists v, []; split; [done|lia]|].
  rewrite Nat2Z.inj_succ, Z.pow_succ_r in Hv by lia.
  destruct (IH (v / 10)) as (d & s & -> & Hd).
  { split; [apply Z.div_str_pos; lia|apply Z.div_lt_upper_bound; lia]. }
  by exists d, (s ++ [digit_char (v mod 10)]).
Qed.

Definition decimal_head (d : Z) : bool :=
  let c := digit_char d in negb (bool_decide (c = "0")) && negb (isspace c).

Lemma prefix0_decimal d s : 0 < d < 10 -> prefix0 (digit_char d :: s) = (10, digit_char d :: s).
Proof.
  intros Hd. assert (decimal_head d = true) as H.
  { apply (zrange_forallb decimal_head 1 9); [vm_compute; reflexivity|lia]. }
  apply andb_prop in H as [H _]. apply negb_true_iff, bool_decide_eq_false in H.
  unfold prefix0. repeat case_match; by simplify_eq.
Qed.

(** An integer written in decimal is read as itself. *)
Theorem integer_roundtrip v : 0 <= v < 2 ^ 63 -> strtol0 (show 64 10 v) = Some v.
Proof.
  intros Hv. destruct (decide (v = 0)) as [->|Hz]; [done|].
  destruct (show_head_nonzero 64 v) as (d & s & Es & Hd).
  { split; [lia|]. assert (2 ^ 63 < 10 ^ Z.of_nat 64) by (vm_compute; reflexivity). lia. }
  destruct (field_value 10 v []) as (E & E1 & _); [lia|lia|done|]. rewrite app_nil_r in E, E1.
  destruct (digit_char_ok d) as (_ & Hsp & Hm & Hp); [lia|]. unfold strtol0.
  rewrite Es in E, E1 |- *. rewrite skipws_nonspace by done. rewrite sign_digit by done. cbn [fst snd].
  rewrite prefix0_decimal by done. cbn [fst snd]. rewrite E1, E. cbn [fst]. f_equal. lia.
Qed.

(** A number that starts with a zero is read in base eight, although the
    documentation of [GetInteger] names decimal and hexadecimal numbers only. *)
Theorem leading_zero_is_octal v : 0 <= v < 2 ^ 63 -> strtol0 ("0" :: show 64 8 v) = Some v.
Proof.
  intros Hv. destruct (field_value 8 v []) as (E & E1 & _); [lia|lia|done|]. rewrite app_nil_r in E, E1.
  destruct (show_head 8 64 ltac:(lia) v) as (d & s & Es & Hd); [lia|done|].
  destruct (digit_char_ok d Hd) as (Hdv & _).
  assert (prefix0 ("0" :: show 64 8 v) = (8, "0" :: show 64 8 v)) as Ep.
  { rewrite Es. assert (digit_char d <> "x" /\ digit_char d <> "X") as [Hx HX].
    { split; intros Ex; rewrite Ex in Hdv; vm_compute in Hdv; lia. }
    unfold prefix0. repeat case_match; by simplify_eq. }
  unfold strtol0. change (skipws ("0" :: ?x)) with ("0" :: x). change (sign ("0" :: ?x)) with (false, "0" :: x).
  cbn [fst snd]. rewrite Ep. cbn [fst snd]. change (digits 8 0 ("0" :: show 64 8 v)) with (digits 8 0 (show 64 8 v)).
  rewrite E. cbn [fst snd length]. rewrite bool_decide_false by done. f_equal. lia.
Qed.

(** ** Lines that do not fit *)

Lemma fgets_loop_full l : forall n f, forallb plain_char l = true -> length l = n -> fgets_loop n (l ++ f) = (l, f).
Proof.
  induction l as [|c l IH]; intros n f Hl <-; [done|]. cbn in *. apply andb_prop in Hl as [Hc Hl].
  apply andb_prop in Hc as [Hc _]. apply negb_true_iff in Hc. rewrite Hc. by rewrite IH.
Qed.

Lemma rstrip_head c s : isspace c = false -> exists u, rstrip (c :: s) = c :: u.
Proof. intros Hc. cbn. rewrite Hc. destruct (rstrip s); eauto. Qed.

(** A comment longer than the line buffer is not skipped as a whole: what
    comes after its first 199 characters is a line of its own, and a pair in it is
    a setting. *)
Theorem long_comment_is_a_setting s n v c :
  ok_section s -> ok_pair (n, v) -> forallb plain_char c = true -> length c = 198%nat ->
  exists r, new_INIReader (Some (section_text (s, []) ++ ";" :: c ++ pair_text (n, v))) = Done r /\
    ParseError r = 0 /\ forall def, Get r s n def = v.
Proof.
  intros Hs (Hn & Hv & Hl) Hc Hlen. cbn [fst snd] in *.
  set (p1 := mk_parser s [] 1 (empty_reader 0)).
  set (p3 := mk_parser s (strncpy0 n MAX_NAME) 3 (ValueHandler s n v (empty_reader 0))).
  exists (reader p3). split; [|split; [done|]].
  - cbn [new_INIReader ini_parse]. rewrite (parse_stream_enough 4 _ p3); [done|].
    unfold section_text. cbn [fst snd map concat]. rewrite app_nil_r, <- app_assoc. cbn [app].
    rewrite parse_one by (by apply plain_section || by apply plain_section_length).
    rewrite parse_section_line by done. cbn [lineno reader new_parser]. change (0 + 1) with 1. fold p1.
    cbn [parse_stream].
    assert (fgets INI_MAX_LINE (";" :: c ++ pair_text (n, v)) = Some (";" :: c, pair_text (n, v))) as ->.
    { unfold fgets. change (INI_MAX_LINE - 1)%nat with 199%nat. f_equal.
      change (";" :: c ++ pair_text (n, v)) with ((";" :: c) ++ pair_text (n, v)). apply fgets_loop_full; [done|cbn; lia]. }
    assert (parse_line (";" :: c) p1 = mk_parser s [] 2 (empty_reader 0)) as ->.
    { unfold parse_line. cbn [lineno p1 section prev_name reader]. change (1 + 1 =? 1) with false.
      unfold classify, skip_bom. cbn [andb cstr]. rewrite bool_decide_false by done.
      destruct (rstrip_head ";" (cstr c)) as [u ->]; [done|]. unfold lskip. rewrite skipws_nonspace by done.
      by rewrite bool_decide_true. }
    unfold pair_text. cbn [fst snd]. rewrite fgets_line by (done || by apply plain_pair).
    rewrite parse_pair_line by done. done.
  - intros def. unfold Get, p3. cbn [reader ValueHandler _values empty_reader]. by rewrite lookup_insert_eq.
Qed.

(** ** Examples *)

Definition demo_document : document :=
  [(text_of "system", [(text_of "channels", text_of "2"); (text_of "Address_Mapping", text_of "rochrababgco")]);
   (text_of "timing", [(text_of "CL", text_of "22")])].

Lemma demo_document_ok : ok_document demo_document.
Proof.
  repeat constructor; cbn [fst snd]; try (vm_compute; lia); try (vm_compute; congruence);
    try (eexists _, _; split_and!; [reflexivity|vm_compute; congruence..]).
Qed.

Lemma ini_roundtrip_witness :
  exists r, new_INIReader (Some (document_text demo_document)) = Done r /\ ParseError r = 0 /\
    Get r (text_of "System") (text_of "CHANNELS") [] = text_of "2" /\
    Get r (text_of "timing") (text_of "CL") [] = text_of "22" /\
    Get r (text_of "timing") (text_of "CWL") (text_of "12") = text_of "12".
Proof.
  destruct (ini_roundtrip demo_document) as (r & E & He & Hin & Hout).
  - exact demo_document_ok.
  - apply (bool_decide_eq_true_1 _). vm_compute. reflexivity.
  - exists r. split_and!; [exact E|exact He|..].
    + apply (Hin (text_of "system") (text_of "channels") (text_of "2")); [|reflexivity].
      apply (bool_decide_eq_true_1 _). vm_compute. reflexivity.
    + apply (Hin (text_of "timing") (text_of "CL") (text_of "22")); [|reflexivity].
      apply (bool_decide_eq_true_1 _). vm_compute. reflexivity.
    + apply Hout. apply (bool_decide_eq_true_1 _). vm_compute. reflexivity.
Defined.

Lemma integer_roundtrip_witness : strtol0 (text_of "1587301") = Some 1587301.
Proof. apply (integer_roundtrip 1587301). lia. Defined.

Lemma leading_zero_is_octal_witness : strtol0 (text_of "0100") = Some 64.
Proof. apply (leading_zero_is_octal 64). lia. Defined.

Lemma long_comment_is_a_setting_witness :
  exists r, new_INIReader (Some (section_text (text_of "timing", []) ++ ";" :: replicate 198 "-" ++
      pair_text (text_of "CL", text_of "9"))) = Done r /\
    ParseError r = 0 /\ forall def, Get r (text_of "timing") (text_of "CL") def = text_of "9".
Proof.
  apply long_comment_is_a_setting.
  - split; [vm_compute; lia|]. repeat constructor; vm_compute; congruence.
  - repeat constructor; cbn [fst snd]; try (vm_compute; lia); try (vm_compute; congruence).
    eexists _, _. split_and!; [reflexivity|vm_compute; congruence..].
  - reflexivity.
  - reflexivity.
Defined.

End Ini.
