(* ===== verification/DramBank.v ===== *)
(** * DRAMsim3: one bank, and the table of timing constraints

    [runtime/DRAMsim3/include/dramsim3/bankstate.h], [src/bankstate.cc],
    [include/dramsim3/timing.h] and [src/timing.cc].  The vector [cmd_timing_] has
    one entry for each command type and is a function of the type here. *)

From S2P Require Import Prelude DramCommon.

Module Bank.
Import Dram.

Inductive State := OPEN | CLOSED | SREF | PD.

#[export] Instance State_eq_dec : EqDecision State.
Proof. solve_decision. Defined.

Record BankState := mk_bank {
  state_ : State;
  cmd_timing_ : CommandType -> Z;
  open_row_ : Z;
  row_hit_count_ : Z
}.

(** [BankState::BankState]. *)
Definition bank_init : BankState := mk_bank CLOSED (fun _ => 0) (-1) 0.

Definition IsRowOpen (b : BankState) : bool := bool_decide (state_ b = OPEN).
Definition OpenRow (b : BankState) : Z := open_row_ b.
Definition RowHitCount (b : BankState) : Z := row_hit_count_ b.

(** The command the bank needs next on the way to [cmd]. *)
Definition required_type (b : BankState) (cmd : Command) : outcome CommandType :=
  match state_ b with
  | CLOSED =>
      match cmd_type cmd with
      | READ | READ_PRECHARGE | WRITE | WRITE_PRECHARGE => Done ACTIVATE
      | REFRESH | REFRESH_BANK | SREF_ENTER => Done (cmd_type cmd)
      | _ => AbruptExit
      end
  | OPEN =>
      match cmd_type cmd with
      | READ | READ_PRECHARGE | WRITE | WRITE_PRECHARGE =>
          if Row cmd =? open_row_ b then Done (cmd_type cmd) else Done PRECHARGE
      | REFRESH | REFRESH_BANK | SREF_ENTER => Done PRECHARGE
      | _ => AbruptExit
      end
  | SREF =>
      match cmd_type cmd with
      | READ | READ_PRECHARGE | WRITE | WRITE_PRECHARGE => Done SREF_EXIT
      | _ => AbruptExit
      end
  | PD => AbruptExit
  end.

Definition GetReadyCommand (b : BankState) (cmd : Command) (clk : Z) : outcome Command :=
  t ← required_type b cmd;
  if negb (bool_decide (t = SIZE)) && (cmd_timing_ b t <=? clk)
  then Done (mk_cmd t (cmd_addr cmd) (hex_addr cmd)) else Done no_command.

Definition UpdateState (b : BankState) (cmd : Command) : outcome BankState :=
  match state_ b with
  | OPEN =>
      match cmd_type cmd with
      | READ | WRITE => Done (mk_bank OPEN (cmd_timing_ b) (open_row_ b) (row_hit_count_ b + 1))
      | READ_PRECHARGE | WRITE_PRECHARGE | PRECHARGE => Done (mk_bank CLOSED (cmd_timing_ b) (-1) 0)
      | _ => AbruptExit
      end
  | CLOSED =>
      match cmd_type cmd with
      | REFRESH | REFRESH_BANK => Done b
      | ACTIVATE => Done (mk_bank OPEN (cmd_timing_ b) (Row cmd) (row_hit_count_ b))
      | SREF_ENTER => Done (mk_bank SREF (cmd_timing_ b) (open_row_ b) (row_hit_count_ b))
      | _ => AbruptExit
      end
  | SREF =>
      match cmd_type cmd with
      | SREF_EXIT => Done (mk_bank CLOSED (cmd_timing_ b) (open_row_ b) (row_hit_count_ b))
      | _ => AbruptExit
      end
  | PD => AbruptExit
  end.

Definition UpdateTiming (t : CommandType) (time : Z) (b : BankState) : BankState :=
  mk_bank (state_ b)
    (fun u => if decide (u = t) then Z.max (cmd_timing_ b t) time else cmd_timing_ b u)
    (open_row_ b) (row_hit_count_ b).

(** ** [Timing] *)

(** For a command, what it forbids to later commands, and for how long. *)
Definition table := CommandType -> list (CommandType * Z).

Record Timing := mk_timing {
  same_bank : table;
  other_banks_same_bankgroup : table;
  other_bankgroups_same_rank : table;
  other_ranks : table;
  same_rank : table
}.

(** The four column commands after a column command. *)
Definition column_cmds (r w : Z) : list (CommandType * Z) :=
  [(READ, r); (WRITE, w); (READ_PRECHARGE, r); (WRITE_PRECHARGE, w)].

Section Timing.
Variable c : Config.
Let d := str_ c.
Let p := tim_ c.

Definition read_to_read_l : Z :=
  if bankgroups d =? 1 then Z.max (burst_cycle d) (tCCD_S p) else Z.max (burst_cycle d) (tCCD_L p).
Definition read_to_read_s : Z := Z.max (burst_cycle d) (tCCD_S p).
Definition read_to_read_o : Z := burst_cycle d + tRTRS p.
Definition read_to_write : Z := RL p + burst_cycle d - WL p + tRTRS p.
Definition read_to_write_o : Z := read_delay p + burst_cycle d + tRTRS p - write_delay p.
Definition read_to_precharge : Z := AL p + tRTP p.
Definition readp_to_act : Z := AL p + burst_cycle d + tRTP p + tRP p.
Definition write_to_read_l : Z :=
  if bankgroups d =? 1 then write_delay p + tWTR_S p else write_delay p + tWTR_L p.
Definition write_to_read_s : Z := write_delay p + tWTR_S p.
Definition write_to_read_o : Z := write_delay p + burst_cycle d + tRTRS p - read_delay p.
Definition write_to_write_l : Z :=
  if bankgroups d =? 1 then Z.max (burst_cycle d) (tCCD_S p) else Z.max (burst_cycle d) (tCCD_L p).
Definition write_to_write_s : Z := Z.max (burst_cycle d) (tCCD_S p).
Definition write_to_write_o : Z := burst_cycle d.
Definition write_to_precharge : Z := WL p + burst_cycle d + tWR p.
Definition precharge_to_activate : Z := tRP p.
Definition precharge_to_precharge : Z := tPPD p.
Definition read_to_activate : Z := read_to_precharge + precharge_to_activate.
Definition write_to_activate : Z := write_to_precharge + precharge_to_activate.
Definition activate_to_activate : Z := tRC p.
Definition activate_to_activate_l : Z := if bankgroups d =? 1 then tRRD_S p else tRRD_L p.
Definition activate_to_activate_s : Z := tRRD_S p.
Definition activate_to_precharge : Z := tRAS p.
Definition activate_to_read : Z :=
  if is_gddr (protocol d) || is_hbm (protocol d) then tRCDRD p else tRCD p - AL p.
Definition activate_to_write : Z :=
  if is_gddr (protocol d) || is_hbm (protocol d) then tRCDWR p else tRCD p - AL p.
Definition activate_to_refresh : Z := tRC p.
Definition refresh_to_refresh : Z := tREFI p.
Definition refresh_to_activate : Z := tRFC p.
Definition refresh_to_activate_bank : Z := tRFCb p.
Definition self_refresh_entry_to_exit : Z := tCKESR p.
Definition self_refresh_exit : Z := tXS p.

(** The ways to close a bank before [ACTIVATE] or a refresh. *)
Definition after_close (act ref : Z) : list (CommandType * Z) :=
  [(ACTIVATE, act); (REFRESH, ref); (REFRESH_BANK, ref); (SREF_ENTER, ref)].

Definition t_same_bank : table := fun t =>
  match t with
  | READ => column_cmds read_to_read_l read_to_write ++ [(PRECHARGE, read_to_precharge)]
  | WRITE => column_cmds write_to_read_l write_to_write_l ++ [(PRECHARGE, write_to_precharge)]
  | READ_PRECHARGE => after_close readp_to_act read_to_activate
  | WRITE_PRECHARGE => after_close write_to_activate write_to_activate
  | ACTIVATE =>
      (ACTIVATE, activate_to_activate) :: column_cmds activate_to_read activate_to_write ++
      [(PRECHARGE, activate_to_precharge)]
  | PRECHARGE => after_close precharge_to_activate precharge_to_activate
  | _ => []
  end.

(** [tPPD] applies to GDDR and LPDDR4. *)
Definition precharge_table : list (CommandType * Z) :=
  if is_gddr (protocol d) || bool_decide (protocol d = LPDDR4)
  then [(PRECHARGE, precharge_to_precharge)] else [].

Definition t_other_banks_same_bankgroup : table := fun t =>
  match t with
  | READ | READ_PRECHARGE => column_cmds read_to_read_l read_to_write
  | WRITE | WRITE_PRECHARGE => column_cmds write_to_read_l write_to_write_l
  | ACTIVATE => [(ACTIVATE, activate_to_activate_l); (REFRESH_BANK, activate_to_refresh)]
  | PRECHARGE => precharge_table
  | REFRESH_BANK => [(ACTIVATE, refresh_to_activate); (REFRESH_BANK, refresh_to_refresh)]
  | _ => []
  end.

Definition t_other_bankgroups_same_rank : table := fun t =>
  match t with
  | READ | READ_PRECHARGE => column_cmds read_to_read_s read_to_write
  | WRITE | WRITE_PRECHARGE => column_cmds write_to_read_s write_to_write_s
  | ACTIVATE => [(ACTIVATE, activate_to_activate_s); (REFRESH_BANK, activate_to_refresh)]
  | PRECHARGE => precharge_table
  | REFRESH_BANK => [(ACTIVATE, refresh_to_activate); (REFRESH_BANK, refresh_to_refresh)]
  | _ => []
  end.

Definition t_other_ranks : table := fun t =>
  match t with
  | READ | READ_PRECHARGE => column_cmds read_to_read_o read_to_write_o
  | WRITE | WRITE_PRECHARGE => column_cmds write_to_read_o write_to_write_o
  | _ => []
  end.

Definition t_same_rank : table := fun t =>
  match t with
  | REFRESH_BANK => after_close refresh_to_activate_bank refresh_to_activate_bank
  | REFRESH => [(ACTIVATE, refresh_to_activate); (REFRESH, refresh_to_activate); (SREF_ENTER, refresh_to_activate)]
  | SREF_ENTER => [(SREF_EXIT, self_refresh_entry_to_exit)]
  | SREF_EXIT => after_close self_refresh_exit self_refresh_exit
  | _ => []
  end.

(** [Timing::Timing]. *)
Definition new_timing : Timing :=
  mk_timing t_same_bank t_other_banks_same_bankgroup t_other_bankgroups_same_rank t_other_ranks t_same_rank.
End Timing.

(** ** Lemmas *)

(** A command a bank declares ready respects the bank's timing. *)
Lemma ready_timing b cmd clk c :
  GetReadyCommand b cmd clk = Done c -> IsValid c = true ->
  cmd_timing_ b (cmd_type c) <= clk /\ cmd_addr c = cmd_addr cmd /\ hex_addr c = hex_addr cmd /\
  required_type b cmd = Done (cmd_type c).
Proof.
  unfold GetReadyCommand. destruct (required_type b cmd) as [t| | | |]; try done. cbn [mbind outcome_bind].
  destruct (negb _ && _) eqn:E; intros [= <-]; [|done]. zb. intros _. by split_and!.
Qed.

(** What the ready command says about the bank. *)
Lemma ready_state b cmd t :
  required_type b cmd = Done t ->
  match t with
  | READ | READ_PRECHARGE | WRITE | WRITE_PRECHARGE => state_ b = OPEN /\ t = cmd_type cmd /\ Row cmd = open_row_ b
  | ACTIVATE => state_ b = CLOSED /\ IsReadWrite cmd = true
  | PRECHARGE => state_ b = OPEN
  | REFRESH | REFRESH_BANK | SREF_ENTER => state_ b = CLOSED /\ t = cmd_type cmd
  | SREF_EXIT => state_ b = SREF /\ IsReadWrite cmd = true
  | SIZE => False
  end.
Proof.
  unfold required_type, IsReadWrite, IsRead, IsWrite.
  destruct (state_ b); [| | |done]; destruct (cmd_type cmd) eqn:E; try done;
    try (destruct (Row cmd =? open_row_ b) eqn:Er; zb); intros [= <-]; done.
Qed.

(** A ready command is accepted by the bank it was asked for. *)
Lemma ready_accepted b cmd t a h :
  required_type b cmd = Done t -> exists b', UpdateState b (mk_cmd t a h) = Done b'.
Proof.
  intros E. apply ready_state in E. unfold UpdateState. cbn [cmd_type].
  destruct t; try done; (destruct E as (-> & _) || rewrite E); eauto.
Qed.

Lemma UpdateState_timing b c b' : UpdateState b c = Done b' -> cmd_timing_ b' = cmd_timing_ b.
Proof.
  unfold UpdateState. destruct (state_ b), (cmd_type c); try done; by intros [= <-].
Qed.

End Bank.
