(* ===== verification/ChannelState.v ===== *)
(** * DRAMsim3: the banks of a channel

    [runtime/DRAMsim3/include/dramsim3/channel_state.h] and
    [src/channel_state.cc].  Loops over banks visit a list of positions (rank,
    bank group, bank) in the order of the source. *)

From S2P Require Import Prelude DramCommon DramBank.

Module Chan.
Import Dram Bank.

Definition banks3 := list (list (list BankState)).
Definition pos := (Z * Z * Z)%type.

Record ChannelState := mk_cs {
  rank_idle_cycles : list Z;
  rank_is_sref_ : list bool;
  bank_states_ : banks3;
  refresh_q_ : list Command;
  four_aw_ : list (list Z);
  thirty_two_aw_ : list (list Z)
}.

(** [bank_states_[i][j][k]]. *)
Definition bget (bs : banks3) (x : pos) : outcome BankState :=
  l1 ← vget bs x.1.1; l2 ← vget l1 x.1.2; vget l2 x.2.

(** [bank_states_[i][j][k]] replaced by [f] of it. *)
Definition bupd (f : BankState -> outcome BankState) (x : pos) (bs : banks3) : outcome banks3 :=
  l1 ← vget bs x.1.1; l2 ← vget l1 x.1.2; b ← vget l2 x.2; b' ← f b;
  Done (zinsert x.1.1 (zinsert x.1.2 (zinsert x.2 b' l2) l1) bs).

Fixpoint for_banks (f : BankState -> outcome BankState) (xs : list pos) (bs : banks3) : outcome banks3 :=
  match xs with
  | [] => Done bs
  | x :: xs' => bs' ← bupd f x bs; for_banks f xs' bs'
  end.

Definition with_banks (bs : banks3) (s : ChannelState) : ChannelState :=
  mk_cs (rank_idle_cycles s) (rank_is_sref_ s) bs (refresh_q_ s) (four_aw_ s) (thirty_two_aw_ s).
Definition with_refresh (q : list Command) (s : ChannelState) : ChannelState :=
  mk_cs (rank_idle_cycles s) (rank_is_sref_ s) (bank_states_ s) q (four_aw_ s) (thirty_two_aw_ s).
Definition with_sref (l : list bool) (s : ChannelState) : ChannelState :=
  mk_cs (rank_idle_cycles s) l (bank_states_ s) (refresh_q_ s) (four_aw_ s) (thirty_two_aw_ s).
Definition with_idle (l : list Z) (s : ChannelState) : ChannelState :=
  mk_cs l (rank_is_sref_ s) (bank_states_ s) (refresh_q_ s) (four_aw_ s) (thirty_two_aw_ s).

Section Channel.
Variable config : Config.
Variable timing : Timing.
Let R := ranks (size_ config).
Let G := bankgroups (str_ config).
Let K := banks_per_group (str_ config).

(** [ChannelState::ChannelState]. *)
Definition new_channel_state : ChannelState :=
  let n := Z.to_nat R in
  mk_cs (replicate n 0) (replicate n false)
    (replicate n (replicate (Z.to_nat G) (replicate (Z.to_nat K) bank_init)))
    [] (replicate n []) (replicate n []).

Definition c_IsRowOpen (s : ChannelState) (x : pos) : outcome bool :=
  b ← bget (bank_states_ s) x; Done (IsRowOpen b).
Definition c_OpenRow (s : ChannelState) (x : pos) : outcome Z :=
  b ← bget (bank_states_ s) x; Done (OpenRow b).
Definition c_RowHitCount (s : ChannelState) (x : pos) : outcome Z :=
  b ← bget (bank_states_ s) x; Done (RowHitCount b).
Definition IsRankSelfRefreshing (s : ChannelState) (r : Z) : outcome bool := vget (rank_is_sref_ s) r.
Definition IsRefreshWaiting (s : ChannelState) : bool := negb (bool_decide (refresh_q_ s = [])).
Definition PendingRefCommand (s : ChannelState) : outcome Command := or_undef (head (refresh_q_ s)).

(** All banks of rank [r], group by group. *)
Definition rank_positions (r : Z) : list pos :=
  zrange 0 (Z.to_nat G) ≫= fun j => map (fun k => (r, j, k)) (zrange 0 (Z.to_nat K)).

Definition cmd_pos (c : Command) : pos := (Rank c, Bankgroup c, Bank c).

Fixpoint all_idle (bs : banks3) (xs : list pos) : outcome bool :=
  match xs with
  | [] => Done true
  | x :: xs' => b ← bget bs x; (if IsRowOpen b then Done false else all_idle bs xs')
  end.

Definition IsAllBankIdleInRank (s : ChannelState) (r : Z) : outcome bool :=
  all_idle (bank_states_ s) (rank_positions r).

Definition IsRWPendingOnRef (s : ChannelState) (c : Command) : outcome bool :=
  b ← bget (bank_states_ s) (cmd_pos c);
  Done (IsRowOpen b && (RowHitCount b =? 0) && (OpenRow b =? Row c)).

(** The first pending refresh that [f] selects is dropped. *)
Fixpoint erase_refresh (f : Command -> bool) (q : list Command) : list Command :=
  match q with
  | [] => []
  | c :: q' => if f c then q' else c :: erase_refresh f q'
  end.

Definition BankNeedRefresh (r j k : Z) (need : bool) (s : ChannelState) : ChannelState :=
  with_refresh
    (if need then refresh_q_ s ++ [mk_cmd REFRESH_BANK (mk_addr (-1) r j k (-1) (-1)) (u64 (-1))]
     else erase_refresh (fun c => (Rank c =? r) && (Bankgroup c =? j) && (Bank c =? k)) (refresh_q_ s)) s.

Definition RankNeedRefresh (r : Z) (need : bool) (s : ChannelState) : ChannelState :=
  with_refresh
    (if need then refresh_q_ s ++ [mk_cmd REFRESH (mk_addr (-1) r (-1) (-1) (-1) (-1)) (u64 (-1))]
     else erase_refresh (fun c => Rank c =? r) (refresh_q_ s)) s.

(** ** Activation windows *)

Definition window_ready (l : list Z) (n : nat) (now : Z) : bool :=
  match l with
  | [] => true
  | t :: _ => negb ((now <? t) && (n <=? length l)%nat)
  end.

Definition IsFAWReady (s : ChannelState) (r now : Z) : outcome bool :=
  l ← vget (four_aw_ s) r; Done (window_ready l 4 now).
Definition Is32AWReady (s : ChannelState) (r now : Z) : outcome bool :=
  l ← vget (thirty_two_aw_ s) r; Done (window_ready l 32 now).

Definition ActivationWindowOk (s : ChannelState) (r now : Z) : outcome bool :=
  tfaw_ok ← IsFAWReady s r now;
  if is_gddr (protocol (str_ config))
  then if (tfaw_ok : bool) then Is32AWReady s r now else Done false
  else Done tfaw_ok.

(** The oldest entry leaves when it has expired, the new one comes in. *)
Definition window_push (l : list Z) (now len : Z) : list Z :=
  match l with
  | t :: l' => if now >=? t then l' ++ [u64 (now + len)] else l ++ [u64 (now + len)]
  | [] => [u64 (now + len)]
  end.

Definition UpdateActivationTimes (r now : Z) (s : ChannelState) : outcome ChannelState :=
  l ← vget (four_aw_ s) r;
  let f := zinsert r (window_push l now (tFAW (tim_ config))) (four_aw_ s) in
  if is_gddr (protocol (str_ config)) then
    l2 ← vget (thirty_two_aw_ s) r;
    Done (mk_cs (rank_idle_cycles s) (rank_is_sref_ s) (bank_states_ s) (refresh_q_ s) f
            (zinsert r (window_push l2 now (t32AW (tim_ config))) (thirty_two_aw_ s)))
  else Done (mk_cs (rank_idle_cycles s) (rank_is_sref_ s) (bank_states_ s) (refresh_q_ s) f
               (thirty_two_aw_ s)).

(** ** Which command can go next *)

(** The loop over the banks of a rank: a bank that needs another command first
    gives that command; otherwise the ready banks are counted. *)
Fixpoint scan_rank (bs : banks3) (cmd : Command) (clk : Z) (xs : list pos) (ready : Command) (n : Z)
    : outcome (Command + Command * Z) :=
  match xs with
  | [] => Done (inr (ready, n))
  | x :: xs' =>
      b ← bget bs x;
      c ← GetReadyCommand b cmd clk;
      if negb (IsValid c) then scan_rank bs cmd clk xs' c n
      else if negb (bool_decide (cmd_type c = cmd_type cmd))
      then Done (inl (mk_cmd (cmd_type c) (mk_addr (-1) (Rank cmd) x.1.2 x.2 (-1) (-1)) (hex_addr c)))
      else scan_rank bs cmd clk xs' c (n + 1)
  end.

Definition c_GetReadyCommand (s : ChannelState) (cmd : Command) (clk : Z) : outcome Command :=
  if IsRankCMD cmd then
    o ← scan_rank (bank_states_ s) cmd clk (rank_positions (Rank cmd)) no_command 0;
    match o with
    | inl c => Done c
    | inr (c, n) => if n =? banks (str_ config) then Done c else Done no_command
    end
  else
    b ← bget (bank_states_ s) (cmd_pos cmd);
    c ← GetReadyCommand b cmd clk;
    if negb (IsValid c) then Done no_command
    else if bool_decide (cmd_type c = ACTIVATE) then
      ok ← ActivationWindowOk s (Rank c) clk;
      (if (ok : bool) then Done c else Done no_command)
    else Done c.

(** ** The effect of a command *)

Definition c_UpdateState (cmd : Command) (s : ChannelState) : outcome ChannelState :=
  if IsRankCMD cmd then
    bs ← for_banks (fun b => UpdateState b cmd) (rank_positions (Rank cmd)) (bank_states_ s);
    let s1 := with_banks bs s in
    match cmd_type cmd with
    | REFRESH => Done (RankNeedRefresh (Rank cmd) false s1)
    | SREF_ENTER => l ← vset (rank_is_sref_ s1) (Rank cmd) true; Done (with_sref l s1)
    | SREF_EXIT => l ← vset (rank_is_sref_ s1) (Rank cmd) false; Done (with_sref l s1)
    | _ => Done s1
    end
  else
    bs ← for_banks (fun b => UpdateState b cmd) [cmd_pos cmd] (bank_states_ s);
    let s1 := with_banks bs s in
    if IsRefresh cmd then Done (BankNeedRefresh (Rank cmd) (Bankgroup cmd) (Bank cmd) false s1)
    else Done s1.

(** The loop over a constraint list: [clk + cmd_timing.second] in 64 bits. *)
Definition apply_list (l : list (CommandType * Z)) (clk : Z) (b : BankState) : BankState :=
  fold_left (fun b e => UpdateTiming e.1 (u64 (clk + e.2)) b) l b.

Definition other_banks (a : Address) : list pos :=
  map (fun k => (rank a, bankgroup a, k)) (filter (fun k => k <> bank a) (zrange 0 (Z.to_nat K))).
Definition other_bankgroups (a : Address) : list pos :=
  filter (fun j => j <> bankgroup a) (zrange 0 (Z.to_nat G)) ≫= fun j =>
    map (fun k => (rank a, j, k)) (zrange 0 (Z.to_nat K)).
Definition other_rank_banks (a : Address) : list pos :=
  filter (fun i => i <> rank a) (zrange 0 (Z.to_nat R)) ≫= rank_positions.

Definition UpdateSameBankTiming (a : Address) (l : list (CommandType * Z)) (clk : Z) (bs : banks3) :=
  for_banks (fun b => Done (apply_list l clk b)) (match l with [] => [] | _ => [(rank a, bankgroup a, bank a)] end) bs.
Definition UpdateOtherBanksSameBankgroupTiming (a : Address) (l : list (CommandType * Z)) (clk : Z) (bs : banks3) :=
  for_banks (fun b => Done (apply_list l clk b)) (match l with [] => [] | _ => other_banks a end) bs.
Definition UpdateOtherBankgroupsSameRankTiming (a : Address) (l : list (CommandType * Z)) (clk : Z) (bs : banks3) :=
  for_banks (fun b => Done (apply_list l clk b)) (match l with [] => [] | _ => other_bankgroups a end) bs.
Definition UpdateOtherRanksTiming (a : Address) (l : list (CommandType * Z)) (clk : Z) (bs : banks3) :=
  for_banks (fun b => Done (apply_list l clk b)) (match l with [] => [] | _ => other_rank_banks a end) bs.
Definition UpdateSameRankTiming (a : Address) (l : list (CommandType * Z)) (clk : Z) (bs : banks3) :=
  for_banks (fun b => Done (apply_list l clk b)) (match l with [] => [] | _ => rank_positions (rank a) end) bs.

Definition c_UpdateTiming (cmd : Command) (clk : Z) (s : ChannelState) : outcome ChannelState :=
  let t := cmd_type cmd in
  let a := cmd_addr cmd in
  match t with
  | REFRESH | SREF_ENTER | SREF_EXIT =>
      bs ← UpdateSameRankTiming a (same_rank timing t) clk (bank_states_ s);
      Done (with_banks bs s)
  | SIZE => AbruptExit
  | _ =>
      s1 ← (if bool_decide (t = ACTIVATE) then UpdateActivationTimes (Rank cmd) clk s else Done s);
      b1 ← UpdateSameBankTiming a (same_bank timing t) clk (bank_states_ s1);
      b2 ← UpdateOtherBanksSameBankgroupTiming a (other_banks_same_bankgroup timing t) clk b1;
      b3 ← UpdateOtherBankgroupsSameRankTiming a (other_bankgroups_same_rank timing t) clk b2;
      b4 ← UpdateOtherRanksTiming a (other_ranks timing t) clk b3;
      Done (with_banks b4 s1)
  end.

Definition UpdateTimingAndStates (cmd : Command) (clk : Z) (s : ChannelState) : outcome ChannelState :=
  s1 ← c_UpdateState cmd s; c_UpdateTiming cmd clk s1.

(** ** The grid of banks *)

Definition bank_at (bs : banks3) (x : pos) : option BankState :=
  l1 ← zlookup bs x.1.1; l2 ← zlookup l1 x.1.2; zlookup l2 x.2.

Definition in_range (x : pos) : Prop := 0 <= x.1.1 < R /\ 0 <= x.1.2 < G /\ 0 <= x.2 < K.

(** [ranks] x [bankgroups] x [banks_per_group] banks. *)
Definition shape (bs : banks3) : Prop :=
  Z.of_nat (length bs) = R /\
  Forall (fun l1 => Z.of_nat (length l1) = G /\ Forall (fun l2 => Z.of_nat (length l2) = K) l1) bs.

Lemma bget_at bs x : bget bs x = or_undef (bank_at bs x).
Proof.
  unfold bget, bank_at, vget. destruct (zlookup bs x.1.1) as [l1|]; [|done]. cbn.
  by destruct (zlookup l1 x.1.2).
Qed.

Lemma zlookup_Forall {A} (P : A -> Prop) l i a : Forall P l -> zlookup l i = Some a -> P a.
Proof.
  unfold zlookup. case_decide; [|done]. intros Hf Hl. by eapply Forall_lookup_1.
Qed.

Lemma zinsert_Forall {A} (P : A -> Prop) l i a : Forall P l -> P a -> Forall P (zinsert i a l).
Proof. unfold zinsert. case_decide; [|done]. intros. by apply Forall_insert. Qed.

Lemma shape_at bs x : shape bs -> in_range x -> exists l1 l2 b,
  zlookup bs x.1.1 = Some l1 /\ zlookup l1 x.1.2 = Some l2 /\ zlookup l2 x.2 = Some b /\
  Z.of_nat (length l1) = G /\ Forall (fun l2 => Z.of_nat (length l2) = K) l1 /\ Z.of_nat (length l2) = K.
Proof.
  intros [Hl Hf] (Hr & Hg & Hk). destruct (zlookup_in_range bs x.1.1) as [l1 E1]; [lia|].
  destruct (zlookup_Forall _ _ _ _ Hf E1) as [Hl1 Hf1].
  destruct (zlookup_in_range l1 x.1.2) as [l2 E2]; [lia|].
  pose proof (zlookup_Forall _ _ _ _ Hf1 E2) as Hl2. simpl in Hl2.
  destruct (zlookup_in_range l2 x.2) as [b E3]; [lia|]. by exists l1, l2, b.
Qed.

Lemma shape_bank bs x : shape bs -> in_range x -> exists b, bank_at bs x = Some b.
Proof.
  intros Hs Hx. destruct (shape_at bs x Hs Hx) as (l1 & l2 & b & E1 & E2 & E3 & _).
  exists b. unfold bank_at. rewrite E1. simpl. by rewrite E2.
Qed.

Lemma bupd_spec f bs x b b' :
  shape bs -> in_range x -> bank_at bs x = Some b -> f b = Done b' ->
  exists bs', bupd f x bs = Done bs' /\ shape bs' /\
    forall y, bank_at bs' y = if decide (y = x) then Some b' else bank_at bs y.
Proof.
  intros Hs Hx Hb Hf. destruct (shape_at bs x Hs Hx) as (l1 & l2 & b0 & E1 & E2 & E3 & Hl1 & Hf1 & Hl2).
  assert (b0 = b) as -> by (unfold bank_at in Hb; rewrite E1 in Hb; simpl in Hb; rewrite E2 in Hb; simpl in Hb; congruence).
  unfold bupd, vget. rewrite E1. cbn [or_undef mbind outcome_bind]. rewrite E2. cbn [or_undef mbind outcome_bind].
  rewrite E3. cbn [or_undef mbind outcome_bind]. rewrite Hf. cbn [mbind outcome_bind].
  eexists. split; [reflexivity|]. destruct Hs as [Hlen Hall]. pose proof Hx as (Hr & Hg & Hk). split.
  - split; [by rewrite length_zinsert|]. apply zinsert_Forall; [done|].
    split; [by rewrite length_zinsert|]. apply zinsert_Forall; [done|]. by rewrite length_zinsert.
  - intros [[yr yj] yk]. destruct x as [[xr xj] xk]. unfold bank_at. simpl in *.
    destruct (decide (xr = yr)) as [<-|].
    2:{ rewrite zlookup_zinsert_ne by done. rewrite decide_False by congruence. done. }
    rewrite zlookup_zinsert_eq by lia. rewrite E1. simpl. destruct (decide (xj = yj)) as [<-|].
    2:{ rewrite zlookup_zinsert_ne by done. rewrite decide_False by congruence. done. }
    rewrite zlookup_zinsert_eq by lia. rewrite E2. simpl. destruct (decide (xk = yk)) as [<-|].
    2:{ rewrite zlookup_zinsert_ne by done. rewrite decide_False by congruence. done. }
    rewrite zlookup_zinsert_eq by lia. by rewrite decide_True.
Qed.

Lemma for_banks_spec f xs : forall bs,
  shape bs -> NoDup xs -> (forall x, x ∈ xs -> in_range x) ->
  (forall x b, x ∈ xs -> bank_at bs x = Some b -> exists b', f b = Done b') ->
  exists bs', for_banks f xs bs = Done bs' /\ shape bs' /\
    forall y b, bank_at bs y = Some b ->
      if decide (y ∈ xs) then exists b', f b = Done b' /\ bank_at bs' y = Some b'
      else bank_at bs' y = Some b.
Proof.
  induction xs as [|x xs IH]; intros bs Hs Hnd Hin Hf; cbn [for_banks].
  - by exists bs.
  - apply NoDup_cons in Hnd as [Hx Hnd].
    destruct (shape_bank bs x Hs) as [b0 Hb0]; [apply Hin; by left|].
    destruct (Hf x b0) as [b1 Hb1]; [by left|done|].
    destruct (bupd_spec f bs x b0 b1) as (bs1 & -> & Hs1 & Hat); [done|apply Hin; by left|done|done|].
    cbn [mbind outcome_bind]. destruct (IH bs1) as (bs' & E & Hs' & Hy); [done|done|set_solver| |].
    { intros x' b Hx' Hb. rewrite Hat in Hb. rewrite decide_False in Hb by set_solver.
      apply (Hf x'); [by right|done]. }
    exists bs'. split_and!; try done. intros y b Hb. destruct (decide (y = x)) as [->|Hne].
    + rewrite decide_True by (by left). specialize (Hy x b1). rewrite Hat, decide_True in Hy by done.
      specialize (Hy eq_refl). rewrite decide_False in Hy by done.
      exists b1. split; [|done]. congruence.
    + specialize (Hy y b). rewrite Hat, decide_False in Hy by done. specialize (Hy Hb).
      destruct (decide (y ∈ xs)); [rewrite decide_True by (by right)|rewrite decide_False by set_solver]; done.
Qed.

(** A pure update of the banks of a list. *)
Lemma for_banks_pure g xs bs :
  shape bs -> NoDup xs -> (forall x, x ∈ xs -> in_range x) ->
  exists bs', for_banks (fun b => Done (g b)) xs bs = Done bs' /\ shape bs' /\
    forall y b, bank_at bs y = Some b -> bank_at bs' y = Some (if decide (y ∈ xs) then g b else b).
Proof.
  intros Hs Hnd Hin. destruct (for_banks_spec (fun b => Done (g b)) xs bs) as (bs' & E & Hs' & Hy); try done.
  { intros. by eexists. }
  exists bs'. split_and!; try done. intros y b Hb. specialize (Hy y b Hb).
  destruct (decide (y ∈ xs)); [|done]. destruct Hy as (b' & [= <-] & ?). done.
Qed.

(** ** The lists of positions *)

Lemma elem_rank_positions r x : x ∈ rank_positions r <->
  x.1.1 = r /\ 0 <= x.1.2 < G /\ 0 <= x.2 < K.
Proof.
  unfold rank_positions. rewrite list_elem_of_bind. split.
  - intros (j & Hx & Hj). apply list_elem_of_fmap in Hx as (k & -> & Hk).
    apply elem_of_zrange in Hj, Hk. simpl. lia.
  - destruct x as [[xr xj] xk]. simpl. intros (-> & Hj & Hk). exists xj.
    split; [|apply elem_of_zrange; lia]. apply list_elem_of_fmap. exists xk. split; [done|].
    apply elem_of_zrange. lia.
Qed.

Lemma NoDup_grid {A} (js : list Z) (ks : list A) (f : Z -> A -> pos) :
  NoDup js -> NoDup ks -> (forall j k j' k', f j k = f j' k' -> j = j' /\ k = k') ->
  NoDup (js ≫= fun j => map (f j) ks).
Proof.
  intros Hj Hk Hf. induction Hj as [|j js Hnot Hj IH]; simpl; [constructor|].
  apply NoDup_app. split; [|split; [|done]].
  - apply NoDup_fmap_2; [|done]. intros a b Hab. by apply Hf in Hab as [_ ?].
  - intros x Hx Hx'. apply list_elem_of_fmap in Hx as (k & -> & _).
    apply list_elem_of_bind in Hx' as (j' & Hx' & Hj'). apply list_elem_of_fmap in Hx' as (k' & E & _).
    apply Hf in E as [-> _]. done.
Qed.

Lemma NoDup_rank_positions r : NoDup (rank_positions r).
Proof. apply NoDup_grid; [apply NoDup_zrange..|]. intros j k j' k' [=]. done. Qed.

Lemma elem_other_banks a x : x ∈ other_banks a <->
  x.1 = (rank a, bankgroup a) /\ x.2 <> bank a /\ 0 <= x.2 < K.
Proof.
  unfold other_banks. rewrite list_elem_of_fmap. destruct x as [xj xk]. simpl. split.
  - intros (k & [= -> ->] & Hk). apply list_elem_of_filter in Hk as [? Hk]. apply elem_of_zrange in Hk.
    split; [done|lia].
  - intros (-> & Hne & Hk). exists xk. split; [done|]. apply list_elem_of_filter. split; [done|].
    apply elem_of_zrange. lia.
Qed.

Lemma elem_other_bankgroups a x : x ∈ other_bankgroups a <->
  x.1.1 = rank a /\ x.1.2 <> bankgroup a /\ 0 <= x.1.2 < G /\ 0 <= x.2 < K.
Proof.
  unfold other_bankgroups. rewrite list_elem_of_bind. destruct x as [[xr xj] xk]. simpl. split.
  - intros (j & Hx & Hj). apply list_elem_of_fmap in Hx as (k & [= -> -> ->] & Hk).
    apply list_elem_of_filter in Hj as [? Hj]. apply elem_of_zrange in Hj, Hk. lia.
  - intros (-> & Hne & Hj & Hk). exists xj. split.
    + apply list_elem_of_fmap. exists xk. split; [done|]. apply elem_of_zrange. lia.
    + apply list_elem_of_filter. split; [done|]. apply elem_of_zrange. lia.
Qed.

Lemma elem_other_rank_banks a x : x ∈ other_rank_banks a <->
  x.1.1 <> rank a /\ in_range x.
Proof.
  unfold other_rank_banks, in_range. rewrite list_elem_of_bind. split.
  - intros (i & Hx & Hi). apply elem_rank_positions in Hx as (<- & ? & ?).
    apply list_elem_of_filter in Hi as [? Hi]. apply elem_of_zrange in Hi. lia.
  - intros (Hne & Hr & Hg & Hk). exists x.1.1. split; [by apply elem_rank_positions|].
    apply list_elem_of_filter. split; [done|]. apply elem_of_zrange. lia.
Qed.

Lemma NoDup_other_banks a : NoDup (other_banks a).
Proof. apply NoDup_fmap_2; [by intros ? ? [=]|]. apply NoDup_filter, NoDup_zrange. Qed.

Lemma NoDup_other_bankgroups a : NoDup (other_bankgroups a).
Proof.
  apply NoDup_grid; [apply NoDup_filter, NoDup_zrange|apply NoDup_zrange|]. intros j k j' k' [=]. done.
Qed.

Lemma NoDup_other_rank_banks a : NoDup (other_rank_banks a).
Proof.
  unfold other_rank_banks. pose proof (NoDup_filter (fun i => i <> rank a) _ (NoDup_zrange 0 (Z.to_nat R))) as Hn.
  induction Hn as [|i is_ Hnot Hn IH]; simpl; [constructor|]. apply NoDup_app.
  split; [apply NoDup_rank_positions|]. split; [|done]. intros x Hx Hx'.
  apply elem_rank_positions in Hx as (Ex & _). apply list_elem_of_bind in Hx' as (i' & Hx' & Hi').
  apply elem_rank_positions in Hx' as (Ex' & _). congruence.
Qed.

(** ** Commands and the banks they concern *)

(** The positions whose timing decides whether [c] may go: a refresh and an
    entry into self refresh wait for all banks of the rank. *)
Definition targets (c : Command) : list pos :=
  match cmd_type c with
  | REFRESH | SREF_ENTER => rank_positions (Rank c)
  | _ => [cmd_pos c]
  end.

(** The positions whose state [c] changes. *)
Definition affected (c : Command) : list pos :=
  if IsRankCMD c then rank_positions (Rank c) else [cmd_pos c].

(** What [c] forbids, and how long, to the bank at [x]: the entries of the tables that
    [UpdateTiming] applies.  The same-rank table is for commands to a rank only, so its
    entry for the refresh of one bank is never among them. *)
Definition constraints (c : Command) (x : pos) : list (CommandType * Z) :=
  let t := cmd_type c in
  if IsRankCMD c then if decide (x.1.1 = Rank c) then same_rank timing t else []
  else if decide (x = cmd_pos c) then same_bank timing t
  else if decide (x.1 = (Rank c, Bankgroup c)) then other_banks_same_bankgroup timing t
  else if decide (x.1.1 = Rank c) then other_bankgroups_same_rank timing t
  else other_ranks timing t.

(** The state a bank must be in for [c]. *)
Definition legal (b : BankState) (c : Command) : Prop :=
  match cmd_type c with
  | READ | READ_PRECHARGE | WRITE | WRITE_PRECHARGE => state_ b = OPEN /\ open_row_ b = Row c
  | PRECHARGE => state_ b = OPEN
  | ACTIVATE | REFRESH | REFRESH_BANK | SREF_ENTER => state_ b = CLOSED
  | SREF_EXIT => state_ b = SREF
  | SIZE => False
  end.

(** A request names a rank and, unless it is for the whole rank, a bank. *)
Definition request_ok (c : Command) : Prop :=
  if IsRankCMD c then 0 <= Rank c < R else in_range (cmd_pos c).

Definition ranked (s : ChannelState) : Prop :=
  Z.of_nat (length (rank_is_sref_ s)) = R /\ Z.of_nat (length (four_aw_ s)) = R /\
  Z.of_nat (length (thirty_two_aw_ s)) = R.

(** The invariant of a channel: a full grid of banks, none powered down, and
    the banks in self refresh are those of the ranks marked so. *)
Definition good (s : ChannelState) : Prop :=
  shape (bank_states_ s) /\ ranked s /\
  forall x b, bank_at (bank_states_ s) x = Some b -> in_range x ->
    state_ b <> PD /\ (state_ b = SREF <-> zlookup (rank_is_sref_ s) x.1.1 = Some true).

Lemma legal_accepted b c : legal b c -> exists b', UpdateState b c = Done b'.
Proof.
  unfold legal, UpdateState. destruct (cmd_type c); intros H; try done;
    match type of H with _ /\ _ => destruct H as [H _] | _ => idtac end; rewrite H; eauto.
Qed.

Lemma required_legal b cmd t a h :
  required_type b cmd = Done t -> (t = READ \/ t = READ_PRECHARGE \/ t = WRITE \/ t = WRITE_PRECHARGE -> row a = Row cmd) ->
  legal b (mk_cmd t a h).
Proof.
  intros E Ha. apply ready_state in E. unfold legal. cbn [cmd_type].
  destruct t; try tauto; unfold Row in *; cbn [cmd_addr] in *; rewrite Ha by tauto; destruct E as (-> & _ & ->); done.
Qed.

Lemma ready_is_request b cmd clk c :
  GetReadyCommand b cmd clk = Done c -> IsValid c = true -> cmd_type c = cmd_type cmd -> c = cmd.
Proof.
  intros E Hv Ht. destruct (ready_timing b cmd clk c E Hv) as (_ & Ha & Hh & _).
  destruct c, cmd. simpl in *. by subst.
Qed.

(** The two ways the loop over a rank ends. *)
Lemma scan_rank_spec bs cmd clk xs : forall c0 n o,
  scan_rank bs cmd clk xs c0 n = Done o ->
  match o with
  | inl c => exists x b t h, x ∈ xs /\ bank_at bs x = Some b /\ required_type b cmd = Done t /\
      cmd_timing_ b t <= clk /\ t <> cmd_type cmd /\
      c = mk_cmd t (mk_addr (-1) (Rank cmd) x.1.2 x.2 (-1) (-1)) h
  | inr (c, m) => m <= n + Z.of_nat (length xs) /\
      (m = n + Z.of_nat (length xs) -> (c = cmd \/ c = c0) /\
       forall x, x ∈ xs -> exists b, bank_at bs x = Some b /\ GetReadyCommand b cmd clk = Done cmd)
  end.
Proof.
  clear R G K. induction xs as [|x xs IH]; intros c0 n o; cbn [scan_rank].
  { intros [= <-]. simpl. split; [lia|]. intros _. split; [by right|]. intros ? []%not_elem_of_nil. }
  rewrite bget_at. destruct (bank_at bs x) as [b|] eqn:Eb; [|done]. cbn [or_undef mbind outcome_bind].
  destruct (GetReadyCommand b cmd clk) as [c| | | |] eqn:Ec; try done. cbn [mbind outcome_bind].
  destruct (IsValid c) eqn:Hv; cbn [negb].
  2:{ intros H. apply IH in H. destruct o as [c'|[c' m]].
      - destruct H as (y & b' & t & h & Hy & H). exists y, b', t, h. split; [by right|done].
      - cbn [length]. destruct H as [Hle _]. split; [lia|]. intros; lia. }
  destruct (ready_timing b cmd clk c Ec Hv) as (Ht & Ha & Hh & Hr).
  case_bool_decide as Ety; cbn [negb].
  - intros H. apply IH in H. destruct o as [c'|[c' m]].
    + destruct H as (y & b' & t & h & Hy & H). exists y, b', t, h. split; [by right|done].
    + cbn [length]. destruct H as [Hle Heq]. split; [lia|]. intros Hm.
      destruct Heq as [Hc Hall]; [lia|]. pose proof (ready_is_request b cmd clk c Ec Hv Ety) as ->.
      split; [naive_solver|]. intros y Hy. apply elem_of_cons in Hy as [->|Hy]; [by exists b|by apply Hall].
  - intros [= <-]. exists x, b, (cmd_type c), (hex_addr c). split_and!; try done. by left.
Qed.

Lemma length_grid {A} (js : list Z) (ks : list A) (f : Z -> A -> pos) :
  length (js ≫= fun j => map (f j) ks) = (length js * length ks)%nat.
Proof.
  induction js as [|j js IH]; [done|]. cbn [length Nat.mul]. rewrite <- IH.
  rewrite <- (length_map (f j) ks). by rewrite <- length_app.
Qed.

Lemma length_rank_positions r : 0 <= G -> 0 <= K -> Z.of_nat (length (rank_positions r)) = G * K.
Proof.
  intros HG HK. unfold rank_positions. rewrite length_grid, !length_zrange. lia.
Qed.

Lemma in_range_rank r x : 0 <= r < R -> x ∈ rank_positions r -> in_range x.
Proof. intros Hr. rewrite elem_rank_positions. unfold in_range. intros (-> & ? & ?). done. Qed.

(** What a bank at a target of a ready command looks like. *)
Definition permits (clk : Z) (c : Command) (b : BankState) : Prop :=
  cmd_timing_ b (cmd_type c) <= clk /\ legal b c.

(** The configuration as [Config::InitDRAMParams] leaves it. *)
Definition bank_count_ok : Prop := 0 < G /\ 0 < K /\ banks (str_ config) = G * K.

Lemma ready_rank s cmd clk c :
  bank_count_ok -> request_ok cmd -> IsRankCMD cmd = true ->
  c_GetReadyCommand s cmd clk = Done c -> IsValid c = true ->
  0 <= Rank c < R /\ cmd_type c <> ACTIVATE /\
  forall x, x ∈ targets c -> in_range x /\ exists b, bank_at (bank_states_ s) x = Some b /\ permits clk c b.
Proof.
  intros (HG & HK & Hn) Hok Hrk. unfold c_GetReadyCommand, request_ok in *. rewrite Hrk in *.
  destruct (scan_rank _ _ _ _ _ _) as [o| | | |] eqn:E; try done. cbn [mbind outcome_bind].
  apply scan_rank_spec in E. destruct o as [c'|[c' m]].
  - intros [= <-] _. destruct E as (x & b & t & h & Hx & Hb & Hr & Ht & Hne & ->).
    pose proof (in_range_rank _ _ Hok Hx) as Hin. apply elem_rank_positions in Hx as (Ex & _).
    pose proof (ready_state _ _ _ Hr) as Hs.
    assert (t = PRECHARGE) as ->.
    { destruct t; try tauto; destruct Hs as [_ Hs]; try congruence;
        unfold IsReadWrite, IsRead, IsWrite, IsRankCMD in *; destruct (cmd_type cmd); done. }
    split; [done|]. split; [done|]. unfold targets, cmd_pos, Bankgroup, Bank. cbn. intros y Hy.
    apply list_elem_of_singleton in Hy as ->. destruct x as [[xr xj] xk]. simpl in Ex. subst xr. simpl.
    split; [done|]. exists b. split; [done|]. split; [done|].
    apply required_legal with cmd; [done|naive_solver].
  - rewrite length_rank_positions in E by lia. destruct E as [_ Hall].
    destruct (m =? _) eqn:Em; [|by intros [= <-]]. zb. rewrite Em in Hall.
    intros [= <-] Hv. destruct Hall as [[->| ->] Hall]; [lia| |done].
    split; [done|]. split; [unfold IsRankCMD in Hrk; by destruct (cmd_type cmd)|].
    intros x Hx.
    assert (x ∈ rank_positions (Rank cmd)) as Hx'.
    { unfold targets in Hx. destruct (cmd_type cmd) eqn:Et; unfold IsRankCMD in Hrk; rewrite Et in Hrk; try done.
      destruct (Hall (Rank cmd, 0, 0)) as (b & _ & Hb); [apply elem_rank_positions; simpl; lia|].
      destruct (ready_timing _ _ _ _ Hb Hv) as (_ & _ & _ & Hreq). apply ready_state in Hreq.
      rewrite Et in Hreq. destruct Hreq as [_ Hreq]. unfold IsReadWrite, IsRead, IsWrite in Hreq.
      by rewrite Et in Hreq. }
    split; [by apply in_range_rank with (Rank cmd)|]. destruct (Hall x Hx') as (b & Hb & Hr).
    exists b. split; [done|]. destruct (ready_timing _ _ _ _ Hr Hv) as (Ht & _ & _ & Hreq).
    split; [done|]. destruct cmd as [t a h]. by apply required_legal with (mk_cmd t a h).
Qed.

Lemma ready_bank s cmd clk c :
  request_ok cmd -> IsRankCMD cmd = false ->
  c_GetReadyCommand s cmd clk = Done c -> IsValid c = true ->
  targets c = [cmd_pos c] /\ in_range (cmd_pos c) /\
  (cmd_type c = ACTIVATE -> ActivationWindowOk s (Rank c) clk = Done true) /\
  exists b, bank_at (bank_states_ s) (cmd_pos c) = Some b /\ permits clk c b.
Proof.
  intros Hok Hrk. unfold c_GetReadyCommand, request_ok in *. rewrite Hrk in *. rewrite bget_at.
  destruct (bank_at (bank_states_ s) (cmd_pos cmd)) as [b|] eqn:Eb; [|done]. cbn [or_undef mbind outcome_bind].
  destruct (GetReadyCommand b cmd clk) as [c'| | | |] eqn:Ec; try done. cbn [mbind outcome_bind].
  destruct (IsValid c') eqn:Hv; cbn [negb]; [|by intros [= <-]].
  destruct (ready_timing _ _ _ _ Ec Hv) as (Ht & Ha & Hh & Hr).
  assert (cmd_pos c' = cmd_pos cmd) as Hp by (unfold cmd_pos, Rank, Bankgroup, Bank; by rewrite Ha).
  assert (targets c' = [cmd_pos c'] /\ in_range (cmd_pos c') /\
    exists b, bank_at (bank_states_ s) (cmd_pos c') = Some b /\ permits clk c' b) as (Hc1 & Hc2 & Hc3).
  { rewrite Hp. split_and!; [|done|].
    - pose proof (ready_state _ _ _ Hr) as Hs. unfold targets. rewrite <- Hp. unfold IsRankCMD in Hrk.
      destruct (cmd_type c'); try done; destruct Hs as [_ Hs]; rewrite <- Hs in Hrk; done.
    - exists b. split; [done|]. split; [done|]. destruct c' as [t a h]. simpl in *. subst a.
      by apply required_legal with cmd. }
  case_bool_decide as Eact.
  - destruct (ActivationWindowOk s (Rank c') clk) as [[]| | | |] eqn:Ew; try done; cbn [mbind outcome_bind];
      intros [= <-]; [|done]. done.
  - intros [= <-] _. done.
Qed.

(** A ready command: its targets are banks of the channel that permit it. *)
Lemma ready_spec s cmd clk c :
  bank_count_ok -> request_ok cmd -> c_GetReadyCommand s cmd clk = Done c -> IsValid c = true ->
  0 <= Rank c < R /\ (cmd_type c = ACTIVATE -> ActivationWindowOk s (Rank c) clk = Done true) /\
  forall x, x ∈ targets c -> in_range x /\ exists b, bank_at (bank_states_ s) x = Some b /\ permits clk c b.
Proof.
  intros Hn Hok Hc Hv. destruct (IsRankCMD cmd) eqn:Hrk.
  - destruct (ready_rank s cmd clk c) as (Hr & Hna & Hx); try done.
  - destruct (ready_bank s cmd clk c) as (Ht & Hr & Hw & Hb); try done.
    split; [apply Hr|]. split; [done|]. rewrite Ht. intros x Hx. apply list_elem_of_singleton in Hx as ->. done.
Qed.

(** The banks of a rank are in self refresh together. *)
Lemma good_sref s x y b b' :
  good s -> in_range x -> in_range y -> x.1.1 = y.1.1 ->
  bank_at (bank_states_ s) x = Some b -> bank_at (bank_states_ s) y = Some b' ->
  state_ b = SREF -> state_ b' = SREF.
Proof.
  intros (_ & _ & Hg) Hx Hy Hr Hb Hb' Hs. apply (Hg y b'); [done..|]. rewrite <- Hr. by apply (Hg x b).
Qed.

Lemma affected_targets c : affected c = targets c \/ cmd_type c = SREF_EXIT.
Proof. unfold affected, targets, IsRankCMD. destruct (cmd_type c); auto. Qed.

Lemma elem_affected_rank c x : x ∈ affected c -> x.1.1 = Rank c.
Proof.
  unfold affected. destruct (IsRankCMD c).
  - intros Hx. by apply elem_rank_positions in Hx as (-> & _).
  - intros Hx. by apply list_elem_of_singleton in Hx as ->.
Qed.

Lemma NoDup_affected c : NoDup (affected c).
Proof. unfold affected. destruct (IsRankCMD c); [apply NoDup_rank_positions|apply NoDup_singleton]. Qed.

(** Every bank a ready command changes is in the state it needs. *)
Lemma ready_affected s cmd clk c :
  bank_count_ok -> good s -> request_ok cmd -> c_GetReadyCommand s cmd clk = Done c -> IsValid c = true ->
  forall x, x ∈ affected c -> in_range x /\ exists b, bank_at (bank_states_ s) x = Some b /\ legal b c.
Proof.
  intros Hn Hg Hok Hc Hv x Hx. destruct (ready_spec _ _ _ _ Hn Hok Hc Hv) as (Hr & _ & Ht).
  destruct (affected_targets c) as [E|E].
  - rewrite E in Hx. destruct (Ht x Hx) as (Hin & b & Hb & _ & Hl). eauto.
  - destruct (Ht (cmd_pos c)) as (Hin & b & Hb & _ & Hl); [unfold targets; rewrite E; by left|].
    unfold affected, IsRankCMD in Hx. rewrite E in Hx.
    assert (in_range x) as Hinx by (by apply in_range_rank with (Rank c)). split; [done|].
    destruct (shape_bank (bank_states_ s) x) as [b' Hb']; [apply Hg|done|]. exists b'. split; [done|].
    unfold legal in *. rewrite E in *. apply elem_rank_positions in Hx as (Ex & _).
    by apply (good_sref s (cmd_pos c) x b b').
Qed.

(** ** The effect of a command that is ready *)

Definition sref_after (c : Command) (l : list bool) : list bool :=
  match cmd_type c with
  | SREF_ENTER => zinsert (Rank c) true l
  | SREF_EXIT => zinsert (Rank c) false l
  | _ => l
  end.

Lemma c_UpdateState_spec s c :
  good s -> 0 <= Rank c < R ->
  (forall x, x ∈ affected c -> in_range x /\ exists b, bank_at (bank_states_ s) x = Some b /\ legal b c) ->
  exists s1, c_UpdateState c s = Done s1 /\ shape (bank_states_ s1) /\
    four_aw_ s1 = four_aw_ s /\ thirty_two_aw_ s1 = thirty_two_aw_ s /\
    rank_is_sref_ s1 = sref_after c (rank_is_sref_ s) /\
    forall y b, bank_at (bank_states_ s) y = Some b ->
      if decide (y ∈ affected c) then exists b', UpdateState b c = Done b' /\ bank_at (bank_states_ s1) y = Some b'
      else bank_at (bank_states_ s1) y = Some b.
Proof.
  intros (Hs & (Hl1 & Hl2 & Hl3) & Hg) Hr Ha.
  destruct (for_banks_spec (fun b => UpdateState b c) (affected c) (bank_states_ s)) as (bs & E & Hs' & Hy).
  { done. } { apply NoDup_affected. } { intros x Hx. by apply Ha. }
  { intros x b Hx Hb. destruct (Ha x Hx) as (_ & b0 & Hb0 & Hl). replace b0 with b in * by congruence.
    by apply legal_accepted. }
  unfold c_UpdateState, sref_after, affected in *. destruct (IsRankCMD c) eqn:Hrk; rewrite E; cbn [mbind outcome_bind].
  - unfold IsRankCMD in Hrk. destruct (cmd_type c); try done; [by eexists|..].
    all: rewrite vset_in_range by (simpl; lia); by eexists.
  - unfold IsRankCMD in Hrk.
    destruct (IsRefresh c); eexists; (split; [reflexivity|]); destruct (cmd_type c); done.
Qed.

(** One of the loops of [UpdateTiming], over the positions it visits. *)
Lemma timing_loop (l : list (CommandType * Z)) clk xs bs :
  shape bs -> NoDup xs -> (forall x, x ∈ xs -> in_range x) ->
  exists bs', for_banks (fun b => Done (apply_list l clk b)) (match l with [] => [] | _ => xs end) bs = Done bs' /\
    shape bs' /\
    forall y b, bank_at bs y = Some b -> bank_at bs' y = Some (if decide (y ∈ xs) then apply_list l clk b else b).
Proof.
  intros Hs Hn Hin. destruct l as [|e l].
  - exists bs. split_and!; try done. intros y b Hb. rewrite Hb. by destruct (decide (y ∈ xs)).
  - by apply (for_banks_pure (apply_list (e :: l) clk)).
Qed.

(** The activation windows after [c] at [clk]. *)
Definition window_after (len : Z) (c : Command) (clk : Z) (w : list (list Z)) : list (list Z) :=
  if bool_decide (cmd_type c = ACTIVATE)
  then zinsert (Rank c) (window_push (default [] (zlookup w (Rank c))) clk len) w else w.

Lemma UpdateActivationTimes_spec s c clk :
  ranked s -> 0 <= Rank c < R ->
  exists s1, (if bool_decide (cmd_type c = ACTIVATE) then UpdateActivationTimes (Rank c) clk s else Done s) = Done s1 /\
    bank_states_ s1 = bank_states_ s /\ rank_is_sref_ s1 = rank_is_sref_ s /\
    four_aw_ s1 = window_after (tFAW (tim_ config)) c clk (four_aw_ s) /\
    thirty_two_aw_ s1 = if is_gddr (protocol (str_ config))
      then window_after (t32AW (tim_ config)) c clk (thirty_two_aw_ s) else thirty_two_aw_ s.
Proof.
  intros (Hl1 & Hl2 & Hl3) Hr. unfold window_after. case_bool_decide as Ea.
  2:{ exists s. split_and!; try done. by destruct (is_gddr _). }
  unfold UpdateActivationTimes.
  destruct (zlookup_in_range (four_aw_ s) (Rank c)) as [l El]; [lia|].
  destruct (zlookup_in_range (thirty_two_aw_ s) (Rank c)) as [l2 El2]; [lia|].
  rewrite (vget_Some _ _ _ El), El. cbn [mbind outcome_bind].
  destruct (is_gddr _); [rewrite (vget_Some _ _ _ El2), El2; cbn [mbind outcome_bind]|]; by eexists.
Qed.

(** The four loops of a bank command amount to one constraint list per bank. *)
Lemma bank_loops s c clk :
  shape (bank_states_ s) -> in_range (cmd_pos c) -> IsRankCMD c = false ->
  let a := cmd_addr c in let t := cmd_type c in
  exists b1 b2 b3 b4,
    UpdateSameBankTiming a (same_bank timing t) clk (bank_states_ s) = Done b1 /\
    UpdateOtherBanksSameBankgroupTiming a (other_banks_same_bankgroup timing t) clk b1 = Done b2 /\
    UpdateOtherBankgroupsSameRankTiming a (other_bankgroups_same_rank timing t) clk b2 = Done b3 /\
    UpdateOtherRanksTiming a (other_ranks timing t) clk b3 = Done b4 /\ shape b4 /\
    forall y b, in_range y -> bank_at (bank_states_ s) y = Some b ->
      bank_at b4 y = Some (apply_list (constraints c y) clk b).
Proof.
  intros Hs Hp Hrk a t.
  destruct (timing_loop (same_bank timing t) clk [(rank a, bankgroup a, bank a)] (bank_states_ s))
    as (b1 & E1 & H1 & Y1); [done|apply NoDup_singleton| |].
  { intros x Hx. by apply list_elem_of_singleton in Hx as ->. }
  destruct (timing_loop (other_banks_same_bankgroup timing t) clk (other_banks a) b1)
    as (b2 & E2 & H2 & Y2); [done|apply NoDup_other_banks| |].
  { intros [[xr xj] xk] Hx. apply elem_other_banks in Hx as ([= -> ->] & _ & Hk).
    unfold in_range in *. simpl in *. unfold Rank, Bankgroup in Hp. fold a in Hp. lia. }
  destruct (timing_loop (other_bankgroups_same_rank timing t) clk (other_bankgroups a) b2)
    as (b3 & E3 & H3 & Y3); [done|apply NoDup_other_bankgroups| |].
  { intros x Hx. apply elem_other_bankgroups in Hx as (Ex & _ & ? & ?).
    unfold in_range. rewrite Ex. split; [apply Hp|done]. }
  destruct (timing_loop (other_ranks timing t) clk (other_rank_banks a) b3)
    as (b4 & E4 & H4 & Y4); [done|apply NoDup_other_rank_banks| |].
  { intros x Hx. by apply elem_other_rank_banks in Hx as (_ & ?). }
  exists b1, b2, b3, b4. split_and!; try done. intros y b Hy Hb.
  specialize (Y1 y b Hb). specialize (Y2 _ _ Y1). specialize (Y3 _ _ Y2). specialize (Y4 _ _ Y3).
  rewrite Y4. f_equal. unfold constraints. rewrite Hrk. fold t.
  clear -Hy. unfold in_range in Hy. destruct Hy as (Hyr & Hyj & Hyk). unfold cmd_pos, Rank, Bankgroup, Bank. fold a.
  destruct (decide (y ∈ other_rank_banks a)) as [M4|M4]; rewrite elem_other_rank_banks in M4; unfold in_range in M4;
  destruct (decide (y ∈ other_bankgroups a)) as [M3|M3]; rewrite elem_other_bankgroups in M3;
  destruct (decide (y ∈ other_banks a)) as [M2|M2]; rewrite elem_other_banks in M2;
  destruct (decide (y ∈ [_])) as [M1|M1]; rewrite list_elem_of_singleton in M1;
  destruct y as [[yr yj] yk]; simpl in *;
  repeat case_decide; try done; exfalso; simplify_eq; try lia; naive_solver (lia || congruence).
Qed.

Lemma c_UpdateTiming_spec s c clk :
  shape (bank_states_ s) -> ranked s -> 0 <= Rank c < R -> (IsRankCMD c = false -> in_range (cmd_pos c)) ->
  IsValid c = true ->
  exists s', c_UpdateTiming c clk s = Done s' /\ shape (bank_states_ s') /\ rank_is_sref_ s' = rank_is_sref_ s /\
    four_aw_ s' = window_after (tFAW (tim_ config)) c clk (four_aw_ s) /\
    thirty_two_aw_ s' = (if is_gddr (protocol (str_ config))
      then window_after (t32AW (tim_ config)) c clk (thirty_two_aw_ s) else thirty_two_aw_ s) /\
    forall y b, in_range y -> bank_at (bank_states_ s) y = Some b ->
      bank_at (bank_states_ s') y = Some (apply_list (constraints c y) clk b).
Proof.
  intros Hs Hrk Hr Hp Hv. destruct (IsRankCMD c) eqn:Hc.
  - destruct (timing_loop (same_rank timing (cmd_type c)) clk (rank_positions (Rank c)) (bank_states_ s))
      as (bs & E & Hs' & Hy); [done|apply NoDup_rank_positions|intros x; by apply in_range_rank|].
    exists (with_banks bs s). unfold c_UpdateTiming, UpdateSameRankTiming, window_after, constraints.
    rewrite Hc. unfold Rank in E. unfold IsRankCMD in Hc.
    split; [destruct (cmd_type c); try done; by rewrite E|]. split; [done|]. split; [done|].
    split; [by destruct (cmd_type c)|]. split; [destruct (cmd_type c), (is_gddr _); done|].
    intros y b Hin Hb. cbn [bank_states_ with_banks]. rewrite (Hy y b Hb). f_equal. destruct (decide (y ∈ _)) as [M|M];
      rewrite elem_rank_positions in M; destruct Hin as (? & ? & ?); case_decide; tauto.
  - destruct (UpdateActivationTimes_spec s c clk) as (s1 & E & Eb & Es & Hf & H32); [done..|].
    destruct (bank_loops s1 c clk) as (b1 & b2 & b3 & b4 & E1 & E2 & E3 & E4 & Hs' & Hy);
      [by rewrite Eb|by apply Hp|done|]. rewrite Eb in *.
    exists (with_banks b4 s1). split_and!; try done.
    unfold c_UpdateTiming. unfold IsRankCMD, IsValid in *.
    destruct (cmd_type c) eqn:Et; try done; rewrite E; cbn [mbind outcome_bind]; rewrite Eb, E1; cbn [mbind outcome_bind];
      rewrite E2; cbn [mbind outcome_bind]; rewrite E3; cbn [mbind outcome_bind]; by rewrite E4.
Qed.

Lemma apply_list_fields l clk b :
  state_ (apply_list l clk b) = state_ b /\ open_row_ (apply_list l clk b) = open_row_ b.
Proof. revert b. induction l as [|e l IH]; intros b; [done|]. apply (IH (UpdateTiming e.1 (u64 (clk + e.2)) b)). Qed.

(** Timing entries only grow, and grow to what the list demands. *)
Lemma apply_list_mono l clk b t : cmd_timing_ b t <= cmd_timing_ (apply_list l clk b) t.
Proof.
  clear R G K. revert b. induction l as [|e l IH]; intros b; [done|]. etrans; [|apply (IH (UpdateTiming e.1 (u64 (clk + e.2)) b))].
  simpl. case_decide; subst; lia.
Qed.

Lemma apply_list_demand l clk b t d :
  (t, d) ∈ l -> u64 (clk + d) <= cmd_timing_ (apply_list l clk b) t.
Proof.
  clear R G K. revert b. induction l as [|e l IH]; intros b He; [by apply not_elem_of_nil in He|].
  apply elem_of_cons in He as [<-|He]; [|by apply IH].
  etrans; [|apply (apply_list_mono l clk (UpdateTiming t (u64 (clk + d)) b))]. simpl. rewrite decide_True by done. lia.
Qed.

(** The whole step, bank by bank. *)
Definition steps_bank (c : Command) (clk : Z) (x : pos) (b b' : BankState) : Prop :=
  exists b1, (if decide (x ∈ affected c) then UpdateState b c = Done b1 else b1 = b) /\
    b' = apply_list (constraints c x) clk b1.

Lemma issue_spec s cmd clk c :
  bank_count_ok -> good s -> request_ok cmd -> c_GetReadyCommand s cmd clk = Done c -> IsValid c = true ->
  exists s', UpdateTimingAndStates c clk s = Done s' /\ shape (bank_states_ s') /\
    rank_is_sref_ s' = sref_after c (rank_is_sref_ s) /\
    four_aw_ s' = window_after (tFAW (tim_ config)) c clk (four_aw_ s) /\
    thirty_two_aw_ s' = (if is_gddr (protocol (str_ config))
      then window_after (t32AW (tim_ config)) c clk (thirty_two_aw_ s) else thirty_two_aw_ s) /\
    forall y b, in_range y -> bank_at (bank_states_ s) y = Some b ->
      exists b', bank_at (bank_states_ s') y = Some b' /\ steps_bank c clk y b b'.
Proof.
  intros Hn Hg Hok Hc Hv. destruct (ready_spec _ _ _ _ Hn Hok Hc Hv) as (Hr & _ & _).
  pose proof (ready_affected _ _ _ _ Hn Hg Hok Hc Hv) as Ha.
  destruct (c_UpdateState_spec s c Hg Hr Ha) as (s1 & E1 & Hs1 & Ef & E32 & Es & Hy1).
  destruct Hg as (Hs & (Hl1 & Hl2 & Hl3) & Hg).
  destruct (c_UpdateTiming_spec s1 c clk) as (s2 & E2 & Hs2 & Es2 & Ef2 & E322 & Hy2); try done.
  { split_and!; [|by rewrite Ef|by rewrite E32]. rewrite Es. unfold sref_after.
    destruct (cmd_type c); rewrite ?length_zinsert; done. }
  { intros Hrk. apply Ha. unfold affected. rewrite Hrk. by left. }
  exists s2. unfold UpdateTimingAndStates. rewrite E1. cbn [mbind outcome_bind].
  rewrite Es2, Ef2, E322, Es, Ef, E32. split_and!; try done.
  intros y b Hin Hb. specialize (Hy1 y b Hb). unfold steps_bank.
  destruct (decide (y ∈ affected c)).
  - destruct Hy1 as (b' & Hu & Hb'). eexists. split; [by apply Hy2|]. by exists b'.
  - eexists. split; [by apply Hy2|]. by exists b.
Qed.

(** The state of a bank after [UpdateState]. *)
Lemma UpdateState_sref b c b' :
  UpdateState b c = Done b' -> state_ b <> PD ->
  state_ b' <> PD /\ (cmd_type c = SREF_ENTER -> state_ b' = SREF) /\
  (cmd_type c <> SREF_ENTER -> state_ b' <> SREF).
Proof.
  unfold UpdateState. destruct (state_ b) eqn:Eb, (cmd_type c) eqn:Ec; try done; intros [= <-] _; simpl; rewrite ?Eb; done.
Qed.

Lemma issue_good s cmd clk c s' :
  bank_count_ok -> good s -> request_ok cmd -> c_GetReadyCommand s cmd clk = Done c -> IsValid c = true ->
  UpdateTimingAndStates c clk s = Done s' -> good s'.
Proof.
  intros Hn Hg Hok Hc Hv E.
  destruct (ready_spec _ _ _ _ Hn Hok Hc Hv) as (Hr & _ & _).
  pose proof (ready_affected _ _ _ _ Hn Hg Hok Hc Hv) as Ha.
  destruct (issue_spec s cmd clk c) as (s2 & E2 & Hs2 & Es & Ef & E32 & Hy); try done.
  rewrite E in E2. injection E2 as <-. destruct Hg as (Hs & (Hl1 & Hl2 & Hl3) & Hg).
  split; [done|]. split.
  { unfold ranked. rewrite Es, Ef, E32. unfold sref_after, window_after.
    split_and!; [destruct (cmd_type c); by rewrite ?length_zinsert|case_bool_decide; by rewrite ?length_zinsert|].
    destruct (is_gddr _); [|done]. case_bool_decide; by rewrite ?length_zinsert. }
  intros x b' Hb' Hin. destruct (shape_bank _ _ Hs Hin) as [b Hb]. destruct (Hy x b Hin Hb) as (b2 & Hb2 & b1 & Hu & ->).
  rewrite Hb2 in Hb'. injection Hb' as <-. rewrite (proj1 (apply_list_fields _ _ _)), Es.
  destruct (Hg x b Hb Hin) as [Hpd Hsr]. unfold sref_after. destruct (decide (x ∈ affected c)) as [Hx|Hx].
  - destruct (UpdateState_sref b c b1 Hu Hpd) as (? & Hen & Hnen). split; [done|].
    pose proof (elem_affected_rank _ _ Hx) as Ex. rewrite Ex in *.
    destruct (decide (cmd_type c = SREF_ENTER)) as [Et|Et].
    { rewrite Et, zlookup_zinsert_eq by lia. rewrite Hen by done. done. }
    specialize (Hnen Et). destruct (decide (cmd_type c = SREF_EXIT)) as [Et'|Et'].
    { rewrite Et', zlookup_zinsert_eq by lia. done. }
    assert (state_ b <> SREF) as Hnb.
    { intros Hb0. unfold UpdateState in Hu. rewrite Hb0 in Hu. by destruct (cmd_type c). }
    destruct (cmd_type c); try done; tauto.
  - subst b1. split; [done|].
    destruct (cmd_type c) eqn:Et; try done; (rewrite zlookup_zinsert_ne; [done|]); intros Ex; apply Hx;
      unfold affected, IsRankCMD; rewrite Et; apply elem_rank_positions; destruct Hin as (? & ? & ?); done.
Qed.

(** ** Runs of a channel *)

(** Commands are issued at non-decreasing cycles, each of them what the channel
    answered to some request; in between the controller posts refreshes and
    counts idle cycles.  The trace has the newest command first. *)
Inductive run : Z -> list (Z * Command) -> ChannelState -> Prop :=
| run_init : run 0 [] new_channel_state
| run_issue now tr s cmd clk c s' :
    run now tr s -> now <= clk -> request_ok cmd -> c_GetReadyCommand s cmd clk = Done c -> IsValid c = true ->
    UpdateTimingAndStates c clk s = Done s' -> run clk ((clk, c) :: tr) s'
| run_rank_refresh now tr s r need : run now tr s -> run now tr (RankNeedRefresh r need s)
| run_bank_refresh now tr s r j k need : run now tr s -> run now tr (BankNeedRefresh r j k need s)
| run_idle now tr s l : run now tr s -> run now tr (with_idle l s).

Lemma run_before now tr2 tr1 s : run now (tr2 ++ tr1) s -> exists now1 s1, run now1 tr1 s1.
Proof.
  remember (tr2 ++ tr1) as tr eqn:E. intros H. revert tr2 E.
  induction H; intros tr2 E; eauto.
  - destruct tr2; [|done]. simpl in E. subst tr1. exists 0, new_channel_state. constructor.
  - destruct tr2 as [|e tr2]; simpl in E; [subst tr1; by do 2 eexists; eapply run_issue|].
    injection E as _ E. by apply (IHrun tr2).
Qed.

(** The issue that put the head of a trace there. *)
Lemma run_head now e tr s : run now (e :: tr) s -> exists now1 s1 cmd,
  run now1 tr s1 /\ now1 <= e.1 /\ request_ok cmd /\ c_GetReadyCommand s1 cmd e.1 = Done e.2 /\ IsValid e.2 = true.
Proof.
  remember (e :: tr) as tr0 eqn:E. intros H. induction H; try done; eauto.
  injection E as <- ->. by exists now, s, cmd.
Qed.

(** Every bank honours every constraint of the past. *)
Definition respected (tr : list (Z * Command)) (s : ChannelState) : Prop :=
  forall t1 c1 x b t d, (t1, c1) ∈ tr -> in_range x -> bank_at (bank_states_ s) x = Some b ->
    (t, d) ∈ constraints c1 x -> u64 (t1 + d) <= cmd_timing_ b t.

(** The row a bank holds open, by the commands it has seen. *)
Fixpoint open_row_after (tr : list (Z * Command)) (x : pos) : option Z :=
  match tr with
  | [] => None
  | (_, c) :: tr' =>
      if decide (x = cmd_pos c) then
        match cmd_type c with
        | ACTIVATE => Some (Row c)
        | PRECHARGE | READ_PRECHARGE | WRITE_PRECHARGE => None
        | _ => open_row_after tr' x
        end
      else open_row_after tr' x
  end.

Definition row_of (b : BankState) : option Z :=
  match state_ b with OPEN => Some (open_row_ b) | _ => None end.

Definition rows_agree (tr : list (Z * Command)) (s : ChannelState) : Prop :=
  forall x b, in_range x -> bank_at (bank_states_ s) x = Some b -> row_of b = open_row_after tr x.

Lemma zlookup_replicate {A} n (a b : A) i : zlookup (replicate n a) i = Some b -> b = a.
Proof. unfold zlookup. case_decide; [|done]. by intros [-> _]%lookup_replicate. Qed.

Lemma new_bank x b : bank_at (bank_states_ new_channel_state) x = Some b -> b = bank_init.
Proof.
  unfold bank_at. simpl. intros (l1 & ->%zlookup_replicate & Hb)%bind_Some.
  apply bind_Some in Hb as (l2 & ->%zlookup_replicate & Hb). by apply zlookup_replicate in Hb.
Qed.

Lemma new_channel_good : 0 <= R -> 0 <= G -> 0 <= K -> good new_channel_state.
Proof.
  intros HR HG HK. split; [|split].
  - split; [simpl; rewrite length_replicate; lia|]. simpl. apply Forall_replicate.
    split; [rewrite length_replicate; lia|]. apply Forall_replicate. rewrite length_replicate. lia.
  - split_and!; simpl; rewrite length_replicate; lia.
  - intros x b ->%new_bank _. split; [done|]. split; [done|]. by intros ?%zlookup_replicate.
Qed.

Lemma row_of_apply l clk b : row_of (apply_list l clk b) = row_of b.
Proof. unfold row_of. destruct (apply_list_fields l clk b) as [-> ->]. done. Qed.

Lemma row_of_update b c b' : UpdateState b c = Done b' ->
  row_of b' = match cmd_type c with
              | ACTIVATE => Some (Row c)
              | PRECHARGE | READ_PRECHARGE | WRITE_PRECHARGE => None
              | _ => row_of b
              end.
Proof.
  unfold UpdateState, row_of. destruct (state_ b) eqn:E, (cmd_type c); try done; intros [= <-]; simpl; by rewrite ?E.
Qed.

Lemma steps_bank_row c clk x b b' tr : 
  steps_bank c clk x b b' -> in_range x -> row_of b = open_row_after tr x -> row_of b' = open_row_after ((clk, c) :: tr) x.
Proof.
  intros (b1 & Hu & ->) Hin Hrow. rewrite row_of_apply. simpl. destruct (decide (x ∈ affected c)) as [Hx|Hx].
  - rewrite (row_of_update b c b1 Hu), Hrow. unfold affected, IsRankCMD in Hx.
    destruct (cmd_type c); simpl in Hx; try (apply list_elem_of_singleton in Hx as ->; by rewrite decide_True);
      by case_decide.
  - subst b1. rewrite Hrow. case_decide as Ex; [|done]. unfold affected, IsRankCMD in Hx.
    destruct (cmd_type c); simpl in Hx; try done; exfalso; apply Hx; rewrite Ex; by left.
Qed.

(** The invariant of all runs. *)
Lemma channel_run_inv now tr s : bank_count_ok -> 0 <= R -> run now tr s -> good s /\ respected tr s /\ rows_agree tr s.
Proof.
  intros Hn HR H. induction H as [|now tr s cmd clk c s' H IH Hle Hok Hc Hv E| | |]; try done.
  - destruct Hn as (? & ? & _). split; [apply new_channel_good; lia|]. split.
    + intros t1 c1 x b t d Hin. by apply not_elem_of_nil in Hin.
    + by intros x b Hin ->%new_bank.
  - destruct IH as (Hg & Hresp & Hrow). pose proof (issue_good _ _ _ _ _ Hn Hg Hok Hc Hv E) as Hg'.
    destruct (issue_spec s cmd clk c) as (s2 & E2 & _ & _ & _ & _ & Hy); try done.
    rewrite E in E2. injection E2 as <-. split; [done|].
    assert (forall x b', in_range x -> bank_at (bank_states_ s') x = Some b' ->
      exists b, bank_at (bank_states_ s) x = Some b /\ steps_bank c clk x b b') as Hback.
    { intros x b' Hin Hb'. destruct (shape_bank (bank_states_ s) x) as [b Hb]; [apply Hg|done|].
      destruct (Hy x b Hin Hb) as (b2 & Hb2 & Hst). exists b. split; [done|]. congruence. }
    split.
    + intros t1 c1 x b' t d Hin Hx Hb' Hd. destruct (Hback x b' Hx Hb') as (b & Hb & b1 & Hu & ->).
      apply elem_of_cons in Hin as [[= -> ->]|Hin]; [by apply apply_list_demand|].
      etrans; [by apply (Hresp t1 c1 x b t d)|]. etrans; [|apply apply_list_mono].
      destruct (decide (x ∈ affected c)); [|by subst]. by rewrite (UpdateState_timing _ _ _ Hu).
    + intros x b' Hx Hb'. destruct (Hback x b' Hx Hb') as (b & Hb & Hst).
      by apply (steps_bank_row c clk x b b' tr Hst Hx), Hrow.
Qed.

(** ** Activation windows *)

(** The cycles of the activations of rank [r], newest first. *)
Fixpoint acts (r : Z) (tr : list (Z * Command)) : list Z :=
  match tr with
  | [] => []
  | (t, c) :: tr' =>
      if bool_decide (cmd_type c = ACTIVATE /\ Rank c = r) then t :: acts r tr' else acts r tr'
  end.

(** A window list of [n] entries of length [len]: the newest activations, the
    others expired, and no [n + 1] activations inside a window. *)
Definition window (n : nat) (len now : Z) (a l : list Z) : Prop :=
  exists k, (k <= n)%nat /\ (k <= length a)%nat /\ l = reverse (map (fun t => u64 (t + len)) (take k a)) /\
    (forall i t, (k <= i)%nat -> a !! i = Some t -> u64 (t + len) <= now) /\
    (forall i t t', a !! i = Some t' -> a !! (i + n)%nat = Some t -> u64 (t + len) <= t').

Lemma window_later n len now now' a l : window n len now a l -> now <= now' -> window n len now' a l.
Proof.
  clear R G K. intros (k & ? & ? & ? & Hold & ?) Hle. exists k. split_and!; try done. intros i t Hi Ht.
  specialize (Hold i t Hi Ht). lia.
Qed.

Lemma window_nil n len now : window n len now [] [].
Proof. clear R G K. exists 0%nat. split_and!; try done; simpl; lia. Qed.

Lemma window_push_ok n len now clk a l :
  (0 < n)%nat -> window n len now a l -> now <= clk -> window_ready l n clk = true ->
  window n len clk (clk :: a) (window_push l clk len).
Proof.
  clear R G K. intros Hn (k & Hk & Hka & -> & Hold & Hwin) Hle Hready.
  (* the new window list holds the first [k'] activations *)
  assert (exists k', (k' <= n)%nat /\ (k' <= length a)%nat /\ (k' < n)%nat /\
    window_push (reverse (map (fun t => u64 (t + len)) (take k a))) clk len =
      reverse (map (fun t => u64 (t + len)) (take k' a)) ++ [u64 (clk + len)] /\
    forall i t, (k' <= i)%nat -> a !! i = Some t -> u64 (t + len) <= clk) as (k' & _ & Hk'a & Hk' & -> & Hold').
  { destruct k as [|k].
    - exists 0%nat. split_and!; try done; try lia. intros i t Hi Ht. specialize (Hold i t Hi Ht). lia.
    - destruct (lookup_lt_is_Some_2 a k) as [h Hh]; [lia|].
      rewrite (take_S_r a k h Hh) in *. rewrite map_app, reverse_app in *. cbn [map reverse] in *.
      change (reverse [u64 (h + len)]) with [u64 (h + len)] in *. cbn [app window_push window_ready length] in *.
      rewrite length_reverse, length_map, length_take in Hready.
      destruct (clk >=? u64 (h + len)) eqn:E; zb.
      + exists k. split_and!; try done; try lia. intros i t Hi Ht. destruct (decide (i = k)) as [->|]; [congruence|].
        specialize (Hold i t ltac:(lia) Ht). lia.
      + exists (S k). rewrite (take_S_r a k h Hh), map_app, reverse_app. split_and!; try done; try lia.
        * destruct (clk <? _) eqn:E1; zb; [|lia]. destruct (n <=? _)%nat eqn:E2; [done|]. apply Nat.leb_gt in E2. lia.
        * intros i t Hi Ht. specialize (Hold i t ltac:(lia) Ht). lia. }
  exists (S k'). split_and!; [lia|simpl; lia| | |].
  - cbn [take map]. by rewrite reverse_cons.
  - intros [|i] t Hi Ht; [lia|]. apply (Hold' i); [lia|done].
  - intros [|i] t t' Ht' Ht; simpl in *.
    + injection Ht' as <-. destruct n as [|n]; [lia|]. simpl in Ht. apply (Hold' n); [lia|done].
    + by apply (Hwin i).
Qed.

Lemma acts_other r t c tr : (cmd_type c = ACTIVATE -> Rank c <> r) -> acts r ((t, c) :: tr) = acts r tr.
Proof. intros H. simpl. rewrite bool_decide_false; [done|]. tauto. Qed.

Lemma window_after_ok n len now clk c tr w :
  (0 < n)%nat -> now <= clk -> 0 <= Rank c < Z.of_nat (length w) ->
  (cmd_type c = ACTIVATE -> exists l, zlookup w (Rank c) = Some l /\ window_ready l n clk = true) ->
  (forall r l, zlookup w r = Some l -> window n len now (acts r tr) l) ->
  forall r l, zlookup (window_after len c clk w) r = Some l -> window n len clk (acts r ((clk, c) :: tr)) l.
Proof.
  clear R G K. intros Hn Hle Hr Hact Hw r l. unfold window_after. case_bool_decide as Ec.
  2:{ intros Hl. rewrite acts_other by done. by apply window_later with now; [apply Hw|]. }
  destruct (Hact Ec) as (l0 & Hl0 & Hready). rewrite Hl0. simpl default.
  destruct (decide (Rank c = r)) as [<-|Hne].
  - rewrite zlookup_zinsert_eq by lia. intros [= <-]. simpl acts. rewrite bool_decide_true by done.
    apply window_push_ok with now; try done. by apply Hw.
  - rewrite zlookup_zinsert_ne by done. intros Hl. rewrite acts_other by done.
    by apply window_later with now; [apply Hw|].
Qed.

Lemma window_ok_ready s r clk :
  ActivationWindowOk s r clk = Done true ->
  (exists l, zlookup (four_aw_ s) r = Some l /\ window_ready l 4 clk = true) /\
  (is_gddr (protocol (str_ config)) = true ->
   exists l, zlookup (thirty_two_aw_ s) r = Some l /\ window_ready l 32 clk = true).
Proof.
  unfold ActivationWindowOk, IsFAWReady, Is32AWReady, vget.
  destruct (zlookup (four_aw_ s) r) as [l|]; [|done]. cbn [or_undef mbind outcome_bind].
  destruct (is_gddr _); [|intros [= Hx]; split; [by exists l|done]].
  destruct (window_ready l 4 clk) eqn:E; [|done]. intros H. split; [by exists l|]. intros _. revert H.
  destruct (zlookup (thirty_two_aw_ s) r) as [l2|]; [|done]. cbn [or_undef mbind outcome_bind].
  intros [= Hx]. by exists l2.
Qed.

Lemma run_windows now tr s : bank_count_ok -> 0 <= R -> run now tr s ->
  (forall r l, zlookup (four_aw_ s) r = Some l -> window 4 (tFAW (tim_ config)) now (acts r tr) l) /\
  (is_gddr (protocol (str_ config)) = true -> forall r l, zlookup (thirty_two_aw_ s) r = Some l ->
     window 32 (t32AW (tim_ config)) now (acts r tr) l).
Proof.
  intros Hn HR H. induction H as [|now tr s cmd clk c s' H IH Hle Hok Hc Hv E| | |]; try done.
  - split; intros; simpl in *; match goal with H : zlookup _ _ = Some _ |- _ => apply zlookup_replicate in H as -> end;
      apply window_nil.
  - destruct (channel_run_inv _ _ _ Hn HR H) as (Hg & _ & _). pose proof Hg as (_ & (_ & Hl4 & Hl32) & _).
    destruct (ready_spec _ _ _ _ Hn Hok Hc Hv) as (Hr & Hw & _).
    destruct (issue_spec s cmd clk c) as (s2 & E2 & _ & _ & Hf & H32 & _); try done.
    rewrite E in E2. injection E2 as <-. rewrite Hf, H32. destruct IH as [IH4 IH32]. split.
    + apply window_after_ok with now; try done; [lia|lia|]. intros Ea. by apply window_ok_ready, Hw.
    + intros Hgd. rewrite Hgd. apply window_after_ok with now; try done; [lia|lia| |by apply IH32].
      intros Ea. by apply (proj2 (window_ok_ready _ _ _ (Hw Ea))).
Qed.

(** ** What the channel guarantees *)

Lemma run_split now tr2 t c tr1 s :
  bank_count_ok -> 0 <= R -> run now (tr2 ++ (t, c) :: tr1) s ->
  exists now1 s1, run now1 tr1 s1 /\ IsValid c = true /\
    forall x, x ∈ targets c -> in_range x /\ exists b, bank_at (bank_states_ s1) x = Some b /\ permits t c b.
Proof.
  intros Hn HR H. destruct (run_before _ _ _ _ H) as (now2 & s2 & H2).
  destruct (run_head _ _ _ _ H2) as (now1 & s1 & cmd & H1 & _ & Hok & Hc & Hv). simpl in *.
  exists now1, s1. split; [done|]. split; [done|]. by destruct (ready_spec _ _ _ _ Hn Hok Hc Hv) as (_ & _ & ?).
Qed.

(** A request that some state of the rank can serve. *)
Definition servable (s : ChannelState) (c : Command) : Prop :=
  IsReadWrite c = true \/
  (cmd_type c = REFRESH \/ cmd_type c = REFRESH_BANK \/ cmd_type c = SREF_ENTER) /\
    zlookup (rank_is_sref_ s) (Rank c) = Some false.

Lemma servable_bank s c x b clk :
  good s -> servable s c -> in_range x -> x.1.1 = Rank c -> bank_at (bank_states_ s) x = Some b ->
  exists r, GetReadyCommand b c clk = Done r.
Proof.
  intros (_ & _ & Hg) Hsv Hin Hr Hb. destruct (Hg x b Hb Hin) as [Hpd Hsr]. rewrite Hr in Hsr.
  assert (exists t, required_type b c = Done t) as [t Et].
  { unfold required_type, servable, IsReadWrite, IsRead, IsWrite in *.
    destruct (state_ b) eqn:Es; [| | |done]; destruct (cmd_type c); try (destruct (Row c =? _)); eauto;
      destruct Hsv as [?|[? Hf]]; try done; try naive_solver;
      rewrite Hf in Hsr; destruct Hsr as [Hsr _]; specialize (Hsr eq_refl); done. }
  unfold GetReadyCommand. rewrite Et. cbn [mbind outcome_bind]. destruct (_ && _); eauto.
Qed.

Lemma scan_rank_total s cmd clk xs : forall c0 n,
  good s -> servable s cmd -> (forall x, x ∈ xs -> in_range x /\ x.1.1 = Rank cmd) ->
  exists o, scan_rank (bank_states_ s) cmd clk xs c0 n = Done o.
Proof.
  induction xs as [|x xs IH]; intros c0 n Hg Hsv Hxs; cbn [scan_rank]; [eauto|].
  destruct (Hxs x) as [Hin Hr]; [by left|]. destruct (shape_bank (bank_states_ s) x) as [b Hb]; [apply Hg|done|].
  rewrite bget_at, Hb. cbn [or_undef mbind outcome_bind].
  destruct (servable_bank s cmd x b clk) as [r Er]; try done. rewrite Er. cbn [mbind outcome_bind].
  destruct (negb (IsValid r)); [apply IH; try done; intros; apply Hxs; by right|].
  destruct (negb _); [eauto|]. apply IH; try done. intros; apply Hxs; by right.
Qed.

(** Such a request gets an answer in every good state. *)
Lemma ready_total s cmd clk :
  good s -> request_ok cmd -> servable s cmd -> exists c, c_GetReadyCommand s cmd clk = Done c.
Proof.
  intros Hg Hok Hsv. unfold c_GetReadyCommand, request_ok in *. destruct (IsRankCMD cmd).
  - destruct (scan_rank_total s cmd clk (rank_positions (Rank cmd)) no_command 0) as [o ->]; try done.
    { intros x Hx. split; [by apply in_range_rank with (Rank cmd)|]. by apply elem_rank_positions in Hx as (? & _). }
    cbn [mbind outcome_bind]. destruct o as [|[c n]]; [eauto|]. destruct (n =? _); eauto.
  - destruct (shape_bank (bank_states_ s) (cmd_pos cmd)) as [b Hb]; [apply Hg|done|].
    rewrite bget_at, Hb. cbn [or_undef mbind outcome_bind].
    destruct (servable_bank s cmd (cmd_pos cmd) b clk) as [r Er]; try done. rewrite Er. cbn [mbind outcome_bind].
    destruct (negb (IsValid r)) eqn:Hv; [eauto|]. case_bool_decide; [|eauto].
    destruct (ready_timing _ _ _ _ Er) as (_ & Ha & _); [by destruct (IsValid r)|].
    assert (Rank r = Rank cmd) as -> by (unfold Rank; by rewrite Ha).
    destruct Hg as (_ & (_ & Hl4 & Hl32) & _). destruct Hok as [Hr _]. simpl in Hr.
    unfold ActivationWindowOk, IsFAWReady, Is32AWReady.
    destruct (zlookup_in_range (four_aw_ s) (Rank cmd)) as [l Hl]; [lia|].
    destruct (zlookup_in_range (thirty_two_aw_ s) (Rank cmd)) as [l2 Hl2]; [lia|].
    rewrite (vget_Some _ _ _ Hl), (vget_Some _ _ _ Hl2). cbn [mbind outcome_bind].
    destruct (is_gddr _), (window_ready l 4 clk), (window_ready l2 32 clk); cbn [mbind outcome_bind]; eauto.
Qed.

(** C28. The channel never aborts on a request it can serve: after any run,
    reads and writes to any bank, refreshes and self-refresh entries to a rank
    that is awake get an answer (a command, or that none is ready), and the
    command of the answer is accepted by all the banks it changes. *)
Theorem channel_serves now tr s cmd clk :
  bank_count_ok -> 0 <= R -> run now tr s -> request_ok cmd -> servable s cmd ->
  exists c, c_GetReadyCommand s cmd clk = Done c /\
    (IsValid c = true -> exists s', UpdateTimingAndStates c clk s = Done s').
Proof.
  intros Hn HR H Hok Hsv. destruct (channel_run_inv _ _ _ Hn HR H) as (Hg & _ & _).
  destruct (ready_total s cmd clk Hg Hok Hsv) as [c Hc]. exists c. split; [done|]. intros Hv.
  destruct (issue_spec s cmd clk c) as (s' & ? & _); eauto.
Qed.

Lemma no_earlier now tr2 t2 c2 tr1 t1 c1 x d s :
  bank_count_ok -> 0 <= R -> run now (tr2 ++ (t2, c2) :: tr1) s ->
  (t1, c1) ∈ tr1 -> x ∈ targets c2 -> (cmd_type c2, d) ∈ constraints c1 x -> u64 (t1 + d) <= t2.
Proof.
  intros Hn HR H H1 Hx Hd. destruct (run_split _ _ _ _ _ _ Hn HR H) as (now1 & s1 & Hrun & _ & Ht).
  destruct (Ht x Hx) as (Hin & b & Hb & Htime & _).
  destruct (channel_run_inv _ _ _ Hn HR Hrun) as (_ & Hresp & _).
  specialize (Hresp t1 c1 x b _ d H1 Hin Hb Hd). lia.
Qed.

(** C10. Timing: whatever the order of requests, when a command [c1] issued at
    cycle [t1] forbids a type of command for [d] cycles to a bank, no later command of
    this type that concerns the bank is issued before [t1 + d], as long as [t1 + d] is
    less than 2^64.  What a command forbids is what [UpdateTiming] takes from the five
    tables of [Timing]: the table of the same rank for a command to a rank, and
    otherwise the first that fits of same bank, same group, same rank and other rank.
    It never takes the same-rank entry of the refresh of one bank, which does not hold
    ([refreshed_bank_unconstrained]). *)
Theorem timing_respected now tr2 t2 c2 tr1 t1 c1 x d s :
  bank_count_ok -> 0 <= R -> run now (tr2 ++ (t2, c2) :: tr1) s ->
  (t1, c1) ∈ tr1 -> x ∈ targets c2 -> (cmd_type c2, d) ∈ constraints c1 x -> 0 <= t1 + d < 2 ^ 64 ->
  t1 + d <= t2.
Proof.
  intros Hn HR H H1 Hx Hd Hw. rewrite <- (u64_small (t1 + d)) by done. by eapply no_earlier.
Qed.

(** C16. The row protocol of the device: every column command finds the row it
    names open in its bank, a bank is precharged only while a row is open and
    activated only while none is, and refreshes and self refresh find every bank
    they wait for closed. *)
Theorem row_protocol now tr2 t c tr1 s x :
  bank_count_ok -> 0 <= R -> run now (tr2 ++ (t, c) :: tr1) s -> x ∈ targets c ->
  match cmd_type c with
  | READ | READ_PRECHARGE | WRITE | WRITE_PRECHARGE => open_row_after tr1 x = Some (Row c)
  | PRECHARGE => open_row_after tr1 x <> None
  | _ => open_row_after tr1 x = None
  end.
Proof.
  intros Hn HR H Hx. destruct (run_split _ _ _ _ _ _ Hn HR H) as (now1 & s1 & Hrun & Hv & Ht).
  destruct (Ht x Hx) as (Hin & b & Hb & _ & Hl). destruct (channel_run_inv _ _ _ Hn HR Hrun) as (_ & _ & Hrow).
  rewrite <- (Hrow x b Hin Hb). unfold legal, row_of in *.
  destruct (cmd_type c); try done;
    match type of Hl with _ /\ _ => destruct Hl as [-> ->] | _ => rewrite Hl end; done.
Qed.

(** Activation windows: of the activations of a rank, the fourth after any
    one comes at least [tFAW] cycles later, and with GDDR the 32nd at least
    [t32AW] cycles later. *)
Theorem activation_windows now tr s r i t t' :
  bank_count_ok -> 0 <= R -> run now tr s -> 0 <= r < R -> acts r tr !! i = Some t' ->
  (acts r tr !! (i + 4)%nat = Some t -> 0 <= t + tFAW (tim_ config) < 2 ^ 64 -> t + tFAW (tim_ config) <= t') /\
  (is_gddr (protocol (str_ config)) = true -> acts r tr !! (i + 32)%nat = Some t ->
   0 <= t + t32AW (tim_ config) < 2 ^ 64 -> t + t32AW (tim_ config) <= t').
Proof.
  intros Hn HR H Hr Hi. destruct (run_windows _ _ _ Hn HR H) as [H4 H32].
  destruct (channel_run_inv _ _ _ Hn HR H) as ((_ & (_ & Hl4 & Hl32) & _) & _ & _). split.
  - intros Ht Hw. destruct (zlookup_in_range (four_aw_ s) r) as [l Hl]; [lia|].
    destruct (H4 r l Hl) as (k & _ & _ & _ & _ & Hwin). specialize (Hwin i t t' Hi Ht). by rewrite u64_small in Hwin.
  - intros Hgd Ht Hw. destruct (zlookup_in_range (thirty_two_aw_ s) r) as [l Hl]; [lia|].
    destruct (H32 Hgd r l Hl) as (k & _ & _ & _ & _ & Hwin). specialize (Hwin i t t' Hi Ht). by rewrite u64_small in Hwin.
Qed.

(** ** Playing requests *)

(** Requests at given cycles; one that has no ready command is dropped. *)
Fixpoint play (reqs : list (Z * Command)) (tr : list (Z * Command)) (s : ChannelState)
    : outcome (list (Z * Command) * ChannelState) :=
  match reqs with
  | [] => Done (tr, s)
  | (clk, cmd) :: reqs' =>
      c ← c_GetReadyCommand s cmd clk;
      if IsValid c then s' ← UpdateTimingAndStates c clk s; play reqs' ((clk, c) :: tr) s'
      else play reqs' tr s
  end.

Fixpoint ordered (now : Z) (reqs : list (Z * Command)) : Prop :=
  match reqs with
  | [] => True
  | (clk, cmd) :: reqs' => now <= clk /\ request_ok cmd /\ ordered clk reqs'
  end.

Lemma ordered_later now now' reqs : now' <= now -> ordered now reqs -> ordered now' reqs.
Proof using Type. destruct reqs as [|[clk cmd] reqs]; simpl; [done|]. intros ? (? & ? & ?). split_and!; try done. lia. Qed.

Lemma play_run reqs : forall now tr s tr' s',
  run now tr s -> ordered now reqs -> play reqs tr s = Done (tr', s') -> exists now', run now' tr' s'.
Proof.
  induction reqs as [|[clk cmd] reqs IH]; intros now tr s tr' s' H Ho; cbn [play].
  { intros [= <- <-]. eauto. }
  destruct Ho as (Hle & Hok & Ho). destruct (c_GetReadyCommand s cmd clk) as [c| | | |] eqn:Ec; try done.
  cbn [mbind outcome_bind]. destruct (IsValid c) eqn:Hv.
  - destruct (UpdateTimingAndStates c clk s) as [s1| | | |] eqn:Eu; try done. cbn [mbind outcome_bind].
    by apply (IH clk); [eapply run_issue|].
  - apply (IH now); [done|]. by apply ordered_later with clk.
Qed.

End Channel.
(** ** The tables of [Timing::Timing] *)

(** The minimum distance of two commands to one bank, as the DDR standards name
    it. *)
Definition jedec_min (c : Config) (t1 t2 : CommandType) : option Z :=
  let p := tim_ c in
  match t1, t2 with
  | ACTIVATE, (READ | READ_PRECHARGE | WRITE | WRITE_PRECHARGE) => Some (tRCD p - AL p)
  | ACTIVATE, PRECHARGE => Some (tRAS p)
  | ACTIVATE, ACTIVATE => Some (tRC p)
  | PRECHARGE, (ACTIVATE | REFRESH | REFRESH_BANK | SREF_ENTER) => Some (tRP p)
  | READ, PRECHARGE => Some (AL p + tRTP p)
  | WRITE, PRECHARGE => Some (WL p + burst_cycle (str_ c) + tWR p)
  | REFRESH, (ACTIVATE | REFRESH | SREF_ENTER) => Some (tRFC p)
  | SREF_ENTER, SREF_EXIT => Some (tCKESR p)
  | SREF_EXIT, (ACTIVATE | REFRESH | REFRESH_BANK | SREF_ENTER) => Some (tXS p)
  | _, _ => None
  end.

Lemma jedec_constraint c c1 x t2 d :
  is_gddr (protocol (str_ c)) = false -> is_hbm (protocol (str_ c)) = false ->
  x ∈ affected c c1 -> jedec_min c (cmd_type c1) t2 = Some d ->
  (t2, d) ∈ constraints (new_timing c) c1 x.
Proof.
  intros Hg Hh Hx. pose proof (elem_affected_rank _ _ _ Hx) as Hr. unfold affected, constraints, IsRankCMD in *.
  unfold jedec_min. destruct (cmd_type c1) eqn:Et; try done;
    rewrite ?(decide_True (P := x.1.1 = Rank c1)) by done;
    try (apply list_elem_of_singleton in Hx as ->; rewrite decide_True by done);
    destruct t2; try done; intros [= <-]; simpl;
    unfold activate_to_read, activate_to_write, after_close, column_cmds; rewrite ?Hg, ?Hh; simpl;
    unfold write_to_precharge, read_to_precharge, activate_to_precharge, activate_to_activate, precharge_to_activate,
      refresh_to_activate, self_refresh_exit, self_refresh_entry_to_exit;
    repeat (first [by left|right]).
Qed.

(** With the tables that [Timing::Timing] builds from the configuration,
    two commands that meet at one bank of a DDR channel keep the distances of the
    standard: tRCD, tRAS, tRC, tRP, the read and write recovery before a precharge,
    tRFC after a refresh, tCKESR and tXS around self refresh. *)
Theorem jedec_distances c now tr2 t2 c2 tr1 t1 c1 x d s :
  bank_count_ok c -> 0 <= ranks (size_ c) ->
  is_gddr (protocol (str_ c)) = false -> is_hbm (protocol (str_ c)) = false ->
  run c (new_timing c) now (tr2 ++ (t2, c2) :: tr1) s ->
  (t1, c1) ∈ tr1 -> x ∈ affected c c1 -> x ∈ targets c c2 ->
  jedec_min c (cmd_type c1) (cmd_type c2) = Some d -> 0 <= t1 + d < 2 ^ 64 ->
  t1 + d <= t2.
Proof.
  intros Hn HR Hg Hh H H1 Hx1 Hx2 Hd Hw. rewrite <- (u64_small (t1 + d)) by done.
  eapply no_earlier; try done. by apply jedec_constraint.
Qed.

(** ** A run of the default DDR4 part *)

Definition demo_rd (g b r : Z) : Command := mk_cmd READ (mk_addr 0 0 g b r 0) 0.
Definition demo_wake : Command := mk_cmd SREF_EXIT (mk_addr (-1) 0 (-1) (-1) (-1) (-1)) (u64 (-1)).
Definition demo_sleep : Command := mk_cmd SREF_ENTER (mk_addr (-1) 0 (-1) (-1) (-1) (-1)) (u64 (-1)).
Definition demo_refb (g b : Z) : Command := mk_cmd REFRESH_BANK (mk_addr (-1) 0 g b (-1) (-1)) (u64 (-1)).
Definition demo_act (g b r : Z) : Command := mk_cmd ACTIVATE (mk_addr 0 0 g b r 0) 0.

Definition demo_play (reqs : list (Z * Command)) : outcome (list (Z * Command) * ChannelState) :=
  play demo_config (new_timing demo_config) reqs [] (new_channel_state demo_config).

(** A read: activation, the column command too early, the column command; then
    activations of four more banks until the window closes. *)
Definition demo_reqs : list (Z * Command) :=
  [(0, demo_rd 0 0 7); (16, demo_rd 0 0 7); (17, demo_rd 0 0 7);
   (17, demo_rd 1 0 7); (21, demo_rd 2 0 7); (25, demo_rd 3 0 7); (29, demo_rd 0 1 7); (42, demo_rd 0 1 7);
   (43, demo_rd 1 1 7)].

Definition demo_trace : list (Z * Command) :=
  [(43, demo_act 1 1 7); (29, demo_act 0 1 7); (25, demo_act 3 0 7); (21, demo_act 2 0 7);
   (17, demo_act 1 0 7); (17, demo_rd 0 0 7); (0, demo_act 0 0 7)].

Lemma play_trace c reqs t :
  ordered c 0 reqs ->
  (match play c (new_timing c) reqs [] (new_channel_state c) with
   | Done (tr, _) => bool_decide (tr = t)
   | _ => false
   end) = true ->
  exists now s, run c (new_timing c) now t s.
Proof.
  intros Ho. destruct (play _ _ _ _ _) as [[tr s]| | | |] eqn:E; try done. intros ->%bool_decide_eq_true.
  destruct (play_run c (new_timing c) reqs 0 [] (new_channel_state c) t s) as [now H]; [constructor|done|done|eauto].
Qed.

Lemma demo_run : exists now s, run demo_config (new_timing demo_config) now demo_trace s.
Proof.
  apply (play_trace demo_config demo_reqs); [|vm_compute; reflexivity].
  unfold request_ok, in_range. cbn. repeat split; vm_compute; first [discriminate|reflexivity].
Qed.

Lemma demo_bank_count : bank_count_ok demo_config.
Proof. vm_compute. done. Qed.

Lemma channel_serves_witness :
  exists c, c_GetReadyCommand demo_config (new_channel_state demo_config) (demo_rd 0 0 7) 5 = Done c /\
    (IsValid c = true -> exists s', UpdateTimingAndStates demo_config (new_timing demo_config) c 5 (new_channel_state demo_config) = Done s').
Proof.
  apply (channel_serves demo_config (new_timing demo_config) 0 []).
  - apply demo_bank_count.
  - simpl; lia.
  - constructor.
  - by vm_compute.
  - by left.
Defined.

Lemma timing_respected_witness : 0 + 17 <= 17.
Proof.
  destruct demo_run as (now & s & H).
  apply (timing_respected demo_config (new_timing demo_config) now (take 5 demo_trace) 17 (demo_rd 0 0 7)
           (drop 6 demo_trace) 0 (demo_act 0 0 7) (0, 0, 0) 17 s).
  - apply demo_bank_count.
  - simpl; lia.
  - exact H.
  - by left.
  - by left.
  - apply list_elem_of_In. vm_compute. tauto.
  - lia.
Defined.

Lemma row_protocol_witness : open_row_after (drop 6 demo_trace) (0, 0, 0) = Some 7.
Proof.
  destruct demo_run as (now & s & H).
  apply (row_protocol demo_config (new_timing demo_config) now (take 5 demo_trace) 17 (demo_rd 0 0 7)
           (drop 6 demo_trace) s (0, 0, 0)).
  - apply demo_bank_count.
  - simpl; lia.
  - exact H.
  - by left.
Defined.

Lemma activation_windows_witness : 17 + 26 <= 43.
Proof.
  destruct demo_run as (now & s & H).
  apply (activation_windows demo_config (new_timing demo_config) now demo_trace s 0 0 17 43).
  - apply demo_bank_count.
  - simpl; lia.
  - exact H.
  - simpl; lia.
  - reflexivity.
  - reflexivity.
  - simpl; lia.
Defined.

Lemma jedec_distances_witness : 0 + 17 <= 17.
Proof.
  destruct demo_run as (now & s & H).
  apply (jedec_distances demo_config now (take 5 demo_trace) 17 (demo_rd 0 0 7)
           (drop 6 demo_trace) 0 (demo_act 0 0 7) (0, 0, 0) 17 s).
  - apply demo_bank_count.
  - simpl; lia.
  - reflexivity.
  - reflexivity.
  - exact H.
  - by left.
  - by left.
  - by left.
  - reflexivity.
  - lia.
Defined.

(** A bank that is refreshed on its own gets no constraint: the constraints
    of [REFRESH_BANK] are stored in the rank table, which [UpdateTiming] consults
    for rank commands only, and the bank can be activated in the cycle of its
    refresh instead of [tRFCb] cycles later. *)
Theorem refreshed_bank_unconstrained :
  (ACTIVATE, tRFCb (tim_ demo_config)) ∈ same_rank (new_timing demo_config) REFRESH_BANK /\
  (tr ← demo_play [(100, demo_refb 1 2); (100, demo_rd 1 2 7)]; Done tr.1) =
    Done [(100, demo_act 1 2 7); (100, demo_refb 1 2)].
Proof. split; [by left|]. vm_compute. reflexivity. Qed.

(** A self-refreshing rank cannot be asked to leave self refresh: the request
    [SREF_EXIT] ends the program, at any cycle. *)
Theorem wake_request_aborts clk :
  (p ← demo_play [(0, demo_sleep)]; c_GetReadyCommand demo_config p.2 demo_wake clk) = AbruptExit.
Proof. reflexivity. Qed.

End Chan.
