(* ===== verification/SimpleStats.v ===== *)
(** * DRAMsim3: statistics

    [runtime/DRAMsim3/include/dramsim3/simple_stats.h] and
    [src/simple_stats.cc]: the integer statistics (counters, counters per rank,
    histograms), their epoch and final totals.  The floating-point values derived
    from them are in [Power]; the texts that are printed are left out. *)

From S2P Require Import Prelude DramCommon.

Module Stats.
Import Dram.
Local Open Scope string_scope.
Local Open Scope Z_scope.

Record SimpleStats := mk_stats {
  counters_ : gmap string Z;
  epoch_counters_ : gmap string Z;
  vec_counters_ : gmap string (list Z);
  epoch_vec_counters_ : gmap string (list Z);
  histo_bounds_ : gmap string (Z * Z);
  bin_widths_ : gmap string Z;
  histo_counts_ : gmap string (gmap Z Z);
  epoch_histo_counts_ : gmap string (gmap Z Z);
  histo_bins_ : gmap string (list Z);
  epoch_histo_bins_ : gmap string (list Z)
}.

Definition no_stats : SimpleStats := mk_stats ∅ ∅ ∅ ∅ ∅ ∅ ∅ ∅ ∅ ∅.

(** [emplace] keeps an entry that is there. *)
Definition emplace {A} (k : string) (a : A) (m : gmap string A) : gmap string A :=
  match m !! k with Some _ => m | None => <[k := a]> m end.

(** [InitStat] of a counter. *)
Definition InitStat (name : string) (s : SimpleStats) : SimpleStats :=
  mk_stats (emplace name 0 (counters_ s)) (emplace name 0 (epoch_counters_ s)) (vec_counters_ s)
    (epoch_vec_counters_ s) (histo_bounds_ s) (bin_widths_ s) (histo_counts_ s) (epoch_histo_counts_ s)
    (histo_bins_ s) (epoch_histo_bins_ s).

(** [InitVecStat] of a vector of counters. *)
Definition InitVecStat (name : string) (vec_len : Z) (s : SimpleStats) : SimpleStats :=
  let v := replicate (Z.to_nat vec_len) 0 in
  mk_stats (counters_ s) (epoch_counters_ s) (emplace name v (vec_counters_ s))
    (emplace name v (epoch_vec_counters_ s)) (histo_bounds_ s) (bin_widths_ s) (histo_counts_ s)
    (epoch_histo_counts_ s) (histo_bins_ s) (epoch_histo_bins_ s).

Definition InitHistoStat (name : string) (start_val end_val num_bins : Z) (s : SimpleStats) : SimpleStats :=
  let bin_width := Z.quot (end_val - start_val) num_bins in
  let bins := replicate (Z.to_nat (num_bins + 2)) 0 in
  mk_stats (counters_ s) (epoch_counters_ s) (vec_counters_ s) (epoch_vec_counters_ s)
    (emplace name (start_val, end_val) (histo_bounds_ s)) (emplace name bin_width (bin_widths_ s))
    (emplace name ∅ (histo_counts_ s)) (emplace name ∅ (epoch_histo_counts_ s))
    (emplace name bins (histo_bins_ s)) (emplace name bins (epoch_histo_bins_ s)).

Definition counter_names : list string :=
  ["num_cycles"; "epoch_num"; "num_reads_done"; "num_writes_done"; "num_write_buf_hits";
   "num_read_row_hits"; "num_write_row_hits"; "num_read_cmds"; "num_write_cmds"; "num_act_cmds";
   "num_pre_cmds"; "num_ondemand_pres"; "num_ref_cmds"; "num_refb_cmds"; "num_srefe_cmds";
   "num_srefx_cmds"; "hbm_dual_cmds"].

Definition vec_names : list string := ["all_bank_idle_cycles"; "rank_active_cycles"; "sref_cycles"].

(** [SimpleStats::SimpleStats]. *)
Definition new_stats (config : Config) : SimpleStats :=
  let s1 := fold_left (fun s n => InitStat n s) counter_names no_stats in
  let s2 := fold_left (fun s n => InitVecStat n (ranks (size_ config)) s) vec_names s1 in
  InitHistoStat "interarrival_latency" 0 100 10
    (InitHistoStat "write_latency" 0 200 10 (InitHistoStat "read_latency" 0 200 10 s2)).

Definition with_epoch_counters (m : gmap string Z) (s : SimpleStats) : SimpleStats :=
  mk_stats (counters_ s) m (vec_counters_ s) (epoch_vec_counters_ s) (histo_bounds_ s) (bin_widths_ s)
    (histo_counts_ s) (epoch_histo_counts_ s) (histo_bins_ s) (epoch_histo_bins_ s).

(** [operator[]] of a map creates a zero entry. *)
Definition Increment (name : string) (s : SimpleStats) : SimpleStats :=
  with_epoch_counters (<[name := u64 (default 0 (epoch_counters_ s !! name) + 1)]> (epoch_counters_ s)) s.

Definition IncrementVecBy (name : string) (pos num : Z) (s : SimpleStats) : outcome SimpleStats :=
  let v := default [] (epoch_vec_counters_ s !! name) in
  x ← vget v pos;
  Done (mk_stats (counters_ s) (epoch_counters_ s) (vec_counters_ s)
    (<[name := zinsert pos (u64 (x + num)) v]> (epoch_vec_counters_ s)) (histo_bounds_ s) (bin_widths_ s)
    (histo_counts_ s) (epoch_histo_counts_ s) (histo_bins_ s) (epoch_histo_bins_ s)).

Definition IncrementVec (name : string) (pos : Z) (s : SimpleStats) : outcome SimpleStats :=
  IncrementVecBy name pos 1 s.

(** [AddValue]; the value is converted to an [int]. *)
Definition AddValue (name : string) (value : Z) (s : SimpleStats) : SimpleStats :=
  let counts := default ∅ (epoch_histo_counts_ s !! name) in
  let v := s32 value in
  mk_stats (counters_ s) (epoch_counters_ s) (vec_counters_ s) (epoch_vec_counters_ s) (histo_bounds_ s)
    (bin_widths_ s) (histo_counts_ s)
    (<[name := <[v := match counts !! v with None => 1 | Some n => u64 (n + 1) end]> counts]> (epoch_histo_counts_ s))
    (histo_bins_ s) (epoch_histo_bins_ s).

(** ** Epoch and final totals *)

Definition add_counts {K} `{Countable K} (tot ep : gmap K Z) : gmap K Z :=
  union_with (fun a b => Some (u64 (a + b))) tot ep.

(** [vec_counters_[name][i] += v[i]] for the indices of [v]; the total has the
    same length. *)
Definition add_vec (tot v : list Z) : list Z := zip_with (fun a b => u64 (a + b)) tot v.
Definition add_vecs (tot ep : gmap string (list Z)) : gmap string (list Z) :=
  union_with (fun a b => Some (add_vec a b)) tot ep.

Definition UpdateCounters (s : SimpleStats) : SimpleStats :=
  mk_stats (add_counts (counters_ s) (epoch_counters_ s)) (epoch_counters_ s)
    (add_vecs (vec_counters_ s) (epoch_vec_counters_ s)) (epoch_vec_counters_ s) (histo_bounds_ s)
    (bin_widths_ s) (histo_counts_ s) (epoch_histo_counts_ s) (histo_bins_ s) (epoch_histo_bins_ s).

(** The bin of a value; [len] is the number of bins. *)
Definition bin_idx (bounds : Z * Z) (width len value : Z) : Z :=
  if value <? bounds.1 then 0
  else if value >? bounds.2 then len - 1
  else Z.quot (value - bounds.1) width + 1.

(** The epoch bins of one histogram: cleared, then filled from the counts. *)
Definition fill_bins (bounds : Z * Z) (width : Z) (bins : list Z) (counts : gmap Z Z) : outcome (list Z) :=
  let len := Z.of_nat (length bins) in
  fold_left (fun o (vc : Z * Z) =>
      b ← o; x ← vget b (bin_idx bounds width len vc.1);
      vset b (bin_idx bounds width len vc.1) (u64 (x + vc.2)))
    (map_to_list counts) (Done (replicate (length bins) 0)).

Definition histo_names : list string := ["read_latency"; "write_latency"; "interarrival_latency"].

(** The first loop of [UpdateHistoBins], for one histogram. *)
Definition update_bins (s : SimpleStats) (name : string) : outcome SimpleStats :=
  let bins := default [] (epoch_histo_bins_ s !! name) in
  b ← fill_bins (default (0, 0) (histo_bounds_ s !! name)) (default 0 (bin_widths_ s !! name)) bins
        (default ∅ (epoch_histo_counts_ s !! name));
  Done (mk_stats (counters_ s) (epoch_counters_ s) (vec_counters_ s) (epoch_vec_counters_ s) (histo_bounds_ s)
    (bin_widths_ s) (histo_counts_ s) (epoch_histo_counts_ s) (histo_bins_ s) (<[name := b]> (epoch_histo_bins_ s))).

(** The second loop: counts and bins are added to the totals. *)
Definition add_histo (s : SimpleStats) : SimpleStats :=
  mk_stats (counters_ s) (epoch_counters_ s) (vec_counters_ s) (epoch_vec_counters_ s) (histo_bounds_ s)
    (bin_widths_ s) (union_with (fun a b => Some (add_counts a b)) (histo_counts_ s) (epoch_histo_counts_ s))
    (epoch_histo_counts_ s) (add_vecs (histo_bins_ s) (epoch_histo_bins_ s)) (epoch_histo_bins_ s).

Definition UpdateHistoBins (s : SimpleStats) : outcome SimpleStats :=
  s1 ← fold_left (fun o n => s ← o; update_bins s n) histo_names (Done s);
  Done (add_histo s1).

Definition zeros {K} `{Countable K} (m : gmap K Z) : gmap K Z := (fun _ => 0) <$> m.
Definition zero_vecs (m : gmap string (list Z)) : gmap string (list Z) := (fun v => map (fun _ => 0) v) <$> m.
Definition clear_counts (m : gmap string (gmap Z Z)) : gmap string (gmap Z Z) := (fun _ => ∅) <$> m.

(** [UpdateEpochStats], with the epoch cleared at the end. *)
Definition UpdateEpochStats (s : SimpleStats) : outcome SimpleStats :=
  s1 ← UpdateHistoBins (UpdateCounters s);
  Done (mk_stats (counters_ s1) (zeros (epoch_counters_ s1)) (vec_counters_ s1) (zero_vecs (epoch_vec_counters_ s1))
    (histo_bounds_ s1) (bin_widths_ s1) (histo_counts_ s1) (clear_counts (epoch_histo_counts_ s1))
    (histo_bins_ s1) (epoch_histo_bins_ s1)).

Definition UpdateFinalStats (s : SimpleStats) : outcome SimpleStats := UpdateHistoBins (UpdateCounters s).

Definition PrintEpochStats (s : SimpleStats) : outcome SimpleStats := UpdateEpochStats s.
Definition PrintFinalStats (s : SimpleStats) : outcome SimpleStats := UpdateFinalStats s.

(** [Reset]. *)
Definition Reset (s : SimpleStats) : SimpleStats :=
  mk_stats (zeros (counters_ s)) (zeros (epoch_counters_ s)) (zero_vecs (vec_counters_ s))
    (zero_vecs (epoch_vec_counters_ s)) (histo_bounds_ s) (bin_widths_ s) (clear_counts (histo_counts_ s))
    (clear_counts (epoch_histo_counts_ s)) (histo_bins_ s) (epoch_histo_bins_ s).

(** ** The shape of the statistics *)

Local Close Scope string_scope.

(** What only epoch updates and the counters per rank change. *)
Definition keep (s : SimpleStats) :=
  (epoch_vec_counters_ s, (histo_bounds_ s, bin_widths_ s, epoch_histo_bins_ s)).

Definition histo_end (n : string) : Z := if bool_decide (n = "interarrival_latency"%string) then 100 else 200.

(** Counters for every rank, and histograms with the bounds and the number of
    bins they were created with. *)
Definition stats_shape (R : Z) (s : SimpleStats) : Prop :=
  (forall n, n ∈ vec_names -> exists v, epoch_vec_counters_ s !! n = Some v /\ Z.of_nat (length v) = R) /\
  (forall n, n ∈ histo_names -> histo_bounds_ s !! n = Some (0, histo_end n) /\
     bin_widths_ s !! n = Some (Z.quot (histo_end n) 10) /\
     exists b, epoch_histo_bins_ s !! n = Some b /\ length b = 12%nat).

Lemma stats_shape_keep R s s' : keep s' = keep s -> stats_shape R s -> stats_shape R s'.
Proof. unfold keep, stats_shape. intros [= -> -> -> ->]. done. Qed.

Lemma new_stats_shape config : 0 <= ranks (size_ config) -> stats_shape (ranks (size_ config)) (new_stats config).
Proof.
  intros HR. split; intros n Hn.
  - exists (replicate (Z.to_nat (ranks (size_ config))) 0). split; [|rewrite length_replicate; lia].
    apply elem_of_cons in Hn as [->|Hn]; [reflexivity|].
    apply elem_of_cons in Hn as [->|Hn]; [reflexivity|]. by apply list_elem_of_singleton in Hn as ->.
  - apply elem_of_cons in Hn as [->|Hn]; [by repeat eexists|].
    apply elem_of_cons in Hn as [->|Hn]; [by repeat eexists|]. apply list_elem_of_singleton in Hn as ->.
    by repeat eexists.
Qed.

Lemma IncrementVec_shape R n i s :
  n ∈ vec_names -> stats_shape R s -> 0 <= i < R -> exists s', IncrementVec n i s = Done s' /\ stats_shape R s'.
Proof.
  intros Hn [Hv Hh] Hi. destruct (Hv n Hn) as (v & Ev & Hl). unfold IncrementVec, IncrementVecBy. rewrite Ev.
  change (default [] (Some v)) with v.
  destruct (zlookup_in_range v i) as [x Hx]; [lia|]. rewrite (vget_Some _ _ _ Hx). cbn [mbind outcome_bind].
  eexists. split; [reflexivity|]. split; [|done]. intros m Hm. cbn. destruct (decide (m = n)) as [->|Hne].
  - rewrite lookup_insert_eq. eexists. split; [done|]. by rewrite length_zinsert.
  - rewrite lookup_insert_ne by done. by apply Hv.
Qed.

(** Every value has a bin, whatever it is. *)
Lemma bin_idx_range n value : 0 <= bin_idx (0, histo_end n) (Z.quot (histo_end n) 10) 12 value < 12.
Proof.
  unfold bin_idx. cbn [fst snd]. destruct (value <? 0) eqn:E; zb; [lia|].
  destruct (value >? histo_end n) eqn:E2; zb; [lia|]. rewrite Z.sub_0_r. unfold histo_end in *.
  case_bool_decide.
  - change (Z.quot 100 10) with 10. pose proof (Z.quot_pos value 10). pose proof (Z.quot_le_upper_bound value 10 10). lia.
  - change (Z.quot 200 10) with 20. pose proof (Z.quot_pos value 20). pose proof (Z.quot_le_upper_bound value 20 10). lia.
Qed.

Lemma fill_bins_total n bins counts :
  length bins = 12%nat ->
  exists b, fill_bins (0, histo_end n) (Z.quot (histo_end n) 10) bins counts = Done b /\ length b = 12%nat.
Proof.
  intros Hl. unfold fill_bins. rewrite Hl. change (Z.of_nat 12) with 12.
  assert (Hgen : forall l b0, length b0 = 12%nat -> exists b, fold_left (fun o (vc : Z * Z) =>
      b ← o; x ← vget b (bin_idx (0, histo_end n) (Z.quot (histo_end n) 10) 12 vc.1);
      vset b (bin_idx (0, histo_end n) (Z.quot (histo_end n) 10) 12 vc.1) (u64 (x + vc.2))) l (Done b0) = Done b /\
      length b = 12%nat).
  { induction l as [|vc l IH]; intros b0 Hb0; cbn [fold_left]; [by exists b0|].
    pose proof (bin_idx_range n vc.1) as Hr. cbn [mbind outcome_bind].
    destruct (zlookup_in_range b0 (bin_idx (0, histo_end n) (Z.quot (histo_end n) 10) 12 vc.1)) as [x Hx]; [lia|].
    rewrite (vget_Some _ _ _ Hx). cbn [mbind outcome_bind]. rewrite vset_in_range by lia. apply IH.
    by rewrite length_zinsert. }
  apply Hgen. by rewrite length_replicate.
Qed.

Lemma update_bins_shape R s n : n ∈ histo_names -> stats_shape R s ->
  exists s', update_bins s n = Done s' /\ stats_shape R s'.
Proof.
  intros Hn [Hv Hh]. destruct (Hh n Hn) as (Eb & Ew & b & Ebins & Hl). unfold update_bins. rewrite Eb, Ew, Ebins.
  cbn [default from_option id]. destruct (fill_bins_total n b (default ∅ (epoch_histo_counts_ s !! n)) Hl) as (b' & E & Hl').
  unfold default in *. cbn [from_option id] in *. rewrite E. cbn [mbind outcome_bind]. eexists. split; [reflexivity|].
  split; [done|]. intros m Hm. destruct (Hh m Hm) as (? & ? & bm & ? & ?). split_and!; try done. cbn.
  destruct (decide (m = n)) as [->|Hne]; [rewrite lookup_insert_eq|rewrite lookup_insert_ne by done]; eauto.
Qed.

Lemma UpdateHistoBins_shape R s : stats_shape R s -> exists s', UpdateHistoBins s = Done s' /\ stats_shape R s'.
Proof.
  intros Hs. unfold UpdateHistoBins. cbn [fold_left histo_names mbind outcome_bind].
  destruct (update_bins_shape R s "read_latency") as (s1 & -> & H1); [by left|done|]. cbn [mbind outcome_bind].
  destruct (update_bins_shape R s1 "write_latency") as (s2 & -> & H2); [by right; left|done|]. cbn [mbind outcome_bind].
  destruct (update_bins_shape R s2 "interarrival_latency") as (s3 & -> & H3); [by right; right; left|done|].
  cbn [mbind outcome_bind]. eexists. split; [reflexivity|]. done.
Qed.

Lemma PrintEpochStats_shape R s : stats_shape R s -> exists s', PrintEpochStats s = Done s' /\ stats_shape R s'.
Proof.
  intros Hs. unfold PrintEpochStats, UpdateEpochStats.
  destruct (UpdateHistoBins_shape R (UpdateCounters s)) as (s1 & -> & [Hv Hh]); [done|]. cbn [mbind outcome_bind].
  eexists. split; [reflexivity|]. split; [|done]. intros n Hn. destruct (Hv n Hn) as (v & Ev & Hl). cbn.
  unfold zero_vecs. rewrite lookup_fmap, Ev. cbn. eexists. split; [done|]. by rewrite length_map.
Qed.

End Stats.
