(* ===== verification/Power.v ===== *)
(** * DRAMsim3: energy

    [InitPowerParams] of [runtime/DRAMsim3/src/configuration.cc] and the
    floating-point statistics of [src/simple_stats.cc]: the energy increments of a
    configuration, and the energies, averages and bandwidths that the epoch and the
    final statistics derive from the counters.  The arithmetic is that of binary64,
    operation by operation in the order of the source. *)

From Stdlib Require Import Ascii String Floats.SpecFloat.
From S2P Require Import Prelude Text Fp DramCommon Ini SimpleStats.

Module Power.
Import Fp Dram Stats.

#[local] Open Scope string_scope.
#[local] Open Scope Z_scope.

(** A reader that also reads numbers with a fraction. *)
Class RealReader (R : Type) := {
  rr_reader :: Reader R;
  rd_real : R -> string -> string -> double -> double
}.

#[export] Instance ini_RealReader : RealReader Ini.INIReader := {
  rr_reader := Ini.ini_Reader;
  rd_real r sec name d := Ini.GetReal r (Ini.text_of sec) (Ini.text_of name) d
}.

(** A decimal literal [m * 10^k]. *)
Definition lit (m k : Z) : double := scaled false m 10 k.

Record PowerParams := mk_power {
  tCK : double;
  act_energy_inc : double;
  read_energy_inc : double;
  write_energy_inc : double;
  ref_energy_inc : double;
  refb_energy_inc : double;
  act_stb_energy_inc : double;
  pre_stb_energy_inc : double;
  pre_pd_energy_inc : double;
  sref_energy_inc : double
}.

Section Init.
Context {R : Type} `{RealReader R}.
Variable reader : R.

(** [tCK], the one timing parameter that is not an integer. *)
Definition clock_period : double := rd_real reader "timing" "tCK" (lit 1 0).

Definition InitPowerParams (d : Structure) (z : Size) (t : TimingParams) : PowerParams :=
  let VDD := rd_real reader "power" "VDD" (lit 12 (-1)) in
  let IDD0 := rd_real reader "power" "IDD0" (d_of_Z 48) in
  let IDD2P := rd_real reader "power" "IDD2P" (d_of_Z 25) in
  let IDD2N := rd_real reader "power" "IDD2N" (d_of_Z 34) in
  let IDD3N := rd_real reader "power" "IDD3N" (d_of_Z 43) in
  let IDD4W := rd_real reader "power" "IDD4W" (d_of_Z 123) in
  let IDD4R := rd_real reader "power" "IDD4R" (d_of_Z 135) in
  let IDD5AB := rd_real reader "power" "IDD5AB" (d_of_Z 250) in
  let IDD5PB := rd_real reader "power" "IDD5PB" (d_of_Z 5) in
  let IDD6x := rd_real reader "power" "IDD6x" (d_of_Z 31) in
  let devices := d_of_Z (devices_per_rank z) in
  mk_power clock_period
    (dmul (dmul VDD (dsub (dmul IDD0 (d_of_Z (tRC t)))
       (dadd (dmul IDD3N (d_of_Z (tRAS t))) (dmul IDD2N (d_of_Z (tRP t)))))) devices)
    (dmul (dmul (dmul VDD (dsub IDD4R IDD3N)) (d_of_Z (burst_cycle d))) devices)
    (dmul (dmul (dmul VDD (dsub IDD4W IDD3N)) (d_of_Z (burst_cycle d))) devices)
    (dmul (dmul (dmul VDD (dsub IDD5AB IDD3N)) (d_of_Z (tRFC t))) devices)
    (dmul (dmul (dmul VDD (dsub IDD5PB IDD3N)) (d_of_Z (tRFCb t))) devices)
    (dmul (dmul VDD IDD3N) devices)
    (dmul (dmul VDD IDD2N) devices)
    (dmul (dmul VDD IDD2P) devices)
    (dmul (dmul VDD IDD6x) devices).

End Init.

(** ** Statistics *)

(** [doubles_], [vec_doubles_] and [calculated_]. *)
Record Derived := mk_derived {
  act_energy : double;
  read_energy : double;
  write_energy : double;
  ref_energy : double;
  refb_energy : double;
  act_stb_energy : list double;
  pre_stb_energy : list double;
  sref_energy : list double;
  average_bandwidth : double;
  total_energy : double;
  average_power : double;
  average_read_latency : double;
  average_interarrival : double
}.

(** [GetHistoAvg]: the sums are 64-bit integers, [value * count] is computed in them. *)
Definition histo_sum (h : gmap Z Z) : Z :=
  map_fold (fun v n acc => u64 (acc + u64 (u64 v * n))) 0 h.
Definition histo_total (h : gmap Z Z) : Z := map_fold (fun _ n acc => u64 (acc + n)) 0 h.
Definition GetHistoAvg (h : gmap Z Z) : double :=
  if histo_total h =? 0 then d0 else ddiv (d_of_Z (histo_sum h)) (d_of_Z (histo_total h)).

Section Derive.
Variable config : Config.
Variable pp : PowerParams.

Definition count_of (c : gmap string Z) (name : string) : Z := default 0 (c !! name).

(** The energy of the cycles that a rank spent in a state. *)
Definition rank_energy (v : gmap string (list Z)) (name : string) (inc : double) (i : Z) : outcome double :=
  n ← vget (default [] (v !! name)) i; Done (dmul (d_of_Z n) inc).

(** What both updates compute from a set of counters, the counters per rank and the
    histograms. *)
Definition derive (c : gmap string Z) (v : gmap string (list Z)) (h : gmap string (gmap Z Z)) : outcome Derived :=
  let e name inc := dmul (d_of_Z (count_of c name)) inc in
  let ranks_ := zrange 0 (Z.to_nat (ranks (size_ config))) in
  let act := e "num_act_cmds" (act_energy_inc pp) in
  let rd := e "num_read_cmds" (read_energy_inc pp) in
  let wr := e "num_write_cmds" (write_energy_inc pp) in
  let ref := e "num_ref_cmds" (ref_energy_inc pp) in
  let refb := e "num_refb_cmds" (refb_energy_inc pp) in
  act_stb ← mapM (rank_energy v "rank_active_cycles" (act_stb_energy_inc pp)) ranks_;
  pre_stb ← mapM (rank_energy v "all_bank_idle_cycles" (pre_stb_energy_inc pp)) ranks_;
  sref ← mapM (rank_energy v "sref_cycles" (sref_energy_inc pp)) ranks_;
  let background := foldl dadd d0 (zip_with dadd (zip_with dadd act_stb pre_stb) sref) in
  rl ← or_undef (h !! "read_latency");
  ia ← or_undef (h !! "interarrival_latency");
  let total_reqs := u64 (count_of c "num_reads_done" + count_of c "num_writes_done") in
  let total_time := dmul (d_of_Z (count_of c "num_cycles")) (tCK pp) in
  let bw := ddiv (d_of_Z (u64 (total_reqs * request_size_bytes (map_ config)))) total_time in
  let total := dadd (dadd (dadd (dadd (dadd act rd) wr) ref) refb) background in
  Done (mk_derived act rd wr ref refb act_stb pre_stb sref bw total
          (ddiv total (d_of_Z (count_of c "num_cycles"))) (GetHistoAvg rl) (GetHistoAvg ia)).

(** [UpdateEpochStats] and [UpdateFinalStats] with what they derive: from the counters
    of the epoch, and from the totals with the epoch added. *)
Definition UpdateEpochStats (s : SimpleStats) : outcome (SimpleStats * Derived) :=
  e ← derive (epoch_counters_ s) (epoch_vec_counters_ s) (epoch_histo_counts_ s);
  s' ← Stats.UpdateEpochStats s;
  Done (s', e).

Definition UpdateFinalStats (s : SimpleStats) : outcome (SimpleStats * Derived) :=
  s' ← Stats.UpdateFinalStats s;
  e ← derive (counters_ s') (vec_counters_ s') (histo_counts_ s');
  Done (s', e).

(** [RankBackgroundEnergy]. *)
Definition RankBackgroundEnergy (e : Derived) (rank : Z) : outcome double :=
  a ← vget (act_stb_energy e) rank;
  p ← vget (pre_stb_energy e) rank;
  r ← vget (sref_energy e) rank;
  Done (dadd (dadd a p) r).

End Derive.

End Power.
