(* ===== verification/Thermal.v ===== *)
(** * DRAMsim3: the floor plan and the power maps of the thermal model

    [runtime/DRAMsim3/src/thermal.cc] and [include/dramsim3/thermal.h], with the
    settings that [Config::InitThermalParams] reads ([src/configuration.cc]).  The
    plan of the die, the mapping of commands to its cells and the energy booked
    there are modelled; the temperatures are those of [Temperatures], over
    [ThermalSolver].  [int]s are [Z] (the products of
    the plan are not cut to 32 bits), a [double] is a binary64 value. *)

From Stdlib Require Import Ascii String.
From S2P Require Import Prelude Text Fp DramCommon Power.

Module Thermal.
Import Text Fp Dram Power.

#[local] Open Scope Z_scope.

Abbreviation chars := (list ascii).

(** Integer division, undefined for the divisor 0. *)
Definition cdiv (a b : Z) : outcome Z := if b =? 0 then Undef else Done (Z.quot a b).
Definition crem (a b : Z) : outcome Z := if b =? 0 then Undef else Done (Z.rem a b).

(** ** Settings *)

(** The fields that the branch without tiling sets are [None] on the other one:
    there the source leaves them uninitialised.  The string is empty then. *)
Record ThermalParams := mk_thp {
  mat_dim_x : Z;
  mat_dim_y : Z;
  num_x_grids : Z;
  num_y_grids : Z;
  tile_row_num : Z;
  row_tile : Z;
  bank_asr : double;
  loc_mapping : chars;
  bank_order : option Z;
  bank_layer_order : option Z;
  num_row_refresh : option Z
}.

(** Reading a field that may be uninitialised. *)
Definition initialised (v : option Z) : outcome Z := or_undef v.

(** [while (row_tile * row_tile * 4 < bank_asr) row_tile *= 2]; the product
    overflows an [int] when 2^15 is reached. *)
Fixpoint tile_loop (fuel : nat) (asr : double) (rt : Z) : outcome Z :=
  match fuel with
  | O => Stuck
  | S fuel' =>
      if rt * rt * 4 >=? 2 ^ 31 then Undef
      else if flt (d_of_Z (rt * rt * 4)) asr then tile_loop fuel' asr (rt * 2)
      else Done rt
  end.

Section Init.
Context {R : Type} `{RealReader R}.
Variable reader : R.
Local Open Scope string_scope.
Local Open Scope Z_scope.

(** [Config::InitThermalParams]. *)
Definition InitThermalParams (d : Structure) (t : TimingParams) : outcome ThermalParams :=
  let mx := GetInteger reader "thermal" "mat_dim_x" 512 in
  let my := GetInteger reader "thermal" "mat_dim_y" 512 in
  nx ← cdiv (rows d) mx;
  ny ← cdiv (columns d * device_width d) my;
  let asr := ddiv (d_of_Z nx) (d_of_Z ny) in
  if flt (d_of_Z 4) asr && (banks_per_group d =? 1)
  then
    rt ← tile_loop 16 asr 1;
    nx' ← cdiv nx rt;
    tr ← cdiv (rows d) rt;
    let ny' := ny * rt in
    Done (mk_thp mx my nx' ny' tr rt (ddiv (d_of_Z nx') (d_of_Z ny')) [] None None None)
  else
    let period := ddiv (d_of_Z 64000000) (dmul (d_of_Z (tREFI t)) (clock_period reader)) in
    nrr ← int_of (ceilZ (ddiv (d_of_Z (rows d)) period));
    Done (mk_thp mx my nx ny (rows d) 1 asr (list_ascii_of_string (rd_get reader "thermal" "loc_mapping" ""))
            (Some (GetInteger reader "thermal" "bank_order" 1))
            (Some (GetInteger reader "thermal" "bank_layer_order" 0)) (Some nrr)).

End Init.

(** ** The plan of the die *)

(** [determineXY]: the factor pair of [total_grids] with the best aspect ratio. *)
Definition aspect (xd yd : double) (x y : Z) : double :=
  let px := dmul (d_of_Z x) xd in
  let py := dmul (d_of_Z y) yd in
  if fle py px then ddiv (ddiv px (d_of_Z y)) yd else ddiv (ddiv py (d_of_Z x)) xd.

Definition xy_step (xd yd : double) (total : Z) (best : Z * double) (y : Z) : Z * double :=
  let x := Z.quot total y in
  if (x * y =? total) && flt (aspect xd yd x y) best.2 then (x, aspect xd yd x y) else best.

Definition determineXY (xd yd : double) (total_grids : Z) : Z :=
  (foldl (xy_step xd yd total_grids) (1, d_of_Z 1000) (zrange 1 (Z.to_nat total_grids))).1.

(** [square_array]; the loop stops at the square root. *)
Definition square_array (total_grids : Z) : Z :=
  foldl (fun re x => if x * Z.quot total_grids x =? total_grids then x else re) 1
    (zrange 1 (Z.to_nat (Z.sqrt total_grids))).

(** The members that the constructor derives from the configuration; [vault_x] and
    [vault_y] are set for stacked memories only. *)
Record Plan := mk_plan {
  numP : Z;
  bank_x : Z;
  bank_y : Z;
  vault_x : option Z;
  vault_y : option Z;
  dimX : Z;
  dimY : Z;
  num_case : Z
}.

Section Calculator.
Variable config : Config.
Variable th : ThermalParams.

Let d := str_ config.
Let channels_ := channels (sys_ config).
Let ranks_ := ranks (size_ config).
Let IsHMC := is_hmc (protocol d).
Let IsHBM := is_hbm (protocol d).

Definition make_plan : outcome Plan :=
  if IsHMC then
    let xd := dmul (d_of_Z 1) (bank_asr th) in
    let yd := dmul (d_of_Z 2) (d_of_Z 1) in
    let vx := determineXY xd yd channels_ in
    vy ← cdiv channels_ vx;
    Done (mk_plan (num_dies d + 1) 1 2 (Some vx) (Some vy) (vx * 1 * num_x_grids th) (vy * 2 * num_y_grids th) 1)
  else if IsHBM then
    Done (mk_plan (num_dies d + 1) 8 2 (Some 1) (Some 2) (1 * 8 * num_x_grids th) (2 * 2 * num_y_grids th) 1)
  else
    let bx := determineXY (bank_asr th) (d_of_Z 1) (banks d) in
    by_ ← cdiv (banks d) bx;
    Done (mk_plan 1 bx by_ None None (bx * num_x_grids th) (by_ * num_y_grids th) (ranks_ * channels_)).

(** ** The location mapping *)

(** [start:end], both included, upwards or downwards; a bound at the end of [int]
    overflows the counter. *)
Definition position_range (start_pos end_pos : Z) : outcome (list Z) :=
  if start_pos >? end_pos
  then if end_pos =? - 2 ^ 31 then Undef
       else Done (reverse (zrange end_pos (Z.to_nat (start_pos - end_pos + 1))))
  else if end_pos =? 2 ^ 31 - 1 then Undef
       else Done (zrange start_pos (Z.to_nat (end_pos - start_pos + 1))).

Fixpoint break_colon (s : chars) : option (chars * chars) :=
  match s with
  | [] => None
  | c :: s' =>
      if Ascii.eqb c ":"%char then Some ([], s')
      else match break_colon s' with Some (l, r) => Some (c :: l, r) | None => None end
  end.

Definition positions (bit_pos : chars) : outcome (list Z) :=
  if bool_decide (bit_pos = []) then Done []
  else match break_colon bit_pos with
       | None => pos ← stoi bit_pos; Done [pos]
       | Some (l, r) => s ← stoi l; e ← stoi r; position_range s e
       end.

Definition field_positions (bit_field : chars) : outcome (list Z) :=
  ps ← mapM positions (StringSplit bit_field "-"%char); Done (concat ps).

(** [SetPhyAddressMapping]: [None] is the identity; otherwise the bit positions of
    the six fields, from the most significant bit of each on, and the offset of
    the column. *)
Definition SetPhyAddressMapping : outcome (option (list (list Z) * Z)) :=
  if bool_decide (loc_mapping th = []) then Done None
  else
    let bit_fields := StringSplit (loc_mapping th) ","%char in
    if negb (length bit_fields =? 6)%nat then Exit 1
    else ps ← mapM field_positions bit_fields; Done (Some (ps, LogBase2 (BL d))).

End Calculator.

(** [ch - ra - bg - ba - ro - co]. *)
Definition fields_of (a : Address) : list Z := [channel a; rank a; bankgroup a; bank a; row a; column a].
Definition address_of (l : list Z) : outcome Address :=
  match l with [c; r; g; b; w; k] => Done (mk_addr c r g b w k) | _ => Undef end.

(** The bits of one field, set at their positions in [new_hex]; a shift by 64 or
    more, or by a negative number, has no meaning. *)
Fixpoint place_bits (v : Z) (ps : list Z) (new_hex : Z) : outcome Z :=
  match ps with
  | [] => Done new_hex
  | p :: ps' =>
      if (0 <=? p) && (p <? 64) && (Z.of_nat (length ps') <? 64)
      then place_bits v ps' (Z.lor new_hex (Z.shiftl (GetBitInPos (u64 v) (Z.of_nat (length ps'))) p))
      else Undef
  end.

Fixpoint place_fields (vs : list Z) (mapped_pos : list (list Z)) (new_hex : Z) : outcome Z :=
  match vs, mapped_pos with
  | v :: vs', ps :: mp' => h ← place_bits v ps new_hex; place_fields vs' mp' h
  | _, _ => Done new_hex
  end.

(** The fields read back, from the last one on; [widths] are those of the fields in
    reverse order, and so is the result. *)
Fixpoint read_fields (new_hex pos : Z) (widths : list Z) : outcome (list Z) :=
  match widths with
  | [] => Done []
  | w :: ws =>
      if (0 <=? pos) && (pos <? 64) && (w <? 64)
      then r ← read_fields new_hex (pos + w) ws; Done (s32 (ModuloWidth new_hex w pos) :: r)
      else Undef
  end.

(** [GetPhyAddress]. *)
Definition GetPhyAddress (mapping : option (list (list Z) * Z)) (a : Address) : outcome Address :=
  match mapping with
  | None => Done a
  | Some (mapped_pos, column_offset) =>
      new_hex ← place_fields (fields_of a) mapped_pos 0;
      new_pos ← read_fields new_hex column_offset (reverse (map (fun ps => Z.of_nat (length ps)) mapped_pos));
      address_of (reverse new_pos)
  end.

(** ** Cells of the die *)

Section Cells.
Variable config : Config.
Variable th : ThermalParams.
Variable pl : Plan.
Variable mapping : option (list (list Z) * Z).

Let d := str_ config.
Let IsHMC := is_hmc (protocol d).
Let IsHBM := is_hbm (protocol d).

Definition MapToVault (channel_id : Z) : outcome (Z * Z) :=
  if IsHMC then
    bo ← initialised (bank_order th);
    vault_factor ← (if bo =? 0 then initialised (vault_x pl) else initialised (vault_y pl));
    q ← cdiv channel_id vault_factor;
    r ← crem channel_id vault_factor;
    Done (if bo =? 0 then (r, q) else (q, r))
  else if IsHBM then Done (0, Z.rem channel_id 2)
  else Done (0, 0).

Definition MapToBank (bankgroup_id bank_id : Z) : outcome (Z * Z) :=
  let abs_bank_id := bankgroup_id * banks_per_group d + bank_id in
  bo ← initialised (bank_order th);
  let bank_factor := if bo =? 0 then bank_x pl else bank_y pl in
  if IsHMC then
    num_bank_per_layer ← cdiv (banks d) (num_dies d);
    bank_same_layer ← crem abs_bank_id num_bank_per_layer;
    q ← cdiv bank_same_layer bank_factor;
    r ← crem bank_same_layer bank_factor;
    Done (if bo =? 0 then (r, q) else (q, r))
  else if IsHBM then Done (bankgroup_id * 2 + Z.quot bank_id 2, Z.rem bank_id 2)
  else if bankgroups d >? 1 then
    let '(x, y) := if bo =? 0 then (Z.rem bank_id 2, Z.quot bank_id 2)
                   else (Z.quot bank_id 2, Z.rem bank_id 2) in
    Done (if bank_x pl <=? bank_y pl then (x, y + bankgroup_id * 2) else (x + bankgroup_id * 2, y))
  else
    q ← cdiv abs_bank_id bank_factor;
    r ← crem abs_bank_id bank_factor;
    Done (if bo =? 0 then (r, q) else (q, r)).

Definition MapToZ (channel_id bank_id : Z) : outcome Z :=
  if IsHMC then
    num_bank_per_layer ← cdiv (banks d) (num_dies d);
    l ← cdiv bank_id num_bank_per_layer;
    blo ← initialised (bank_layer_order th);
    Done (if blo =? 0 then l else numP pl - l - 2)
  else if IsHBM then Done (Z.quot channel_id 2)
  else Done 0.

(** The corner of a bank on the die. *)
Definition base_x (vault_id_x bank_id_x : Z) : Z :=
  vault_id_x * (bank_x pl * num_x_grids th) + bank_id_x * num_x_grids th.
Definition base_y (vault_id_y bank_id_y : Z) : Z :=
  vault_id_y * (bank_y pl * num_y_grids th) + bank_id_y * num_y_grids th.

(** [MapToXY]: the cell of every bit of a burst; the two vectors of the source have
    the same length and are a list of pairs. *)
Definition grid_y (col_tile_id col_id : Z) : outcome Z :=
  q ← cdiv col_id (mat_dim_y th);
  t ← cdiv (num_y_grids th) (row_tile th);
  Done (q + col_tile_id * t).

Definition burst_columns (a : Address) (x0 y0 col_tile_id : Z) (i : Z) : outcome (list (Z * Z)) :=
  phy_loc ← GetPhyAddress mapping (mk_addr (channel a) (rank a) (bankgroup a) (bank a) (row a) (column a + i));
  mapM (fun j =>
    g ← grid_y col_tile_id (column phy_loc * device_width d + j);
    Done (x0, y0 + g)) (zrange 0 (Z.to_nat (device_width d))).

Definition MapToXY (cmd : Command) (vault_id_x vault_id_y bank_id_x bank_id_y : Z) : outcome (list (Z * Z)) :=
  let row_id := Row cmd in
  col_tile_id ← cdiv row_id (tile_row_num th);
  r ← cdiv row_id (mat_dim_x th);
  grid_id_x ← cdiv r (row_tile th);
  xys ← mapM (burst_columns (cmd_addr cmd) (base_x vault_id_x bank_id_x + grid_id_x)
                (base_y vault_id_y bank_id_y) col_tile_id) (zrange 0 (Z.to_nat (BL d)));
  Done (concat xys).

(** The index of a cell in a power map. *)
Definition cell_idx (x y z : Z) : Z := z * (dimX pl * dimY pl) + y * dimX pl + x.

(** [pm[caseID_][idx] += energy]. *)
Definition add_at (caseID_ : Z) (energy : double) (pm : list (list double)) (idx : Z)
    : outcome (list (list double)) :=
  row ← vget pm caseID_;
  v ← vget row idx;
  vset pm caseID_ (zinsert idx (dadd v energy) row).

Fixpoint add_all (caseID_ : Z) (energy : double) (pm : list (list double)) (idxs : list Z)
    : outcome (list (list double)) :=
  match idxs with
  | [] => Done pm
  | i :: idxs' => pm' ← add_at caseID_ energy pm i; add_all caseID_ energy pm' idxs'
  end.

(** The indices that [LocationMappingANDaddEnergy] adds to. *)
Definition access_cells (channel : Z) (cmd : Command) : outcome (list Z) :=
  '(vx, vy) ← MapToVault channel;
  '(bx, by_) ← MapToBank (Bankgroup cmd) (Bank cmd);
  xy ← MapToXY cmd vx vy bx by_;
  z ← MapToZ channel (Bank cmd);
  Done (map (fun p => cell_idx p.1 p.2 z) xy).

(** The indices of [LocationMappingANDaddEnergy_RF]: the row [row0] of the bank
    with absolute index [bank0]. *)
Definition refresh_cells (channel : Z) (cmd : Command) (bank0 row0 : Z) : outcome (list Z) :=
  bankgroup_id ← cdiv bank0 (banks_per_group d);
  bank_id ← crem bank0 (banks_per_group d);
  let a := cmd_addr cmd in
  '(vx, vy) ← MapToVault channel;
  '(bx, by_) ← MapToBank bankgroup_id bank_id;
  z ← MapToZ channel bank_id;
  phy_addr ← GetPhyAddress mapping (mk_addr (Dram.channel a) (rank a) bankgroup_id bank_id row0 (column a));
  let row_id := row phy_addr in
  col_tile_id ← cdiv row_id (tile_row_num th);
  r ← cdiv row_id (mat_dim_x th);
  grid_id_x ← cdiv r (row_tile th);
  grid_id_y ← grid_y col_tile_id 0;
  let x := base_x vx bx + grid_id_x in
  let y := base_y vy by_ + grid_id_y in
  Done (map (fun i => cell_idx x (y + i) z) (zrange 0 (Z.to_nat (num_y_grids th)))).

(** [PrintCSV_bank]: the rectangle and the layer of each bank. *)
Record bank_pos := mk_pos { vault_id : Z; bank_no : Z; start_x : Z; end_x : Z; start_y : Z; end_y : Z; layer : Z }.

Definition bank_rectangle (v bg b : Z) : outcome bank_pos :=
  '(vx, vy) ← MapToVault v;
  let abs_bank_id := bg * banks_per_group d + b in
  z ← MapToZ v abs_bank_id;
  '(bx, by_) ← MapToBank bg b;
  Done (mk_pos v abs_bank_id (base_x vx bx) (vx * (bank_x pl * num_x_grids th) + (bx + 1) * num_x_grids th - 1)
          (base_y vy by_) (vy * (bank_y pl * num_y_grids th) + (by_ + 1) * num_y_grids th - 1) z).

Definition PrintCSV_bank : outcome (list bank_pos) :=
  @concat _ <$> mapM (fun v =>
    @concat _ <$> mapM (fun bg =>
      mapM (bank_rectangle v bg) (zrange 0 (Z.to_nat (banks_per_group d))))
      (zrange 0 (Z.to_nat (bankgroups d))))
    (zrange 0 (Z.to_nat (channels (sys_ config)))).

End Cells.

(** ** The calculator *)

Record ThermalCalculator := mk_calc {
  sample_id : Z;
  background_energy_ : list (list double);
  avg_logic_power_ : double;
  accu_Pmap : list (list double);
  cur_Pmap : list (list double);
  refresh_count : list (list Z)
}.

Section Step.
Variable config : Config.
Variable th : ThermalParams.
Variable en : PowerParams.
Variable pl : Plan.
Variable mapping : option (list (list Z) * Z).

Let d := str_ config.
Let channels_ := channels (sys_ config).
Let ranks_ := ranks (size_ config).
Let stacked := is_hmc (protocol d) || is_hbm (protocol d).

(** A vector of [n] elements; a negative size is a length error. *)
Definition vector {A} (n : Z) (x : A) : outcome (list A) :=
  if n <? 0 then Throw else Done (replicate (Z.to_nat n) x).

(** The members that the constructor fills once the plan is known. *)
Definition new_calculator : outcome ThermalCalculator :=
  bg ← vector ranks_ d0;
  bgs ← vector channels_ bg;
  m ← vector (numP pl * dimX pl * dimY pl) d0;
  ms ← vector (num_case pl) m;
  rc ← vector (banks d) 0;
  rcs ← vector (channels_ * ranks_) rc;
  Done (mk_calc 0 bgs d0 ms ms rcs).

Definition with_maps (a c : list (list double)) (t : ThermalCalculator) : ThermalCalculator :=
  mk_calc (sample_id t) (background_energy_ t) (avg_logic_power_ t) a c (refresh_count t).
Definition with_refresh (rc : list (list Z)) (t : ThermalCalculator) : ThermalCalculator :=
  mk_calc (sample_id t) (background_energy_ t) (avg_logic_power_ t) (accu_Pmap t) (cur_Pmap t) rc.

(** The energy is added to both maps, cell by cell. *)
Definition add_energy (caseID_ : Z) (energy : double) (idxs : list Z) (t : ThermalCalculator)
    : outcome ThermalCalculator :=
  a ← add_all caseID_ energy (accu_Pmap t) idxs;
  c ← add_all caseID_ energy (cur_Pmap t) idxs;
  Done (with_maps a c t).

Definition LocationMappingANDaddEnergy (channel : Z) (cmd : Command) (caseID_ : Z) (e : double)
    (t : ThermalCalculator) : outcome ThermalCalculator :=
  idxs ← access_cells config th pl mapping channel cmd;
  add_energy caseID_ (ddiv e (d_of_Z (device_width d))) idxs t.

Definition LocationMappingANDaddEnergy_RF (channel : Z) (cmd : Command) (bank0 row0 caseID_ : Z) (e : double)
    (t : ThermalCalculator) : outcome ThermalCalculator :=
  idxs ← refresh_cells config th pl mapping channel cmd bank0 row0;
  add_energy caseID_ e idxs t.

(** The rows [row_s .. row_s + n - 1] of a bank, one after the other. *)
Fixpoint refresh_rows (n : nat) (channel : Z) (cmd : Command) (bank0 row0 caseID_ : Z) (e : double)
    (t : ThermalCalculator) : outcome ThermalCalculator :=
  match n with
  | O => Done t
  | S n' =>
      t' ← LocationMappingANDaddEnergy_RF channel cmd bank0 row0 caseID_ e t;
      refresh_rows n' channel cmd bank0 (row0 + 1) caseID_ e t'
  end.

(** One bank of a refresh: its counter advances, and starts again when the last row
    was reached exactly. *)
Definition next_count (nrr n : Z) : Z := if (n + 1) * nrr =? rows d then 0 else n + 1.

Definition refresh_one (channel : Z) (cmd : Command) (rank_idx ib caseID_ : Z) (e : double)
    (t : ThermalCalculator) : outcome ThermalCalculator :=
  nrr ← initialised (num_row_refresh th);
  counts ← vget (refresh_count t) rank_idx;
  n ← vget counts ib;
  rc ← vset (refresh_count t) rank_idx (zinsert ib (next_count nrr n) counts);
  refresh_rows (Z.to_nat nrr) channel cmd ib (n * nrr) caseID_ e (with_refresh rc t).

Fixpoint refresh_banks (n : nat) (channel : Z) (cmd : Command) (rank_idx ib caseID_ : Z) (e : double)
    (t : ThermalCalculator) : outcome ThermalCalculator :=
  match n with
  | O => Done t
  | S n' =>
      t' ← refresh_one channel cmd rank_idx ib caseID_ e t;
      refresh_banks n' channel cmd rank_idx (ib + 1) caseID_ e t'
  end.

Definition command_energy (c : CommandType) : double :=
  match c with
  | ACTIVATE => act_energy_inc en
  | READ | READ_PRECHARGE => read_energy_inc en
  | WRITE | WRITE_PRECHARGE => write_energy_inc en
  | _ => d0
  end.

(** [UpdateCMDPower]. *)
Definition UpdateCMDPower (channel : Z) (cmd : Command) (t : ThermalCalculator) : outcome ThermalCalculator :=
  let device_scale := if stacked then d_of_Z 1 else d_of_Z (devices_per_rank (size_ config)) in
  let case_id := if stacked then 0 else channel * ranks_ + Rank cmd in
  let scaled e := ddiv (ddiv e (d_of_Z 1000)) device_scale in
  let rank_idx := channel * ranks_ + Rank cmd in
  match cmd_type cmd with
  | REFRESH =>
      if banks d <=? 0 then Done t else
      nrr ← initialised (num_row_refresh th);
      let e := ddiv (ddiv (ddiv (ref_energy_inc en) (d_of_Z nrr)) (d_of_Z (banks d))) (d_of_Z (num_y_grids th)) in
      refresh_banks (Z.to_nat (banks d)) channel cmd rank_idx 0 case_id (scaled e) t
  | REFRESH_BANK =>
      nrr ← initialised (num_row_refresh th);
      let e := ddiv (ddiv (refb_energy_inc en) (d_of_Z nrr)) (d_of_Z (num_y_grids th)) in
      refresh_one channel cmd rank_idx (Bank cmd) case_id (scaled e) t
  | c =>
      let e := command_energy c in
      if flt d0 e
      then LocationMappingANDaddEnergy channel cmd case_id (scaled (ddiv e (d_of_Z (BL d)))) t
      else Done t
  end.

End Step.

(** ** Background energy and epochs *)

Section Epoch.
Variable config : Config.
Variable pl : Plan.

Let d := str_ config.
Let channels_ := channels (sys_ config).
Let ranks_ := ranks (size_ config).
Let stacked := is_hmc (protocol d) || is_hbm (protocol d).
Let layer_cells := dimX pl * dimY pl.

(** [UpdatePowerMaps] on one of the two maps: every case, the memory layers and then
    the logic layer. *)
Definition UpdatePowerMap (avg_logic add period : double) (pm : list (list double)) : outcome (list (list double)) :=
  let logic := dmul (ddiv (ddiv avg_logic (d_of_Z (dimX pl))) (d_of_Z (dimY pl))) period in
  foldl (fun o j =>
      pm ← o;
      pm' ← add_all j add pm (zrange 0 (Z.to_nat (layer_cells * (numP pl - 1))));
      add_all j logic pm' (zrange (layer_cells * (numP pl - 1)) (Z.to_nat layer_cells)))
    (Done pm) (zrange 0 (Z.to_nat (num_case pl))).

Definition UpdatePowerMaps (add : double) (trans : bool) (clk : Z) (t : ThermalCalculator) : outcome ThermalCalculator :=
  let period := if trans then d_of_Z (epoch_period config) else d_of_Z clk in
  if trans
  then c ← UpdatePowerMap (avg_logic_power_ t) add period (cur_Pmap t); Done (with_maps (accu_Pmap t) c t)
  else a ← UpdatePowerMap (avg_logic_power_ t) add period (accu_Pmap t); Done (with_maps a (cur_Pmap t) t).

Definition UpdateBackgroundEnergy (channel rank : Z) (energy : double) (t : ThermalCalculator) : outcome ThermalCalculator :=
  r ← vget (background_energy_ t) channel;
  r' ← vset r rank energy;
  bg ← vset (background_energy_ t) channel r';
  Done (mk_calc (sample_id t) bg (avg_logic_power_ t) (accu_Pmap t) (cur_Pmap t) (refresh_count t)).

Definition SetLogicPower (p : double) (t : ThermalCalculator) : ThermalCalculator :=
  mk_calc (sample_id t) (background_energy_ t) p (accu_Pmap t) (cur_Pmap t) (refresh_count t).

Definition total_background (t : ThermalCalculator) : double :=
  foldl (foldl dadd) d0 (background_energy_ t).

(** [for (int k = 0; k < dimX * dimY * numP; i++)]: the loop over the cells advances
    the channel [i] and not [k].  [UpdateEpoch] adds to [cur_Pmap[case_id][k]],
    [PrintFinalPT] to [accu_Pmap[case_id][i]]. *)
Fixpoint cells_loop (fuel : nat) (final : bool) (case_id : Z) (e : double) (k i : Z) (t : ThermalCalculator)
    : outcome (Z * ThermalCalculator) :=
  match fuel with
  | O => Stuck
  | S fuel' =>
      if k <? layer_cells * numP pl then
        t' ← (if final then a ← add_at case_id e (accu_Pmap t) i; Done (with_maps a (cur_Pmap t) t)
              else c ← add_at case_id e (cur_Pmap t) k; Done (with_maps (accu_Pmap t) c t));
        if i =? 2 ^ 31 - 1 then Undef else cells_loop fuel' final case_id e k (i + 1) t'
      else Done (i, t)
  end.

Fixpoint ranks_loop (fuel n : nat) (final : bool) (i j : Z) (t : ThermalCalculator) : outcome (Z * ThermalCalculator) :=
  match n with
  | O => Done (i, t)
  | S n' =>
      r ← vget (background_energy_ t) i;
      b ← vget r j;
      let bg := ddiv b (d_of_Z (layer_cells * numP pl)) in
      let e := ddiv (ddiv bg (d_of_Z 1000)) (d_of_Z (devices_per_rank (size_ config))) in
      '(i', t') ← cells_loop fuel final (i * ranks_ + j) e 0 i t;
      ranks_loop fuel n' final i' (j + 1) t'
  end.

Fixpoint channels_loop (fuel : nat) (final : bool) (i : Z) (t : ThermalCalculator) : outcome ThermalCalculator :=
  match fuel with
  | O => Stuck
  | S fuel' =>
      if i <? channels_ then
        '(i', t') ← ranks_loop fuel' (Z.to_nat ranks_) final i 0 t;
        channels_loop fuel' final (i' + 1) t'
      else Done t
  end.

(** The background energy of [UpdateEpoch] and, with [final], of [PrintFinalPT]. *)
Definition add_background (fuel : nat) (final : bool) (clk : Z) (t : ThermalCalculator) : outcome ThermalCalculator :=
  if stacked then
    let bg := ddiv (total_background t) (d_of_Z (layer_cells * (numP pl - 1))) in
    UpdatePowerMaps (ddiv bg (d_of_Z 1000)) (negb final) (if final then clk else epoch_period config) t
  else channels_loop fuel final 0 t.

Definition UpdateEpoch (fuel : nat) (clk : Z) (t : ThermalCalculator) : outcome ThermalCalculator :=
  add_background fuel false clk t.

(** [PrintTransPT] without the temperatures: the maps of the epoch start again. *)
Definition PrintTransPT (fuel : nat) (clk : Z) (t : ThermalCalculator) : outcome ThermalCalculator :=
  t' ← UpdateEpoch fuel clk t;
  Done (mk_calc (sample_id t' + 1) (background_energy_ t') (avg_logic_power_ t') (accu_Pmap t')
          (map (map (fun _ => d0)) (cur_Pmap t')) (refresh_count t')).

Definition PrintFinalPT (fuel : nat) (clk : Z) (t : ThermalCalculator) : outcome ThermalCalculator :=
  add_background fuel true clk t.

(** [InitPowerM]: the power of each cell, between dummy cells on the four sides. *)
Definition num_dummy : Z := 2.
Definition is_die (i j : Z) : bool := (1 <=? i) && (i <=? dimX pl) && (1 <=? j) && (j <=? dimY pl).
Definition InitPowerM (case_id clk : Z) (t : ThermalCalculator) : outcome (list (list (list double))) :=
  let div := if clk =? 0 then d_of_Z (epoch_period config) else d_of_Z clk in
  let power_map := if clk =? 0 then cur_Pmap t else accu_Pmap t in
  mapM (fun i => mapM (fun j => mapM (fun l =>
      if is_die i j then
        row ← vget power_map case_id;
        v ← vget row (l * layer_cells + (j - num_dummy / 2) * dimX pl + (i - num_dummy / 2));
        Done (ddiv v div)
      else Done d0)
    (zrange 0 (Z.to_nat (numP pl)))) (zrange 0 (Z.to_nat (dimY pl + num_dummy))))
    (zrange 0 (Z.to_nat (dimX pl + num_dummy))).

(** The index of the temperature of a cell: a layer of the die is the second of
    three layers of the solver. *)
Definition layerP (l : Z) : Z := l * 3.
Definition T_size : Z := (numP pl * 3 + 1) * (dimX pl + num_dummy) * (dimY pl + num_dummy).
Definition temp_idx (l j i : Z) : Z :=
  (layerP l + 1) * ((dimX pl + num_dummy) * (dimY pl + num_dummy)) + j * (dimX pl + num_dummy) + i.

End Epoch.

End Thermal.
