(* ===== verification/ThermalFacts.v ===== *)
(** * DRAMsim3: what the thermal model books, and where

    Theorems on the definitions of [Thermal]: the banks tile the die, the location
    mapping loses no address, commands and refreshes book their energy in the cells
    of their bank, the counters of refreshes sweep the rows; and the places where
    the code does something else. *)

From Stdlib Require Import Ascii String.
From S2P Require Import Prelude Text Fp DramCommon Power Thermal.

Module ThermalFacts.
Import Text Fp Dram Power Thermal.

#[local] Open Scope Z_scope.

(** ** The plan tiles the die *)

Lemma cdiv_Done a b : b <> 0 -> cdiv a b = Done (Z.quot a b).
Proof. intros. unfold cdiv. by rewrite (proj2 (Z.eqb_neq _ _)). Qed.
Lemma crem_Done a b : b <> 0 -> crem a b = Done (Z.rem a b).
Proof. intros. unfold crem. by rewrite (proj2 (Z.eqb_neq _ _)). Qed.

(** [determineXY] returns a factor. *)
Lemma determineXY_divides xd yd total : 0 < total ->
  let x := determineXY xd yd total in 0 < x /\ x * Z.quot total x = total.
Proof.
  intros Ht. cbn zeta. unfold determineXY.
  assert (forall ys best, Forall (fun y => 0 < y) ys -> 0 < best.1 /\ best.1 * Z.quot total best.1 = total ->
    let b := foldl (xy_step xd yd total) best ys in 0 < b.1 /\ b.1 * Z.quot total b.1 = total) as Hf.
  { induction ys as [|y ys IH]; intros best Hys Hb; [done|]. cbn. apply Forall_cons in Hys as [Hy Hys].
    apply IH; [done|]. unfold xy_step. case_match eqn:E; [|done]. zb. cbn.
    assert (Z.quot total y <> 0) as Hq by (intros E; rewrite E in *; lia).
    assert (0 <= Z.quot total y) by (apply Z.quot_pos; lia). split; [lia|].
    replace total with (y * Z.quot total y) at 2 by lia. rewrite Z.quot_mul by done. lia. }
  apply Hf; [|cbn; rewrite Z.quot_1_r; lia].
  apply Forall_forall. intros y Hy. apply elem_of_zrange in Hy. lia.
Qed.

(** The place of a bank: the vault, the bank in its layer of the vault, the layer. *)
Record place := mk_place { p_vx : Z; p_vy : Z; p_bx : Z; p_by : Z; p_z : Z }.

Definition place_of (config : Config) (th : ThermalParams) (pl : Plan) (v bg b : Z) : outcome place :=
  '(vx, vy) ← MapToVault config th pl v;
  '(bx, by_) ← MapToBank config th pl bg b;
  z ← MapToZ config th pl v (bg * banks_per_group (str_ config) + b);
  Done (mk_place vx vy bx by_ z).

(** A bank of the device. *)
Definition bank_ok (config : Config) (v bg b : Z) : Prop :=
  0 <= v < channels (sys_ config) /\ 0 <= bg < bankgroups (str_ config) /\ 0 <= b < banks_per_group (str_ config).

(** What the source assumes of the shape of a device: groups of four banks that fit
    side by side; two banks of an HMC vault in each layer; an HBM stack of at most
    four groups of four banks and two channels per layer. *)
Definition shape_ok (config : Config) (th : ThermalParams) (pl : Plan) : Prop :=
  let d := str_ config in
  banks d = bankgroups d * banks_per_group d /\ 0 < bankgroups d /\ 0 < banks_per_group d /\
  0 < channels (sys_ config) /\ is_Some (bank_order th) /\ is_Some (bank_layer_order th) /\
  make_plan config th = Done pl /\
  if is_hmc (protocol d) then 0 < num_dies d /\ banks d = 2 * num_dies d
  else if is_hbm (protocol d) then
    bankgroups d <= 4 /\ banks_per_group d <= 4 /\ channels (sys_ config) <= 2 * num_dies d
  else bankgroups d = 1 \/
    banks_per_group d = 4 /\
    if bank_x pl <=? bank_y pl then 2 <= bank_x pl /\ bankgroups d * 2 <= bank_y pl
    else 2 <= bank_y pl /\ bankgroups d * 2 <= bank_x pl.

Definition vaults_x (pl : Plan) : Z := default 1 (vault_x pl).
Definition vaults_y (pl : Plan) : Z := default 1 (vault_y pl).

(** The places of the banks are in the plan, and two banks share one only when they
    are the same bank of two channels of a memory that is not stacked. *)
Definition in_plan (pl : Plan) (q : place) : Prop :=
  0 <= p_vx q < vaults_x pl /\ 0 <= p_vy q < vaults_y pl /\
  0 <= p_bx q < bank_x pl /\ 0 <= p_by q < bank_y pl /\ 0 <= p_z q < numP pl.

Lemma quot_rem_unique a b m : 0 <= a -> 0 <= b -> 0 < m -> Z.quot a m = Z.quot b m -> Z.rem a m = Z.rem b m -> a = b.
Proof. intros Ha Hb Hm Hq Hr. rewrite (Z.quot_rem a m), (Z.quot_rem b m) by lia. congruence. Qed.

Lemma quot_bounds a m n : 0 <= a < m * n -> 0 < m -> 0 <= Z.quot a m < n /\ 0 <= Z.rem a m < m.
Proof.
  intros Ha Hm. pose proof (Z.rem_bound_pos a m). split; [|lia]. split; [apply Z.quot_pos; lia|].
  apply Z.quot_lt_upper_bound; lia.
Qed.

Section Places.
Variable config : Config.
Variable th : ThermalParams.
Variable pl : Plan.
Hypothesis Hok : shape_ok config th pl.
#[local] Abbreviation d := (str_ config).

(** The number of a bank in its rank. *)
Definition abs_bank (c : Config) (bg b : Z) : Z := bg * banks_per_group (str_ c) + b.

Lemma abs_bank_range v bg b : bank_ok config v bg b -> 0 <= abs_bank config bg b < banks d.
Proof using Hok. destruct Hok as (-> & ? & ? & _). intros (_ & ? & ?). unfold abs_bank. nia. Qed.

Lemma abs_bank_inj v bg b v' bg' b' : bank_ok config v bg b -> bank_ok config v' bg' b' ->
  abs_bank config bg b = abs_bank config bg' b' -> bg = bg' /\ b = b'.
Proof using. intros (_ & ? & ?) (_ & ? & ?). unfold abs_bank. intros E. assert (bg = bg') by nia. split; [done|nia]. Qed.

(** Hybrid memory cube: two banks of each vault lie in a layer. *)
Lemma place_hmc v bg b : is_hmc (protocol d) = true -> bank_ok config v bg b ->
  exists bo blo, bank_order th = Some bo /\ bank_layer_order th = Some blo /\
  place_of config th pl v bg b =
    Done (mk_place (if bo =? 0 then Z.rem v (vaults_x pl) else Z.quot v (vaults_y pl))
            (if bo =? 0 then Z.quot v (vaults_x pl) else Z.rem v (vaults_y pl)) 0 (Z.rem (abs_bank config bg b) 2)
            (if blo =? 0 then Z.quot (abs_bank config bg b) 2 else num_dies d - 1 - Z.quot (abs_bank config bg b) 2)) /\
  0 < vaults_x pl /\ 0 < vaults_y pl /\ vaults_x pl * vaults_y pl = channels (sys_ config) /\
  bank_x pl = 1 /\ bank_y pl = 2 /\ numP pl = num_dies d + 1.
Proof using Hok.
  intros HP Hb. pose proof (abs_bank_range v bg b Hb) as Habs.
  destruct Hok as (_ & _ & _ & Hch & [bo Hbo] & [blo Hblo] & Hpl & Hs). rewrite HP in Hs. destruct Hs as [Hnd Hbanks].
  unfold make_plan in Hpl. cbn zeta in Hpl. rewrite HP in Hpl.
  destruct (determineXY_divides (dmul (d_of_Z 1) (bank_asr th)) (dmul (d_of_Z 2) (d_of_Z 1)) _ Hch) as [Hx Hxy].
  set (vx := determineXY _ _ _) in *. rewrite cdiv_Done in Hpl by lia. cbn in Hpl. injection Hpl as <-.
  exists bo, blo. split_and!; try done; cbn.
  - unfold place_of, MapToVault, MapToBank, MapToZ, vaults_x, vaults_y. cbn -[Z.quot Z.rem abs_bank].
    rewrite HP, Hbo, Hblo. change (bg * _ + b) with (abs_bank config bg b). set (a := abs_bank config bg b) in *.
    assert (Z.quot (banks d) (num_dies d) = 2) as Hl by (rewrite Hbanks, Z.quot_mul; lia).
    pose proof (Z.rem_bound_pos a 2) as Hr. cbn -[Z.quot Z.rem].
    destruct (bo =? 0); cbn -[Z.quot Z.rem cdiv crem]; rewrite !(cdiv_Done v), !(crem_Done v) by lia; cbn -[Z.quot Z.rem cdiv crem];
      rewrite (cdiv_Done (banks _)), Hl by lia; cbn -[Z.quot Z.rem cdiv crem];
      rewrite (crem_Done a) by lia; cbn -[Z.quot Z.rem cdiv crem];
      rewrite (cdiv_Done (Z.rem a 2)), (crem_Done (Z.rem a 2)), (cdiv_Done a) by lia; cbn -[Z.quot Z.rem];
      rewrite ?Z.quot_1_r, ?Z.rem_1_r, ?(Z.quot_small (Z.rem a 2) 2), ?(Z.rem_small (Z.rem a 2) 2) by lia;
      do 2 f_equal; destruct (blo =? 0); done || lia.
  - unfold vaults_y. cbn. nia.
Qed.

(** High-bandwidth memory: a channel is half of a layer. *)
Lemma place_hbm v bg b : is_hmc (protocol d) = false -> is_hbm (protocol d) = true -> bank_ok config v bg b ->
  place_of config th pl v bg b =
    Done (mk_place 0 (Z.rem v 2) (bg * 2 + Z.quot b 2) (Z.rem b 2) (Z.quot v 2)) /\
  vaults_x pl = 1 /\ vaults_y pl = 2 /\ bank_x pl = 8 /\ bank_y pl = 2 /\ numP pl = num_dies d + 1.
Proof using Hok.
  intros HC HB Hb. destruct Hok as (_ & _ & _ & Hch & [bo Hbo] & _ & Hpl & Hs). rewrite HC, HB in Hs.
  unfold make_plan in Hpl. cbn zeta in Hpl. rewrite HC, HB in Hpl. injection Hpl as <-.
  split_and!; try done. unfold place_of, MapToVault, MapToBank, MapToZ. cbn zeta.
  by rewrite HC, HB, Hbo.
Qed.

(** Other memories: all banks lie side by side. *)
Lemma place_flat v bg b : is_hmc (protocol d) = false -> is_hbm (protocol d) = false -> bank_ok config v bg b ->
  exists x y, place_of config th pl v bg b = Done (mk_place 0 0 x y 0) /\
  0 <= x < bank_x pl /\ 0 <= y < bank_y pl /\ vaults_x pl = 1 /\ vaults_y pl = 1 /\ numP pl = 1 /\
  (forall v' bg' b', bank_ok config v' bg' b' -> place_of config th pl v' bg' b' = Done (mk_place 0 0 x y 0) ->
   bg' = bg /\ b' = b).
Proof using Hok.
  intros HC HB Hb. pose proof (abs_bank_range v bg b Hb) as Habs. pose proof Hb as (_ & Hbg & Hbb).
  pose proof (abs_bank_range) as Hrange.
  destruct Hok as (_ & Hg0 & Hp0 & Hch & [bo Hbo] & _ & Hpl & Hs). rewrite HC, HB in Hs.
  unfold make_plan in Hpl. cbn zeta in Hpl. rewrite HC, HB in Hpl.
  destruct (determineXY_divides (bank_asr th) (d_of_Z 1) (banks d)) as [Hx Hxy]; [lia|].
  set (bx := determineXY _ _ _) in *. rewrite cdiv_Done in Hpl by lia. cbn -[Z.quot] in Hpl. injection Hpl as Epl.
  set (by_ := Z.quot (banks d) bx) in *. assert (0 < by_) as Hy by nia.
  assert (bank_x pl = bx /\ bank_y pl = by_ /\ numP pl = 1 /\ vaults_x pl = 1 /\ vaults_y pl = 1)
    as (Ex & Ey & En & Evx & Evy) by (by rewrite <- Epl).
  clear Epl. rewrite Ex, Ey in Hs. unfold place_of, MapToVault, MapToBank, MapToZ. cbn zeta. rewrite HC, HB, Hbo, Ex, Ey.
  cbn -[Z.quot Z.rem Z.gtb Z.leb]. fold (abs_bank config bg b). destruct (Z.gtb_spec (bankgroups d) 1) as [Hg|Hg].
  - destruct Hs as [Hs|[H4 Hs]]; [lia|].
    assert (forall v bg b, bank_ok config v bg b -> 0 <= Z.rem b 2 < 2 /\ 0 <= Z.quot b 2 < 2 /\ 0 <= bg < bankgroups d) as Hbits.
    { intros v1 bg1 b1 (_ & ? & ?). split_and!; try lia; destruct (quot_bounds b1 2 2); lia. }
    pose proof (Hbits _ _ _ Hb). destruct (bo =? 0); destruct (bx <=? by_); cbn -[Z.quot Z.rem]; eexists _, _;
      (split_and!; [reflexivity|lia..|]); intros v' bg' b' Hb' [= E1 E2]; pose proof (Hbits _ _ _ Hb');
      destruct Hb' as (_ & ? & ?); (assert (bg' = bg) by lia); (split; [done|]);
      apply (quot_rem_unique b' b 2); lia.
  - assert (bankgroups d = 1) as Hg1 by lia.
    assert (forall f a, f = bx \/ f = by_ -> 0 <= a < banks d -> 0 < f /\ (f = bx -> 0 <= Z.quot a f < by_) /\
      (f = by_ -> 0 <= Z.quot a f < bx) /\ 0 <= Z.rem a f < f) as Hf.
    { intros f a Hff Ha. destruct (quot_bounds a bx by_) as [? ?]; [lia..|].
      destruct (quot_bounds a by_ bx) as [? ?]; [lia..|]. destruct Hff as [->| ->]; split_and!; intros; lia. }
    assert (forall f v' bg' b', f = bx \/ f = by_ -> bank_ok config v' bg' b' ->
      Z.quot (abs_bank config bg' b') f = Z.quot (abs_bank config bg b) f ->
      Z.rem (abs_bank config bg' b') f = Z.rem (abs_bank config bg b) f -> bg' = bg /\ b' = b) as Hinj.
    { intros f v' bg' b' Hff Hb' Eq Er. apply (abs_bank_inj v' bg' b' v bg b Hb' Hb).
      pose proof (Hrange _ _ _ Hb'). apply (quot_rem_unique _ _ f); try lia; destruct Hff; lia. }
    destruct (bo =? 0).
    + destruct (Hf bx (abs_bank config bg b) (or_introl eq_refl) Habs) as (? & Hq & _ & Hr).
      rewrite cdiv_Done, crem_Done by lia. cbn -[Z.quot Z.rem]. eexists _, _. split_and!; [reflexivity|lia..|].
      intros v' bg' b' Hb'. fold (abs_bank config bg' b'). rewrite cdiv_Done, crem_Done by lia. cbn -[Z.quot Z.rem].
      intros [= E1 E2]. by apply (Hinj bx v' bg' b' (or_introl eq_refl) Hb').
    + destruct (Hf by_ (abs_bank config bg b) (or_intror eq_refl) Habs) as (? & _ & Hq & Hr).
      rewrite cdiv_Done, crem_Done by lia. cbn -[Z.quot Z.rem]. eexists _, _. split_and!; [reflexivity|lia..|].
      intros v' bg' b' Hb'. fold (abs_bank config bg' b'). rewrite cdiv_Done, crem_Done by lia. cbn -[Z.quot Z.rem].
      intros [= E1 E2]. by apply (Hinj by_ v' bg' b' (or_intror eq_refl) Hb').
Qed.

End Places.

Section Tiling.
Variable config : Config.
Variable th : ThermalParams.
Variable pl : Plan.
Hypothesis Hok : shape_ok config th pl.
#[local] Abbreviation d := (str_ config).
#[local] Abbreviation stacked := (is_hmc (protocol d) || is_hbm (protocol d)).

Lemma place_in_plan v bg b : bank_ok config v bg b ->
  exists q, place_of config th pl v bg b = Done q /\ in_plan pl q.
Proof using Hok.
  intros Hb. pose proof (abs_bank_range config th pl Hok _ _ _ Hb) as Habs. pose proof Hb as (Hv & Hbg & Hbb).
  unfold in_plan. destruct (is_hmc (protocol d)) eqn:HC; [|destruct (is_hbm (protocol d)) eqn:HB].
  - destruct (place_hmc config th pl Hok v bg b HC Hb) as (bo & blo & _ & _ & -> & Hx & Hy & Hxy & -> & -> & ->).
    eexists. split; [done|]. cbn -[Z.quot Z.rem]. destruct Hok as (_ & _ & _ & _ & _ & _ & _ & Hs). rewrite HC in Hs.
    destruct (quot_bounds (abs_bank config bg b) 2 (num_dies d)); [lia..|].
    destruct (quot_bounds v (vaults_x pl) (vaults_y pl)); [lia..|].
    destruct (quot_bounds v (vaults_y pl) (vaults_x pl)); [lia..|]. split_and!; repeat case_match; lia.
  - destruct (place_hbm config th pl Hok v bg b HC HB Hb) as (-> & -> & -> & -> & -> & ->).
    eexists. split; [done|]. cbn -[Z.quot Z.rem]. destruct Hok as (_ & _ & _ & _ & _ & _ & _ & Hs). rewrite HC, HB in Hs.
    destruct (quot_bounds v 2 (num_dies d)); [lia..|]. destruct (quot_bounds b 2 2); [lia..|]. lia.
  - destruct (place_flat config th pl Hok v bg b HC HB Hb) as (x & y & -> & ? & ? & -> & -> & -> & _).
    eexists. split; [done|]. cbn. lia.
Qed.

Lemma place_unique v bg b v' bg' b' q : bank_ok config v bg b -> bank_ok config v' bg' b' ->
  place_of config th pl v bg b = Done q -> place_of config th pl v' bg' b' = Done q ->
  bg = bg' /\ b = b' /\ (stacked = true -> v = v').
Proof using Hok.
  intros Hb Hb'. pose proof (abs_bank_range config th pl Hok _ _ _ Hb) as Ha.
  pose proof (abs_bank_range config th pl Hok _ _ _ Hb') as Ha'. pose proof Hb as (Hv & _). pose proof Hb' as (Hv' & _).
  destruct (is_hmc (protocol d)) eqn:HC; [|destruct (is_hbm (protocol d)) eqn:HB].
  - destruct (place_hmc config th pl Hok v bg b HC Hb) as (bo & blo & E1 & E2 & -> & Hx & Hy & _).
    destruct (place_hmc config th pl Hok v' bg' b' HC Hb') as (bo' & blo' & E1' & E2' & -> & _). simplify_eq.
    intros Eq Eq'. rewrite <- Eq in Eq'. injection Eq' as Q1 Q2 Q3 Q4. clear Eq.
    assert (abs_bank config bg b = abs_bank config bg' b') as E.
    { apply (quot_rem_unique _ _ 2); try lia. repeat case_match; lia. }
    destruct (abs_bank_inj config v bg b v' bg' b' Hb Hb' E) as [-> ->]. split_and!; [done..|]. intros _.
    repeat case_match; first [apply (quot_rem_unique v v' (vaults_x pl)); lia|apply (quot_rem_unique v v' (vaults_y pl)); lia].
  - destruct (place_hbm config th pl Hok v bg b HC HB Hb) as [-> _].
    destruct (place_hbm config th pl Hok v' bg' b' HC HB Hb') as [-> _].
    intros Eq Eq'. rewrite <- Eq in Eq'. injection Eq' as Q1 Q2 Q3 Q4. clear Eq. destruct Hok as (_ & _ & _ & _ & _ & _ & _ & Hs). rewrite HC, HB in Hs. destruct Hs as (_ & H4 & _).
    destruct Hb as (_ & Hg & Hbb), Hb' as (_ & Hg' & Hbb').
    destruct (quot_bounds b 2 2); [lia..|]. destruct (quot_bounds b' 2 2); [lia..|].
    split_and!; [lia| |intros _]; apply (quot_rem_unique _ _ 2); lia.
  - destruct (place_flat config th pl Hok v bg b HC HB Hb) as (x & y & -> & _ & _ & _ & _ & _ & Hu).
    intros [= <-] E. destruct (Hu v' bg' b' Hb' E) as [-> ->]. done.
Qed.

Lemma plan_dims : 0 < num_x_grids th -> 0 < num_y_grids th ->
  dimX pl = vaults_x pl * bank_x pl * num_x_grids th /\ dimY pl = vaults_y pl * bank_y pl * num_y_grids th.
Proof using Hok.
  intros Hx Hy. destruct Hok as (_ & Hg & Hp & Hch & _ & _ & Hpl & _). unfold make_plan in Hpl. cbn zeta in Hpl.
  destruct (is_hmc _); [|destruct (is_hbm _)].
  - apply bind_Done in Hpl as (vy & _ & [= <-]). done.
  - by injection Hpl as <-.
  - apply bind_Done in Hpl as (y & _ & [= <-]). cbn [vaults_x vaults_y vault_x vault_y dimX dimY bank_x bank_y default].
    unfold vaults_x, vaults_y. cbn. lia.
Qed.

(** The rectangle of a place. *)
Definition rect_of (v bg b : Z) (q : place) : bank_pos :=
  mk_pos v (abs_bank config bg b) (base_x th pl (p_vx q) (p_bx q))
    (p_vx q * (bank_x pl * num_x_grids th) + (p_bx q + 1) * num_x_grids th - 1)
    (base_y th pl (p_vy q) (p_by q))
    (p_vy q * (bank_y pl * num_y_grids th) + (p_by q + 1) * num_y_grids th - 1) (p_z q).

Lemma bank_rectangle_place v bg b q : place_of config th pl v bg b = Done q ->
  bank_rectangle config th pl v bg b = Done (rect_of v bg b q).
Proof using.
  unfold place_of, bank_rectangle. intros H. apply bind_Done in H as ([vx vy] & -> & H).
  apply bind_Done in H as ([bx by_] & -> & H). apply bind_Done in H as (z & -> & [= <-]). done.
Qed.

Definition in_rect (r : bank_pos) (x y z : Z) : Prop :=
  start_x r <= x <= end_x r /\ start_y r <= y <= end_y r /\ z = layer r.

Lemma tile_unique n m v v' b b' x : 0 < n -> 0 <= b < m -> 0 <= b' < m ->
  v * (m * n) + b * n <= x <= v * (m * n) + (b + 1) * n - 1 ->
  v' * (m * n) + b' * n <= x <= v' * (m * n) + (b' + 1) * n - 1 -> v = v' /\ b = b'.
Proof using.
  intros Hn Hb Hb' Hx Hx'.
  assert (v * m + b = v' * m + b') as E.
  { assert (n * (v * m + b) <= x < n * (v * m + b + 1)) by lia. assert (n * (v' * m + b') <= x < n * (v' * m + b' + 1)) by lia. nia. }
  assert (v = v') by nia. split; [done|nia].
Qed.

Lemma tile_bounds n m k v b : 0 < n -> 0 <= v < k -> 0 <= b < m ->
  0 <= v * (m * n) + b * n <= v * (m * n) + (b + 1) * n - 1 /\ v * (m * n) + (b + 1) * n - 1 < k * m * n.
Proof using.
  intros Hn Hv Hb. assert (0 <= v * m + b < k * m) by nia.
  replace (v * (m * n) + b * n) with ((v * m + b) * n) by lia.
  replace (v * (m * n) + (b + 1) * n - 1) with ((v * m + b) * n + n - 1) by lia. nia.
Qed.

(** The rectangles that are printed for the banks tile the die: each lies in the
    plan, in one of its layers, and no cell belongs to the rectangles of two banks
    (of two channels, only when the memory is stacked: other channels have a map of
    their own). *)
Theorem banks_tile_the_die v bg b : 0 < num_x_grids th -> 0 < num_y_grids th -> bank_ok config v bg b ->
  exists r, bank_rectangle config th pl v bg b = Done r /\
  0 <= start_x r <= end_x r /\ end_x r < dimX pl /\ 0 <= start_y r <= end_y r /\ end_y r < dimY pl /\
  0 <= layer r < numP pl /\
  forall v' bg' b' r' x y z, bank_ok config v' bg' b' -> bank_rectangle config th pl v' bg' b' = Done r' ->
    in_rect r x y z -> in_rect r' x y z -> bg = bg' /\ b = b' /\ (stacked = true -> v = v').
Proof using Hok.
  intros Hx Hy Hb. destruct (place_in_plan v bg b Hb) as (q & Hq & Hvx & Hvy & Hbx & Hby & Hz).
  exists (rect_of v bg b q). destruct (plan_dims Hx Hy) as [-> ->].
  pose proof (tile_bounds (num_x_grids th) (bank_x pl) (vaults_x pl) (p_vx q) (p_bx q) Hx Hvx Hbx).
  pose proof (tile_bounds (num_y_grids th) (bank_y pl) (vaults_y pl) (p_vy q) (p_by q) Hy Hvy Hby).
  split; [by apply bank_rectangle_place|]. cbn [rect_of start_x end_x start_y end_y layer].
  unfold base_x, base_y. split_and!; try lia.
  intros v' bg' b' r' x y z Hb'. destruct (place_in_plan v' bg' b' Hb') as (q' & Hq' & ? & ? & ? & ? & ?).
  rewrite (bank_rectangle_place _ _ _ _ Hq'). intros [= <-] (Rx & Ry & Rz) (Rx' & Ry' & Rz').
  cbn [rect_of start_x end_x start_y end_y layer] in *. unfold base_x, base_y in *.
  destruct (tile_unique (num_x_grids th) (bank_x pl) (p_vx q) (p_vx q') (p_bx q) (p_bx q') x); [done..|].
  destruct (tile_unique (num_y_grids th) (bank_y pl) (p_vy q) (p_vy q') (p_by q) (p_by q') y); [done..|].
  apply (place_unique v bg b v' bg' b' q Hb Hb' Hq). rewrite Hq'. f_equal. destruct q, q'. cbn in *. congruence.
Qed.

End Tiling.

(** ** The location mapping permutes bits *)

Lemma GetBitInPos_testbit v i : 0 <= i -> GetBitInPos v i = Z.b2z (Z.testbit v i).
Proof.
  intros Hi. unfold GetBitInPos. change 1 with (Z.ones 1). rewrite Z.land_ones by lia. change (2 ^ 1) with 2.
  rewrite <- Z.bit0_mod, Z.shiftr_spec by lia. by rewrite Z.add_0_l.
Qed.

Lemma ModuloWidth_mod h w pos : 0 <= h < 2 ^ 64 -> 0 <= w < 32 -> 0 <= pos ->
  ModuloWidth h w pos = Z.shiftr h pos mod 2 ^ w.
Proof.
  intros Hh Hw Hp. unfold ModuloWidth. set (a := Z.shiftr h pos).
  assert (0 <= a < 2 ^ 64) as Ha.
  { subst a. rewrite Z.shiftr_div_pow2 by done. pose proof (Z.pow_pos_nonneg 2 pos ltac:(lia) Hp).
    split; [by apply Z.div_pos; lia|]. apply Z.le_lt_trans with h; [|lia]. apply Z.div_le_upper_bound; [lia|]. nia. }
  assert (Z.shiftl (Z.shiftr a w) w = a - a mod 2 ^ w) as Ht.
  { rewrite Z.shiftr_div_pow2, Z.shiftl_mul_pow2 by lia. pose proof (Z.div_mod a (2 ^ w)). lia. }
  pose proof (Z.mod_pos_bound a (2 ^ w)) as Hm. pose proof (Z.mod_le a (2 ^ w)) as Hle.
  assert (2 ^ w <= 2 ^ 32) by (apply Z.pow_le_mono_r; lia).
  rewrite (u64_small (Z.shiftl _ _)) by (rewrite Ht; lia).
  assert (Z.lxor a (Z.shiftl (Z.shiftr a w) w) = a mod 2 ^ w) as ->; [|apply u32_small; lia].
  apply Z.bits_inj'. intros i Hi. rewrite Z.lxor_spec, Z.shiftl_spec by done.
  destruct (decide (i < w)).
  - rewrite (Z.testbit_neg_r (Z.shiftr a w)), xorb_false_r by lia. by rewrite Z.mod_pow2_bits_low by lia.
  - rewrite Z.shiftr_spec, Z.sub_add, xorb_nilpotent by lia. by rewrite Z.mod_pow2_bits_high by lia.
Qed.

(** The bits that a field sets: positions and values. *)
Fixpoint field_bits (v : Z) (ps : list Z) : list (Z * bool) :=
  match ps with
  | [] => []
  | p :: ps' => (p, Z.testbit (u64 v) (Z.of_nat (length ps'))) :: field_bits v ps'
  end.
Fixpoint address_bits (vs : list Z) (mp : list (list Z)) : list (Z * bool) :=
  match vs, mp with
  | v :: vs', ps :: mp' => field_bits v ps ++ address_bits vs' mp'
  | _, _ => []
  end.

Definition hits (i : Z) (l : list (Z * bool)) : bool := existsb (fun pb => (pb.1 =? i) && pb.2) l.

Lemma lor_below a b n : 0 <= n -> 0 <= a < 2 ^ n -> 0 <= b < 2 ^ n -> 0 <= Z.lor a b < 2 ^ n.
Proof.
  intros Hn Ha Hb. assert (0 <= Z.lor a b) by (apply Z.lor_nonneg; lia). split; [done|].
  rewrite <- (Z.mod_small a (2 ^ n)), <- (Z.mod_small b (2 ^ n)), <- !Z.land_ones by lia.
  rewrite <- Z.land_lor_distr_l, Z.land_ones by done. by apply Z.mod_pos_bound, Z.pow_pos_nonneg.
Qed.

Definition pos_ok (ps : list Z) : Prop := (length ps < 32)%nat /\ Forall (fun p => 0 <= p < 64) ps.

Lemma place_bits_spec v ps h : pos_ok ps -> 0 <= h < 2 ^ 64 ->
  exists h', place_bits v ps h = Done h' /\ 0 <= h' < 2 ^ 64 /\
  forall i, 0 <= i -> Z.testbit h' i = Z.testbit h i || hits i (field_bits v ps).
Proof.
  intros [Hl Hps]. revert h. induction ps as [|p ps IH]; intros h Hh; cbn [place_bits field_bits].
  { exists h. split_and!; [done|lia..|]. intros. by rewrite orb_false_r. }
  apply Forall_cons in Hps as [Hp Hps]. cbn [length] in Hl.
  rewrite (proj2 (Z.leb_le 0 p)), (proj2 (Z.ltb_lt p 64)), (proj2 (Z.ltb_lt _ 64)) by lia. cbn [andb].
  rewrite GetBitInPos_testbit by lia. set (b := Z.testbit _ _).
  destruct (IH ltac:(lia) Hps (Z.lor h (Z.shiftl (Z.b2z b) p))) as (h' & -> & Hh' & Hb).
  { apply lor_below; [lia..|]. rewrite Z.shiftl_mul_pow2 by lia.
    assert (2 ^ p < 2 ^ 64) by (apply Z.pow_lt_mono_r; lia). destruct b; cbn [Z.b2z]; lia. }
  exists h'. split_and!; [done|lia..|]. intros i Hi. rewrite Hb by done. unfold hits. cbn [existsb fst snd].
  rewrite Z.lor_spec, Z.shiftl_spec, <- orb_assoc by done. f_equal. f_equal.
  destruct (Z.eqb_spec p i) as [->|Hne]; [by rewrite Z.sub_diag, Z.b2z_bit0|]. cbn [andb].
  destruct (decide (i < p)); [by rewrite Z.testbit_neg_r by lia|].
  destruct b; cbn [Z.b2z]; [|by rewrite Z.bits_0]. rewrite <- (Z.pow_0_r 2). apply Z.pow2_bits_false. lia.
Qed.

Lemma place_fields_spec mp : Forall pos_ok mp -> forall vs h, 0 <= h < 2 ^ 64 ->
  exists h', place_fields vs mp h = Done h' /\ 0 <= h' < 2 ^ 64 /\
  forall i, 0 <= i -> Z.testbit h' i = Z.testbit h i || hits i (address_bits vs mp).
Proof.
  induction mp as [|ps mp IH]; intros Hmp vs h Hh; destruct vs as [|v vs]; cbn [place_fields address_bits];
    try (exists h; split_and!; [done|lia..|]; intros; by rewrite orb_false_r).
  apply Forall_cons in Hmp as [Hps Hmp]. destruct (place_bits_spec v ps h Hps Hh) as (h1 & -> & H1 & B1). cbn [mbind outcome_bind].
  destruct (IH Hmp vs h1 H1) as (h2 & -> & H2 & B2). exists h2. split_and!; [done|lia..|]. intros i Hi.
  unfold hits. rewrite existsb_app, B2, B1, <- orb_assoc by done. done.
Qed.

Definition total_width (ws : list Z) : Z := foldr Z.add 0 ws.

Lemma read_fields_spec h ws : 0 <= h < 2 ^ 64 -> Forall (fun w => 0 <= w < 32) ws -> forall pos,
  0 <= pos -> pos + total_width ws < 64 ->
  exists r, read_fields h pos ws = Done r /\ Forall2 (fun w x => 0 <= x < 2 ^ w) ws r.
Proof.
  intros Hh. induction ws as [|w ws IH]; intros Hws pos Hp Ht; [by exists []|].
  apply Forall_cons in Hws as [Hw Hws]. cbn [read_fields total_width foldr] in *.
  assert (0 <= total_width ws) as Hn.
  { clear -Hws. induction Hws; cbn; [done|]. unfold total_width in *. lia. }
  fold (total_width ws) in Ht. destruct (IH Hws (pos + w)) as (r & -> & Hr); [lia..|].
  rewrite (proj2 (Z.leb_le 0 pos)), (proj2 (Z.ltb_lt pos 64)), (proj2 (Z.ltb_lt w 64)) by lia. cbn.
  eexists. split; [done|]. constructor; [|done]. rewrite ModuloWidth_mod by lia.
  pose proof (Z.mod_pos_bound (Z.shiftr h pos) (2 ^ w)) as Hm. assert (2 ^ w <= 2 ^ 31) by (apply Z.pow_le_mono_r; lia).
  rewrite s32_small by lia. lia.
Qed.

(** What was read determines the bits it was read from. *)
Lemma read_fields_bits h h' ws : 0 <= h < 2 ^ 64 -> 0 <= h' < 2 ^ 64 -> Forall (fun w => 0 <= w < 32) ws ->
  forall pos r i, 0 <= pos -> read_fields h pos ws = Done r -> read_fields h' pos ws = Done r ->
  pos <= i < pos + total_width ws -> Z.testbit h i = Z.testbit h' i.
Proof.
  intros Hh Hh'. induction ws as [|w ws IH]; intros Hws pos r i Hp Hr Hr' Hi; [cbn in Hi; lia|].
  apply Forall_cons in Hws as [Hw Hws]. cbn [read_fields total_width foldr] in *. fold (total_width ws) in Hi.
  destruct (_ && _); [|done]. apply bind_Done in Hr as (r1 & E1 & [= <-]). apply bind_Done in Hr' as (r2 & E2 & E).
  injection E as E ->. destruct (decide (i < pos + w)); [|apply (IH Hws (pos + w) r1); lia || done].
  rewrite !ModuloWidth_mod in E by lia.
  pose proof (Z.mod_pos_bound (Z.shiftr h pos) (2 ^ w)). pose proof (Z.mod_pos_bound (Z.shiftr h' pos) (2 ^ w)).
  assert (2 ^ w <= 2 ^ 31) by (apply Z.pow_le_mono_r; lia). rewrite !s32_small in E by lia.
  apply (f_equal (fun x => Z.testbit x (i - pos))) in E. rewrite !Z.mod_pow2_bits_low, !Z.shiftr_spec, !Z.sub_add in E by lia.
  done.
Qed.

Lemma hits_app i l l' : hits i (l ++ l') = hits i l || hits i l'.
Proof. apply existsb_app. Qed.

Lemma hits_not_in i v ps : i ∉ ps -> hits i (field_bits v ps) = false.
Proof.
  induction ps as [|p ps IH]; intros Hi; [done|]. apply not_elem_of_cons in Hi as [Hne Hi].
  unfold hits in *. cbn [field_bits existsb fst snd]. rewrite (proj2 (Z.eqb_neq p i)), IH by done. done.
Qed.

Lemma hits_zero i ps : hits i (field_bits 0 ps) = false.
Proof.
  induction ps as [|p ps IH]; [done|]. unfold hits in *. cbn [field_bits existsb fst snd]. change (u64 0) with 0.
  by rewrite Z.bits_0, andb_false_r, IH.
Qed.

Lemma field_bits_determine v v' ps : NoDup ps ->
  (forall p, p ∈ ps -> hits p (field_bits v ps) = hits p (field_bits v' ps)) ->
  forall k, 0 <= k < Z.of_nat (length ps) -> Z.testbit (u64 v) k = Z.testbit (u64 v') k.
Proof.
  induction ps as [|p ps IH]; intros Hnd Hh k Hk; [cbn in Hk; lia|]. apply NoDup_cons in Hnd as [Hp Hnd]. cbn in Hk.
  assert (forall q w, hits q (field_bits w (p :: ps)) = (p =? q) && Z.testbit (u64 w) (Z.of_nat (length ps)) || hits q (field_bits w ps))
    as Hc by done.
  destruct (decide (k = Z.of_nat (length ps))) as [->|Hne].
  - specialize (Hh p ltac:(left)). rewrite !Hc, !(hits_not_in p) in Hh by done.
    by rewrite Z.eqb_refl, !orb_false_r in Hh.
  - apply IH; [done| |lia]. intros q Hq. specialize (Hh q ltac:(by right)). rewrite !Hc in Hh.
    rewrite (proj2 (Z.eqb_neq p q)) in Hh by (intros ->; done). done.
Qed.

(** The fields of an address that are in use: the others are 0 and may share their
    positions. *)
Fixpoint live_positions (keep : list bool) (mp : list (list Z)) : list Z :=
  match keep, mp with
  | k :: keep', ps :: mp' => (if k then ps else []) ++ live_positions keep' mp'
  | _, _ => []
  end.
Fixpoint dead_zero (keep : list bool) (vs : list Z) : Prop :=
  match keep, vs with
  | k :: keep', v :: vs' => (k = false -> v = 0) /\ dead_zero keep' vs'
  | _, _ => True
  end.

Lemma hits_not_live keep : forall mp vs i, length keep = length mp -> length mp = length vs -> dead_zero keep vs ->
  i ∉ live_positions keep mp -> hits i (address_bits vs mp) = false.
Proof.
  induction keep as [|k keep IH]; intros [|ps mp] [|v vs] i; try done. cbn [length live_positions dead_zero address_bits].
  intros [= E1] [= E2] [Hd Hds] Hi. apply not_elem_of_app in Hi as [Hi Hi']. rewrite hits_app, IH, orb_false_r by done.
  destruct k; [by apply hits_not_in|]. rewrite (Hd eq_refl). apply hits_zero.
Qed.

Lemma fields_determined keep : forall mp vs vs', length keep = length mp ->
  Forall2 (fun v ps => 0 <= v < 2 ^ Z.of_nat (length ps)) vs mp ->
  Forall2 (fun v ps => 0 <= v < 2 ^ Z.of_nat (length ps)) vs' mp -> Forall pos_ok mp ->
  dead_zero keep vs -> dead_zero keep vs' -> NoDup (live_positions keep mp) ->
  (forall i, i ∈ live_positions keep mp -> hits i (address_bits vs mp) = hits i (address_bits vs' mp)) -> vs = vs'.
Proof.
  induction keep as [|k keep IH]; intros [|ps mp] vs vs' E Hv Hv' Hmp Hd Hd' Hnd Hh; try done;
    inversion Hv as [|v ? vs0 ? Hv1 Hv2]; inversion Hv' as [|v' ? vs0' ? Hv1' Hv2']; subst; [done|].
  injection E as E. apply Forall_cons in Hmp as [[Hl Hps] Hmp]. cbn [live_positions dead_zero address_bits] in *.
  apply NoDup_app in Hnd as (Hnd & Hdj & Hnd'). destruct Hd as [Hd Hds], Hd' as [Hd' Hds'].
  assert (length mp = length vs0 /\ length mp = length vs0') as [L L'] by (apply Forall2_length in Hv2, Hv2'; lia).
  assert (v = v') as <-.
  { destruct k; [|by rewrite Hd, Hd']. assert (2 ^ Z.of_nat (length ps) <= 2 ^ 64) by (apply Z.pow_le_mono_r; lia).
    rewrite <- (u64_small v), <- (u64_small v') by lia. apply Z.bits_inj'. intros i Hi.
    destruct (decide (i < Z.of_nat (length ps))).
    - apply (field_bits_determine v v' ps Hnd); [|lia]. intros p Hp. specialize (Hdj p Hp).
      specialize (Hh p ltac:(apply elem_of_app; by left)). rewrite !hits_app in Hh.
      by rewrite !(hits_not_live keep mp), !orb_false_r in Hh.
    - rewrite !u64_small by lia. rewrite <- (Z.mod_small v (2 ^ Z.of_nat (length ps))), <- (Z.mod_small v' (2 ^ Z.of_nat (length ps))) by lia.
      by rewrite !Z.mod_pow2_bits_high by lia. }
  f_equal. apply (IH mp); try done. intros i Hi. specialize (Hh i ltac:(apply elem_of_app; by right)). rewrite !hits_app in Hh.
  assert (hits i (field_bits v ps) = false) as Hz.
  { destruct k; [|rewrite Hd by done; apply hits_zero]. apply hits_not_in. intros Hp. by apply (Hdj i). }
  by rewrite Hz in Hh.
Qed.

(** A mapping of six fields, whose bits the read-back finds in 64 bits. *)
Definition widths_of (mp : list (list Z)) : list Z := map (fun ps => Z.of_nat (length ps)) mp.

Definition mapping_ok (m : list (list Z) * Z) : Prop :=
  length m.1 = 6%nat /\ Forall pos_ok m.1 /\ 0 <= m.2 /\ m.2 + total_width (reverse (widths_of m.1)) < 64.

(** A field of the address fits the width the mapping gives it. *)
Definition address_fits (mp : list (list Z)) (a : Address) : Prop :=
  Forall2 (fun v ps => 0 <= v < 2 ^ Z.of_nat (length ps)) (fields_of a) mp.

Lemma widths_below mp : Forall pos_ok mp -> Forall (fun w => 0 <= w < 32) (reverse (widths_of mp)).
Proof.
  intros H. rewrite Forall_reverse. unfold widths_of. apply Forall_map. eapply Forall_impl; [exact H|].
  intros ps [Hl _]. cbn. lia.
Qed.

Lemma Forall2_reverse {A B} (P : A -> B -> Prop) l l' : Forall2 P l l' -> Forall2 P (reverse l) (reverse l').
Proof.
  induction 1; [done|]. rewrite !reverse_cons. apply Forall2_app; [done|]. by repeat constructor.
Qed.

Lemma address_of_six l : length l = 6%nat -> exists a, address_of l = Done a /\ fields_of a = l.
Proof.
  intros Hl. do 6 (destruct l as [|? l]; [done|]). destruct l; [|done]. eexists. split; [reflexivity|done].
Qed.

Lemma GetPhyAddress_Done m a : mapping_ok m ->
  exists h r b, place_fields (fields_of a) m.1 0 = Done h /\ 0 <= h < 2 ^ 64 /\
  (forall i, 0 <= i -> Z.testbit h i = hits i (address_bits (fields_of a) m.1)) /\
  read_fields h m.2 (reverse (widths_of m.1)) = Done r /\
  GetPhyAddress (Some m) a = Done b /\ fields_of b = reverse r /\ address_fits m.1 b.
Proof.
  destruct m as [mp off]. cbn [fst snd]. intros (Hl & Hps & Hoff & Ht). cbn [fst snd] in *.
  destruct (place_fields_spec mp Hps (fields_of a) 0) as (h & Eh & Hh & Hb); [lia|].
  destruct (read_fields_spec h _ Hh (widths_below _ Hps) off Hoff Ht) as (r & Er & Hr).
  assert (length (reverse r) = 6%nat) as L.
  { apply Forall2_length in Hr. rewrite length_reverse in *. unfold widths_of in Hr. rewrite length_map in Hr. lia. }
  destruct (address_of_six _ L) as (b & Eb & Fb). exists h, r, b. split_and!; try done; try lia.
  - intros i Hi. rewrite Hb, Z.bits_0 by done. done.
  - cbn [GetPhyAddress]. rewrite Eh. cbn [mbind outcome_bind]. fold (widths_of mp). by rewrite Er.
  - unfold address_fits. rewrite Fb. apply Forall2_reverse in Hr. rewrite reverse_involutive in Hr. unfold widths_of in Hr.
    apply Forall2_fmap_l in Hr. apply Forall2_flip in Hr. exact Hr.
Qed.

(** The location mapping loses nothing: two addresses that fit its fields and are
    sent to the same physical address are equal, when the positions of the fields in
    use are distinct and lie where the read-back looks for them. *)
Theorem phy_address_injective keep m a b p : mapping_ok m -> length keep = 6%nat ->
  NoDup (live_positions keep m.1) ->
  Forall (fun i => m.2 <= i < m.2 + total_width (reverse (widths_of m.1))) (live_positions keep m.1) ->
  address_fits m.1 a -> address_fits m.1 b -> dead_zero keep (fields_of a) -> dead_zero keep (fields_of b) ->
  GetPhyAddress (Some m) a = Done p -> GetPhyAddress (Some m) b = Done p -> a = b.
Proof.
  intros Hm Hk Hnd Hin Ha Hb Da Db Ea Eb. pose proof Hm as (Hl & Hps & Hoff & Ht).
  destruct (GetPhyAddress_Done m a Hm) as (h & r & p1 & _ & Hh & Bh & Er & E1 & F1 & _).
  destruct (GetPhyAddress_Done m b Hm) as (h' & r' & p2 & _ & Hh' & Bh' & Er' & E2 & F2 & _).
  assert (p1 = p) as -> by congruence. assert (p2 = p) as -> by congruence.
  assert (r' = r) as -> by (apply (inj reverse); congruence).
  assert (fields_of a = fields_of b) as E; [|destruct a, b; cbn in E; by injection E as -> -> -> -> -> ->].
  apply (fields_determined keep m.1); try done; [lia|]. intros i Hi. rewrite Forall_forall in Hin.
  specialize (Hin i Hi). rewrite <- Bh, <- Bh' by lia.
  by apply (read_fields_bits h h' _ Hh Hh' (widths_below _ Hps) m.2 r).
Qed.

(** ** Energy is booked in the bank that used it *)

(** The sizes that [InitThermalParams] derives when the bank divides into whole
    mats and is not tiled. *)
Definition grid_ok (d : Structure) (th : ThermalParams) : Prop :=
  0 < mat_dim_x th /\ 0 < mat_dim_y th /\ row_tile th = 1 /\ tile_row_num th = rows d /\
  0 < num_x_grids th /\ 0 < num_y_grids th /\ 0 < device_width d /\ 0 < rows d /\
  num_x_grids th * mat_dim_x th = rows d /\ num_y_grids th * mat_dim_y th = columns d * device_width d.

(** The columns that the location mapping can return. *)
Definition columns_ok (d : Structure) (mapping : option (list (list Z) * Z)) (a : Address) : Prop :=
  match mapping with
  | None => 0 <= column a /\ column a + BL d <= columns d
  | Some m => mapping_ok m /\ 2 ^ Z.of_nat (length (nth 5 m.1 [])) <= columns d
  end.

Lemma phys_column d mapping a i : columns_ok d mapping a -> 0 <= i < BL d ->
  exists p, GetPhyAddress mapping (mk_addr (channel a) (rank a) (bankgroup a) (bank a) (row a) (column a + i)) = Done p /\
  0 <= column p < columns d.
Proof.
  destruct mapping as [m|]; cbn [columns_ok].
  - intros [Hm Hc] Hi. destruct (GetPhyAddress_Done m (mk_addr (channel a) (rank a) (bankgroup a) (bank a) (row a) (column a + i)) Hm)
      as (_ & _ & p & _ & _ & _ & _ & E & _ & F). exists p. split; [done|]. destruct m as [mp off]. cbn [fst] in *.
    unfold address_fits in F. destruct p as [c r g b w k].
    unfold fields_of in F. cbn [Dram.column channel rank bankgroup bank row] in F |- *.
    repeat match goal with H : Forall2 _ (_ :: _) _ |- _ => inversion H; clear H; subst end. cbn [nth] in Hc. lia.
  - intros [H1 H2] Hi. eexists. split; [reflexivity|]. cbn. lia.
Qed.

Lemma mapM_outcome {A B} (f : A -> outcome B) (P : B -> Prop) l :
  (forall x, x ∈ l -> exists y, f x = Done y /\ P y) -> exists ys, mapM f l = Done ys /\ Forall P ys /\ length ys = length l.
Proof.
  induction l as [|x l IH]; intros H; [by exists []|]. destruct (H x) as (y & E & Hy); [left|].
  destruct IH as (ys & Es & Hys & L); [intros; apply H; by right|]. exists (y :: ys). cbn. rewrite E. cbn. rewrite Es.
  split_and!; [done|by constructor|cbn; by rewrite L].
Qed.

(** The value of a cell of a power map. *)
Definition pm_at (pm : list (list double)) (c j : Z) : option double :=
  match zlookup pm c with Some r => zlookup r j | None => None end.

(** Every case has a map with [n] cells. *)
Definition maps_ok (cases n : Z) (pm : list (list double)) : Prop :=
  Z.of_nat (length pm) = cases /\ Forall (fun r => Z.of_nat (length r) = n) pm.

Lemma maps_ok_row cases n pm c : maps_ok cases n pm -> 0 <= c < cases ->
  exists r, zlookup pm c = Some r /\ Z.of_nat (length r) = n.
Proof.
  intros [Hl Hr] Hc. destruct (zlookup_in_range pm c) as [r E]; [lia|]. exists r. split; [done|].
  rewrite Forall_forall in Hr. apply Hr. unfold zlookup in E. case_decide; [|done]. by eapply list_elem_of_lookup_2.
Qed.

Lemma add_at_spec cases n pm c e i : maps_ok cases n pm -> 0 <= c < cases -> 0 <= i < n ->
  exists pm', add_at c e pm i = Done pm' /\ maps_ok cases n pm' /\
  forall c' j, pm_at pm' c' j =
    if bool_decide (c' = c) && bool_decide (j = i) then (fun v => dadd v e) <$> pm_at pm c j else pm_at pm c' j.
Proof.
  intros Hm Hc Hi. destruct (maps_ok_row _ _ _ _ Hm Hc) as (r & Er & Lr). destruct Hm as [Hl Hr].
  destruct (zlookup_in_range r i) as [v Ev]; [lia|]. unfold add_at. rewrite (vget_Some _ _ _ Er). cbn.
  rewrite (vget_Some _ _ _ Ev). cbn. rewrite vset_in_range by lia. eexists. split; [reflexivity|]. split.
  - split; [by rewrite length_zinsert|]. unfold zinsert at 1. rewrite decide_True by lia.
    apply Forall_insert; [done|]. by rewrite length_zinsert.
  - intros c' j. unfold pm_at. destruct (decide (c' = c)) as [->|Hne].
    + rewrite zlookup_zinsert_eq, Er by lia. rewrite bool_decide_eq_true_2 by done. cbn. destruct (decide (j = i)) as [->|Hj].
      * rewrite zlookup_zinsert_eq, Ev, bool_decide_eq_true_2 by (done || lia). done.
      * rewrite zlookup_zinsert_ne, bool_decide_eq_false_2 by done. done.
    + rewrite zlookup_zinsert_ne, (bool_decide_eq_false_2 (c' = c)) by done. done.
Qed.

(** Each cell gets the energy as often as it occurs in the list. *)
Lemma add_all_spec cases n c e idxs : 0 <= c < cases -> Forall (fun i => 0 <= i < n) idxs -> forall pm, maps_ok cases n pm ->
  exists pm', add_all c e pm idxs = Done pm' /\ maps_ok cases n pm' /\
  forall c' j, pm_at pm' c' j =
    if bool_decide (c' = c) then iter_step (count_occ Z.eq_dec idxs j) (fun v => dadd v e) <$> pm_at pm c' j
    else pm_at pm c' j.
Proof.
  intros Hc. induction idxs as [|i idxs IH]; intros Hi pm Hm.
  { exists pm. split_and!; [done..|]. intros c' j. case_bool_decide; [|done]. cbn. by destruct (pm_at pm c' j). }
  apply Forall_cons in Hi as [Hi His]. destruct (add_at_spec _ _ _ c e i Hm Hc Hi) as (pm1 & E1 & Hm1 & H1).
  destruct (IH His pm1 Hm1) as (pm2 & E2 & Hm2 & H2). exists pm2. cbn [add_all]. rewrite E1. cbn. split_and!; [done..|].
  intros c' j. rewrite H2, !H1. case_bool_decide as Ec; [|done]. subst c'. cbn [andb count_occ].
  destruct (Z.eq_dec i j) as [->|Hj].
  - rewrite bool_decide_eq_true_2 by done. by destruct (pm_at pm c j).
  - rewrite bool_decide_eq_false_2 by congruence. done.
Qed.

Section Booking.
Variable config : Config.
Variable th : ThermalParams.
Variable pl : Plan.
Variable mapping : option (list (list Z) * Z).
Hypothesis Hok : shape_ok config th pl.
#[local] Abbreviation d := (str_ config).
#[local] Abbreviation stacked := (is_hmc (protocol d) || is_hbm (protocol d)).
Hypothesis Hgrid : grid_ok d th.

(** The index of a cell of the rectangle of a bank. *)
Definition index_in (r : bank_pos) (idx : Z) : Prop :=
  exists x y z, idx = cell_idx pl x y z /\ in_rect r x y z.

Lemma cell_idx_range x y z : 0 <= x < dimX pl -> 0 <= y < dimY pl -> 0 <= z < numP pl ->
  0 <= cell_idx pl x y z < numP pl * dimX pl * dimY pl.
Proof using.
  intros Hx Hy Hz. unfold cell_idx. assert (0 <= y * dimX pl + x < dimX pl * dimY pl) by nia.
  split; [nia|]. replace (numP pl * dimX pl * dimY pl) with (numP pl * (dimX pl * dimY pl)) by lia. nia.
Qed.

Lemma cell_idx_inj x y z x' y' z' : 0 <= x < dimX pl -> 0 <= y < dimY pl -> 0 <= x' < dimX pl -> 0 <= y' < dimY pl ->
  cell_idx pl x y z = cell_idx pl x' y' z' -> x = x' /\ y = y' /\ z = z'.
Proof using.
  intros Hx Hy Hx' Hy' E. unfold cell_idx in E.
  assert (0 <= y * dimX pl + x < dimX pl * dimY pl) by nia. assert (0 <= y' * dimX pl + x' < dimX pl * dimY pl) by nia.
  assert (z = z') as -> by nia. assert (y = y') as -> by nia. lia.
Qed.

Lemma row_grid w : 0 <= w < rows d ->
  cdiv w (tile_row_num th) = Done 0 /\
  exists g, (r ← cdiv w (mat_dim_x th); cdiv r (row_tile th)) = Done g /\ 0 <= g < num_x_grids th.
Proof using Hgrid.
  destruct Hgrid as (Hmx & _ & Hrt & Htr & _ & _ & _ & Hr & Hcx & _). intros Hw. split.
  - rewrite cdiv_Done, Htr by lia. by rewrite Z.quot_small by lia.
  - rewrite (cdiv_Done w) by lia. cbn -[Z.quot cdiv]. rewrite Hrt, cdiv_Done by done. eexists. split; [done|]. rewrite Z.quot_1_r.
    apply (quot_bounds w (mat_dim_x th) (num_x_grids th)); lia.
Qed.

(** The layer of a bank is found from its number in the group only where that is its
    number in the rank. *)
Definition layer_ok (cmd : Command) : Prop := is_hmc (protocol d) = true -> Bankgroup cmd = 0.

Definition command_ok (channel : Z) (cmd : Command) : Prop :=
  bank_ok config channel (Bankgroup cmd) (Bank cmd) /\ 0 <= Row cmd < rows d /\ 0 <= BL d /\
  columns_ok d mapping (cmd_addr cmd) /\ layer_ok cmd.

Lemma MapToXY_in_rows hi cmd vx vy bx by_ : 0 <= Row cmd < rows d -> 0 <= BL d ->
  (forall i, 0 <= i < BL d -> exists p, GetPhyAddress mapping (mk_addr (channel (cmd_addr cmd)) (rank (cmd_addr cmd))
      (bankgroup (cmd_addr cmd)) (bank (cmd_addr cmd)) (row (cmd_addr cmd)) (column (cmd_addr cmd) + i)) = Done p /\
    0 <= column p /\ (column p + 1) * device_width d <= hi * mat_dim_y th) ->
  exists xy, MapToXY config th pl mapping cmd vx vy bx by_ = Done xy /\
  Z.of_nat (length xy) = BL d * device_width d /\
  Forall (fun p => base_x th pl vx bx <= p.1 < base_x th pl vx bx + num_x_grids th /\
                   base_y th pl vy by_ <= p.2 < base_y th pl vy by_ + hi) xy.
Proof using Hgrid.
  intros Hr HB Hc. destruct (row_grid _ Hr) as [E0 (gx & Egx & Hgx)]. unfold MapToXY. rewrite E0. cbn [mbind outcome_bind].
  destruct (cdiv (Row cmd) (mat_dim_x th)) as [r| | | |]; try done. cbn [mbind outcome_bind] in *. rewrite Egx. cbn [mbind outcome_bind].
  destruct Hgrid as (_ & Hmy & Hrt & _ & _ & _ & Hdw & _).
  set (inside := fun p : Z * Z => base_x th pl vx bx <= p.1 < base_x th pl vx bx + num_x_grids th /\
                   base_y th pl vy by_ <= p.2 < base_y th pl vy by_ + hi).
  destruct (mapM_outcome (burst_columns config th mapping (cmd_addr cmd) (base_x th pl vx bx + gx) (base_y th pl vy by_) 0)
    (fun ps => Z.of_nat (length ps) = device_width d /\ Forall inside ps) (zrange 0 (Z.to_nat (BL d))))
    as (xys & -> & Hxys & L).
  - intros i Hi. apply elem_of_zrange in Hi. destruct (Hc i) as (p & Ep & Hp & Hp'); [lia|].
    unfold burst_columns. rewrite Ep. cbn [mbind outcome_bind].
    destruct (mapM_outcome (fun j => g ← grid_y th 0 (column p * device_width d + j);
        Done (base_x th pl vx bx + gx, base_y th pl vy by_ + g)) inside (zrange 0 (Z.to_nat (device_width d))))
      as (ps & Eps & Hps & Lps).
    + intros j Hj. apply elem_of_zrange in Hj. unfold grid_y. rewrite !cdiv_Done by lia. cbn -[Z.quot Z.mul].
      eexists. split; [done|]. unfold inside. cbn [fst snd]. rewrite Z.mul_0_l, Z.add_0_r.
      destruct (quot_bounds (column p * device_width d + j) (mat_dim_y th) hi); [nia|lia|]. lia.
    + exists ps. split; [exact Eps|]. split; [rewrite Lps, length_zrange; lia|done].
  - eexists. split; [done|]. rewrite length_zrange in L. split; [|].
    + assert (forall l : list (list (Z * Z)), Forall (fun ps => Z.of_nat (length ps) = device_width d) l ->
        Z.of_nat (length (concat l)) = Z.of_nat (length l) * device_width d) as Hlen.
      { induction 1 as [|x l Hx Hl IH]; [done|]. cbn. rewrite length_app, Nat2Z.inj_add, IH, Hx. lia. }
      rewrite Hlen, L; [lia|]. eapply Forall_impl; [exact Hxys|]. by intros ? [].
    + apply Forall_concat. eapply Forall_impl; [exact Hxys|]. by intros ? [].
Qed.

Lemma MapToXY_in_bank cmd vx vy bx by_ : 0 <= Row cmd < rows d -> columns_ok d mapping (cmd_addr cmd) -> 0 <= BL d ->
  exists xy, MapToXY config th pl mapping cmd vx vy bx by_ = Done xy /\
  Z.of_nat (length xy) = BL d * device_width d /\
  Forall (fun p => base_x th pl vx bx <= p.1 < base_x th pl vx bx + num_x_grids th /\
                   base_y th pl vy by_ <= p.2 < base_y th pl vy by_ + num_y_grids th) xy.
Proof using Hgrid.
  intros Hr Hc HB. apply MapToXY_in_rows; [done..|]. intros i Hi. destruct (phys_column d mapping _ i Hc Hi) as (p & Ep & Hp).
  exists p. split; [done|]. destruct Hgrid as (_ & _ & _ & _ & _ & _ & Hdw & _ & _ & ->). split; [lia|nia].
Qed.

(** Without a location mapping the columns of a burst are taken as they come from
    the address, where a column counts bursts: the cells are those of the columns
    [column .. column + BL - 1], of which the last is below [columns / BL + BL] and
    not [columns]. *)
Theorem access_heats_first_columns hi cmd vx vy bx by_ xy : mapping = None ->
  0 <= Row cmd < rows d -> 0 <= BL d -> 0 <= Column cmd -> (Column cmd + BL d) * device_width d <= hi * mat_dim_y th ->
  MapToXY config th pl mapping cmd vx vy bx by_ = Done xy ->
  Forall (fun p => base_y th pl vy by_ <= p.2 < base_y th pl vy by_ + hi) xy.
Proof using Hgrid.
  intros Hm Hr HB Hc Hh Exy. destruct (MapToXY_in_rows hi cmd vx vy bx by_ Hr HB) as (xy' & E & _ & H).
  - intros i Hi. rewrite Hm. eexists. split; [reflexivity|]. unfold Column in *. cbn [column].
    destruct Hgrid as (_ & _ & _ & _ & _ & _ & Hdw & _). split; [lia|nia].
  - assert (xy' = xy) as -> by congruence. eapply Forall_impl; [exact H|]. cbn. tauto.
Qed.

Lemma access_cells_in_bank channel cmd : command_ok channel cmd ->
  exists idxs r, access_cells config th pl mapping channel cmd = Done idxs /\
  bank_rectangle config th pl channel (Bankgroup cmd) (Bank cmd) = Done r /\
  Z.of_nat (length idxs) = BL d * device_width d /\ Forall (index_in r) idxs.
Proof using Hok Hgrid.
  intros (Hb & Hr & HB & Hc & Hl). destruct (place_in_plan config th pl Hok _ _ _ Hb) as (q & Hq & _).
  pose proof (bank_rectangle_place config th pl _ _ _ _ Hq) as Hrect. unfold place_of in Hq.
  apply bind_Done in Hq as ([vx vy] & Ev & Hq). apply bind_Done in Hq as ([bx by_] & Eb & Hq).
  apply bind_Done in Hq as (z & Ez & [= <-]).
  destruct (MapToXY_in_bank cmd vx vy bx by_ Hr Hc HB) as (xy & Exy & L & Hxy).
  assert (MapToZ config th pl channel (Bank cmd) = Done z) as Ez'.
  { rewrite <- Ez. destruct (is_hmc (protocol d)) eqn:HC; [by rewrite (Hl HC)|]. unfold MapToZ. cbn zeta. by rewrite HC. }
  unfold access_cells. rewrite Ev. cbn [mbind outcome_bind]. rewrite Eb. cbn [mbind outcome_bind]. rewrite Exy.
  cbn [mbind outcome_bind]. rewrite Ez'. cbn [mbind outcome_bind]. eexists _, _. split_and!; [done|exact Hrect| |].
  - by rewrite length_map.
  - apply Forall_map. eapply Forall_impl; [exact Hxy|]. intros [x y] [Hx Hy]. cbn in *.
    exists x, y, z. split; [done|]. unfold in_rect, rect_of. cbn. unfold base_x, base_y in *. lia.
Qed.

Lemma cell_index_in_range v bg b r idx : bank_ok config v bg b -> bank_rectangle config th pl v bg b = Done r ->
  index_in r idx -> 0 <= idx < numP pl * dimX pl * dimY pl.
Proof using Hok Hgrid.
  intros Hb Hr (x & y & z & -> & (Hx & Hy & ->)). destruct Hgrid as (_ & _ & _ & _ & Hgx & Hgy & _).
  destruct (banks_tile_the_die config th pl Hok v bg b Hgx Hgy Hb) as (r' & Er & ? & ? & ? & ? & ? & _).
  assert (r' = r) as -> by congruence. apply cell_idx_range; lia.
Qed.

(** What a step of the calculator may change: the cells of a rectangle in the maps of
    one case, and the counters of refreshes. *)
Definition cells_ok (t : ThermalCalculator) : Prop :=
  maps_ok (num_case pl) (numP pl * dimX pl * dimY pl) (accu_Pmap t) /\
  maps_ok (num_case pl) (numP pl * dimX pl * dimY pl) (cur_Pmap t).

Definition booked (case_id : Z) (e : double) (idxs : list Z) (t t' : ThermalCalculator) : Prop :=
  forall c j,
    (pm_at (accu_Pmap t') c j = if bool_decide (c = case_id)
       then iter_step (count_occ Z.eq_dec idxs j) (fun v => dadd v e) <$> pm_at (accu_Pmap t) c j
       else pm_at (accu_Pmap t) c j) /\
    (pm_at (cur_Pmap t') c j = if bool_decide (c = case_id)
       then iter_step (count_occ Z.eq_dec idxs j) (fun v => dadd v e) <$> pm_at (cur_Pmap t) c j
       else pm_at (cur_Pmap t) c j).

Lemma add_energy_spec c e idxs t : cells_ok t -> 0 <= c < num_case pl ->
  Forall (fun i => 0 <= i < numP pl * dimX pl * dimY pl) idxs ->
  exists t', add_energy c e idxs t = Done t' /\ cells_ok t' /\ refresh_count t' = refresh_count t /\ booked c e idxs t t'.
Proof using.
  intros [Ha Hc] Hr Hi. unfold add_energy. destruct (add_all_spec _ _ c e idxs Hr Hi _ Ha) as (a & -> & Ha' & Ba).
  destruct (add_all_spec _ _ c e idxs Hr Hi _ Hc) as (m & -> & Hc' & Bc). eexists. split; [reflexivity|]. done.
Qed.

(** The map of a command: the only one of a stacked memory, that of its rank otherwise. *)
Definition case_of (channel : Z) (cmd : Command) : Z :=
  if stacked then 0 else channel * ranks (size_ config) + Rank cmd.

Lemma case_in_range channel cmd : 0 <= channel < channels (sys_ config) -> 0 <= Rank cmd < ranks (size_ config) ->
  0 <= case_of channel cmd < num_case pl.
Proof using Hok.
  intros Hc Hr. destruct Hok as (_ & _ & _ & _ & _ & _ & Hpl & _). unfold make_plan in Hpl. cbn zeta in Hpl. unfold case_of.
  destruct (is_hmc _); [|destruct (is_hbm _)]; cbn [orb].
  - apply bind_Done in Hpl as (vy & _ & [= <-]). cbn. lia.
  - injection Hpl as <-. cbn. lia.
  - apply bind_Done in Hpl as (y & _ & [= <-]). cbn. nia.
Qed.

(** C31. For the devices whose banks lie inside the floor plan ([shape_ok]) and divide into
    whole mats ([grid_ok]): an activation, a read or a write adds its energy to the two
    power maps of its
    rank in cells of the rectangle of its bank only, once for every bit of the burst,
    and to nothing when the configured energy is not positive; no counter of
    refreshes moves, and no index leaves the maps.  The shipped DDR4 parts of width 4
    are not of this shape ([x4_bank_outside]). *)
Theorem access_heats_its_bank en channel cmd t : command_ok channel cmd ->
  0 <= Rank cmd < ranks (size_ config) -> cells_ok t ->
  cmd_type cmd <> REFRESH -> cmd_type cmd <> REFRESH_BANK ->
  exists r t' e idxs, bank_rectangle config th pl channel (Bankgroup cmd) (Bank cmd) = Done r /\
  UpdateCMDPower config th en pl mapping channel cmd t = Done t' /\ cells_ok t' /\
  refresh_count t' = refresh_count t /\ booked (case_of channel cmd) e idxs t t' /\
  Forall (index_in r) idxs /\
  Z.of_nat (length idxs) = if flt d0 (command_energy en (cmd_type cmd)) then BL d * device_width d else 0.
Proof using Hok Hgrid.
  intros Hcmd Hrank Ht N1 N2. destruct (access_cells_in_bank channel cmd Hcmd) as (idxs & r & Ei & Er & L & Hi).
  pose proof Hcmd as (Hb & _). pose proof Hb as (Hch & _). exists r.
  assert (exists t' e idxs', (if flt d0 (command_energy en (cmd_type cmd))
      then LocationMappingANDaddEnergy config th pl mapping channel cmd (case_of channel cmd)
        (ddiv (ddiv (ddiv (command_energy en (cmd_type cmd)) (d_of_Z (BL d))) (d_of_Z 1000))
          (if stacked then d_of_Z 1 else d_of_Z (devices_per_rank (size_ config)))) t
      else Done t) = Done t' /\ cells_ok t' /\ refresh_count t' = refresh_count t /\ booked (case_of channel cmd) e idxs' t t' /\
      Forall (index_in r) idxs' /\
      Z.of_nat (length idxs') = if flt d0 (command_energy en (cmd_type cmd)) then BL d * device_width d else 0) as Hs.
  { destruct (flt d0 _).
    - unfold LocationMappingANDaddEnergy. rewrite Ei. cbn [mbind outcome_bind]. set (e := ddiv _ (d_of_Z (device_width _))).
      destruct (add_energy_spec (case_of channel cmd) e idxs t Ht (case_in_range _ _ Hch Hrank)) as (t' & Et & H1 & H2 & H3).
      { eapply Forall_impl; [exact Hi|]. intros i. by apply (cell_index_in_range channel (Bankgroup cmd) (Bank cmd)). }
      by exists t', e, idxs.
    - exists t, d0, []. split_and!; try done. intros c j. cbn.
      split; case_bool_decide; try done; by destruct (pm_at _ c j). }
  destruct Hs as (t' & e & idxs' & Hs & H). exists t', e, idxs'. split; [done|]. split; [|exact H].
  rewrite <- Hs. unfold UpdateCMDPower, case_of. destruct (cmd_type cmd); done.
Qed.

(** ** Refreshes sweep the rows *)

(** The rows that the location mapping can return. *)
Definition rows_ok : Prop :=
  match mapping with
  | None => True
  | Some m => mapping_ok m /\ 2 ^ Z.of_nat (length (nth 4 m.1 [])) <= rows d
  end.

Lemma phys_row a : rows_ok -> 0 <= row a < rows d ->
  exists p, GetPhyAddress mapping a = Done p /\ 0 <= row p < rows d.
Proof using.
  unfold rows_ok. destruct mapping as [m|].
  - intros [Hm Hc] _. destruct (GetPhyAddress_Done m a Hm) as (_ & _ & p & _ & _ & _ & _ & E & _ & F).
    exists p. split; [done|]. destruct m as [mp off]. cbn [fst] in *. unfold address_fits in F. destruct p as [c r g b w k].
    unfold fields_of in F. cbn [Dram.column channel rank bankgroup bank row] in F |- *.
    repeat match goal with H : Forall2 _ (_ :: _) _ |- _ => inversion H; clear H; subst end. cbn [nth] in Hc. lia.
  - intros _ Hr. by exists a.
Qed.

(** Bank [ib] of a rank. *)
Definition group_of (ib : Z) : Z := Z.quot ib (banks_per_group d).
Definition in_group (ib : Z) : Z := Z.rem ib (banks_per_group d).

Lemma refresh_cells_in_bank channel cmd ib w : rows_ok -> 0 <= channel < channels (sys_ config) ->
  0 <= ib < banks d -> 0 <= w < rows d -> (is_hmc (protocol d) = true -> bankgroups d = 1) ->
  bank_ok config channel (group_of ib) (in_group ib) /\
  exists idxs r, refresh_cells config th pl mapping channel cmd ib w = Done idxs /\
  bank_rectangle config th pl channel (group_of ib) (in_group ib) = Done r /\
  Z.of_nat (length idxs) = num_y_grids th /\ Forall (index_in r) idxs.
Proof using Hok Hgrid.
  intros Hrows Hch Hib Hw Hhmc. pose proof Hok as (Hbanks & Hg0 & Hp0 & _).
  assert (bank_ok config channel (group_of ib) (in_group ib)) as Hb.
  { unfold bank_ok, group_of, in_group. destruct (quot_bounds ib (banks_per_group d) (bankgroups d)); [lia..|]. done. }
  split; [done|]. destruct (place_in_plan config th pl Hok _ _ _ Hb) as (q & Hq & _).
  pose proof (bank_rectangle_place config th pl _ _ _ _ Hq) as Hrect. unfold place_of in Hq.
  apply bind_Done in Hq as ([vx vy] & Ev & Hq). apply bind_Done in Hq as ([bx by_] & Eb & Hq).
  apply bind_Done in Hq as (z & Ez & [= <-]).
  assert (MapToZ config th pl channel (in_group ib) = Done z) as Ez'.
  { rewrite <- Ez. destruct (is_hmc (protocol d)) eqn:HC; [|unfold MapToZ; cbn zeta; by rewrite HC].
    destruct Hb as (_ & Hg & _). rewrite (Hhmc eq_refl) in Hg. by replace (group_of ib) with 0 by lia. }
  unfold refresh_cells. rewrite cdiv_Done, crem_Done by lia. cbn [mbind outcome_bind].
  fold (group_of ib) (in_group ib). rewrite Ev. cbn [mbind outcome_bind]. rewrite Eb. cbn [mbind outcome_bind].
  rewrite Ez'. cbn [mbind outcome_bind].
  destruct (phys_row (mk_addr (Dram.channel (cmd_addr cmd)) (rank (cmd_addr cmd)) (group_of ib) (in_group ib) w (column (cmd_addr cmd))) Hrows Hw)
    as (p & -> & Hp). cbn [mbind outcome_bind].
  destruct (row_grid _ Hp) as [E0 (gx & Egx & Hgx)]. rewrite E0. cbn [mbind outcome_bind].
  destruct (cdiv (row p) (mat_dim_x th)) as [k| | | |]; try done. cbn [mbind outcome_bind] in *. rewrite Egx. cbn [mbind outcome_bind].
  destruct Hgrid as (_ & Hmy & Hrt & _ & _ & Hny & Hdw & _).
  assert (grid_y th 0 0 = Done 0) as ->.
  { unfold grid_y. rewrite !cdiv_Done by lia. by rewrite Z.quot_0_l by lia. }
  cbn [mbind outcome_bind]. eexists _, _. split_and!; [done|exact Hrect| |].
  - rewrite length_map, length_zrange. lia.
  - apply Forall_map, Forall_forall. intros i Hi. apply elem_of_zrange in Hi. cbn beta.
    exists (base_x th pl vx bx + gx), (base_y th pl vy by_ + 0 + i), z. split; [done|].
    unfold in_rect, rect_of. cbn. unfold base_x, base_y in *. lia.
Qed.

Lemma booked_trans c e l l' t t1 t2 : booked c e l t t1 -> booked c e l' t1 t2 -> booked c e (l ++ l') t t2.
Proof using.
  intros H1 H2 c' j. destruct (H1 c' j) as [A1 C1]. destruct (H2 c' j) as [A2 C2]. rewrite A2, C2, A1, C1, count_occ_app.
  assert (forall n m (f : double -> double) v, iter_step m f (iter_step n f v) = iter_step (n + m) f v) as Hi.
  { induction n; intros; cbn; [done|]. apply IHn. }
  assert (forall n m (f : double -> double) (o : option double), iter_step m f <$> (iter_step n f <$> o) = iter_step (n + m) f <$> o) as Ho.
  { intros n m f [v|]; cbn; [by rewrite Hi|done]. }
  split; case_bool_decide; try done; apply Ho.
Qed.

Lemma refresh_rows_in_bank channel cmd ib case_id e : rows_ok -> 0 <= channel < channels (sys_ config) ->
  0 <= ib < banks d -> (is_hmc (protocol d) = true -> bankgroups d = 1) -> 0 <= case_id < num_case pl ->
  forall n w t, cells_ok t -> 0 <= w -> w + Z.of_nat n <= rows d ->
  exists r t' idxs, bank_rectangle config th pl channel (group_of ib) (in_group ib) = Done r /\
  refresh_rows config th pl mapping n channel cmd ib w case_id e t = Done t' /\ cells_ok t' /\
  refresh_count t' = refresh_count t /\ booked case_id e idxs t t' /\ Forall (index_in r) idxs /\
  Z.of_nat (length idxs) = Z.of_nat n * num_y_grids th.
Proof using Hok Hgrid.
  intros Hrows Hch Hib Hhmc Hcase. assert (bank_ok config channel (group_of ib) (in_group ib)) as Hb.
  { destruct Hgrid as (_ & _ & _ & _ & _ & _ & _ & Hr & _).
    by apply (refresh_cells_in_bank channel cmd ib 0 Hrows Hch Hib ltac:(lia) Hhmc). }
  destruct (place_in_plan config th pl Hok _ _ _ Hb) as (q & Hq & _). pose proof (bank_rectangle_place config th pl _ _ _ _ Hq) as Hrect.
  intros n. induction n as [|n IH]; intros w t Ht Hw Hn; cbn [refresh_rows].
  - eexists _, t, []. split_and!; try done. intros c j. cbn.
    split; case_bool_decide; try done; by destruct (pm_at _ c j).
  - destruct (refresh_cells_in_bank channel cmd ib w Hrows Hch Hib ltac:(lia) Hhmc) as (_ & l & r & El & Er & Ll & Hl).
    unfold LocationMappingANDaddEnergy_RF. rewrite El. cbn [mbind outcome_bind].
    destruct (add_energy_spec case_id e l t Ht Hcase) as (t1 & -> & Ht1 & R1 & B1).
    { eapply Forall_impl; [exact Hl|]. intros i. by apply (cell_index_in_range channel (group_of ib) (in_group ib)). }
    cbn [mbind outcome_bind]. destruct (IH (w + 1) t1 Ht1) as (r' & t2 & l2 & Er' & -> & Ht2 & R2 & B2 & Hl2 & Ll2); [lia..|].
    assert (r' = r) as -> by congruence. exists r, t2, (l ++ l2). split_and!; try done.
    + congruence.
    + by apply (booked_trans _ _ _ _ _ t1).
    + by apply Forall_app.
    + rewrite length_app. lia.
Qed.

(** A refresh of one bank books its energy in the rectangle of that bank only, once
    in every column of cells for each refreshed row, and moves the counter of that
    bank alone. *)
Theorem refresh_heats_its_bank channel cmd rank_idx ib case_id e nrr counts n t :
  rows_ok -> 0 <= channel < channels (sys_ config) -> 0 <= ib < banks d ->
  (is_hmc (protocol d) = true -> bankgroups d = 1) -> 0 <= case_id < num_case pl -> cells_ok t ->
  num_row_refresh th = Some nrr -> 0 <= nrr -> zlookup (refresh_count t) rank_idx = Some counts ->
  zlookup counts ib = Some n -> 0 <= n -> n * nrr + nrr <= rows d ->
  exists r t' idxs, bank_rectangle config th pl channel (group_of ib) (in_group ib) = Done r /\
  refresh_one config th pl mapping channel cmd rank_idx ib case_id e t = Done t' /\ cells_ok t' /\
  refresh_count t' = zinsert rank_idx (zinsert ib (next_count config nrr n) counts) (refresh_count t) /\
  booked case_id e idxs t t' /\ Forall (index_in r) idxs /\ Z.of_nat (length idxs) = nrr * num_y_grids th.
Proof using Hok Hgrid.
  intros Hrows Hch Hib Hhmc Hcase Ht Hnrr Hn0 Hcounts Hn Hn1 Hn2. unfold refresh_one. rewrite Hnrr. cbn [mbind outcome_bind initialised or_undef].
  rewrite (vget_Some _ _ _ Hcounts). cbn [mbind outcome_bind]. rewrite (vget_Some _ _ _ Hn). cbn [mbind outcome_bind].
  rewrite vset_in_range by (by eapply zlookup_Some_range). cbn [mbind outcome_bind]. set (rc := zinsert rank_idx _ _).
  destruct (refresh_rows_in_bank channel cmd ib case_id e Hrows Hch Hib Hhmc Hcase (Z.to_nat nrr) (n * nrr) (with_refresh rc t))
    as (r & t' & l & Er & -> & Ht' & Rc & B & Hl & L); [done|nia|lia|].
  exists r, t', l. split_and!; try done. by rewrite L, Z2Nat.id.
Qed.

End Booking.

(** ** Counters, epochs and settings *)

(** The counter of a bank walks through its rows: when the rows are a multiple of
    those refreshed at a time, every row is refreshed once, in order, before the
    first is refreshed again; when they are not, the counter never starts again and
    leaves the rows. *)
Theorem refresh_counter_sweeps config nrr : 0 < nrr ->
  (forall p, 0 < p -> rows (str_ config) = p * nrr ->
    (forall k, iter_step k (next_count config nrr) 0 = Z.of_nat k mod p) /\
    concat (map (fun k => zrange (iter_step k (next_count config nrr) 0 * nrr) (Z.to_nat nrr)) (seq 0 (Z.to_nat p)))
      = zrange 0 (Z.to_nat (rows (str_ config)))) /\
  ((forall p, rows (str_ config) <> p * nrr) -> forall k, iter_step k (next_count config nrr) 0 = Z.of_nat k).
Proof.
  intros Hn.
  assert (forall k (f : Z -> Z) n, iter_step (S k) f n = f (iter_step k f n)) as Hs.
  { induction k as [|k IH]; intros f n; [done|]. change (iter_step (S (S k)) f n) with (iter_step (S k) f (f n)). by rewrite IH. }
  split.
  - intros p Hp Hr. assert (forall k, iter_step k (next_count config nrr) 0 = Z.of_nat k mod p) as Hk.
    { induction k as [|k IH]; [by rewrite Z.mod_0_l by lia|]. rewrite Hs, IH. unfold next_count. cbn zeta. rewrite Hr.
      pose proof (Z.mod_pos_bound (Z.of_nat k) p Hp). pose proof (Z.div_mod (Z.of_nat k) p).
      destruct (Z.eqb_spec ((Z.of_nat k mod p + 1) * nrr) (p * nrr)) as [E|E].
      - assert (Z.of_nat k mod p + 1 = p) by nia. apply (Z.mod_unique _ _ (Z.of_nat k / p + 1)); lia.
      - assert (Z.of_nat k mod p + 1 <> p) by (intros E'; by rewrite E' in E). apply (Z.mod_unique _ _ (Z.of_nat k / p)); lia. }
    split; [done|]. rewrite Hr.
    assert (forall m, Z.of_nat m <= p -> concat (map (fun k => zrange (iter_step k (next_count config nrr) 0 * nrr) (Z.to_nat nrr)) (seq 0 m))
      = zrange 0 (Z.to_nat (Z.of_nat m * nrr))) as Hm.
    { induction m as [|m IH]; intros Hm; [done|]. rewrite seq_S, map_app, concat_app, IH by lia. cbn [map concat Nat.add].
      rewrite app_nil_r, Hk, Z.mod_small by lia. unfold zrange. rewrite !Z2Nat.id by nia.
      replace (Z.of_nat (S m) * nrr) with (Z.of_nat m * nrr + nrr) by lia. by rewrite seqZ_app by nia. }
    rewrite Hm by lia. by rewrite Z2Nat.id by lia.
  - intros Hne k. induction k as [|k IH]; [done|]. rewrite Hs, IH. unfold next_count. cbn zeta.
    rewrite (proj2 (Z.eqb_neq _ _)); [lia|]. intros E. by apply (Hne (Z.of_nat k + 1)).
Qed.

(** For a memory that is not stacked neither [UpdateEpoch] nor [PrintFinalPT] ever
    returns: the loop over the cells does not advance its own counter. *)
Theorem epoch_never_returns config pl fuel final clk t t' :
  is_hmc (protocol (str_ config)) = false -> is_hbm (protocol (str_ config)) = false ->
  0 < channels (sys_ config) -> 0 < ranks (size_ config) -> 0 < dimX pl * dimY pl * numP pl ->
  add_background config pl fuel final clk t <> Done t'.
Proof.
  intros HC HB Hch Hra Hcells. unfold add_background. cbn zeta. rewrite HC, HB. cbn [orb].
  assert (forall fuel final c e i t r, cells_loop pl fuel final c e 0 i t <> Done r) as Hl.
  { clear -Hcells. induction fuel as [|fuel IH]; intros final c e i t r; [done|]. cbn [cells_loop].
    rewrite (proj2 (Z.ltb_lt 0 _)) by done. intros H. apply bind_Done in H as (t1 & _ & H).
    destruct (i =? _); [done|]. by apply IH in H. }
  destruct fuel as [|fuel]; [done|]. cbn [channels_loop]. rewrite (proj2 (Z.ltb_lt 0 _)) by done.
  intros H. apply bind_Done in H as ([i1 t1] & H & _). destruct (Z.to_nat (ranks (size_ config))) as [|n] eqn:E; [lia|].
  cbn [ranks_loop] in H. apply bind_Done in H as (r & _ & H). apply bind_Done in H as (b & _ & H).
  apply bind_Done in H as ([i2 t2] & H & _). by apply Hl in H.
Qed.

(** Where the bank is tiled, the constructor leaves the order of the banks unset, and
    every command that books energy is then undefined. *)
Theorem tiled_settings_unusable {R} `{RealReader R} (reader : R) d t th :
  InitThermalParams reader d t = Done th ->
  (banks_per_group d = 1 /\ bank_order th = None /\ num_row_refresh th = None /\
   forall config pl bg b, MapToBank config th pl bg b = Undef) \/
  (row_tile th = 1 /\ tile_row_num th = rows d /\ num_x_grids th = Z.quot (rows d) (mat_dim_x th) /\
   num_y_grids th = Z.quot (columns d * device_width d) (mat_dim_y th) /\
   is_Some (bank_order th) /\ is_Some (bank_layer_order th) /\ is_Some (num_row_refresh th)).
Proof.
  unfold InitThermalParams. cbn zeta. intros Hi. apply bind_Done in Hi as (nx & Enx & Hi). apply bind_Done in Hi as (ny & Eny & Hi).
  unfold cdiv in Enx, Eny. destruct (_ =? 0) in Enx; [done|]. destruct (_ =? 0) in Eny; [done|].
  injection Enx as <-. injection Eny as <-. destruct (flt _ _ && _) eqn:Et.
  - left. zb. apply bind_Done in Hi as (rt & _ & Hi). apply bind_Done in Hi as (nx' & _ & Hi).
    apply bind_Done in Hi as (tr & _ & [= <-]). done.
  - right. apply bind_Done in Hi as (nrr & _ & [= <-]). cbn [row_tile tile_row_num num_x_grids mat_dim_x num_y_grids
      mat_dim_y bank_order bank_layer_order num_row_refresh]. split_and!; done || by eexists.
Qed.

(** A refresh of one bank takes the number of the bank in its group for its number
    in the rank: whatever the bank group, the energy and the counter are those of a
    bank of group 0. *)
Theorem bank_refresh_books_group_zero config th en pl mapping channel cmd t nrr :
  0 < banks_per_group (str_ config) -> 0 <= Bank cmd < banks_per_group (str_ config) -> cmd_type cmd = REFRESH_BANK ->
  num_row_refresh th = Some nrr ->
  group_of config (Bank cmd) = 0 /\ in_group config (Bank cmd) = Bank cmd /\
  exists e, UpdateCMDPower config th en pl mapping channel cmd t =
    refresh_one config th pl mapping channel cmd (channel * ranks (size_ config) + Rank cmd) (Bank cmd)
      (case_of config channel cmd) e t.
Proof.
  intros Hp Hb Hc Hn. unfold group_of, in_group. rewrite Z.quot_small, Z.rem_small by lia. split_and!; try done.
  unfold UpdateCMDPower. rewrite Hc, Hn. cbn [initialised or_undef mbind outcome_bind]. eexists. reflexivity.
Qed.

(** ** Instances *)

(** The settings of [DDR4_8Gb_x8_2400.ini]. *)
Definition demo_th : ThermalParams :=
  mk_thp 512 512 128 16 65536 1 (d_of_Z 8) (list_ascii_of_string "33,33,32-31,30-29,26:13-27-28,12:3")
    (Some 0) (Some 0) (Some 8).
Definition demo_pl : Plan := mk_plan 1 2 8 None None 256 128 1.
Definition demo_mapping : list (list Z) * Z :=
  ([[33]; [33]; [32; 31]; [30; 29]; [26; 25; 24; 23; 22; 21; 20; 19; 18; 17; 16; 15; 14; 13; 27; 28];
    [12; 11; 10; 9; 8; 7; 6; 5; 4; 3]], 3).

Example demo_mapping_read : SetPhyAddressMapping demo_config demo_th = Done (Some demo_mapping).
Proof. vm_compute. reflexivity. Qed.
Example demo_plan_made : make_plan demo_config demo_th = Done demo_pl.
Proof. vm_compute. reflexivity. Qed.

Lemma demo_shape : shape_ok demo_config demo_th demo_pl.
Proof. unfold shape_ok. cbn zeta. split_and!; try done; try (by eexists). right. vm_compute. split; [done|split; discriminate]. Qed.
Lemma demo_grid : grid_ok demo_str demo_th.
Proof. by vm_compute. Qed.
Lemma demo_mapping_ok : mapping_ok demo_mapping.
Proof.
  unfold mapping_ok. split_and!; [done| |done|done]. unfold pos_ok. apply (bool_decide_eq_true_1 _). vm_compute. reflexivity.
Qed.

Lemma vector_Done {A} n (x : A) : 0 <= n -> vector n x = Done (replicate (Z.to_nat n) x).
Proof. intros. unfold vector. by rewrite (proj2 (Z.ltb_ge _ _)). Qed.

(** The constructor's maps and counters have the sizes of the plan. *)
Lemma new_calculator_ok config pl : 0 <= ranks (size_ config) -> 0 <= channels (sys_ config) -> 0 <= banks (str_ config) ->
  0 <= numP pl * dimX pl * dimY pl -> 0 <= num_case pl ->
  exists t, new_calculator config pl = Done t /\ cells_ok pl t /\
    refresh_count t = replicate (Z.to_nat (channels (sys_ config) * ranks (size_ config))) (replicate (Z.to_nat (banks (str_ config))) 0).
Proof.
  intros Hr Hc Hb Hn Hk. unfold new_calculator. cbn zeta.
  do 6 (rewrite vector_Done by nia; cbn [mbind outcome_bind]). eexists. split; [reflexivity|].
  split; [|done]. assert (maps_ok (num_case pl) (numP pl * dimX pl * dimY pl)
    (replicate (Z.to_nat (num_case pl)) (replicate (Z.to_nat (numP pl * dimX pl * dimY pl)) d0))) as H; [|by split].
  split; [rewrite length_replicate; lia|]. apply Forall_replicate. rewrite length_replicate. lia.
Qed.

Lemma banks_tile_the_die_witness :
  exists r, bank_rectangle demo_config demo_th demo_pl 0 3 2 = Done r /\ start_x r = 0 /\ end_y r < dimY demo_pl.
Proof.
  destruct (banks_tile_the_die demo_config demo_th demo_pl demo_shape 0 3 2) as (r & E & _ & _ & _ & H & _); [done..| |].
  - repeat split; vm_compute; (discriminate || reflexivity).
  - exists r. split; [exact E|]. split; [|exact H]. vm_compute in E. injection E as <-. reflexivity.
Defined.

Lemma phy_address_injective_witness :
  GetPhyAddress (Some demo_mapping) (mk_addr 0 0 3 2 54321 1001) = Done (mk_addr 0 0 3 2 46348 1001) /\
  forall b, address_fits demo_mapping.1 b -> channel b = 0 -> rank b = 0 ->
    GetPhyAddress (Some demo_mapping) b = Done (mk_addr 0 0 3 2 46348 1001) -> mk_addr 0 0 3 2 54321 1001 = b.
Proof.
  split; [vm_compute; reflexivity|]. intros b Hb Hc Hr Eb.
  apply (phy_address_injective [false; false; true; true; true; true] demo_mapping (mk_addr 0 0 3 2 54321 1001) b
    (mk_addr 0 0 3 2 46348 1001) demo_mapping_ok); try done.
  - apply (bool_decide_eq_true_1 _). vm_compute. reflexivity.
  - apply (bool_decide_eq_true_1 _). vm_compute. reflexivity.
  - unfold address_fits. repeat (apply Forall2_cons; split; [cbn; lia|]). by apply Forall2_nil.
Defined.

(** A read of the demonstration device. *)
Definition demo_read : Command := mk_cmd READ (mk_addr 0 0 3 2 54321 100) 0.
Definition demo_power : PowerParams :=
  mk_power (lit 83 (-2)) (d_of_Z 7) (d_of_Z 5) (d_of_Z 6) (d_of_Z 9) (d_of_Z 8) (d_of_Z 4) (d_of_Z 3) (d_of_Z 2) (d_of_Z 1).

Lemma demo_command_ok : command_ok demo_config (Some demo_mapping) 0 demo_read.
Proof.
  split; [repeat split; vm_compute; (discriminate || reflexivity)|].
  split; [split; vm_compute; (discriminate || reflexivity)|]. split; [by vm_compute|].
  split; [split; [apply demo_mapping_ok|by vm_compute]|]. intros H. by vm_compute in H.
Qed.

Lemma demo_calculator : exists t, new_calculator demo_config demo_pl = Done t /\ cells_ok demo_pl t /\
  zlookup (refresh_count t) 0 = Some (replicate 16 0).
Proof.
  destruct (new_calculator_ok demo_config demo_pl) as (t & E & H & R); try (vm_compute; discriminate).
  exists t. split_and!; [done..|]. by rewrite R.
Qed.

Lemma access_heats_its_bank_witness :
  exists t t' (idxs : list Z), new_calculator demo_config demo_pl = Done t /\
  UpdateCMDPower demo_config demo_th demo_power demo_pl (Some demo_mapping) 0 demo_read t = Done t' /\
  Z.of_nat (length idxs) = 64.
Proof.
  destruct demo_calculator as (t & E & Ht & _).
  destruct (access_heats_its_bank demo_config demo_th demo_pl (Some demo_mapping) demo_shape demo_grid demo_power 0 demo_read t demo_command_ok)
    as (r & t' & e & idxs & _ & Et & _ & _ & _ & _ & L); try done.
  exists t, t', idxs. split_and!; [done|exact Et|]. rewrite L. vm_compute. reflexivity.
Defined.

Lemma refresh_heats_its_bank_witness :
  exists t t' (idxs : list Z), new_calculator demo_config demo_pl = Done t /\
  refresh_one demo_config demo_th demo_pl (Some demo_mapping) 0 no_command 0 13 0 (d_of_Z 1) t = Done t' /\
  Z.of_nat (length idxs) = 128.
Proof.
  destruct demo_calculator as (t & E & Ht & R).
  destruct (refresh_heats_its_bank demo_config demo_th demo_pl (Some demo_mapping) demo_shape demo_grid 0 no_command 0 13 0
    (d_of_Z 1) 8 (replicate 16 0) 0 t) as (r & t' & idxs & _ & Et & _ & _ & _ & _ & L); try done.
  - split; [apply demo_mapping_ok|by vm_compute].
  - exists t, t', idxs. split_and!; [done|exact Et|]. rewrite L. vm_compute. reflexivity.
Defined.

Lemma refresh_counter_sweeps_witness : 0 < 8 /\ iter_step 100 (next_count demo_config 8) 0 = 100.
Proof.
  split; [lia|]. destruct (refresh_counter_sweeps demo_config 8 ltac:(lia)) as [H _].
  destruct (H 8192 ltac:(lia) eq_refl) as [-> _]. vm_compute. reflexivity.
Defined.

(** The bank groups of an x4 DDR4 part: its banks are so long that the plan is one bank
    wide, and half of them are placed beside it. *)
Definition x4_config : Config :=
  mk_config demo_sys (mk_str DDR4 4 4 16 131072 1024 4 8 1 false 4 16 15000 64 16 4) (mk_size 16 1 16384) demo_map demo_tim 1204819.
Definition x4_th : ThermalParams := mk_thp 512 512 256 8 131072 1 (d_of_Z 32) [] (Some 1) (Some 0) (Some 16).

Example x4_bank_outside : exists pl r, make_plan x4_config x4_th = Done pl /\
  bank_rectangle x4_config x4_th pl 0 0 2 = Done r /\ start_x r = dimX pl.
Proof. eexists _, _. split_and!; vm_compute; reflexivity. Qed.

Lemma epoch_never_returns_witness :
  exists t, new_calculator demo_config demo_pl = Done t /\ add_background demo_config demo_pl 1000 true 5 t <> Done t.
Proof.
  destruct demo_calculator as (t & E & _). exists t. split; [exact E|].
  apply (epoch_never_returns demo_config demo_pl 1000 true 5 t t); vm_compute; reflexivity.
Defined.

End ThermalFacts.
