(* ===== verification/ThermalReplay.v ===== *)
(** * DRAMsim3: replaying a trace of commands for the thermal model

    [runtime/DRAMsim3/src/thermal_replay.cc], and the lines of the command trace
    that the controller writes ([Controller::IssueCommand] with [CMD_TRACE] and the
    printing of commands in [src/common.cc]). *)

From Stdlib Require Import Ascii String Floats.SpecFloat.
From S2P Require Import Prelude Text Fp DramCommon SimpleStats Power Thermal ThermalFacts.

Module Replay.
Import Text Fp Dram Stats Thermal ThermalFacts.

#[local] Open Scope Z_scope.

Abbreviation chars := (list ascii).

(** ** The trace *)

Definition command_name (t : CommandType) : chars :=
  list_ascii_of_string match t with
  | READ => "read" | READ_PRECHARGE => "read_p" | WRITE => "write" | WRITE_PRECHARGE => "write_p"
  | ACTIVATE => "activate" | PRECHARGE => "precharge" | REFRESH_BANK => "refresh_bank" | REFRESH => "refresh"
  | SREF_ENTER => "self_refresh_enter" | SREF_EXIT => "self_refresh_exit" | SIZE => "WRONG"
  end%string.

Definition space : ascii := ascii_of_nat 32.
Definition pad_right (n : nat) (s : chars) : chars := s ++ replicate (n - length s) space.
Definition pad_left (n : nat) (s : chars) : chars := replicate (n - length s) space ++ s.

(** An [int] in decimal, and in hexadecimal with its prefix. *)
Definition show_int (v : Z) : chars := if v <? 0 then "-"%char :: show 64 10 (- v) else show 64 10 v.
Definition show_hex (v : Z) : chars :=
  if v <? 0 then "-"%char :: "0"%char :: "x"%char :: show 64 16 (- v) else "0"%char :: "x"%char :: show 64 16 v.

(** [operator<<] of a command: ["{:<20} {:>3} {:>3} {:>3} {:>3} {:>#8x} {:>#8x}"]. *)
Definition show_command (c : Command) : chars :=
  pad_right 20 (command_name (cmd_type c)) ++ space :: pad_left 3 (show_int (Channel c)) ++
  space :: pad_left 3 (show_int (Rank c)) ++ space :: pad_left 3 (show_int (Bankgroup c)) ++
  space :: pad_left 3 (show_int (Bank c)) ++ space :: pad_left 8 (show_hex (Row c)) ++
  space :: pad_left 8 (show_hex (Column c)).

(** A line of the command trace: the clock in a field of 18, and the command. *)
Definition trace_line (clk : Z) (c : Command) : chars :=
  pad_right 18 (show 64 10 clk) ++ space :: show_command c.

(** [cmd_map[name]]: a name that is not there is entered with the value 0. *)
Definition cmd_map : list (chars * CommandType) :=
  map (fun t => (command_name t, t))
    [READ; READ_PRECHARGE; WRITE; WRITE_PRECHARGE; ACTIVATE; PRECHARGE; REFRESH_BANK; REFRESH; SREF_ENTER; SREF_EXIT].
Definition cmd_of (name : chars) : CommandType :=
  match list_find (fun e => e.1 = name) cmd_map with Some (_, e) => e.2 | None => READ end.

(** [ParseLine]. *)
Definition ParseLine (line : chars) : outcome (Z * Command) :=
  match StringSplit line space with
  | [t0; t1; t2; t3; t4; t5; t6; t7] =>
      clk ← stoull t0;
      c ← stoi t2; r ← stoi t3; g ← stoi t4; b ← stoi t5; w ← stoi t6; k ← stoi t7;
      Done (clk, mk_cmd (cmd_of t1) (mk_addr c r g b w k) 0)
  | _ => AbruptExit
  end.

(** The constructor reads the lines in order. *)
Definition read_trace (lines : list chars) : outcome (list (Z * Command)) := mapM ParseLine lines.

(** ** The replay *)

Record ThermalReplay := mk_replay {
  thermal_calc_ : ThermalCalculator;
  channel_stats_ : list SimpleStats;
  bank_active_ : list (list (list (list bool)));
  last_clk_ : Z
}.

Section Replay.
Variable config : Config.
Variable th : ThermalParams.
Variable pp : Power.PowerParams.
Variable pl : Plan.
Variable mapping : option (list (list Z) * Z).

Let channels_ := channels (sys_ config).
Let ranks_ := ranks (size_ config).

Definition IsRankActive (banks : list (list (list (list bool)))) (channel rank : Z) : outcome bool :=
  c ← vget banks channel;
  r ← vget c rank;
  Done (existsb (existsb id) r).

(** [bank_active_[ch][ra][bg][ba] = v]. *)
Definition set_active (banks : list (list (list (list bool)))) (ch ra bg ba : Z) (v : bool)
    : outcome (list (list (list (list bool)))) :=
  c ← vget banks ch; r ← vget c ra; g ← vget r bg;
  g' ← vset g ba v; r' ← vset r bg g'; c' ← vset c ra r';
  vset banks ch c'.

(** The cycles since the last command, for one rank: active, or all banks idle. *)
Definition account (past : Z) (banks : list (list (list (list bool)))) (stats : list SimpleStats) (i j : Z)
    : outcome (list SimpleStats) :=
  a ← IsRankActive banks i j;
  s ← vget stats i;
  s' ← IncrementVecBy (if (a : bool) then "rank_active_cycles" else "all_bank_idle_cycles") j past s;
  vset stats i s'.

Definition account_all (past : Z) (banks : list (list (list (list bool)))) (stats : list SimpleStats)
    : outcome (list SimpleStats) :=
  foldl (fun o i => foldl (fun o' j => st ← o'; account past banks st i j) o (zrange 0 (Z.to_nat ranks_)))
    (Done stats) (zrange 0 (Z.to_nat channels_)).

Definition command_counter (t : CommandType) : outcome string :=
  match t with
  | READ | READ_PRECHARGE => Done "num_read_cmds"%string
  | WRITE | WRITE_PRECHARGE => Done "num_write_cmds"%string
  | ACTIVATE => Done "num_act_cmds"%string
  | PRECHARGE => Done "num_pre_cmds"%string
  | REFRESH => Done "num_ref_cmds"%string
  | REFRESH_BANK => Done "num_refb_cmds"%string
  | SREF_ENTER => Done "num_srefe_cmds"%string
  | SREF_EXIT => Done "num_srefx_cmds"%string
  | SIZE => AbruptExit
  end.

Definition update_banks (c : Command) (banks : list (list (list (list bool)))) : outcome (list (list (list (list bool)))) :=
  match cmd_type c with
  | ACTIVATE => set_active banks (Channel c) (Rank c) (Bankgroup c) (Bank c) true
  | READ_PRECHARGE | WRITE_PRECHARGE | PRECHARGE =>
      set_active banks (Channel c) (Rank c) (Bankgroup c) (Bank c) false
  | _ => Done banks
  end.

(** The end of an epoch for one channel: the background energies of its ranks go to the
    thermal model. *)
Definition epoch_channel (o : outcome (list SimpleStats * ThermalCalculator)) (c : Z)
    : outcome (list SimpleStats * ThermalCalculator) :=
  '(stats, t) ← o;
  s ← vget stats c;
  '(s', e) ← Power.UpdateEpochStats config pp s;
  stats' ← vset stats c s';
  t' ← foldl (fun o' r => t1 ← o'; b ← Power.RankBackgroundEnergy e r; UpdateBackgroundEnergy c r b t1)
         (Done t) (zrange 0 (Z.to_nat ranks_));
  Done (stats', t').

(** [ProcessCMD]; the epoch ends when the clock is not a multiple of the period. *)
Definition ProcessCMD (c : Command) (clk : Z) (s : ThermalReplay) : outcome ThermalReplay :=
  let past_clks := u64 (clk - last_clk_ s) in
  st ← account_all past_clks (bank_active_ s) (channel_stats_ s);
  name ← command_counter (cmd_type c);
  s1 ← vget st (Channel c);
  st' ← vset st (Channel c) (Increment name s1);
  banks' ← update_banks c (bank_active_ s);
  if epoch_period config =? 0 then Undef
  else
    '(st'', t') ← (if clk mod u64 (epoch_period config) =? 0 then Done (st', thermal_calc_ s)
                   else foldl epoch_channel (Done (st', thermal_calc_ s)) (zrange 0 (Z.to_nat channels_)));
    Done (mk_replay t' st'' banks' clk).

(** One command of [Run]: the channel given to the thermal model is 0. *)
Definition replay_step (clk : Z) (o : outcome ThermalReplay) (tc : Z * Command) : outcome ThermalReplay :=
  s ← o;
  s' ← ProcessCMD tc.2 (u64 (clk + tc.1)) s;
  t' ← UpdateCMDPower config th pp pl mapping 0 tc.2 (thermal_calc_ s');
  Done (mk_replay t' (channel_stats_ s') (bank_active_ s') (last_clk_ s')).

Definition idle_banks : list (list (list (list bool))) :=
  replicate (Z.to_nat channels_) (replicate (Z.to_nat ranks_)
    (replicate (Z.to_nat (bankgroups (str_ config))) (replicate (Z.to_nat (banks_per_group (str_ config))) false))).

(** One pass over the trace; the banks are idle again after it. *)
Definition replay_pass (cmds : list (Z * Command)) (clk : Z) (s : ThermalReplay) : outcome (Z * ThermalReplay) :=
  s' ← foldl (replay_step clk) (Done s) cmds;
  let clk_offset := default 0 (fst <$> last cmds) in
  Done (u64 (clk + clk_offset), mk_replay (thermal_calc_ s') (channel_stats_ s') idle_banks (last_clk_ s')).

Fixpoint replay_passes (repeat_ : nat) (cmds : list (Z * Command)) (clk : Z) (s : ThermalReplay) : outcome (Z * ThermalReplay) :=
  match repeat_ with
  | O => Done (clk, s)
  | S n => '(clk', s') ← replay_pass cmds clk s; replay_passes n cmds clk' s'
  end.

(** [ThermalReplay::Run], with the fuel of the last update of the power maps. *)
Definition Run (fuel repeat_ : nat) (cmds : list (Z * Command)) (s : ThermalReplay) : outcome ThermalReplay :=
  '(clk, s') ← replay_passes repeat_ cmds 0 s;
  st ← mapM (fun x => fst <$> Power.UpdateFinalStats config pp x) (channel_stats_ s');
  t ← PrintFinalPT config pl fuel clk (thermal_calc_ s');
  Done (mk_replay t st (bank_active_ s') (last_clk_ s')).

Definition new_replay : outcome ThermalReplay :=
  t ← new_calculator config pl;
  Done (mk_replay t (replicate (Z.to_nat channels_) (new_stats config)) idle_banks 0).

End Replay.

(** ** Reading back what was written *)

Definition no_space (w : chars) : Prop := Forall (fun c => c <> space) w.

Lemma split_word w : no_space w -> forall rest cur,
  split_loop (w ++ rest) space cur = split_loop rest space (cur ++ w).
Proof.
  induction 1 as [|c w Hc Hw IH]; intros rest cur; [by rewrite app_nil_r|]. cbn [app split_loop].
  rewrite (proj2 (Ascii.eqb_neq c space)), IH by done. by rewrite <- app_assoc.
Qed.

Lemma split_spaces n rest : split_loop (replicate n space ++ rest) space [] = split_loop rest space [].
Proof. induction n as [|n IH]; [done|]. exact IH. Qed.

Lemma split_emit w rest : w <> [] -> split_loop (space :: rest) space w = w :: split_loop rest space [].
Proof. intros Hw. cbn [split_loop]. change (Ascii.eqb space space) with true. by rewrite bool_decide_eq_false_2. Qed.

Lemma split_right n w rest : no_space w -> w <> [] ->
  split_loop (pad_right n w ++ space :: rest) space [] = w :: split_loop rest space [].
Proof.
  intros Hw Hne. unfold pad_right. rewrite <- app_assoc, (split_word w Hw). cbn [app].
  destruct (n - length w)%nat as [|k]; cbn [replicate app]; rewrite split_emit by done; [done|].
  f_equal. apply (split_spaces k (space :: rest)).
Qed.

Lemma split_left n w rest : no_space w -> w <> [] ->
  split_loop (pad_left n w ++ space :: rest) space [] = w :: split_loop rest space [].
Proof.
  intros Hw Hne. unfold pad_left. rewrite <- app_assoc, split_spaces, (split_word w Hw). by apply split_emit.
Qed.

Lemma split_last n w : no_space w -> w <> [] -> split_loop (pad_left n w) space [] = [w].
Proof.
  intros Hw Hne. unfold pad_left. rewrite split_spaces. rewrite <- (app_nil_r w) at 1. rewrite (split_word w Hw). cbn.
  by rewrite bool_decide_eq_false_2.
Qed.

Lemma digit_char_no_space d : 0 <= d < 16 -> digit_char d <> space /\ isspace (digit_char d) = false.
Proof.
  intros Hd. assert (d ∈ zrange 0 16) as He by (apply elem_of_zrange; lia).
  assert (Forall (fun d => digit_char d <> space /\ isspace (digit_char d) = false) (zrange 0 16)) as Hf
    by (apply (bool_decide_eq_true_1 _); vm_compute; reflexivity).
  by rewrite Forall_forall in Hf; apply Hf.
Qed.

Lemma show_no_space base fuel : 1 < base <= 16 -> forall v, 0 <= v -> no_space (show fuel base v).
Proof.
  intros Hb. induction fuel as [|fuel IH]; intros v Hv; cbn [show]; [by apply Forall_nil|].
  destruct (Z.ltb_spec v base).
  - apply Forall_singleton. apply digit_char_no_space. lia.
  - apply Forall_app. split; [apply IH, Z.div_pos; lia|]. apply Forall_singleton. apply digit_char_no_space.
    pose proof (Z.mod_pos_bound v base). lia.
Qed.

Lemma show_nonempty base v : 1 < base <= 16 -> 0 <= v -> show 64 base v <> [].
Proof. intros Hb Hv. by destruct (show_head base 64 Hb v Hv ltac:(done)) as (d & s & -> & _). Qed.

Lemma show_int_ok v : no_space (show_int v) /\ show_int v <> [].
Proof.
  unfold show_int. destruct (Z.ltb_spec v 0).
  - split; [|done]. constructor; [done|]. apply show_no_space; lia.
  - split; [apply show_no_space; lia|apply show_nonempty; lia].
Qed.

Lemma show_hex_ok v : no_space (show_hex v) /\ show_hex v <> [].
Proof.
  unfold show_hex. destruct (Z.ltb_spec v 0); (split; [|done]); repeat (constructor; [done|]); apply show_no_space; lia.
Qed.

Lemma command_name_ok t : no_space (command_name t) /\ command_name t <> [].
Proof. destruct t; (split; [|done]); apply (bool_decide_eq_true_1 _); vm_compute; reflexivity. Qed.

(** A number that starts with a digit has no sign and no space before it. *)
Lemma number_head base v : 1 < base <= 16 -> 0 <= v ->
  skipws (show 64 base v) = show 64 base v /\ sign (show 64 base v) = (false, show 64 base v).
Proof.
  intros Hb Hv. destruct (show_head base 64 Hb v Hv ltac:(done)) as (d & s & E & Hd). rewrite E.
  destruct (digit_char_no_space d Hd) as [_ Hs]. cbn [skipws]. rewrite Hs. split; [done|].
  apply sign_digit; intros Hc; assert (d ∈ zrange 0 16) as He by (apply elem_of_zrange; lia);
    revert Hc; (assert (Forall (fun d => digit_char d <> "-"%char /\ digit_char d <> "+"%char) (zrange 0 16)) as Hf
      by (apply (bool_decide_eq_true_1 _); vm_compute; reflexivity)); rewrite Forall_forall in Hf; by apply Hf.
Qed.

Lemma stoi_show_int v : - 2 ^ 31 <= v < 2 ^ 31 -> stoi (show_int v) = Done v.
Proof.
  intros Hv. unfold show_int, stoi. destruct (Z.ltb_spec v 0).
  - change (skipws ("-"%char :: show 64 10 (- v))) with ("-"%char :: show 64 10 (- v)). cbn [sign fst snd].
    destruct (field_value 10 (- v) []) as (E & L & _); [lia|lia|done|]. rewrite app_nil_r in E, L. cbn zeta in *.
    rewrite E in L |- *. rewrite L. cbn [fst]. rewrite Z.opp_involutive.
    by rewrite (proj2 (Z.leb_le (- 2 ^ 31) v)), (proj2 (Z.ltb_lt v (2 ^ 31))) by lia.
  - destruct (number_head 10 v) as [-> ->]; [lia|lia|]. cbn [fst snd].
    destruct (field_value 10 v []) as (E & L & _); [lia|lia|done|]. rewrite app_nil_r in E, L. cbn zeta in *.
    rewrite E in L |- *. rewrite L. cbn [fst].
    by rewrite (proj2 (Z.leb_le (- 2 ^ 31) v)), (proj2 (Z.ltb_lt v (2 ^ 31))) by lia.
Qed.

Lemma stoull_show v : 0 <= v < 2 ^ 64 -> stoull (show 64 10 v) = Done v.
Proof.
  intros Hv. unfold stoull. destruct (number_head 10 v) as [-> ->]; [lia|lia|]. cbn [fst snd].
  destruct (field_value 10 v []) as (E & L & _); [lia|lia|done|]. rewrite app_nil_r in E, L. cbn zeta in *.
  rewrite E in L |- *. rewrite L. cbn [fst]. by rewrite (proj2 (Z.ltb_lt v (2 ^ 64))) by lia.
Qed.

(** [std::stoi] reads decimal numbers: of a number with the prefix [0x] the 0. *)
Lemma stoi_show_hex v : stoi (show_hex v) = Done 0.
Proof.
  assert (forall t, digits 10 0 ("0"%char :: "x"%char :: t) = (0, "x"%char :: t)) as Hd by done.
  assert (forall (t : chars), bool_decide (length ("x"%char :: t) = length ("0"%char :: "x"%char :: t)) = false) as Hl
    by (intros t; apply bool_decide_eq_false_2; cbn; lia).
  unfold show_hex, stoi. destruct (v <? 0).
  - change (skipws ("-"%char :: ?x)) with ("-"%char :: x). cbn [sign fst snd]. rewrite Hd. cbn [snd]. by rewrite Hl.
  - change (skipws ("0"%char :: ?x)) with ("0"%char :: x). change (sign ("0"%char :: ?x)) with (false, "0"%char :: x).
    cbn [fst snd]. rewrite Hd. cbn [snd]. by rewrite Hl.
Qed.

Lemma cmd_of_name t : t <> SIZE -> cmd_of (command_name t) = t.
Proof. destruct t; intros H; try done; vm_compute; reflexivity. Qed.

(** What the replay reads back from a line of the command trace: the clock, the
    command, the channel, the rank and the bank, and 0 for the row and the column,
    which the trace writes in hexadecimal. *)
Theorem trace_line_parsed clk c : 0 <= clk < 2 ^ 64 -> cmd_type c <> SIZE ->
  Forall (fun v => - 2 ^ 31 <= v < 2 ^ 31) [Channel c; Rank c; Bankgroup c; Bank c] ->
  ParseLine (trace_line clk c) =
    Done (clk, mk_cmd (cmd_type c) (mk_addr (Channel c) (Rank c) (Bankgroup c) (Bank c) 0 0) 0).
Proof.
  intros Hclk Ht Hv. unfold ParseLine, StringSplit, trace_line, show_command.
  destruct (command_name_ok (cmd_type c)) as [N1 N2].
  rewrite split_right by (apply show_no_space; lia) || (apply show_nonempty; lia). rewrite split_right by done.
  rewrite !split_left by (apply show_int_ok || apply show_hex_ok). rewrite split_last by apply show_hex_ok.
  rewrite !Forall_cons in Hv. destruct Hv as (H1 & H2 & H3 & H4 & _).
  rewrite stoull_show by done. cbn [mbind outcome_bind]. rewrite !stoi_show_int by done. cbn [mbind outcome_bind].
  rewrite !stoi_show_hex. cbn [mbind outcome_bind]. by rewrite cmd_of_name.
Qed.

(** ** Every cycle is active or idle *)

#[local] Abbreviation active := "rank_active_cycles"%string.
#[local] Abbreviation idle := "all_bank_idle_cycles"%string.

(** The cycles of rank [j] under a name: the total and the current epoch. *)
Definition at_rank (m : gmap string (list Z)) (n : string) (j : Z) : Z := default 0 (zlookup (default [] (m !! n)) j).
Definition rank_total (s : SimpleStats) (n : string) (j : Z) : Z :=
  at_rank (vec_counters_ s) n j + at_rank (epoch_vec_counters_ s) n j.
Definition spent (s : SimpleStats) (j : Z) : Z := u64 (rank_total s active j + rank_total s idle j).

(** Both counters have an entry for every rank. *)
Definition has_vec (R : Z) (m : gmap string (list Z)) (n : string) : Prop :=
  exists v, m !! n = Some v /\ Z.of_nat (length v) = R.
Definition acct (R : Z) (s : SimpleStats) : Prop :=
  forall n, n = active \/ n = idle -> has_vec R (vec_counters_ s) n /\ has_vec R (epoch_vec_counters_ s) n.

Lemma new_stats_acct config : 0 <= ranks (size_ config) ->
  acct (ranks (size_ config)) (new_stats config) /\ forall j, spent (new_stats config) j = 0.
Proof.
  intros HR. split.
  - intros n [->| ->]; split; (eexists; split; [reflexivity|]); rewrite length_replicate; lia.
  - intros j. assert (forall (m : gmap string (list Z)) n, m !! n = Some (replicate (Z.to_nat (ranks (size_ config))) 0) -> at_rank m n j = 0) as Hz.
    { intros m n E. unfold at_rank. rewrite E. cbn [default from_option id].
      destruct (zlookup _ j) as [x|] eqn:Ex; [|done]. unfold zlookup in Ex. case_decide; [|done].
      by apply lookup_replicate_1 in Ex as [-> _]. }
    unfold spent, rank_total. by rewrite !Hz.
Qed.

Lemma u64_mid a b c n : u64 (a + u64 (b + n) + c) = u64 (u64 (a + b + c) + n).
Proof.
  unfold u64, wrapw. rewrite Z.add_mod_idemp_l by done.
  replace (a + (b + n) mod 2 ^ 64 + c) with (a + c + (b + n) mod 2 ^ 64) by lia. rewrite Z.add_mod_idemp_r by done. f_equal. lia.
Qed.

(** The two vectors of counters after an update at one rank. *)
Lemma IncrementVecBy_spent R n j num s s' : acct R s -> n = active \/ n = idle -> 
  IncrementVecBy n j num s = Done s' ->
  acct R s' /\ forall k, spent s' k = if bool_decide (k = j) then u64 (spent s k + num) else spent s k.
Proof.
  intros Ha Hn. destruct (Ha n Hn) as [_ (v & Ev & Lv)]. unfold IncrementVecBy. rewrite Ev.
  change (default [] (Some v)) with v. intros H. apply bind_Done in H as (x & Hx & [= <-]). apply vget_Done in Hx. split.
  - intros m Hm. destruct (Ha m Hm) as [Hv He]. split; [exact Hv|]. unfold has_vec. cbn. destruct (decide (m = n)) as [->|Hne].
    + rewrite lookup_insert_eq. eexists. split; [done|]. by rewrite length_zinsert.
    + by rewrite lookup_insert_ne.
  - intros k. unfold spent, rank_total. cbn.
    assert (forall m, at_rank (<[n:=zinsert j (u64 (x + num)) v]> (epoch_vec_counters_ s)) m k =
      if bool_decide (m = n) && bool_decide (k = j) then u64 (at_rank (epoch_vec_counters_ s) m k + num)
      else at_rank (epoch_vec_counters_ s) m k) as Hat.
    { intros m. unfold at_rank. destruct (decide (m = n)) as [->|Hne].
      - rewrite lookup_insert_eq, Ev, bool_decide_eq_true_2 by done. cbn. destruct (decide (k = j)) as [->|Hk].
        + rewrite zlookup_zinsert_eq, Hx, bool_decide_eq_true_2 by (done || by apply zlookup_Some_range in Hx). done.
        + by rewrite zlookup_zinsert_ne, bool_decide_eq_false_2.
      - by rewrite lookup_insert_ne, (bool_decide_eq_false_2 (m = n)). }
    rewrite !Hat. destruct Hn as [->| ->].
    + rewrite (bool_decide_eq_true_2 (active = active)), (bool_decide_eq_false_2 (idle = active)) by done. cbn [andb].
      case_bool_decide; [by rewrite u64_mid|done].
    + rewrite (bool_decide_eq_true_2 (idle = idle)), (bool_decide_eq_false_2 (active = idle)) by done. cbn [andb].
      case_bool_decide; [|done]. set (a := at_rank (vec_counters_ s) active k + at_rank (epoch_vec_counters_ s) active k).
      set (b := at_rank (vec_counters_ s) idle k). set (c := at_rank (epoch_vec_counters_ s) idle k).
      replace (a + (b + u64 (c + num))) with (a + b + u64 (c + num) + 0) by lia. rewrite u64_mid. do 3 f_equal. lia.
Qed.

Lemma UpdateHistoBins_vec s s' : UpdateHistoBins s = Done s' ->
  vec_counters_ s' = vec_counters_ s /\ epoch_vec_counters_ s' = epoch_vec_counters_ s.
Proof.
  assert (forall t n t', update_bins t n = Done t' -> vec_counters_ t' = vec_counters_ t /\ epoch_vec_counters_ t' = epoch_vec_counters_ t) as Hu.
  { intros t n t' H. unfold update_bins in H. apply bind_Done in H as (b & _ & [= <-]). done. }
  unfold UpdateHistoBins. cbn [fold_left histo_names mbind outcome_bind]. intros H.
  apply bind_Done in H as (s3 & H & [= <-]). apply bind_Done in H as (s2 & H & H3). apply bind_Done in H as (s1 & H1 & H2).
  apply Hu in H1 as [A1 B1], H2 as [A2 B2], H3 as [A3 B3]. cbn. by rewrite A3, B3, A2, B2, A1, B1.
Qed.

(** The end of an epoch moves its cycles to the totals. *)
Lemma UpdateEpochStats_spent R s s' : acct R s -> Stats.UpdateEpochStats s = Done s' ->
  acct R s' /\ forall j, spent s' j = spent s j.
Proof.
  intros Ha H. unfold Stats.UpdateEpochStats in H. apply bind_Done in H as (s1 & H & [= <-]).
  apply UpdateHistoBins_vec in H as [Hv He]. cbn in Hv, He.
  assert (forall n, n = active \/ n = idle -> exists v w, vec_counters_ s !! n = Some v /\ epoch_vec_counters_ s !! n = Some w /\
    Z.of_nat (length v) = R /\ Z.of_nat (length w) = R /\
    vec_counters_ s1 !! n = Some (add_vec v w) /\ zero_vecs (epoch_vec_counters_ s1) !! n = Some (map (fun _ => 0) w)) as Hn.
  { intros n Hn. destruct (Ha n Hn) as [(v & Ev & Lv) (w & Ew & Lw)]. exists v, w. split_and!; try done.
    - rewrite Hv. unfold add_vecs. by rewrite lookup_union_with, Ev, Ew.
    - rewrite He. unfold zero_vecs. by rewrite lookup_fmap, Ew. }
  split.
  - intros n Hx. destruct (Hn n Hx) as (v & w & _ & _ & Lv & Lw & E1 & E2). split; cbn.
    + eexists. split; [exact E1|]. unfold add_vec. rewrite length_zip_with. lia.
    + eexists. split; [exact E2|]. by rewrite length_map.
  - intros j. assert (forall n, n = active \/ n = idle -> exists k,
      at_rank (vec_counters_ s1) n j + at_rank (zero_vecs (epoch_vec_counters_ s1)) n j = rank_total s n j - k * 2 ^ 64) as Hr.
    { intros n Hx. destruct (Hn n Hx) as (v & w & Ev & Ew & Lv & Lw & E1 & E2). unfold rank_total, at_rank. rewrite Ev, Ew, E1, E2.
      cbn [default from_option id]. unfold zlookup. case_decide; [|by exists 0].
      unfold add_vec. rewrite lookup_zip_with, list_lookup_fmap.
      destruct (v !! Z.to_nat j) as [x|] eqn:Ex; destruct (w !! Z.to_nat j) as [y|] eqn:Ey; cbn.
      - exists ((x + y) / 2 ^ 64). unfold u64, wrapw. pose proof (Z.div_mod (x + y) (2 ^ 64)). lia.
      - apply lookup_lt_Some in Ex. apply lookup_ge_None in Ey. lia.
      - apply lookup_lt_Some in Ey. apply lookup_ge_None in Ex. lia.
      - by exists 0. }
    unfold spent, rank_total at 1 2. cbn [vec_counters_ epoch_vec_counters_].
    destruct (Hr active) as [k1 ->]; [by left|]. destruct (Hr idle) as [k2 ->]; [by right|]. unfold u64, wrapw.
    replace (rank_total s active j - k1 * 2 ^ 64 + (rank_total s idle j - k2 * 2 ^ 64))
      with (rank_total s active j + rank_total s idle j + (- k1 - k2) * 2 ^ 64) by lia. by rewrite Z.mod_add.
Qed.

Section Accounting.
Variable config : Config.
Variable th : ThermalParams.
Variable pp : Power.PowerParams.
Variable pl : Plan.
Variable mapping : option (list (list Z) * Z).
#[local] Abbreviation C := (channels (sys_ config)).
#[local] Abbreviation R := (ranks (size_ config)).

(** In every channel each rank has spent [f] cycles. *)
Definition all_spent (f : Z -> Z -> Z) (stats : list SimpleStats) : Prop :=
  forall i s, zlookup stats i = Some s -> acct R s /\ forall j, 0 <= j < R -> spent s j = f i j.

Lemma all_spent_set f stats i s stats' : all_spent f stats -> vset stats i s = Done stats' -> acct R s ->
  all_spent (fun i' j => if bool_decide (i' = i) then spent s j else f i' j) stats'.
Proof using.
  intros Hf H Ha. apply vset_Done in H as [Hi ->]. intros i' s'. destruct (decide (i' = i)) as [->|Hne].
  - rewrite zlookup_zinsert_eq, bool_decide_eq_true_2 by done. intros [= <-]. done.
  - rewrite zlookup_zinsert_ne, bool_decide_eq_false_2 by done. apply Hf.
Qed.

Lemma all_spent_ext f g stats : (forall i j, is_Some (zlookup stats i) -> 0 <= j < R -> f i j = g i j) -> all_spent f stats -> all_spent g stats.
Proof using. intros Hfg Hf i s Hs. destruct (Hf i s Hs) as [Ha H]. split; [done|]. intros j Hj. rewrite <- Hfg by done. by apply H. Qed.

Lemma account_spent f past banks stats stats' i j : all_spent f stats -> account past banks stats i j = Done stats' ->
  all_spent (fun i' j' => if bool_decide (i' = i) && bool_decide (j' = j) then u64 (f i' j' + past) else f i' j') stats'.
Proof using.
  intros Hf H. unfold account in H. apply bind_Done in H as (a & _ & H). apply bind_Done in H as (s & Hs & H).
  apply bind_Done in H as (s1 & H1 & H). apply vget_Done in Hs. destruct (Hf i s Hs) as [Ha Hsp].
  assert ((if a then active else idle) = active \/ (if a then active else idle) = idle) as Hn by (destruct a; [by left|by right]).
  destruct (IncrementVecBy_spent R _ j past s s1 Ha Hn H1) as [Ha1 Hsp1].
  eapply all_spent_ext; [|exact (all_spent_set f stats i s1 stats' Hf H Ha1)]. intros i' j' _ Hj. cbn beta.
  destruct (decide (i' = i)) as [->|Hne]; [|by rewrite !(bool_decide_eq_false_2 (i' = i))].
  rewrite !(bool_decide_eq_true_2 (i = i)), Hsp1 by done. cbn [andb]. case_bool_decide; by rewrite Hsp.
Qed.

(** A fold that stops at the first failure. *)
Lemma foldl_Done {A B} (g : A -> B -> outcome A) (P : list B -> A -> Prop) a :
  P [] a -> (forall l x b c, P l b -> g b x = Done c -> P (l ++ [x]) c) ->
  forall l r, foldl (fun o x => b ← o; g b x) (Done a) l = Done r -> P l r.
Proof using.
  intros H0 Hs l. induction l as [|x l IH] using rev_ind; intros r H; [by injection H as <-|].
  rewrite foldl_snoc in H. apply bind_Done in H as (b & Hb & H). apply (Hs l x b); auto.
Qed.

Lemma foldl_bind {A B} (g : A -> B -> outcome A) l : forall o,
  foldl (fun o' x => b ← o'; g b x) o l = (b ← o; foldl (fun o' x => b ← o'; g b x) (Done b) l).
Proof using. intros o. destruct o; [done|..]; (induction l as [|x l IH]; [done|exact IH]). Qed.

Lemma foldl_cong {A B} (f g : A -> B -> A) l : (forall o i, f o i = g o i) -> forall o, foldl f o l = foldl g o l.
Proof using. intros H. induction l as [|x l IH]; intros o; [done|]. cbn. by rewrite H, IH. Qed.

Lemma account_all_spent f past banks stats stats' : 0 <= R -> Z.of_nat (length stats) = C -> all_spent f stats ->
  account_all config past banks stats = Done stats' ->
  Z.of_nat (length stats') = C /\ all_spent (fun i j => u64 (f i j + past)) stats'.
Proof using.
  intros HR HL Hf H. unfold account_all in H.
  assert (foldl (fun o i => b ← o; foldl (fun o' j => st ← o'; account past banks st i j) (Done b) (zrange 0 (Z.to_nat R)))
    (Done stats) (zrange 0 (Z.to_nat C)) = Done stats') as H'.
  { rewrite <- H. apply foldl_cong. intros o i. symmetry. apply (foldl_bind (fun st j => account past banks st i j)). }
  clear H. assert (NoDup (zrange 0 (Z.to_nat C))) as Hnd by apply NoDup_seqZ.
  assert (Z.of_nat (length stats') = C /\ all_spent (fun i j => if bool_decide (i ∈ zrange 0 (Z.to_nat C)) then u64 (f i j + past) else f i j) stats') as [HL' Hsp].
  { revert Hnd. refine (foldl_Done _ (fun l st => NoDup l -> Z.of_nat (length st) = C /\
      all_spent (fun i j => if bool_decide (i ∈ l) then u64 (f i j + past) else f i j) st) stats _ _ _ _ H').
    - intros _. split; [done|]. eapply all_spent_ext; [|exact Hf]. intros. cbn beta. by rewrite bool_decide_eq_false_2 by apply not_elem_of_nil.
    - intros l i b c IH Hb Hnd. apply NoDup_app in Hnd as (Hnd & Hdj & _). destruct (IH Hnd) as [HLb Hfb].
      assert (i ∉ l) as Hi by (intros Hi; apply (Hdj i Hi); left).
      assert (Z.of_nat (length c) = C /\ all_spent (fun i' j => if bool_decide (i' = i) && bool_decide (j ∈ zrange 0 (Z.to_nat R))
        then u64 (f i' j + past) else if bool_decide (i' ∈ l) then u64 (f i' j + past) else f i' j) c) as [HLc Hfc].
      { assert (NoDup (zrange 0 (Z.to_nat R))) as HndR by apply NoDup_seqZ. revert HndR.
        refine (foldl_Done _ (fun js st => NoDup js -> Z.of_nat (length st) = C /\
          all_spent (fun i' j => if bool_decide (i' = i) && bool_decide (j ∈ js)
            then u64 (f i' j + past) else if bool_decide (i' ∈ l) then u64 (f i' j + past) else f i' j) st) b _ _ _ _ Hb).
        - intros _. split; [done|]. eapply all_spent_ext; [|exact Hfb]. intros. cbn beta.
          by rewrite (bool_decide_eq_false_2 (_ ∈ [])), andb_false_r by apply not_elem_of_nil.
        - intros js j b1 c1 IHj Hc1 Hnj. apply NoDup_app in Hnj as (Hnj & Hdj' & _). destruct (IHj Hnj) as [HL1 Hf1].
          assert (j ∉ js) as Hj by (intros Hj; apply (Hdj' j Hj); left). split.
          + unfold account in Hc1. apply bind_Done in Hc1 as (? & _ & Hc1). apply bind_Done in Hc1 as (? & _ & Hc1).
            apply bind_Done in Hc1 as (? & _ & Hc1). apply vset_Done in Hc1 as [_ ->]. by rewrite length_zinsert.
          + eapply all_spent_ext; [|exact (account_spent _ past banks b1 c1 i j Hf1 Hc1)]. intros i' j' _ _. cbn beta.
            destruct (decide (i' = i)) as [->|Hne]; [|by rewrite !(bool_decide_eq_false_2 (i' = i))].
            rewrite !(bool_decide_eq_true_2 (i = i)), (bool_decide_eq_false_2 (i ∈ l)) by done. cbn [andb].
            destruct (decide (j' = j)) as [->|Hnj'].
            * by rewrite (bool_decide_eq_true_2 (j = j)), (bool_decide_eq_false_2 (j ∈ js)), bool_decide_eq_true_2
                by (done || (apply elem_of_app; right; left)).
            * rewrite (bool_decide_eq_false_2 (j' = j)) by done. do 2 case_bool_decide; try done; exfalso; set_solver. }
      split; [done|]. eapply all_spent_ext; [|exact Hfc]. intros i' j _ Hj. cbn beta.
      rewrite (bool_decide_eq_true_2 (j ∈ zrange _ _)), andb_true_r by (apply elem_of_zrange; lia).
      repeat case_bool_decide; try done; exfalso; set_solver. }
  split; [done|]. eapply all_spent_ext; [|exact Hsp]. intros i j [s Hs] _. cbn beta. apply zlookup_Some_range in Hs.
  by rewrite bool_decide_eq_true_2 by (apply elem_of_zrange; lia).
Qed.

(** Every rank of every channel has accounted for the clock that was reached. *)
Definition accounted (s : ThermalReplay) : Prop :=
  Z.of_nat (length (channel_stats_ s)) = C /\ 0 <= last_clk_ s < 2 ^ 64 /\
  all_spent (fun _ _ => last_clk_ s) (channel_stats_ s).

Lemma epoch_channels_spent f l : forall st t st' t', Z.of_nat (length st) = C -> all_spent f st ->
  foldl (epoch_channel config pp) (Done (st, t)) l = Done (st', t') -> Z.of_nat (length st') = C /\ all_spent f st'.
Proof using.
  induction l as [|c l IH]; intros st t st' t' HL Hf H; [by injection H as <- <-|]. cbn [foldl] in H.
  destruct (epoch_channel config pp (Done (st, t)) c) as [[st1 t1]| | | |] eqn:E;
    [|exfalso; clear -H; induction l as [|x l IH]; [done|by apply IH]..].
  apply (IH st1 t1 st' t'); [| |done]; cbn [epoch_channel mbind outcome_bind] in E;
    apply bind_Done in E as (s0 & Hs0 & E); apply bind_Done in E as ([s1 e] & Hs1 & E);
    apply bind_Done in E as (st2 & Hst & E); apply bind_Done in E as (t2 & _ & E); injection E as <- <-.
  - apply vset_Done in Hst as [_ ->]. by rewrite length_zinsert.
  - apply vget_Done in Hs0. destruct (Hf c s0 Hs0) as [Ha Hs]. unfold Power.UpdateEpochStats in Hs1.
    apply bind_Done in Hs1 as (e1 & _ & Hs1). apply bind_Done in Hs1 as (s2 & Hs2 & [= <- _]).
    destruct (UpdateEpochStats_spent R s0 s2 Ha Hs2) as [Ha2 Hsp2].
    eapply all_spent_ext; [|exact (all_spent_set f st c s2 st2 Hf Hst Ha2)]. intros i j _ Hj. cbn beta.
    destruct (decide (i = c)) as [->|Hne]; [rewrite bool_decide_eq_true_2, Hsp2, Hs by done|rewrite bool_decide_eq_false_2 by done]; done.
Qed.

Lemma ProcessCMD_accounts c clk s s' : 0 <= R -> 0 <= clk < 2 ^ 64 -> accounted s -> ProcessCMD config pp c clk s = Done s' ->
  accounted s' /\ last_clk_ s' = clk.
Proof using.
  intros HR Hclk (HL & Hlast & Hf) H. unfold ProcessCMD in H. cbn zeta in H. apply bind_Done in H as (st & Hst & H).
  apply bind_Done in H as (name & _ & H). apply bind_Done in H as (s1 & Hs1 & H). apply bind_Done in H as (st1 & Hst1 & H).
  apply bind_Done in H as (banks' & _ & H). destruct (epoch_period config =? 0); [done|].
  apply bind_Done in H as ([st2 t2] & He & [= <-]). cbn.
  destruct (account_all_spent _ _ _ _ _ HR HL Hf Hst) as [HLs Hfs].
  assert (all_spent (fun _ _ => clk) st1) as Hf1.
  { apply vget_Done in Hs1. destruct (Hfs (Channel c) s1 Hs1) as [Ha Hs].
    eapply all_spent_ext; [|exact (all_spent_set _ st (Channel c) (Increment name s1) st1 Hfs Hst1 Ha)]. intros i j _ Hj. cbn beta.
    assert (u64 (last_clk_ s + u64 (clk - last_clk_ s)) = clk) as E.
    { unfold u64, wrapw. rewrite Z.add_mod_idemp_r, Zplus_minus by done. by apply Z.mod_small. }
    case_bool_decide; [|done]. rewrite <- E, <- (Hs j Hj). done. }
  assert (Z.of_nat (length st1) = C) as HL1 by (apply vset_Done in Hst1 as [_ ->]; by rewrite length_zinsert).
  split; [|done]. unfold accounted. cbn. destruct (clk mod _ =? 0).
  - injection He as <- <-. done.
  - destruct (epoch_channels_spent _ _ _ _ _ _ HL1 Hf1 He). done.
Qed.

Lemma replay_pass_accounts cmds : 0 <= R -> forall clk s clk' s', accounted s -> replay_pass config th pp pl mapping cmds clk s = Done (clk', s') ->
  accounted s' /\ (cmds <> [] -> last_clk_ s' = clk').
Proof using.
  intros HR clk s clk' s' Ha H. unfold replay_pass in H. apply bind_Done in H as (s1 & Hs & [= <- <-]).
  enough (accounted s1 /\ (cmds <> [] -> last_clk_ s1 = u64 (clk + default 0 (fst <$> last cmds)))) as [H1 H4]
    by (split; [exact H1|exact H4]).
  revert s1 Hs. refine (foldl_Done _ (fun l s1 => accounted s1 /\ (l <> [] -> last_clk_ s1 = u64 (clk + default 0 (fst <$> last l)))) s _ _ cmds).
  - done.
  - intros l [tc c] s1 s2 [Ha1 _] Hstep. apply bind_Done in Hstep as (s3 & Hp & Hstep).
    apply bind_Done in Hstep as (t & _ & [= <-]).
    destruct (ProcessCMD_accounts _ _ _ _ HR (u64_range _) Ha1 Hp) as [(A1 & A2 & A3) E]. cbn [fst snd] in *.
    split; [exact (conj A1 (conj A2 A3))|]. intros _. rewrite last_snoc. exact E.
Qed.

(** The replay accounts for every cycle: after any number of passes over the
    trace, the cycles a rank was active and those its banks were all idle add up, in
    64 bits, to the clock of the last command, for every rank of every channel, over
    all the epochs that were closed. *)
Theorem replay_accounts_every_cycle n cmds s0 clk s :
  0 <= R -> 0 <= C -> new_replay config pl = Done s0 ->
  replay_passes config th pp pl mapping n cmds 0 s0 = Done (clk, s) ->
  accounted s /\ (cmds <> [] -> last_clk_ s = clk).
Proof using.
  intros HR HC H0. assert (accounted s0 /\ last_clk_ s0 = 0) as [Ha E].
  { unfold new_replay in H0. apply bind_Done in H0 as (t & _ & [= <-]). split; [|done]. unfold accounted. cbn.
    split_and!; [rewrite length_replicate; lia|done|done|]. intros i st Hst. destruct (new_stats_acct config HR) as [Ha Hz].
    assert (st = new_stats config) as ->; [|split; [exact Ha|intros; apply Hz]]. unfold zlookup in Hst. case_decide; [|done].
    by apply lookup_replicate_1 in Hst as [-> _]. }
  clear H0. assert (cmds <> [] -> last_clk_ s0 = 0) as E0 by done. clear E. revert s0 Ha E0. generalize 0.
  induction n as [|n IH]; intros c0 s0 Ha E0 H; cbn [replay_passes] in H; [by injection H as <- <-|].
  apply bind_Done in H as ([c1 s1] & Hp & H). destruct (replay_pass_accounts cmds HR c0 s0 c1 s1 Ha Hp) as [Ha1 E1].
  by apply (IH c1 s1 Ha1 E1).
Qed.

End Accounting.

(** ** Instances *)

(** A device with few cells, and two passes over three lines of a trace. *)
Definition small_th : ThermalParams := mk_thp 32768 4096 2 2 65536 1 (d_of_Z 1) [] (Some 1) (Some 0) (Some 8).
Definition small_pl : Plan := mk_plan 1 4 4 None None 8 8 1.
Definition demo_lines : list chars :=
  [trace_line 10 (mk_cmd ACTIVATE (mk_addr 0 0 1 1 5 0) 0); trace_line 30 (mk_cmd READ_PRECHARGE (mk_addr 0 0 1 1 5 8) 0);
   trace_line 45 (mk_cmd PRECHARGE (mk_addr 0 0 1 1 5 0) 0)].
Definition demo_trace : list (Z * Command) :=
  Eval vm_compute in match read_trace demo_lines with Done l => l | _ => [] end.

Example demo_trace_read : read_trace demo_lines = Done demo_trace.
Proof. vm_compute. reflexivity. Qed.

#[local] Abbreviation demo_passes s :=
  (replay_passes demo_config small_th demo_power small_pl None 2 demo_trace 0 s).

Lemma trace_line_parsed_witness :
  ParseLine (trace_line 12 (mk_cmd ACTIVATE (mk_addr 0 0 3 2 54321 77) 9)) = Done (12, mk_cmd ACTIVATE (mk_addr 0 0 3 2 0 0) 0).
Proof.
  apply (trace_line_parsed 12 (mk_cmd ACTIVATE (mk_addr 0 0 3 2 54321 77) 9)); [lia|done|].
  repeat (apply Forall_cons; split; [cbn; lia|]). by apply Forall_nil.
Defined.

Lemma replay_accounts_every_cycle_witness :
  exists s0 clk s, new_replay demo_config small_pl = Done s0 /\ demo_passes s0 = Done (clk, s) /\
  accounted demo_config s /\ last_clk_ s = 90.
Proof.
  assert ((match new_replay demo_config small_pl with Done s => match demo_passes s with Done (c, _) => c =? 90 | _ => false end | _ => false end) = true)
    as Hc by (vm_compute; reflexivity).
  destruct (new_replay demo_config small_pl) as [s0| | | |] eqn:E0; [|discriminate Hc..].
  destruct (demo_passes s0) as [[clk s]| | | |] eqn:E; [|discriminate Hc..].
  destruct (replay_accounts_every_cycle demo_config small_th demo_power small_pl None 2 demo_trace s0 clk s) as [Ha El];
    [vm_compute; discriminate|vm_compute; discriminate|exact E0|exact E|].
  exists s0, clk, s. split; [reflexivity|]. split; [exact E|]. split; [exact Ha|]. rewrite El by discriminate. by apply Z.eqb_eq in Hc.
Defined.

End Replay.
