(* ===== verification/ThermalSolver.v ===== *)
(** * DRAMsim3: the thermal solver

    [runtime/DRAMsim3/src/thermal_solver.c] with the constants of
    [include/dramsim3/thermal_config.h]: the network of thermal resistances as a
    sparse matrix, the system that is handed to SuperLU, and the explicit time
    steps.  SuperLU itself is a parameter.  The row and the column of an entry are
    integers that the source keeps in [double]s, exact below 2^53; they are [Z]
    here.  [M_PI] is the constant of [math.h].  Allocation does not fail. *)

From Stdlib Require Import Floats.SpecFloat Sorted.
From stdpp Require Import sorting.
From S2P Require Import Prelude Text Fp DramCommon Ini SimpleStats Power.

Module Solver.
Import Fp Power.

#[local] Open Scope Z_scope.

(** ** Constants *)

Definition T0 : double := lit 27315 (-2).
Definition R_TSV : double := lit 5 (-6).
Definition M_PI : double := lit 314159265358979323846 (-20).
Definition Ksi : double := lit 148 0.
Definition Kcu : double := lit 401 0.
Definition Kin : double := lit 15 (-1).
Definition Khs : double := lit 4 0.
Definition Csi : double := lit 166 4.
Definition Ccu : double := lit 32 5.
Definition Cin : double := lit 165 4.
Definition Chs : double := lit 242 4.
Definition Hsi : double := lit 400 (-6).
Definition Hcu : double := lit 5 (-6).
Definition Hin : double := lit 20 (-6).
Definition Hhs : double := lit 1000 (-6).

Definition one : double := d_of_Z 1.
Definition dneg1 : double := d_of_Z (-1).

(** [switch (i % 3)]: active layer, wires, dielectric. *)
Definition by_kind (a b c : double) (i : Z) : double :=
  if Z.rem i 3 =? 0 then a else if Z.rem i 3 =? 1 then b else c.
Definition K : Z -> double := by_kind Ksi Kcu Kin.
Definition H : Z -> double := by_kind Hsi Hcu Hin.
Definition C : Z -> double := by_kind Csi Ccu Cin.

Record entry := mk_entry { e_row : Z; e_col : Z; e_val : double }.

Abbreviation matrix3 := (list (list (list double))).

Section Solver.
Variables (W Lc : double) (numP dimX dimZ : Z).

Definition numLayer : Z := numP * 3.
(** The number of nodes of a layer, and of the network with the heat sink. *)
Definition layer_nodes : Z := dimX * dimZ.
Definition nodes : Z := dimX * dimZ * (numLayer + 1).
Definition node (l j i : Z) : Z := l * dimX * dimZ + j * dimX + i.

Definition gridX : double := ddiv W (d_of_Z dimX).
Definition gridZ : double := ddiv Lc (d_of_Z dimZ).

(** The heat sink has the size of the chip. *)
Definition Rsinkx : double := ddiv (ddiv (ddiv gridX Khs) gridZ) Hhs.
Definition Rsinky : double := ddiv (ddiv (ddiv Hhs Khs) gridX) gridZ.
Definition Rsinkz : double := ddiv (ddiv (ddiv gridZ Khs) gridX) Hhs.
Definition Ramb : double := ddiv Rsinky (d_of_Z 2).

(** [mapTSV]: the tier whose vias cross a layer. *)
Definition mapTSV (i : Z) : Z :=
  if i =? numLayer - 2 then numP - 1
  else if (i =? 0) || (i =? numLayer - 1) then 0 else Z.quot (i - 1) 3 + 1.

(** [Rvert[i][j][l]]: the arrays of vias hold 0 everywhere, so that the value is the
    same in every cell. *)
Definition TSV : Z := 0.
Definition via_area : double := dmul (dmul (dmul M_PI R_TSV) R_TSV) (d_of_Z TSV).
Definition Rvert (l : Z) : double :=
  if l =? 0 then Rsinky
  else
    let k := l - 1 in
    if mapTSV k =? 0 then ddiv (ddiv (H k) (K k)) (dmul gridX gridZ)
    else ddiv one
           (dadd (ddiv one (ddiv (ddiv (H k) (K k)) (dsub (dmul gridX gridZ) via_area)))
                 (ddiv one (ddiv (ddiv (H k) Kcu) via_area))).

(** [Rhori[i][0]] and [Rhori[i][1]]. *)
Definition Rhori_x (i : Z) : double :=
  if i =? 0 then Rsinkx
  else dmul (ddiv (ddiv (ddiv gridX (K (i - 1))) gridZ) (H (i - 1))) (d_of_Z 10).
Definition Rhori_z (i : Z) : double :=
  if i =? 0 then Rsinkz
  else dmul (ddiv (ddiv (ddiv gridZ (K (i - 1))) gridZ) (H (i - 1))) (d_of_Z 10).

(** ** The matrix *)

Definition half (x : double) : double := ddiv x (d_of_Z 2).
Definition g_vert (l l' : Z) : double := ddiv dneg1 (dadd (half (Rvert l)) (half (Rvert l'))).
Definition g_x (l : Z) : double := ddiv dneg1 (Rhori_x l).
Definition g_z (l : Z) : double := ddiv dneg1 (Rhori_z l).

Definition neighbour (c : bool) (r col : Z) (v : double) : list entry :=
  if c then [mk_entry r col v] else [].

(** The neighbours of a node, in the order in which the source writes them. *)
Definition off_diagonal (l j i : Z) : list entry :=
  let r := node l j i in
  neighbour (0 <? l) r (node (l - 1) j i) (g_vert l (l - 1)) ++
  neighbour (0 <=? j - 1) r (node l (j - 1) i) (g_z l) ++
  neighbour (0 <=? i - 1) r (node l j i - 1) (g_x l) ++
  neighbour (i + 1 <? dimX) r (node l j i + 1) (g_x l) ++
  neighbour (j + 1 <? dimZ) r (node l (j + 1) i) (g_z l) ++
  neighbour (l <? numLayer) r (node (l + 1) j i) (g_vert l (l + 1)).

Definition diagonal (l j i : Z) (es : list entry) : entry :=
  let v := foldl (fun v e => dsub v (e_val e)) d0 es in
  mk_entry (node l j i) (node l j i) (if node l j i <? layer_nodes then dadd v (ddiv one Ramb) else v).

(** The last entry of a row moves towards the front past larger columns; the row is
    given from its end. *)
Fixpoint sink (x : entry) (before : list entry) : list entry :=
  match before with
  | y :: ys => if e_col y >? e_col x then y :: sink x ys else x :: before
  | [] => [x]
  end.

Definition row (l j i : Z) : list entry :=
  let es := off_diagonal l j i in
  reverse (sink (diagonal l j i es) (reverse es)).

Definition zs (n : Z) : list Z := zrange 0 (Z.to_nat n).

(** All nodes in the order of the loops over [l], [j], [i]. *)
Definition all_nodes : list (Z * Z * Z) :=
  concat (map (fun l => concat (map (fun j => map (fun i => (l, j, i)) (zs dimX)) (zs dimZ))) (zs (numLayer + 1))).

Definition Midx : list entry := concat (map (fun p => row p.1.1 p.1.2 p.2) all_nodes).

(** The number of entries that is computed first, in the order [l], [i], [j]. *)
Definition degree (l i j : Z) : Z :=
  b2z (0 <=? i - 1) + b2z (i + 1 <? dimX) + b2z (0 <=? j - 1) + b2z (j + 1 <? dimZ) +
  b2z (l <? numLayer) + b2z (0 <? l).
Definition sum (l : list Z) : Z := foldr Z.add 0 l.
Definition MidxSize : Z :=
  sum (map (fun l => sum (map (fun i => sum (map (fun j => degree l i j) (zs dimZ))) (zs dimX))) (zs (numLayer + 1)))
  + dimX * dimZ * (numLayer + 1).

(** [calculate_Midx_array]: an entry beyond the size would be written outside the
    array. *)
Definition calculate_Midx_array : outcome (list entry * Z) :=
  if Z.of_nat (length Midx) <=? MidxSize then Done (Midx, MidxSize) else Undef.

(** [calculate_Cap_array]. *)
Definition calculate_Cap_array : list double :=
  map (fun i => if i =? 0 then dmul (dmul (dmul Chs Hhs) gridX) gridZ
                else dmul (dmul (dmul (C (i - 1)) (H (i - 1))) gridX) gridZ) (zs (numLayer + 1)).

(** [initialize_Temperature]. *)
Definition initialize_Temperature (Tamb : double) : list double := replicate (Z.to_nat nodes) Tamb.

(** ** The steady state *)

Definition power_at (powerM : matrix3) (i j l : Z) : outcome double :=
  a ← vget powerM i; b ← vget a j; vget b l.

(** [xa]: where each row starts; a place that was not written is [None]. *)
Fixpoint row_starts (es : list entry) (i r : Z) (xa : list (option Z)) : outcome (Z * list (option Z)) :=
  match es with
  | [] => Done (r, xa)
  | e :: es' =>
      if e_row e >? r
      then xa' ← vset xa (e_row e) (Some i); row_starts es' (i + 1) (e_row e) xa'
      else row_starts es' (i + 1) r xa
  end.

Definition build_xa (es : list entry) (count : Z) : outcome (list (option Z)) :=
  '(r, xa) ← row_starts es 0 (-1) (replicate (Z.to_nat (nodes + 1)) None);
  vset xa (r + 1) (Some count).

(** The places of the powers in the right-hand side: in the steady solver, and in the
    transient one. *)
Definition steady_idx (l i j : Z) : Z := dimX * dimZ * (l * 3 + 1) + j * dimX + i.
Definition transient_idx (l i j : Z) : Z := dimX * dimZ * (l * 3 + 1) + i * dimZ + j.

Definition steady_cells : list (Z * Z * Z) :=
  concat (map (fun l => concat (map (fun i => map (fun j => (l, i, j)) (zs dimZ)) (zs dimX))) (zs numP)).
Definition transient_cells : list (Z * Z * Z) :=
  concat (map (fun l => concat (map (fun j => map (fun i => (l, i, j)) (zs dimX)) (zs dimZ))) (zs numP)).

(** [B] and [P]: the ambient temperature on the heat sink, the powers on the active
    layers. *)
Definition fill1 (idx : Z -> Z -> Z -> Z) (powerM : matrix3) (o : outcome (list double)) (p : Z * Z * Z) : outcome (list double) :=
  v ← o; x ← power_at powerM p.1.2 p.2 p.1.1; vset v (idx p.1.1 p.1.2 p.2) x.
Definition fill (idx : Z -> Z -> Z -> Z) (cells : list (Z * Z * Z)) (powerM : matrix3) (v : list double) : outcome (list double) :=
  foldl (fill1 idx powerM) (Done v) cells.

Definition sink_rhs (Tamb : double) : list double :=
  map (fun i => if i <? layer_nodes then ddiv Tamb Ramb else d0) (zs nodes).

Definition steady_rhs (powerM : matrix3) (Tamb : double) : outcome (list double) :=
  fill steady_idx steady_cells powerM (sink_rhs Tamb).

(** The solver of the linear system: values, columns, starts of the rows, right-hand
    side. *)
Variable pdgssv : list double -> list Z -> list (option Z) -> list double -> list double.

Definition steady_thermal_solver (powerM : matrix3) (es : list entry) (count : Z) (Tamb : double) : outcome (list double) :=
  xa ← build_xa es count;
  rhs ← steady_rhs powerM Tamb;
  Done (map (fun t => dsub t T0) (pdgssv (map e_val es) (map e_col es) xa rhs)).

(** ** Time steps *)

(** One entry of the matrix: the diagonal with the source term, or a neighbour. *)
Definition euler_entry (dt : double) (Cap Tp P : list double) (e : entry) (T : list double) : outcome (list double) :=
  idxC ← (if layer_nodes =? 0 then Undef else Done (Z.quot (e_row e) layer_nodes));
  c ← vget Cap idxC;
  tp ← vget Tp (e_col e);
  t ← vget T (e_row e);
  if e_row e =? e_col e then
    p ← vget P (e_row e);
    let tmp_a := dsub one (ddiv (dmul (e_val e) dt) c) in
    let tmp_b := dadd (dmul tmp_a tp) (ddiv (dmul p dt) c) in
    vset T (e_row e) (dadd t tmp_b)
  else
    let tmp_a := ddiv (dmul (dmul (e_val e) tp) dt) c in
    vset T (e_row e) (dsub t tmp_a).

Definition euler_entries (dt : double) (Cap Tp P : list double) (es : list entry) (T : list double) : outcome (list double) :=
  foldl (fun o e => t ← o; euler_entry dt Cap Tp P e t) (Done T) es.

(** The loop over the matrix in blocks of eight. *)
Definition block_size : Z := 8.
Fixpoint blocks (fuel : nat) (dt : double) (Cap Tp P : list double) (es : list entry) (MidxSize j : Z) (T : list double)
    : outcome (list double) :=
  match fuel with
  | O => Stuck
  | S fuel' =>
      if j <? MidxSize then
        let bound := if j + block_size <? MidxSize then j + block_size else MidxSize in
        T' ← euler_entries dt Cap Tp P (take (Z.to_nat (bound - j)) (drop (Z.to_nat j) es)) T;
        blocks fuel' dt Cap Tp P es MidxSize (j + block_size) T'
      else Done T
  end.

Fixpoint iterate (iter : nat) (dt : double) (Cap P : list double) (es : list entry) (size : Z) (Tp : list double)
    : outcome (list double) :=
  match iter with
  | O => Done Tp
  | S n =>
      T ← blocks (S (Z.to_nat size)) dt Cap Tp P es size 0 (replicate (Z.to_nat nodes) d0);
      iterate n dt Cap P es size T
  end.

Definition transient_thermal_solver (powerM : matrix3) (es : list entry) (size : Z) (Cap : list double)
    (time : double) (iter : Z) (T_trans : list double) (Tamb : double) : outcome (list double) :=
  P ← fill transient_idx transient_cells powerM (sink_rhs Tamb);
  iterate (Z.to_nat iter) (ddiv time (d_of_Z iter)) Cap P es size T_trans.

(** [get_maxT]: the largest value above 0. *)
Definition get_maxT (T : list double) : double := foldl (fun m t => if flt m t then t else m) d0 T.

End Solver.

(** ** Lists of rows *)

(** Consecutive ranges of one length make one range. *)
Lemma zrange_tiles lo m n : 0 <= m ->
  concat (map (fun k => zrange (lo + k * m) (Z.to_nat m)) (zrange 0 n)) = zrange lo (Z.to_nat (Z.of_nat n * m)).
Proof.
  intros Hm. induction n as [|n IH]; [done|]. replace (S n) with (n + 1)%nat by lia.
  assert (zrange 0 (n + 1) = zrange 0 n ++ [Z.of_nat n]) as ->.
  { unfold zrange. rewrite Nat2Z.inj_add, seqZ_app by lia. done. }
  rewrite map_app, concat_app, IH. cbn [map concat]. rewrite app_nil_r. unfold zrange. rewrite !Z2Nat.id by nia.
  replace (Z.of_nat (n + 1) * m) with (Z.of_nat n * m + m) by lia. by rewrite seqZ_app by nia.
Qed.

Lemma map_zrange_add a lo n : map (fun i => a + i) (zrange lo n) = zrange (a + lo) n.
Proof.
  revert lo. induction n as [|n IH]; intros lo; [done|]. rewrite !zrange_S. cbn. by rewrite IH, Z.add_assoc.
Qed.

Lemma sum_app l l' : sum (l ++ l') = sum l + sum l'.
Proof. induction l as [|x l IH]; [done|]. cbn in *. unfold sum in *. lia. Qed.

Lemma sum_map_add {A} (f g : A -> Z) l : sum (map (fun x => f x + g x) l) = sum (map f l) + sum (map g l).
Proof. induction l as [|x l IH]; [done|]. cbn in *. unfold sum in *. lia. Qed.

Lemma sum_exchange {A B} (f : A -> B -> Z) l l' :
  sum (map (fun a => sum (map (f a) l')) l) = sum (map (fun b => sum (map (fun a => f a b) l)) l').
Proof.
  induction l as [|a l IH]; cbn.
  - induction l' as [|b l' IH]; [done|]. cbn. unfold sum in *. lia.
  - pose proof (sum_map_add (f a) (fun b => sum (map (fun a => f a b) l)) l'). unfold sum in *. cbn. lia.
Qed.

Lemma sum_const {A} c (l : list A) : sum (map (fun _ => c) l) = Z.of_nat (length l) * c.
Proof. induction l as [|x l IH]; [done|]. cbn [map sum foldr length]. unfold sum in *. lia. Qed.

Lemma length_concat_sum {A} (l : list (list A)) : Z.of_nat (length (concat l)) = sum (map (fun x => Z.of_nat (length x)) l).
Proof. induction l as [|x l IH]; [done|]. cbn. rewrite length_app. unfold sum in *. lia. Qed.

Lemma sum_ext {A} (f g : A -> Z) l : (forall x, f x = g x) -> sum (map f l) = sum (map g l).
Proof. intros Hfg. f_equal. by apply map_ext. Qed.

(** A list of rows is sorted when the rows are and follow each other. *)
Lemma sorted_concat {A B} (R : B -> B -> Prop) (f : A -> list B) (key : A -> Z) l :
  (forall p, p ∈ l -> StronglySorted R (f p)) ->
  (forall p q x y, p ∈ l -> q ∈ l -> key p < key q -> x ∈ f p -> y ∈ f q -> R x y) ->
  StronglySorted Z.lt (map key l) -> StronglySorted R (concat (map f l)).
Proof.
  intros Hrow Hnext Hs. induction l as [|p l IH]; [constructor|].
  cbn [map concat] in *. apply StronglySorted_cons in Hs as [Hp Hs]. apply StronglySorted_app. split_and!.
  - intros x y Hx Hy. apply list_elem_of_In, in_concat in Hy as (r & Hr & Hy). apply in_map_iff in Hr as (q & <- & Hq).
    apply list_elem_of_In in Hq, Hy. rewrite Forall_forall in Hp.
    apply (Hnext p q); [left|by right|apply Hp, list_elem_of_In, in_map, list_elem_of_In|..]; done.
  - apply Hrow. left.
  - apply IH; [intros q Hq; apply Hrow; by right| |done].
    intros q q' x y Hq Hq'. apply Hnext; by right.
Qed.

Lemma zrange_sorted lo n : StronglySorted Z.lt (zrange lo n).
Proof.
  revert lo. induction n as [|n IH]; intros lo; [constructor|]. rewrite zrange_S. apply StronglySorted_cons.
  split; [|apply IH]. apply Forall_forall. intros x Hx%elem_of_zrange. lia.
Qed.

Lemma filter_all {A} (P : A -> Prop) `{!forall x, Decision (P x)} l : Forall P l -> filter P l = l.
Proof. induction 1 as [|x l Hx Hl IH]; [done|]. rewrite filter_cons_True by done. by rewrite IH. Qed.

Lemma filter_none {A} (P : A -> Prop) `{!forall x, Decision (P x)} l : Forall (fun x => ~ P x) l -> filter P l = [].
Proof. induction 1 as [|x l Hx Hl IH]; [done|]. by rewrite filter_cons_False by done. Qed.

Lemma pair_unique d q r q' r' : 0 <= r < d -> 0 <= r' < d -> q * d + r = q' * d + r' -> q = q' /\ r = r'.
Proof. intros Hr Hr' He. apply (Z.div_mod_unique d q q' r r'); lia. Qed.

(** The places of three nested loops. *)
Lemma elem_of_grid {A} (g : Z -> Z -> Z -> A) n1 n2 n3 x :
  x ∈ concat (map (fun a => concat (map (fun b => map (fun c => g a b c) (zs n3)) (zs n2))) (zs n1)) <->
  exists a b c, 0 <= a < n1 /\ 0 <= b < n2 /\ 0 <= c < n3 /\ x = g a b c.
Proof.
  assert (Hzs : forall a n, In a (zs n) <-> 0 <= a < n) by (intros a n; unfold zs; rewrite <- list_elem_of_In, elem_of_zrange; lia).
  rewrite list_elem_of_In, in_concat. split.
  - intros (y & Hy & Hx). apply in_map_iff in Hy as (a & <- & Ha). apply in_concat in Hx as (y & Hy & Hx).
    apply in_map_iff in Hy as (b & <- & Hb). apply in_map_iff in Hx as (c & <- & Hc).
    exists a, b, c. by rewrite <- !Hzs.
  - intros (a & b & c & Ha & Hb & Hc & ->). apply Hzs in Ha, Hb, Hc.
    eexists. split; [apply in_map_iff; by exists a|]. apply in_concat.
    eexists. split; [apply in_map_iff; by exists b|]. apply in_map_iff. by exists c.
Qed.

(** [i]-th element of the [k]-th list. *)
Lemma lookup_concat_at {A} (ls : list (list A)) k l m :
  ls !! k = Some l -> (m < length l)%nat -> concat ls !! (length (concat (take k ls)) + m)%nat = l !! m.
Proof.
  revert k. induction ls as [|l0 ls IH]; intros [|k] Hk Hm; try done; cbn in *.
  - injection Hk as ->. by rewrite lookup_app_l.
  - rewrite length_app, lookup_app_r by lia. rewrite <- (IH k) by done. f_equal. lia.
Qed.

Lemma length_concat_take_S {A} (ls : list (list A)) k l :
  ls !! k = Some l -> length (concat (take (S k) ls)) = (length (concat (take k ls)) + length l)%nat.
Proof.
  intros Hk. erewrite take_S_r by done. rewrite concat_app, length_app. cbn. by rewrite app_nil_r.
Qed.

(** ** Addition of binary64 *)

Lemma dadd_comm x y : dadd x y = dadd y x.
Proof.
  unfold dadd. destruct x as [sx|sx| |sx mx ex], y as [sy|sy| |sy my ey]; try done; cbn.
  - by destruct sx, sy.
  - by destruct sx, sy.
  - by rewrite (Z.min_comm ey ex), (Z.add_comm (cond_Zopp sy _)).
Qed.

(** ** The matrix of the network *)

Section Matrix.
Variables (W Lc : double) (numP dimX dimZ : Z).
Hypothesis HP : 0 < numP.
Hypothesis HX : 0 < dimX.
Hypothesis HZ : 0 < dimZ.
#[local] Abbreviation N := (numLayer numP).
#[local] Abbreviation nd := (node dimX dimZ).
#[local] Abbreviation Mx := (Midx W Lc numP dimX dimZ).

Definition in_net (l j i : Z) : Prop := 0 <= l < numLayer numP + 1 /\ 0 <= j < dimZ /\ 0 <= i < dimX.

(** The neighbours with smaller columns, and those with larger ones. *)
Definition lower (l j i : Z) : list entry :=
  neighbour (0 <? l) (nd l j i) (nd (l - 1) j i) (g_vert W Lc numP dimX dimZ l (l - 1)) ++
  neighbour (0 <=? j - 1) (nd l j i) (nd l (j - 1) i) (g_z W Lc dimX dimZ l) ++
  neighbour (0 <=? i - 1) (nd l j i) (nd l j i - 1) (g_x W Lc dimX dimZ l).
Definition upper (l j i : Z) : list entry :=
  neighbour (i + 1 <? dimX) (nd l j i) (nd l j i + 1) (g_x W Lc dimX dimZ l) ++
  neighbour (j + 1 <? dimZ) (nd l j i) (nd l (j + 1) i) (g_z W Lc dimX dimZ l) ++
  neighbour (l <? N) (nd l j i) (nd (l + 1) j i) (g_vert W Lc numP dimX dimZ l (l + 1)).
Definition diag (l j i : Z) : entry := diagonal W Lc dimX dimZ l j i (off_diagonal W Lc numP dimX dimZ l j i).

Lemma elem_of_neighbour e c r k v : e ∈ neighbour c r k v <-> c = true /\ e = mk_entry r k v.
Proof using. unfold neighbour. destruct c; rewrite ?list_elem_of_singleton; [tauto|]. split; [by intros ?%elem_of_nil|by intros []]. Qed.

Lemma elem_of_lower e l j i : e ∈ lower l j i <->
  (0 < l /\ e = mk_entry (nd l j i) (nd (l - 1) j i) (g_vert W Lc numP dimX dimZ l (l - 1))) \/
  (0 <= j - 1 /\ e = mk_entry (nd l j i) (nd l (j - 1) i) (g_z W Lc dimX dimZ l)) \/
  (0 <= i - 1 /\ e = mk_entry (nd l j i) (nd l j (i - 1)) (g_x W Lc dimX dimZ l)).
Proof using.
  unfold lower. rewrite !elem_of_app, !elem_of_neighbour, Z.ltb_lt, !Z.leb_le.
  assert (nd l j i - 1 = nd l j (i - 1)) as -> by (unfold node; lia). tauto.
Qed.

Lemma elem_of_upper e l j i : e ∈ upper l j i <->
  (i + 1 < dimX /\ e = mk_entry (nd l j i) (nd l j (i + 1)) (g_x W Lc dimX dimZ l)) \/
  (j + 1 < dimZ /\ e = mk_entry (nd l j i) (nd l (j + 1) i) (g_z W Lc dimX dimZ l)) \/
  (l < N /\ e = mk_entry (nd l j i) (nd (l + 1) j i) (g_vert W Lc numP dimX dimZ l (l + 1))).
Proof using.
  unfold upper. rewrite !elem_of_app, !elem_of_neighbour, !Z.ltb_lt.
  assert (nd l j i + 1 = nd l j (i + 1)) as -> by (unfold node; lia). tauto.
Qed.

Lemma lower_cols l j i : in_net l j i -> Forall (fun e => e_row e = nd l j i /\ 0 <= e_col e < nd l j i) (lower l j i).
Proof using HX HZ.
  intros (Hl & Hj & Hi). apply Forall_forall. intros e He. apply elem_of_lower in He.
  destruct He as [[H1 ->]|[[H1 ->]|[H1 ->]]]; cbn; unfold node; (split; [done|nia]).
Qed.

Lemma upper_cols l j i : in_net l j i ->
  Forall (fun e => e_row e = nd l j i /\ nd l j i < e_col e < nodes numP dimX dimZ) (upper l j i).
Proof using HX HZ.
  intros (Hl & Hj & Hi). apply Forall_forall. intros e He. apply elem_of_upper in He. unfold nodes.
  destruct He as [[H1 ->]|[[H1 ->]|[H1 ->]]]; cbn; unfold node; (split; [done|]).
  - assert (0 <= j * dimX + (i + 1) < dimX * dimZ) by nia. nia.
  - assert (0 <= (j + 1) * dimX + i < dimX * dimZ) by nia. nia.
  - assert (0 <= j * dimX + i < dimX * dimZ) by nia. nia.
Qed.

Lemma sink_past x us ls : Forall (fun y => e_col x < e_col y) us -> Forall (fun y => e_col y < e_col x) ls ->
  sink x (us ++ ls) = us ++ x :: ls.
Proof using.
  intros Hu Hl. induction Hu as [|u us Hxu Hu IH]; cbn [app sink].
  - destruct Hl as [|y ls Hy Hl]; [done|]. cbn. destruct (Z.gtb_spec (e_col y) (e_col x)); [lia|done].
  - destruct (Z.gtb_spec (e_col u) (e_col x)); [by rewrite IH|lia].
Qed.

(** The loop that moves the diagonal leaves it between the two. *)
Lemma row_split l j i : in_net l j i ->
  row W Lc numP dimX dimZ l j i = lower l j i ++ diag l j i :: upper l j i.
Proof using HX HZ.
  intros Hn. unfold row. fold (diag l j i).
  assert (off_diagonal W Lc numP dimX dimZ l j i = lower l j i ++ upper l j i) as -> by (unfold off_diagonal, lower, upper; by rewrite <- !app_assoc).
  rewrite reverse_app, sink_past.
  - rewrite reverse_app, reverse_cons, !reverse_involutive, <- app_assoc. done.
  - apply Forall_reverse. eapply Forall_impl; [exact (upper_cols l j i Hn)|]. cbn. lia.
  - apply Forall_reverse. eapply Forall_impl; [exact (lower_cols l j i Hn)|]. cbn. lia.
Qed.

Lemma length_row l j i : in_net l j i -> Z.of_nat (length (row W Lc numP dimX dimZ l j i)) = degree numP dimX dimZ l i j + 1.
Proof using HX HZ.
  intros Hn. rewrite row_split by done. rewrite length_app. cbn [length]. unfold lower, upper, degree.
  rewrite !length_app. unfold neighbour, b2z.
  destruct (0 <? l), (0 <=? j - 1), (0 <=? i - 1), (i + 1 <? dimX), (j + 1 <? dimZ), (l <? N); cbn; lia.
Qed.

Lemma elem_of_nodes l j i : (l, j, i) ∈ all_nodes numP dimX dimZ <-> in_net l j i.
Proof using.
  unfold all_nodes, in_net. rewrite elem_of_grid. split; [intros (?&?&?&?&?&?&[= -> -> ->]); lia|].
  intros (?&?&?). by exists l, j, i.
Qed.

(** The nodes are numbered in the order of the loops. *)
Lemma nodes_in_order : map (fun p => nd p.1.1 p.1.2 p.2) (all_nodes numP dimX dimZ) = zrange 0 (Z.to_nat (nodes numP dimX dimZ)).
Proof using HP HX HZ.
  unfold all_nodes, zs, nodes. rewrite concat_map, map_map.
  transitivity (concat (map (fun l => zrange (0 + l * (dimX * dimZ)) (Z.to_nat (dimX * dimZ))) (zrange 0 (Z.to_nat (N + 1))))).
  - f_equal. apply map_ext. intros l. rewrite concat_map, map_map.
    transitivity (concat (map (fun j => zrange (l * (dimX * dimZ) + j * dimX) (Z.to_nat dimX)) (zrange 0 (Z.to_nat dimZ)))).
    + f_equal. apply map_ext. intros j. rewrite map_map. cbn.
      transitivity (map (fun i => (l * (dimX * dimZ) + j * dimX) + i) (zrange 0 (Z.to_nat dimX))).
      * apply map_ext. intros i. unfold node. lia.
      * rewrite map_zrange_add. f_equal. lia.
    + rewrite zrange_tiles by lia. rewrite Z2Nat.id by lia. f_equal; lia.
  - rewrite zrange_tiles by nia. unfold numLayer. rewrite Z2Nat.id by lia. f_equal. lia.
Qed.

Lemma nodes_at c p : all_nodes numP dimX dimZ !! c = Some p ->
  in_net p.1.1 p.1.2 p.2 /\ nd p.1.1 p.1.2 p.2 = Z.of_nat c.
Proof using HP HX HZ.
  intros Hp. destruct p as [[l j] i]. split; [by apply elem_of_nodes, list_elem_of_lookup_2 with c|].
  assert (Hm : map (fun p => nd p.1.1 p.1.2 p.2) (all_nodes numP dimX dimZ) !! c = Some (nd l j i)) by (rewrite list_lookup_fmap, Hp; done).
  rewrite nodes_in_order in Hm. apply lookup_seqZ in Hm as [Hm _]. cbn. lia.
Qed.

Lemma length_nodes : Z.of_nat (length (all_nodes numP dimX dimZ)) = nodes numP dimX dimZ.
Proof using HP HX HZ.
  rewrite <- (length_map (fun p => nd p.1.1 p.1.2 p.2)), nodes_in_order, length_zrange.
  unfold nodes, numLayer. nia.
Qed.

Lemma sum_over_nodes (f : Z -> Z -> Z -> Z) :
  sum (map (fun p => f p.1.1 p.1.2 p.2) (all_nodes numP dimX dimZ))
  = sum (map (fun l => sum (map (fun i => sum (map (fun j => f l j i) (zs dimZ))) (zs dimX))) (zs (N + 1))).
Proof using.
  assert (Hc : forall {A} (g : A -> Z) (ls : list (list A)), sum (map g (concat ls)) = sum (map (fun l => sum (map g l)) ls)).
  { intros A g ls. induction ls as [|l ls IH]; [done|]. cbn [concat map]. rewrite map_app, sum_app, IH. done. }
  unfold all_nodes. rewrite Hc, map_map. apply sum_ext. intros l. rewrite Hc, map_map, sum_exchange.
  apply sum_ext. intros j. rewrite map_map. done.
Qed.

(** The entries that are counted first are those that are written. *)
Lemma length_Midx : Z.of_nat (length Mx) = MidxSize numP dimX dimZ.
Proof using HP HX HZ.
  unfold Midx. rewrite length_concat_sum, map_map.
  transitivity (sum (map (fun p => degree numP dimX dimZ p.1.1 p.2 p.1.2 + 1) (all_nodes numP dimX dimZ))).
  - f_equal. apply map_ext_in. intros [[l j] i] Hp. apply list_elem_of_In, elem_of_nodes in Hp. by apply length_row.
  - rewrite (sum_map_add (fun p => degree numP dimX dimZ p.1.1 p.2 p.1.2) (fun _ => 1)), sum_const, length_nodes.
    rewrite (sum_over_nodes (fun l j i => degree numP dimX dimZ l i j)). unfold MidxSize, nodes. lia.
Qed.

(** The order of the array: by rows, and by columns in a row. *)
Definition entry_lt (e e' : entry) : Prop := e_row e < e_row e' \/ (e_row e = e_row e' /\ e_col e < e_col e').

Lemma row_entries e p : in_net p.1.1 p.1.2 p.2 -> e ∈ row W Lc numP dimX dimZ p.1.1 p.1.2 p.2 ->
  e_row e = nd p.1.1 p.1.2 p.2 /\ 0 <= e_col e < nodes numP dimX dimZ.
Proof using HX HZ.
  destruct p as [[l j] i]. cbn. intros Hn He. rewrite row_split in He by done.
  pose proof (lower_cols l j i Hn) as Hl. pose proof (upper_cols l j i Hn) as Hu. rewrite Forall_forall in Hl, Hu.
  assert (0 <= nd l j i < nodes numP dimX dimZ).
  { destruct Hn as (?&?&?). unfold node, nodes. assert (0 <= j * dimX + i < dimX * dimZ) by nia. nia. }
  apply elem_of_app in He as [He|He]; [apply Hl in He; lia|].
  apply elem_of_cons in He as [->|He]; [done|apply Hu in He; lia].
Qed.

Lemma row_sorted l j i : in_net l j i -> StronglySorted entry_lt (row W Lc numP dimX dimZ l j i).
Proof using HX HZ.
  intros Hn. rewrite row_split by done. pose proof (lower_cols l j i Hn) as Hl. pose proof (upper_cols l j i Hn) as Hu.
  destruct Hn as (Hl' & Hj & Hi). rewrite Forall_forall in Hl, Hu.
  assert (Hd : forall e, e ∈ lower l j i -> entry_lt e (diag l j i)) by (intros e He; right; apply Hl in He; cbn; lia).
  assert (Hd' : forall e, e ∈ upper l j i -> entry_lt (diag l j i) e) by (intros e He; right; apply Hu in He; cbn; lia).
  assert (Hn1 : forall c r k v, StronglySorted entry_lt (neighbour c r k v)) by (intros [] ? ? ?; repeat constructor).
  apply StronglySorted_app. split_and!.
  - intros x y Hx Hy. apply elem_of_cons in Hy as [->|Hy]; [by apply Hd|]. right. apply Hl in Hx. apply Hu in Hy. lia.
  - unfold lower. apply StronglySorted_app. split_and!; [|done|apply StronglySorted_app; split_and!; try done].
    + intros x y Hx Hy. apply elem_of_app in Hy as [Hy|Hy]; apply elem_of_neighbour in Hx as [Hx ->], Hy as [Hy ->];
        right; cbn; zb; unfold node; (split; [done|nia]).
    + intros x y Hx Hy. apply elem_of_neighbour in Hx as [Hx ->], Hy as [Hy ->]. right; cbn; zb; unfold node; (split; [done|nia]).
  - apply StronglySorted_cons. split; [by apply Forall_forall|].
    unfold upper. apply StronglySorted_app. split_and!; [|done|apply StronglySorted_app; split_and!; try done].
    + intros x y Hx Hy. apply elem_of_app in Hy as [Hy|Hy]; apply elem_of_neighbour in Hx as [Hx ->], Hy as [Hy ->];
        right; cbn; zb; unfold node; (split; [done|nia]).
    + intros x y Hx Hy. apply elem_of_neighbour in Hx as [Hx ->], Hy as [Hy ->]. right; cbn; zb; unfold node; (split; [done|nia]).
Qed.

Lemma Midx_sorted : StronglySorted entry_lt Mx.
Proof using HP HX HZ.
  unfold Midx. apply (sorted_concat _ _ (fun p => nd p.1.1 p.1.2 p.2)).
  - intros [[l j] i] Hp. by apply row_sorted, elem_of_nodes.
  - intros [[l j] i] [[l' j'] i'] x y Hp Hq Hlt Hx Hy. apply elem_of_nodes in Hp, Hq.
    apply row_entries in Hx; [|done]. apply row_entries in Hy; [|done]. left. lia.
  - rewrite nodes_in_order. apply zrange_sorted.
Qed.

Lemma elem_of_Midx e : e ∈ Mx <-> exists l j i, in_net l j i /\ e ∈ row W Lc numP dimX dimZ l j i.
Proof using HX HZ.
  unfold Midx. rewrite list_elem_of_In, in_concat. split.
  - intros (r & Hr & He). apply in_map_iff in Hr as ([[l j] i] & <- & Hp). exists l, j, i.
    split; [by apply elem_of_nodes, list_elem_of_In|by apply list_elem_of_In].
  - intros (l & j & i & Hn & He). exists (row W Lc numP dimX dimZ l j i). split; [|by apply list_elem_of_In].
    apply in_map_iff. exists (l, j, i). split; [done|]. by apply list_elem_of_In, elem_of_nodes.
Qed.

Lemma g_vert_sym l l' : g_vert W Lc numP dimX dimZ l l' = g_vert W Lc numP dimX dimZ l' l.
Proof using. unfold g_vert. by rewrite dadd_comm. Qed.

(** The network is symmetric: what a node gives to a neighbour, it gets from it. *)
Lemma Midx_symmetric r c v : mk_entry r c v ∈ Mx -> mk_entry c r v ∈ Mx.
Proof using HX HZ.
  rewrite !elem_of_Midx. intros (l & j & i & Hn & He). rewrite row_split in He by done.
  pose proof Hn as (Hl & Hj & Hi).
  assert (Hup : forall l' j' i' e, in_net l' j' i' -> e ∈ upper l' j' i' -> e ∈ row W Lc numP dimX dimZ l' j' i').
  { intros l' j' i' e Hn' He'. rewrite row_split by done. apply elem_of_app. right. by right. }
  assert (Hlo : forall l' j' i' e, in_net l' j' i' -> e ∈ lower l' j' i' -> e ∈ row W Lc numP dimX dimZ l' j' i').
  { intros l' j' i' e Hn' He'. rewrite row_split by done. apply elem_of_app. by left. }
  rewrite elem_of_app, elem_of_cons, elem_of_lower, elem_of_upper in He. unfold in_net in *.
  destruct He as [[[H1 E]|[[H1 E]|[H1 E]]]|[E|[[H1 E]|[[H1 E]|[H1 E]]]]];
    [injection E as -> -> ->|injection E as -> -> ->|injection E as -> -> ->|
    |injection E as -> -> ->|injection E as -> -> ->|injection E as -> -> ->].
  - exists (l - 1), j, i. split; [lia|]. apply Hup; [lia|]. apply elem_of_upper. right. right. split; [lia|].
    rewrite g_vert_sym. by replace (l - 1 + 1) with l by lia.
  - exists l, (j - 1), i. split; [lia|]. apply Hup; [lia|]. apply elem_of_upper. right. left. split; [lia|].
    by replace (j - 1 + 1) with j by lia.
  - exists l, j, (i - 1). split; [lia|]. apply Hup; [lia|]. apply elem_of_upper. left. split; [lia|].
    by replace (i - 1 + 1) with i by lia.
  - assert (r = nd l j i) as Hr by exact (f_equal e_row E). assert (c = nd l j i) as Hc by exact (f_equal e_col E).
    exists l, j, i. split; [done|]. subst r c. rewrite E, row_split by done.
    apply elem_of_app. right. left.
  - exists l, j, (i + 1). split; [lia|]. apply Hlo; [lia|]. apply elem_of_lower. right. right. split; [lia|].
    by replace (i + 1 - 1) with i by lia.
  - exists l, (j + 1), i. split; [lia|]. apply Hlo; [lia|]. apply elem_of_lower. right. left. split; [lia|].
    by replace (j + 1 - 1) with j by lia.
  - exists (l + 1), j, i. split; [lia|]. apply Hlo; [lia|]. apply elem_of_lower. left. split; [lia|].
    rewrite g_vert_sym. by replace (l + 1 - 1) with l by lia.
Qed.

End Matrix.

(** ** The arrays for SuperLU *)

(** The entries of a matrix by compressed columns: values, rows, starts of the
    columns. *)
Definition ccs_entry (vals : list double) (asub : list Z) (xa : list (option Z)) (r c : Z) (v : double) : Prop :=
  exists a b k, zlookup xa c = Some (Some a) /\ zlookup xa (c + 1) = Some (Some b) /\ a <= k < b /\
    zlookup asub k = Some r /\ zlookup vals k = Some v.

Fixpoint starts (i : Z) (rows : list (list entry)) : list (option Z) :=
  match rows with
  | [] => []
  | r :: rs => Some i :: starts (i + Z.of_nat (length r)) rs
  end.

Lemma row_starts_same es es' i r xa : Forall (fun e => e_row e = r) es ->
  row_starts (es ++ es') i r xa = row_starts es' (i + Z.of_nat (length es)) r xa.
Proof.
  intros Hr. revert i. induction Hr as [|e es He Hr IH]; intros i; cbn [app row_starts length]; [f_equal; lia|].
  rewrite He. destruct (Z.gtb_spec r r); [lia|]. rewrite IH. f_equal. lia.
Qed.

Lemma row_starts_rows rows suf pre i :
  (forall k row, rows !! k = Some row -> row <> [] /\ Forall (fun e => e_row e = Z.of_nat (length pre + k)) row) ->
  row_starts (concat rows) i (Z.of_nat (length pre) - 1) (pre ++ replicate (length rows) None ++ suf)
  = Done (Z.of_nat (length pre + length rows) - 1, pre ++ starts i rows ++ suf).
Proof.
  revert pre i. induction rows as [|row rows IH]; intros pre i Hrows.
  { cbn. by rewrite Nat.add_0_r. }
  destruct (Hrows 0%nat row eq_refl) as [Hne Hr]. rewrite Nat.add_0_r in Hr.
  destruct row as [|e es]; [done|]. apply Forall_cons in Hr as [He Hr]. cbn [concat app row_starts].
  destruct (Z.gtb_spec (e_row e) (Z.of_nat (length pre) - 1)); [|lia].
  rewrite He, vset_in_range by (rewrite !length_app, length_replicate; cbn; lia). cbn [mbind outcome_bind].
  unfold zinsert. rewrite decide_True, Nat2Z.id by lia. cbn [length replicate app].
  rewrite insert_app_r_alt, Nat.sub_diag by lia. cbn [list_insert insert].
  rewrite row_starts_same by done.
  specialize (IH (pre ++ [Some i]) (i + 1 + Z.of_nat (length es))).
  rewrite length_app in IH. cbn [length] in IH. rewrite <- !app_assoc in IH. cbn [app] in IH.
  replace (Z.of_nat (length pre)) with (Z.of_nat (length pre + 1) - 1) by lia.
  rewrite IH.
  - cbn [starts length]. replace (i + Z.of_nat (S (length es))) with (i + 1 + Z.of_nat (length es)) by lia.
    by replace (length pre + 1 + length rows)%nat with (length pre + S (length rows))%nat by lia.
  - intros k row Hk. destruct (Hrows (S k) row Hk) as [Hn Hf]. split; [done|]. eapply Forall_impl; [exact Hf|]. cbn. lia.
Qed.

Lemma lookup_starts rows i k : (k < length rows)%nat ->
  starts i rows !! k = Some (Some (i + Z.of_nat (length (concat (take k rows))))).
Proof.
  revert i k. induction rows as [|r rs IH]; intros i [|k] Hk; cbn in *; try lia; [do 2 f_equal; lia|].
  rewrite IH by lia. rewrite length_app. do 2 f_equal. lia.
Qed.

Lemma length_starts i rows : length (starts i rows) = length rows.
Proof. revert i. induction rows as [|r rs IH]; intros i; cbn; [done|]. by rewrite IH. Qed.

Section Arrays.
Variables (W Lc : double) (numP dimX dimZ : Z).
Hypothesis HP : 0 < numP.
Hypothesis HX : 0 < dimX.
Hypothesis HZ : 0 < dimZ.
#[local] Abbreviation Mx := (Midx W Lc numP dimX dimZ).
#[local] Abbreviation rows := (map (fun p => row W Lc numP dimX dimZ p.1.1 p.1.2 p.2) (all_nodes numP dimX dimZ)).

Lemma row_at c r : rows !! c = Some r ->
  exists l j i, in_net numP dimX dimZ l j i /\ node dimX dimZ l j i = Z.of_nat c /\ r = row W Lc numP dimX dimZ l j i.
Proof using HP HX HZ.
  intros Hr. apply list_lookup_fmap_Some in Hr as ([[l j] i] & -> & Hp). apply nodes_at in Hp as [Hn Hc]; [|done..].
  by exists l, j, i.
Qed.

(** [xa] holds the place where each row starts, and behind the last row the number of
    entries. *)
Lemma build_xa_rows : exists xa, build_xa numP dimX dimZ Mx (MidxSize numP dimX dimZ) = Done xa /\
  length xa = S (length rows) /\
  forall k, (k <= length rows)%nat -> zlookup xa (Z.of_nat k) = Some (Some (Z.of_nat (length (concat (take k rows))))).
Proof using HP HX HZ.
  pose proof (length_nodes numP dimX dimZ HP HX HZ) as Hlen.
  assert (Hlr : Z.of_nat (length rows) = nodes numP dimX dimZ) by (rewrite length_map; done).
  pose proof (row_starts_rows rows [None] [] 0) as Hs. cbn [length app] in Hs. change (Z.of_nat 0 - 1) with (-1) in Hs.
  unfold build_xa. replace (Z.to_nat (nodes numP dimX dimZ + 1)) with (length rows + 1)%nat by lia.
  rewrite replicate_add. cbn [replicate]. unfold Midx. rewrite Hs; clear Hs.
  - cbn [mbind outcome_bind fst snd]. rewrite vset_in_range by (rewrite length_app, length_starts; cbn; lia).
    eexists. split_and!; [reflexivity|rewrite length_zinsert, length_app, length_starts; cbn; lia|].
    intros k Hk. unfold zinsert.
    replace (Z.of_nat (0 + length rows) - 1 + 1) with (Z.of_nat (length rows)) by lia.
    rewrite decide_True, Nat2Z.id, zlookup_nat by lia.
    rewrite insert_app_r_alt, length_starts, Nat.sub_diag by (rewrite length_starts; lia). cbn [list_insert insert].
    destruct (decide (k = length rows)) as [->|Hne].
    + rewrite lookup_app_r by (rewrite length_starts; lia). rewrite length_starts, Nat.sub_diag, firstn_all. cbn.
      by rewrite <- (length_Midx W Lc) by done.
    + rewrite lookup_app_l by (rewrite length_starts; lia). rewrite lookup_starts by lia. done.
  - intros k r Hr. apply row_at in Hr as (l & j & i & Hn & Hk & ->). split.
    + rewrite row_split by done. by destruct (lower _ _ _ _ _ _ _ _).
    + apply Forall_forall. intros e He. cbn [Nat.add]. rewrite <- Hk.
      by apply (row_entries W Lc numP dimX dimZ HX HZ e (l, j, i)).
Qed.

Lemma ccs_of_rows xa r c v :
  (forall k, (k <= length rows)%nat -> zlookup xa (Z.of_nat k) = Some (Some (Z.of_nat (length (concat (take k rows)))))) ->
  (forall k, zlookup xa k <> None -> k <= Z.of_nat (length rows)) ->
  ccs_entry (map e_val Mx) (map e_col Mx) xa r c v <-> mk_entry c r v ∈ Mx.
Proof using HP HX HZ.
  intros Hxa Hbound. split.
  - intros (a & b & k & Ha & Hb & Hk & Hr & Hv).
    pose proof (zlookup_Some_range _ _ _ Ha) as Hc. apply zlookup_Some_range in Hr as Hrk.
    assert (Hc1 : c + 1 <= Z.of_nat (length rows)) by (apply Hbound; congruence).
    destruct (lookup_lt_is_Some_2 rows (Z.to_nat c)) as [row Hrow]; [lia|].
    pose proof (Hxa (Z.to_nat c) ltac:(lia)) as Ha'. rewrite Z2Nat.id, Ha in Ha' by lia. injection Ha' as ->.
    pose proof (Hxa (S (Z.to_nat c)) ltac:(lia)) as Hb'. rewrite Nat2Z.inj_succ, Z2Nat.id in Hb' by lia.
    replace (Z.succ c) with (c + 1) in Hb' by lia. rewrite Hb in Hb'. injection Hb' as ->.
    rewrite (length_concat_take_S _ _ row) in Hk by done.
    set (off := length (concat (take (Z.to_nat c) rows))) in *.
    assert (exists m, k = Z.of_nat (off + m)%nat) as [m ->] by (exists (Z.to_nat k - off)%nat; lia).
    rewrite zlookup_nat in Hr. rewrite zlookup_nat in Hv. apply list_lookup_fmap_Some in Hr as (e & -> & Hr), Hv as (e' & -> & Hv).
    rewrite Hr in Hv. injection Hv as <-.
    assert (He : row !! m = Some e) by (rewrite <- Hr; symmetry; apply (lookup_concat_at rows); [done|lia]).
    apply row_at in Hrow as (l & j & i & Hn & Hcn & ->).
    assert (Hrow : e_row e = c).
    { apply list_elem_of_lookup_2 in He. apply (row_entries W Lc numP dimX dimZ HX HZ e (l, j, i)) in He as [He _]; [|done].
      cbn in He. lia. }
    rewrite <- Hrow. destruct e as [er ec ev]. cbn. by apply list_elem_of_lookup_2 in Hr.
  - intros He. apply elem_of_Midx in He as (l & j & i & Hn & He); [|done..].
    assert (Hp : (l, j, i) ∈ all_nodes numP dimX dimZ) by (by apply elem_of_nodes).
    apply list_elem_of_lookup in Hp as [n Hp]. apply list_elem_of_lookup in He as [m He].
    assert (Hrow : rows !! n = Some (row W Lc numP dimX dimZ l j i)) by (rewrite list_lookup_fmap, Hp; done).
    destruct (nodes_at numP dimX dimZ HP HX HZ n _ Hp) as [_ Hcn]. cbn in Hcn.
    assert (Hc : c = Z.of_nat n).
    { apply list_elem_of_lookup_2 in He as He'. apply (row_entries W Lc numP dimX dimZ HX HZ _ (l, j, i)) in He' as [He' _]; [|done].
      cbn in He'. lia. }
    apply lookup_lt_Some in Hrow as Hlt. apply lookup_lt_Some in He as Hm.
    set (off := length (concat (take n rows))).
    assert (Hat : Mx !! (off + m)%nat = Some (mk_entry c r v)) by (rewrite <- He; by apply (lookup_concat_at rows)).
    exists (Z.of_nat off), (Z.of_nat (length (concat (take (S n) rows)))), (Z.of_nat (off + m)). split_and!.
    + rewrite Hc. apply Hxa. lia.
    + rewrite Hc. replace (Z.of_nat n + 1) with (Z.of_nat (S n)) by lia. apply Hxa. lia.
    + lia.
    + rewrite (length_concat_take_S _ _ _ Hrow). fold off. lia.
    + by rewrite zlookup_nat, list_lookup_fmap, Hat.
    + by rewrite zlookup_nat, list_lookup_fmap, Hat.
Qed.

(** What SuperLU reads from the arrays is the matrix of the network. *)
Lemma build_xa_matrix : exists xa, build_xa numP dimX dimZ Mx (MidxSize numP dimX dimZ) = Done xa /\
  forall r c v, ccs_entry (map e_val Mx) (map e_col Mx) xa r c v <-> mk_entry r c v ∈ Mx.
Proof using HP HX HZ.
  destruct build_xa_rows as (xa & Hxa & Hl & Hat). exists xa. split; [done|]. intros r c v.
  rewrite ccs_of_rows; [split; by apply Midx_symmetric|done|].
  intros k Hk. destruct (zlookup xa k) eqn:E; [|done]. apply zlookup_Some_range in E. lia.
Qed.

End Arrays.

(** ** The right-hand sides *)

Section Rhs.
Variables (W Lc : double) (numP dimX dimZ : Z).
Hypothesis HP : 0 < numP.
Hypothesis HX : 0 < dimX.
Hypothesis HZ : 0 < dimZ.

(** The power of the cell [(i, j)] of tier [l]. *)
Definition has_powers (powerM : matrix3) (pw : Z -> Z -> Z -> double) : Prop :=
  forall l i j, 0 <= l < numP -> 0 <= i < dimX -> 0 <= j < dimZ -> power_at powerM i j l = Done (pw i j l).

(** What a place of layer [l] holds: the heat sink, an active layer, another layer. *)
Definition rhs_value (Tamb : double) (pw : Z -> double) (l : Z) : double :=
  if l =? 0 then ddiv Tamb (Ramb W Lc dimX dimZ)
  else if Z.rem (l - 1) 3 =? 0 then pw (Z.quot (l - 1) 3) else d0.

Lemma fill_cells (idx : Z -> Z -> Z -> Z) powerM (pw : Z * Z * Z -> double) cells v :
  (forall p, p ∈ cells -> power_at powerM p.1.2 p.2 p.1.1 = Done (pw p)) ->
  (forall p, p ∈ cells -> 0 <= idx p.1.1 p.1.2 p.2 < Z.of_nat (length v)) ->
  (forall p q, p ∈ cells -> q ∈ cells -> idx p.1.1 p.1.2 p.2 = idx q.1.1 q.1.2 q.2 -> p = q) ->
  exists v', fill idx cells powerM v = Done v' /\ length v' = length v /\
    (forall p, p ∈ cells -> zlookup v' (idx p.1.1 p.1.2 p.2) = Some (pw p)) /\
    (forall k, (forall p, p ∈ cells -> idx p.1.1 p.1.2 p.2 <> k) -> zlookup v' k = zlookup v k).
Proof using.
  unfold fill. revert v. induction cells as [|p cells IH]; intros v Hpw Hin Hinj.
  { exists v. split_and!; try done. by intros p Hp%elem_of_nil. }
  cbn [foldl]. unfold fill1 at 2. cbn [mbind outcome_bind].
  rewrite Hpw by left. cbn [mbind outcome_bind]. rewrite vset_in_range by (apply Hin; left).
  destruct (IH (zinsert (idx p.1.1 p.1.2 p.2) (pw p) v)) as (v' & E & Hl & Hp & Hk).
  { intros q Hq. apply Hpw. by right. }
  { intros q Hq. rewrite length_zinsert. apply Hin. by right. }
  { intros q q' Hq Hq'. apply Hinj; by right. }
  rewrite length_zinsert in Hl. exists v'. split_and!; [done|done| |].
  - intros q Hq. destruct (decide (q ∈ cells)) as [Hc|Hc]; [by apply Hp|].
    apply elem_of_cons in Hq as [->|Hq]; [|done].
    rewrite Hk; [apply zlookup_zinsert_eq, Hin; left|].
    intros q Hq Heq. apply Hc. rewrite <- (Hinj q p); [done|by right|left|done].
  - intros k Hne. rewrite Hk by (intros q Hq; apply Hne; by right).
    apply zlookup_zinsert_ne. apply Hne. left.
Qed.

Lemma fill_ext idx idx' cells powerM v : (forall l i j, idx l i j = idx' l i j) -> fill idx cells powerM v = fill idx' cells powerM v.
Proof using.
  intros He. unfold fill. generalize (Done v). induction cells as [|p cells IH]; intros o; [done|]. cbn [foldl].
  rewrite IH. f_equal. unfold fill1. by rewrite He.
Qed.

Lemma sink_rhs_at Tamb k : 0 <= k < nodes numP dimX dimZ ->
  zlookup (sink_rhs W Lc numP dimX dimZ Tamb) k
  = Some (if k <? layer_nodes dimX dimZ then ddiv Tamb (Ramb W Lc dimX dimZ) else d0).
Proof using.
  intros Hk. unfold sink_rhs, zs, zlookup. rewrite decide_True, list_lookup_fmap by lia.
  assert (zrange 0 (Z.to_nat (nodes numP dimX dimZ)) !! Z.to_nat k = Some k) as -> by (apply lookup_seqZ; lia). done.
Qed.

Lemma length_sink_rhs Tamb : length (sink_rhs W Lc numP dimX dimZ Tamb) = Z.to_nat (nodes numP dimX dimZ).
Proof using. unfold sink_rhs, zs. by rewrite length_map, length_zrange. Qed.

(** Both solvers: cells in some order, with a numbering of the cells of a layer. *)
Lemma fill_layers (cells : list (Z * Z * Z)) (num : Z -> Z -> Z) powerM pw Tamb :
  (forall l i j, (l, i, j) ∈ cells <-> 0 <= l < numP /\ 0 <= i < dimX /\ 0 <= j < dimZ) ->
  (forall i j, 0 <= i < dimX -> 0 <= j < dimZ -> 0 <= num i j < layer_nodes dimX dimZ) ->
  (forall i j i' j', 0 <= i < dimX -> 0 <= j < dimZ -> 0 <= i' < dimX -> 0 <= j' < dimZ -> num i j = num i' j' -> i = i' /\ j = j') ->
  has_powers powerM pw ->
  exists v, fill (fun l i j => dimX * dimZ * (l * 3 + 1) + num i j) cells powerM (sink_rhs W Lc numP dimX dimZ Tamb) = Done v /\
    length v = Z.to_nat (nodes numP dimX dimZ) /\
    forall l i j, 0 <= l < numP * 3 + 1 -> 0 <= i < dimX -> 0 <= j < dimZ ->
      zlookup v (l * layer_nodes dimX dimZ + num i j) = Some (rhs_value Tamb (pw i j) l).
Proof using HP HX HZ.
  intros Hcells Hnum Hinj Hpw. unfold layer_nodes in *. assert (Hpos : 0 < dimX * dimZ) by nia.
  destruct (fill_cells (fun l i j => dimX * dimZ * (l * 3 + 1) + num i j) powerM (fun p => pw p.1.2 p.2 p.1.1) cells
    (sink_rhs W Lc numP dimX dimZ Tamb)) as (v & E & Hl & Hp & Hk).
  { intros [[l i] j] (?&?&?)%Hcells. by apply Hpw. }
  { intros [[l i] j] (?&?&?)%Hcells. cbn. pose proof (Hnum i j ltac:(lia) ltac:(lia)).
    rewrite length_sink_rhs. unfold nodes, numLayer. nia. }
  { intros [[l i] j] [[l' i'] j'] (?&?&?)%Hcells (?&?&?)%Hcells. cbn. intros Heq.
    pose proof (Hnum i j ltac:(lia) ltac:(lia)). pose proof (Hnum i' j' ltac:(lia) ltac:(lia)).
    assert (l * 3 + 1 = l' * 3 + 1) by (apply (Z.div_mod_unique (dimX * dimZ) _ _ (num i j) (num i' j')); lia).
    assert (l = l') as -> by lia. destruct (Hinj i j i' j') as [-> ->]; try lia. done. }
  rewrite length_sink_rhs in Hl. exists v. split_and!; [done|done|]. intros l i j Hll Hi Hj.
  pose proof (Hnum i j Hi Hj) as Hn. unfold rhs_value.
  destruct (Z.eqb_spec l 0) as [->|Hl0].
  - rewrite Hk, sink_rhs_at; [|unfold nodes, numLayer; nia|].
    + unfold layer_nodes. destruct (Z.ltb_spec (0 * (dimX * dimZ) + num i j) (dimX * dimZ)); [done|lia].
    + intros [[l' i'] j'] (?&?&?)%Hcells. cbn. pose proof (Hnum i' j' ltac:(lia) ltac:(lia)). nia.
  - rewrite Z.rem_mod_nonneg, Z.quot_div_nonneg by lia. pose proof (Z.div_mod (l - 1) 3 ltac:(lia)).
    pose proof (Z.mod_pos_bound (l - 1) 3 ltac:(lia)).
    destruct (Z.eqb_spec ((l - 1) mod 3) 0) as [Hm0|Hm0].
    + replace (l * (dimX * dimZ) + num i j) with (dimX * dimZ * ((l - 1) / 3 * 3 + 1) + num i j) by lia.
      apply (Hp ((l - 1) / 3, i, j)). apply Hcells. lia.
    + rewrite Hk, sink_rhs_at; [|unfold nodes, numLayer; nia|].
      * unfold layer_nodes. destruct (Z.ltb_spec (l * (dimX * dimZ) + num i j) (dimX * dimZ)); [nia|done].
      * intros [[l' i'] j'] (?&?&?)%Hcells. cbn. pose proof (Hnum i' j' ltac:(lia) ltac:(lia)). intros Heq.
        assert (l' * 3 + 1 = l) by (apply (Z.div_mod_unique (dimX * dimZ) _ _ (num i' j') (num i j)); lia).
        assert (l - 1 = 3 * l') as Hm by lia. rewrite Hm, Z.mul_comm, Z.mod_mul in Hm0 by lia. done.
Qed.

Lemma elem_of_steady_cells l i j : (l, i, j) ∈ steady_cells numP dimX dimZ <-> 0 <= l < numP /\ 0 <= i < dimX /\ 0 <= j < dimZ.
Proof using.
  unfold steady_cells. rewrite elem_of_grid. split; [intros (?&?&?&?&?&?&[= -> -> ->]); lia|].
  intros (?&?&?). by exists l, i, j.
Qed.

Lemma elem_of_transient_cells l i j : (l, i, j) ∈ transient_cells numP dimX dimZ <-> 0 <= l < numP /\ 0 <= i < dimX /\ 0 <= j < dimZ.
Proof using.
  unfold transient_cells. rewrite elem_of_grid. split; [intros (?&?&?&?&?&?&[= -> -> ->]); lia|].
  intros (?&?&?). by exists l, j, i.
Qed.

End Rhs.

(** ** The time steps *)

Section Euler.
Variables (W Lc : double) (numP dimX dimZ : Z).
Hypothesis HP : 0 < numP.
Hypothesis HX : 0 < dimX.
Hypothesis HZ : 0 < dimZ.
#[local] Abbreviation Mx := (Midx W Lc numP dimX dimZ).
#[local] Abbreviation nd := (node dimX dimZ).
#[local] Abbreviation NN := (nodes numP dimX dimZ).

Definition at_ (l : list double) (i : Z) : double := default d0 (zlookup l i).

(** The contribution of an entry of the matrix to the new temperature of its row. *)
Definition euler_term (dt : double) (Cap Tp P : list double) (t : double) (e : entry) : double :=
  let c := at_ Cap (Z.quot (e_row e) (layer_nodes dimX dimZ)) in
  if e_row e =? e_col e then
    dadd t (dadd (dmul (dsub one (ddiv (dmul (e_val e) dt) c)) (at_ Tp (e_col e))) (ddiv (dmul (at_ P (e_row e)) dt) c))
  else dsub t (ddiv (dmul (dmul (e_val e) (at_ Tp (e_col e))) dt) c).

(** One step, node by node: the new temperature of a node is the sum over its row. *)
Definition euler_step (dt : double) (Cap P Tp : list double) : list double :=
  map (fun p => foldl (euler_term dt Cap Tp P) d0 (row W Lc numP dimX dimZ p.1.1 p.1.2 p.2)) (all_nodes numP dimX dimZ).

Lemma vget_at (l : list double) i : 0 <= i < Z.of_nat (length l) -> vget l i = Done (at_ l i).
Proof using. intros Hi. apply vget_Done. unfold at_. by destruct (zlookup_in_range l i Hi) as [x ->]. Qed.

Definition in_matrix (e : entry) : Prop := 0 <= e_row e < NN /\ 0 <= e_col e < NN.

Lemma layer_of_row r : 0 <= r < NN -> 0 <= Z.quot r (layer_nodes dimX dimZ) < numLayer numP + 1.
Proof using HP HX HZ.
  unfold nodes, layer_nodes. intros Hr. rewrite Z.quot_div_nonneg by nia. split; [apply Z.div_pos; nia|].
  apply Z.div_lt_upper_bound; nia.
Qed.

Lemma filter_rows p ps : NoDup (map (fun p => nd p.1.1 p.1.2 p.2) ps) -> p ∈ ps ->
  (forall q, q ∈ ps -> in_net numP dimX dimZ q.1.1 q.1.2 q.2) ->
  filter (fun e => e_row e = nd p.1.1 p.1.2 p.2) (concat (map (fun p => row W Lc numP dimX dimZ p.1.1 p.1.2 p.2) ps))
  = row W Lc numP dimX dimZ p.1.1 p.1.2 p.2.
Proof using HX HZ.
  assert (Hall : forall q, in_net numP dimX dimZ q.1.1 q.1.2 q.2 ->
    Forall (fun e => e_row e = nd q.1.1 q.1.2 q.2) (row W Lc numP dimX dimZ q.1.1 q.1.2 q.2)).
  { intros q Hq. apply Forall_forall. intros e He. by apply row_entries in He as [He _]. }
  assert (Hnone : forall k qs, k ∉ map (fun p => nd p.1.1 p.1.2 p.2) qs ->
    (forall q, q ∈ qs -> in_net numP dimX dimZ q.1.1 q.1.2 q.2) ->
    filter (fun e => e_row e = k) (concat (map (fun p => row W Lc numP dimX dimZ p.1.1 p.1.2 p.2) qs)) = []).
  { intros k qs Hk Hqs. induction qs as [|q qs IH]; [done|]. cbn [map concat] in *. apply not_elem_of_cons in Hk as [Hk Hk'].
    rewrite filter_app, IH, app_nil_r; [|done|intros q' Hq'; apply Hqs; by right].
    apply filter_none. eapply Forall_impl; [apply Hall, Hqs; left|]; cbn; congruence. }
  intros Hnd Hp Hqs. induction ps as [|q ps IH]; [by apply elem_of_nil in Hp|].
  cbn [map concat] in *. apply NoDup_cons in Hnd as [Hq Hnd]. rewrite filter_app.
  destruct (decide (nd p.1.1 p.1.2 p.2 = nd q.1.1 q.1.2 q.2)) as [He|He].
  - assert (p = q) as ->.
    { apply elem_of_cons in Hp as [->|Hp]; [done|]. exfalso. apply Hq. rewrite <- He.
      by apply (list_elem_of_fmap_2 (fun p => nd p.1.1 p.1.2 p.2)). }
    rewrite Hnone, app_nil_r; [|done|intros q' Hq'; apply Hqs; by right].
    apply filter_all. apply Hall, Hqs. left.
  - apply elem_of_cons in Hp as [->|Hp]; [done|].
    rewrite IH; [|done|done|intros q' Hq'; apply Hqs; by right].
    replace (filter _ (row _ _ _ _ _ _ _ _)) with (@nil entry); [done|]. symmetry.
    apply filter_none. eapply Forall_impl; [apply Hall, Hqs; left|]. cbn. congruence.
Qed.

Lemma Midx_in_matrix : Forall in_matrix Mx.
Proof using HX HZ.
  apply Forall_forall. intros e He. apply elem_of_Midx in He as (l & j & i & Hn & He); [|done..].
  apply (row_entries W Lc numP dimX dimZ HX HZ e (l, j, i)) in He as [Hr Hc]; [|done]. split; [|done].
  rewrite Hr. destruct Hn as (?&?&?). cbn. unfold node, nodes. assert (0 <= j * dimX + i < dimX * dimZ) by nia. nia.
Qed.

Section Step.
Variables (dt : double) (Cap Tp P : list double).
Hypothesis HCap : length Cap = Z.to_nat (numLayer numP + 1).
Hypothesis HTp : length Tp = Z.to_nat NN.
Hypothesis HPp : length P = Z.to_nat NN.

Lemma euler_entry_ok e T : in_matrix e -> length T = Z.to_nat NN ->
  euler_entry dimX dimZ dt Cap Tp P e T = Done (zinsert (e_row e) (euler_term dt Cap Tp P (at_ T (e_row e)) e) T).
Proof using HP HX HZ HCap HTp HPp.
  intros [Hr Hc] HT. unfold euler_entry, euler_term. pose proof (layer_of_row _ Hr) as Hq.
  assert (Hpos : (layer_nodes dimX dimZ =? 0) = false) by (apply Z.eqb_neq; unfold layer_nodes; nia). rewrite Hpos.
  cbn [mbind outcome_bind]. rewrite !vget_at by lia. cbn [mbind outcome_bind].
  destruct (e_row e =? e_col e); by rewrite vset_in_range by lia.
Qed.

Lemma euler_entries_ok es T : Forall in_matrix es -> length T = Z.to_nat NN ->
  exists T', euler_entries dimX dimZ dt Cap Tp P es T = Done T' /\ length T' = Z.to_nat NN /\
    forall r, 0 <= r < NN ->
      zlookup T' r = Some (foldl (euler_term dt Cap Tp P) (at_ T r) (filter (fun e => e_row e = r) es)).
Proof using HP HX HZ HCap HTp HPp.
  unfold euler_entries. intros Hes. revert T. induction Hes as [|e es He Hes IH]; intros T HT.
  { exists T. split_and!; [done|done|]. intros r Hr. cbn. unfold at_. by destruct (zlookup_in_range T r) as [x ->]; [lia|]. }
  cbn [foldl mbind outcome_bind]. rewrite euler_entry_ok by done.
  destruct (IH (zinsert (e_row e) (euler_term dt Cap Tp P (at_ T (e_row e)) e) T)) as (T' & E & Hl & Hat).
  { by rewrite length_zinsert. }
  exists T'. split_and!; [done|done|]. intros r Hr. rewrite Hat, filter_cons by done.
  unfold at_ at 1. case_decide as Hc.
  - rewrite Hc, zlookup_zinsert_eq by lia. done.
  - rewrite zlookup_zinsert_ne by done. done.
Qed.

Lemma euler_entries_app es es' T : euler_entries dimX dimZ dt Cap Tp P (es ++ es') T =
  (T' ← euler_entries dimX dimZ dt Cap Tp P es T; euler_entries dimX dimZ dt Cap Tp P es' T').
Proof using.
  unfold euler_entries. rewrite foldl_app. destruct (foldl _ (Done T) es); [done|..]; cbn [mbind outcome_bind];
    induction es' as [|e es' IH]; done.
Qed.

(** The blocks of eight are the whole array in its order. *)
Lemma blocks_flat es fuel j T : 0 <= j -> (0 < fuel)%nat -> Z.of_nat (length es) - j < Z.of_nat fuel ->
  blocks dimX dimZ fuel dt Cap Tp P es (Z.of_nat (length es)) j T = euler_entries dimX dimZ dt Cap Tp P (drop (Z.to_nat j) es) T.
Proof using.
  clear HCap HTp HPp. revert j T. induction fuel as [|fuel IH]; intros j T Hj H0 Hf; [lia|]; cbn [blocks].
  destruct (Z.ltb_spec j (Z.of_nat (length es))); [|by rewrite drop_ge by lia].
  set (b := if j + block_size <? Z.of_nat (length es) then j + block_size else Z.of_nat (length es)).
  assert (Hb : j < b <= Z.of_nat (length es) /\ (b = j + block_size \/ (b = Z.of_nat (length es) /\ b <= j + block_size))).
  { unfold b, block_size. case_match; zb; lia. }
  clearbody b.
  rewrite <- (take_drop (Z.to_nat (b - j)) (drop (Z.to_nat j) es)) at 2.
  rewrite euler_entries_app, drop_drop. destruct (euler_entries _ _ _ _ _ _ (take _ _) T) as [T'| | | |]; try done.
  cbn [mbind outcome_bind]. rewrite IH by (unfold block_size; lia).
  replace (Z.to_nat j + Z.to_nat (b - j))%nat with (Z.to_nat b) by lia.
  destruct Hb as [Hb [->|[-> Hb']]]; [done|]. by rewrite !drop_ge by lia.
Qed.

(** A step of the loops is a step node by node. *)
Lemma blocks_step :
  blocks dimX dimZ (S (Z.to_nat (MidxSize numP dimX dimZ))) dt Cap Tp P Mx (MidxSize numP dimX dimZ) 0 (replicate (Z.to_nat NN) d0)
  = Done (euler_step dt Cap P Tp).
Proof using HP HX HZ HCap HTp HPp.
  rewrite <- (length_Midx W Lc) by done. rewrite blocks_flat by lia. change (drop (Z.to_nat 0) Mx) with Mx.
  destruct (euler_entries_ok Mx (replicate (Z.to_nat NN) d0)) as (T' & -> & Hl & Hat);
    [apply Midx_in_matrix|by rewrite length_replicate|].
  pose proof (length_nodes numP dimX dimZ HP HX HZ) as Hn.
  f_equal. apply list_eq_same_length with (length T'); [unfold euler_step; rewrite length_map; lia|done|].
  intros i x y Hi Hx Hy. apply list_lookup_fmap_Some in Hy as (p & -> & Hp).
  destruct (nodes_at numP dimX dimZ HP HX HZ i p Hp) as [Hin Hk].
  specialize (Hat (Z.of_nat i) ltac:(lia)). rewrite zlookup_nat, Hx in Hat. injection Hat as ->.
  unfold at_ at 1. rewrite zlookup_nat, lookup_replicate_2 by lia. cbn [default].
  rewrite <- Hk. unfold Midx. rewrite filter_rows; [done|..].
  - rewrite nodes_in_order by done. apply NoDup_seqZ.
  - by apply list_elem_of_lookup_2 in Hp.
  - intros [[l j] i'] Hq. by apply elem_of_nodes in Hq.
Qed.

End Step.

Lemma length_euler_step dt Cap P Tp : length (euler_step dt Cap P Tp) = Z.to_nat NN.
Proof using HP HX HZ. unfold euler_step. rewrite length_map. pose proof (length_nodes numP dimX dimZ HP HX HZ). lia. Qed.

Lemma iterate_steps dt Cap P n Tp : length Cap = Z.to_nat (numLayer numP + 1) -> length P = Z.to_nat NN ->
  length Tp = Z.to_nat NN ->
  iterate numP dimX dimZ n dt Cap P Mx (MidxSize numP dimX dimZ) Tp = Done (Nat.iter n (euler_step dt Cap P) Tp).
Proof using HP HX HZ.
  intros HC HPl. revert Tp. induction n as [|n IH]; intros Tp HT; [done|]. cbn [iterate].
  rewrite blocks_step by done. cbn [mbind outcome_bind]. rewrite IH by apply length_euler_step.
  by rewrite Nat.iter_succ_r.
Qed.

End Euler.

Lemma length_calculate_Cap_array W Lc numP dimX dimZ :
  length (calculate_Cap_array W Lc numP dimX dimZ) = Z.to_nat (numLayer numP + 1).
Proof. unfold calculate_Cap_array, zs. by rewrite length_map, length_zrange. Qed.

(** ** The solvers on the arrays of the network *)

Lemma steady_run W Lc numP dimX dimZ pdgssv powerM pw Tamb :
  0 < numP -> 0 < dimX -> 0 < dimZ -> has_powers numP dimX dimZ powerM pw ->
  exists xa rhs, let Mx := Midx W Lc numP dimX dimZ in
    steady_thermal_solver W Lc numP dimX dimZ pdgssv powerM Mx (MidxSize numP dimX dimZ) Tamb
      = Done (map (fun t => dsub t T0) (pdgssv (map e_val Mx) (map e_col Mx) xa rhs)) /\
    length rhs = Z.to_nat (nodes numP dimX dimZ) /\
    (forall r c v, ccs_entry (map e_val Mx) (map e_col Mx) xa r c v <-> mk_entry r c v ∈ Mx) /\
    (forall l j i, in_net numP dimX dimZ l j i ->
       zlookup rhs (node dimX dimZ l j i) = Some (rhs_value W Lc dimX dimZ Tamb (pw i j) l)).
Proof.
  intros HP HX HZ Hpw.
  destruct (build_xa_matrix W Lc numP dimX dimZ HP HX HZ) as (xa & Exa & Hccs).
  destruct (fill_layers W Lc numP dimX dimZ HP HX HZ (steady_cells numP dimX dimZ) (fun i j => j * dimX + i) powerM pw Tamb)
    as (rhs & Erhs & Hl & Hrhs); [apply elem_of_steady_cells|unfold layer_nodes; nia| |done|].
  { intros i j i' j' ? ? ? ? He. apply pair_unique in He as [-> ->]; [done|lia..]. }
  exists xa, rhs. cbn zeta. split_and!; [|done|done|].
  - unfold steady_thermal_solver, steady_rhs. rewrite Exa. cbn [mbind outcome_bind].
    assert (fill (steady_idx dimX dimZ) (steady_cells numP dimX dimZ) powerM (sink_rhs W Lc numP dimX dimZ Tamb) = Done rhs) as ->.
    { rewrite <- Erhs. apply fill_ext. intros. unfold steady_idx. lia. }
    done.
  - intros l j i (Hl' & Hj & Hi). unfold node. rewrite <- Hrhs by done. f_equal. unfold layer_nodes. lia.
Qed.

Lemma transient_run W Lc numP dimX dimZ powerM pw time iter T_trans Tamb :
  0 < numP -> 0 < dimX -> 0 < dimZ -> has_powers numP dimX dimZ powerM pw ->
  length T_trans = Z.to_nat (nodes numP dimX dimZ) ->
  exists P, let Cap := calculate_Cap_array W Lc numP dimX dimZ in
    transient_thermal_solver W Lc numP dimX dimZ powerM (Midx W Lc numP dimX dimZ) (MidxSize numP dimX dimZ) Cap time iter T_trans Tamb
      = Done (Nat.iter (Z.to_nat iter) (euler_step W Lc numP dimX dimZ (ddiv time (d_of_Z iter)) Cap P) T_trans) /\
    forall l i j, 0 <= l < numLayer numP + 1 -> 0 <= i < dimX -> 0 <= j < dimZ ->
      zlookup P (l * layer_nodes dimX dimZ + (i * dimZ + j)) = Some (rhs_value W Lc dimX dimZ Tamb (pw i j) l).
Proof.
  intros HP HX HZ Hpw HT.
  destruct (fill_layers W Lc numP dimX dimZ HP HX HZ (transient_cells numP dimX dimZ) (fun i j => i * dimZ + j) powerM pw Tamb)
    as (P & EP & Hl & HPk); [apply elem_of_transient_cells|unfold layer_nodes; nia| |done|].
  { intros i j i' j' ? ? ? ? He. by apply pair_unique in He. }
  exists P. cbn zeta. split.
  - unfold transient_thermal_solver.
    assert (fill (transient_idx dimX dimZ) (transient_cells numP dimX dimZ) powerM (sink_rhs W Lc numP dimX dimZ Tamb) = Done P) as ->.
    { rewrite <- EP. apply fill_ext. intros. unfold transient_idx. lia. }
    cbn [mbind outcome_bind]. apply iterate_steps; [done..|apply length_calculate_Cap_array|done|done].
  - intros l i j Hll Hi Hj. by apply HPk.
Qed.

Lemma length_steps W Lc numP dimX dimZ dt Cap P n T : 0 < numP -> 0 < dimX -> 0 < dimZ ->
  length T = Z.to_nat (nodes numP dimX dimZ) ->
  length (Nat.iter n (euler_step W Lc numP dimX dimZ dt Cap P) T) = Z.to_nat (nodes numP dimX dimZ).
Proof. intros HP HX HZ HT. destruct n as [|n]; [done|]. cbn [Nat.iter nat_rect]. by apply length_euler_step. Qed.

Lemma calculate_Midx_array_Done W Lc numP dimX dimZ : 0 < numP -> 0 < dimX -> 0 < dimZ ->
  calculate_Midx_array W Lc numP dimX dimZ = Done (Midx W Lc numP dimX dimZ, MidxSize numP dimX dimZ).
Proof. intros HP HX HZ. unfold calculate_Midx_array. by rewrite length_Midx, Z.leb_refl. Qed.

(** ** Theorems *)

(** C32. The steady solver hands SuperLU the thermal network: the array of entries is
    never overrun, the compressed arrays read by columns give back its matrix although
    they are filled by rows, and the right-hand side holds at every node the power of
    its cell, the ambient term on the heat sink and zero elsewhere. *)
Theorem steady_solver_solves_network W Lc numP dimX dimZ pdgssv powerM pw Tamb :
  0 < numP -> 0 < dimX -> 0 < dimZ -> has_powers numP dimX dimZ powerM pw ->
  exists Mx count xa rhs,
    calculate_Midx_array W Lc numP dimX dimZ = Done (Mx, count) /\
    StronglySorted entry_lt Mx /\
    steady_thermal_solver W Lc numP dimX dimZ pdgssv powerM Mx count Tamb
      = Done (map (fun t => dsub t T0) (pdgssv (map e_val Mx) (map e_col Mx) xa rhs)) /\
    (forall r c v, ccs_entry (map e_val Mx) (map e_col Mx) xa r c v <->
       exists l j i, in_net numP dimX dimZ l j i /\ mk_entry r c v ∈ row W Lc numP dimX dimZ l j i) /\
    (forall l j i, in_net numP dimX dimZ l j i ->
       zlookup rhs (node dimX dimZ l j i) = Some (rhs_value W Lc dimX dimZ Tamb (pw i j) l)).
Proof.
  intros HP HX HZ Hpw. destruct (steady_run W Lc numP dimX dimZ pdgssv powerM pw Tamb HP HX HZ Hpw) as (xa & rhs & E & _ & Hccs & Hrhs).
  exists (Midx W Lc numP dimX dimZ), (MidxSize numP dimX dimZ), xa, rhs.
  split_and!; [by apply calculate_Midx_array_Done|by apply Midx_sorted|done| |done].
  intros r c v. by rewrite Hccs, elem_of_Midx.
Qed.

(** The transient solver always returns, and its blocked loops that add into one
    array are [iter] explicit Euler steps of the network, node by node.  The powers it
    takes are numbered [i * dimZ + j] in a layer, where the nodes of the matrix and the
    temperatures are numbered [j * dimX + i]. *)
Theorem transient_solver_steps W Lc numP dimX dimZ powerM pw time iter T_trans Tamb :
  0 < numP -> 0 < dimX -> 0 < dimZ -> has_powers numP dimX dimZ powerM pw ->
  length T_trans = Z.to_nat (nodes numP dimX dimZ) ->
  exists Mx count P,
    let Cap := calculate_Cap_array W Lc numP dimX dimZ in
    let dt := ddiv time (d_of_Z iter) in
    calculate_Midx_array W Lc numP dimX dimZ = Done (Mx, count) /\
    transient_thermal_solver W Lc numP dimX dimZ powerM Mx count Cap time iter T_trans Tamb
      = Done (Nat.iter (Z.to_nat iter) (euler_step W Lc numP dimX dimZ dt Cap P) T_trans) /\
    forall l i j, 0 <= l < numLayer numP + 1 -> 0 <= i < dimX -> 0 <= j < dimZ ->
      zlookup P (l * layer_nodes dimX dimZ + (i * dimZ + j)) = Some (rhs_value W Lc dimX dimZ Tamb (pw i j) l).
Proof.
  intros HP HX HZ Hpw HT. destruct (transient_run W Lc numP dimX dimZ powerM pw time iter T_trans Tamb HP HX HZ Hpw HT) as (P & E & HPk).
  exists (Midx W Lc numP dimX dimZ), (MidxSize numP dimX dimZ), P.
  split_and!; [by apply calculate_Midx_array_Done|done|done].
Qed.

(** ** Instances *)

(** A die of two by two cells with one tier. *)
Definition demo_pw (i j l : Z) : double := d_of_Z (2 * i + j + 1).
Definition demo_powers : matrix3 := [[[d_of_Z 1]; [d_of_Z 2]]; [[d_of_Z 3]; [d_of_Z 4]]].
Abbreviation demo_W := (lit 2 (-3)).

Lemma demo_has_powers : has_powers 1 2 2 demo_powers demo_pw.
Proof.
  intros l i j Hl Hi Hj. assert (l = 0) as -> by lia.
  assert (i = 0 \/ i = 1) as [-> | ->] by lia; assert (j = 0 \/ j = 1) as [-> | ->] by lia; vm_compute; done.
Qed.

Lemma steady_solver_solves_network_witness :
  exists Mx count xa rhs,
    calculate_Midx_array demo_W demo_W 1 2 2 = Done (Mx, count) /\
    steady_thermal_solver demo_W demo_W 1 2 2 (fun _ _ _ b => b) demo_powers Mx count (d_of_Z 300)
      = Done (map (fun t => dsub t T0) rhs) /\
    (exists v, ccs_entry (map e_val Mx) (map e_col Mx) xa 0 1 v) /\
    zlookup rhs 5 = Some (d_of_Z 3) /\ zlookup rhs 6 = Some (d_of_Z 2).
Proof.
  destruct (steady_solver_solves_network demo_W demo_W 1 2 2 (fun _ _ _ b => b) demo_powers demo_pw (d_of_Z 300)
    ltac:(lia) ltac:(lia) ltac:(lia) demo_has_powers) as (Mx & count & xa & rhs & HM & _ & HS & HE & HR).
  exists Mx, count, xa, rhs. split; [exact HM|]. split; [exact HS|]. split; [|split].
  - exists (g_x demo_W demo_W 2 2 0). apply HE. exists 0, 0, 0. split; [unfold in_net, numLayer; lia|].
    apply list_elem_of_lookup. exists 1%nat. vm_compute. reflexivity.
  - assert (Hn : in_net 1 2 2 1 0 1) by (unfold in_net, numLayer; lia). rewrite (HR 1 0 1 Hn : zlookup rhs 5 = _). vm_compute. reflexivity.
  - assert (Hn : in_net 1 2 2 1 1 0) by (unfold in_net, numLayer; lia). rewrite (HR 1 1 0 Hn : zlookup rhs 6 = _). vm_compute. reflexivity.
Defined.

(** The power 3 of the cell [(1, 0)] is given to node 6, that of the cell [(0, 1)]. *)
Lemma transient_solver_steps_witness :
  exists Mx count P T,
    calculate_Midx_array demo_W demo_W 1 2 2 = Done (Mx, count) /\
    transient_thermal_solver demo_W demo_W 1 2 2 demo_powers Mx count (calculate_Cap_array demo_W demo_W 1 2 2)
      (lit 1 (-3)) 3 (initialize_Temperature 1 2 2 (d_of_Z 300)) (d_of_Z 300) = Done T /\
    zlookup P (node 2 2 1 1 0) = Some (demo_pw 1 0 0).
Proof.
  destruct (transient_solver_steps demo_W demo_W 1 2 2 demo_powers demo_pw (lit 1 (-3)) 3
    (initialize_Temperature 1 2 2 (d_of_Z 300)) (d_of_Z 300)
    ltac:(lia) ltac:(lia) ltac:(lia) demo_has_powers ltac:(vm_compute; reflexivity)) as (Mx & count & P & HM & HT & HP).
  eexists Mx, count, P, _. split; [exact HM|]. split; [exact HT|].
  assert (Hl : 0 <= 1 < numLayer 1 + 1) by (unfold numLayer; lia).
  rewrite (HP 1 1 0 Hl ltac:(lia) ltac:(lia) : zlookup P (node 2 2 1 1 0) = _). vm_compute. reflexivity.
Defined.

End Solver.
