(* ===== verification/Temperatures.v ===== *)
(** * DRAMsim3: the temperatures of the thermal model

    The rest of [runtime/DRAMsim3/src/thermal.cc]: the time step, the transient
    temperatures of every epoch and the final ones, their maxima and the rows of the
    CSV files.  The power maps are those of [Thermal], the solvers those of
    [ThermalSolver]; SuperLU is a parameter.  The CSV files and the messages are lists
    of their values. *)

From Stdlib Require Import Floats.SpecFloat.
From S2P Require Import Prelude Text Fp DramCommon Ini SimpleStats Power Thermal ThermalFacts ThermalSolver.

Module Temps.
Import Fp Dram Power Thermal.
Abbreviation one := Solver.one.

#[local] Open Scope Z_scope.

Abbreviation entry := Solver.entry.
Abbreviation matrix3 := (list (list (list double))).

(** The settings of [Config::InitThermalParams] that only the temperatures use. *)
Record HeatParams := mk_hp {
  chip_dim_x : double;
  chip_dim_y : double;
  amb_temp : double
}.

Section Init.
Context {R : Type} `{RealReader R}.
Variable reader : R.
Local Open Scope string_scope.
Local Open Scope Z_scope.

(** They are set on the branch without tiling only. *)
Definition InitHeatParams (th : ThermalParams) : option HeatParams :=
  match bank_order th with
  | None => None
  | Some _ =>
      Some (mk_hp (rd_real reader "thermal" "chip_dim_x" (lit 1 (-2)))
                  (rd_real reader "thermal" "chip_dim_y" (lit 1 (-2)))
                  (rd_real reader "thermal" "amb_temp" (d_of_Z 40)))
  end.
Definition const_logic_power : double := rd_real reader "thermal" "const_logic_power" (lit 5 0).

End Init.

(** The members of [ThermalCalculator] that hold the network and the temperatures; an
    entry of [T_final] is set by [CalcFinalT]. *)
Record Heat := mk_heat {
  Midx : list entry;
  MidxSize : Z;
  Cap : list double;
  time_iter : Z;
  T_trans : list (list double);
  T_final : list (option (list double))
}.

(** One line of the CSV files. *)
Inductive csv_line :=
| MaxLine (layer : Z) (maxT ms : double)
| TransLine (id x y z : Z) (power temperature : double) (epoch : Z)
| FinalLine (id x y z : Z) (power temperature : double).

Section Calculator.
Variable config : Config.
Variable pl : Plan.
Variable hp : HeatParams.
Variable tCK : double.
Variable output_level : Z.

Definition gx : Z := dimX pl + num_dummy.
Definition gz : Z := dimY pl + num_dummy.
Definition Tamb : double := dadd (amb_temp hp) Solver.T0.

(** [config_.epoch_period * config_.tCK * 1e-9]. *)
Definition epoch_seconds : double := dmul (dmul (d_of_Z (epoch_period config)) tCK) (lit 1 (-9)).

(** ** The time step *)

(** The smallest [c / g] of a node, below 100 seconds. *)
Definition dt_step (Cap : list double) (o : outcome double) (e : entry) : outcome double :=
  dt ← o;
  idxC ← cdiv (Solver.e_row e) (gx * gz);
  if Solver.e_row e =? Solver.e_col e then
    c ← vget Cap idxC;
    let q := ddiv c (Solver.e_val e) in
    Done (if flt q dt then q else dt)
  else Done dt.

Definition maximum_dt (Midx : list entry) (Cap : list double) : outcome double :=
  foldl (dt_step Cap) (Done (d_of_Z 100)) Midx.

(** [while (power_epoch_time / time_iter >= dt) time_iter++]; the counter is an [int]. *)
Definition time_iter0 : Z := 10.
Fixpoint iter_loop (fuel : nat) (t dt : double) (n : Z) : outcome Z :=
  match fuel with
  | O => Stuck
  | S fuel' =>
      if fle dt (ddiv t (d_of_Z n))
      then if n =? 2 ^ 31 - 1 then Undef else iter_loop fuel' t dt (n + 1)
      else Done n
  end.

Definition calculate_time_step (fuel : nat) (Midx : list entry) (Cap : list double) : outcome Z :=
  dt ← maximum_dt Midx Cap;
  iter_loop fuel epoch_seconds dt time_iter0.

(** [InitialParameters], with the arrays that the constructor allocates. *)
Definition InitialParameters (fuel : nat) : outcome Heat :=
  '(m, size) ← Solver.calculate_Midx_array (chip_dim_x hp) (chip_dim_y hp) (numP pl) gx gz;
  let c := Solver.calculate_Cap_array (chip_dim_x hp) (chip_dim_y hp) (numP pl) gx gz in
  n ← calculate_time_step fuel m c;
  let T := Solver.initialize_Temperature (numP pl) gx gz Tamb in
  Done (mk_heat m size c n (replicate (Z.to_nat (num_case pl)) (take (Z.to_nat (T_size pl)) T))
          (replicate (Z.to_nat (num_case pl)) None)).

(** ** Temperatures *)

(** [GetTotalPower]: the sum over the cells inside the dummy ones. *)
Definition GetTotalPower (powerM : matrix3) : outcome double :=
  foldl (fun o p => s ← o; v ← Solver.power_at powerM (p.1.1 + num_dummy / 2) (p.1.2 + num_dummy / 2) p.2; Done (dadd s v))
    (Done d0)
    (concat (map (fun i => concat (map (fun j => map (fun l => (i, j, l)) (Solver.zs (numP pl))) (Solver.zs (dimY pl))))
       (Solver.zs (dimX pl)))).

Definition CalcTransT (case_id : Z) (t : ThermalCalculator) (h : Heat) : outcome Heat :=
  powerM ← InitPowerM config pl case_id 0 t;
  _ ← GetTotalPower powerM;
  old ← vget (T_trans h) case_id;
  T ← Solver.transient_thermal_solver (chip_dim_x hp) (chip_dim_y hp) (numP pl) gx gz powerM (Midx h) (MidxSize h) (Cap h)
        epoch_seconds (time_iter h) old Tamb;
  ts ← vset (T_trans h) case_id T;
  Done (mk_heat (Midx h) (MidxSize h) (Cap h) (time_iter h) ts (T_final h)).

Variable pdgssv : list double -> list Z -> list (option Z) -> list double -> list double.

Definition CalcFinalT (case_id clk : Z) (t : ThermalCalculator) (h : Heat) : outcome Heat :=
  powerM ← InitPowerM config pl case_id clk t;
  _ ← GetTotalPower powerM;
  T ← Solver.steady_thermal_solver (chip_dim_x hp) (chip_dim_y hp) (numP pl) gx gz pdgssv powerM (Midx h) (MidxSize h) Tamb;
  ts ← vset (T_final h) case_id (Some T);
  Done (mk_heat (Midx h) (MidxSize h) (Cap h) (time_iter h) (T_trans h) ts).

(** [a > b ? a : b]. *)
Definition dmax (a b : double) : double := if flt b a then a else b.

(** [GetMaxTofCase] on one array. *)
Definition GetMaxTofCase (T : list double) : outcome double :=
  foldl (fun o i => m ← o; t ← vget T i; Done (if flt m t then t else m)) (Done d0) (Solver.zs (T_size pl)).

(** The cells of the die in one layer, by rows. *)
Definition die_cells : list (Z * Z) :=
  concat (map (fun j => map (fun i => (i, j)) (zrange (num_dummy / 2) (Z.to_nat (dimX pl))))
    (zrange (num_dummy / 2) (Z.to_nat (dimY pl)))).

Definition GetMaxTofCaseLayer (T : list double) (layer : Z) : outcome double :=
  foldl (fun o p => m ← o; v ← vget T (temp_idx pl layer p.2 p.1); Done (dmax m (dsub v Solver.T0))) (Done d0) die_cells.

(** The rows of a case in a CSV file. *)
Definition csv_cell (line : Z -> Z -> Z -> double -> double -> csv_line) (P : list (list double)) (T : list double)
    (id scale l : Z) (p : Z * Z) : outcome csv_line :=
  r ← vget P id;
  v ← vget r (l * (dimX pl * dimY pl) + (p.2 - num_dummy / 2) * dimX pl + (p.1 - num_dummy / 2));
  t ← vget T (temp_idx pl l p.2 p.1);
  Done (line (p.1 - num_dummy / 2) (p.2 - num_dummy / 2) l (ddiv v (d_of_Z scale)) t).

Definition csv_case (line : Z -> Z -> Z -> double -> double -> csv_line) (P : list (list double)) (T : list double) (id scale : Z)
    : outcome (list csv_line) :=
  ls ← mapM (fun l => mapM (csv_cell line P T id scale l) die_cells) (Solver.zs (numP pl));
  Done (concat ls).

Definition PrintCSV_trans (P : list (list double)) (T : list double) (id scale sample_id : Z) : outcome (list csv_line) :=
  csv_case (fun x y z pw tm => TransLine id x y z pw (dsub tm Solver.T0) sample_id) P T id scale.
Definition PrintCSV_final (P : list (list double)) (T : list double) (id scale : Z) : outcome (list csv_line) :=
  csv_case (fun x y z pw tm => FinalLine id x y z pw tm) P T id scale.

(** ** The end of an epoch and of the run *)

(** One case of [PrintTransPT]: the new temperatures, the maxima of the layers, and
    the full rows from output level 2 on; a file that was not opened takes nothing. *)
Definition trans_case (clk : Z) (t : ThermalCalculator) (h : Heat) (ir : Z) : outcome (Heat * list csv_line) :=
  h' ← CalcTransT ir t h;
  T ← vget (T_trans h') ir;
  let ms := dmul (dmul (d_of_Z clk) tCK) (lit 1 (-6)) in
  maxs ← mapM (fun layer => m ← GetMaxTofCaseLayer T layer; Done (MaxLine layer m ms)) (Solver.zs (numP pl));
  rows ← (if output_level >=? 2 then PrintCSV_trans (cur_Pmap t) T ir (epoch_period config) (sample_id t) else Done []);
  Done (h', (if output_level >=? 0 then maxs else []) ++ rows).

Fixpoint trans_cases (clk : Z) (t : ThermalCalculator) (irs : list Z) (h : Heat) : outcome (Heat * list csv_line) :=
  match irs with
  | [] => Done (h, [])
  | ir :: irs' =>
      '(h1, out) ← trans_case clk t h ir;
      '(h2, out') ← trans_cases clk t irs' h1;
      Done (h2, out ++ out')
  end.

(** [PrintTransPT]. *)
Definition PrintTransPT (fuel : nat) (clk : Z) (t : ThermalCalculator) (h : Heat)
    : outcome (ThermalCalculator * Heat * list csv_line) :=
  t' ← UpdateEpoch config pl fuel clk t;
  '(h', out) ← trans_cases clk t' (Solver.zs (num_case pl)) h;
  Done (mk_calc (sample_id t' + 1) (background_energy_ t') (avg_logic_power_ t') (accu_Pmap t')
          (map (map (fun _ => d0)) (cur_Pmap t')) (refresh_count t'), h', out).

Definition final_case (clk : Z) (t : ThermalCalculator) (h : Heat) (ir : Z) : outcome (Heat * list csv_line) :=
  h' ← CalcFinalT ir clk t h;
  T ← vget (T_final h') ir;
  T' ← or_undef T;
  _ ← GetMaxTofCase T';
  rows ← PrintCSV_final (accu_Pmap t) T' ir clk;
  Done (h', if output_level >=? 0 then rows else []).

Fixpoint final_cases (clk : Z) (t : ThermalCalculator) (irs : list Z) (h : Heat) : outcome (Heat * list csv_line) :=
  match irs with
  | [] => Done (h, [])
  | ir :: irs' =>
      '(h1, out) ← final_case clk t h ir;
      '(h2, out') ← final_cases clk t irs' h1;
      Done (h2, out ++ out')
  end.

(** [PrintFinalPT]. *)
Definition PrintFinalPT (fuel : nat) (clk : Z) (t : ThermalCalculator) (h : Heat)
    : outcome (ThermalCalculator * Heat * list csv_line) :=
  t' ← add_background config pl fuel true clk t;
  '(h', out) ← final_cases clk t' (Solver.zs (num_case pl)) h;
  Done (t', h', out).

End Calculator.

(** ** The time step *)

Lemma flt_asym x y : flt x y = true -> flt y x = false.
Proof.
  intros Hxy. destruct (flt y x) eqn:Hyx; [|done]. apply flt_key in Hxy as (_ & _ & H1), Hyx as (_ & _ & H2).
  unfold key_lt in *. lia.
Qed.

(** The loop finds the least number of steps that is enough, or none fits an [int]. *)
Lemma iter_loop_least t dt fuel n : 0 <= n < 2 ^ 31 -> 2 ^ 31 - n <= Z.of_nat fuel ->
  (exists k, iter_loop fuel t dt n = Done k /\ n <= k < 2 ^ 31 /\ fle dt (ddiv t (d_of_Z k)) = false /\
     forall m, n <= m < k -> fle dt (ddiv t (d_of_Z m)) = true) \/
  (iter_loop fuel t dt n = Undef /\ forall m, n <= m < 2 ^ 31 -> fle dt (ddiv t (d_of_Z m)) = true).
Proof.
  revert n. induction fuel as [|fuel IH]; intros n Hn Hf; [lia|]. cbn [iter_loop].
  destruct (fle dt (ddiv t (d_of_Z n))) eqn:E.
  - destruct (Z.eqb_spec n (2 ^ 31 - 1)) as [->|Hne].
    + right. split; [done|]. intros m Hm. by replace m with (2 ^ 31 - 1) by lia.
    + destruct (IH (n + 1)) as [(k & Hk & Hr & Hs & Hall)|[Hu Hall]]; [lia|lia| |].
      * left. exists k. split_and!; [done|lia|lia|done|]. intros m Hm. destruct (decide (m = n)) as [->|]; [done|apply Hall; lia].
      * right. split; [done|]. intros m Hm. destruct (decide (m = n)) as [->|]; [done|apply Hall; lia].
  - left. exists n. split_and!; [done|lia|lia|done|]. intros m Hm. lia.
Qed.

Section Facts.
Variables (config : Config) (pl : Plan) (hp : HeatParams) (tCK : double).
Hypothesis HP : 0 < numP pl.
Hypothesis HX : 0 < dimX pl.
Hypothesis HY : 0 < dimY pl.

#[local] Abbreviation W := (chip_dim_x hp).
#[local] Abbreviation Lc := (chip_dim_y hp).
#[local] Abbreviation Mx := (Solver.Midx W Lc (numP pl) (gx pl) (gz pl)).
#[local] Abbreviation Cx := (Solver.calculate_Cap_array W Lc (numP pl) (gx pl) (gz pl)).
#[local] Abbreviation layer_n := (Solver.layer_nodes (gx pl) (gz pl)).

Lemma gx_pos : 0 < gx pl.
Proof using HX. unfold gx, num_dummy. lia. Qed.
Lemma gz_pos : 0 < gz pl.
Proof using HY. unfold gz, num_dummy. lia. Qed.

(** The time constant [c / g] of a node, from its entry on the diagonal. *)
Definition time_constant (Cap : list double) (e : entry) : double :=
  ddiv (Solver.at_ Cap (Z.quot (Solver.e_row e) layer_n)) (Solver.e_val e).

Lemma dt_fold es dt : is_nan dt = false -> Forall (Solver.in_matrix (numP pl) (gx pl) (gz pl)) es ->
  exists dt', foldl (dt_step pl Cx) (Done dt) es = Done dt' /\ is_nan dt' = false /\
    (forall q, flt q dt = false -> flt q dt' = false) /\
    (forall e, e ∈ es -> Solver.e_row e = Solver.e_col e -> flt (time_constant Cx e) dt' = false).
Proof using HP HX HY.
  intros Hn Hes. revert dt Hn. induction Hes as [|e es [Hr Hc] Hes IH]; intros dt Hn.
  { exists dt. split_and!; try done. by intros e ?%elem_of_nil. }
  pose proof gx_pos as Hx. pose proof gz_pos as Hz.
  pose proof (Solver.layer_of_row (numP pl) (gx pl) (gz pl) HP Hx Hz _ Hr) as Hq. unfold Solver.layer_nodes in Hq.
  cbn [foldl]. unfold dt_step at 2. cbn [mbind outcome_bind]. rewrite ThermalFacts.cdiv_Done by nia. cbn [mbind outcome_bind].
  destruct (Z.eqb_spec (Solver.e_row e) (Solver.e_col e)) as [Hd|Hd].
  - rewrite Solver.vget_at by (rewrite Solver.length_calculate_Cap_array; lia). cbn [mbind outcome_bind].
    fold layer_n. change (ddiv _ _) with (time_constant Cx e).
    set (q := time_constant Cx e). set (dt1 := if flt q dt then q else dt).
    assert (H1 : is_nan dt1 = false /\ flt q dt1 = false /\ forall q', flt q' dt = false -> flt q' dt1 = false).
    { unfold dt1. destruct (flt q dt) eqn:E; [|done]. pose proof (proj1 (flt_key q dt) E) as (Nq & _ & _). split_and!; [done| |].
      - destruct (flt q q) eqn:Eq; [|done]. by rewrite (flt_asym q q Eq) in Eq.
      - intros q' Hq'. destruct (flt q' q) eqn:Eq; [|done].
        rewrite (flt_trans_le q' q dt Hn Eq) in Hq'; [done|]. by apply flt_asym. }
    destruct H1 as (N1 & Hq1 & Hall). destruct (IH dt1 N1) as (dt' & E & N' & Hle & Hes').
    exists dt'. split_and!; [done|done|auto|]. intros e' He' Hd'. apply elem_of_cons in He' as [->|He']; [by apply Hle|by apply Hes'].
  - destruct (IH dt Hn) as (dt' & E & N' & Hle & Hes'). exists dt'. split_and!; [done|done|done|].
    intros e' He' Hd'. apply elem_of_cons in He' as [->|He']; [done|by apply Hes'].
Qed.

(** What the other operations rely on. *)
Record heat_ok (h : Heat) : Prop := mk_heat_ok {
  ok_Midx : Midx h = Mx;
  ok_size : MidxSize h = Solver.MidxSize (numP pl) (gx pl) (gz pl);
  ok_Cap : Cap h = Cx;
  ok_trans : Z.of_nat (length (T_trans h)) = num_case pl;
  ok_temps : Forall (fun T => length T = Z.to_nat (T_size pl)) (T_trans h);
  ok_final : Z.of_nat (length (T_final h)) = num_case pl
}.

Lemma T_size_nodes : T_size pl = Solver.nodes (numP pl) (gx pl) (gz pl).
Proof using. unfold T_size, Solver.nodes, Solver.numLayer, gx, gz. lia. Qed.

(** ** The power matrix *)

Lemma mapM_zrange {A} (f : Z -> outcome A) g n : (forall k, 0 <= k < Z.of_nat n -> f k = Done (g k)) ->
  mapM f (zrange 0 n) = Done (map g (zrange 0 n)).
Proof using.
  assert (Hg : forall l, (forall k, k ∈ l -> f k = Done (g k)) -> mapM f l = Done (map g l)).
  { induction l as [|k l IH]; intros Hf; [done|]. cbn. rewrite Hf by left. cbn [mbind outcome_bind].
    rewrite IH; [done|]. intros k' Hk'. apply Hf. by right. }
  intros Hf. apply Hg. intros k Hk%elem_of_zrange. apply Hf. lia.
Qed.

Lemma vget_zrange {A} (g : Z -> A) n i : 0 <= i < Z.of_nat n -> vget (map g (zrange 0 n)) i = Done (g i).
Proof using.
  intros Hi. apply vget_Done. unfold zlookup. rewrite decide_True, list_lookup_fmap by lia.
  assert (zrange 0 n !! Z.to_nat i = Some i) as -> by (apply lookup_seqZ; lia). done.
Qed.

(** The power of a cell of the solver: none in the dummy cells around the die. *)
Definition cell_power (pm : list (list double)) (div : double) (case_id i j l : Z) : double :=
  if is_die pl i j
  then ddiv (default d0 (ThermalFacts.pm_at pm case_id (l * (dimX pl * dimY pl) + (j - 1) * dimX pl + (i - 1)))) div
  else d0.

Lemma InitPowerM_powers case_id clk t : 0 <= case_id < num_case pl -> ThermalFacts.cells_ok pl t ->
  exists pm, InitPowerM config pl case_id clk t = Done pm /\
    Solver.has_powers (numP pl) (gx pl) (gz pl) pm
      (cell_power (if clk =? 0 then cur_Pmap t else accu_Pmap t)
                  (if clk =? 0 then d_of_Z (epoch_period config) else d_of_Z clk) case_id).
Proof using HP HX HY.
  intros Hc [Ha Hu]. pose proof gx_pos as Hx. pose proof gz_pos as Hz. unfold InitPowerM. cbn zeta.
  set (pm := if clk =? 0 then cur_Pmap t else accu_Pmap t). set (div := if clk =? 0 then _ else _).
  assert (Hpm : ThermalFacts.maps_ok (num_case pl) (numP pl * dimX pl * dimY pl) pm) by (unfold pm; by case_match).
  destruct (ThermalFacts.maps_ok_row _ _ _ _ Hpm Hc) as (r & Er & Lr). clearbody pm div.
  set (g := cell_power pm div case_id).
  exists (map (fun i => map (fun j => map (fun l => g i j l) (zrange 0 (Z.to_nat (numP pl))))
    (zrange 0 (Z.to_nat (gz pl)))) (zrange 0 (Z.to_nat (gx pl)))). split.
  - apply mapM_zrange. intros i Hi. apply mapM_zrange. intros j Hj. apply mapM_zrange. intros l Hl.
    unfold g, cell_power. destruct (is_die pl i j) eqn:Ed; [|done].
    unfold is_die in Ed. zb. rewrite (vget_Some _ _ _ Er). cbn [mbind outcome_bind]. change (num_dummy / 2) with 1.
    unfold ThermalFacts.pm_at. rewrite Er.
    destruct (zlookup_in_range r (l * (dimX pl * dimY pl) + (j - 1) * dimX pl + (i - 1))) as [v Ev].
    { rewrite Lr. assert (0 <= (j - 1) * dimX pl + (i - 1) < dimX pl * dimY pl) by nia. nia. }
    rewrite (vget_Some _ _ _ Ev), Ev. done.
  - intros l i j Hl Hi Hj. unfold Solver.power_at. rewrite vget_zrange by lia. cbn [mbind outcome_bind].
    rewrite vget_zrange by lia. cbn [mbind outcome_bind]. by rewrite vget_zrange by lia.
Qed.

Lemma GetTotalPower_Done pm pw : Solver.has_powers (numP pl) (gx pl) (gz pl) pm pw -> exists s, GetTotalPower pl pm = Done s.
Proof using.
  intros Hpw. unfold GetTotalPower.
  assert (Hall : forall p, p ∈ concat (map (fun i => concat (map (fun j => map (fun l => (i, j, l)) (Solver.zs (numP pl)))
      (Solver.zs (dimY pl)))) (Solver.zs (dimX pl))) ->
    exists v, Solver.power_at pm (p.1.1 + num_dummy / 2) (p.1.2 + num_dummy / 2) p.2 = Done v).
  { intros p (i & j & l & ? & ? & ? & ->)%Solver.elem_of_grid. cbn [fst snd]. change (num_dummy / 2) with 1.
    eexists. apply Hpw; unfold gx, gz, num_dummy; lia. }
  revert Hall. generalize d0. generalize (concat (map (fun i => concat (map (fun j => map (fun l => (i, j, l))
    (Solver.zs (numP pl))) (Solver.zs (dimY pl)))) (Solver.zs (dimX pl)))). intros ps.
  induction ps as [|p ps IH]; intros s Hall; [by exists s|]. cbn [foldl mbind outcome_bind].
  destruct (Hall p) as [v ->]; [left|]. cbn [mbind outcome_bind]. apply IH. intros q Hq. apply Hall. by right.
Qed.

(** ** One epoch *)

(** The powers as the transient solver gets them: numbered [i * gz + j] in a layer. *)
Definition powers_placed (pm : list (list double)) (div : double) (case_id : Z) (P : list double) : Prop :=
  forall l i j, 0 <= l < numP pl * 3 + 1 -> 0 <= i < gx pl -> 0 <= j < gz pl ->
    zlookup P (l * layer_n + (i * gz pl + j)) = Some (Solver.rhs_value W Lc (gx pl) (gz pl) (Tamb hp) (cell_power pm div case_id i j) l).

Definition epoch_steps (h : Heat) (P : list double) : list double -> list double :=
  Nat.iter (Z.to_nat (time_iter h))
    (Solver.euler_step W Lc (numP pl) (gx pl) (gz pl) (ddiv (epoch_seconds config tCK) (d_of_Z (time_iter h))) Cx P).

Lemma CalcTransT_steps case_id t h : 0 <= case_id < num_case pl -> ThermalFacts.cells_ok pl t -> heat_ok h ->
  exists P T h', zlookup (T_trans h) case_id = Some T /\
    CalcTransT config pl hp tCK case_id t h = Done h' /\ heat_ok h' /\ time_iter h' = time_iter h /\ T_final h' = T_final h /\
    powers_placed (cur_Pmap t) (d_of_Z (epoch_period config)) case_id P /\
    T_trans h' = zinsert case_id (epoch_steps h P T) (T_trans h).
Proof using HP HX HY.
  intros Hc Ht [E1 E2 E3 E4 E5 E6]. pose proof gx_pos as Hx. pose proof gz_pos as Hz.
  destruct (InitPowerM_powers case_id 0 t Hc Ht) as (pm & Epm & Hpw). cbn [Z.eqb] in Hpw.
  destruct (GetTotalPower_Done pm _ Hpw) as [s Es].
  destruct (zlookup_in_range (T_trans h) case_id) as [T ET]; [lia|].
  assert (HT : length T = Z.to_nat (T_size pl)).
  { rewrite Forall_forall in E5. apply E5. unfold zlookup in ET. case_decide; [|done]. by eapply list_elem_of_lookup_2. }
  rewrite T_size_nodes in HT.
  destruct (Solver.transient_run W Lc (numP pl) (gx pl) (gz pl) pm _ (epoch_seconds config tCK) (time_iter h) T (Tamb hp) HP Hx Hz Hpw HT)
    as (P & EP & HPk).
  exists P, T. eexists. unfold CalcTransT. rewrite Epm. cbn [mbind outcome_bind]. rewrite Es. cbn [mbind outcome_bind].
  rewrite (vget_Some _ _ _ ET). cbn [mbind outcome_bind]. rewrite E1, E2, E3, EP. cbn [mbind outcome_bind].
  rewrite vset_in_range by lia. cbn [mbind outcome_bind]. split_and!; try done.
  split; cbn; try done.
  - by rewrite length_zinsert.
  - unfold zinsert. rewrite decide_True by lia. apply Forall_insert; [done|].
    rewrite T_size_nodes. by apply Solver.length_steps.
Qed.

Lemma foldl_max_total {A B} (f : B -> A -> outcome B) l b : (forall a b, a ∈ l -> exists b', f b a = Done b') ->
  exists b', foldl (fun o a => m ← o; f m a) (Done b) l = Done b'.
Proof using.
  revert b. induction l as [|a l IH]; intros b Hf; [by exists b|]. cbn [foldl mbind outcome_bind].
  destruct (Hf a b) as [b' ->]; [left|]. apply IH. intros a' b0 Ha. apply Hf. by right.
Qed.

Lemma mapM_total {A B} (f : A -> outcome B) l : (forall a, a ∈ l -> exists b, f a = Done b) -> exists bs, mapM f l = Done bs.
Proof using.
  induction l as [|a l IH]; intros Hf; [by exists []|]. destruct (Hf a) as [b Eb]; [left|].
  destruct IH as [bs Ebs]; [intros a' Ha; apply Hf; by right|]. exists (b :: bs). cbn. rewrite Eb. cbn. by rewrite Ebs.
Qed.

Lemma elem_of_die_cells i j : (i, j) ∈ die_cells pl -> 1 <= i < dimX pl + 1 /\ 1 <= j < dimY pl + 1.
Proof using HX HY.
  unfold die_cells. change (num_dummy / 2) with 1. rewrite list_elem_of_In, in_concat. intros (r & Hr & Hi).
  apply in_map_iff in Hr as (j' & <- & Hj). apply in_map_iff in Hi as (i' & [= -> ->] & Hi).
  rewrite <- !list_elem_of_In, !elem_of_zrange in *. lia.
Qed.

Lemma temp_idx_range l i j : 0 <= l < numP pl -> (i, j) ∈ die_cells pl -> 0 <= temp_idx pl l j i < T_size pl.
Proof using HX HY.
  intros Hl [Hi Hj]%elem_of_die_cells. unfold temp_idx, T_size, layerP, num_dummy.
  assert (0 <= j * (dimX pl + 2) + i < (dimX pl + 2) * (dimY pl + 2)) by nia. nia.
Qed.

Lemma vget_in {A} (l : list A) i : 0 <= i < Z.of_nat (length l) -> exists x, vget l i = Done x.
Proof using. intros Hi. destruct (zlookup_in_range l i Hi) as [x Hx]. exists x. by apply vget_Done. Qed.

Lemma GetMaxTofCaseLayer_total T l : 0 <= l < numP pl -> length T = Z.to_nat (T_size pl) ->
  exists m, GetMaxTofCaseLayer pl T l = Done m.
Proof using HX HY.
  intros Hl HT. unfold GetMaxTofCaseLayer. apply foldl_max_total. intros [i j] m Hij. cbn [fst snd].
  destruct (vget_in T (temp_idx pl l j i)) as [v ->]; [|by eexists]. pose proof (temp_idx_range l i j Hl Hij). lia.
Qed.

Lemma GetMaxTofCase_total T : length T = Z.to_nat (T_size pl) -> exists m, GetMaxTofCase pl T = Done m.
Proof using HX HY.
  intros HT. unfold GetMaxTofCase, Solver.zs. apply foldl_max_total. intros i m Hi%elem_of_zrange.
  destruct (vget_in T i) as [v ->]; [lia|by eexists].
Qed.

Lemma csv_case_total line P T id scale : 0 <= id < num_case pl -> length T = Z.to_nat (T_size pl) ->
  ThermalFacts.maps_ok (num_case pl) (numP pl * dimX pl * dimY pl) P ->
  exists ls, csv_case pl line P T id scale = Done ls.
Proof using HP HX HY.
  intros Hid HT HPm. destruct (ThermalFacts.maps_ok_row _ _ _ _ HPm Hid) as (r & Er & Lr). unfold csv_case.
  destruct (mapM_total (fun l => mapM (csv_cell pl line P T id scale l) (die_cells pl)) (Solver.zs (numP pl))) as [ls ->];
    [|by eexists].
  intros l Hl%elem_of_zrange. apply mapM_total. intros [i j] Hij. pose proof (elem_of_die_cells _ _ Hij) as [Hi Hj].
  unfold csv_cell. cbn [fst snd]. change (num_dummy / 2) with 1. rewrite (vget_Some _ _ _ Er). cbn [mbind outcome_bind].
  destruct (vget_in r (l * (dimX pl * dimY pl) + (j - 1) * dimX pl + (i - 1))) as [v ->].
  { rewrite Lr. assert (0 <= (j - 1) * dimX pl + (i - 1) < dimX pl * dimY pl) by nia. nia. }
  cbn [mbind outcome_bind]. destruct (vget_in T (temp_idx pl l j i)) as [w ->]; [|by eexists].
  pose proof (temp_idx_range l i j ltac:(lia) Hij). lia.
Qed.

Lemma UpdatePowerMap_ok avg add period pm : ThermalFacts.maps_ok (num_case pl) (numP pl * dimX pl * dimY pl) pm ->
  exists pm', UpdatePowerMap pl avg add period pm = Done pm' /\
    ThermalFacts.maps_ok (num_case pl) (numP pl * dimX pl * dimY pl) pm'.
Proof using HP HX HY.
  unfold UpdatePowerMap. cbn zeta. set (logic := dmul _ period).
  assert (Hj : forall j, j ∈ zrange 0 (Z.to_nat (num_case pl)) -> 0 <= j < num_case pl) by (intros j ?%elem_of_zrange; lia).
  revert pm Hj. induction (zrange 0 (Z.to_nat (num_case pl))) as [|j js IH]; intros pm Hj Hpm; [by exists pm|].
  cbn [foldl mbind outcome_bind]. assert (Hjr : 0 <= j < num_case pl) by (apply Hj; left).
  destruct (ThermalFacts.add_all_spec (num_case pl) (numP pl * dimX pl * dimY pl) j add (zrange 0 (Z.to_nat (dimX pl * dimY pl * (numP pl - 1)))) Hjr) with pm as (pm1 & -> & H1 & _);
    [|done|].
  { apply Forall_forall. intros x Hx%elem_of_zrange. nia. }
  cbn [mbind outcome_bind].
  destruct (ThermalFacts.add_all_spec (num_case pl) (numP pl * dimX pl * dimY pl) j logic (zrange (dimX pl * dimY pl * (numP pl - 1)) (Z.to_nat (dimX pl * dimY pl))) Hjr) with pm1 as (pm2 & -> & H2 & _);
    [|done|].
  { apply Forall_forall. intros x Hx%elem_of_zrange. nia. }
  apply IH; [|done]. intros k Hk. apply Hj. by right.
Qed.

Lemma add_background_ok fuel final clk t : is_hmc (protocol (str_ config)) || is_hbm (protocol (str_ config)) = true ->
  ThermalFacts.cells_ok pl t ->
  exists t', add_background config pl fuel final clk t = Done t' /\ ThermalFacts.cells_ok pl t'.
Proof using HP HX HY.
  intros Hs [Ha Hc]. unfold add_background. rewrite Hs. cbn zeta. unfold UpdatePowerMaps. cbn zeta. destruct final; cbn [negb].
  - edestruct (UpdatePowerMap_ok (avg_logic_power_ t)) as (pm & -> & Hpm); [exact Ha|]. cbn [mbind outcome_bind]. eexists. by split.
  - edestruct (UpdatePowerMap_ok (avg_logic_power_ t)) as (pm & -> & Hpm); [exact Hc|]. cbn [mbind outcome_bind]. eexists. by split.
Qed.

(** What one case of an epoch does to the temperatures. *)
Lemma trans_case_steps out_level clk t h ir : 0 <= ir < num_case pl -> ThermalFacts.cells_ok pl t -> heat_ok h ->
  exists P T h' out, zlookup (T_trans h) ir = Some T /\
    trans_case config pl hp tCK out_level clk t h ir = Done (h', out) /\ heat_ok h' /\ time_iter h' = time_iter h /\
    powers_placed (cur_Pmap t) (d_of_Z (epoch_period config)) ir P /\
    T_trans h' = zinsert ir (epoch_steps h P T) (T_trans h).
Proof using HP HX HY.
  intros Hir Ht Hh. destruct (CalcTransT_steps ir t h Hir Ht Hh) as (P & T & h' & ET & EC & Hh' & Hn & _ & HPp & HTT).
  pose proof (ok_trans _ Hh) as Hl.
  assert (HT' : zlookup (T_trans h') ir = Some (epoch_steps h P T)) by (rewrite HTT; apply zlookup_zinsert_eq; lia).
  assert (HlT : length (epoch_steps h P T) = Z.to_nat (T_size pl)).
  { pose proof (ok_temps _ Hh') as Hf. rewrite Forall_forall in Hf. apply Hf. unfold zlookup in HT'. case_decide; [|done].
    by eapply list_elem_of_lookup_2. }
  unfold trans_case. rewrite EC. cbn [mbind outcome_bind]. rewrite (vget_Some _ _ _ HT'). cbn [mbind outcome_bind]. cbn zeta.
  destruct (mapM_total (fun layer => m ← GetMaxTofCaseLayer pl (epoch_steps h P T) layer;
      Done (MaxLine layer m (dmul (dmul (d_of_Z clk) tCK) (lit 1 (-6))))) (Solver.zs (numP pl))) as [maxs Emaxs].
  { intros l Hl'%elem_of_zrange. destruct (GetMaxTofCaseLayer_total (epoch_steps h P T) l) as [m ->]; [lia|done|by eexists]. }
  rewrite Emaxs. cbn [mbind outcome_bind].
  assert (exists rows, (if out_level >=? 2 then PrintCSV_trans pl (cur_Pmap t) (epoch_steps h P T) ir (epoch_period config) (sample_id t)
    else Done []) = Done rows) as [rows ->].
  { destruct (out_level >=? 2); [|by eexists]. unfold PrintCSV_trans. apply csv_case_total; [done|done|apply Ht]. }
  cbn [mbind outcome_bind]. eexists P, T, h', _. done.
Qed.

(** Every case advances by one epoch, the others are left alone. *)
Lemma trans_cases_steps out_level clk t irs h : NoDup irs -> (forall ir, ir ∈ irs -> 0 <= ir < num_case pl) ->
  ThermalFacts.cells_ok pl t -> heat_ok h ->
  exists h' out, trans_cases config pl hp tCK out_level clk t irs h = Done (h', out) /\ heat_ok h' /\ time_iter h' = time_iter h /\
    (forall ir, ir ∉ irs -> zlookup (T_trans h') ir = zlookup (T_trans h) ir) /\
    (forall ir, ir ∈ irs -> exists P T, zlookup (T_trans h) ir = Some T /\
       powers_placed (cur_Pmap t) (d_of_Z (epoch_period config)) ir P /\ zlookup (T_trans h') ir = Some (epoch_steps h P T)).
Proof using HP HX HY.
  intros Hnd Hirs Ht. revert h. induction Hnd as [|ir irs Hni Hnd IH]; intros h Hh.
  { exists h, []. split_and!; try done. by intros ir ?%elem_of_nil. }
  destruct (trans_case_steps out_level clk t h ir) as (P & T & h1 & o1 & ET & E1 & Hh1 & Hn1 & HPp & HT1); [apply Hirs; left|done|done|].
  destruct (IH ltac:(intros i Hi; apply Hirs; by right) h1 Hh1) as (h2 & o2 & E2 & Hh2 & Hn2 & Hout & Hin).
  pose proof (ok_trans _ Hh) as Hl. pose proof (zlookup_Some_range _ _ _ ET) as Hr.
  exists h2, (o1 ++ o2). cbn [trans_cases]. rewrite E1. cbn [mbind outcome_bind fst snd]. rewrite E2. cbn [mbind outcome_bind].
  split_and!; [done|done|congruence| |].
  - intros i Hi. apply not_elem_of_cons in Hi as [Hne Hi]. rewrite Hout by done. rewrite HT1. by apply zlookup_zinsert_ne.
  - intros i Hi. destruct (decide (i = ir)) as [->|Hne].
    + exists P, T. split_and!; [done|done|]. rewrite Hout by done. rewrite HT1. apply zlookup_zinsert_eq. lia.
    + apply elem_of_cons in Hi as [->|Hi]; [done|]. destruct (Hin i Hi) as (P' & T' & ET' & HP' & HT2).
      exists P', T'. rewrite HT1, zlookup_zinsert_ne in ET' by done. split_and!; [done|done|].
      rewrite HT2. unfold epoch_steps. by rewrite Hn1.
Qed.

Lemma rhs_value_active Tamb0 pw l : 0 <= l -> Solver.rhs_value W Lc (gx pl) (gz pl) Tamb0 pw (l * 3 + 1) = pw l.
Proof using.
  intros Hl. unfold Solver.rhs_value. rewrite (proj2 (Z.eqb_neq _ _)) by lia.
  replace (l * 3 + 1 - 1) with (l * 3) by lia. by rewrite Z.rem_mul, Z.quot_mul, Z.eqb_refl by lia.
Qed.

(** On a square grid the power of the cell [(i, j)] is where the temperature of
    [(j, i)] is read. *)
Lemma powers_transposed pm div case_id P l i j : gx pl = gz pl -> powers_placed pm div case_id P ->
  0 <= l < numP pl -> 0 <= i < gx pl -> 0 <= j < gz pl ->
  zlookup P (temp_idx pl l i j) = Some (cell_power pm div case_id i j l).
Proof using.
  intros Hsq HPp Hl Hi Hj. rewrite <- (rhs_value_active (Tamb hp) (cell_power pm div case_id i j) l) by lia.
  rewrite <- HPp by lia. f_equal. unfold temp_idx, layerP, Solver.layer_nodes, gx, gz in *. nia.
Qed.

(** ** The final temperatures *)

Section Final.
Variable pdgssv : list double -> list Z -> list (option Z) -> list double -> list double.
Hypothesis Hsolve : forall vals asub xa b, length (pdgssv vals asub xa b) = length b.

(** The final temperatures of a case are the solution for the power of each cell,
    placed where its temperature is read. *)
Definition final_solution (t : ThermalCalculator) (clk ir : Z) (T : list double) : Prop :=
  exists xa rhs,
    T = map (fun v => dsub v Solver.T0) (pdgssv (map Solver.e_val Mx) (map Solver.e_col Mx) xa rhs) /\
    forall l i j, 0 <= l < numP pl -> 0 <= i < gx pl -> 0 <= j < gz pl ->
      zlookup rhs (temp_idx pl l j i) = Some (cell_power (accu_Pmap t) (d_of_Z clk) ir i j l).

Lemma final_case_solution out_level clk t h ir : clk <> 0 -> 0 <= ir < num_case pl -> ThermalFacts.cells_ok pl t -> heat_ok h ->
  exists T h' out, final_case config pl hp out_level pdgssv clk t h ir = Done (h', out) /\ heat_ok h' /\
    final_solution t clk ir T /\ T_final h' = zinsert ir (Some T) (T_final h).
Proof using HP HX HY Hsolve.
  intros Hclk Hir Ht [E1 E2 E3 E4 E5 E6]. pose proof gx_pos as Hx. pose proof gz_pos as Hz.
  destruct (InitPowerM_powers ir clk t Hir Ht) as (pm & Epm & Hpw). rewrite (proj2 (Z.eqb_neq _ _) Hclk) in Hpw.
  destruct (GetTotalPower_Done pm _ Hpw) as [s Es].
  destruct (Solver.steady_run W Lc (numP pl) (gx pl) (gz pl) pdgssv pm _ (Tamb hp) HP Hx Hz Hpw) as (xa & rhs & ES & Hlr & _ & Hrhs).
  set (T := map (fun t => dsub t Solver.T0) (pdgssv (map Solver.e_val Mx) (map Solver.e_col Mx) xa rhs)) in *.
  assert (HT : length T = Z.to_nat (T_size pl)) by (unfold T; rewrite length_map, Hsolve, T_size_nodes; done).
  unfold final_case, CalcFinalT. rewrite Epm. cbn [mbind outcome_bind]. rewrite Es. cbn [mbind outcome_bind].
  rewrite E1, E2, ES. cbn [mbind outcome_bind]. rewrite vset_in_range by lia. cbn [mbind outcome_bind T_final].
  rewrite (vget_Some _ ir (Some T)) by (apply zlookup_zinsert_eq; lia). cbn [mbind outcome_bind or_undef].
  destruct (GetMaxTofCase_total T HT) as [m ->]. cbn [mbind outcome_bind].
  destruct (csv_case_total (fun x y z pw tm => FinalLine ir x y z pw tm) (accu_Pmap t) T ir clk Hir HT (proj1 Ht)) as [rows Erows].
  unfold PrintCSV_final. rewrite Erows. cbn [mbind outcome_bind].
  exists T. eexists _, _. split_and!; [reflexivity| | |done].
  - split; cbn; try done. by rewrite length_zinsert.
  - exists xa, rhs. split; [done|]. intros l i j Hl Hi Hj.
    rewrite <- (rhs_value_active (Tamb hp) (cell_power (accu_Pmap t) (d_of_Z clk) ir i j) l) by lia.
    rewrite <- Hrhs by (unfold Solver.in_net, Solver.numLayer; lia). f_equal. unfold temp_idx, layerP, Solver.node, gx, gz. nia.
Qed.

Lemma final_cases_solution out_level clk t irs h : clk <> 0 -> NoDup irs -> (forall ir, ir ∈ irs -> 0 <= ir < num_case pl) ->
  ThermalFacts.cells_ok pl t -> heat_ok h ->
  exists h' out, final_cases config pl hp out_level pdgssv clk t irs h = Done (h', out) /\ heat_ok h' /\
    (forall ir, ir ∉ irs -> zlookup (T_final h') ir = zlookup (T_final h) ir) /\
    (forall ir, ir ∈ irs -> exists T, final_solution t clk ir T /\ zlookup (T_final h') ir = Some (Some T)).
Proof using HP HX HY Hsolve.
  intros Hclk Hnd Hirs Ht. revert h. induction Hnd as [|ir irs Hni Hnd IH]; intros h Hh.
  { exists h, []. split_and!; try done. by intros ir ?%elem_of_nil. }
  assert (Hir : 0 <= ir < num_case pl) by (apply Hirs; left).
  destruct (final_case_solution out_level clk t h ir Hclk Hir Ht Hh) as (T & h1 & o1 & E1 & Hh1 & HT & HT1).
  destruct (IH ltac:(intros i Hi; apply Hirs; by right) h1 Hh1) as (h2 & o2 & E2 & Hh2 & Hout & Hin).
  pose proof (ok_final _ Hh) as Hl. exists h2, (o1 ++ o2). cbn [final_cases]. rewrite E1. cbn [mbind outcome_bind].
  rewrite E2. cbn [mbind outcome_bind]. split_and!; [done|done| |].
  - intros i Hi. apply not_elem_of_cons in Hi as [Hne Hi]. rewrite Hout, HT1 by done. by apply zlookup_zinsert_ne.
  - intros i Hi. destruct (decide (i = ir)) as [->|Hne].
    + exists T. split; [done|]. rewrite Hout, HT1 by done. apply zlookup_zinsert_eq. lia.
    + apply elem_of_cons in Hi as [->|Hi]; [done|]. by apply Hin.
Qed.

End Final.
End Facts.

(** ** Theorems *)

(** C33. At the end of an epoch the temperatures of every case of a stacked memory
    advance by the chosen number of Euler steps under the power of the epoch, the
    power maps are those of the model without temperatures, and the call returns.
    On a square grid the power of a cell [(x, y)] goes where the temperature of
    [(y, x)] is read. *)
Theorem epoch_temperatures config pl hp tCK out_level fuel clk t h :
  is_hmc (protocol (str_ config)) || is_hbm (protocol (str_ config)) = true ->
  0 < numP pl -> 0 < dimX pl -> 0 < dimY pl -> ThermalFacts.cells_ok pl t -> heat_ok pl hp h ->
  exists t1 t2 h2 out,
    UpdateEpoch config pl fuel clk t = Done t1 /\
    PrintTransPT config pl hp tCK out_level fuel clk t h = Done (t2, h2, out) /\
    Thermal.PrintTransPT config pl fuel clk t = Done t2 /\ heat_ok pl hp h2 /\
    forall ir, 0 <= ir < num_case pl -> exists P T,
      zlookup (T_trans h) ir = Some T /\
      zlookup (T_trans h2) ir = Some (epoch_steps config pl hp tCK h P T) /\
      powers_placed pl hp (cur_Pmap t1) (d_of_Z (epoch_period config)) ir P /\
      (gx pl = gz pl -> forall l x y, 0 <= l < numP pl -> 0 <= x < gx pl -> 0 <= y < gz pl ->
         zlookup P (temp_idx pl l x y) = Some (cell_power pl (cur_Pmap t1) (d_of_Z (epoch_period config)) ir x y l)).
Proof.
  intros Hs HP HX HY Ht Hh. destruct (add_background_ok config pl HP HX HY fuel false clk t Hs Ht) as (t1 & E1 & Ht1).
  destruct (trans_cases_steps config pl hp tCK HP HX HY out_level clk t1 (Solver.zs (num_case pl)) h) as (h2 & out & E2 & Hh2 & _ & _ & Hin);
    [apply NoDup_seqZ|intros ir ?%elem_of_zrange; lia|done|done|].
  exists t1. eexists _, h2, out. split_and!; [exact E1| | |exact Hh2|].
  - unfold PrintTransPT, UpdateEpoch. rewrite E1. cbn [mbind outcome_bind]. rewrite E2. reflexivity.
  - unfold Thermal.PrintTransPT, UpdateEpoch. rewrite E1. reflexivity.
  - intros ir Hir. destruct (Hin ir) as (P & T & ET & HPp & HT); [apply elem_of_zrange; lia|].
    exists P, T. split_and!; [done..|]. intros Hsq l x y Hl Hx Hy. by apply (powers_transposed pl hp).
Qed.

(** At the end of the run a stacked memory gets its final temperatures: for every
    case those that the solver finds for the power of each cell, which is placed where
    the temperature of the cell is read; the call returns. *)
Theorem final_temperatures config pl hp out_level pdgssv fuel clk t h :
  is_hmc (protocol (str_ config)) || is_hbm (protocol (str_ config)) = true ->
  (forall vals asub xa b, length (pdgssv vals asub xa b) = length b) ->
  0 < numP pl -> 0 < dimX pl -> 0 < dimY pl -> clk <> 0 -> ThermalFacts.cells_ok pl t -> heat_ok pl hp h ->
  exists t1 h2 out,
    PrintFinalPT config pl hp out_level pdgssv fuel clk t h = Done (t1, h2, out) /\
    Thermal.PrintFinalPT config pl fuel clk t = Done t1 /\
    forall ir, 0 <= ir < num_case pl ->
      exists T, zlookup (T_final h2) ir = Some (Some T) /\ final_solution pl hp pdgssv t1 clk ir T.
Proof.
  intros Hs Hsolve HP HX HY Hclk Ht Hh.
  destruct (add_background_ok config pl HP HX HY fuel true clk t Hs Ht) as (t1 & E1 & Ht1).
  destruct (final_cases_solution config pl hp HP HX HY pdgssv Hsolve out_level clk t1 (Solver.zs (num_case pl)) h)
    as (h2 & out & E2 & Hh2 & _ & Hin); [done|apply NoDup_seqZ|intros ir ?%elem_of_zrange; lia|done|done|].
  exists t1, h2, out. split_and!.
  - unfold PrintFinalPT. rewrite E1. cbn [mbind outcome_bind]. rewrite E2. reflexivity.
  - exact E1.
  - intros ir Hir. destruct (Hin ir) as (T & HT & ET); [apply elem_of_zrange; lia|]. by exists T.
Qed.

(** C34. The number of steps per epoch is the least one, from ten on, whose step is
    shorter than the time constant of every node, so that the explicit Euler steps are
    stable; when no [int] is enough the counter overflows. *)
Theorem time_step_is_stable config pl hp tCK fuel :
  0 < numP pl -> 0 < dimX pl -> 0 < dimY pl -> 2 ^ 31 <= Z.of_nat fuel ->
  let step n := ddiv (epoch_seconds config tCK) (d_of_Z n) in
  exists dt,
    maximum_dt pl (Solver.Midx (chip_dim_x hp) (chip_dim_y hp) (numP pl) (gx pl) (gz pl))
      (Solver.calculate_Cap_array (chip_dim_x hp) (chip_dim_y hp) (numP pl) (gx pl) (gz pl)) = Done dt /\
    ((InitialParameters config pl hp tCK fuel = Undef /\ forall n, time_iter0 <= n < 2 ^ 31 -> fle dt (step n) = true) \/
     (exists h, InitialParameters config pl hp tCK fuel = Done h /\ (0 <= num_case pl -> heat_ok pl hp h) /\
        time_iter0 <= time_iter h < 2 ^ 31 /\
        (forall n, time_iter0 <= n < time_iter h -> fle dt (step n) = true) /\
        forall e, e ∈ Midx h -> Solver.e_row e = Solver.e_col e ->
          is_nan (time_constant pl (Cap h) e) = false -> is_nan (step (time_iter h)) = false ->
          flt (step (time_iter h)) (time_constant pl (Cap h) e) = true)).
Proof.
  intros HP HX HY Hf step. pose proof (gx_pos pl HX) as Hx. pose proof (gz_pos pl HY) as Hz.
  destruct (dt_fold pl hp HP HX HY (Solver.Midx (chip_dim_x hp) (chip_dim_y hp) (numP pl) (gx pl) (gz pl)) (d_of_Z 100) eq_refl)
    as (dt & Edt & Ndt & _ & Hall); [by apply Solver.Midx_in_matrix|].
  exists dt. split; [exact Edt|]. unfold InitialParameters. rewrite Solver.calculate_Midx_array_Done by done.
  cbn [mbind outcome_bind]. cbn zeta. unfold calculate_time_step, maximum_dt. rewrite Edt. cbn [mbind outcome_bind].
  destruct (iter_loop_least (epoch_seconds config tCK) dt fuel time_iter0) as [(k & -> & Hk & Hs & Hleast)|[-> Hno]];
    [unfold time_iter0; lia|unfold time_iter0; lia| |left; done].
  right. eexists. cbn [mbind outcome_bind]. split; [reflexivity|]. cbn [time_iter Midx Cap]. split_and!; [|lia|lia|done|].
  - intros Hc. assert (HT : length (take (Z.to_nat (T_size pl)) (Solver.initialize_Temperature (numP pl) (gx pl) (gz pl) (Tamb hp))) = Z.to_nat (T_size pl)).
    { rewrite T_size_nodes. unfold Solver.initialize_Temperature. rewrite length_take, length_replicate. lia. }
    split; cbn [Midx MidxSize Cap T_trans T_final]; try done; rewrite ?length_replicate; try lia. by apply Forall_replicate.
  - intros e He Hd Nq Ns. pose proof (Hall e He Hd) as Hq. rewrite fle_negb_flt in Hs by done.
    apply (flt_trans_le _ dt); [done| |done]. fold (step k) in Hs. by destruct (flt (step k) dt).
Qed.

(** ** Instances *)

(** A stacked memory with one die over the logic layer and two by two cells. *)
Definition demo_hbm : Config :=
  mk_config demo_sys (mk_str HBM 4 4 16 65536 1024 8 8 1 false 4 16 15000 64 16 4) demo_size demo_map demo_tim 100000.
Definition demo_pl : Plan := mk_plan 2 8 2 (Some 1) (Some 2) 2 2 1.
Definition demo_hp : HeatParams := mk_hp (lit 1 (-2)) (lit 1 (-2)) (d_of_Z 40).
Definition demo_calc : ThermalCalculator :=
  let m := [map d_of_Z [5; 0; 0; 0; 0; 7; 0; 0]] in mk_calc 0 [[d_of_Z 4]] d0 m m [].
Definition demo_heat : Heat :=
  mk_heat (Solver.Midx (chip_dim_x demo_hp) (chip_dim_y demo_hp) 2 4 4) (Solver.MidxSize 2 4 4)
    (Solver.calculate_Cap_array (chip_dim_x demo_hp) (chip_dim_y demo_hp) 2 4 4) 10
    [Solver.initialize_Temperature 2 4 4 (Tamb demo_hp)] [None].

Lemma demo_cells_ok : ThermalFacts.cells_ok demo_pl demo_calc.
Proof. split; (split; [reflexivity|repeat constructor]). Qed.

Lemma demo_heat_ok : heat_ok demo_pl demo_hp demo_heat.
Proof. split; try reflexivity. by repeat constructor. Qed.

Lemma epoch_temperatures_witness : exists t1 t2 h2 out P T,
  UpdateEpoch demo_hbm demo_pl 0 100000 demo_calc = Done t1 /\
  PrintTransPT demo_hbm demo_pl demo_hp one 1 0 100000 demo_calc demo_heat = Done (t2, h2, out) /\
  zlookup (T_trans h2) 0 = Some (epoch_steps demo_hbm demo_pl demo_hp one demo_heat P T) /\
  zlookup P (temp_idx demo_pl 0 1 2) = Some (cell_power demo_pl (cur_Pmap t1) (d_of_Z 100000) 0 1 2 0).
Proof.
  destruct (epoch_temperatures demo_hbm demo_pl demo_hp one 1 0 100000 demo_calc demo_heat eq_refl ltac:(cbn; lia) ltac:(cbn; lia)
    ltac:(cbn; lia) demo_cells_ok demo_heat_ok) as (t1 & t2 & h2 & out & E1 & E2 & _ & _ & Hall).
  destruct (Hall 0 ltac:(cbn; lia)) as (P & T & _ & HT & _ & Hsq).
  exists t1, t2, h2, out, P, T. split; [exact E1|]. split; [exact E2|]. split; [exact HT|].
  apply Hsq; [reflexivity|unfold gx, gz, num_dummy; cbn; lia..].
Defined.

Lemma final_temperatures_witness : exists t1 h2 out T rhs,
  PrintFinalPT demo_hbm demo_pl demo_hp 1 (fun _ _ _ b => b) 0 5000 demo_calc demo_heat = Done (t1, h2, out) /\
  zlookup (T_final h2) 0 = Some (Some T) /\
  T = map (fun v => dsub v Solver.T0) rhs /\
  zlookup rhs (temp_idx demo_pl 0 1 1) = Some (cell_power demo_pl (accu_Pmap t1) (d_of_Z 5000) 0 1 1 0).
Proof.
  destruct (final_temperatures demo_hbm demo_pl demo_hp 1 (fun _ _ _ b => b) 0 5000 demo_calc demo_heat eq_refl
    ltac:(reflexivity) ltac:(cbn; lia) ltac:(cbn; lia) ltac:(cbn; lia) ltac:(lia) demo_cells_ok demo_heat_ok) as (t1 & h2 & out & E & _ & Hall).
  destruct (Hall 0 ltac:(cbn; lia)) as (T & HT & xa & rhs & HS & HR).
  exists t1, h2, out, T, rhs. split; [exact E|]. split; [exact HT|]. split; [exact HS|].
  apply HR; unfold gx, gz, num_dummy; cbn; lia.
Defined.

Example demo_ten_steps :
  match maximum_dt demo_pl (Midx demo_heat) (Cap demo_heat) with
  | Done dt => negb (fle dt (ddiv (epoch_seconds demo_hbm one) (d_of_Z 10)))
  | _ => false
  end = true.
Proof. vm_compute. reflexivity. Qed.

Lemma fuel_enough : 2 ^ 31 <= Z.of_nat (Z.to_nat (2 ^ 31)).
Proof. by rewrite Z2Nat.id. Qed.

Lemma time_step_is_stable_witness : exists h,
  InitialParameters demo_hbm demo_pl demo_hp one (Z.to_nat (2 ^ 31)) = Done h /\ heat_ok demo_pl demo_hp h /\ 10 <= time_iter h.
Proof.
  destruct (time_step_is_stable demo_hbm demo_pl demo_hp one (Z.to_nat (2 ^ 31)) ltac:(cbn; lia) ltac:(cbn; lia) ltac:(cbn; lia) fuel_enough)
    as (dt & Edt & [[_ Hno]|(h & E & Hok & Hr & _)]).
  - exfalso. pose proof (Hno 10 ltac:(unfold time_iter0; lia)) as H10. pose proof demo_ten_steps as Hd.
    change (maximum_dt demo_pl (Midx demo_heat) (Cap demo_heat) = Done dt) in Edt. rewrite Edt in Hd. rewrite H10 in Hd. discriminate Hd.
  - exists h. split; [exact E|]. split; [apply Hok; cbn; lia|]. unfold time_iter0 in Hr. lia.
Defined.

End Temps.
