(* ===== verification/CommandQueue.v ===== *)
(** * DRAMsim3: the command queues of a channel

    [runtime/DRAMsim3/include/dramsim3/command_queue.h] and
    [src/command_queue.cc].  The queue keeps references to the channel state and
    to the statistics of its controller: they are arguments here, and the
    statistics are returned. *)

From S2P Require Import Prelude DramCommon DramBank ChannelState SimpleStats.

Module CmdQ.
Import Dram Bank Chan Stats.

Inductive QueueStructure := PER_RANK | PER_BANK.

#[export] Instance QueueStructure_eq_dec : EqDecision QueueStructure.
Proof. solve_decision. Defined.

Record CommandQueue := mk_cq {
  rank_q_empty : list bool;
  queue_structure_ : QueueStructure;
  queues_ : list (list Command);
  ref_q_indices_ : gset Z;
  is_in_ref_ : bool;
  num_queues_ : Z;
  queue_size_ : Z;
  queue_idx_ : Z;
  q_clk_ : Z
}.

Definition set_queues (qs : list (list Command)) (q : CommandQueue) : CommandQueue :=
  mk_cq (rank_q_empty q) (queue_structure_ q) qs (ref_q_indices_ q) (is_in_ref_ q) (num_queues_ q) (queue_size_ q)
    (queue_idx_ q) (q_clk_ q).
Definition set_idx (i : Z) (q : CommandQueue) : CommandQueue :=
  mk_cq (rank_q_empty q) (queue_structure_ q) (queues_ q) (ref_q_indices_ q) (is_in_ref_ q) (num_queues_ q)
    (queue_size_ q) i (q_clk_ q).
Definition set_ref (ixs : gset Z) (b : bool) (q : CommandQueue) : CommandQueue :=
  mk_cq (rank_q_empty q) (queue_structure_ q) (queues_ q) ixs b (num_queues_ q) (queue_size_ q) (queue_idx_ q)
    (q_clk_ q).

(** [CommandQueue::ClockTick]. *)
Definition q_ClockTick (q : CommandQueue) : CommandQueue :=
  mk_cq (rank_q_empty q) (queue_structure_ q) (queues_ q) (ref_q_indices_ q) (is_in_ref_ q) (num_queues_ q)
    (queue_size_ q) (queue_idx_ q) (u64 (q_clk_ q + 1)).

Section Queue.
Variable config : Config.
Let K := banks_per_group (str_ config).
Let B := banks (str_ config).
Let R := ranks (size_ config).

(** [CommandQueue::CommandQueue]. *)
Definition new_command_queue : outcome CommandQueue :=
  let mk s n := Done (mk_cq (replicate (Z.to_nat R) true) s (replicate (Z.to_nat n) []) ∅ false n
                        (u64 (cmd_queue_size (sys_ config))) 0 0) in
  if bool_decide (queue_structure (sys_ config) = "PER_BANK"%string) then mk PER_BANK (B * R)
  else if bool_decide (queue_structure (sys_ config) = "PER_RANK"%string) then mk PER_RANK R
  else AbruptExit.

Definition GetQueueIndex (q : CommandQueue) (r g b : Z) : Z :=
  match queue_structure_ q with
  | PER_RANK => r
  | PER_BANK => r * B + g * K + b
  end.

Definition cmd_index_in (q : CommandQueue) (c : Command) : Z := GetQueueIndex q (Rank c) (Bankgroup c) (Bank c).

Definition GetQueue (q : CommandQueue) (r g b : Z) : outcome (list Command) :=
  vget (queues_ q) (GetQueueIndex q r g b).

Definition WillAcceptCommand (q : CommandQueue) (r g b : Z) : outcome bool :=
  l ← GetQueue q r g b; Done (Z.of_nat (length l) <? queue_size_ q).

Definition QueueEmpty (q : CommandQueue) : bool := forallb (fun l => bool_decide (l = [])) (queues_ q).

Definition QueueUsage (q : CommandQueue) : Z :=
  fold_left (fun n l => n + Z.of_nat (length l)) (queues_ q) 0.

Definition AddCommand (c : Command) (q : CommandQueue) : outcome (bool * CommandQueue) :=
  l ← GetQueue q (Rank c) (Bankgroup c) (Bank c);
  if Z.of_nat (length l) <? queue_size_ q then
    e ← vset (rank_q_empty q) (Rank c) false;
    Done (true, mk_cq e (queue_structure_ q) (zinsert (cmd_index_in q c) (l ++ [c]) (queues_ q)) (ref_q_indices_ q)
                  (is_in_ref_ q) (num_queues_ q) (queue_size_ q) (queue_idx_ q) (q_clk_ q))
  else Done (false, q).

(** The index after [GetNextQueue]. *)
Definition next_idx (q : CommandQueue) : Z :=
  if queue_idx_ q + 1 =? num_queues_ q then 0 else queue_idx_ q + 1.

(** [GetRefQIndices]; a zero divisor has no meaning. *)
Definition GetRefQIndices (ref : Command) (q : CommandQueue) : outcome (gset Z) :=
  match cmd_type ref with
  | REFRESH =>
      match queue_structure_ q with
      | PER_BANK =>
          if (B =? 0) && (0 <? num_queues_ q) then Undef
          else Done (ref_q_indices_ q ∪
                 list_to_set (filter (fun i => Z.quot i B = Rank ref) (zrange 0 (Z.to_nat (num_queues_ q)))))
      | PER_RANK => Done (ref_q_indices_ q ∪ {[Rank ref]})
      end
  | _ => Done (ref_q_indices_ q ∪ {[cmd_index_in q ref]})
  end.

(** [FinishRefresh]. *)
Definition FinishRefresh (cs : ChannelState) (q : CommandQueue) : outcome (Command * CommandQueue) :=
  ref ← PendingRefCommand cs;
  q1 ← (if is_in_ref_ q then Done q else ixs ← GetRefQIndices ref q; Done (set_ref ixs true q));
  c ← c_GetReadyCommand config cs ref (q_clk_ q);
  Done (c, if IsRefresh c then set_ref ∅ false q1 else q1).

(** ** Choosing a command *)

Definition same_bank_cmd (a b : Command) : bool :=
  (Rank a =? Rank b) && (Bankgroup a =? Bankgroup b) && (Bank a =? Bank b).

(** [ArbitratePrecharge]: [prev] are the commands before [c], [rest] those from
    [c] on. *)
Definition ArbitratePrecharge (cs : ChannelState) (prev : list Command) (c : Command) (rest : list Command)
    (st : SimpleStats) : outcome (bool * SimpleStats) :=
  if existsb (fun p => same_bank_cmd p c) prev then Done (false, st)
  else
    open_row ← c_OpenRow cs (cmd_pos c);
    hits ← c_RowHitCount cs (cmd_pos c);
    let pending_row_hits_exist := existsb (fun p => (Row p =? open_row) && same_bank_cmd p c) rest in
    if negb pending_row_hits_exist || (hits >=? 4)
    then Done (true, Increment "num_ondemand_pres" st) else Done (false, st).

(** [HasRWDependency]. *)
Definition HasRWDependency (prev : list Command) (c : Command) : bool :=
  existsb (fun p => IsRead p && (Row p =? Row c) && (Column p =? Column c) && (Bank p =? Bank c) &&
                    (Bankgroup p =? Bankgroup c)) prev.

(** [GetFirstReadyInQueue]; [prev] are the commands already passed over. *)
Fixpoint first_ready (cs : ChannelState) (clk : Z) (prev rest : list Command) (st : SimpleStats)
    : outcome (Command * SimpleStats) :=
  match rest with
  | [] => Done (no_command, st)
  | c :: rest' =>
      r ← c_GetReadyCommand config cs c clk;
      if negb (IsValid r) then first_ready cs clk (prev ++ [c]) rest' st
      else if bool_decide (cmd_type r = PRECHARGE) then
        o ← ArbitratePrecharge cs prev c rest st;
        if (o.1 : bool) then Done (r, o.2) else first_ready cs clk (prev ++ [c]) rest' o.2
      else if IsWrite r && HasRWDependency prev c then first_ready cs clk (prev ++ [c]) rest' st
      else Done (r, st)
  end.

Definition GetFirstReadyInQueue (cs : ChannelState) (clk : Z) (l : list Command) (st : SimpleStats)
    : outcome (Command * SimpleStats) := first_ready cs clk [] l st.

(** The first command with the address and the type of [c] leaves. *)
Fixpoint erase_cmd (c : Command) (l : list Command) : option (list Command) :=
  match l with
  | [] => None
  | d :: l' =>
      if (hex_addr c =? hex_addr d) && bool_decide (cmd_type c = cmd_type d) then Some l'
      else option_map (cons d) (erase_cmd c l')
  end.

(** [EraseRWCommand]. *)
Definition EraseRWCommand (c : Command) (q : CommandQueue) : outcome CommandQueue :=
  l ← GetQueue q (Rank c) (Bankgroup c) (Bank c);
  match erase_cmd c l with
  | Some l' => Done (set_queues (zinsert (cmd_index_in q c) l' (queues_ q)) q)
  | None => Exit 1
  end.

(** The loop of [GetCommandToIssue], [n] rounds left. *)
Fixpoint issue_loop (n : nat) (cs : ChannelState) (q : CommandQueue) (st : SimpleStats)
    : outcome (Command * CommandQueue * SimpleStats) :=
  match n with
  | O => Done (no_command, q, st)
  | S n' =>
      let q1 := set_idx (next_idx q) q in
      l ← vget (queues_ q1) (queue_idx_ q1);
      if is_in_ref_ q1 && bool_decide (queue_idx_ q1 ∈ ref_q_indices_ q1) then issue_loop n' cs q1 st
      else
        o ← GetFirstReadyInQueue cs (q_clk_ q1) l st;
        if IsValid o.1 then
          if IsReadWrite o.1 then q2 ← EraseRWCommand o.1 q1; Done (o.1, q2, o.2)
          else Done (o.1, q1, o.2)
        else issue_loop n' cs q1 o.2
  end.

(** [GetCommandToIssue]. *)
Definition GetCommandToIssue (cs : ChannelState) (q : CommandQueue) (st : SimpleStats)
    : outcome (Command * CommandQueue * SimpleStats) :=
  issue_loop (Z.to_nat (num_queues_ q)) cs q st.

(** ** The queues hold what was put into them *)

Definition all_cmds (q : CommandQueue) : list Command := mjoin (queues_ q).

(** What the controller puts into a queue. *)
Definition queued_ok (q : CommandQueue) (i : Z) (c : Command) : Prop :=
  cmd_index_in q c = i /\ IsReadWrite c = true /\ in_range config (cmd_pos c) /\
  cmd_addr c = AddressMapping (map_ config) (hex_addr c).

Definition queue_inv (q : CommandQueue) : Prop :=
  Z.of_nat (length (queues_ q)) = num_queues_ q /\ Z.of_nat (length (rank_q_empty q)) = R /\
  num_queues_ q = match queue_structure_ q with PER_RANK => R | PER_BANK => B * R end /\
  (0 <= queue_idx_ q /\ (0 < num_queues_ q -> queue_idx_ q < num_queues_ q)) /\
  forall i l c, zlookup (queues_ q) i = Some l -> c ∈ l -> queued_ok q i c.

Lemma index_in_range q r g b :
  bank_count_ok config -> queue_inv q -> in_range config (r, g, b) ->
  0 <= GetQueueIndex q r g b < num_queues_ q.
Proof.
  intros (HG & HK & HB) (_ & _ & Hn & _) (Hr & Hg & Hb). simpl in *. rewrite Hn. unfold GetQueueIndex.
  destruct (queue_structure_ q); [done|]. unfold B, K, R. rewrite HB. split; [nia|].
  assert (g * banks_per_group (str_ config) + b < bankgroups (str_ config) * banks_per_group (str_ config)) by nia. nia.
Qed.

(** A bank has a queue of its own, or shares the queue of its rank only. *)
Lemma mjoin_zinsert {A} (qs : list (list A)) i l l' d :
  zlookup qs i = Some l -> l ≡ₚ d :: l' -> mjoin qs ≡ₚ d :: mjoin (zinsert i l' qs).
Proof.
  clear K B R. unfold zlookup, zinsert. case_decide; [|done]. generalize (Z.to_nat i) as n.
  induction qs as [|x qs IH]; intros n Hn Hp; [done|]. destruct n as [|n]; simpl in *.
  - injection Hn as ->. by rewrite Hp.
  - rewrite (IH n Hn Hp). by rewrite Permutation_middle.
Qed.

Lemma mjoin_zinsert_snoc {A} (qs : list (list A)) i l d :
  zlookup qs i = Some l -> mjoin (zinsert i (l ++ [d]) qs) ≡ₚ d :: mjoin qs.
Proof.
  clear K B R. intros Hl. assert (0 <= i < Z.of_nat (length qs)) by (by eapply zlookup_Some_range).
  rewrite (mjoin_zinsert (zinsert i (l ++ [d]) qs) i (l ++ [d]) l d).
  - unfold zinsert. case_decide; [|lia]. rewrite list_insert_insert_eq.
    rewrite list_insert_id; [done|]. unfold zlookup in Hl. by case_decide.
  - by apply zlookup_zinsert_eq.
  - by rewrite Permutation_app_comm.
Qed.

Lemma mjoin_elem {A} (qs : list (list A)) i l (c : A) : zlookup qs i = Some l -> c ∈ l -> c ∈ mjoin qs.
Proof.
  clear K B R. unfold zlookup. case_decide; [|done]. intros Hl Hc. apply list_elem_of_join. exists l.
  split; [done|]. by eapply list_elem_of_lookup_2.
Qed.

(** A command among the commands of a queue can be erased. *)
Lemma erase_cmd_spec c l : c ∈ l -> exists d l', erase_cmd c l = Some l' /\ l ≡ₚ d :: l' /\ d ∈ l /\
  hex_addr d = hex_addr c /\ cmd_type d = cmd_type c.
Proof.
  induction l as [|x l IH]; [by intros ?%not_elem_of_nil|]. intros Hc. cbn [erase_cmd].
  destruct ((hex_addr c =? hex_addr x) && bool_decide (cmd_type c = cmd_type x)) eqn:E.
  - zb. apply bool_decide_eq_true in H0. exists x, l. split_and!; try done. by left.
  - apply elem_of_cons in Hc as [->|Hc].
    { rewrite Z.eqb_refl, bool_decide_true in E by done. done. }
    destruct (IH Hc) as (d & l' & -> & Hp & Hd & ? & ?). exists d, (x :: l'). split_and!; try done.
    + rewrite Hp. apply perm_swap.
    + by right.
Qed.

Lemma queued_eq q i j c d :
  queued_ok q i c -> queued_ok q j d -> hex_addr c = hex_addr d -> cmd_type c = cmd_type d -> c = d.
Proof.
  intros (_ & _ & _ & Hc) (_ & _ & _ & Hd) Hh Ht. destruct c, d. simpl in *. congruence.
Qed.

Lemma EraseRWCommand_spec q i l c :
  bank_count_ok config -> queue_inv q -> zlookup (queues_ q) i = Some l -> c ∈ l ->
  exists l', EraseRWCommand c q = Done (set_queues (zinsert i l' (queues_ q)) q) /\
    l ≡ₚ c :: l' /\ queue_inv (set_queues (zinsert i l' (queues_ q)) q) /\
    all_cmds q ≡ₚ c :: all_cmds (set_queues (zinsert i l' (queues_ q)) q).
Proof.
  intros Hn Hi Hl Hc. pose proof Hi as (Hlen & Hre & Hnum & Hidx & Hq). pose proof (Hq i l c Hl Hc) as Hok.
  destruct (erase_cmd_spec c l Hc) as (d & l' & E & Hp & Hd & Hh & Ht).
  assert (d = c) as -> by (eapply queued_eq; [by apply (Hq i l d)|by apply (Hq i l c)|done|done]).
  exists l'. split_and!; [|done| |].
  - unfold EraseRWCommand, GetQueue. destruct Hok as (Hix & _). unfold cmd_index_in in *. rewrite Hix.
    rewrite (vget_Some _ _ _ Hl). cbn [mbind outcome_bind]. by rewrite E.
  - split; [cbn; by rewrite length_zinsert|]. split; [done|]. split; [done|]. split; [done|].
    intros j m e Hm He. destruct (decide (i = j)) as [<-|Hne].
    + cbn in Hm. rewrite zlookup_zinsert_eq in Hm by (by eapply zlookup_Some_range). injection Hm as <-.
      apply (Hq i l e Hl). rewrite Hp. by right.
    + cbn in Hm. rewrite zlookup_zinsert_ne in Hm by done. by apply (Hq j m e Hm).
  - by apply mjoin_zinsert with l.
Qed.

Lemma AddCommand_spec q c l :
  bank_count_ok config -> queue_inv q -> IsReadWrite c = true -> in_range config (cmd_pos c) ->
  cmd_addr c = AddressMapping (map_ config) (hex_addr c) ->
  zlookup (queues_ q) (cmd_index_in q c) = Some l -> Z.of_nat (length l) < queue_size_ q ->
  exists q', AddCommand c q = Done (true, q') /\ queue_inv q' /\ all_cmds q' ≡ₚ c :: all_cmds q /\
    q_clk_ q' = q_clk_ q.
Proof.
  intros Hn Hi Hrw Hin Ha Hl Hlt. pose proof Hi as (Hlen & Hre & Hnum & Hidx & Hq).
  unfold AddCommand, GetQueue. fold (cmd_index_in q c). rewrite (vget_Some _ _ _ Hl). cbn [mbind outcome_bind].
  destruct (_ <? _) eqn:E; zb; [|lia]. rewrite vset_in_range by (destruct Hin as [? _]; simpl in *; lia).
  cbn [mbind outcome_bind]. eexists. split; [reflexivity|]. split; [|split; [by apply mjoin_zinsert_snoc|done]].
  split; [cbn; by rewrite length_zinsert|]. split; [cbn; by rewrite length_zinsert|]. split; [done|]. split; [done|].
  intros j m e Hm He. cbn in Hm. destruct (decide (cmd_index_in q c = j)) as [<-|Hne].
  - rewrite zlookup_zinsert_eq in Hm by (by eapply zlookup_Some_range). injection Hm as <-.
    apply elem_of_app in He as [He|He]; [by apply (Hq _ l e Hl)|]. apply list_elem_of_singleton in He as ->. done.
  - rewrite zlookup_zinsert_ne in Hm by done. by apply (Hq j m e Hm).
Qed.

(** ** A command to issue is what the channel answered to a queued command *)

Definition issuable (c : Command) : Prop := IsReadWrite c = true /\ in_range config (cmd_pos c).

Lemma issuable_request c : issuable c -> request_ok config c.
Proof.
  intros [Hrw Hin]. unfold request_ok. unfold IsReadWrite, IsRead, IsWrite, IsRankCMD in *.
  by destruct (cmd_type c).
Qed.

(** The channel answers a column command with itself when it answers with a
    column command. *)
Lemma ready_column cs c clk r :
  IsReadWrite c = true -> c_GetReadyCommand config cs c clk = Done r -> IsReadWrite r = true -> r = c.
Proof.
  intros Hc. unfold c_GetReadyCommand.
  assert (IsRankCMD c = false) as -> by (unfold IsRankCMD, IsReadWrite, IsRead, IsWrite in *; by destruct (cmd_type c)).
  rewrite bget_at. destruct (bank_at _ _) as [b|]; [|done]. cbn [or_undef mbind outcome_bind].
  destruct (GetReadyCommand b c clk) as [r'| | | |] eqn:Er; try done. cbn [mbind outcome_bind].
  destruct (IsValid r') eqn:Hv; cbn [negb]; [|by intros [= <-]].
  intros H Hrw. assert (r' = r) as ->.
  { case_bool_decide; [|by injection H]. destruct (ActivationWindowOk _ _ _ _) as [[]| | | |]; try done; by injection H as <-. }
  destruct (ready_timing _ _ _ _ Er Hv) as (_ & _ & _ & Hreq). apply ready_state in Hreq.
  apply (ready_is_request b c clk r Er Hv).
  unfold IsReadWrite, IsRead, IsWrite in Hrw. destruct (cmd_type r); try done; by destruct Hreq as (_ & ? & _).
Qed.

Lemma ArbitratePrecharge_total cs prev c rest st :
  good config cs -> in_range config (cmd_pos c) ->
  exists o, ArbitratePrecharge cs prev c rest st = Done o /\ keep o.2 = keep st.
Proof.
  intros Hg Hin. unfold ArbitratePrecharge, c_OpenRow, c_RowHitCount.
  destruct (existsb _ prev); [eauto|]. destruct (shape_bank config (bank_states_ cs) (cmd_pos c)) as [b Hb]; [apply Hg|done|].
  rewrite bget_at, Hb. cbn [or_undef mbind outcome_bind]. destruct (_ || _); eauto.
Qed.

Lemma first_ready_spec cs clk rest : forall prev st,
  good config cs -> Forall issuable rest ->
  exists r st', first_ready cs clk prev rest st = Done (r, st') /\ keep st' = keep st /\
    (IsValid r = true -> exists c, c ∈ rest /\ c_GetReadyCommand config cs c clk = Done r).
Proof.
  induction rest as [|c rest IH]; intros prev st Hg Hf; cbn [first_ready].
  { exists no_command, st. done. }
  inversion Hf as [|? ? Hc Hrest]; subst.
  assert (Hnext : forall prev st, exists r st', first_ready cs clk prev rest st = Done (r, st') /\ keep st' = keep st /\
    (IsValid r = true -> exists c', c' ∈ c :: rest /\ c_GetReadyCommand config cs c' clk = Done r)).
  { intros prev' st1. destruct (IH prev' st1 Hg Hrest) as (r & st' & E & Es & Hr). exists r, st'. split; [done|]. split; [done|].
    intros Hv. destruct (Hr Hv) as (c' & ? & ?). exists c'. split; [by right|done]. }
  destruct (ready_total config cs c clk) as [r Er]; [done|by apply issuable_request|left; apply Hc|].
  rewrite Er. cbn [mbind outcome_bind]. destruct (negb (IsValid r)); [apply Hnext|].
  assert (Hthis : forall st1, exists r0 (st' : SimpleStats), Done (r, st1) = Done (r0, st') /\ keep st' = keep st1 /\
    (IsValid r0 = true -> exists c', c' ∈ c :: rest /\ c_GetReadyCommand config cs c' clk = Done r0)).
  { intros st1. exists r, st1. split; [done|]. split; [done|]. intros _. exists c. split; [by left|done]. }
  case_bool_decide.
  - destruct (ArbitratePrecharge_total cs prev c (c :: rest) st) as ([ok st1] & Eo & Es); [done|apply Hc|].
    rewrite Eo. cbn [mbind outcome_bind fst snd] in *. rewrite <- Es. destruct ok; [apply Hthis|apply Hnext].
  - destruct (_ && _); [apply Hnext|apply Hthis].
Qed.

(** What a round of the queues leaves as it is. *)
Definition same_shape (q q' : CommandQueue) : Prop :=
  rank_q_empty q' = rank_q_empty q /\ queue_structure_ q' = queue_structure_ q /\ num_queues_ q' = num_queues_ q /\
  queue_size_ q' = queue_size_ q /\ q_clk_ q' = q_clk_ q /\ is_in_ref_ q' = is_in_ref_ q.

Lemma queue_inv_idx q : queue_inv q -> 0 < num_queues_ q -> queue_inv (set_idx (next_idx q) q).
Proof.
  intros (Hlen & Hre & Hnum & [Hi0 Hi1] & Hq) Hpos. specialize (Hi1 Hpos). split_and!; try done; unfold next_idx; cbn;
    destruct (_ =? _) eqn:E; zb; try lia.
Qed.

Lemma issue_loop_spec cs n : forall q st,
  bank_count_ok config -> good config cs -> queue_inv q -> (0 < n)%nat -> 0 < num_queues_ q ->
  exists c q' st', issue_loop n cs q st = Done (c, q', st') /\ queue_inv q' /\ same_shape q q' /\
    keep st' = keep st /\
    (IsValid c = true -> exists req, req ∈ all_cmds q /\ issuable req /\
       c_GetReadyCommand config cs req (q_clk_ q) = Done c) /\
    (if IsReadWrite c then all_cmds q ≡ₚ c :: all_cmds q' else queues_ q' = queues_ q).
Proof.
  induction n as [|n IH]; intros q st Hn Hg Hi Hpos Hnum; [lia|]. cbn [issue_loop].
  pose proof (queue_inv_idx q Hi Hnum) as Hi1. set (q1 := set_idx (next_idx q) q) in *.
  pose proof Hi1 as (Hlen & _ & _ & [Hx0 Hx1] & Hq). specialize (Hx1 Hnum).
  destruct (zlookup_in_range (queues_ q1) (queue_idx_ q1)) as [l Hl]; [lia|].
  rewrite (vget_Some _ _ _ Hl). cbn [mbind outcome_bind].
  assert (Hnext : forall st, exists c q' st', issue_loop n cs q1 st = Done (c, q', st') /\ queue_inv q' /\
    same_shape q q' /\ keep st' = keep st /\
    (IsValid c = true -> exists req, req ∈ all_cmds q /\ issuable req /\
       c_GetReadyCommand config cs req (q_clk_ q) = Done c) /\
    (if IsReadWrite c then all_cmds q ≡ₚ c :: all_cmds q' else queues_ q' = queues_ q)).
  { intros st1. destruct n as [|n]; [|exact (IH q1 st1 Hn Hg Hi1 ltac:(lia) Hnum)].
    exists no_command, q1, st1. split_and!; done. }
  destruct (_ && _); [apply Hnext|].
  assert (Forall issuable l) as Hf.
  { apply Forall_forall. intros c Hc. destruct (Hq _ l c Hl Hc) as (_ & ? & ? & _). done. }
  destruct (first_ready_spec cs (q_clk_ q1) l [] st Hg Hf) as (r & st' & E & Es & Hr).
  unfold GetFirstReadyInQueue. rewrite E. cbn [mbind outcome_bind fst snd]. rewrite <- Es.
  destruct (IsValid r) eqn:Hv; [|apply Hnext]. destruct (Hr eq_refl) as (c & Hc & Ec).
  assert (exists req, req ∈ all_cmds q /\ issuable req /\ c_GetReadyCommand config cs req (q_clk_ q) = Done r) as Hreq.
  { exists c. split; [by apply (mjoin_elem (queues_ q) (queue_idx_ q1) l)|]. split; [|done].
    by apply (proj1 (Forall_forall _ _) Hf). }
  destruct (IsReadWrite r) eqn:Hrw.
  - assert (r = c) as -> by (eapply ready_column; [|done|done]; by apply (proj1 (Forall_forall _ _) Hf)).
    destruct (EraseRWCommand_spec q1 (queue_idx_ q1) l c) as (l' & Ee & _ & Hi' & Hp); try done.
    rewrite Ee. cbn [mbind outcome_bind]. eexists _, _, _. split; [reflexivity|]. rewrite Hrw. split_and!; try done.
  - exists r, q1, st'. rewrite Hrw. split_and!; try done.
Qed.

(** Every answer of [GetCommandToIssue]: the queues keep their shape, a command
    that is returned is what the channel answered to a queued command, and a
    column command has left its queue exactly once. *)
Lemma GetCommandToIssue_spec cs q st :
  bank_count_ok config -> good config cs -> queue_inv q ->
  exists c q' st', GetCommandToIssue cs q st = Done (c, q', st') /\ queue_inv q' /\ same_shape q q' /\
    keep st' = keep st /\
    (IsValid c = true -> exists req, req ∈ all_cmds q /\ issuable req /\
       c_GetReadyCommand config cs req (q_clk_ q) = Done c) /\
    (if IsReadWrite c then all_cmds q ≡ₚ c :: all_cmds q' else queues_ q' = queues_ q).
Proof.
  intros Hn Hg Hi. unfold GetCommandToIssue. destruct (decide (0 < num_queues_ q)).
  - apply issue_loop_spec; try done. lia.
  - replace (Z.to_nat (num_queues_ q)) with 0%nat by lia. exists no_command, q, st. done.
Qed.

End Queue.
End CmdQ.
