(* ===== verification/DramController.v ===== *)
(** * DRAMsim3: the controller of a channel

    [runtime/DRAMsim3/include/dramsim3/refresh.h], [src/refresh.cc],
    [include/dramsim3/controller.h] and [src/controller.cc].  The multimaps of
    pending transactions are lists of pairs; [find] gives the oldest entry of a
    key.  The vectors of waiting transactions carry their capacity, which the
    code consults; the capacity of a vector that grows past it is up to the
    implementation of the library and is the parameter [grow]. *)

From S2P Require Import Prelude DramCommon DramBank ChannelState SimpleStats CommandQueue.

Module Ctrl.
Import Dram Bank Chan Stats CmdQ.
Local Open Scope string_scope.
Local Open Scope Z_scope.

(** ** Refresh *)

Record Refresh := mk_refresh {
  r_clk_ : Z;
  refresh_interval_ : Z;
  next_rank_ : Z;
  next_bg_ : Z;
  next_bank_ : Z
}.

Section Refresh.
Variable config : Config.
Let policy := refresh_policy (sys_ config).
Let R := ranks (size_ config).

(** [Refresh::Refresh]; a zero divisor has no meaning. *)
Definition new_refresh : outcome Refresh :=
  match policy with
  | RANK_LEVEL_SIMULTANEOUS => Done (mk_refresh 0 (tREFI (tim_ config)) 0 0 0)
  | BANK_LEVEL_STAGGERED => Done (mk_refresh 0 (tREFIb (tim_ config)) 0 0 0)
  | RANK_LEVEL_STAGGERED =>
      if R =? 0 then Undef else Done (mk_refresh 0 (Z.quot (tREFI (tim_ config)) R) 0 0 0)
  end.

(** [x % n] of two [int]s. *)
Definition int_rem (x n : Z) : outcome Z := if n =? 0 then Undef else Done (Z.rem x n).

(** [Refresh::IterateNext]. *)
Definition IterateNext (f : Refresh) : outcome Refresh :=
  match policy with
  | RANK_LEVEL_STAGGERED =>
      r ← int_rem (next_rank_ f + 1) R;
      Done (mk_refresh (r_clk_ f) (refresh_interval_ f) r (next_bg_ f) (next_bank_ f))
  | BANK_LEVEL_STAGGERED =>
      g ← int_rem (next_bg_ f + 1) (bankgroups (str_ config));
      if g =? 0 then
        b ← int_rem (next_bank_ f + 1) (banks_per_group (str_ config));
        if b =? 0 then
          r ← int_rem (next_rank_ f + 1) R;
          Done (mk_refresh (r_clk_ f) (refresh_interval_ f) r g b)
        else Done (mk_refresh (r_clk_ f) (refresh_interval_ f) (next_rank_ f) g b)
      else Done (mk_refresh (r_clk_ f) (refresh_interval_ f) (next_rank_ f) g (next_bank_ f))
  | RANK_LEVEL_SIMULTANEOUS => AbruptExit
  end.

(** The loop of the simultaneous policy, which stops at the first rank that is
    awake. *)
Fixpoint first_awake (rs : list Z) (cs : ChannelState) : outcome ChannelState :=
  match rs with
  | [] => Done cs
  | i :: rs' =>
      b ← IsRankSelfRefreshing cs i;
      if (b : bool) then first_awake rs' cs else Done (RankNeedRefresh i true cs)
  end.

(** [Refresh::InsertRefresh]. *)
Definition InsertRefresh (f : Refresh) (cs : ChannelState) : outcome (Refresh * ChannelState) :=
  match policy with
  | RANK_LEVEL_SIMULTANEOUS => cs' ← first_awake (zrange 0 (Z.to_nat R)) cs; Done (f, cs')
  | RANK_LEVEL_STAGGERED =>
      b ← IsRankSelfRefreshing cs (next_rank_ f);
      f' ← IterateNext f;
      Done (f', if (b : bool) then cs else RankNeedRefresh (next_rank_ f) true cs)
  | BANK_LEVEL_STAGGERED =>
      b ← IsRankSelfRefreshing cs (next_rank_ f);
      f' ← IterateNext f;
      Done (f', if (b : bool) then cs else BankNeedRefresh (next_rank_ f) (next_bg_ f) (next_bank_ f) true cs)
  end.

Definition tick_clk (f : Refresh) : Refresh :=
  mk_refresh (u64 (r_clk_ f + 1)) (refresh_interval_ f) (next_rank_ f) (next_bg_ f) (next_bank_ f).

(** [Refresh::ClockTick]; the interval is converted to 64 bits without sign. *)
Definition f_ClockTick (f : Refresh) (cs : ChannelState) : outcome (Refresh * ChannelState) :=
  if u64 (refresh_interval_ f) =? 0 then Undef
  else if (r_clk_ f mod u64 (refresh_interval_ f) =? 0) && (r_clk_ f >? 0) then
    p ← InsertRefresh f cs; Done (tick_clk p.1, p.2)
  else Done (tick_clk f, cs).
End Refresh.

(** ** The state of a controller *)

Record tqueue := mk_tq { items : list Transaction; capacity : Z }.

Record Controller := mk_ctrl {
  clk_ : Z;
  simple_stats_ : SimpleStats;
  channel_state_ : ChannelState;
  cmd_queue_ : CommandQueue;
  refresh_ : Refresh;
  unified_queue_ : tqueue;
  read_queue_ : tqueue;
  write_buffer_ : tqueue;
  pending_rd_q_ : list (Z * Transaction);
  pending_wr_q_ : list (Z * Transaction);
  return_queue_ : list Transaction;
  last_trans_clk_ : Z;
  write_draining_ : Z
}.

Definition set_stats (x : SimpleStats) (c : Controller) : Controller :=
  mk_ctrl (clk_ c) x (channel_state_ c) (cmd_queue_ c) (refresh_ c) (unified_queue_ c) (read_queue_ c)
    (write_buffer_ c) (pending_rd_q_ c) (pending_wr_q_ c) (return_queue_ c) (last_trans_clk_ c) (write_draining_ c).
Definition set_cs (x : ChannelState) (c : Controller) : Controller :=
  mk_ctrl (clk_ c) (simple_stats_ c) x (cmd_queue_ c) (refresh_ c) (unified_queue_ c) (read_queue_ c)
    (write_buffer_ c) (pending_rd_q_ c) (pending_wr_q_ c) (return_queue_ c) (last_trans_clk_ c) (write_draining_ c).
Definition set_cq (x : CommandQueue) (c : Controller) : Controller :=
  mk_ctrl (clk_ c) (simple_stats_ c) (channel_state_ c) x (refresh_ c) (unified_queue_ c) (read_queue_ c)
    (write_buffer_ c) (pending_rd_q_ c) (pending_wr_q_ c) (return_queue_ c) (last_trans_clk_ c) (write_draining_ c).
Definition set_refresh (x : Refresh) (c : Controller) : Controller :=
  mk_ctrl (clk_ c) (simple_stats_ c) (channel_state_ c) (cmd_queue_ c) x (unified_queue_ c) (read_queue_ c)
    (write_buffer_ c) (pending_rd_q_ c) (pending_wr_q_ c) (return_queue_ c) (last_trans_clk_ c) (write_draining_ c).
Definition set_waiting (u r w : tqueue) (d : Z) (c : Controller) : Controller :=
  mk_ctrl (clk_ c) (simple_stats_ c) (channel_state_ c) (cmd_queue_ c) (refresh_ c) u r w (pending_rd_q_ c)
    (pending_wr_q_ c) (return_queue_ c) (last_trans_clk_ c) d.
Definition set_pending (rd wr : list (Z * Transaction)) (ret : list Transaction) (c : Controller) : Controller :=
  mk_ctrl (clk_ c) (simple_stats_ c) (channel_state_ c) (cmd_queue_ c) (refresh_ c) (unified_queue_ c) (read_queue_ c)
    (write_buffer_ c) rd wr ret (last_trans_clk_ c) (write_draining_ c).
Definition set_clk (x l : Z) (c : Controller) : Controller :=
  mk_ctrl x (simple_stats_ c) (channel_state_ c) (cmd_queue_ c) (refresh_ c) (unified_queue_ c) (read_queue_ c)
    (write_buffer_ c) (pending_rd_q_ c) (pending_wr_q_ c) (return_queue_ c) l (write_draining_ c).
Definition bump (name : string) (c : Controller) : Controller := set_stats (Increment name (simple_stats_ c)) c.

(** [multimap::count], and [find] with [erase] of what it found. *)
Definition mcount (a : Z) (l : list (Z * Transaction)) : nat := length (filter (fun e => e.1 = a) l).
Fixpoint mtake (a : Z) (l : list (Z * Transaction)) : option (Transaction * list (Z * Transaction)) :=
  match l with
  | [] => None
  | e :: l' =>
      if e.1 =? a then Some (e.2, l')
      else match mtake a l' with Some (t, l'') => Some (t, e :: l'') | None => None end
  end.

Definition completed_at (n : Z) (t : Transaction) : Transaction := mk_trans (t_addr t) (added_cycle t) n (is_write t).
Definition added_at (n : Z) (t : Transaction) : Transaction := mk_trans (t_addr t) n (complete_cycle t) (is_write t).

Section Controller.
Variable config : Config.
Variable timing : Timing.
Variable grow : Z -> Z.
Let is_unified := unified_queue (sys_ config).
Let R := ranks (size_ config).

(** [push_back]. *)
Definition tq_push (t : Transaction) (q : tqueue) : tqueue :=
  mk_tq (items q ++ [t]) (if Z.of_nat (length (items q)) <? capacity q then capacity q else grow (capacity q)).

(** [Controller::Controller]. *)
Definition new_controller : outcome Controller :=
  q ← new_command_queue config;
  f ← new_refresh config;
  let n := trans_queue_size (sys_ config) in
  if n <? 0 then Throw else
  let none := mk_tq [] 0 in let some := mk_tq [] n in
  Done (mk_ctrl 0 (new_stats config) (new_channel_state config) q f
          (if is_unified then some else none) (if is_unified then none else some)
          (if is_unified then none else some) [] [] [] 0 0).

(** [Controller::ReturnDoneTrans]: the first transaction that is complete. *)
Fixpoint first_done (clk : Z) (l : list Transaction) : option (Transaction * list Transaction) :=
  match l with
  | [] => None
  | t :: l' =>
      if clk >=? complete_cycle t then Some (t, l')
      else match first_done clk l' with Some (u, l'') => Some (u, t :: l'') | None => None end
  end.

Definition ReturnDoneTrans (clk : Z) (c : Controller) : option (Z * bool) * Controller :=
  match first_done clk (return_queue_ c) with
  | None => (None, c)
  | Some (t, l) =>
      let c1 := if is_write t then bump "num_writes_done" c
                else set_stats (AddValue "read_latency" (u64 (clk_ c - added_cycle t))
                       (Increment "num_reads_done" (simple_stats_ c))) c in
      (Some (t_addr t, is_write t), set_pending (pending_rd_q_ c1) (pending_wr_q_ c1) l c1)
  end.

Definition WillAcceptTransaction (c : Controller) (hex_addr : Z) (wr : bool) : bool :=
  let room q := Z.of_nat (length (items q)) <? capacity q in
  if is_unified then room (unified_queue_ c)
  else if negb wr then room (read_queue_ c) else room (write_buffer_ c).

(** A transaction joins the queue it waits in. *)
Definition enqueue (t : Transaction) (c : Controller) : Controller :=
  if is_unified then set_waiting (tq_push t (unified_queue_ c)) (read_queue_ c) (write_buffer_ c) (write_draining_ c) c
  else if is_write t
  then set_waiting (unified_queue_ c) (read_queue_ c) (tq_push t (write_buffer_ c)) (write_draining_ c) c
  else set_waiting (unified_queue_ c) (tq_push t (read_queue_ c)) (write_buffer_ c) (write_draining_ c) c.

(** [Controller::AddTransaction]. *)
Definition AddTransaction (t0 : Transaction) (c0 : Controller) : Controller :=
  let t := added_at (clk_ c0) t0 in
  let c := set_clk (clk_ c0) (clk_ c0)
             (set_stats (AddValue "interarrival_latency" (u64 (clk_ c0 - last_trans_clk_ c0)) (simple_stats_ c0)) c0) in
  let a := t_addr t in
  let returned c := set_pending (pending_rd_q_ c) (pending_wr_q_ c)
                      (return_queue_ c ++ [completed_at (u64 (clk_ c + 1)) t]) c in
  if is_write t then
    returned (if (mcount a (pending_wr_q_ c) =? 0)%nat
              then enqueue t (set_pending (pending_rd_q_ c) (pending_wr_q_ c ++ [(a, t)]) (return_queue_ c) c)
              else c)
  else if (0 <? mcount a (pending_wr_q_ c))%nat then returned c
  else
    let c1 := set_pending (pending_rd_q_ c ++ [(a, t)]) (pending_wr_q_ c) (return_queue_ c) c in
    if (mcount a (pending_rd_q_ c1) =? 1)%nat then enqueue t c1 else c1.

Definition TransToCommand (t : Transaction) : Command :=
  let open_page := negb (bool_decide (row_buf_policy (sys_ config) = "CLOSE_PAGE"%string)) in
  let ty := if open_page then if is_write t then WRITE else READ
            else if is_write t then WRITE_PRECHARGE else READ_PRECHARGE in
  mk_cmd ty (AddressMapping (map_ config) (t_addr t)) (t_addr t).

(** ** Issuing a command *)

(** The [while] loop that returns all reads of an address. *)
Fixpoint return_reads (n : nat) (a done_at : Z) (rd : list (Z * Transaction)) (ret : list Transaction)
    : outcome (list (Z * Transaction) * list Transaction) :=
  match n with
  | O => Done (rd, ret)
  | S n' =>
      match mtake a rd with
      | None => Undef
      | Some (t, rd') => return_reads n' a done_at rd' (ret ++ [completed_at done_at t])
      end
  end.

Definition row_hit (cmd : Command) (c : Controller) : outcome bool :=
  n ← c_RowHitCount (channel_state_ c) (cmd_pos cmd); Done (negb (n =? 0)).

(** [Controller::UpdateCommandStats]. *)
Definition UpdateCommandStats (cmd : Command) (c : Controller) : outcome Controller :=
  match cmd_type cmd with
  | READ | READ_PRECHARGE =>
      hit ← row_hit cmd c;
      Done (if (hit : bool) then bump "num_read_row_hits" (bump "num_read_cmds" c) else bump "num_read_cmds" c)
  | WRITE | WRITE_PRECHARGE =>
      hit ← row_hit cmd c;
      Done (if (hit : bool) then bump "num_write_row_hits" (bump "num_write_cmds" c) else bump "num_write_cmds" c)
  | ACTIVATE => Done (bump "num_act_cmds" c)
  | PRECHARGE => Done (bump "num_pre_cmds" c)
  | REFRESH => Done (bump "num_ref_cmds" c)
  | REFRESH_BANK => Done (bump "num_refb_cmds" c)
  | SREF_ENTER => Done (bump "num_srefe_cmds" c)
  | SREF_EXIT => Done (bump "num_srefx_cmds" c)
  | SIZE => AbruptExit
  end.

(** The pending and return queues after a column command. *)
Definition complete_trans (cmd : Command) (c : Controller) : outcome Controller :=
  if IsRead cmd then
    let n := mcount (hex_addr cmd) (pending_rd_q_ c) in
    if (n =? 0)%nat then Exit 1
    else
      p ← return_reads n (hex_addr cmd) (u64 (clk_ c + read_delay (tim_ config))) (pending_rd_q_ c) (return_queue_ c);
      Done (set_pending p.1 (pending_wr_q_ c) p.2 c)
  else if IsWrite cmd then
    match mtake (hex_addr cmd) (pending_wr_q_ c) with
    | None => Exit 1
    | Some (t, wr) =>
        let lat := u64 (clk_ c - added_cycle t + write_delay (tim_ config)) in
        Done (set_pending (pending_rd_q_ c) wr (return_queue_ c)
                (set_stats (AddValue "write_latency" lat (simple_stats_ c)) c))
    end
  else Done c.

(** [Controller::IssueCommand]. *)
Definition IssueCommand (cmd : Command) (c : Controller) : outcome Controller :=
  c1 ← complete_trans cmd c;
  c2 ← UpdateCommandStats cmd c1;
  cs ← UpdateTimingAndStates config timing cmd (clk_ c2) (channel_state_ c2);
  Done (set_cs cs c2).

(** ** Scheduling a transaction *)

Inductive sched := Nothing | Stop | Take (cmd : Command) (rest : list Transaction).

(** The loop over the chosen queue: the first transaction whose command queue
    has room goes, unless it is a write that a pending read forbids. *)
Fixpoint pick_trans (q : CommandQueue) (rd : list (Z * Transaction)) (l : list Transaction) : outcome sched :=
  match l with
  | [] => Done Nothing
  | t :: l' =>
      let cmd := TransToCommand t in
      ok ← WillAcceptCommand config q (Rank cmd) (Bankgroup cmd) (Bank cmd);
      if (ok : bool) then
        if negb is_unified && IsWrite cmd && (0 <? mcount (t_addr t) rd)%nat then Done Stop
        else Done (Take cmd l')
      else
        o ← pick_trans q rd l';
        Done (match o with Take cmd' rest => Take cmd' (t :: rest) | x => x end)
  end.

(** The upper and lower thresholds of the write buffer. *)
Definition start_draining (c : Controller) : Z :=
  let w := write_buffer_ c in let n := Z.of_nat (length (items w)) in
  if (write_draining_ c =? 0) && negb is_unified then
    if (n >=? capacity w) || ((n >? 8) && QueueEmpty (cmd_queue_ c)) then n else 0
  else write_draining_ c.

(** [Controller::ScheduleTransaction]. *)
Definition ScheduleTransaction (c : Controller) : outcome Controller :=
  let d := start_draining c in
  let q := if is_unified then unified_queue_ c else if d >? 0 then write_buffer_ c else read_queue_ c in
  o ← pick_trans (cmd_queue_ c) (pending_rd_q_ c) (items q);
  match o with
  | Nothing => Done (set_waiting (unified_queue_ c) (read_queue_ c) (write_buffer_ c) d c)
  | Stop => Done (set_waiting (unified_queue_ c) (read_queue_ c) (write_buffer_ c) 0 c)
  | Take cmd rest =>
      a ← AddCommand config cmd (cmd_queue_ c);
      let d' := if negb is_unified && IsWrite cmd then d - 1 else d in
      let q' := mk_tq rest (capacity q) in
      Done (set_cq a.2
        (if is_unified then set_waiting q' (read_queue_ c) (write_buffer_ c) d' c
         else if d >? 0 then set_waiting (unified_queue_ c) (read_queue_ c) q' d' c
         else set_waiting (unified_queue_ c) q' (write_buffer_ c) d' c))
  end.

(** ** A clock cycle *)

(** Power updates, part 1: idle cycles of the ranks. *)
Fixpoint count_idle (rs : list Z) (c : Controller) : outcome Controller :=
  match rs with
  | [] => Done c
  | i :: rs' =>
      sr ← IsRankSelfRefreshing (channel_state_ c) i;
      if (sr : bool) then
        st ← IncrementVec "sref_cycles" i (simple_stats_ c); count_idle rs' (set_stats st c)
      else
        idle ← IsAllBankIdleInRank config (channel_state_ c) i;
        n ← vget (rank_idle_cycles (channel_state_ c)) i;
        st ← IncrementVec (if (idle : bool) then "all_bank_idle_cycles" else "rank_active_cycles") i (simple_stats_ c);
        count_idle rs'
          (set_cs (with_idle (zinsert i (if (idle : bool) then n + 1 else 0) (rank_idle_cycles (channel_state_ c)))
                     (channel_state_ c)) (set_stats st c))
  end.

(** A request to a whole rank. *)
Definition rank_request (ty : CommandType) (i : Z) : Command :=
  mk_cmd ty (mk_addr (-1) i (-1) (-1) (-1) (-1)) (u64 (-1)).

(** Power updates, part 2: self refresh of idle ranks; stops at the first rank
    for which a command is issued. *)
Fixpoint self_refresh (rs : list Z) (c : Controller) : outcome Controller :=
  match rs with
  | [] => Done c
  | i :: rs' =>
      sr ← IsRankSelfRefreshing (channel_state_ c) i;
      empty ← vget (rank_q_empty (cmd_queue_ c)) i;
      n ← vget (rank_idle_cycles (channel_state_ c)) i;
      if (sr : bool) then
        if negb empty then
          cmd ← c_GetReadyCommand config (channel_state_ c) (rank_request SREF_EXIT i) (clk_ c);
          if IsValid cmd then IssueCommand cmd c else self_refresh rs' c
        else self_refresh rs' c
      else if (empty : bool) && (n >=? sref_threshold (sys_ config)) then
        cmd ← c_GetReadyCommand config (channel_state_ c) (rank_request SREF_ENTER i) (clk_ c);
        if IsValid cmd then IssueCommand cmd c else self_refresh rs' c
      else self_refresh rs' c
  end.

(** [cmd_queue_.GetCommandToIssue()]. *)
Definition get_command (c : Controller) : outcome (Command * Controller) :=
  o ← GetCommandToIssue config (channel_state_ c) (cmd_queue_ c) (simple_stats_ c);
  Done (o.1.1, set_stats o.2 (set_cq o.1.2 c)).

(** A refresh command when one waits, otherwise a command of the queues. *)
Definition choose_command (c : Controller) : outcome (Command * Controller) :=
  p ← (if IsRefreshWaiting (channel_state_ c)
       then o ← FinishRefresh config (channel_state_ c) (cmd_queue_ c); Done (o.1, set_cq o.2 c)
       else Done (no_command, c));
  if IsValid p.1 then Done p else get_command p.2.

(** The second command of an HBM cycle. *)
Definition dual_command (cmd : Command) (c : Controller) : outcome Controller :=
  if enable_hbm_dual_cmd (str_ config) then
    o ← get_command c;
    if IsValid o.1 && negb (Bool.eqb (IsReadWrite o.1) (IsReadWrite cmd)) then
      c' ← IssueCommand o.1 o.2; Done (bump "hbm_dual_cmds" c')
    else Done o.2
  else Done c.

(** The command part of a cycle, and whether a command was issued. *)
Definition issue_cycle (c : Controller) : outcome (bool * Controller) :=
  o ← choose_command c;
  if IsValid o.1 then
    c1 ← IssueCommand o.1 o.2; c2 ← dual_command o.1 c1; Done (true, c2)
  else Done (false, o.2).

(** [Controller::ClockTick]. *)
Definition ClockTick (c0 : Controller) : outcome Controller :=
  f ← f_ClockTick config (refresh_ c0) (channel_state_ c0);
  o ← issue_cycle (set_refresh f.1 (set_cs f.2 c0));
  c2 ← count_idle (zrange 0 (Z.to_nat R)) o.2;
  c3 ← (if enable_self_refresh (sys_ config) && negb o.1
        then self_refresh (zrange 0 (Z.to_nat R)) c2 else Done c2);
  c4 ← ScheduleTransaction c3;
  Done (bump "num_cycles" (set_cq (q_ClockTick (cmd_queue_ c4)) (set_clk (u64 (clk_ c4 + 1)) (last_trans_clk_ c4) c4))).

Definition c_QueueUsage (c : Controller) : Z := QueueUsage (cmd_queue_ c).

(** [PrintEpochStats], [PrintFinalStats] and [ResetStats]. *)
Definition c_PrintEpochStats (c : Controller) : outcome Controller :=
  st ← PrintEpochStats (simple_stats_ (bump "epoch_num" c)); Done (set_stats st c).
Definition c_PrintFinalStats (c : Controller) : outcome Controller :=
  st ← PrintFinalStats (simple_stats_ c); Done (set_stats st c).
Definition c_ResetStats (c : Controller) : Controller := set_stats (Reset (simple_stats_ c)) c.

End Controller.
(** ** The books of a controller *)

Local Close Scope string_scope.

Definition sig (t : Transaction) : Z * bool := (t_addr t, is_write t).
Definition cmd_sig (c : Command) : Z * bool := (hex_addr c, IsWrite c).
Definition waiting (c : Controller) : list Transaction :=
  items (unified_queue_ c) ++ items (read_queue_ c) ++ items (write_buffer_ c).

(** The addresses that are still to be accessed: transactions that wait and
    commands that are queued. *)
Definition jobs (c : Controller) : list (Z * bool) :=
  map sig (waiting c) ++ map cmd_sig (all_cmds (cmd_queue_ c)).

(** The transactions that are owed to the client. *)
Definition account (c : Controller) : list (Z * bool) :=
  map sig (return_queue_ c) ++ map (fun e => (e.1, false)) (pending_rd_q_ c).

Definition rd_entry (e : Z * Transaction) : Prop := t_addr e.2 = e.1 /\ is_write e.2 = false.

(** With the jobs [hand] taken from a queue and not done yet: an address with
    pending reads, or a pending write, has exactly one job, and there are no
    other jobs. *)
Definition books_of (all : list (Z * bool)) (rd wr : list (Z * Transaction)) : Prop :=
  NoDup all /\ (forall a, (a, false) ∈ all <-> (0 < mcount a rd)%nat) /\
  (forall a, (a, true) ∈ all <-> (0 < mcount a wr)%nat) /\
  (forall a, (mcount a wr <= 1)%nat) /\ Forall rd_entry rd.
Definition books (hand : list (Z * bool)) (c : Controller) : Prop :=
  books_of (hand ++ jobs c) (pending_rd_q_ c) (pending_wr_q_ c).

Definition hand (cmd : Command) : list (Z * bool) := if IsReadWrite cmd then [cmd_sig cmd] else [].

Lemma mcount_perm a l l' : l ≡ₚ l' -> mcount a l = mcount a l'.
Proof. intros H. unfold mcount. by rewrite H. Qed.

Lemma mcount_cons a b t l : mcount a ((b, t) :: l) = ((if decide (b = a) then 1 else 0) + mcount a l)%nat.
Proof. unfold mcount. rewrite filter_cons. simpl. by case_decide. Qed.

Lemma mcount_app a l l' : mcount a (l ++ l') = (mcount a l + mcount a l')%nat.
Proof. unfold mcount. by rewrite filter_app, length_app. Qed.

Lemma mtake_spec a l : (0 < mcount a l)%nat -> exists t l', mtake a l = Some (t, l') /\ l ≡ₚ (a, t) :: l'.
Proof.
  induction l as [|[b u] l IH]; intros Hc; [unfold mcount in Hc; simpl in Hc; lia|].
  rewrite mcount_cons in Hc. cbn [mtake fst snd]. destruct (b =? a) eqn:E; zb.
  - subst b. by exists u, l.
  - rewrite decide_False in Hc by done. destruct (IH Hc) as (t & l' & -> & Hp). exists t, ((b, u) :: l').
    split; [done|]. rewrite Hp. apply perm_swap.
Qed.

Lemma return_reads_spec a d n : forall rd ret, mcount a rd = n ->
  exists ts rd', return_reads n a d rd ret = Done (rd', ret ++ map (completed_at d) ts) /\
    rd ≡ₚ map (pair a) ts ++ rd' /\ mcount a rd' = 0%nat.
Proof.
  induction n as [|n IH]; intros rd ret Hn; cbn [return_reads].
  { exists [], rd. simpl. by rewrite app_nil_r. }
  destruct (mtake_spec a rd) as (t & rd1 & -> & Hp); [lia|].
  destruct (IH rd1 (ret ++ [completed_at d t])) as (ts & rd' & -> & Hp' & Hz).
  { rewrite (mcount_perm a _ _ Hp), mcount_cons, decide_True in Hn by done. lia. }
  exists (t :: ts), rd'. split; [by rewrite <- app_assoc|]. split; [|done]. by rewrite Hp, Hp'.
Qed.

(** Reads of an address complete together. *)
Lemma books_read a all rd wr ts rd' :
  books_of ((a, false) :: all) rd wr -> rd ≡ₚ map (pair a) ts ++ rd' -> mcount a rd' = 0%nat -> books_of all rd' wr.
Proof.
  intros (Hnd & Hr & Hw & H1 & Hf) Hp Hz. apply NoDup_cons in Hnd as [Hna Hnd].
  assert (Hm : forall b, b <> a -> mcount b rd = mcount b rd').
  { intros b Hb. rewrite (mcount_perm b _ _ Hp), mcount_app. enough (mcount b (map (pair a) ts) = 0%nat) by lia.
    clear -Hb. induction ts as [|t ts IH]; [done|].
    change (map (pair a) (t :: ts)) with ((a, t) :: map (pair a) ts). by rewrite mcount_cons, decide_False. }
  split_and!; try done.
  - intros b. destruct (decide (b = a)) as [->|Hne]; [split; [done|lia]|].
    rewrite <- (Hm b Hne), <- Hr, elem_of_cons. split; [by right|]. intros [[= ?]|?]; done.
  - intros b. rewrite <- Hw, elem_of_cons. split; [by right|]. intros [[= ?]|?]; done.
  - rewrite Hp in Hf. by apply Forall_app in Hf as [_ ?].
Qed.

Lemma books_write a all rd wr t wr' :
  books_of ((a, true) :: all) rd wr -> wr ≡ₚ (a, t) :: wr' -> books_of all rd wr'.
Proof.
  intros (Hnd & Hr & Hw & H1 & Hf) Hp. apply NoDup_cons in Hnd as [Hna Hnd].
  assert (Hm : forall b, mcount b wr = ((if decide (a = b) then 1 else 0) + mcount b wr')%nat).
  { intros b. by rewrite (mcount_perm b _ _ Hp), mcount_cons. }
  split_and!; try done.
  - intros b. rewrite <- Hr, elem_of_cons. split; [by right|]. intros [[= ?]|?]; done.
  - intros b. specialize (H1 b). rewrite Hm in H1. destruct (decide (a = b)) as [<-|Hne].
    + split; [done|lia].
    + specialize (Hw b). rewrite Hm, decide_False, elem_of_cons in Hw by done. simpl in Hw. rewrite <- Hw.
      split; [by right|]. intros [[= ?]|?]; [by subst|done].
  - intros b. specialize (H1 b). rewrite Hm in H1. lia.
Qed.

Lemma books_perm all all' rd wr : all ≡ₚ all' -> books_of all rd wr -> books_of all' rd wr.
Proof. intros Hp (Hnd & Hr & Hw & H1 & Hf). split_and!; try done; intros; by rewrite <- Hp. Qed.

Lemma map_pair_account a ts : Forall rd_entry (map (pair a) ts) ->
  map sig (map (completed_at 0) ts) = map (fun e => (e.1, false)) (map (pair a) ts).
Proof.
  induction ts as [|t ts IH]; intros Hf; [done|]. inversion Hf as [|? ? [Ha Hw] Hts]; subst.
  cbn [map fst snd sig completed_at t_addr is_write] in *. unfold sig at 1. cbn. rewrite Hw, Ha. f_equal.
  by apply IH.
Qed.

Lemma completed_sig d ts : map sig (map (completed_at d) ts) = map sig (map (completed_at 0) ts).
Proof. rewrite !map_map. done. Qed.

Lemma books_empty : books_of [] [] [].
Proof.
  split; [constructor|]. split_and!; try done; intros; try (rewrite elem_of_nil); unfold mcount; simpl; lia.
Qed.

Lemma books_add_write a t all rd wr :
  mcount a wr = 0%nat -> books_of all rd wr -> books_of ((a, true) :: all) rd (wr ++ [(a, t)]).
Proof.
  intros H0 (Hnd & Hr & Hw & H1 & Hf).
  assert (Hm : forall b, mcount b (wr ++ [(a, t)]) = (mcount b wr + if decide (a = b) then 1 else 0)%nat).
  { intros b. rewrite mcount_app, mcount_cons. unfold mcount at 2. simpl. lia. }
  split_and!; try done.
  - constructor; [|done]. rewrite Hw. lia.
  - intros b. rewrite <- Hr, elem_of_cons. split; [intros [[=]|]; done|by right].
  - intros b. rewrite Hm, elem_of_cons, Hw. destruct (decide (a = b)) as [<-|Hne]; [split; [lia|by left]|].
    split; [intros [[= ?]|?]; [by subst|lia]|right; lia].
  - intros b. rewrite Hm. specialize (H1 b). destruct (decide (a = b)) as [<-|]; lia.
Qed.

Lemma books_add_read a t all rd wr :
  rd_entry (a, t) -> books_of all rd wr ->
  books_of (if (mcount a rd =? 0)%nat then (a, false) :: all else all) (rd ++ [(a, t)]) wr.
Proof.
  intros Ht (Hnd & Hr & Hw & H1 & Hf).
  assert (Hm : forall b, mcount b (rd ++ [(a, t)]) = (mcount b rd + if decide (a = b) then 1 else 0)%nat).
  { intros b. rewrite mcount_app, mcount_cons. unfold mcount at 2. simpl. lia. }
  assert (Forall rd_entry (rd ++ [(a, t)])) as Hf' by (apply Forall_app; split; [done|by constructor]).
  destruct (mcount a rd =? 0)%nat eqn:E.
  - apply Nat.eqb_eq in E. split_and!; try done.
    + constructor; [|done]. rewrite Hr. lia.
    + intros b. rewrite Hm, elem_of_cons, Hr. destruct (decide (a = b)) as [<-|Hne]; [split; [lia|by left]|].
      split; [intros [[= ?]|?]; [by subst|lia]|right; lia].
    + intros b. rewrite <- Hw, elem_of_cons. split; [intros [[=]|]; done|by right].
  - apply Nat.eqb_neq in E. split_and!; try done. intros b. rewrite Hm, Hr.
    destruct (decide (a = b)) as [<-|Hne]; lia.
Qed.

(** Joining a queue adds one job and nothing else. *)
Lemma enqueue_spec config grow t c :
  let c' := enqueue config grow t c in
  jobs c' ≡ₚ sig t :: jobs c /\ pending_rd_q_ c' = pending_rd_q_ c /\ pending_wr_q_ c' = pending_wr_q_ c /\
  account c' = account c /\ clk_ c' = clk_ c /\ channel_state_ c' = channel_state_ c /\
  simple_stats_ c' = simple_stats_ c /\ cmd_queue_ c' = cmd_queue_ c /\ refresh_ c' = refresh_ c /\
  return_queue_ c' = return_queue_ c.
Proof.
  unfold enqueue. destruct (unified_queue (sys_ config)); [|destruct (is_write t)]; cbn; split_and!; try done;
    unfold jobs, waiting; cbn; rewrite !map_app; cbn; rewrite <- ?app_assoc; cbn; rewrite ?Permutation_middle;
    try done; by rewrite <- !Permutation_middle.
Qed.

(** ** Correctness of the controller *)

Section Correct.
Variable config : Config.
Variable timing : Timing.
Let R := ranks (size_ config).
Let G := bankgroups (str_ config).
Let K := banks_per_group (str_ config).

(** The position of an address. *)
Definition addr_pos (a : Z) : pos := cmd_pos (mk_cmd SIZE (AddressMapping (map_ config) a) a).

(** The configurations the theorems are about: ranks, groups and banks are
    counted right, the address mapping is the one [SetAddressMapping] computed,
    the refresh interval is not zero, self refresh and dual commands are off. *)
Record plain : Prop := {
  plain_banks : bank_count_ok config;
  plain_ranks : 0 < R;
  plain_map : SetAddressMapping (sys_ config) (str_ config) (size_ config) = Done (map_ config);
  plain_columns : 0 <= widths (sys_ config) (str_ config) (size_ config) F_co;
  plain_interval : forall f, new_refresh config = Done f -> u64 (refresh_interval_ f) <> 0;
  plain_sref : enable_self_refresh (sys_ config) = false;
  plain_dual : enable_hbm_dual_cmd (str_ config) = false
}.

Lemma plain_addr : plain -> forall a, in_range config (addr_pos a).
Proof.
  intros [(HG & HK & _) HR Hm Hc _ _ _] a. unfold R in HR. apply (mapping_in_range _ _ _ _ a Hm); [|lia..].
  intros []; try apply LogBase2_nonneg. done.
Qed.

(** *** Readiness of requests *)

(** A ready command is the request itself or a step towards it. *)
Lemma ready_type s req clk c :
  bank_count_ok config -> c_GetReadyCommand config s req clk = Done c -> IsValid c = true ->
  cmd_type c = cmd_type req \/ cmd_type c = ACTIVATE \/ cmd_type c = PRECHARGE \/ cmd_type c = SREF_EXIT.
Proof.
  intros (HG & HK & Hn).
  assert (Hreq : forall b t, required_type b req = Done t ->
    t = cmd_type req \/ t = ACTIVATE \/ t = PRECHARGE \/ t = SREF_EXIT).
  { intros b t Hr. apply ready_state in Hr. destruct t; try tauto; left; try by destruct Hr as (_ & ? & _); by destruct Hr. }
  unfold c_GetReadyCommand. destruct (IsRankCMD req) eqn:Hrk.
  - destruct (scan_rank _ _ _ _ _ _) as [o| | | |] eqn:E; try done. cbn [mbind outcome_bind].
    apply scan_rank_spec in E. destruct o as [c'|[c' m]].
    + intros [= <-] _. destruct E as (x & b & t & h & _ & _ & Hr & _ & _ & ->). by apply (Hreq b).
    + rewrite length_rank_positions in E by lia. destruct (m =? _) eqn:Em; [|by intros [= <-]]. zb.
      destruct E as [_ [[->| ->] _]]; [lia|by intros [= <-] _; left|by intros [= <-]].
  - rewrite bget_at. destruct (bank_at _ _) as [b|]; [|done]. cbn [or_undef mbind outcome_bind].
    destruct (GetReadyCommand b req clk) as [r'| | | |] eqn:Er; try done. cbn [mbind outcome_bind].
    destruct (IsValid r') eqn:Hv; cbn [negb]; [|by intros [= <-]].
    intros H Hvc. assert (r' = c) as ->.
    { case_bool_decide; [|by injection H]. destruct (ActivationWindowOk _ _ _ _) as [[]| | | |]; try done; by injection H as <-. }
    destruct (ready_timing _ _ _ _ Er Hv) as (_ & _ & _ & Hr). by apply (Hreq b).
Qed.

(** *** What the controller keeps about its channel *)

Definition ref_ok (c : Command) : Prop :=
  cmd_type c = REFRESH /\ 0 <= Rank c < R \/ cmd_type c = REFRESH_BANK /\ in_range config (cmd_pos c).

Definition awake (s : ChannelState) : Prop := rank_is_sref_ s = replicate (Z.to_nat R) false.

Definition chan_ok (clk : Z) (s : ChannelState) : Prop :=
  (exists now tr, run config timing now tr s /\ now <= clk) /\ awake s /\
  Z.of_nat (length (rank_idle_cycles s)) = R /\ Forall ref_ok (refresh_q_ s).

Lemma chan_good clk s : plain -> chan_ok clk s -> good config s.
Proof.
  intros Hp ((now & tr & Hrun & _) & _). apply (channel_run_inv config timing now tr s); [apply Hp|apply Z.lt_le_incl, Hp|done].
Qed.

Lemma awake_lookup s r : awake s -> 0 <= r < R -> zlookup (rank_is_sref_ s) r = Some false.
Proof.
  intros -> Hr. unfold zlookup. rewrite decide_True by lia. apply lookup_replicate. split; [done|lia].
Qed.

Lemma ref_request s c : awake s -> ref_ok c -> request_ok config c /\ servable s c.
Proof.
  intros Ha Hr. unfold request_ok, servable, IsRankCMD. destruct Hr as [[-> Hr]|[-> Hr]].
  - split; [done|]. right. split; [by left|]. by apply awake_lookup.
  - split; [done|]. right. split; [tauto|]. apply awake_lookup; [done|]. apply Hr.
Qed.

(** What issuing leaves alone, and what it takes from the pending refreshes. *)
Lemma erase_refresh_sub f q c : c ∈ erase_refresh f q -> c ∈ q.
Proof.
  induction q as [|d q IH]; cbn; [done|]. destruct (f d); [by right|].
  intros [->|H]%elem_of_cons; [by left|right; by apply IH].
Qed.

Lemma update_frame c clk s s' :
  UpdateTimingAndStates config timing c clk s = Done s' ->
  rank_idle_cycles s' = rank_idle_cycles s /\ (forall d, d ∈ refresh_q_ s' -> d ∈ refresh_q_ s).
Proof.
  unfold UpdateTimingAndStates. intros H. apply bind_Done in H as (s1 & H1 & H2).
  assert (rank_idle_cycles s1 = rank_idle_cycles s /\ (forall d, d ∈ refresh_q_ s1 -> d ∈ refresh_q_ s)) as [E1 Q1].
  { unfold c_UpdateState in H1. destruct (IsRankCMD c).
    - apply bind_Done in H1 as (bs & _ & H1). unfold vset in H1.
      destruct (cmd_type c); try destruct (zlookup _ _); cbn in H1; try done; injection H1 as <-; try done.
      split; [done|]. intros d Hd. cbn in Hd. by apply erase_refresh_sub in Hd.
    - apply bind_Done in H1 as (bs & _ & H1). destruct (IsRefresh c); injection H1 as <-; [|done].
      split; [done|]. intros d Hd. cbn in Hd. by apply erase_refresh_sub in Hd. }
  assert (rank_idle_cycles s' = rank_idle_cycles s1 /\ refresh_q_ s' = refresh_q_ s1) as [-> ->]; [|by rewrite E1].
  assert (Hact : forall r now s2, UpdateActivationTimes config r now s1 = Done s2 ->
    rank_idle_cycles s2 = rank_idle_cycles s1 /\ refresh_q_ s2 = refresh_q_ s1).
  { intros r now s2 H. unfold UpdateActivationTimes in H. apply bind_Done in H as (l & _ & H).
    destruct (is_gddr _); [apply bind_Done in H as (l2 & _ & H)|]; by injection H as <-. }
  unfold c_UpdateTiming in H2. destruct (cmd_type c) eqn:Et; try done;
    try (apply bind_Done in H2 as (bs & _ & H2); by injection H2 as <-);
    apply bind_Done in H2 as (s2 & Hs2 & H2); case_bool_decide; try done;
    apply bind_Done in H2 as (b1 & _ & H2); apply bind_Done in H2 as (b2 & _ & H2);
    apply bind_Done in H2 as (b3 & _ & H2); apply bind_Done in H2 as (b4 & _ & H2);
    injection H2 as <-; cbn; first [by apply (Hact _ _ _ Hs2)|by injection Hs2 as <-].
Qed.

(** Issuing the answer to a request keeps the channel as it should be. *)
Lemma chan_issue clk s req c :
  plain -> chan_ok clk s -> request_ok config req -> cmd_type req <> SREF_ENTER -> cmd_type req <> SREF_EXIT ->
  c_GetReadyCommand config s req clk = Done c -> IsValid c = true ->
  exists s', UpdateTimingAndStates config timing c clk s = Done s' /\ chan_ok clk s'.
Proof.
  intros Hp Hs Hok Hne Hnx Hc Hv. pose proof (chan_good clk s Hp Hs) as Hg.
  destruct Hs as ((now & tr & Hrun & Hle) & Ha & Hidle & Hq). pose proof (plain_banks Hp) as Hn.
  destruct (issue_spec config timing s req clk c Hn Hg Hok Hc Hv) as (s' & E & _ & Hsr & _).
  destruct (update_frame c clk s s' E) as [Ei Hsub]. exists s'. split; [done|]. split_and!.
  - exists clk, ((clk, c) :: tr). split; [|lia]. by eapply run_issue.
  - unfold awake. rewrite Hsr. unfold sref_after.
    assert (cmd_type c <> SREF_ENTER) by (destruct (ready_type s req clk c Hn Hc Hv) as [->|[->|[->| ->]]]; done).
    destruct (cmd_type c) eqn:Et; try done.
    destruct (ready_spec config s req clk c Hn Hok Hc Hv) as (_ & _ & Ht).
    destruct (Ht (cmd_pos c)) as (Hin & b & Hb & _ & Hl); [unfold targets; rewrite Et; by left|].
    unfold legal in Hl. rewrite Et in Hl. destruct Hg as (_ & _ & Hg). apply (Hg _ b Hb Hin) in Hl.
    rewrite awake_lookup in Hl; [done|done|apply Hin].
  - by rewrite Ei.
  - apply Forall_forall. intros d Hd. apply (proj1 (Forall_forall _ _) Hq). by apply Hsub.
Qed.


(** *** Issuing *)

Definition stats_ok (st : SimpleStats) : Prop := stats_shape R st.

(** The parts of a controller that issuing a command leaves alone. *)
Definition frame (c c' : Controller) : Prop :=
  clk_ c' = clk_ c /\ cmd_queue_ c' = cmd_queue_ c /\ refresh_ c' = refresh_ c /\
  unified_queue_ c' = unified_queue_ c /\ read_queue_ c' = read_queue_ c /\ write_buffer_ c' = write_buffer_ c.

Lemma frame_jobs c c' : frame c c' -> jobs c' = jobs c.
Proof. intros (_ & Hq & _ & Hu & Hr & Hw). unfold jobs, waiting. by rewrite Hq, Hu, Hr, Hw. Qed.

(** The transactions of a column command are completed. *)
Lemma complete_trans_spec cmd c :
  books (hand cmd) c ->
  exists c', complete_trans config cmd c = Done c' /\ books [] c' /\ account c' ≡ₚ account c /\ frame c c' /\
    channel_state_ c' = channel_state_ c /\
    keep (simple_stats_ c') = keep (simple_stats_ c).
Proof.
  unfold books, complete_trans, hand, cmd_sig, IsReadWrite. intros Hb.
  destruct (IsRead cmd) eqn:Er.
  - assert (IsWrite cmd = false) as Ew by (unfold IsRead, IsWrite in *; by destruct (cmd_type cmd)).
    rewrite Ew in Hb. cbn [orb app] in Hb. set (a := hex_addr cmd) in *.
    assert (0 < mcount a (pending_rd_q_ c))%nat as Hc by (apply Hb; by left).
    destruct (mcount a (pending_rd_q_ c)) as [|n] eqn:En; [lia|]. cbn [Nat.eqb].
    destruct (return_reads_spec a (u64 (clk_ c + read_delay (tim_ config))) (S n) (pending_rd_q_ c) (return_queue_ c) En)
      as (ts & rd' & E & Hp & Hz). rewrite E. cbn [mbind outcome_bind fst snd]. eexists. split; [reflexivity|].
    split; [by eapply books_read|]. split; [|done]. unfold account. cbn.
    rewrite map_app, completed_sig, (map_pair_account a).
    + rewrite <- app_assoc, <- map_app. by rewrite Hp.
    + destruct Hb as (_ & _ & _ & _ & Hf). rewrite Hp in Hf. by apply Forall_app in Hf as [? _].
  - destruct (IsWrite cmd) eqn:Ew; [|by exists c].
    cbn [orb app] in Hb. set (a := hex_addr cmd) in *.
    assert (0 < mcount a (pending_wr_q_ c))%nat as Hc by (apply Hb; by left).
    destruct (mtake_spec a (pending_wr_q_ c) Hc) as (t & wr' & -> & Hp). eexists. split; [reflexivity|].
    split; [by eapply books_write|]. done.
Qed.

Lemma UpdateCommandStats_spec cmd c :
  good config (channel_state_ c) -> IsValid cmd = true ->
  (IsReadWrite cmd = true -> in_range config (cmd_pos cmd)) ->
  exists c', UpdateCommandStats cmd c = Done c' /\ frame c c' /\ channel_state_ c' = channel_state_ c /\
    pending_rd_q_ c' = pending_rd_q_ c /\ pending_wr_q_ c' = pending_wr_q_ c /\ return_queue_ c' = return_queue_ c /\
    keep (simple_stats_ c') = keep (simple_stats_ c).
Proof.
  intros Hg Hv Hin. unfold IsValid, IsReadWrite, IsRead, IsWrite in *. unfold UpdateCommandStats, row_hit, c_RowHitCount.
  destruct (cmd_type cmd) eqn:Et; try done; try solve [eexists; repeat split];
    (destruct (shape_bank config (bank_states_ (channel_state_ c)) (cmd_pos cmd)) as [b Hb]; [apply Hg|by apply Hin|]);
    rewrite bget_at, Hb; cbn [or_undef mbind outcome_bind]; destruct (RowHitCount b =? 0); eexists; repeat split.
Qed.

Definition ready_for (c : Controller) (req cmd : Command) : Prop :=
  request_ok config req /\ cmd_type req <> SREF_ENTER /\ cmd_type req <> SREF_EXIT /\
  c_GetReadyCommand config (channel_state_ c) req (clk_ c) = Done cmd /\ IsValid cmd = true.

(** A ready command is issued without an exit, and what it completes is moved
    to the return queue. *)
Lemma IssueCommand_spec req cmd c :
  plain -> chan_ok (clk_ c) (channel_state_ c) -> stats_ok (simple_stats_ c) -> books (hand cmd) c ->
  ready_for c req cmd ->
  exists c', IssueCommand config timing cmd c = Done c' /\ chan_ok (clk_ c') (channel_state_ c') /\
    stats_ok (simple_stats_ c') /\ books [] c' /\ account c' ≡ₚ account c /\ frame c c'.
Proof.
  intros Hp Hs Hst Hb (Hok & Hne & Hnx & Hc & Hv). unfold IssueCommand.
  destruct (complete_trans_spec cmd c Hb) as (c1 & -> & Hb1 & Ha1 & Hf1 & Hcs1 & Hst1). cbn [mbind outcome_bind].
  destruct (UpdateCommandStats_spec cmd c1) as (c2 & -> & Hf2 & Hcs2 & Hrd2 & Hwr2 & Hret2 & Hst2); [|done| |].
  { rewrite Hcs1. by apply (chan_good (clk_ c)). }
  { intros Hrw. destruct (ready_spec config (channel_state_ c) req (clk_ c) cmd) as (_ & _ & Ht); try done; [apply Hp|].
    apply Ht. unfold targets, IsReadWrite, IsRead, IsWrite in *. destruct (cmd_type cmd); try done; by left. }
  cbn [mbind outcome_bind]. pose proof Hf1 as (Hk1 & Hf1'). pose proof Hf2 as (Hk2 & Hf2').
  destruct (chan_issue (clk_ c) (channel_state_ c) req cmd) as (s' & E & Hs'); try done.
  rewrite Hk2, Hk1, Hcs2, Hcs1, E. cbn [mbind outcome_bind]. eexists. split; [reflexivity|].
  assert (frame c (set_cs s' c2)) as Hf.
  { destruct Hf1' as (? & ? & ? & ? & ?), Hf2' as (? & ? & ? & ? & ?). split_and!; cbn; congruence. }
  split_and!; try done.
  - cbn. by rewrite Hk2, Hk1.
  - apply (stats_shape_keep R (simple_stats_ c)); [cbn; congruence|done].
  - unfold books in *. rewrite (frame_jobs _ _ Hf). cbn. rewrite Hrd2, Hwr2. by rewrite (frame_jobs _ _ Hf1) in Hb1.
  - unfold account. cbn. by rewrite Hret2, Hrd2.
Qed.

(** *** The parts of a cycle *)

Definition refresh_ok (f : Refresh) : Prop :=
  u64 (refresh_interval_ f) <> 0 /\ 0 <= next_rank_ f < R /\ 0 <= next_bg_ f < G /\ 0 <= next_bank_ f < K.

Definition ctrl_ok (c : Controller) : Prop :=
  chan_ok (clk_ c) (channel_state_ c) /\ stats_ok (simple_stats_ c) /\ queue_inv config (cmd_queue_ c) /\
  q_clk_ (cmd_queue_ c) = clk_ c /\ refresh_ok (refresh_ c).

Lemma chan_post clk s s' q :
  chan_ok clk s -> (forall now tr, run config timing now tr s -> run config timing now tr s') ->
  rank_is_sref_ s' = rank_is_sref_ s -> rank_idle_cycles s' = rank_idle_cycles s ->
  refresh_q_ s' = refresh_q_ s ++ q -> Forall ref_ok q -> chan_ok clk s'.
Proof.
  intros ((now & tr & Hrun & Hle) & Ha & Hi & Hq) Hr Hsr Hid Hrq Hok. split_and!.
  - exists now, tr. split; [by apply Hr|done].
  - unfold awake. by rewrite Hsr.
  - by rewrite Hid.
  - rewrite Hrq. by apply Forall_app.
Qed.

Lemma rank_posted clk s r : 0 <= r < R -> chan_ok clk s -> chan_ok clk (RankNeedRefresh r true s).
Proof.
  intros Hr Hs. eapply chan_post; [done|intros; by constructor|done|done|reflexivity|].
  constructor; [|constructor]. by left.
Qed.

Lemma bank_posted clk s r g b :
  in_range config (r, g, b) -> chan_ok clk s -> chan_ok clk (BankNeedRefresh r g b true s).
Proof.
  intros Hr Hs. eapply chan_post; [done|intros; by constructor|done|done|reflexivity|].
  constructor; [|constructor]. by right.
Qed.

Lemma int_rem_next x n : 0 <= x < n -> exists y, int_rem (x + 1) n = Done y /\ 0 <= y < n.
Proof.
  clear R G K. intros Hx. unfold int_rem. destruct (n =? 0) eqn:E; zb; [lia|]. eexists. split; [reflexivity|].
  apply Z.rem_bound_pos; lia.
Qed.

Lemma IterateNext_spec f :
  plain -> refresh_policy (sys_ config) <> RANK_LEVEL_SIMULTANEOUS -> refresh_ok f ->
  exists f', IterateNext config f = Done f' /\ refresh_ok f'.
Proof.
  intros Hp Hpol (Hi & Hr & Hg & Hb). unfold IterateNext.
  destruct (int_rem_next (next_rank_ f) R Hr) as (r & Er & Hr').
  destruct (int_rem_next (next_bg_ f) G Hg) as (g & Eg & Hg').
  destruct (int_rem_next (next_bank_ f) K Hb) as (b & Eb & Hb').
  unfold R, G, K in Er, Eg, Eb. rewrite Er, Eg, Eb. cbn [mbind outcome_bind].
  destruct (refresh_policy _); [done| |]; [|destruct (g =? 0); [destruct (b =? 0)|]]; eexists; (split; [reflexivity|]);
    split_and!; cbn; done || lia.
Qed.

Lemma first_awake_spec clk s r rs :
  plain -> 0 <= r < R -> chan_ok clk s -> exists s', first_awake (r :: rs) s = Done s' /\ chan_ok clk s'.
Proof.
  intros Hp Hr Hs. cbn [first_awake]. pose proof Hs as (_ & Ha & _). unfold IsRankSelfRefreshing.
  rewrite (vget_Some _ _ _ (awake_lookup s r Ha Hr)). cbn [mbind outcome_bind]. eexists. split; [reflexivity|].
  by apply rank_posted.
Qed.

Lemma f_ClockTick_spec f clk s :
  plain -> refresh_ok f -> chan_ok clk s ->
  exists f' s', f_ClockTick config f s = Done (f', s') /\ refresh_ok f' /\ chan_ok clk s'.
Proof.
  intros Hp Hf Hs. unfold f_ClockTick. destruct (_ =? 0) eqn:E; zb; [by destruct Hf|].
  destruct (_ && _); [|by do 2 eexists]. unfold InsertRefresh.
  pose proof Hs as (_ & Ha & _). pose proof Hf as (_ & Hr & Hg & Hb).
  destruct (refresh_policy (sys_ config)) eqn:Epol.
  { pose proof (plain_ranks Hp) as HR. unfold R in HR. destruct (Z.to_nat (ranks (size_ config))) as [|n] eqn:En; [lia|].
    rewrite zrange_S. destruct (first_awake_spec clk s 0 (zrange (0 + 1) n)) as (s' & -> & Hs'); try done.
    cbn [mbind outcome_bind]. by do 2 eexists. }
  all: unfold IsRankSelfRefreshing; rewrite (vget_Some _ _ _ (awake_lookup s _ Ha Hr)); cbn [mbind outcome_bind];
    destruct (IterateNext_spec f) as (f' & -> & Hf'); [done|by rewrite Epol|done|];
    cbn [mbind outcome_bind]; do 2 eexists; (split; [reflexivity|]); (split; [done|]).
  - by apply rank_posted.
  - by apply bank_posted.
Qed.

(** The command of a cycle. *)
Lemma FinishRefresh_spec c :
  plain -> ctrl_ok c -> IsRefreshWaiting (channel_state_ c) = true ->
  exists cmd q', FinishRefresh config (channel_state_ c) (cmd_queue_ c) = Done (cmd, q') /\
    queue_inv config q' /\ q_clk_ q' = q_clk_ (cmd_queue_ c) /\ queues_ q' = queues_ (cmd_queue_ c) /\
    (IsValid cmd = true -> IsReadWrite cmd = false /\ exists req, ready_for c req cmd).
Proof.
  intros Hp (Hs & _ & Hq & Hclk & _) Hw. unfold FinishRefresh, PendingRefCommand. unfold IsRefreshWaiting in Hw.
  pose proof (chan_good _ _ Hp Hs) as Hg. pose proof Hs as (_ & Ha & _ & Hrq).
  destruct (refresh_q_ (channel_state_ c)) as [|ref rq]; [by rewrite bool_decide_true in Hw|].
  apply Forall_cons in Hrq as [Href _]. destruct (ref_request _ _ Ha Href) as [Hok Hsv].
  cbn [head or_undef mbind outcome_bind].
  assert (exists q1, (if is_in_ref_ (cmd_queue_ c) then Done (cmd_queue_ c)
     else ixs ← GetRefQIndices config ref (cmd_queue_ c); Done (set_ref ixs true (cmd_queue_ c))) = Done q1 /\
     forall ixs b, queue_inv config (set_ref ixs b q1) /\ queue_inv config q1 /\ q_clk_ q1 = q_clk_ (cmd_queue_ c) /\
       queues_ q1 = queues_ (cmd_queue_ c)) as (q1 & -> & Hq1).
  { destruct (is_in_ref_ _); [by eexists|]. unfold GetRefQIndices.
    assert ((banks (str_ config) =? 0) = false) as -> by (apply Z.eqb_neq; destruct (plain_banks Hp) as (? & ? & ->); nia).
    destruct (cmd_type ref), (queue_structure_ (cmd_queue_ c)); cbn [andb mbind outcome_bind]; by eexists. }
  cbn [mbind outcome_bind].
  destruct (ready_total config (channel_state_ c) ref (q_clk_ (cmd_queue_ c)) Hg Hok Hsv) as [cmd Ec].
  rewrite Ec. cbn [mbind outcome_bind]. eexists _, _. split; [reflexivity|].
  assert (Hr : IsValid cmd = true -> IsReadWrite cmd = false /\ exists req, ready_for c req cmd).
  { intros Hv. split.
    - destruct (ready_type _ _ _ _ (plain_banks Hp) Ec Hv) as [E|[E|[E|E]]];
        unfold IsReadWrite, IsRead, IsWrite; rewrite E; try done. by destruct Href as [[-> _]|[-> _]].
    - exists ref. rewrite Hclk in Ec. split_and!; try done; by destruct Href as [[-> _]|[-> _]]. }
  destruct (Hq1 ∅ false) as (? & ? & ? & ?). by destruct (IsRefresh cmd).
Qed.

Lemma jobs_same_queues c q' st :
  queues_ q' = queues_ (cmd_queue_ c) -> jobs (set_stats st (set_cq q' c)) = jobs c.
Proof. intros E. unfold jobs, all_cmds, waiting. cbn. by rewrite E. Qed.

Lemma get_command_spec c :
  plain -> ctrl_ok c -> books [] c ->
  exists cmd c', get_command config c = Done (cmd, c') /\ ctrl_ok c' /\ books (hand cmd) c' /\
    account c' = account c /\ clk_ c' = clk_ c /\ (IsValid cmd = true -> exists req, ready_for c' req cmd).
Proof.
  intros Hp (Hs & Hst & Hq & Hclk & Hf) Hb. unfold get_command.
  destruct (GetCommandToIssue_spec config (channel_state_ c) (cmd_queue_ c) (simple_stats_ c))
    as (cmd & q' & st' & E & Hq' & Hsh & Hev & Hreq & Hcmds); [apply Hp|by apply (chan_good (clk_ c))|done|].
  rewrite E. cbn [mbind outcome_bind fst snd]. eexists _, _. split; [reflexivity|].
  pose proof Hsh as (_ & _ & _ & _ & Hqc & _). split_and!; try done.
  - split_and!; try done; [|cbn; by rewrite Hqc].
    by apply (stats_shape_keep R (simple_stats_ c)).
  - unfold books, hand in *. destruct (IsReadWrite cmd).
    + apply (books_perm (jobs c)); [|done]. unfold jobs, waiting. cbn. rewrite Hcmds. cbn. 
      by rewrite Permutation_middle.
    + cbn. by rewrite jobs_same_queues.
  - intros Hv. destruct (Hreq Hv) as (req & _ & Hiss & Hr). exists req.
    split; [by apply issuable_request|]. cbn. rewrite <- Hclk. destruct Hiss as [Hrw _].
    unfold IsReadWrite, IsRead, IsWrite in Hrw. split_and!; try done; by destruct (cmd_type req).
Qed.

Lemma choose_command_spec c :
  plain -> ctrl_ok c -> books [] c ->
  exists cmd c', choose_command config c = Done (cmd, c') /\ ctrl_ok c' /\ books (hand cmd) c' /\
    account c' = account c /\ clk_ c' = clk_ c /\ (IsValid cmd = true -> exists req, ready_for c' req cmd).
Proof.
  intros Hp Hc Hb. unfold choose_command. destruct (IsRefreshWaiting (channel_state_ c)) eqn:Hw.
  2:{ cbn [mbind outcome_bind fst snd]. by apply get_command_spec. }
  destruct (FinishRefresh_spec c Hp Hc Hw) as (cmd & q' & -> & Hq' & Hqc & Hqs & Hr). cbn [mbind outcome_bind fst snd].
  assert (ctrl_ok (set_cq q' c)) as Hc'.
  { destruct Hc as (Hs & Hst & _ & Hclk & Hf). split_and!; try done. cbn. by rewrite Hqc. }
  assert (jobs (set_cq q' c) = jobs c) as Hj by (unfold jobs, all_cmds, waiting; cbn; by rewrite Hqs).
  assert (books [] (set_cq q' c)) as Hb' by (unfold books in *; by rewrite Hj).
  destruct (IsValid cmd) eqn:Hv.
  - destruct (Hr eq_refl) as [Hrw Hreq]. exists cmd, (set_cq q' c). split_and!; try done. unfold hand. by rewrite Hrw.
  - destruct (get_command_spec (set_cq q' c) Hp Hc' Hb') as (cmd2 & c2 & E & ? & ? & ? & ? & ?).
    exists cmd2, c2. done.
Qed.

Lemma hand_invalid cmd : IsValid cmd = false -> hand cmd = [].
Proof. unfold IsValid, hand, IsReadWrite, IsRead, IsWrite. by destruct (cmd_type cmd). Qed.

Lemma issue_cycle_spec c :
  plain -> ctrl_ok c -> books [] c ->
  exists b c', issue_cycle config timing c = Done (b, c') /\ ctrl_ok c' /\ books [] c' /\ account c' ≡ₚ account c /\
    clk_ c' = clk_ c.
Proof.
  intros Hp Hc Hb. unfold issue_cycle, dual_command. rewrite (plain_dual Hp).
  destruct (choose_command_spec c Hp Hc Hb) as (cmd & c1 & -> & Hc1 & Hb1 & Ha1 & Hk1 & Hr).
  cbn [mbind outcome_bind fst snd]. destruct (IsValid cmd) eqn:Hv.
  - destruct (Hr eq_refl) as (req & Hreq). destruct Hc1 as (Hs & Hst & Hq & Hclk & Hf).
    destruct (IssueCommand_spec req cmd c1) as (c2 & -> & Hs2 & Hst2 & Hb2 & Ha2 & (Hk2 & Hq2 & Hf2 & _)); try done.
    cbn [mbind outcome_bind]. exists true, c2. split_and!; try done; [..|congruence].
    + split_and!; try done; [by rewrite Hq2|by rewrite Hq2, Hk2|by rewrite Hf2].
    + by rewrite Ha2, Ha1.
  - exists false, c1. rewrite (hand_invalid cmd Hv) in Hb1. rewrite Ha1. done.
Qed.

(** Idle cycles and statistics per rank. *)
Lemma all_idle_total bs xs :
  shape config bs -> (forall x, x ∈ xs -> in_range config x) -> exists b, all_idle bs xs = Done b.
Proof.
  intros Hs. induction xs as [|x xs IH]; intros Hin; cbn [all_idle]; [eauto|].
  destruct (shape_bank config bs x Hs) as [b Hb]; [apply Hin; by left|]. rewrite bget_at, Hb.
  cbn [or_undef mbind outcome_bind]. destruct (IsRowOpen b); [eauto|]. apply IH. intros y Hy. apply Hin. by right.
Qed.

Lemma chan_idle clk s l : Z.of_nat (length l) = R -> chan_ok clk s -> chan_ok clk (with_idle l s).
Proof.
  intros Hl ((now & tr & Hrun & Hle) & Ha & Hi & Hq). split_and!; try done. exists now, tr. split; [|done]. by constructor.
Qed.

Lemma count_idle_spec rs : forall c,
  plain -> (forall i, i ∈ rs -> 0 <= i < R) -> ctrl_ok c -> books [] c ->
  exists c', count_idle config rs c = Done c' /\ ctrl_ok c' /\ books [] c' /\ account c' = account c /\ clk_ c' = clk_ c.
Proof.
  induction rs as [|i rs IH]; intros c Hp Hrs Hc Hb; cbn [count_idle]; [by exists c|].
  pose proof Hc as (Hs & Hst & Hq & Hclk & Hf). pose proof Hs as (_ & Ha & Hi & _).
  assert (0 <= i < R) as Hir by (apply Hrs; by left).
  unfold IsRankSelfRefreshing. rewrite (vget_Some _ _ _ (awake_lookup _ i Ha Hir)). cbn [mbind outcome_bind].
  unfold IsAllBankIdleInRank.
  destruct (all_idle_total (bank_states_ (channel_state_ c)) (rank_positions config i)) as [b ->].
  { by apply (chan_good (clk_ c)). } { intros x. by apply in_range_rank. }
  cbn [mbind outcome_bind]. destruct (zlookup_in_range (rank_idle_cycles (channel_state_ c)) i) as [n En]; [lia|].
  rewrite (vget_Some _ _ _ En). cbn [mbind outcome_bind].
  destruct (IncrementVec_shape R (if b then "all_bank_idle_cycles" else "rank_active_cycles") i (simple_stats_ c))
    as (st & -> & Hst'); [destruct b; [by left|by right; left]|done|done|]. cbn [mbind outcome_bind].
  match goal with |- context [count_idle config rs ?c1] => destruct (IH c1) as (c' & ? & ? & ? & ? & ?) end.
  - done.
  - intros; apply Hrs; by right.
  - split_and!; try done. cbn. apply chan_idle; [by rewrite length_zinsert|done].
  - done.
  - by exists c'.
Qed.

(** Scheduling moves one transaction to the command queues. *)
Lemma TransToCommand_spec t :
  let c := TransToCommand config t in
  IsReadWrite c = true /\ cmd_pos c = addr_pos (t_addr t) /\ cmd_sig c = sig t /\
  cmd_addr c = AddressMapping (map_ config) (hex_addr c).
Proof.
  unfold TransToCommand. simpl. case_bool_decide; simpl; destruct t as [a ? ? []]; done.
Qed.

Lemma pick_trans_spec q rd l :
  plain -> queue_inv config q ->
  exists o, pick_trans config q rd l = Done o /\
    match o with
    | Take cmd rest => exists t ql, cmd = TransToCommand config t /\ l ≡ₚ t :: rest /\
        zlookup (queues_ q) (cmd_index_in config q cmd) = Some ql /\ Z.of_nat (length ql) < queue_size_ q
    | _ => True
    end.
Proof.
  intros Hp Hq. induction l as [|t l IH]; cbn [pick_trans]; [by eexists|].
  destruct (TransToCommand_spec t) as (_ & Hpos & _).
  assert (in_range config (cmd_pos (TransToCommand config t))) as Hin by (rewrite Hpos; by apply plain_addr).
  pose proof (index_in_range config q _ _ _ (plain_banks Hp) Hq Hin) as Hix.
  pose proof Hq as (Hlen & _). unfold WillAcceptCommand, GetQueue.
  destruct (zlookup_in_range (queues_ q) (cmd_index_in config q (TransToCommand config t))) as [ql Hql];
    [unfold cmd_index_in; lia|].
  unfold cmd_index_in in Hql. rewrite (vget_Some _ _ _ Hql). cbn [mbind outcome_bind].
  destruct (_ <? _) eqn:E; zb.
  - destruct (_ && _); [by eexists|]. eexists. split; [reflexivity|]. by exists t, ql.
  - destruct IH as (o & -> & Ho). cbn [mbind outcome_bind]. eexists. split; [reflexivity|].
    destruct o as [| |cmd rest]; try done. destruct Ho as (u & ql' & ? & Hp' & ? & ?). exists u, ql'.
    split_and!; try done. rewrite Hp'. apply perm_swap.
Qed.

Lemma ScheduleTransaction_spec c :
  plain -> ctrl_ok c -> books [] c ->
  exists c', ScheduleTransaction config c = Done c' /\ ctrl_ok c' /\ books [] c' /\ account c' = account c /\
    clk_ c' = clk_ c.
Proof.
  intros Hp Hc Hb. pose proof Hc as (Hs & Hst & Hq & Hclk & Hf). unfold ScheduleTransaction.
  set (d := start_draining config c). set (u := unified_queue (sys_ config)).
  set (tq := if u then unified_queue_ c else if d >? 0 then write_buffer_ c else read_queue_ c).
  destruct (pick_trans_spec (cmd_queue_ c) (pending_rd_q_ c) (items tq) Hp Hq) as (o & -> & Ho).
  cbn [mbind outcome_bind]. destruct o as [| |cmd rest]; [by eexists|by eexists|].
  destruct Ho as (t & ql & -> & Hperm & Hql & Hlt). destruct (TransToCommand_spec t) as (Hrw & Hpos & Hsig & Haddr).
  destruct (AddCommand_spec config (cmd_queue_ c) (TransToCommand config t) ql) as (q' & -> & Hq' & Hall & Hqc);
    try done; [apply Hp|rewrite Hpos; by apply plain_addr|].
  cbn [mbind outcome_bind fst snd]. eexists. split; [reflexivity|].
  match goal with |- ctrl_ok ?x /\ _ => set (c' := x) end.
  assert (channel_state_ c' = channel_state_ c /\ simple_stats_ c' = simple_stats_ c /\ cmd_queue_ c' = q' /\
    refresh_ c' = refresh_ c /\ clk_ c' = clk_ c /\ pending_rd_q_ c' = pending_rd_q_ c /\
    pending_wr_q_ c' = pending_wr_q_ c /\ return_queue_ c' = return_queue_ c /\
    waiting c ≡ₚ t :: waiting c') as (E1 & E2 & E3 & E4 & E5 & E6 & E7 & E8 & Hwait).
  { unfold c', tq in *. unfold waiting. destruct u; [|destruct (d >? 0)]; cbn in *; split_and!; try done; rewrite Hperm.
    - done.
    - by do 2 rewrite <- Permutation_middle.
    - by cbn; rewrite <- Permutation_middle. }
  assert (jobs c ≡ₚ jobs c') as Hjobs.
  { unfold jobs. rewrite E3, Hwait, Hall. cbn [map]. rewrite Hsig, <- app_comm_cons. apply Permutation_middle. }
  split_and!; [|unfold books; rewrite E6, E7; by apply (books_perm (jobs c))|by unfold account; rewrite E8, E6|done].
  unfold ctrl_ok. rewrite E1, E2, E3, E4, E5, Hqc. done.
Qed.

(** *** A clock cycle *)

Lemma ClockTick_spec c :
  plain -> ctrl_ok c -> books [] c -> 0 <= clk_ c -> clk_ c + 1 < 2 ^ 64 ->
  exists c', ClockTick config timing c = Done c' /\ ctrl_ok c' /\ books [] c' /\ account c' ≡ₚ account c /\
    clk_ c' = clk_ c + 1.
Proof.
  intros Hp Hc Hb H0 H64. unfold ClockTick. pose proof Hc as (Hs & Hst & Hq & Hclk & Hf).
  destruct (f_ClockTick_spec (refresh_ c) (clk_ c) (channel_state_ c) Hp Hf Hs) as (f' & s' & -> & Hf' & Hs').
  cbn [mbind outcome_bind fst snd].
  destruct (issue_cycle_spec (set_refresh f' (set_cs s' c)) Hp) as (b & c1 & -> & Hc1 & Hb1 & Ha1 & Hk1); [done|done|].
  cbn [mbind outcome_bind fst snd].
  destruct (count_idle_spec (zrange 0 (Z.to_nat R)) c1 Hp) as (c2 & E2 & Hc2 & Hb2 & Ha2 & Hk2); [|done|done|].
  { intros i Hi. apply elem_of_zrange in Hi. pose proof (plain_ranks Hp). lia. }
  unfold R in E2. rewrite E2. cbn [mbind outcome_bind]. rewrite (plain_sref Hp). cbn [andb mbind outcome_bind].
  destruct (ScheduleTransaction_spec c2 Hp Hc2 Hb2) as (c3 & -> & Hc3 & Hb3 & Ha3 & Hk3). cbn [mbind outcome_bind].
  eexists. split; [reflexivity|].
  assert (clk_ c3 = clk_ c) as Hk by (rewrite Hk3, Hk2, Hk1; done).
  assert (u64 (clk_ c3 + 1) = clk_ c + 1) as Hu by (rewrite Hk; apply u64_small; lia).
  destruct Hc3 as (Hs3 & Hst3 & Hq3 & Hclk3 & Hf3).
  split_and!; [|done|change (account c3 ≡ₚ account c); rewrite Ha3, Ha2; exact Ha1|done].
  split_and!; try done.
  - cbn. rewrite Hu. rewrite Hk in Hs3. destruct Hs3 as ((now & tr & Hrun & Hle) & H3).
    split; [|done]. exists now, tr. split; [done|lia].
  - cbn. by rewrite Hclk3.
Qed.

(** *** Adding and returning transactions *)

Lemma enqueue_ok grow t x :
  ctrl_ok x -> books_of (sig t :: jobs x) (pending_rd_q_ x) (pending_wr_q_ x) ->
  let x' := enqueue config grow t x in
  ctrl_ok x' /\ books [] x' /\ account x' = account x /\ clk_ x' = clk_ x.
Proof.
  intros Hx Hb. destruct (enqueue_spec config grow t x) as (Hj & Hrd & Hwr & Ha & Hk & Hs & Hst & Hq & Hf & _).
  split_and!; try done.
  - unfold ctrl_ok. by rewrite Hs, Hst, Hq, Hf, Hk.
  - unfold books. rewrite Hrd, Hwr. by apply (books_perm (sig t :: jobs x)).
Qed.

Lemma returned_ok t n x y :
  ctrl_ok x -> books [] x -> account x = account y -> clk_ x = clk_ y ->
  let x' := set_pending (pending_rd_q_ x) (pending_wr_q_ x) (return_queue_ x ++ [completed_at n t]) x in
  ctrl_ok x' /\ books [] x' /\ account x' ≡ₚ sig t :: account y /\ clk_ x' = clk_ y.
Proof.
  intros Hx Hb Ha Hk. split_and!; try done. rewrite <- Ha. unfold account. cbn. rewrite map_app, <- app_assoc. cbn.
  by rewrite <- Permutation_middle.
Qed.

Lemma AddTransaction_spec grow a wr c :
  ctrl_ok c -> books [] c ->
  let c' := AddTransaction config grow (new_transaction a wr) c in
  ctrl_ok c' /\ books [] c' /\ account c' ≡ₚ (a, wr) :: account c /\ clk_ c' = clk_ c.
Proof.
  intros Hc Hb. unfold AddTransaction. cbv zeta. set (t := added_at (clk_ c) (new_transaction a wr)).
  change (is_write t) with wr. change (t_addr t) with a.
  match goal with |- context [set_clk (clk_ c) (clk_ c) ?x] => set (c1 := set_clk (clk_ c) (clk_ c) x) end.
  assert (Hc1 : ctrl_ok c1) by exact Hc. assert (Hb1 : books [] c1) by exact Hb.
  assert (account c = account c1) as -> by done. assert (clk_ c = clk_ c1) as -> by done.
  change (a, wr) with (sig t). assert (t_addr t = a /\ is_write t = wr) as [Hta Htw] by done. clearbody c1 t. clear c Hc Hb.
  destruct wr.
  - destruct (_ =? 0)%nat eqn:E; [|by apply returned_ok]. apply Nat.eqb_eq in E.
    set (c2 := set_pending (pending_rd_q_ c1) (pending_wr_q_ c1 ++ [(a, t)]) (return_queue_ c1) c1).
    destruct (enqueue_ok grow t c2) as (? & ? & ? & ?); [done| |by apply returned_ok].
    unfold sig. rewrite Hta, Htw. by apply books_add_write.
  - destruct (0 <? _)%nat eqn:E; [by apply returned_ok|].
    set (c2 := set_pending (pending_rd_q_ c1 ++ [(a, t)]) (pending_wr_q_ c1) (return_queue_ c1) c1).
    assert (account c2 ≡ₚ sig t :: account c1) as Ha2.
    { unfold account, c2, sig. cbn. rewrite map_app, app_assoc, Hta, Htw. cbn. by rewrite <- Permutation_cons_append. }
    assert (books_of (if (mcount a (pending_rd_q_ c1) =? 0)%nat then (a, false) :: jobs c2 else jobs c2)
      (pending_rd_q_ c2) (pending_wr_q_ c2)) as Hb2 by (by apply books_add_read).
    assert (mcount a (pending_rd_q_ c2) = S (mcount a (pending_rd_q_ c1))) as Hm.
    { change (pending_rd_q_ c2) with (pending_rd_q_ c1 ++ [(a, t)]).
      rewrite mcount_app, mcount_cons, decide_True by done. unfold mcount at 2. simpl. lia. }
    rewrite Hm. cbn [Nat.eqb]. destruct (mcount a (pending_rd_q_ c1) =? 0)%nat.
    + destruct (enqueue_ok grow t c2) as (? & ? & Ha & ?); [done|unfold sig; by rewrite Hta, Htw|].
      split_and!; try done. by rewrite Ha.
    + done.
Qed.

Lemma first_done_spec clk l t l' : first_done clk l = Some (t, l') -> l ≡ₚ t :: l' /\ complete_cycle t <= clk.
Proof.
  revert t l'. induction l as [|u l IH]; intros t l'; cbn [first_done]; [done|].
  destruct (clk >=? _) eqn:E; zb; [intros [= <- <-]; done|].
  destruct (first_done clk l) as [[v l2]|]; [|done]. intros [= <- <-]. destruct (IH v l2 eq_refl) as [Hp ?].
  split; [|done]. rewrite Hp. apply perm_swap.
Qed.

Lemma ReturnDoneTrans_spec clk c p c' :
  ctrl_ok c -> books [] c -> ReturnDoneTrans clk c = (Some p, c') ->
  ctrl_ok c' /\ books [] c' /\ account c ≡ₚ p :: account c' /\ clk_ c' = clk_ c.
Proof.
  intros Hc Hb. unfold ReturnDoneTrans. destruct (first_done clk (return_queue_ c)) as [[t l]|] eqn:E; [|done].
  apply first_done_spec in E as [Hp _]. intros [= <- <-].
  destruct (is_write t) eqn:Ew; (split_and!; [exact Hc|exact Hb| |done]);
    unfold account; cbn; rewrite Hp; cbn; unfold sig; by rewrite Ew.
Qed.

(** *** A new controller *)

Lemma new_queue_inv q : plain -> new_command_queue config = Done q ->
  queue_inv config q /\ q_clk_ q = 0 /\ all_cmds q = [].
Proof.
  intros Hp. pose proof (plain_ranks Hp). destruct (plain_banks Hp) as (HG & HK & HB).
  assert (0 <= banks (str_ config) * R) by (rewrite HB; nia).
  assert (Hjoin : forall n, mjoin (replicate n ([] : list Command)) = []) by (induction n; done).
  unfold new_command_queue. case_bool_decide; [|case_bool_decide; [|done]]; intros [= <-];
    (split; [|split; [done|apply Hjoin]]); split_and!; cbn; rewrite ?length_replicate; unfold R in *; try lia;
    intros i l c Hl Hc; apply zlookup_replicate in Hl as ->; by apply not_elem_of_nil in Hc.
Qed.

Lemma new_refresh_ok f : plain -> new_refresh config = Done f -> refresh_ok f.
Proof.
  intros Hp Hf. pose proof (plain_interval Hp f Hf). pose proof (plain_ranks Hp). destruct (plain_banks Hp) as (HG & HK & _).
  split; [done|]. unfold new_refresh in Hf.
  destruct (refresh_policy _); [|destruct (_ =? 0); [done|]|]; injection Hf as <-; cbn; unfold G, K; lia.
Qed.

Lemma new_controller_spec c :
  plain -> new_controller config = Done c -> ctrl_ok c /\ books [] c /\ account c = [] /\ clk_ c = 0.
Proof.
  intros Hp. unfold new_controller. destruct (new_command_queue config) as [q| | | |] eqn:Eq; try done.
  cbn [mbind outcome_bind]. destruct (new_refresh config) as [f| | | |] eqn:Ef; try done. cbn [mbind outcome_bind].
  destruct (_ <? 0); [done|]. intros [= <-]. destruct (new_queue_inv q Hp Eq) as (Hq & Hk & Hall).
  pose proof (plain_ranks Hp). split_and!; try done.
  - split_and!; try done; [|by apply new_stats_shape; unfold R in *; lia|by apply new_refresh_ok]. split_and!; try done.
    + exists 0, []. split; [constructor|done].
    + cbn. rewrite length_replicate. unfold R in *. lia.
  - unfold books, jobs, waiting. cbn. rewrite Hall. destruct (unified_queue _); apply books_empty.
Qed.

(** *** Histories *)

(** What a client has asked for and what it was given, newest first; cycles are
    counted in 64 bits. *)
Inductive history (grow : Z -> Z) : list (Z * bool) -> list (Z * bool) -> Controller -> Prop :=
| h_new c : new_controller config = Done c -> history grow [] [] c
| h_add asked given c a wr :
    history grow asked given c ->
    history grow ((a, wr) :: asked) given (AddTransaction config grow (new_transaction a wr) c)
| h_tick asked given c c' :
    history grow asked given c -> clk_ c + 1 < 2 ^ 64 -> ClockTick config timing c = Done c' ->
    history grow asked given c'
| h_return asked given c c' clk p :
    history grow asked given c -> ReturnDoneTrans clk c = (Some p, c') -> history grow asked (p :: given) c'.

Lemma history_inv grow asked given c : plain -> history grow asked given c ->
  ctrl_ok c /\ books [] c /\ asked ≡ₚ given ++ account c /\ 0 <= clk_ c.
Proof.
  intros Hp H. induction H as [c Hn|asked given c a wr H IH|asked given c c' H IH H64 Ht|asked given c c' clk p H IH Hr].
  - destruct (new_controller_spec c Hp Hn) as (? & ? & -> & ->). done.
  - destruct IH as (Hc & Hb & Ha & Hk). destruct (AddTransaction_spec grow a wr c Hc Hb) as (? & ? & Ha' & Hk').
    split_and!; try done; [|by rewrite Hk']. by rewrite Ha', Ha, Permutation_middle.
  - destruct IH as (Hc & Hb & Ha & Hk). destruct (ClockTick_spec c Hp Hc Hb Hk H64) as (c2 & E & ? & ? & Ha' & Hk').
    rewrite Ht in E. injection E as <-. split_and!; try done; [by rewrite Ha, Ha'|lia].
  - destruct IH as (Hc & Hb & Ha & Hk). destruct (ReturnDoneTrans_spec clk c p c' Hc Hb Hr) as (? & ? & Ha' & Hk').
    split_and!; try done; [|by rewrite Hk']. by rewrite Ha, Ha', <- Permutation_middle.
Qed.

(** C17. Whatever transactions arrive and whenever they are collected, a clock
    cycle of the controller ends normally: no request makes a bank exit, every
    issued column command is found in its queue and among the pending
    transactions, no index leaves its vector. *)
Theorem controller_never_exits grow asked given c :
  plain -> history grow asked given c -> clk_ c + 1 < 2 ^ 64 ->
  exists c', ClockTick config timing c = Done c'.
Proof.
  intros Hp H H64. destruct (history_inv grow asked given c Hp H) as (Hc & Hb & _ & Hk).
  destruct (ClockTick_spec c Hp Hc Hb Hk H64) as (c' & E & _). eauto.
Qed.

(** C8. In a channel without dual commands and without self refresh ([plain]), in its
    first 2^64 cycles, transactions are neither lost nor duplicated nor invented: at any time
    the transactions asked for are those given back, those in the return queue
    and the reads that are pending, each as often as it was asked for.  A write is
    in the return queue from the moment it is accepted, so that the pending writes
    are not counted. *)
Theorem transactions_conserved grow asked given c :
  plain -> history grow asked given c ->
  asked ≡ₚ given ++ map sig (return_queue_ c) ++ map (fun e : Z * Transaction => (e.1, false)) (pending_rd_q_ c).
Proof. intros Hp H. by destruct (history_inv grow asked given c Hp H) as (_ & _ & ? & _). Qed.

(** C25. In a channel without dual commands and without self refresh ([plain]), in its
    first 2^64 cycles, every address with a pending read, and every address with a pending
    write, has exactly one job: one transaction that waits or one command in the
    command queues; and every job belongs to a pending transaction.  With dual
    commands a job can be lost ([dual_command_is_lost]). *)
Theorem pending_has_one_job grow asked given c a (wr : bool) :
  plain -> history grow asked given c ->
  let pending := if wr then pending_wr_q_ c else pending_rd_q_ c in
  NoDup (jobs c) /\ ((a, wr) ∈ jobs c <-> (0 < mcount a pending)%nat).
Proof.
  intros Hp H. destruct (history_inv grow asked given c Hp H) as (_ & (Hnd & Hr & Hw & _) & _).
  split; [done|]. destruct wr; [apply Hw|apply Hr].
Qed.

End Correct.

(** ** Runs of the default DDR4 part *)

Lemma demo_plain : plain demo_config.
Proof.
  split; [apply demo_bank_count|by vm_compute|by vm_compute|by vm_compute| |done|done].
  intros f Hf. injection Hf as <-. by vm_compute.
Qed.

(** A script of a client. *)
Inductive demo_op := DAdd (a : Z) (wr : bool) | DTick | DReturn.

Definition demo_grow (n : Z) : Z := 2 * n.

Fixpoint demo_ops (config : Config) (ops : list demo_op) (asked given : list (Z * bool)) (c : Controller)
    : outcome (list (Z * bool) * list (Z * bool) * Controller) :=
  match ops with
  | [] => Done (asked, given, c)
  | DAdd a wr :: ops' =>
      demo_ops config ops' ((a, wr) :: asked) given (AddTransaction config demo_grow (new_transaction a wr) c)
  | DTick :: ops' =>
      if clk_ c + 1 <? 2 ^ 64 then c' ← ClockTick config (new_timing config) c; demo_ops config ops' asked given c'
      else Stuck
  | DReturn :: ops' =>
      match ReturnDoneTrans (clk_ c) c with
      | (Some p, c') => demo_ops config ops' asked (p :: given) c'
      | (None, c') => demo_ops config ops' asked given c
      end
  end.

Definition demo_start (config : Config) (ops : list demo_op) : outcome (list (Z * bool) * list (Z * bool) * Controller) :=
  c ← new_controller config; demo_ops config ops [] [] c.

Lemma demo_ops_history config ops : forall asked given c asked' given' c',
  history config (new_timing config) demo_grow asked given c -> demo_ops config ops asked given c = Done (asked', given', c') ->
  history config (new_timing config) demo_grow asked' given' c'.
Proof.
  induction ops as [|[a wr| |] ops IH]; intros asked given c asked' given' c' H; cbn [demo_ops].
  - by intros [= <- <- <-].
  - apply IH. by apply h_add.
  - destruct (_ <? _) eqn:E; zb; [|done]. destruct (ClockTick _ _ c) as [c1| | | |] eqn:Et; try done.
    cbn [mbind outcome_bind]. apply IH. by apply (h_tick _ _ _ _ _ c).
  - destruct (ReturnDoneTrans (clk_ c) c) as [[p|] c1] eqn:Er; apply IH; [|done].
    by apply (h_return _ _ _ _ _ c c1 (clk_ c) p).
Qed.

Lemma demo_history config ops asked given c :
  demo_start config ops = Done (asked, given, c) -> history config (new_timing config) demo_grow asked given c.
Proof.
  unfold demo_start. intros (c0 & Hn & H)%bind_Done. eapply demo_ops_history; [|done]. by apply h_new.
Qed.

(** Two reads of one address with a write to it in between, and another write;
    the results are collected after [n] cycles. *)
Definition demo_script (n : nat) : list demo_op :=
  [DAdd 64 false; DAdd 64 true; DAdd 128 true; DAdd 64 false] ++ replicate n DTick ++ replicate 4 DReturn.

(** A script that ends as the test [f] says. *)
Lemma demo_result config ops (f : list (Z * bool) -> list (Z * bool) -> Controller -> bool) :
  (match demo_start config ops with Done (a, g, c) => f a g c | _ => false end) = true ->
  exists a g c, history config (new_timing config) demo_grow a g c /\ f a g c = true.
Proof.
  destruct (demo_start config ops) as [[[a g] c]| | | |] eqn:E; try done. intros Hf. exists a, g, c.
  split; [by apply (demo_history config ops)|done].
Qed.

Lemma controller_never_exits_witness :
  exists c, clk_ c = 30 /\ exists c', ClockTick demo_config (new_timing demo_config) c = Done c'.
Proof.
  destruct (demo_result demo_config (demo_script 30) (fun _ _ c => clk_ c =? 30)) as (asked & given & c & H & Hk);
    [vm_compute; reflexivity|]. apply Z.eqb_eq in Hk. exists c. split; [done|].
  apply (controller_never_exits demo_config (new_timing demo_config) demo_grow asked given c).
  - apply demo_plain.
  - exact H.
  - rewrite Hk. reflexivity.
Defined.

Lemma transactions_conserved_witness :
  exists given c, given = [(64, false); (64, false); (128, true); (64, true)] /\
    [(64, false); (128, true); (64, true); (64, false)] ≡ₚ
    given ++ map sig (return_queue_ c) ++ map (fun e : Z * Transaction => (e.1, false)) (pending_rd_q_ c).
Proof.
  destruct (demo_result demo_config (demo_script 50) (fun a g _ =>
    bool_decide (a = [(64, false); (128, true); (64, true); (64, false)]) &&
    bool_decide (g = [(64, false); (64, false); (128, true); (64, true)]))) as (asked & given & c & H & Hk);
    [vm_compute; reflexivity|]. apply andb_prop in Hk as [Ha%bool_decide_eq_true Hg%bool_decide_eq_true].
  exists given, c. split; [done|]. rewrite <- Ha.
  apply (transactions_conserved demo_config (new_timing demo_config) demo_grow asked given c).
  - apply demo_plain.
  - exact H.
Defined.

Lemma pending_has_one_job_witness :
  exists c, jobs c = [(64, true); (128, true); (64, false)] /\
    (NoDup (jobs c) /\ ((64, false) ∈ jobs c <-> (0 < mcount 64 (pending_rd_q_ c))%nat)).
Proof.
  destruct (demo_result demo_config (demo_script 1) (fun _ _ c =>
    bool_decide (jobs c = [(64, true); (128, true); (64, false)]))) as (asked & given & c & H & Hk);
    [vm_compute; reflexivity|]. apply bool_decide_eq_true in Hk. exists c. split; [done|].
  apply (pending_has_one_job demo_config (new_timing demo_config) demo_grow asked given c 64 false).
  - apply demo_plain.
  - exact H.
Defined.

(** ** Two commands in a cycle *)

(** Two ranks of HBM2 with the latencies of the part above. *)
Definition dual_config : Config :=
  let sys := mk_sys 8192 1 64 "rorachbabgco" "PER_BANK" "OPEN_PAGE" 8 32 true 16 RANK_LEVEL_STAGGERED false 1000 false in
  let str := mk_str HBM2 4 4 16 32768 1024 8 8 1 true 4 16 15000 64 16 4 in
  let tim := mk_tp 0 17 12 17 12 6 4 1 9 9 3 18 17 6 4 39 17 420 56 6 7 432 8 20 9360 1950 26 1 1 0 330 24 25 10 21 16 in
  mk_config sys str (mk_size 8 2 8192) (mk_map 64 6 11 11 7 9 12 0 0 1 3 3 32767 127) tim 1204819.

(** With dual commands enabled a command can be lost: when the second command
    of a cycle is a column command like the first, it has left its queue and is
    not issued.  Its read stays pending with no job left that could
    complete it. *)
Theorem dual_command_is_lost :
  exists asked given c, history dual_config (new_timing dual_config) demo_grow asked given c /\
    asked = [(131072, false); (64, true)] /\ given = [(64, true)] /\ return_queue_ c = [] /\
    map fst (pending_rd_q_ c) = [131072] /\ jobs c = [].
Proof.
  destruct (demo_result dual_config ([DAdd 64 true; DAdd 131072 false] ++ replicate 40 DTick ++ replicate 3 DReturn)
    (fun a g c => bool_decide (a = [(131072, false); (64, true)]) && bool_decide (g = [(64, true)]) &&
       bool_decide (return_queue_ c = []) && bool_decide (map fst (pending_rd_q_ c) = [131072]) &&
       bool_decide (jobs c = []))) as (a & g & c & H & Hk); [vm_compute; reflexivity|].
  exists a, g, c. repeat rewrite andb_true_iff in Hk. rewrite !bool_decide_eq_true in Hk. tauto.
Qed.

End Ctrl.
