(* ===== verification/DramSystem.v ===== *)
(** * DRAMsim3: the memory systems

    [runtime/DRAMsim3/include/dramsim3/dram_system.h], [src/dram_system.cc] and
    [src/memory_system.cc]: the channels behind one clock, and the ideal memory of
    fixed latency.  A clock returns the callbacks it makes, in order: the address
    and whether it was a write.  The trace and statistics files are not modelled,
    the statistics are. *)

From S2P Require Import Prelude DramCommon DramBank ChannelState SimpleStats CommandQueue DramController MemCtrl.

Module System.
Import Dram Bank Chan Stats CmdQ Ctrl.

Record JedecDRAMSystem := mk_jedec {
  j_clk_ : Z;
  last_req_clk_ : Z;
  ctrls_ : list Controller
}.

Section System.
Variable config : Config.
Variable grow : Z -> Z.
(** Whether the assertions are compiled out. *)
Variable ndebug : bool.
Let timing := new_timing config.

(** [BaseDRAMSystem::GetChannel]. *)
Definition GetChannel (hex_addr : Z) : Z :=
  field (Z.shiftr hex_addr (shift_bits (map_ config))) (ch_pos (map_ config)) (ch_mask (map_ config)).

Fixpoint new_controllers (n : nat) : outcome (list Controller) :=
  match n with
  | O => Done []
  | S n' => c ← new_controller config; l ← new_controllers n'; Done (c :: l)
  end.

(** [reserve] throws on a size that was negative before its conversion. *)
Definition make_controllers : outcome (list Controller) :=
  if channels (sys_ config) <? 0 then Throw else new_controllers (Z.to_nat (channels (sys_ config))).

(** [JedecDRAMSystem::JedecDRAMSystem]. *)
Definition new_jedec : outcome JedecDRAMSystem :=
  if is_hmc (protocol (str_ config)) then AbruptExit
  else l ← make_controllers; Done (mk_jedec 0 0 l).

Definition j_WillAcceptTransaction (s : JedecDRAMSystem) (hex_addr : Z) (wr : bool) : outcome bool :=
  c ← vget (ctrls_ s) (GetChannel hex_addr); Done (WillAcceptTransaction config c hex_addr wr).

(** [JedecDRAMSystem::AddTransaction], with its [assert]. *)
Definition j_AddTransaction (s : JedecDRAMSystem) (hex_addr : Z) (wr : bool) : outcome (bool * JedecDRAMSystem) :=
  c ← vget (ctrls_ s) (GetChannel hex_addr);
  if WillAcceptTransaction config c hex_addr wr then
    Done (true, mk_jedec (j_clk_ s) (j_clk_ s)
      (zinsert (GetChannel hex_addr) (AddTransaction config grow (new_transaction hex_addr wr) c) (ctrls_ s)))
  else if ndebug then Done (false, mk_jedec (j_clk_ s) (j_clk_ s) (ctrls_ s))
  else Exit 134.

(** The loop that returns what is done on one channel; every round removes a
    transaction from the return queue. *)
Fixpoint drain (fuel : nat) (clk : Z) (c : Controller) : outcome (list (Z * bool) * Controller) :=
  match fuel with
  | O => Stuck
  | S fuel' =>
      match ReturnDoneTrans clk c with
      | (None, c') => Done ([], c')
      | (Some p, c') => o ← drain fuel' clk c'; Done (p :: o.1, o.2)
      end
  end.

Fixpoint drain_all (clk : Z) (l : list Controller) : outcome (list (Z * bool) * list Controller) :=
  match l with
  | [] => Done ([], [])
  | c :: l' =>
      o ← drain (S (length (return_queue_ c))) clk c;
      r ← drain_all clk l';
      Done (o.1 ++ r.1, o.2 :: r.2)
  end.

Fixpoint tick_all (l : list Controller) : outcome (list Controller) :=
  match l with
  | [] => Done []
  | c :: l' => c' ← ClockTick config timing c; r ← tick_all l'; Done (c' :: r)
  end.

Fixpoint epoch_all (l : list Controller) : outcome (list Controller) :=
  match l with
  | [] => Done []
  | c :: l' => c' ← c_PrintEpochStats c; r ← epoch_all l'; Done (c' :: r)
  end.

(** What a clock does to the channels: the callbacks of all of them, then their
    clocks, then the report at the end of an epoch. *)
Definition clock_channels (clk : Z) (l : list Controller) : outcome (list (Z * bool) * list Controller) :=
  d ← drain_all clk l;
  l ← tick_all d.2;
  if u64 (epoch_period config) =? 0 then Undef
  else
    l' ← (if u64 (clk + 1) mod u64 (epoch_period config) =? 0 then epoch_all l else Done l);
    Done (d.1, l').

(** [JedecDRAMSystem::ClockTick]. *)
Definition j_ClockTick (s : JedecDRAMSystem) : outcome (list (Z * bool) * JedecDRAMSystem) :=
  r ← clock_channels (j_clk_ s) (ctrls_ s);
  Done (r.1, mk_jedec (u64 (j_clk_ s + 1)) (last_req_clk_ s) r.2).

(** [BaseDRAMSystem::ResetStats] and the statistics part of [PrintStats]. *)
Definition j_ResetStats (s : JedecDRAMSystem) : JedecDRAMSystem :=
  mk_jedec (j_clk_ s) (last_req_clk_ s) (map c_ResetStats (ctrls_ s)).
Fixpoint final_all (l : list Controller) : outcome (list Controller) :=
  match l with
  | [] => Done []
  | c :: l' => c' ← c_PrintFinalStats c; r ← final_all l'; Done (c' :: r)
  end.
Definition j_PrintStats (s : JedecDRAMSystem) : outcome JedecDRAMSystem :=
  l ← final_all (ctrls_ s); Done (mk_jedec (j_clk_ s) (last_req_clk_ s) l).

(** ** The ideal memory *)

Record IdealDRAMSystem := mk_ideal { i_clk_ : Z; infinite_buffer_q_ : list Transaction }.

Definition new_ideal : IdealDRAMSystem := mk_ideal 0 [].

Definition i_AddTransaction (s : IdealDRAMSystem) (hex_addr : Z) (wr : bool) : IdealDRAMSystem :=
  mk_ideal (i_clk_ s) (infinite_buffer_q_ s ++ [added_at (i_clk_ s) (new_transaction hex_addr wr)]).

Definition due (clk : Z) (t : Transaction) : bool :=
  u64 (clk - added_cycle t) >=? u64 (ideal_memory_latency (tim_ config)).

(** The loop of [IdealDRAMSystem::ClockTick]: after an erasure the iterator is
    already at the next transaction, and is advanced once more. *)
Fixpoint ideal_loop (clk : Z) (l : list Transaction) : list (Z * bool) * list Transaction :=
  match l with
  | [] => ([], [])
  | t :: l' =>
      if due clk t then
        match l' with
        | [] => ([sig t], [])
        | u :: l'' => let r := ideal_loop clk l'' in (sig t :: r.1, u :: r.2)
        end
      else let r := ideal_loop clk l' in (r.1, t :: r.2)
  end.

Definition i_ClockTick (s : IdealDRAMSystem) : list (Z * bool) * IdealDRAMSystem :=
  let r := ideal_loop (i_clk_ s) (infinite_buffer_q_ s) in (r.1, mk_ideal (u64 (i_clk_ s + 1)) r.2).

(** ** What the runtime sees *)

(** The calls of the runtime on a simulator that may have ended the program. *)
#[export] Instance jedec_dram : MemCtrl.DramSystem (outcome JedecDRAMSystem) := {
  MemCtrl.WillAcceptTransaction d a wr :=
    match d with Done s => match j_WillAcceptTransaction s a wr with Done b => b | _ => false end | _ => false end;
  MemCtrl.AddTransaction d a wr := s ← d; r ← j_AddTransaction s a wr; Done r.2;
  MemCtrl.ClockTick d :=
    match (s ← d; j_ClockTick s) with
    | Done (cb, s') => (Done s', cb)
    | Exit n => (Exit n, [])
    | Throw => (Throw, [])
    | Undef => (Undef, [])
    | Stuck => (Stuck, [])
    end
}.

End System.
(** ** Correctness of the system *)

Section Correct.
Variable config : Config.
Variable grow : Z -> Z.
Variable ndebug : bool.

(** A channel in good order at cycle [clk]. *)
Definition chan_inv (clk : Z) (c : Controller) : Prop :=
  ctrl_ok config (new_timing config) c /\ books [] c /\ clk_ c = clk.

Lemma chan_inv_drain clk n fuel : forall c,
  chan_inv clk c -> (length (return_queue_ c) < fuel)%nat ->
  exists ps c', drain fuel n c = Done (ps, c') /\ chan_inv clk c' /\ account c ≡ₚ ps ++ account c' /\
    first_done n (return_queue_ c') = None.
Proof using Type.
  induction fuel as [|fuel IH]; intros c (Hc & Hb & Hk) Hf; [lia|]. cbn [drain].
  destruct (ReturnDoneTrans n c) as [[p|] c1] eqn:E.
  - destruct (ReturnDoneTrans_spec config (new_timing config) n c p c1 Hc Hb E) as (Hc1 & Hb1 & Ha1 & Hk1).
    assert (length (return_queue_ c) = S (length (return_queue_ c1))) as Hl.
    { unfold ReturnDoneTrans in E. destruct (first_done n (return_queue_ c)) as [[t l]|] eqn:Ed; [|done].
      apply first_done_spec in Ed as [Hp _]. injection E as <- <-. rewrite Hp. by destruct (is_write t). }
    destruct (IH c1) as (ps & c2 & -> & Hi2 & Ha2 & Hn2); [by split_and!; [..|congruence]|lia|].
    cbn [mbind outcome_bind fst snd]. exists (p :: ps), c2. split_and!; try done. by rewrite Ha1, Ha2.
  - exists [], c1. unfold ReturnDoneTrans in E. destruct (first_done n (return_queue_ c)) as [[t l]|] eqn:Ed; [done|].
    injection E as <-. done.
Qed.

Lemma drain_all_spec clk n l :
  Forall (chan_inv clk) l ->
  exists ps l', drain_all n l = Done (ps, l') /\ Forall (chan_inv clk) l' /\ length l' = length l /\
    (l ≫= account) ≡ₚ ps ++ (l' ≫= account) /\ Forall (fun c => first_done n (return_queue_ c) = None) l'.
Proof using Type.
  induction l as [|c l IH]; intros Hf; cbn [drain_all]; [by exists [], []|].
  apply Forall_cons in Hf as [Hc Hl].
  destruct (chan_inv_drain clk n (S (length (return_queue_ c))) c Hc) as (ps & c' & -> & Hc' & Ha & Hn); [lia|].
  destruct (IH Hl) as (qs & l' & -> & Hl' & Hlen & Hal & Hnl). cbn [mbind outcome_bind fst snd].
  exists (ps ++ qs), (c' :: l'). split_and!; try done; [by constructor|simpl; by rewrite Hlen| |by constructor].
  cbn [mbind list_bind]. unfold mbind in Hal. rewrite Hal, Ha, <- !app_assoc.
  apply Permutation_app_head, Permutation_app_swap_app.
Qed.

Lemma tick_all_spec clk l :
  plain config -> 0 <= clk -> clk + 1 < 2 ^ 64 -> Forall (chan_inv clk) l ->
  exists l', tick_all config l = Done l' /\ Forall (chan_inv (clk + 1)) l' /\ length l' = length l /\
    (l ≫= account) ≡ₚ (l' ≫= account).
Proof using Type.
  intros Hp H0 H64. induction l as [|c l IH]; intros Hf; cbn [tick_all]; [by exists []|].
  apply Forall_cons in Hf as [(Hc & Hb & <-) Hl].
  destruct (ClockTick_spec config (new_timing config) c Hp Hc Hb H0 H64) as (c' & E & Hc' & Hb' & Ha & Hk).
  destruct (IH Hl) as (l' & E' & Hl' & Hlen & Hal). rewrite E. cbn [mbind outcome_bind]. rewrite E'. cbn [mbind outcome_bind].
  exists (c' :: l'). split_and!; try done; [by constructor|simpl; by rewrite Hlen|].
  cbn [mbind list_bind]. unfold mbind in Hal. by rewrite Hal, Ha.
Qed.

Lemma epoch_all_spec clk l :
  Forall (chan_inv clk) l ->
  exists l', epoch_all l = Done l' /\ Forall (chan_inv clk) l' /\ length l' = length l /\
    (l' ≫= account) = (l ≫= account).
Proof using Type.
  induction l as [|c l IH]; intros Hf; cbn [epoch_all]; [by exists []|].
  apply Forall_cons in Hf as [(Hc & Hb & Hk) Hl]. unfold c_PrintEpochStats.
  destruct (PrintEpochStats_shape (ranks (size_ config)) (simple_stats_ (bump "epoch_num" c))) as (st & -> & Hst);
    [apply Hc|]. destruct (IH Hl) as (l' & E' & Hl' & Hlen & Hal). cbn [mbind outcome_bind]. rewrite E'.
  cbn [mbind outcome_bind]. exists (set_stats st c :: l').
  split_and!; try done; [constructor; [|done]|simpl; by rewrite Hlen|].
  - destruct Hc as (? & _ & ? & ? & ?). by split_and!.
  - change (account c ++ (l' ≫= account) = account c ++ (l ≫= account)). by rewrite Hal.
Qed.

(** *** The system *)

(** A configuration as above, with channels that the mapping can address and
    an epoch. *)
Record plain_system : Prop := {
  sys_plain : plain config;
  sys_channels : 1 <= channels (sys_ config);
  sys_epoch : u64 (epoch_period config) <> 0
}.

Definition sys_inv (s : JedecDRAMSystem) : Prop :=
  Forall (chan_inv (j_clk_ s)) (ctrls_ s) /\ Z.of_nat (length (ctrls_ s)) = channels (sys_ config) /\ 0 <= j_clk_ s.

Definition owed (s : JedecDRAMSystem) : list (Z * bool) := ctrls_ s ≫= account.

Lemma channel_in_range a : plain_system -> 0 <= GetChannel config a < channels (sys_ config).
Proof using Type.
  intros [[_ _ Hm Hc _ _ _] Hch _]. destruct (mapping_layout _ _ _ _ Hm) as (fs & _ & _ & _ & _ & Hf).
  assert (Hw : forall f, 0 <= widths (sys_ config) (str_ config) (size_ config) f)
    by (intros []; try apply LogBase2_nonneg; done).
  destruct (Hf a F_ch Hw) as (p & _ & E).
  change (GetChannel config a) with (get_field F_ch (AddressMapping (map_ config) a)). rewrite E.
  pose proof (LogBase2_le (channels (sys_ config)) Hch).
  pose proof (Z.mod_pos_bound (Z.shiftr a (shift_bits (map_ config)) / 2 ^ p)
    (2 ^ widths (sys_ config) (str_ config) (size_ config) F_ch)).
  pose proof (Z.pow_pos_nonneg 2 (LogBase2 (channels (sys_ config)))). pose proof (LogBase2_nonneg (channels (sys_ config))).
  simpl in *. lia.
Qed.

Lemma clock_channels_spec clk l :
  plain_system -> Forall (chan_inv clk) l -> 0 <= clk -> clk + 1 < 2 ^ 64 ->
  exists cb l', clock_channels config clk l = Done (cb, l') /\ Forall (chan_inv (clk + 1)) l' /\ length l' = length l /\
    (l ≫= account) ≡ₚ cb ++ (l' ≫= account).
Proof using Type.
  intros Hp Hi H0 H64. unfold clock_channels.
  destruct (drain_all_spec clk clk l Hi) as (ps & l1 & -> & Hi1 & Hl1 & Ha1 & _).
  cbn [mbind outcome_bind fst snd].
  destruct (tick_all_spec clk l1 (sys_plain Hp) H0 H64 Hi1) as (l2 & -> & Hi2 & Hl2 & Ha2).
  cbn [mbind outcome_bind]. destruct (_ =? 0) eqn:E; zb; [by destruct (sys_epoch Hp)|]. rewrite u64_small by lia.
  assert (exists l3, (if (clk + 1) mod u64 (epoch_period config) =? 0 then epoch_all l2 else Done l2) = Done l3 /\
    Forall (chan_inv (clk + 1)) l3 /\ length l3 = length l2 /\ (l3 ≫= account) = (l2 ≫= account)) as (l3 & -> & Hi3 & Hl3 & Ha3).
  { destruct (_ =? 0); [by apply epoch_all_spec|by exists l2]. }
  cbn [mbind outcome_bind]. eexists _, _. split; [reflexivity|]. split_and!; try done; [lia|].
  by rewrite Ha3, <- Ha2.
Qed.

Lemma j_ClockTick_spec s :
  plain_system -> sys_inv s -> j_clk_ s + 1 < 2 ^ 64 ->
  exists cb s', j_ClockTick config s = Done (cb, s') /\ sys_inv s' /\ owed s ≡ₚ cb ++ owed s' /\
    j_clk_ s' = j_clk_ s + 1.
Proof using Type.
  intros Hp (Hi & Hl & H0) H64. unfold j_ClockTick.
  destruct (clock_channels_spec (j_clk_ s) (ctrls_ s) Hp Hi H0 H64) as (cb & l & -> & Hi' & Hl' & Ha).
  cbn [mbind outcome_bind fst snd]. rewrite u64_small by lia. eexists _, _. split; [reflexivity|].
  split_and!; try done. split_and!; [done|cbn; lia|cbn; lia].
Qed.

Lemma bind_zinsert {A B} (f : A -> list B) l i x y b :
  zlookup l i = Some x -> f y ≡ₚ b :: f x -> (zinsert i y l ≫= f) ≡ₚ b :: (l ≫= f).
Proof using Type.
  unfold zlookup, zinsert. case_decide; [|done]. generalize (Z.to_nat i) as n.
  induction l as [|z l IH]; intros n Hn Hp; [done|]. destruct n as [|n]; cbn in *.
  - injection Hn as ->. by rewrite Hp.
  - unfold mbind in IH. rewrite (IH n Hn Hp). by rewrite Permutation_middle.
Qed.

Lemma j_AddTransaction_spec s a wr r :
  plain_system -> sys_inv s -> j_AddTransaction config grow ndebug s a wr = Done r ->
  sys_inv r.2 /\ owed r.2 ≡ₚ (if r.1 then [(a, wr)] else []) ++ owed s /\ j_clk_ r.2 = j_clk_ s.
Proof using Type.
  intros Hp (Hi & Hl & H0) H. unfold j_AddTransaction in H. apply bind_Done in H as (c & Hc & H).
  apply vget_Done in Hc. destruct (zlookup_Forall _ _ _ _ Hi Hc) as (Hok & Hb & Hk).
  destruct (WillAcceptTransaction config c a wr).
  - injection H as <-. destruct (AddTransaction_spec config (new_timing config) grow a wr c Hok Hb) as (Hok' & Hb' & Ha' & Hk').
    cbn [fst snd]. split_and!; [|by apply (bind_zinsert account _ _ c)|done].
    split_and!; [|cbn; by rewrite length_zinsert|done]. cbn [ctrls_ j_clk_]. apply zinsert_Forall; [done|].
    split_and!; try done. congruence.
  - destruct ndebug; [|done]. by injection H as <-.
Qed.

(** Calls of a client: transactions asked for, callbacks made, newest first. *)
Inductive calls : list (Z * bool) -> list (Z * bool) -> JedecDRAMSystem -> Prop :=
| calls_new s : new_jedec config = Done s -> calls [] [] s
| calls_add asked given s a wr r :
    calls asked given s -> j_AddTransaction config grow ndebug s a wr = Done r ->
    calls ((if r.1 then [(a, wr)] else []) ++ asked) given r.2
| calls_tick asked given s cb s' :
    calls asked given s -> j_clk_ s + 1 < 2 ^ 64 -> j_ClockTick config s = Done (cb, s') ->
    calls asked (reverse cb ++ given) s'.

Lemma new_controllers_spec n l :
  plain config -> new_controllers config n = Done l ->
  Forall (chan_inv 0) l /\ length l = n /\ (l ≫= account) = [].
Proof using Type.
  intros Hp. revert l. induction n as [|n IH]; intros l; cbn [new_controllers]; [by intros [= <-]|].
  intros (c & Hc & (l1 & Hl & [= <-])%bind_Done)%bind_Done.
  destruct (new_controller_spec config (new_timing config) c Hp Hc) as (? & ? & Ha & ?).
  destruct (IH l1 Hl) as (? & ? & Hal). split_and!; [by constructor|simpl; by f_equal|].
  change (account c ++ (l1 ≫= account) = []). by rewrite Ha, Hal.
Qed.

Lemma make_controllers_spec l :
  plain_system -> make_controllers config = Done l ->
  Forall (chan_inv 0) l /\ Z.of_nat (length l) = channels (sys_ config) /\ (l ≫= account) = [].
Proof using Type.
  intros Hp. unfold make_controllers. destruct (_ <? 0) eqn:E; [done|]. zb. intros Hl.
  destruct (new_controllers_spec _ l (sys_plain Hp) Hl) as (? & -> & ?). split_and!; [done|lia|done].
Qed.

Lemma calls_inv asked given s : plain_system -> calls asked given s ->
  sys_inv s /\ asked ≡ₚ given ++ owed s.
Proof using Type.
  intros Hp H. induction H as [s Hn|asked given s a wr r H IH Hr|asked given s cb s' H IH H64 Ht].
  - unfold new_jedec in Hn. destruct (is_hmc _); [done|]. apply bind_Done in Hn as (l & Hl & [= <-]).
    destruct (make_controllers_spec l Hp Hl) as (Hf & Hlen & Ha).
    split; [|unfold owed; cbn [ctrls_]; by rewrite Ha]. split_and!; cbn; [done|done|lia].
  - destruct IH as [Hi Ha]. destruct (j_AddTransaction_spec s a wr r Hp Hi Hr) as (Hi' & Ho & _). split; [done|].
    rewrite Ho, Ha, !app_assoc. f_equiv. apply Permutation_app_comm.
  - destruct IH as [Hi Ha]. destruct (j_ClockTick_spec s Hp Hi H64) as (cb2 & s2 & E & Hi' & Ho & _).
    rewrite Ht in E. injection E as <- <-. split; [done|]. rewrite Ha, Ho, reverse_Permutation, !app_assoc. f_equiv.
    apply Permutation_app_comm.
Qed.

(** The memory system never ends the program: after any calls, a clock cycle
    returns, acceptance can be asked for any address, and a transaction that
    would be accepted is added. *)
Theorem memory_system_never_exits asked given s :
  plain_system -> calls asked given s -> j_clk_ s + 1 < 2 ^ 64 ->
  (exists r, j_ClockTick config s = Done r) /\
  forall a wr, exists b, j_WillAcceptTransaction config s a wr = Done b /\
    (b = true -> exists s', j_AddTransaction config grow ndebug s a wr = Done (true, s')).
Proof using Type.
  intros Hp H H64. destruct (calls_inv asked given s Hp H) as [Hi _]. split.
  { destruct (j_ClockTick_spec s Hp Hi H64) as (cb & s' & E & _). eauto. }
  intros a wr. destruct Hi as (_ & Hl & _). pose proof (channel_in_range a Hp).
  destruct (zlookup_in_range (ctrls_ s) (GetChannel config a)) as [c Hc]; [lia|].
  unfold j_WillAcceptTransaction, j_AddTransaction. rewrite (vget_Some _ _ _ Hc). cbn [mbind outcome_bind].
  eexists. split; [reflexivity|]. intros ->. eauto.
Qed.

(** C11. Callbacks: in a memory system without dual commands and without self refresh
    ([plain_system]), in its first 2^64 cycles, the transactions asked for are, at any time, those whose
    callback was made and those still owed by some channel, each as often as it
    was asked for.  No callback is made twice, for nothing, or of the wrong
    kind. *)
Theorem callbacks_conserved asked given s :
  plain_system -> calls asked given s -> asked ≡ₚ given ++ (ctrls_ s ≫= account).
Proof using Type. intros Hp H. by destruct (calls_inv asked given s Hp H). Qed.

End Correct.

(** ** Runs of the default DDR4 part *)

Lemma demo_system_plain : plain_system demo_config.
Proof. split; [apply demo_plain|by vm_compute|by vm_compute]. Qed.

(** A client that asks when it can and clocks the system. *)
Fixpoint demo_calls (config : Config) (ops : list demo_op) (asked given : list (Z * bool)) (s : JedecDRAMSystem)
    : outcome (list (Z * bool) * list (Z * bool) * JedecDRAMSystem) :=
  match ops with
  | [] => Done (asked, given, s)
  | DAdd a wr :: ops' =>
      r ← j_AddTransaction config demo_grow false s a wr;
      demo_calls config ops' ((if (r.1 : bool) then [(a, wr)] else []) ++ asked) given r.2
  | DTick :: ops' =>
      if j_clk_ s + 1 <? 2 ^ 64 then
        r ← j_ClockTick config s; demo_calls config ops' asked (reverse r.1 ++ given) r.2
      else Stuck
  | DReturn :: ops' => demo_calls config ops' asked given s
  end.

Lemma demo_calls_ok config ops : forall asked given s asked' given' s',
  calls config demo_grow false asked given s -> demo_calls config ops asked given s = Done (asked', given', s') ->
  calls config demo_grow false asked' given' s'.
Proof.
  induction ops as [|[a wr| |] ops IH]; intros asked given s asked' given' s' H; cbn [demo_calls].
  - by intros [= <- <- <-].
  - intros (r & Hr & H2)%bind_Done. eapply IH; [|done]. by eapply calls_add.
  - destruct (_ <? _) eqn:E; zb; [|done]. intros ([cb s1] & Hr & H2)%bind_Done. cbn [fst snd] in H2.
    eapply IH; [|done]. by eapply calls_tick.
  - by apply IH.
Qed.

Lemma demo_system ops (f : list (Z * bool) -> list (Z * bool) -> JedecDRAMSystem -> bool) :
  (match (s ← new_jedec demo_config; demo_calls demo_config ops [] [] s) with
   | Done (a, g, s) => f a g s
   | _ => false
   end) = true ->
  exists a g s, calls demo_config demo_grow false a g s /\ f a g s = true.
Proof.
  destruct (new_jedec demo_config) as [s0| | | |] eqn:E0; try done. cbn [mbind outcome_bind].
  destruct (demo_calls demo_config ops [] [] s0) as [[[a g] s]| | | |] eqn:E; try done. intros Hf. exists a, g, s.
  split; [|done]. eapply demo_calls_ok; [|done]. by constructor.
Qed.

Definition demo_traffic (n : nat) : list demo_op :=
  [DAdd 64 false; DAdd 8192 false; DTick; DAdd 64 true] ++ replicate n DTick.

Lemma memory_system_never_exits_witness : exists s, j_clk_ s = 30 /\
  ((exists r, j_ClockTick demo_config s = Done r) /\
   forall a wr, exists b, j_WillAcceptTransaction demo_config s a wr = Done b /\
    (b = true -> exists s', j_AddTransaction demo_config demo_grow false s a wr = Done (true, s'))).
Proof.
  destruct (demo_system (demo_traffic 29) (fun _ _ s => j_clk_ s =? 30)) as (a & g & s & H & Hk);
    [vm_compute; reflexivity|]. apply Z.eqb_eq in Hk. exists s. split; [done|].
  apply (memory_system_never_exits demo_config demo_grow false a g s).
  - apply demo_system_plain.
  - exact H.
  - rewrite Hk. reflexivity.
Defined.

Lemma callbacks_conserved_witness : exists s,
  [(64, true); (8192, false); (64, false)] ≡ₚ [(8192, false); (64, false); (64, true)] ++ (ctrls_ s ≫= account).
Proof.
  destruct (demo_system (demo_traffic 60) (fun a g _ =>
    bool_decide (a = [(64, true); (8192, false); (64, false)]) &&
    bool_decide (g = [(8192, false); (64, false); (64, true)]))) as (a & g & s & H & Hk);
    [vm_compute; reflexivity|]. apply andb_prop in Hk as [Ha%bool_decide_eq_true Hg%bool_decide_eq_true].
  exists s. rewrite <- Ha, <- Hg.
  apply (callbacks_conserved demo_config demo_grow false a g s).
  - apply demo_system_plain.
  - exact H.
Defined.

(** The ideal memory is not of fixed latency: of two transactions that are
    due in the same cycle only the first is called back, because the loop steps
    over the transaction that follows an erased one. *)
Theorem ideal_memory_skips :
  let s0 := i_AddTransaction (i_AddTransaction new_ideal 64 false) 128 false in
  let s10 := iter_step 10 (fun s => (i_ClockTick demo_config s).2) s0 in
  (i_ClockTick demo_config s10).1 = [(64, false)] /\
  (i_ClockTick demo_config (i_ClockTick demo_config s10).2).1 = [(128, false)].
Proof. vm_compute. done. Qed.

End System.
