(* ===== verification/MemOnDram.v ===== *)
(** * The runtime on top of the DRAM simulator

    What the memory controller of the runtime relies on, as a class of laws over
    the interface of [MemCtrl]; the proof that the model of DRAMsim3 obeys them
    without dual commands and self refresh;
    and what follows for the runtime: every callback of the simulator is for a
    transaction the runtime has in flight. *)

From S2P Require Import Prelude Channels MemCtrl.
From S2P Require Import DramCommon DramBank ChannelState SimpleStats CommandQueue DramController DramSystem.

Module OnDram.
Import Channels MemCtrl.

(** [ok n d]: the simulator runs and can be clocked [n] more times.  [owed d] are
    the transactions whose callback is still to come. *)
Class DramLaws (D : Type) `{DramSystem D} := {
  ok : nat -> D -> Prop;
  owed : D -> list (Z * bool);
  law_clock n d : ok (S n) d -> ok n (ClockTick d).1 /\ owed d ≡ₚ (ClockTick d).2 ++ owed (ClockTick d).1;
  law_add n d a wr : ok n d -> WillAcceptTransaction d a wr = true ->
    ok n (AddTransaction d a wr) /\ owed (AddTransaction d a wr) ≡ₚ (a, wr) :: owed d
}.

(** How often a transaction occurs in a list. *)
Definition occ (p : Z * bool) (l : list (Z * bool)) : nat := length (filter (fun q => q = p) l).

Lemma occ_perm p l l' : l ≡ₚ l' -> occ p l = occ p l'.
Proof. intros H. unfold occ. by rewrite H. Qed.
Lemma occ_cons p q l : occ p (q :: l) = ((if decide (q = p) then 1 else 0) + occ p l)%nat.
Proof. unfold occ. rewrite filter_cons. by case_decide. Qed.
Lemma occ_app p l l' : occ p (l ++ l') = (occ p l + occ p l')%nat.
Proof. unfold occ. by rewrite filter_app, length_app. Qed.

(** The transactions in flight at an address. *)
Definition in_flight (m : gmap Z (list nat)) (a : Z) : nat := length (default [] (m !! a)).

Lemma in_flight_push m a n b :
  in_flight (push_in_flight a n m) b = ((if decide (a = b) then 1 else 0) + in_flight m b)%nat.
Proof.
  unfold in_flight, push_in_flight. destruct (decide (a = b)) as [<-|Hne].
  - rewrite lookup_insert_eq. cbn. rewrite length_app. simpl. lia.
  - by rewrite lookup_insert_ne.
Qed.

Lemma in_flight_pop m a q n b :
  m !! a = Some q -> head q = Some n ->
  in_flight m b = ((if decide (a = b) then 1 else 0) + in_flight (<[a := tail q]> m) b)%nat.
Proof.
  intros Hq Hn. unfold in_flight. destruct (decide (a = b)) as [<-|Hne].
  - rewrite Hq, lookup_insert_eq. by destruct q.
  - by rewrite lookup_insert_ne.
Qed.

Section Runtime.
Context {D : Type} `{DramLaws D} {id_t byte_t : Type}.
Variable W : Z.
Variable cfg : mem_cfg.
Implicit Types (r : rside) (w : wside id_t byte_t).

(** The runtime and the simulator agree on what is outstanding. *)
Definition agree (d : D) r w : Prop :=
  forall a, in_flight (in_flight_reads r) a = occ (a, false) (owed d) /\
            in_flight (in_flight_writes w) a = occ (a, true) (owed d).

Lemma read_callback_pop a r r' b : read_callback W cfg a r = Done r' ->
  in_flight (in_flight_reads r) b = (occ (b, false) [(a, false)] + in_flight (in_flight_reads r') b)%nat.
Proof.
  unfold read_callback. intros (q & Hq & H1)%bind_Done. apply bind_Done in H1 as (n & Hn & H1).
  apply bind_Done in H1 as (t & _ & H1). apply bind_Done in H1 as (v & _ & H1).
  apply bind_Done in H1 as ([t2 outs] & _ & H1). injection H1 as <-. cbn [in_flight_reads].
  destruct (in_flight_reads r !! a) as [q'|] eqn:Eq; [|done]. injection Hq as ->.
  destruct (head q) as [n'|] eqn:En; [|done]. rewrite (in_flight_pop _ a q n' b Eq En).
  rewrite occ_cons. f_equal. repeat case_decide; simplify_eq; done.
Qed.

Lemma write_callback_pop a w w' b : write_callback a w = Done w' ->
  in_flight (in_flight_writes w) b = (occ (b, true) [(a, true)] + in_flight (in_flight_writes w') b)%nat.
Proof.
  unfold write_callback. intros (q & Hq & H1)%bind_Done. apply bind_Done in H1 as (n & Hn & H1).
  apply bind_Done in H1 as (t & _ & H1). injection H1 as <-. cbn [in_flight_writes].
  destruct (in_flight_writes w !! a) as [q'|] eqn:Eq; [|done]. injection Hq as ->.
  destruct (head q) as [n'|] eqn:En; [|done]. rewrite (in_flight_pop _ a q n' b Eq En).
  rewrite occ_cons. f_equal. repeat case_decide; simplify_eq; done.
Qed.

(** The callbacks of a clock take one transaction out of flight each. *)
Lemma callbacks_pop cs : forall r w r' w', callbacks W cfg cs r w = Done (r', w') -> forall a,
  in_flight (in_flight_reads r) a = (occ (a, false) cs + in_flight (in_flight_reads r') a)%nat /\
  in_flight (in_flight_writes w) a = (occ (a, true) cs + in_flight (in_flight_writes w') a)%nat.
Proof.
  induction cs as [|[x wr] cs IH]; intros r w r' w' Hc a; cbn [callbacks] in Hc; [by injection Hc as <- <-|].
  destruct wr; apply bind_Done in Hc as (y & Hy & Hc); destruct (IH _ _ _ _ Hc a) as [Hr Hw].
  - pose proof (write_callback_pop x w y a Hy) as Hp. rewrite !occ_cons. rewrite occ_cons in Hp.
    unfold occ in Hp at 1. simpl in Hp. repeat case_decide; simplify_eq; lia.
  - pose proof (read_callback_pop x r y a Hy) as Hp. rewrite !occ_cons. rewrite occ_cons in Hp.
    unfold occ in Hp at 1. simpl in Hp. repeat case_decide; simplify_eq; lia.
Qed.

Lemma pick_read_accepts d txs older q n :
  pick_read cfg d txs older q = Done (Some n) ->
  exists t, txs !! n = Some t /\ WillAcceptTransaction d (dimm_addr cfg t) false = true.
Proof.
  revert older. induction q as [|m q IH]; intros older; cbn [pick_read]; [done|].
  intros (t & Ht & H1)%bind_Done. destruct (txs !! m) as [t'|] eqn:Et; [|done]. injection Ht as ->.
  destruct (_ && _) eqn:E; [|by apply (IH _ H1)]. injection H1 as <-. zb. eauto.
Qed.

Lemma pick_write_accepts d txs q n :
  pick_write cfg d txs q = Done (Some n) ->
  exists t, txs !! n = Some t /\ WillAcceptTransaction d (dimm_addr cfg t) true = true.
Proof.
  induction q as [|m q IH]; cbn [pick_write]; [done|].
  intros (t & Ht & H1)%bind_Done. destruct (txs !! m) as [t'|] eqn:Et; [|done]. injection Ht as ->.
  destruct (WillAcceptTransaction _ _ _) eqn:E; [|by apply IH]. injection H1 as <-. eauto.
Qed.

Lemma enqueue_read_agree n d r w d' r' :
  ok n d -> agree d r w -> enqueue_read_ddr cfg d r = Done (d', r') -> ok n d' /\ agree d' r' w.
Proof.
  intros Hok Ha (o & Ho & H1)%bind_Done. destruct o as [k|]; [|by injection H1 as <- <-].
  destruct (pick_read_accepts _ _ _ _ _ Ho) as (t & Et & Hacc). apply bind_Done in H1 as (t' & Et' & H1).
  rewrite Et in Et'. injection Et' as <-. injection H1 as <- <-.
  destruct (law_add n d _ false Hok Hacc) as [Hok' Hp]. split; [done|]. intros a. destruct (Ha a) as [Hr Hw].
  cbn [in_flight_reads]. rewrite in_flight_push, Hr, Hw, (occ_perm (a, false) _ _ Hp), (occ_perm (a, true) _ _ Hp), !occ_cons.
  repeat case_decide; simplify_eq; done.
Qed.

Lemma enqueue_write_agree n d r w d' w' :
  ok n d -> agree d r w -> enqueue_write_ddr cfg d w = Done (d', w') -> ok n d' /\ agree d' r w'.
Proof.
  intros Hok Ha (o & Ho & H1)%bind_Done. destruct o as [k|]; [|by injection H1 as <- <-].
  destruct (pick_write_accepts _ _ _ _ Ho) as (t & Et & Hacc). apply bind_Done in H1 as (t' & Et' & H1).
  rewrite Et in Et'. injection Et' as <-. injection H1 as <- <-.
  destruct (law_add n d _ true Hok Hacc) as [Hok' Hp]. split; [done|]. intros a. destruct (Ha a) as [Hr Hw].
  cbn [in_flight_writes]. rewrite in_flight_push, Hr, Hw, (occ_perm (a, false) _ _ Hp), (occ_perm (a, true) _ _ Hp), !occ_cons.
  repeat case_decide; simplify_eq; done.
Qed.

(** Clocks of a memory channel; in between the AXI side changes everything but
    what is in flight.  [n] clocks are left. *)
Inductive mem_run : nat -> D -> rside -> wside id_t byte_t -> Prop :=
| mr_start n d r w : ok n d -> owed d = [] -> in_flight_reads r = ∅ -> in_flight_writes w = ∅ -> mem_run n d r w
| mr_axi n d r w r' w' :
    mem_run n d r w -> in_flight_reads r' = in_flight_reads r -> in_flight_writes w' = in_flight_writes w ->
    mem_run n d r' w'
| mr_clock n d r w d' r' w' :
    mem_run (S n) d r w -> ddr_clock W cfg d r w = Done (d', r', w') -> mem_run n d' r' w'.

Lemma mem_run_agree n d r w : mem_run n d r w -> ok n d /\ agree d r w.
Proof.
  intros H2. induction H2 as [n d r w Hok Ho Hr Hw|n d r w r' w' H2 IH Hr Hw|n d r w d' r' w' H2 IH Hc].
  - split; [done|]. intros a. unfold in_flight. by rewrite Hr, Hw, Ho, !lookup_empty.
  - destruct IH as [Hok Ha]. split; [done|]. intros a. rewrite Hr, Hw. apply Ha.
  - destruct IH as [Hok Ha]. destruct (law_clock n d Hok) as [Hok1 Hp]. unfold ddr_clock in Hc.
    destruct (ClockTick d) as [d1 cs] eqn:Et. cbn [fst snd] in *. apply bind_Done in Hc as ([r1 w1] & Hcb & Hc).
    assert (agree d1 r1 w1) as Ha1.
    { intros a. destruct (callbacks_pop _ _ _ _ _ Hcb a) as [Er Ew]. destruct (Ha a) as [Hr Hw].
      rewrite (occ_perm (a, false) _ _ Hp), occ_app in Hr. rewrite (occ_perm (a, true) _ _ Hp), occ_app in Hw. lia. }
    unfold try_to_enqueue_ddr in Hc. apply bind_Done in Hc as ([d2 r2] & He & Hc).
    apply bind_Done in Hc as ([d3 w3] & He' & Hc). injection Hc as <- <- <-.
    destruct (enqueue_read_agree _ _ _ _ _ _ Hok1 Ha1 He) as [Hok2 Ha2].
    by destruct (enqueue_write_agree _ _ _ _ _ _ Hok2 Ha2 He').
Qed.

(** C12. Over a DRAM simulator that keeps the laws of [DramLaws], every callback is
    expected by the runtime: in a clock, an address is called back, as a read or as a
    write, at most as often
    as the runtime has transactions of this kind in flight at it.  The queue that
    a callback pops is never empty.  The laws hold of DRAMsim3 for the JEDEC parts
    without dual commands and self refresh, as long as the clock fits 64 bits
    ([jedec_laws]), and for the memory systems of [MemorySystem]. *)
Theorem callbacks_are_expected n d r w a :
  mem_run (S n) d r w ->
  (occ (a, false) (ClockTick d).2 <= in_flight (in_flight_reads r) a)%nat /\
  (occ (a, true) (ClockTick d).2 <= in_flight (in_flight_writes w) a)%nat.
Proof.
  intros H2. destruct (mem_run_agree _ _ _ _ H2) as [Hok Ha]. destruct (law_clock n d Hok) as [_ Hp].
  destruct (Ha a) as [-> ->]. rewrite (occ_perm (a, false) _ _ Hp), (occ_perm (a, true) _ _ Hp), !occ_app. lia.
Qed.

End Runtime.

(** ** The laws hold of the model of DRAMsim3 *)

Section Dramsim3.
Import System.
Variable config : Dram.Config.
Variable grow : Z -> Z.
Variable ndebug : bool.
Hypothesis Hsys : plain_system config.

Definition j_ok (n : nat) (d : outcome JedecDRAMSystem) : Prop :=
  exists s, d = Done s /\ sys_inv config s /\ j_clk_ s + Z.of_nat n < 2 ^ 64.
Definition j_owed (d : outcome JedecDRAMSystem) : list (Z * bool) :=
  match d with Done s => System.owed s | _ => [] end.

Lemma j_law_clock n d : j_ok (S n) d ->
  let r := @ClockTick _ (jedec_dram config grow ndebug) d in j_ok n r.1 /\ j_owed d ≡ₚ r.2 ++ j_owed r.1.
Proof using Hsys.
  intros (s & -> & Hi & Hk). cbn. destruct (j_ClockTick_spec config s Hsys Hi) as (cb & s' & E & Hi' & Ho & Hk'); [lia|].
  rewrite E. cbn [fst snd]. split; [|done]. exists s'. split_and!; try done. lia.
Qed.

Lemma j_law_add n d a wr : j_ok n d ->
  @WillAcceptTransaction _ (jedec_dram config grow ndebug) d a wr = true ->
  let d' := @AddTransaction _ (jedec_dram config grow ndebug) d a wr in j_ok n d' /\ j_owed d' ≡ₚ (a, wr) :: j_owed d.
Proof using Hsys.
  intros (s & -> & Hi & Hk). cbn. unfold j_WillAcceptTransaction.
  destruct (vget (ctrls_ s) (GetChannel config a)) as [c| | | |] eqn:Ec; try done. cbn [mbind outcome_bind]. intros Hw.
  assert (exists s', j_AddTransaction config grow ndebug s a wr = Done (true, s')) as [s' E].
  { unfold j_AddTransaction. rewrite Ec. cbn [mbind outcome_bind]. rewrite Hw. eauto. }
  destruct (j_AddTransaction_spec config grow ndebug s a wr _ Hsys Hi E) as (Hi' & Ho & Hk').
  rewrite E. cbn [mbind outcome_bind snd fst] in *. split; [|done]. exists s'. split_and!; try done. by rewrite Hk'.
Qed.

#[local] Instance jedec_inst : DramSystem (outcome JedecDRAMSystem) := jedec_dram config grow ndebug.

#[export] Instance jedec_laws : DramLaws (outcome JedecDRAMSystem) :=
  { ok := j_ok; owed := j_owed; law_clock := j_law_clock; law_add := j_law_add }.

End Dramsim3.

(** ** A run of the runtime over the default DDR4 part *)

Import System.

Definition d4 : DramSystem (outcome JedecDRAMSystem) := jedec_dram Dram.demo_config Ctrl.demo_grow false.
Definition laws : @DramLaws _ d4 := jedec_laws Dram.demo_config Ctrl.demo_grow false demo_system_plain.

Definition queued_read : rside := mk_rside [demo_tx] [0%nat] ∅ [].

Fixpoint clocks (n : nat) (d : outcome JedecDRAMSystem) (r : rside) (w : wside (GetSetWrapper 1) (GetSetWrapper 1)) :=
  match n with
  | O => Done (d, r, w)
  | S n' => '(d', r', w') ← @ddr_clock 64 ddr4 _ _ _ d4 d r w; clocks n' d' r' w'
  end.

Lemma clocks_run n : forall m d r w d' r' w',
  @mem_run _ d4 laws _ _ 64 ddr4 (n + m) d r w -> clocks n d r w = Done (d', r', w') ->
  @mem_run _ d4 laws _ _ 64 ddr4 m d' r' w'.
Proof.
  induction n as [|n IH]; intros m d r w d' r' w' H; cbn [clocks]; [by intros [= <- <- <-]|].
  intros ([[d1 r1] w1] & H1 & H2)%bind_Done. apply (IH m d1 r1 w1); [|done].
  by apply (mr_clock 64 ddr4 (n + m) d r w).
Qed.

(** A new simulator is in order and owes nothing. *)
Lemma fresh_ok n : Z.of_nat n < 2 ^ 64 ->
  @OnDram.ok _ d4 laws n (new_jedec Dram.demo_config) /\ @OnDram.owed _ d4 laws (new_jedec Dram.demo_config) = [].
Proof.
  intros Hn. assert ((match new_jedec Dram.demo_config with Done _ => true | _ => false end) = true) as Hd
    by (vm_compute; reflexivity).
  destruct (new_jedec Dram.demo_config) as [s| | | |] eqn:E; try discriminate Hd.
  destruct (calls_inv Dram.demo_config Ctrl.demo_grow false [] [] s demo_system_plain) as [Hi Ho]; [by constructor|].
  apply Permutation_nil in Ho. split; [|done]. exists s. split_and!; [done|done|].
  unfold new_jedec in E. destruct (Dram.is_hmc _); [done|]. apply bind_Done in E as (l & _ & [= <-]). cbn. lia.
Qed.

Lemma start_run n : Z.of_nat n < 2 ^ 64 ->
  @mem_run _ d4 laws _ _ 64 ddr4 n (new_jedec Dram.demo_config) queued_read demo_wside.
Proof. intros Hn. destruct (fresh_ok n Hn) as [Ho Hw]. by apply mr_start. Qed.

Lemma callbacks_are_expected_witness : exists d r w,
  occ (4096, false) (@ClockTick _ d4 d).2 = 1%nat /\
  (occ (4096%Z, false) (@ClockTick _ d4 d).2 <= in_flight (in_flight_reads r) 4096%Z)%nat /\
  (occ (4096%Z, true) (@ClockTick _ d4 d).2 <=
     in_flight (in_flight_writes (id_t := GetSetWrapper 1) (byte_t := GetSetWrapper 1) w) 4096%Z)%nat.
Proof.
  assert ((match clocks 40 (new_jedec Dram.demo_config) queued_read demo_wside with
           | Done (d, r, w) => Nat.eqb (occ (4096, false) (@ClockTick _ d4 d).2) 1
           | _ => false
           end) = true) as Ht by (vm_compute; reflexivity).
  destruct (clocks 40 (new_jedec Dram.demo_config) queued_read demo_wside) as [[[d r] w]| | | |] eqn:E; try discriminate Ht.
  exists d, r, w. split; [by apply Nat.eqb_eq|].
  apply (@callbacks_are_expected _ d4 laws _ _ 64 ddr4 0 d r w 4096).
  apply (clocks_run 40 1 (new_jedec Dram.demo_config) queued_read demo_wside d r w); [|done]. by apply start_run.
Defined.

End OnDram.
