(* ===== verification/Hmc.v ===== *)
(** * DRAMsim3: the hybrid memory cube

    [runtime/DRAMsim3/include/dramsim3/hmc.h] and [src/hmc.cc]: requests enter on
    a link, cross to the quadrant of their vault, are served by its controller,
    and their responses cross back.

    Requests cross from links to quadrants and responses from quadrants to links
    by the same code, written twice in the source: [xbar] is the state of one
    direction.  Packets are owned by one queue at a time and are values here.  The
    field [link] of a request is written and never read, and is left out; the
    fields [exit_time] are set when a packet crosses and read only after. *)

From S2P Require Import Prelude DramCommon DramBank ChannelState SimpleStats CommandQueue DramController DramSystem.

Module Hmc.
Import Dram Bank Chan Ctrl System.

Inductive HMCReqType :=
| RD0 | RD16 | RD32 | RD48 | RD64 | RD80 | RD96 | RD112 | RD128 | RD256
| WR0 | WR16 | WR32 | WR48 | WR64 | WR80 | WR96 | WR112 | WR128 | WR256
| P_WR16 | P_WR32 | P_WR48 | P_WR64 | P_WR80 | P_WR96 | P_WR112 | P_WR128 | P_WR256
| ADD8 | ADD16 | P_2ADD8 | P_ADD16 | ADDS8R | ADDS16R | INC8 | P_INC8
| XOR16 | OR16 | NOR16 | AND16 | NAND16
| CASGT8 | CASGT16 | CASLT8 | CASLT16 | CASEQ8 | CASZERO16
| EQ8 | EQ16 | BWR | P_BWR | BWR8R | SWAP16 | REQ_SIZE.

Inductive HMCRespType := RESP_NONE | RD_RS | WR_RS | ERR | RESP_SIZE.

(** [type >= WR0 && type <= P_WR256]. *)
Definition type_is_write (t : HMCReqType) : bool :=
  match t with
  | WR0 | WR16 | WR32 | WR48 | WR64 | WR80 | WR96 | WR112 | WR128 | WR256
  | P_WR16 | P_WR32 | P_WR48 | P_WR64 | P_WR80 | P_WR96 | P_WR112 | P_WR128 | P_WR256 => true
  | _ => false
  end.

(** The length of a request packet. *)
Definition req_flits (t : HMCReqType) : outcome Z :=
  match t with
  | RD0 | WR0 => Done 0
  | RD16 | RD32 | RD48 | RD64 | RD80 | RD96 | RD112 | RD128 | RD256 => Done 1
  | WR16 | P_WR16 => Done 2
  | WR32 | P_WR32 => Done 3
  | WR48 | P_WR48 => Done 4
  | WR64 | P_WR64 => Done 5
  | WR80 | P_WR80 => Done 6
  | WR96 | P_WR96 => Done 7
  | WR112 | P_WR112 => Done 8
  | WR128 | P_WR128 => Done 9
  | WR256 | P_WR256 => Done 17
  | ADD8 | ADD16 | P_2ADD8 | P_ADD16 | ADDS8R | ADDS16R => Done 2
  | INC8 | P_INC8 => Done 1
  | XOR16 | OR16 | NOR16 | AND16 | NAND16
  | CASGT8 | CASGT16 | CASLT8 | CASLT16 | CASEQ8 | CASZERO16 => Done 2
  | EQ8 | EQ16 | BWR | P_BWR | BWR8R | SWAP16 => Done 2
  | REQ_SIZE => AbruptExit
  end.

(** The kind and the length of a response packet. *)
Definition resp_kind (t : HMCReqType) : outcome (HMCRespType * Z) :=
  match t with
  | RD0 => Done (RD_RS, 0)
  | RD16 => Done (RD_RS, 2)
  | RD32 => Done (RD_RS, 3)
  | RD48 => Done (RD_RS, 4)
  | RD64 => Done (RD_RS, 5)
  | RD80 => Done (RD_RS, 6)
  | RD96 => Done (RD_RS, 7)
  | RD112 => Done (RD_RS, 8)
  | RD128 => Done (RD_RS, 9)
  | RD256 => Done (RD_RS, 17)
  | WR0 => Done (WR_RS, 0)
  | WR16 | WR32 | WR48 | WR64 | WR80 | WR96 | WR112 | WR128 | WR256 => Done (WR_RS, 1)
  | P_WR16 | P_WR32 | P_WR48 | P_WR64 | P_WR80 | P_WR96 | P_WR112 | P_WR128 | P_WR256 => Done (RESP_NONE, 0)
  | ADD8 | ADD16 => Done (WR_RS, 1)
  | P_2ADD8 | P_ADD16 => Done (RESP_NONE, 0)
  | ADDS8R | ADDS16R => Done (RD_RS, 2)
  | INC8 => Done (WR_RS, 1)
  | P_INC8 => Done (RESP_NONE, 0)
  | XOR16 | OR16 | NOR16 | AND16 | NAND16
  | CASGT8 | CASGT16 | CASLT8 | CASLT16 | CASEQ8 | CASZERO16 => Done (RD_RS, 2)
  | EQ8 | EQ16 | BWR => Done (WR_RS, 1)
  | P_BWR => Done (RESP_NONE, 0)
  | BWR8R | SWAP16 => Done (RD_RS, 2)
  | REQ_SIZE => AbruptExit
  end.

Record HMCRequest := mk_req {
  q_type : HMCReqType;
  mem_operand : Z;
  q_quad : Z;
  vault : Z;
  q_flits : Z;
  q_is_write : bool;
  q_exit_time : Z
}.

Record HMCResponse := mk_resp {
  resp_id : Z;
  p_type : HMCRespType;
  p_link : Z;
  p_quad : Z;
  p_flits : Z;
  p_exit_time : Z
}.

Definition new_request (t : HMCReqType) (hex_addr v : Z) : outcome HMCRequest :=
  f ← req_flits t; Done (mk_req t hex_addr (Z.rem v 4) v f (type_is_write t) 0).

Definition new_response (id : Z) (t : HMCReqType) (dest_link src_quad : Z) : outcome HMCResponse :=
  k ← resp_kind t; Done (mk_resp id k.1 dest_link src_quad k.2 0).

Definition q_leaves (n : Z) (r : HMCRequest) : HMCRequest :=
  mk_req (q_type r) (mem_operand r) (q_quad r) (vault r) (q_flits r) (q_is_write r) n.
Definition p_leaves (n : Z) (r : HMCResponse) : HMCResponse :=
  mk_resp (resp_id r) (p_type r) (p_link r) (p_quad r) (p_flits r) n.

(** ** One direction of the crossbar *)

Record xbar (A : Type) := mk_xbar {
  src_q : list (list A);
  age : list Z;
  dst_q : list (list A);
  busy : list Z
}.
Arguments mk_xbar {A}.
Arguments src_q {A}.
Arguments age {A}.
Arguments dst_q {A}.
Arguments busy {A}.

Definition new_xbar (A : Type) (nsrc ndst : Z) : xbar A :=
  mk_xbar (replicate (Z.to_nat nsrc) []) (replicate (Z.to_nat nsrc) 0)
          (replicate (Z.to_nat ndst) []) (replicate (Z.to_nat ndst) 0).

(** The insertion into the age queue: before the first entry [x] with
    [age_counter[pos] > x]. *)
Fixpoint insert_pos (a pos : Z) (l : list Z) : list Z :=
  match l with
  | [] => [pos]
  | x :: l' => if a >? x then pos :: x :: l' else x :: insert_pos a pos l'
  end.

Fixpoint age_loop (ages : list Z) (positions acc : list Z) : outcome (list Z) :=
  match positions with
  | [] => Done acc
  | p :: ps => a ← vget ages p; age_loop ages ps (if a >? 0 then insert_pos a p acc else acc)
  end.

(** [BuildAgeQueue]: from a round-robin position. *)
Definition BuildAgeQueue (logic_clk : Z) (ages : list Z) : outcome (list Z) :=
  let n := Z.of_nat (length ages) in
  if n =? 0 then Undef
  else age_loop ages (map (fun i => (i + logic_clk mod n) mod n) (zrange 0 (length ages))) [].

(** [age_counter[i]++] on an [int]. *)
Definition grow_old (a : Z) : outcome Z := if a =? 2 ^ 31 - 1 then Undef else Done (a + 1).

(** The loop that moves one packet from each source to its destination. *)
Section Cross.
Context {A : Type} (dest flits : A -> Z) (leaves : Z -> A -> A).
Variables depth logic_clk : Z.

(** A packet crosses, or its source grows older. *)
Definition move (s d : Z) (r : A) (q dq : list A) (x : xbar A) : outcome (xbar A) :=
  dst' ← vset (dst_q x) d (dq ++ [leaves (u64 (logic_clk + flits r)) r]);
  busy' ← vset (busy x) d (flits r);
  age' ← vset (age x) s (match q with [] => 0 | _ => 1 end);
  Done (mk_xbar (zinsert s q (src_q x)) age' dst' busy').
Definition stall (s : Z) (x : xbar A) : outcome (xbar A) :=
  a ← vget (age x) s;
  a' ← grow_old a;
  Done (mk_xbar (src_q x) (zinsert s a' (age x)) (dst_q x) (busy x)).

Definition cross_one (s : Z) (x : xbar A) : outcome (xbar A) :=
  q ← vget (src_q x) s;
  r ← or_undef (head q);
  let d := dest r in
  dq ← vget (dst_q x) d;
  go ← (if Z.of_nat (length dq) <? depth then b ← vget (busy x) d; Done (b <=? 0) else Done false);
  if (go : bool) then move s d r (tail q) dq x else stall s x.

Fixpoint cross (l : list Z) (x : xbar A) : outcome (xbar A) :=
  match l with
  | [] => Done x
  | s :: l' => x' ← cross_one s x; cross l' x'
  end.

(** The busy counters go down, then the sources are served by age. *)
Definition drain_xbar (x : xbar A) : outcome (xbar A) :=
  l ← BuildAgeQueue logic_clk (age x);
  cross l (mk_xbar (src_q x) (age x) (dst_q x) (map (fun i => if i >? 0 then i - 2 else i) (busy x))).
End Cross.

Record HMCMemorySystem := mk_hmc {
  h_clk_ : Z;
  h_last_req_clk_ : Z;
  h_ctrls_ : list Controller;
  logic_clk_ : Z;
  logic_ps_ : Z;
  dram_ps_ : Z;
  ps_per_logic_ : Z;
  next_link_ : Z;
  resp_lookup_table_ : list (Z * HMCResponse);
  reqs : xbar HMCRequest;      (* link_req_queues_, link_age_counter_, quad_req_queues_, quad_busy_ *)
  resps : xbar HMCResponse     (* quad_resp_queues_, quad_age_counter_, link_resp_queues_, link_busy_ *)
}.

Definition ps_per_dram_ : Z := 800.

Definition set_ctrls (clk : Z) (l : list Controller) (s : HMCMemorySystem) : HMCMemorySystem :=
  mk_hmc clk (h_last_req_clk_ s) l (logic_clk_ s) (logic_ps_ s) (dram_ps_ s) (ps_per_logic_ s) (next_link_ s)
    (resp_lookup_table_ s) (reqs s) (resps s).
Definition set_reqs (l : list Controller) (x : xbar HMCRequest) (s : HMCMemorySystem) : HMCMemorySystem :=
  mk_hmc (h_clk_ s) (h_last_req_clk_ s) l (logic_clk_ s) (logic_ps_ s) (dram_ps_ s) (ps_per_logic_ s) (next_link_ s)
    (resp_lookup_table_ s) x (resps s).
Definition set_resps (t : list (Z * HMCResponse)) (x : xbar HMCResponse) (s : HMCMemorySystem) : HMCMemorySystem :=
  mk_hmc (h_clk_ s) (h_last_req_clk_ s) (h_ctrls_ s) (logic_clk_ s) (logic_ps_ s) (dram_ps_ s) (ps_per_logic_ s)
    (next_link_ s) t (reqs s) x.
Definition set_next_link (n : Z) (s : HMCMemorySystem) : HMCMemorySystem :=
  mk_hmc (h_clk_ s) (h_last_req_clk_ s) (h_ctrls_ s) (logic_clk_ s) (logic_ps_ s) (dram_ps_ s) (ps_per_logic_ s)
    n (resp_lookup_table_ s) (reqs s) (resps s).
(** The end of a logic cycle, and of a DRAM cycle. *)
Definition next_logic (s : HMCMemorySystem) : HMCMemorySystem :=
  mk_hmc (h_clk_ s) (h_last_req_clk_ s) (h_ctrls_ s) (u64 (logic_clk_ s + 1)) (u64 (logic_ps_ s + ps_per_logic_ s))
    (dram_ps_ s) (ps_per_logic_ s) (next_link_ s) (resp_lookup_table_ s) (reqs s) (resps s).
Definition next_dram (s : HMCMemorySystem) : HMCMemorySystem :=
  mk_hmc (h_clk_ s) (h_last_req_clk_ s) (h_ctrls_ s) (logic_clk_ s) (logic_ps_ s) (u64 (dram_ps_ s + ps_per_dram_))
    (ps_per_logic_ s) (next_link_ s) (resp_lookup_table_ s) (reqs s) (resps s).

Section System.
Variable config : Config.
Variable grow : Z -> Z.
Let links_ := num_links (str_ config).
Let queue_depth_ := u64 (xbar_queue_depth (str_ config)).

(** [SetClockRatio]: the quotient of two [int]s in [double] and its conversion
    are exact for the truncated quotient; a quotient that is not finite or is
    negative has no defined conversion. *)
Definition SetClockRatio : outcome Z :=
  if link_width (str_ config) =? 0 then Undef
  else
    let per_flit := Z.quot 128 (link_width (str_ config)) in
    if per_flit =? 0 then Undef
    else
      let speed := Z.quot (link_speed (str_ config)) per_flit in
      if (speed <=? 0) && negb ((speed <? -1000000)) then Undef
      else
        let p := Z.quot 1000000 speed in
        Done (if p >? ps_per_dram_ then ps_per_dram_ else p).

(** [HMCMemorySystem::HMCMemorySystem]. *)
Definition new_hmc : outcome HMCMemorySystem :=
  if negb (is_hmc (protocol (str_ config))) then AbruptExit
  else
    p ← SetClockRatio;
    l ← make_controllers config;
    if links_ <? 0 then Throw
    else Done (mk_hmc 0 0 l 0 0 0 p 0 [] (new_xbar HMCRequest links_ 4) (new_xbar HMCResponse 4 links_)).

Definition IterateNextLink (s : HMCMemorySystem) : outcome HMCMemorySystem :=
  n ← int_rem (next_link_ s + 1) links_; Done (set_next_link n s).

(** [WillAcceptTransaction]. *)
Definition h_WillAcceptTransaction (s : HMCMemorySystem) : bool :=
  existsb (fun q => Z.of_nat (length q) <? queue_depth_) (src_q (reqs s)).

(** [InsertReqToLink]. *)
Definition InsertReqToLink (req : HMCRequest) (link : Z) (s : HMCMemorySystem) : outcome (bool * HMCMemorySystem) :=
  q ← vget (src_q (reqs s)) link;
  if Z.of_nat (length q) <? queue_depth_ then
    resp ← new_response (mem_operand req) (q_type req) link (q_quad req);
    age' ← vset (age (reqs s)) link 1;
    Done (true, mk_hmc (h_clk_ s) (h_clk_ s) (h_ctrls_ s) (logic_clk_ s) (logic_ps_ s) (dram_ps_ s) (ps_per_logic_ s)
                  (next_link_ s) (resp_lookup_table_ s ++ [(resp_id resp, resp)])
                  (mk_xbar (zinsert link (q ++ [req]) (src_q (reqs s))) age' (dst_q (reqs s)) (busy (reqs s))) (resps s))
  else Done (false, s).

(** The other links are tried in turn, until the first is reached again. *)
Fixpoint insert_loop (fuel : nat) (start : Z) (req : HMCRequest) (s : HMCMemorySystem)
    : outcome (bool * HMCMemorySystem) :=
  if start =? next_link_ s then Done (false, s)
  else
    match fuel with
    | O => Stuck
    | S fuel' =>
        r ← InsertReqToLink req (next_link_ s) s;
        s1 ← IterateNextLink r.2;
        if (r.1 : bool) then Done (true, s1) else insert_loop fuel' start req s1
    end.

Definition InsertHMCReq (req : HMCRequest) (s : HMCMemorySystem) : outcome (bool * HMCMemorySystem) :=
  r ← InsertReqToLink req (next_link_ s) s;
  s1 ← IterateNextLink r.2;
  if (r.1 : bool) then Done (true, s1) else insert_loop (Z.to_nat links_) (next_link_ s) req s1.

(** The request type of a block. *)
Definition block_type (wr : bool) : outcome HMCReqType :=
  let n := block_size (str_ config) in
  if n =? 0 then Done (if wr then WR0 else RD0)
  else if n =? 32 then Done (if wr then WR32 else RD32)
  else if n =? 64 then Done (if wr then WR64 else RD64)
  else if n =? 128 then Done (if wr then WR128 else RD128)
  else if n =? 256 then Done (if wr then WR256 else RD256)
  else AbruptExit.

Definition h_AddTransaction (s : HMCMemorySystem) (hex_addr : Z) (wr : bool) : outcome (bool * HMCMemorySystem) :=
  t ← block_type wr;
  req ← new_request t hex_addr (GetChannel config hex_addr);
  InsertHMCReq req s.

(** ** Draining *)

(** [InsertReqToDRAM]. *)
Definition InsertReqToDRAM (req : HMCRequest) (c : Controller) : Controller :=
  AddTransaction config grow (new_transaction (mem_operand req) (q_is_write req)) c.

(** The front request of quadrant [i] enters its vault. *)
Definition quad_to_vault (i : Z) (s : HMCMemorySystem) : outcome HMCMemorySystem :=
  q ← vget (dst_q (reqs s)) i;
  match q with
  | [] => Done s
  | req :: q' =>
      p ← vget (src_q (resps s)) i;
      if negb (Z.of_nat (length p) <? queue_depth_) then Done s
      else if negb (q_exit_time req <=? logic_clk_ s) then Done s
      else
        c ← vget (h_ctrls_ s) (vault req);
        if WillAcceptTransaction config c (mem_operand req) (q_is_write req) then
          Done (set_reqs (zinsert (vault req) (InsertReqToDRAM req c) (h_ctrls_ s))
                  (mk_xbar (src_q (reqs s)) (age (reqs s)) (zinsert i q' (dst_q (reqs s))) (busy (reqs s))) s)
        else Done s
  end.

Fixpoint quads_to_vaults (l : list Z) (s : HMCMemorySystem) : outcome HMCMemorySystem :=
  match l with
  | [] => Done s
  | i :: l' => s' ← quad_to_vault i s; quads_to_vaults l' s'
  end.

Definition DrainRequests (s : HMCMemorySystem) : outcome HMCMemorySystem :=
  s1 ← quads_to_vaults (zrange 0 4) s;
  x ← drain_xbar q_quad q_flits q_leaves queue_depth_ (logic_clk_ s1) (reqs s1);
  Done (set_reqs (h_ctrls_ s1) x s1).

(** The kind of callback a response makes. *)
Definition resp_is_write (r : HMCResponse) : bool := match p_type r with RD_RS => false | _ => true end.

(** The front response of a link leaves. *)
Definition link_to_cpu (i : Z) (s : HMCMemorySystem) : outcome (list (Z * bool) * HMCMemorySystem) :=
  q ← vget (dst_q (resps s)) i;
  match q with
  | [] => Done ([], s)
  | r :: q' =>
      if p_exit_time r <=? logic_clk_ s then
        Done ([(resp_id r, resp_is_write r)],
              set_resps (resp_lookup_table_ s)
                (mk_xbar (src_q (resps s)) (age (resps s)) (zinsert i q' (dst_q (resps s))) (busy (resps s))) s)
      else Done ([], s)
  end.

Fixpoint links_to_cpu (l : list Z) (s : HMCMemorySystem) : outcome (list (Z * bool) * HMCMemorySystem) :=
  match l with
  | [] => Done ([], s)
  | i :: l' =>
      r ← link_to_cpu i s;
      r' ← links_to_cpu l' r.2;
      Done (r.1 ++ r'.1, r'.2)
  end.

Definition DrainResponses (s : HMCMemorySystem) : outcome (list (Z * bool) * HMCMemorySystem) :=
  r ← links_to_cpu (zrange 0 (Z.to_nat links_)) s;
  let s1 := r.2 in
  x ← drain_xbar p_link p_flits p_leaves queue_depth_ (logic_clk_ s1) (resps s1);
  Done (r.1, set_resps (resp_lookup_table_ s1) x s1).

(** [find] and [erase] on the table of responses. *)
Fixpoint take_resp (a : Z) (l : list (Z * HMCResponse)) : option (HMCResponse * list (Z * HMCResponse)) :=
  match l with
  | [] => None
  | e :: l' =>
      if e.1 =? a then Some (e.2, l')
      else match take_resp a l' with Some (r, l'') => Some (r, e :: l'') | None => None end
  end.

Definition VaultCallback (req_id : Z) (s : HMCMemorySystem) : outcome HMCMemorySystem :=
  f ← or_undef (take_resp req_id (resp_lookup_table_ s));
  let r := f.1 in
  let x := resps s in
  q ← vget (src_q x) (p_quad r);
  age' ← vset (age x) (p_quad r) 1;
  Done (set_resps f.2 (mk_xbar (zinsert (p_quad r) (q ++ [r]) (src_q x)) age' (dst_q x) (busy x)) s).

Fixpoint vault_callbacks (l : list (Z * bool)) (s : HMCMemorySystem) : outcome HMCMemorySystem :=
  match l with
  | [] => Done s
  | p :: l' => s' ← VaultCallback p.1 s; vault_callbacks l' s'
  end.

(** [DRAMClockTick]. *)
Definition DRAMClockTick (s : HMCMemorySystem) : outcome HMCMemorySystem :=
  r ← clock_channels config (h_clk_ s) (h_ctrls_ s);
  s1 ← vault_callbacks r.1 s;
  Done (set_ctrls (u64 (h_clk_ s + 1)) r.2 s1).

(** The [while] loop: logic cycles until the next DRAM cycle. *)
Fixpoint logic_loop (fuel : nat) (s : HMCMemorySystem) : outcome (list (Z * bool) * HMCMemorySystem) :=
  if logic_ps_ s <? u64 (dram_ps_ s + ps_per_dram_) then
    match fuel with
    | O => Stuck
    | S fuel' =>
        r ← DrainResponses s;
        s2 ← DrainRequests r.2;
        r' ← logic_loop fuel' (next_logic s2);
        Done (r.1 ++ r'.1, r'.2)
    end
  else Done ([], s).

(** [HMCMemorySystem::ClockTick]. *)
Definition h_ClockTick (s : HMCMemorySystem) : outcome (list (Z * bool) * HMCMemorySystem) :=
  r ← (if dram_ps_ s =? logic_ps_ s then
         r ← DrainResponses s;
         s1 ← DRAMClockTick r.2;
         s2 ← DrainRequests s1;
         Done (r.1, next_logic s2)
       else s1 ← DRAMClockTick s; Done ([], s1));
  r' ← logic_loop (Z.to_nat ps_per_dram_) r.2;
  Done (r.1 ++ r'.1, next_dram r'.2).

End System.

(** ** The crossbar *)

Lemma zlookup_vset {A} (l : list A) i x y :
  zlookup l i = Some y -> vset l i x = Done (zinsert i x l).
Proof. intros H. apply zlookup_Some_range in H. by apply vset_in_range. Qed.

(** All packets of a direction. *)
Definition packets {A} (x : xbar A) : list A := mjoin (src_q x) ++ mjoin (dst_q x).

(** The contents of a vector of queues when one queue changes. *)
Lemma mjoin_split {A} (qs : list (list A)) i q q' :
  zlookup qs i = Some q -> exists rest, mjoin qs ≡ₚ q ++ rest /\ mjoin (zinsert i q' qs) ≡ₚ q' ++ rest.
Proof.
  unfold zlookup, zinsert. case_decide; [|done]. generalize (Z.to_nat i) as n.
  induction qs as [|p qs IH]; intros n Hn; [done|]. destruct n as [|n]; cbn in *.
  - injection Hn as ->. by exists (mjoin qs).
  - destruct (IH n Hn) as (rest & H1 & H2). exists (p ++ rest). unfold mjoin in H1, H2.
    rewrite H1, H2. split; apply Permutation_app_swap_app.
Qed.

Lemma mjoin_zlookup {A} (qs : list (list A)) i q r :
  zlookup qs i = Some q -> r ∈ q -> r ∈ mjoin qs.
Proof.
  intros Hq Hr. destruct (mjoin_split qs i q [] Hq) as (rest & -> & _). apply elem_of_app. by left.
Qed.

Lemma length_mjoin_replicate {A} n : mjoin (replicate n []) = ([] : list A).
Proof. by induction n. Qed.

(** [n] sources and [m] destinations; a source with an age has a packet, and no
    age is above [B]. *)
Record xbar_ok {A} (n m B : Z) (x : xbar A) : Prop := {
  x_src : Z.of_nat (length (src_q x)) = n;
  x_age : length (age x) = length (src_q x);
  x_dst : Z.of_nat (length (dst_q x)) = m;
  x_busy : length (busy x) = length (dst_q x);
  x_old : forall s q a, zlookup (src_q x) s = Some q -> zlookup (age x) s = Some a -> (0 < a -> q <> []) /\ a <= B
}.

Lemma xbar_ok_weaken {A} n m B B' (x : xbar A) : B <= B' -> xbar_ok n m B x -> xbar_ok n m B' x.
Proof. intros HB [? ? ? ? Ho]. split; try done. intros s q a Hq Ha. destruct (Ho s q a Hq Ha). split; [done|lia]. Qed.

Lemma new_xbar_ok {A} n m B : 0 <= n -> 0 <= m -> 0 <= B -> xbar_ok n m B (new_xbar A n m).
Proof.
  intros Hn Hm HB. split; cbn; rewrite ?length_replicate; try lia. intros s q a _ Ha. unfold zlookup in Ha.
  case_decide; [|done]. apply lookup_replicate_1 in Ha as [-> _]. split; lia.
Qed.

Lemma insert_pos_perm a p l : insert_pos a p l ≡ₚ p :: l.
Proof. induction l as [|x l IH]; [done|]. cbn. destruct (a >? x); [done|]. rewrite IH. constructor. Qed.

Lemma age_loop_spec ages ps : forall acc,
  Forall (fun p => 0 <= p < Z.of_nat (length ages)) ps ->
  exists l l0, age_loop ages ps acc = Done l /\ l ≡ₚ l0 ++ acc /\ l0 `sublist_of` ps /\
    Forall (fun p => exists a, zlookup ages p = Some a /\ 0 < a) l0.
Proof.
  induction ps as [|p ps IH]; intros acc Hf; cbn [age_loop].
  - by exists acc, [].
  - apply Forall_cons in Hf as [Hp Hf]. destruct (zlookup_in_range ages p Hp) as [a Ha].
    rewrite (vget_Some _ _ _ Ha). cbn [mbind outcome_bind].
    destruct (IH (if a >? 0 then insert_pos a p acc else acc) Hf) as (l & l0 & -> & Hl & Hs & Hpos).
    destruct (a >? 0) eqn:E; zb.
    + exists l, (p :: l0). split_and!; [done| |by constructor|constructor; [exists a; split; [done|lia]|done]].
      rewrite Hl, insert_pos_perm. cbn. by rewrite <- Permutation_middle.
    + exists l, l0. split_and!; try done. by constructor.
Qed.

(** The age queue holds every position at most once, and only sources with an age. *)
Lemma BuildAgeQueue_spec clk ages :
  (0 < length ages)%nat -> exists l, BuildAgeQueue clk ages = Done l /\ NoDup l /\
    Forall (fun p => exists a, zlookup ages p = Some a /\ 0 < a) l.
Proof.
  intros Hn. unfold BuildAgeQueue. destruct (_ =? 0) eqn:E; zb; [lia|]. set (n := Z.of_nat (length ages)) in *.
  pose proof (Z.mod_pos_bound clk n ltac:(lia)) as Hk. set (k := clk mod n) in *.
  destruct (age_loop_spec ages (map (fun i => (i + k) mod n) (zrange 0 (length ages))) []) as (l & l0 & E0 & Hl & Hs & Hpos).
  { apply Forall_forall. intros p (i & -> & _)%list_elem_of_fmap. apply Z.mod_pos_bound. lia. }
  exists l. rewrite app_nil_r in Hl. split_and!; [done| |rewrite Hl; exact Hpos]. rewrite Hl. eapply sublist_NoDup; [|done].
  apply NoDup_fmap_2_strong; [|apply NoDup_zrange]. intros i j Hi Hj Hij.
  apply elem_of_zrange in Hi, Hj. fold n in Hi, Hj.
  pose proof (Z.div_mod (i + k) n). pose proof (Z.div_mod (j + k) n).
  pose proof (Z.mod_pos_bound (i + k) n). pose proof (Z.mod_pos_bound (j + k) n).
  assert ((i + k) / n - (j + k) / n = 0) by nia. nia.
Qed.

Section Crossing.
Context {A B : Type} (dest flits : A -> Z) (leaves : Z -> A -> A) (f : A -> B).
Variables depth clk : Z.
Hypothesis Hf : forall n r, f (leaves n r) = f r.

(** What a step for source [s] keeps. *)
Definition crossed (n m Bd s : Z) (x x' : xbar A) : Prop :=
  xbar_ok n m Bd x' /\ map f (packets x') ≡ₚ map f (packets x) /\
  (forall s', s' <> s -> zlookup (age x') s' = zlookup (age x) s').

Lemma move_spec n m Bd x s r q dq a :
  xbar_ok n m Bd x -> zlookup (src_q x) s = Some (r :: q) -> zlookup (age x) s = Some a -> 1 <= Bd ->
  zlookup (dst_q x) (dest r) = Some dq ->
  exists x', move flits leaves clk s (dest r) r q dq x = Done x' /\ crossed n m Bd s x x'.
Proof using Hf.
  intros [Hs Hla Hd Hlb Ho] Hq Ha HB Hdq. pose proof (zlookup_Some_range _ _ _ Ha).
  destruct (zlookup_in_range (busy x) (dest r)) as [b Hb]; [apply zlookup_Some_range in Hdq; lia|]. unfold move.
  rewrite (zlookup_vset _ _ _ _ Hdq), (zlookup_vset _ _ _ _ Hb), (zlookup_vset _ _ _ _ Ha). cbn [mbind outcome_bind].
  eexists. split; [reflexivity|]. split_and!.
  - split; cbn; rewrite ?length_zinsert; try done. intros s' q' a' Hq' Ha'. destruct (decide (s' = s)) as [->|Hne'].
    + rewrite zlookup_zinsert_eq in Hq' by lia. rewrite zlookup_zinsert_eq in Ha' by lia.
      injection Hq' as <-. injection Ha' as <-. destruct q; split; (done || lia).
    + rewrite zlookup_zinsert_ne in Hq' by done. rewrite zlookup_zinsert_ne in Ha' by done. by apply (Ho s').
  - destruct (mjoin_split (src_q x) s (r :: q) q Hq) as (rs & H1 & H2).
    destruct (mjoin_split (dst_q x) (dest r) dq (dq ++ [leaves (u64 (clk + flits r)) r]) Hdq) as (ds & H3 & H4).
    unfold packets. cbn [src_q dst_q]. rewrite H1, H2, H3, H4, !map_app. cbn [map app]. rewrite Hf. solve_Permutation.
  - intros s' Hs'. by apply zlookup_zinsert_ne.
Qed.

Lemma stall_spec n m Bd x s q a :
  xbar_ok n m Bd x -> zlookup (src_q x) s = Some q -> q <> [] -> zlookup (age x) s = Some a -> a + 1 <= Bd ->
  Bd < 2 ^ 31 -> exists x', stall s x = Done x' /\ crossed n m Bd s x x'.
Proof using Hf.
  intros [Hs Hla Hd Hlb Ho] Hq Hne Ha Ha1 HB. pose proof (zlookup_Some_range _ _ _ Ha). unfold stall.
  rewrite (vget_Some _ _ _ Ha). cbn [mbind outcome_bind]. unfold grow_old. destruct (_ =? _) eqn:E; zb; [lia|].
  cbn [mbind outcome_bind]. eexists. split; [reflexivity|]. split_and!; [|done|].
  - split; cbn; rewrite ?length_zinsert; try done. intros s' q' a' Hq' Ha'. destruct (decide (s' = s)) as [->|Hne'].
    + rewrite zlookup_zinsert_eq in Ha' by lia. injection Ha' as <-. rewrite Hq in Hq'. injection Hq' as <-. split; (done || lia).
    + rewrite zlookup_zinsert_ne in Ha' by done. by apply (Ho s').
  - intros s' Hs'. by apply zlookup_zinsert_ne.
Qed.

(** A step of the loop: source [s] has an age, so it is not empty. *)
Lemma cross_one_spec n m Bd x s a :
  xbar_ok n m Bd x -> Forall (fun r => 0 <= dest r < m) (packets x) ->
  zlookup (age x) s = Some a -> 0 < a -> a + 1 <= Bd -> Bd < 2 ^ 31 ->
  exists x', cross_one dest flits leaves depth clk s x = Done x' /\ crossed n m Bd s x x'.
Proof using Hf.
  intros Hx Hdst Ha Ha0 Ha1 HB. pose proof Hx as [Hs Hla Hd Hlb Ho]. pose proof (zlookup_Some_range _ _ _ Ha).
  destruct (zlookup_in_range (src_q x) s) as [q Hq]; [lia|]. destruct (Ho s q a Hq Ha) as [Hne _]. specialize (Hne Ha0).
  unfold cross_one. rewrite (vget_Some _ _ _ Hq). cbn [mbind outcome_bind]. destruct q as [|r q]; [done|].
  cbn [head or_undef mbind outcome_bind tail].
  assert (0 <= dest r < m).
  { rewrite Forall_forall in Hdst. apply Hdst, elem_of_app. left. eapply mjoin_zlookup; [done|]. constructor. }
  destruct (zlookup_in_range (dst_q x) (dest r)) as [dq Hdq]; [lia|].
  destruct (zlookup_in_range (busy x) (dest r)) as [b Hb]; [lia|].
  rewrite (vget_Some _ _ _ Hdq), (vget_Some _ _ _ Hb). cbn [mbind outcome_bind].
  destruct (_ <? depth); cbn [mbind outcome_bind]; [destruct (b <=? 0)|];
    (eapply move_spec || eapply stall_spec); done || lia.
Qed.

Lemma cross_spec n m Bd l : forall x,
  xbar_ok n m (Bd + 1) x -> Forall (fun r => 0 <= dest r < m) (packets x) -> Bd + 1 < 2 ^ 31 ->
  (forall p r, f p = f r -> dest p = dest r) ->
  NoDup l -> Forall (fun s => exists a, zlookup (age x) s = Some a /\ 0 < a <= Bd) l ->
  exists x', cross dest flits leaves depth clk l x = Done x' /\ xbar_ok n m (Bd + 1) x' /\
    map f (packets x') ≡ₚ map f (packets x).
Proof using Hf.
  induction l as [|s l IH]; intros x Hx Hdst HB Hfd Hnd Hl; cbn [cross]; [by exists x|].
  apply NoDup_cons in Hnd as [Hni Hnd]. apply Forall_cons in Hl as [(a & Ha & Ha0) Hl].
  destruct (cross_one_spec n m (Bd + 1) x s a Hx Hdst Ha) as (x1 & -> & Hx1 & Hp1 & Hage); [lia..|].
  cbn [mbind outcome_bind]. destruct (IH x1) as (x2 & -> & Hx2 & Hp2); try done.
  - rewrite Forall_forall in Hdst |- *. intros r Hr. apply (list_elem_of_fmap_2 f) in Hr. rewrite Hp1 in Hr.
    apply list_elem_of_fmap in Hr as (r' & He & Hr'). rewrite (Hfd _ _ He). by apply Hdst.
  - rewrite Forall_forall in Hl |- *. intros s' Hs'. rewrite Hage; [by apply Hl|]. by intros ->.
  - exists x2. split_and!; try done. by rewrite Hp2.
Qed.

(** One direction of the crossbar in a logic cycle. *)
Lemma drain_xbar_spec n m Bd x :
  0 < n -> xbar_ok n m Bd x -> Forall (fun r => 0 <= dest r < m) (packets x) -> Bd + 1 < 2 ^ 31 ->
  (forall p r, f p = f r -> dest p = dest r) ->
  exists x', drain_xbar dest flits leaves depth clk x = Done x' /\ xbar_ok n m (Bd + 1) x' /\
    map f (packets x') ≡ₚ map f (packets x).
Proof using Hf.
  intros Hn Hx Hdst HB Hfd. pose proof Hx as [Hs Hla Hd Hlb Ho]. unfold drain_xbar.
  destruct (BuildAgeQueue_spec clk (age x)) as (l & -> & Hnd & Hl); [lia|]. cbn [mbind outcome_bind].
  match goal with |- context [cross _ _ _ _ _ l ?y] => apply (cross_spec n m Bd l y) end; try done.
  - split; cbn; rewrite ?length_map; try done. intros s q a Hq Ha. destruct (Ho s q a Hq Ha). split; [done|lia].
  - rewrite Forall_forall in Hl |- *. intros s Hs'. destruct (Hl s Hs') as (a & Ha & Ha0). exists a. split; [done|].
    destruct (zlookup_in_range (src_q x) s) as [q Hq]; [apply zlookup_Some_range in Ha; lia|].
    destruct (Ho s q a Hq Ha). lia.
Qed.
End Crossing.

(** ** The system *)

(** What crossing keeps of a packet. *)
Definition req_key (r : HMCRequest) : Z * Z * Z := (mem_operand r, q_quad r, vault r).
Definition resp_key (r : HMCResponse) : Z * HMCRespType * Z * Z := (resp_id r, p_type r, p_link r, p_quad r).
Definition resp_sig (r : HMCResponse) : Z * bool := (resp_id r, resp_is_write r).

Lemma Forall_image {A B} (f : A -> B) (P : A -> Prop) l l' :
  (forall p r, f p = f r -> P p -> P r) -> map f l' ≡ₚ map f l -> Forall P l -> Forall P l'.
Proof.
  intros HP Hp. rewrite !Forall_forall. intros Hl r Hr. apply (list_elem_of_fmap_2 f) in Hr. rewrite Hp in Hr.
  apply list_elem_of_fmap in Hr as (r' & He & Hr'). by apply (HP r'); [|apply Hl].
Qed.

Lemma map_image {A B C} (f : A -> B) (h : B -> C) l l' :
  map f l' ≡ₚ map f l -> map (fun r => h (f r)) l' ≡ₚ map (fun r => h (f r)) l.
Proof. intros Hp. rewrite <- !(map_map f h). by apply Permutation_map. Qed.

Section Correct.
Variable config : Config.
Variable grow : Z -> Z.

(** The configurations the theorems are about. *)
Record hmc_plain : Prop := {
  hp_system : plain_system config;
  hp_links : 1 <= num_links (str_ config);
  hp_block : block_size (str_ config) ∈ [0; 32; 64; 128; 256];
  hp_ratio : exists p, SetClockRatio config = Done p /\ 1 <= p
}.

Definition req_ok (r : HMCRequest) : Prop := 0 <= q_quad r < 4 /\ 0 <= vault r < channels (sys_ config).
Definition resp_ok (r : HMCResponse) : Prop := 0 <= p_link r < num_links (str_ config) /\ 0 <= p_quad r < 4.

(** The invariant: every response has its place, and the table of responses has
    one entry for each request under way, in the crossbar or in a vault. *)
Record core (bq bp : Z) (s : HMCMemorySystem) : Prop := {
  k_chan : Forall (chan_inv config (h_clk_ s)) (h_ctrls_ s);
  k_len : Z.of_nat (length (h_ctrls_ s)) = channels (sys_ config);
  k_clk : 0 <= h_clk_ s;
  k_reqs : xbar_ok (num_links (str_ config)) 4 bq (reqs s);
  k_resps : xbar_ok 4 (num_links (str_ config)) bp (resps s);
  k_req : Forall req_ok (packets (reqs s));
  k_resp : Forall resp_ok (packets (resps s));
  k_table : Forall (fun e => e.1 = resp_id e.2 /\ resp_ok e.2) (resp_lookup_table_ s);
  k_keys : map fst (resp_lookup_table_ s) ≡ₚ map mem_operand (packets (reqs s)) ++ map fst (h_ctrls_ s ≫= account);
  k_link : 0 <= next_link_ s < num_links (str_ config)
}.

(** The callbacks still to be made. *)
Definition outstanding (s : HMCMemorySystem) : list (Z * bool) :=
  map resp_sig (map snd (resp_lookup_table_ s) ++ packets (resps s)).

(** The clocks of two states agree. *)
Definition same_time (s s' : HMCMemorySystem) : Prop :=
  logic_clk_ s' = logic_clk_ s /\ logic_ps_ s' = logic_ps_ s /\ dram_ps_ s' = dram_ps_ s /\
  ps_per_logic_ s' = ps_per_logic_ s.

Lemma quad_to_vault_spec bq bp s i :
  core bq bp s -> 0 <= i < 4 ->
  exists s', quad_to_vault config grow i s = Done s' /\ core bq bp s' /\ same_time s s' /\ h_clk_ s' = h_clk_ s /\
    outstanding s' = outstanding s.
Proof using Type.
  intros Hk Hi. pose proof Hk as [Hc Hl H0 Hq Hp Hrq Hrp Ht Hkeys Hn]. unfold quad_to_vault.
  destruct (zlookup_in_range (dst_q (reqs s)) i) as [q Eq]; [rewrite (x_dst _ _ _ _ Hq); lia|].
  destruct (zlookup_in_range (src_q (resps s)) i) as [p Ep]; [rewrite (x_src _ _ _ _ Hp); lia|].
  rewrite (vget_Some _ _ _ Eq), (vget_Some _ _ _ Ep). cbn [mbind outcome_bind].
  assert (exists s', Done s = Done s' /\ core bq bp s' /\ same_time s s' /\ h_clk_ s' = h_clk_ s /\
    outstanding s' = outstanding s) as Hstay by by exists s.
  destruct q as [|req q]; [done|]. destruct (negb _); [done|]. destruct (negb _); [done|].
  destruct (mjoin_split (dst_q (reqs s)) i (req :: q) q Eq) as (rest & Hj1 & Hj2).
  assert (Hpk : packets (reqs s) ≡ₚ req :: mjoin (src_q (reqs s)) ++ q ++ rest).
  { unfold packets. rewrite Hj1. cbn. by rewrite <- Permutation_middle. }
  rewrite Hpk in Hrq. apply Forall_cons in Hrq as [[_ Hv] Hrest].
  destruct (zlookup_in_range (h_ctrls_ s) (vault req)) as [c Ec]; [lia|]. rewrite (vget_Some _ _ _ Ec).
  cbn [mbind outcome_bind]. destruct (WillAcceptTransaction _ _ _ _); [|done].
  destruct (zlookup_Forall _ _ _ _ Hc Ec) as (Hok & Hb & Hck).
  destruct (AddTransaction_spec config (new_timing config) grow (mem_operand req) (q_is_write req) c Hok Hb) as (Hok' & Hb' & Ha' & Hk').
  eexists. split; [reflexivity|]. split_and!; try done. split; cbn -[packets]; rewrite ?length_zinsert; try done.
  - apply zinsert_Forall; [done|]. by split_and!; [..|rewrite <- Hck].
  - destruct Hq as [? ? ? ? ?]. split; cbn; rewrite ?length_zinsert; done.
  - unfold packets. cbn [src_q dst_q]. by rewrite Hj2.
  - rewrite Hkeys, Hpk. unfold packets. cbn [src_q dst_q map]. rewrite Hj2.
    rewrite (bind_zinsert account (h_ctrls_ s) (vault req) c _ _ Ec Ha'). cbn [map fst]. by rewrite <- Permutation_middle.
Qed.

Lemma quads_to_vaults_spec bq bp l : forall s,
  core bq bp s -> Forall (fun i => 0 <= i < 4) l ->
  exists s', quads_to_vaults config grow l s = Done s' /\ core bq bp s' /\ same_time s s' /\ h_clk_ s' = h_clk_ s /\
    outstanding s' = outstanding s.
Proof using Type.
  induction l as [|i l IH]; intros s Hk Hl; cbn [quads_to_vaults]; [by exists s|].
  apply Forall_cons in Hl as [Hi Hl]. destruct (quad_to_vault_spec bq bp s i Hk Hi) as (s1 & -> & Hk1 & Ht1 & Hc1 & Ho1).
  cbn [mbind outcome_bind]. destruct (IH s1 Hk1 Hl) as (s2 & -> & Hk2 & Ht2 & Hc2 & Ho2). exists s2.
  unfold same_time in *. split_and!; try done; intuition congruence.
Qed.

Lemma DrainRequests_spec bq bp s :
  hmc_plain -> core bq bp s -> bq + 1 < 2 ^ 31 ->
  exists s', DrainRequests config grow s = Done s' /\ core (bq + 1) bp s' /\ same_time s s' /\ h_clk_ s' = h_clk_ s /\
    outstanding s' = outstanding s.
Proof using Type.
  intros Hp Hk HB. unfold DrainRequests.
  destruct (quads_to_vaults_spec bq bp (zrange 0 4) s Hk) as (s1 & -> & Hk1 & Ht1 & Hc1 & Ho1).
  { apply Forall_forall. intros i Hi. by apply elem_of_zrange in Hi. }
  cbn [mbind outcome_bind]. pose proof Hk1 as [Hc Hl H0 Hq Hpq Hrq Hrp Ht Hkeys Hn].
  destruct (drain_xbar_spec q_quad q_flits q_leaves req_key (u64 (xbar_queue_depth (str_ config))) (logic_clk_ s1)
    (fun _ _ => eq_refl) (num_links (str_ config)) 4 bq (reqs s1)) as (x & -> & Hx & Hm); try done.
  { apply hp_links in Hp. lia. }
  { eapply Forall_impl; [done|]. by intros r []. }
  { by intros p r [= _ -> _]. }
  cbn [mbind outcome_bind]. eexists. split; [reflexivity|]. split_and!; try done.
  split; cbn [h_clk_ h_ctrls_ reqs resps resp_lookup_table_ next_link_ set_reqs]; try done.
  - eapply (Forall_image req_key); [|done..]. intros p r [= _ E1 E2]. unfold req_ok. by rewrite E1, E2.
  - rewrite Hkeys. f_equiv. symmetry. apply (map_image req_key (fun k => k.1.1)). done.
Qed.

Lemma link_to_cpu_spec bq bp s i :
  core bq bp s -> 0 <= i < num_links (str_ config) ->
  exists cb s', link_to_cpu i s = Done (cb, s') /\ core bq bp s' /\ same_time s s' /\ h_clk_ s' = h_clk_ s /\
    outstanding s ≡ₚ cb ++ outstanding s'.
Proof using Type.
  clear grow.
  intros Hk Hi. pose proof Hk as [Hc Hl H0 Hq Hp Hrq Hrp Ht Hkeys Hn]. unfold link_to_cpu.
  destruct (zlookup_in_range (dst_q (resps s)) i) as [q Eq]; [rewrite (x_dst _ _ _ _ Hp); lia|].
  rewrite (vget_Some _ _ _ Eq). cbn [mbind outcome_bind].
  destruct q as [|r q]; [by exists [], s|]. destruct (_ <=? _); [|by exists [], s].
  destruct (mjoin_split (dst_q (resps s)) i (r :: q) q Eq) as (rest & Hj1 & Hj2).
  assert (Hpk : packets (resps s) ≡ₚ r :: mjoin (src_q (resps s)) ++ q ++ rest).
  { unfold packets. rewrite Hj1. cbn. by rewrite <- Permutation_middle. }
  rewrite Hpk in Hrp. apply Forall_cons in Hrp as [_ Hrest].
  eexists _, _. split; [reflexivity|]. split_and!; try done.
  - split; cbn -[packets]; try done.
    + destruct Hp as [? ? ? ? ?]. split; cbn; rewrite ?length_zinsert; done.
    + unfold packets. cbn [src_q dst_q]. by rewrite Hj2.
  - unfold outstanding. rewrite Hpk, <- Permutation_middle. unfold packets. cbn. by rewrite Hj2.
Qed.

Lemma links_to_cpu_spec bq bp l : forall s,
  core bq bp s -> Forall (fun i => 0 <= i < num_links (str_ config)) l ->
  exists cb s', links_to_cpu l s = Done (cb, s') /\ core bq bp s' /\ same_time s s' /\ h_clk_ s' = h_clk_ s /\
    outstanding s ≡ₚ cb ++ outstanding s'.
Proof using Type.
  clear grow.
  induction l as [|i l IH]; intros s Hk Hl; cbn [links_to_cpu]; [by exists [], s|].
  apply Forall_cons in Hl as [Hi Hl]. destruct (link_to_cpu_spec bq bp s i Hk Hi) as (cb & s1 & -> & Hk1 & Ht1 & Hc1 & Ho1).
  cbn [mbind outcome_bind fst snd]. destruct (IH s1 Hk1 Hl) as (cb2 & s2 & -> & Hk2 & Ht2 & Hc2 & Ho2).
  cbn [mbind outcome_bind fst snd]. exists (cb ++ cb2), s2. unfold same_time in *.
  split_and!; try done; try intuition congruence. by rewrite Ho1, Ho2, app_assoc.
Qed.

Lemma DrainResponses_spec bq bp s :
  hmc_plain -> core bq bp s -> bp + 1 < 2 ^ 31 ->
  exists cb s', DrainResponses config s = Done (cb, s') /\ core bq (bp + 1) s' /\ same_time s s' /\ h_clk_ s' = h_clk_ s /\
    outstanding s ≡ₚ cb ++ outstanding s'.
Proof using Type.
  clear grow.
  intros Hp Hk HB. unfold DrainResponses. pose proof (hp_links Hp) as HL.
  destruct (links_to_cpu_spec bq bp (zrange 0 (Z.to_nat (num_links (str_ config)))) s Hk) as (cb & s1 & -> & Hk1 & Ht1 & Hc1 & Ho1).
  { apply Forall_forall. intros i Hi. apply elem_of_zrange in Hi. lia. }
  cbn [mbind outcome_bind fst snd]. pose proof Hk1 as [Hc Hl H0 Hq Hpq Hrq Hrp Ht Hkeys Hn].
  destruct (drain_xbar_spec p_link p_flits p_leaves resp_key (u64 (xbar_queue_depth (str_ config))) (logic_clk_ s1)
    (fun _ _ => eq_refl) 4 (num_links (str_ config)) bp (resps s1)) as (x & -> & Hx & Hm); try done.
  { eapply Forall_impl; [done|]. by intros r []. }
  { by intros p r [= _ _ -> _]. }
  cbn [mbind outcome_bind]. eexists _, _. split; [reflexivity|]. split_and!; try done.
  - split; cbn [h_clk_ h_ctrls_ reqs resps resp_lookup_table_ next_link_ set_resps]; try done.
    eapply (Forall_image resp_key); [|done..]. intros p r [= _ _ E1 E2]. unfold resp_ok. by rewrite E1, E2.
  - rewrite Ho1. f_equiv. unfold outstanding. cbn [resps resp_lookup_table_ set_resps]. rewrite !map_app. f_equiv.
    symmetry. by apply (map_image resp_key (fun k => (k.1.1.1, match k.1.1.2 with RD_RS => false | _ => true end))).
Qed.

Lemma take_resp_spec a l keys :
  map fst l ≡ₚ a :: keys -> exists r l', take_resp a l = Some (r, l') /\ l ≡ₚ (a, r) :: l'.
Proof using Type.
  clear grow.
  assert (forall l, a ∈ map fst l -> exists r l', take_resp a l = Some (r, l') /\ l ≡ₚ (a, r) :: l') as H.
  { clear. induction l as [|[b r] l IH]; intros Hin; cbn in *; [by apply elem_of_nil in Hin|].
    destruct (b =? a) eqn:E; zb; [by exists r, l; subst|]. apply elem_of_cons in Hin as [->|Hin]; [done|].
    destruct (IH Hin) as (r' & l' & -> & Hp). exists r', ((b, r) :: l'). split; [done|]. rewrite Hp. constructor. }
  intros Hp. apply H. rewrite Hp. constructor.
Qed.

(** A vault has finished a request: its response enters the crossbar. *)
Lemma VaultCallback_spec bp a keys s :
  xbar_ok 4 (num_links (str_ config)) bp (resps s) -> 1 <= bp -> Forall resp_ok (packets (resps s)) ->
  Forall (fun e => e.1 = resp_id e.2 /\ resp_ok e.2) (resp_lookup_table_ s) ->
  map fst (resp_lookup_table_ s) ≡ₚ a :: keys ->
  exists t x, VaultCallback a s = Done (set_resps t x s) /\ xbar_ok 4 (num_links (str_ config)) bp x /\
    Forall resp_ok (packets x) /\ Forall (fun e => e.1 = resp_id e.2 /\ resp_ok e.2) t /\ map fst t ≡ₚ keys /\
    map snd t ++ packets x ≡ₚ map snd (resp_lookup_table_ s) ++ packets (resps s).
Proof using Type.
  clear grow.
  intros Hx Hbp Hrp Ht Hkeys. unfold VaultCallback.
  destruct (take_resp_spec a _ keys Hkeys) as (r & t & -> & Hp). cbn [or_undef mbind outcome_bind fst snd].
  rewrite Hp in Ht. apply Forall_cons in Ht as [[_ [Hrl Hrq]] Ht]. rewrite Hp in Hkeys. cbn in Hkeys, Hrq.
  apply Permutation_cons_inv in Hkeys. pose proof Hx as [Hs Hla Hd Hlb Ho].
  destruct (zlookup_in_range (src_q (resps s)) (p_quad r)) as [q Eq]; [lia|].
  destruct (zlookup_in_range (age (resps s)) (p_quad r)) as [a0 Ea]; [lia|].
  rewrite (vget_Some _ _ _ Eq), (zlookup_vset _ _ _ _ Ea). cbn [mbind outcome_bind]. eexists _, _. split; [reflexivity|].
  destruct (mjoin_split (src_q (resps s)) (p_quad r) q (q ++ [r]) Eq) as (rest & Hj1 & Hj2).
  match goal with |- xbar_ok _ _ _ ?y /\ _ => assert (Hpk : packets y ≡ₚ r :: packets (resps s)) end.
  { unfold packets. cbn [src_q dst_q]. rewrite Hj1, Hj2. solve_Permutation. }
  split_and!; try done.
  - split; cbn; rewrite ?length_zinsert; try done. intros s' q' a' Hq' Ha'. destruct (decide (s' = p_quad r)) as [->|Hne].
    + rewrite zlookup_zinsert_eq in Hq' by lia. rewrite zlookup_zinsert_eq in Ha' by lia. simplify_eq.
      split; [by destruct q|lia].
    + rewrite zlookup_zinsert_ne in Hq' by done. rewrite zlookup_zinsert_ne in Ha' by done. by apply (Ho s').
  - rewrite Hpk. by constructor.
  - rewrite Hpk, Hp. cbn. by rewrite Permutation_middle.
Qed.

Lemma vault_callbacks_spec bp cb : forall s keys,
  xbar_ok 4 (num_links (str_ config)) bp (resps s) -> 1 <= bp -> Forall resp_ok (packets (resps s)) ->
  Forall (fun e => e.1 = resp_id e.2 /\ resp_ok e.2) (resp_lookup_table_ s) ->
  map fst (resp_lookup_table_ s) ≡ₚ map fst cb ++ keys ->
  exists t x, vault_callbacks cb s = Done (set_resps t x s) /\ xbar_ok 4 (num_links (str_ config)) bp x /\
    Forall resp_ok (packets x) /\ Forall (fun e => e.1 = resp_id e.2 /\ resp_ok e.2) t /\ map fst t ≡ₚ keys /\
    map snd t ++ packets x ≡ₚ map snd (resp_lookup_table_ s) ++ packets (resps s).
Proof using Type.
  clear grow.
  induction cb as [|[a wr] cb IH]; intros s keys Hx Hbp Hrp Ht Hkeys; cbn [vault_callbacks].
  - exists (resp_lookup_table_ s), (resps s). split_and!; try done. by destruct s.
  - destruct (VaultCallback_spec bp a (map fst cb ++ keys) s Hx Hbp Hrp Ht Hkeys) as (t & x & E & Hx1 & Hrp1 & Ht1 & Hk1 & Hp1).
    cbn [fst]. rewrite E. cbn [mbind outcome_bind].
    destruct (IH (set_resps t x s) keys Hx1 Hbp Hrp1 Ht1 Hk1) as (t2 & x2 & -> & Hx2 & Hrp2 & Ht2 & Hk2 & Hp2).
    exists t2, x2. split_and!; try done. by rewrite Hp2, <- Hp1.
Qed.

Lemma DRAMClockTick_spec bq bp s :
  hmc_plain -> core bq bp s -> 1 <= bp -> h_clk_ s + 1 < 2 ^ 64 ->
  exists s', DRAMClockTick config s = Done s' /\ core bq bp s' /\ same_time s s' /\ h_clk_ s' = h_clk_ s + 1 /\
    outstanding s' ≡ₚ outstanding s.
Proof using Type.
  clear grow.
  intros Hp Hk Hbp H64. pose proof Hk as [Hc Hl H0 Hq Hpq Hrq Hrp Ht Hkeys Hn]. unfold DRAMClockTick.
  destruct (clock_channels_spec config (h_clk_ s) (h_ctrls_ s) (hp_system Hp) Hc H0 H64) as (cb & l & -> & Hc' & Hl' & Ha).
  cbn [mbind outcome_bind fst snd].
  destruct (vault_callbacks_spec bp cb s (map mem_operand (packets (reqs s)) ++ map fst (l ≫= account)))
    as (t & x & -> & Hx & Hrp' & Ht' & Hk' & Hout); try done.
  { rewrite Hkeys, Ha, map_app. apply Permutation_app_swap_app. }
  cbn [mbind outcome_bind]. eexists. split; [reflexivity|]. rewrite u64_small by lia. split_and!; try done.
  - split; cbn -[packets]; try done; lia.
  - unfold outstanding. cbn -[packets]. by rewrite Hout.
Qed.

(** *** Clocks *)

(** The invariant between calls: logic cycles of [ps_per_logic_] and DRAM cycles
    of [ps_per_dram_] have started at zero, and the logic is ahead by less than a
    cycle.  The ages are bounded by the logic cycles. *)
Record hmc_inv (s : HMCMemorySystem) : Prop := {
  i_core : core (logic_clk_ s + 1) (logic_clk_ s + 1) s;
  i_ratio : 1 <= ps_per_logic_ s <= ps_per_dram_;
  i_clk : 0 <= logic_clk_ s;
  i_logic : logic_ps_ s = ps_per_logic_ s * logic_clk_ s;
  i_dram : dram_ps_ s = ps_per_dram_ * h_clk_ s;
  i_ahead : dram_ps_ s <= logic_ps_ s < dram_ps_ s + ps_per_logic_ s
}.

(** Logic cycles that the [int] ages can count. *)
Definition horizon : Z := 2 ^ 31 - 1000.

Lemma core_next_logic b c s :
  0 <= logic_clk_ s -> logic_clk_ s + 1 < 2 ^ 31 -> b <= logic_clk_ s + 2 -> c <= logic_clk_ s + 2 ->
  core b c s -> core (logic_clk_ (next_logic s) + 1) (logic_clk_ (next_logic s) + 1) (next_logic s).
Proof using Type.
  clear grow. intros H0 HB Hb Hc []. cbn [logic_clk_ next_logic]. rewrite u64_small by lia.
  split; try done; (eapply xbar_ok_weaken; [|done]); lia.
Qed.

Lemma logic_loop_spec fuel : forall s T,
  T = dram_ps_ s + ps_per_dram_ ->
  hmc_plain -> core (logic_clk_ s + 1) (logic_clk_ s + 1) s ->
  0 <= logic_clk_ s -> 0 <= dram_ps_ s -> T + ps_per_dram_ < 2 ^ 64 -> 1 <= ps_per_logic_ s <= ps_per_dram_ -> 0 <= logic_ps_ s ->
  T - logic_ps_ s <= Z.of_nat fuel -> logic_clk_ s + Z.max 0 (T - logic_ps_ s) + 3 < 2 ^ 31 ->
  exists cb s' n, logic_loop config grow fuel s = Done (cb, s') /\ core (logic_clk_ s' + 1) (logic_clk_ s' + 1) s' /\
    0 <= n /\ logic_clk_ s' = logic_clk_ s + n /\ logic_ps_ s' = logic_ps_ s + ps_per_logic_ s * n /\
    T <= logic_ps_ s' /\ (n = 0 \/ logic_ps_ s' < T + ps_per_logic_ s) /\
    dram_ps_ s' = dram_ps_ s /\ ps_per_logic_ s' = ps_per_logic_ s /\ h_clk_ s' = h_clk_ s /\
    outstanding s ≡ₚ cb ++ outstanding s'.
Proof using Type.
  induction fuel as [|fuel IH]; intros s T HT Hp Hk H0 Hd H64 Hr Hl Hfuel HB; cbn [logic_loop]; rewrite <- HT;
    rewrite (u64_small T) by (unfold ps_per_dram_ in *; lia); destruct (_ <? T) eqn:E; zb.
  - lia.
  - exists [], s, 0. split_and!; try done; try lia.
  - destruct (DrainResponses_spec _ _ s Hp Hk) as (cb & s1 & -> & Hk1 & (Hc1 & Hps1 & Hd1 & Hr1) & Hh1 & Ho1); [lia|].
    cbn [mbind outcome_bind fst snd].
    destruct (DrainRequests_spec _ _ s1 Hp Hk1) as (s2 & -> & Hk2 & (Hc2 & Hps2 & Hd2 & Hr2) & Hh2 & Ho2); [lia|].
    cbn [mbind outcome_bind]. assert (Hk3 : core (logic_clk_ (next_logic s2) + 1) (logic_clk_ (next_logic s2) + 1) (next_logic s2)).
    { eapply core_next_logic; [..|done]; lia. }
    assert (Hclk : logic_clk_ (next_logic s2) = logic_clk_ s + 1).
    { cbn. rewrite u64_small by lia. congruence. }
    assert (Hps : logic_ps_ (next_logic s2) = logic_ps_ s + ps_per_logic_ s).
    { cbn. rewrite Hps2, Hr2, Hps1, Hr1, u64_small by lia. done. }
    assert (Hdr : dram_ps_ (next_logic s2) = dram_ps_ s) by (cbn; congruence).
    assert (Hrr : ps_per_logic_ (next_logic s2) = ps_per_logic_ s) by (cbn; congruence).
    destruct (IH (next_logic s2) T) as (cb' & s' & n & -> & Hk' & Hn & Hcl' & Hps' & HT' & Hover & Hd' & Hr' & Hh' & Ho');
      try done; try lia.
    cbn [mbind outcome_bind fst snd]. exists (cb ++ cb'), s', (n + 1). split_and!; try done; try lia.
    + change (h_clk_ (next_logic s2)) with (h_clk_ s2) in *. congruence.
    + rewrite Ho1, <- Ho2. change (outstanding s2) with (outstanding (next_logic s2)). by rewrite Ho', app_assoc.
  - exists [], s, 0. split_and!; try done; try lia.
Qed.

Lemma h_ClockTick_spec s :
  hmc_plain -> hmc_inv s -> logic_clk_ s < horizon ->
  exists cb s', h_ClockTick config grow s = Done (cb, s') /\ hmc_inv s' /\ h_clk_ s' = h_clk_ s + 1 /\
    outstanding s ≡ₚ cb ++ outstanding s'.
Proof using Type.
  unfold horizon, ps_per_dram_. intros Hp [Hk Hr H0 Hl Hd Ha] HB. unfold h_ClockTick.
  pose proof (k_clk _ _ _ Hk) as Hck. unfold ps_per_dram_ in *.
  assert (h_clk_ s <= logic_clk_ s) as Hlag by nia.
  set (first := if dram_ps_ s =? logic_ps_ s then _ else _).
  assert (exists cb s1 n, first = Done (cb, s1) /\ core (logic_clk_ s1 + 1) (logic_clk_ s1 + 1) s1 /\ 0 <= n <= 1 /\
    (n = 0 -> dram_ps_ s < logic_ps_ s) /\ logic_clk_ s1 = logic_clk_ s + n /\
    logic_ps_ s1 = logic_ps_ s + ps_per_logic_ s * n /\ dram_ps_ s1 = dram_ps_ s /\ ps_per_logic_ s1 = ps_per_logic_ s /\
    h_clk_ s1 = h_clk_ s + 1 /\ outstanding s ≡ₚ cb ++ outstanding s1)
    as (cb & s1 & n & -> & Hk1 & Hn & Hnz & Hc1 & Hps1 & Hd1 & Hr1 & Hh1 & Ho1).
  { unfold first. clear first. destruct (_ =? _) eqn:E; zb.
    - destruct (DrainResponses_spec _ _ s Hp Hk) as (cb & s1 & -> & Hk1 & (Hc1 & Hps1 & Hd1 & Hr1) & Hh1 & Ho1); [lia|].
      cbn [mbind outcome_bind fst snd].
      destruct (DRAMClockTick_spec _ _ s1 Hp Hk1) as (s2 & -> & Hk2 & (Hc2 & Hps2 & Hd2 & Hr2) & Hh2 & Ho2); [lia..|].
      cbn [mbind outcome_bind].
      destruct (DrainRequests_spec _ _ s2 Hp Hk2) as (s3 & -> & Hk3 & (Hc3 & Hps3 & Hd3 & Hr3) & Hh3 & Ho3); [lia|].
      cbn [mbind outcome_bind]. exists cb, (next_logic s3), 1. split_and!; try done.
      + eapply core_next_logic; [..|done]; lia.
      + cbn. rewrite u64_small; lia.
      + cbn. rewrite u64_small; lia.
      + cbn. lia.
      + cbn. lia.
      + cbn. lia.
      + change (outstanding (next_logic s3)) with (outstanding s3). by rewrite Ho1, Ho3, Ho2.
    - destruct (DRAMClockTick_spec _ _ s Hp Hk) as (s2 & -> & Hk2 & (Hc2 & Hps2 & Hd2 & Hr2) & Hh2 & Ho2); [lia..|].
      cbn [mbind outcome_bind]. exists [], s2, 0. split_and!; try done; try lia. by rewrite Hc2. }
  cbn [mbind outcome_bind fst snd].
  destruct (logic_loop_spec (Z.to_nat 800) s1 _ eq_refl Hp Hk1) as
    (cb' & s' & m & -> & Hk' & Hm & Hc' & Hps' & HT & Hover & Hd' & Hr' & Hh' & Ho'); unfold ps_per_dram_ in *; try nia.
  cbn [mbind outcome_bind fst snd]. eexists _, _. split; [reflexivity|]. split_and!.
  - assert (dram_ps_ (next_dram s') = dram_ps_ s + 800) as Hdd by (cbn; unfold ps_per_dram_; rewrite u64_small; nia).
    split; rewrite ?Hdd; cbn [logic_clk_ logic_ps_ ps_per_logic_ h_clk_ next_dram]; unfold ps_per_dram_; try nia.
    by destruct Hk'.
  - cbn. lia.
  - change (outstanding (next_dram s')) with (outstanding s'). by rewrite Ho1, Ho', app_assoc.
Qed.

(** *** Insertion *)

Definition full (s : HMCMemorySystem) (i : Z) : Prop :=
  exists q, zlookup (src_q (reqs s)) i = Some q /\ u64 (xbar_queue_depth (str_ config)) <= Z.of_nat (length q).

Lemma all_full_rejects b c s : core b c s ->
  (forall i, 0 <= i < num_links (str_ config) -> full s i) <-> h_WillAcceptTransaction config s = false.
Proof using Type.
  clear grow. intros Hk. pose proof (x_src _ _ _ _ (k_reqs _ _ _ Hk)) as Hl. unfold h_WillAcceptTransaction. split.
  - intros Hf. apply not_true_iff_false. intros (q & Hq & Hlt)%existsb_exists. zb.
    apply list_elem_of_In, list_elem_of_lookup in Hq as [i Hi]. rewrite <- zlookup_nat in Hi.
    destruct (Hf (Z.of_nat i)) as (q' & Hq' & Hle); [apply zlookup_Some_range in Hi; lia|]. rewrite Hi in Hq'. simplify_eq. lia.
  - intros Hf i Hi. destruct (zlookup_in_range (src_q (reqs s)) i) as [q Hq]; [lia|]. exists q. split; [done|].
    apply Z.nlt_ge. intros Hlt. apply not_true_iff_false in Hf. apply Hf, existsb_exists. exists q. split; [|by apply Z.ltb_lt].
    apply list_elem_of_In. unfold zlookup in Hq. case_decide; [|done]. by eapply list_elem_of_lookup_2.
Qed.

(** A request of [AddTransaction], and the callback it will make. *)
Definition good_req (req : HMCRequest) (wr : bool) : Prop :=
  req_ok req /\ exists k, resp_kind (q_type req) = Done k /\ (match k.1 with RD_RS => false | _ => true end) = wr.

(** What inserting does when it returns [bl]. *)
Definition inserted (req : HMCRequest) (wr : bool) (bl : bool) (s s' : HMCMemorySystem) : Prop :=
  same_time s s' /\ h_clk_ s' = h_clk_ s /\
  outstanding s' ≡ₚ (if bl then [(mem_operand req, wr)] else []) ++ outstanding s.

Lemma InsertReqToLink_spec b req wr link s :
  core b b s -> good_req req wr -> 1 <= b -> 0 <= link < num_links (str_ config) ->
  exists bl s', InsertReqToLink config req link s = Done (bl, s') /\ core b b s' /\ inserted req wr bl s s' /\
    next_link_ s' = next_link_ s /\ (bl = false -> full s link /\ s' = s) /\ (bl = true -> ~ full s link).
Proof using Type.
  clear grow. intros Hk [Hreq (k & Ek & Hwr)] Hb Hl. pose proof Hk as [Hc Hlen H0 Hq Hp Hrq Hrp Ht Hkeys Hn].
  pose proof Hq as [Hs Hla Hd Hlb Ho]. destruct (zlookup_in_range (src_q (reqs s)) link) as [q Eq]; [lia|].
  destruct (zlookup_in_range (age (reqs s)) link) as [a Ea]; [lia|]. unfold InsertReqToLink.
  rewrite (vget_Some _ _ _ Eq). cbn [mbind outcome_bind]. destruct (_ <? _) eqn:E; zb.
  2: { exists false, s. split_and!; try done. intros _. split; [by exists q|done]. }
  unfold new_response. rewrite Ek, (zlookup_vset _ _ _ _ Ea). cbn [mbind outcome_bind resp_id].
  destruct (mjoin_split (src_q (reqs s)) link q (q ++ [req]) Eq) as (rest & Hj1 & Hj2).
  assert (Hpk : forall ag, packets (mk_xbar (zinsert link (q ++ [req]) (src_q (reqs s))) ag (dst_q (reqs s)) (busy (reqs s)))
    ≡ₚ req :: packets (reqs s)).
  { intros ag. unfold packets. cbn [src_q dst_q]. rewrite Hj1, Hj2. solve_Permutation. }
  eexists true, _. split; [reflexivity|]. split_and!; try done.
  - split; cbn -[packets]; rewrite ?Hpk; try done.
    + split; cbn; rewrite ?length_zinsert; try done. intros s' q' a' Hq' Ha'. destruct (decide (s' = link)) as [->|Hne].
      * rewrite zlookup_zinsert_eq in Hq' by lia. rewrite zlookup_zinsert_eq in Ha' by lia. simplify_eq.
        split; [by destruct q|lia].
      * rewrite zlookup_zinsert_ne in Hq' by done. rewrite zlookup_zinsert_ne in Ha' by done. by apply (Ho s').
    + by constructor.
    + apply Forall_app. split; [done|]. constructor; [|done]. split; [done|]. split; [done|apply Hreq].
    + rewrite map_app, Hkeys. cbn. by rewrite Permutation_app_comm.
  - split_and!; try done. unfold outstanding. cbn [resp_lookup_table_ resps]. rewrite !map_app. cbn [map app snd].
    rewrite <- app_assoc. cbn [app]. rewrite <- Permutation_middle. by rewrite <- Hwr.
  - intros _ (q' & Hq' & Hle). rewrite Eq in Hq'. simplify_eq. lia.
Qed.

Lemma IterateNextLink_spec s :
  hmc_plain -> IterateNextLink config s = Done (set_next_link (Z.rem (next_link_ s + 1) (num_links (str_ config))) s).
Proof using Type.
  clear grow. intros Hp. pose proof (hp_links Hp). unfold IterateNextLink, int_rem. destruct (_ =? 0) eqn:E; zb; [lia|done].
Qed.

Lemma core_next_link b s n : 0 <= n < num_links (str_ config) -> core b b s -> core b b (set_next_link n s).
Proof using Type. clear grow. intros Hn []. by split. Qed.

(** The loop over the links: [k] of them were full. *)
Lemma insert_loop_spec b req wr start fuel : forall k s,
  hmc_plain -> core b b s -> good_req req wr -> 1 <= b -> 0 <= start < num_links (str_ config) ->
  1 <= k <= num_links (str_ config) -> next_link_ s = (start + k) mod num_links (str_ config) ->
  num_links (str_ config) - k <= Z.of_nat fuel ->
  (forall j, 0 <= j < k -> full s ((start + j) mod num_links (str_ config))) ->
  exists bl s', insert_loop config fuel start req s = Done (bl, s') /\ core b b s' /\ inserted req wr bl s s' /\
    bl = h_WillAcceptTransaction config s.
Proof using Type.
  clear grow. set (n := num_links (str_ config)).
  induction fuel as [|fuel IH]; intros k s Hp Hk Hreq Hb Hst Hkn Hnx Hfu Hfull; cbn [insert_loop].
  all: assert (Hend : start = next_link_ s <-> k = n).
  1,3: rewrite Hnx; split; [intros He|intros ->]; [|by rewrite Z.add_mod, Z_mod_same_full, Z.add_0_r, Z.mod_mod, Z.mod_small by lia];
    pose proof (Z.div_mod (start + k) n ltac:(lia)); rewrite <- He in *; assert ((start + k) / n = 1) by nia; nia.
  all: destruct (start =? next_link_ s) eqn:E; zb.
  1,3: apply Hend in E as ->; exists false, s; split_and!; try done; symmetry; apply (all_full_rejects b b s Hk);
    intros i Hi; replace i with ((start + (i - start) mod n) mod n); [apply Hfull, Z.mod_pos_bound; lia|];
    rewrite Z.add_mod_idemp_r by lia; rewrite Z.mod_small; lia.
  - lia.
  - assert (0 <= next_link_ s < n) as Hnr by apply Hk.
    destruct (InsertReqToLink_spec b req wr (next_link_ s) s Hk Hreq Hb Hnr) as (bl & s1 & -> & Hk1 & Hi1 & Hn1 & Hfalse & Htrue).
    cbn [mbind outcome_bind fst snd]. rewrite (IterateNextLink_spec s1 Hp). cbn [mbind outcome_bind].
    rewrite Hn1. fold n. rewrite Z.rem_mod_nonneg by lia. pose proof (Z.mod_pos_bound (next_link_ s + 1) n ltac:(lia)).
    destruct bl.
    + eexists true, _. split; [reflexivity|]. split_and!; [by apply core_next_link|done|].
      symmetry. apply not_false_iff_true. rewrite <- (all_full_rejects b b s Hk). intros Hall. by apply Htrue, Hall.
    + destruct (Hfalse eq_refl) as [Hf ->].
      destruct (IH (k + 1) (set_next_link ((next_link_ s + 1) mod n) s)) as (bl & s' & -> & Hk' & Hi' & Hbl); try done.
      * by apply core_next_link.
      * destruct (decide (k = n)) as [->|]; [exfalso; by apply E, Hend|lia].
      * cbn. rewrite Hnx, Z.add_mod_idemp_l by lia. f_equal. lia.
      * lia.
      * intros j Hj. destruct (decide (j = k)) as [->|]; [|apply Hfull; lia]. rewrite <- Hnx. exact Hf.
      * eexists bl, s'. by split_and!.
Qed.

Lemma InsertHMCReq_spec b req wr s :
  hmc_plain -> core b b s -> good_req req wr -> 1 <= b ->
  exists bl s', InsertHMCReq config req s = Done (bl, s') /\ core b b s' /\ inserted req wr bl s s' /\
    bl = h_WillAcceptTransaction config s.
Proof using Type.
  clear grow. intros Hp Hk Hreq Hb. unfold InsertHMCReq. assert (0 <= next_link_ s < num_links (str_ config)) as Hnr by apply Hk.
  destruct (InsertReqToLink_spec b req wr (next_link_ s) s Hk Hreq Hb Hnr) as (bl & s1 & -> & Hk1 & Hi1 & Hn1 & Hfalse & Htrue).
  cbn [mbind outcome_bind fst snd]. rewrite (IterateNextLink_spec s1 Hp). cbn [mbind outcome_bind].
  rewrite Hn1, Z.rem_mod_nonneg by lia. pose proof (Z.mod_pos_bound (next_link_ s + 1) (num_links (str_ config)) ltac:(lia)).
  destruct bl.
  - eexists true, _. split; [reflexivity|]. split_and!; [by apply core_next_link|done|].
    symmetry. apply not_false_iff_true. rewrite <- (all_full_rejects b b s Hk). intros Hall. by apply Htrue, Hall.
  - destruct (Hfalse eq_refl) as [Hf ->].
    match goal with |- context [insert_loop _ _ _ _ ?s1] =>
      destruct (insert_loop_spec b req wr (next_link_ s) (Z.to_nat (num_links (str_ config))) 1 s1) as (bl & s' & -> & Hk' & Hi' & Hbl)
    end; try done; try lia; [by apply core_next_link| |by exists bl, s'].
    intros j Hj. replace j with 0 by lia. by rewrite Z.add_0_r, (Z.mod_small (next_link_ s)) by lia.
Qed.

Lemma block_type_good wr a :
  hmc_plain -> exists t req, block_type config wr = Done t /\ new_request t a (GetChannel config a) = Done req /\
    good_req req wr /\ mem_operand req = a.
Proof using Type.
  clear grow. intros [Hs _ Hb _]. pose proof (channel_in_range config a Hs) as Hr. unfold block_type, new_request.
  assert (0 <= Z.rem (GetChannel config a) 4 < 4) by (rewrite Z.rem_mod_nonneg by lia; apply Z.mod_pos_bound; lia).
  assert (forall t, (exists k, resp_kind t = Done k /\ (match k.1 with RD_RS => false | _ => true end) = wr) ->
    forall f, req_flits t = Done f -> exists t' req, Done t = Done t' /\
      (f ← req_flits t'; Done (mk_req t' a (Z.rem (GetChannel config a) 4) (GetChannel config a) f (type_is_write t') 0)) = Done req /\
      good_req req wr /\ mem_operand req = a) as Hall.
  { intros t Hk f Hf. eexists t, _. rewrite Hf. split; [done|]. split; [reflexivity|]. split; [|done]. by split. }
  rewrite !elem_of_cons, elem_of_nil in Hb.
  destruct Hb as [Hn|[Hn|[Hn|[Hn|[Hn|[]]]]]]; rewrite Hn; cbn; destruct wr; (eapply Hall; [eexists; by split|reflexivity]).
Qed.

Lemma h_AddTransaction_spec s a wr :
  hmc_plain -> hmc_inv s ->
  exists s', h_AddTransaction config s a wr = Done (h_WillAcceptTransaction config s, s') /\ hmc_inv s' /\
    (logic_clk_ s' = logic_clk_ s /\ h_clk_ s' = h_clk_ s) /\
    outstanding s' ≡ₚ (if h_WillAcceptTransaction config s then [(a, wr)] else []) ++ outstanding s.
Proof using Type.
  clear grow. intros Hp [Hk Hr H0 Hl Hd Ha]. unfold h_AddTransaction.
  destruct (block_type_good wr a Hp) as (t & req & -> & Hreq & Hg & Hm). cbn [mbind outcome_bind]. rewrite Hreq.
  cbn [mbind outcome_bind].
  destruct (InsertHMCReq_spec (logic_clk_ s + 1) req wr s Hp Hk Hg) as (bl & s' & -> & Hk' & ((Hc' & Hps' & Hd' & Hr') & Hh' & Ho') & ->); [lia|].
  exists s'. rewrite Hm in Ho'. split_and!; try done. split; rewrite ?Hc', ?Hps', ?Hd', ?Hr', ?Hh'; done.
Qed.

(** *** Histories of calls *)

(** Transactions that were accepted and callbacks that were made, newest first. *)
Inductive h_calls : list (Z * bool) -> list (Z * bool) -> HMCMemorySystem -> Prop :=
| hc_new s : new_hmc config = Done s -> h_calls [] [] s
| hc_add asked given s a wr r :
    h_calls asked given s -> h_AddTransaction config s a wr = Done r ->
    h_calls ((if r.1 then [(a, wr)] else []) ++ asked) given r.2
| hc_tick asked given s cb s' :
    h_calls asked given s -> logic_clk_ s < horizon -> h_ClockTick config grow s = Done (cb, s') ->
    h_calls asked (reverse cb ++ given) s'.

Lemma new_hmc_spec s : hmc_plain -> new_hmc config = Done s -> hmc_inv s /\ outstanding s = [].
Proof using Type.
  clear grow. intros Hp. unfold new_hmc. destruct (negb _); [done|]. destruct (hp_ratio Hp) as (p & Ep & H1).
  rewrite Ep. cbn [mbind outcome_bind]. intros (l & Hl & H)%bind_Done. pose proof (hp_links Hp).
  destruct (make_controllers_spec config l (hp_system Hp) Hl) as (Hf & Hlen & Ha).
  assert (p <= ps_per_dram_).
  { unfold SetClockRatio in Ep. repeat (destruct (_ =? 0); [done|]). destruct (_ && _); [done|]. injection Ep as <-.
    destruct (_ >? _) eqn:E; zb; lia. }
  destruct (_ <? 0) eqn:E; zb; [lia|]. injection H as <-.
  assert (forall A n m, packets (new_xbar A n m) = []) as Hpk.
  { intros A n m. unfold packets. cbn. by rewrite !length_mjoin_replicate. }
  split; [|unfold outstanding; cbn [resp_lookup_table_ resps]; by rewrite Hpk].
  split; cbn -[packets new_xbar]; try lia.
  split; cbn -[packets new_xbar]; rewrite ?Hpk; try done; try (apply new_xbar_ok; lia); [by rewrite Ha|lia].
Qed.

Lemma h_calls_inv asked given s : hmc_plain -> h_calls asked given s -> hmc_inv s /\ asked ≡ₚ given ++ outstanding s.
Proof using Type.
  intros Hp H. induction H as [s Hn|asked given s a wr r H IH Hr|asked given s cb s' H IH HB Ht].
  - destruct (new_hmc_spec s Hp Hn) as [? ->]. done.
  - destruct IH as [Hi Ha]. destruct (h_AddTransaction_spec s a wr Hp Hi) as (s' & E & Hi' & _ & Ho').
    rewrite E in Hr. injection Hr as <-. split; [done|]. cbn [fst snd]. rewrite Ho', Ha. apply Permutation_app_swap_app.
  - destruct IH as [Hi Ha]. destruct (h_ClockTick_spec s Hp Hi HB) as (cb2 & s2 & E & Hi' & _ & Ho).
    rewrite Ht in E. injection E as <- <-. split; [done|]. rewrite Ha, Ho, reverse_Permutation, <- app_assoc. apply Permutation_app_swap_app.
Qed.

(** C27. Calls of the memory cube return, for the configurations of [hmc_plain] (no self
    refresh, a block size of 0, 32, 64, 128 or 256, at least one link, a clock ratio)
    and as long as fewer than 2^31 - 1000 logic cycles have passed: after any calls, a
    clock cycle ends normally - its logic cycles are few, no packet is taken from an
    empty queue, and every transaction a vault has finished finds its response; and a
    transaction is added exactly when the acceptance test says so. *)
Theorem hmc_calls_return asked given s :
  hmc_plain -> h_calls asked given s -> logic_clk_ s < horizon ->
  (exists r, h_ClockTick config grow s = Done r) /\
  forall a wr, exists s', h_AddTransaction config s a wr = Done (h_WillAcceptTransaction config s, s').
Proof using Type.
  intros Hp H HB. destruct (h_calls_inv asked given s Hp H) as [Hi _]. split.
  - destruct (h_ClockTick_spec s Hp Hi HB) as (cb & s' & E & _). eauto.
  - intros a wr. destruct (h_AddTransaction_spec s a wr Hp Hi) as (s' & E & _). eauto.
Qed.

(** C26. Callbacks of the memory cube: the transactions accepted are those called
    back and those whose response is on its way, each as often as it was
    accepted and of its kind, although a vault reports only an address and
    responses to one address share a key. *)
Theorem hmc_callbacks_conserved asked given s :
  hmc_plain -> h_calls asked given s ->
  asked ≡ₚ given ++ map resp_sig (map snd (resp_lookup_table_ s) ++ packets (resps s)).
Proof using Type. intros Hp H. by destruct (h_calls_inv asked given s Hp H). Qed.

End Correct.

(** ** A cube of 16 vaults *)

(** The cube of [HMC_2GB_4Lx16.ini]. *)
Definition hmc_config : Config :=
  mk_config
    (mk_sys 128 16 32 "rocorabgbach" "PER_BANK" "CLOSE_PAGE" 8 32 true 16 RANK_LEVEL_STAGGERED false 1000 false)
    (mk_str HMC 1 8 8 65536 64 32 16 4 false 4 16 10000 64 6 8)
    (mk_size 1 1 128)
    (mk_map 64 6 0 7 7 4 9 7 15 0 0 7 65535 3)
    (mk_tp 0 17 17 17 17 6 6 0 8 3 3 17 17 4 4 34 17 420 51 6 7 12 8 20 9364 1950 27 1 1 0 330 24 20 10 25 25)
    1250000.

Lemma hmc_config_plain : hmc_plain hmc_config.
Proof.
  split; [|by vm_compute| |by exists 800].
  - split; [|by vm_compute|by vm_compute]. split; [by vm_compute..| |done|done].
    intros f Hf. injection Hf as <-. by vm_compute.
  - rewrite !elem_of_cons. cbn. tauto.
Qed.

Fixpoint hmc_ops (ops : list demo_op) (asked given : list (Z * bool)) (s : HMCMemorySystem)
    : outcome (list (Z * bool) * list (Z * bool) * HMCMemorySystem) :=
  match ops with
  | [] => Done (asked, given, s)
  | DAdd a wr :: ops' =>
      r ← h_AddTransaction hmc_config s a wr;
      hmc_ops ops' ((if (r.1 : bool) then [(a, wr)] else []) ++ asked) given r.2
  | DTick :: ops' =>
      if logic_clk_ s <? horizon then
        r ← h_ClockTick hmc_config demo_grow s; hmc_ops ops' asked (reverse r.1 ++ given) r.2
      else Undef
  | DReturn :: ops' => hmc_ops ops' asked given s
  end.

Lemma hmc_ops_calls ops : forall asked given s asked' given' s',
  h_calls hmc_config demo_grow asked given s -> hmc_ops ops asked given s = Done (asked', given', s') ->
  h_calls hmc_config demo_grow asked' given' s'.
Proof.
  induction ops as [|[a wr| |] ops IH]; intros asked given s asked' given' s' H; cbn [hmc_ops].
  - by intros [= <- <- <-].
  - intros (r & Hr & Hn)%bind_Done. eapply IH; [|done]. by econstructor.
  - destruct (_ <? _) eqn:E; [|done]. zb. intros ([cb s1] & Hr & Hn)%bind_Done. eapply IH; [|done]. by econstructor.
  - by apply IH.
Qed.

Lemma hmc_run ops (f : list (Z * bool) -> list (Z * bool) -> HMCMemorySystem -> bool) :
  (match (s ← new_hmc hmc_config; hmc_ops ops [] [] s) with
   | Done (a, g, s) => f a g s
   | _ => false
   end) = true ->
  exists a g s, h_calls hmc_config demo_grow a g s /\ f a g s = true.
Proof.
  destruct (new_hmc hmc_config) as [s0| | | |] eqn:E0; try done. cbn [mbind outcome_bind].
  destruct (hmc_ops ops [] [] s0) as [[[a g] s]| | | |] eqn:E; try done. intros Hf. exists a, g, s.
  split; [|done]. eapply hmc_ops_calls; [|done]. by constructor.
Qed.

(** A write and two reads of one address, and a read of another vault. *)
Definition hmc_traffic (n : nat) : list demo_op :=
  [DAdd 64 false; DAdd 64 true; DAdd 64 false; DAdd 128 false] ++ replicate n DTick.

Lemma hmc_calls_return_witness : exists s, h_clk_ s = 20 /\
  ((exists r, h_ClockTick hmc_config demo_grow s = Done r) /\
   forall a wr, exists s', h_AddTransaction hmc_config s a wr = Done (h_WillAcceptTransaction hmc_config s, s')).
Proof.
  destruct (hmc_run (hmc_traffic 20) (fun _ _ s => (h_clk_ s =? 20) && (logic_clk_ s <? horizon))) as (a & g & s & H & Hk);
    [vm_compute; reflexivity|].
  apply andb_prop in Hk as [Hk Hh]. zb. exists s. split; [done|].
  apply (hmc_calls_return hmc_config demo_grow a g s).
  - apply hmc_config_plain.
  - exact H.
  - exact Hh.
Defined.

Lemma hmc_callbacks_conserved_witness : exists s,
  [(128, false); (64, false); (64, true); (64, false)] ≡ₚ
  [(64, false); (64, false); (64, true)] ++ map resp_sig (map snd (resp_lookup_table_ s) ++ packets (resps s)).
Proof.
  destruct (hmc_run (hmc_traffic 20) (fun a g _ =>
      bool_decide (a = [(128, false); (64, false); (64, true); (64, false)]) &&
      bool_decide (g = [(64, false); (64, false); (64, true)]))) as (a & g & s & H & Hk);
    [vm_compute; reflexivity|].
  apply andb_prop in Hk as [Ha Hg]. apply bool_decide_eq_true in Ha, Hg. subst a g. exists s.
  apply (hmc_callbacks_conserved hmc_config demo_grow _ _ s).
  - apply hmc_config_plain.
  - exact H.
Defined.

(** ** Where the cube departs from its intent *)

(** Arbitration by age: the comment of [BuildAgeQueue] asks for the oldest
    source first, but an age is compared with a position.  Of two sources, the
    one that has waited 9 cycles is served after the one that has waited 1. *)
Theorem age_queue_not_by_age : BuildAgeQueue 0 [9; 1] = Done [1; 0].
Proof. reflexivity. Qed.

(** A vault reports an address, and the first response of this address is
    sent.  A read, then a write of the same address: the write is acknowledged
    at once, the response of the read is sent for it, and the client is called
    back for a read that the vault has not served. *)
Theorem hmc_read_answered_early : exists s,
  h_calls hmc_config demo_grow [(64, true); (64, false)] [(64, false)] s /\
  map fst (h_ctrls_ s ≫= pending_rd_q_) = [64].
Proof.
  destruct (hmc_run ([DAdd 64 false; DTick; DTick; DAdd 64 true] ++ replicate 15 DTick) (fun a g s =>
      bool_decide (a = [(64, true); (64, false)]) && bool_decide (g = [(64, false)]) &&
      bool_decide (map fst (h_ctrls_ s ≫= pending_rd_q_) = [64]))) as (a & g & s & H & Hk);
    [vm_compute; reflexivity|].
  apply andb_prop in Hk as [Hk Hp]. apply andb_prop in Hk as [Ha Hg]. apply bool_decide_eq_true in Ha, Hg, Hp. subst a g.
  by exists s.
Qed.

End Hmc.
