(* ===== verification/TraceCpu.v ===== *)
(** * DRAMsim3 on its own: the trace-driven and the synthetic front ends

    [runtime/DRAMsim3/include/dramsim3/cpu.h], [src/cpu.cc], the reading of trace
    records in [src/common.cc], and the loop of [src/main.cc].  A CPU drives a
    memory given by the interface of [MemCtrl]; a clock returns the transactions
    it adds.  The generator of random numbers is a sequence, of which a CPU uses
    the next value; text files are lists of characters behind the stream state of
    the standard library. *)

From Stdlib Require Import Ascii String.
From S2P Require Import Prelude Text Channels MemCtrl.
From S2P Require Import DramCommon DramBank ChannelState SimpleStats CommandQueue DramController DramSystem MemOnDram.

Module Cpu.
Import Text MemCtrl Dram OnDram.

#[local] Open Scope char_scope.
#[local] Open Scope Z_scope.

(** ** Input streams

    The state of a [std::ifstream] that its readers see: what is left of the file,
    [eofbit] and [failbit]. *)

Record ifstream := mk_ifstream { rest : list ascii; eofbit : bool; failbit : bool }.

(** The sentry every formatted input starts with: nothing is read from a stream
    that is not good; spaces are skipped, and none may be the end of the file. *)
Definition sentry (st : ifstream) : bool * ifstream :=
  if eofbit st || failbit st then (false, mk_ifstream (rest st) (eofbit st) true)
  else match skipws (rest st) with
       | [] => (false, mk_ifstream [] true true)
       | s => (true, mk_ifstream s false false)
       end.

(** The end of the file is noticed by the field that runs into it. *)
Definition at_end (s : list ascii) : bool := match s with [] => true | _ => false end.

(** [is >> mem_op]. *)
Definition get_word (st : ifstream) (old : list ascii) : list ascii * ifstream :=
  match sentry st with
  | (true, st1) => let r := word (rest st1) in (r.1, mk_ifstream r.2 (at_end r.2) false)
  | (false, st1) => (old, st1)
  end.

(** [is >> v] for an unsigned 64-bit [v] in the given base: no digits give 0 and
    an error, a value that is too large gives the largest one and an error. *)
Definition get_uint (base : Z) (st : ifstream) (old : Z) : Z * ifstream :=
  match sentry st with
  | (true, st1) =>
      let sg := sign (rest st1) in
      let s := hex_prefix base sg.2 in
      let r := digits base 0 s in
      let none := bool_decide (length r.2 = length s) in
      let big := 2 ^ 64 <=? r.1 in
      (if none then 0 else if big then 2 ^ 64 - 1 else if sg.1 then u64 (- r.1) else r.1,
       mk_ifstream r.2 (at_end r.2) (none || big))
  | (false, st1) => (old, st1)
  end.

(** ** [common.cc]: a record of a trace *)

Definition write_types : list (list ascii) :=
  map list_ascii_of_string ["WRITE"; "write"; "P_MEM_WR"; "BOFF"]%string.

(** [operator>>]: the fields that could not be read keep their values. *)
Definition get_transaction (st : ifstream) (t : Transaction) : Transaction * ifstream :=
  let a := get_uint 16 st (t_addr t) in
  let w := get_word a.2 [] in
  let c := get_uint 10 w.2 (added_cycle t) in
  (mk_trans a.1 c.1 (complete_cycle t) (bool_decide (w.1 ∈ write_types)), c.2).

(** ** [cpu.h], [cpu.cc] *)

Section Cpus.
Context {D : Type} `{DramSystem D}.
(** The values the generator returns, in order. *)
Variable gen : nat -> Z.

(** The interface [CPU]: a clock gives the next state and the transactions added
    to the memory, in order. *)
Class CPU (C : Type) := {
  memory_system_ : C -> D;
  ClockTick : C -> C * list (Z * bool)
}.

(** [if (WillAcceptTransaction(..)) AddTransaction(..)]. *)
Definition offer (d : D) (a : Z) (wr : bool) : bool * D :=
  if WillAcceptTransaction d a wr then (true, AddTransaction d a wr) else (false, d).
Definition added (ok : bool) (a : Z) (wr : bool) : list (Z * bool) := if ok then [(a, wr)] else [].

Record RandomCPU := mk_random {
  r_mem : D; r_clk_ : Z; last_addr_ : Z; last_write_ : bool; r_drawn : nat; r_get_next_ : bool
}.

Definition random_tick (c : RandomCPU) : RandomCPU * list (Z * bool) :=
  let d := (MemCtrl.ClockTick (r_mem c)).1 in
  let '(a, w, k) :=
    if r_get_next_ c then (gen (r_drawn c), gen (S (r_drawn c)) mod 3 =? 0, (r_drawn c + 2)%nat)
    else (last_addr_ c, last_write_ c, r_drawn c) in
  let '(ok, d') := offer d a w in
  (mk_random d' (u64 (r_clk_ c + 1)) a w k ok, added ok a w).

Record StreamCPU := mk_stream {
  s_mem : D; s_clk_ : Z; addr_a_ : Z; addr_b_ : Z; addr_c_ : Z; offset_ : Z; s_drawn : nat;
  inserted_a_ : bool; inserted_b_ : bool; inserted_c_ : bool
}.

Definition array_size_ : Z := Z.shiftl 2 20.
Definition stride_ : Z := 64.

(** One of the three accesses to an element. *)
Definition insert_once (inserted : bool) (d : D) (a : Z) (wr : bool) : bool * D * list (Z * bool) :=
  if inserted then (true, d, [])
  else let '(ok, d') := offer d a wr in (ok, d', added ok a wr).

Definition stream_tick (c : StreamCPU) : StreamCPU * list (Z * bool) :=
  let d := (MemCtrl.ClockTick (s_mem c)).1 in
  let '(a, b, e, off, k) :=
    if (offset_ c >=? array_size_) || (s_clk_ c =? 0)
    then (gen (s_drawn c), gen (s_drawn c + 1)%nat, gen (s_drawn c + 2)%nat, 0, (s_drawn c + 3)%nat)
    else (addr_a_ c, addr_b_ c, addr_c_ c, offset_ c, s_drawn c) in
  let '(ia, d1, la) := insert_once (inserted_a_ c) d (u64 (a + off)) false in
  let '(ib, d2, lb) := insert_once (inserted_b_ c) d1 (u64 (b + off)) false in
  let '(ic, d3, lc) := insert_once (inserted_c_ c) d2 (u64 (e + off)) true in
  let all := ia && ib && ic in
  (mk_stream d3 (u64 (s_clk_ c + 1)) a b e (if all then u64 (off + stride_) else off) k
     (if all then false else ia) (if all then false else ib) (if all then false else ic),
   la ++ lb ++ lc).

Record TraceBasedCPU := mk_trace {
  t_mem : D; t_clk_ : Z; trace_file_ : ifstream; trans_ : Transaction; get_next_ : bool
}.

(** [TraceBasedCPU::TraceBasedCPU]: [trans_] is not initialised. *)
Definition new_trace (d : D) (file : option (list ascii)) (t : Transaction) : outcome TraceBasedCPU :=
  match file with
  | Some s => Done (mk_trace d 0 (mk_ifstream s false false) t true)
  | None => AbruptExit
  end.

Definition trace_tick (c : TraceBasedCPU) : TraceBasedCPU * list (Z * bool) :=
  let d := (MemCtrl.ClockTick (t_mem c)).1 in
  let clk := u64 (t_clk_ c + 1) in
  if eofbit (trace_file_ c) then (mk_trace d clk (trace_file_ c) (trans_ c) (get_next_ c), [])
  else
    let '(gn, t, st) :=
      if get_next_ c then let r := get_transaction (trace_file_ c) (trans_ c) in (false, r.1, r.2)
      else (get_next_ c, trans_ c, trace_file_ c) in
    if added_cycle t <=? t_clk_ c then
      let '(ok, d') := offer d (t_addr t) (is_write t) in
      (mk_trace d' clk st t ok, added ok (t_addr t) (is_write t))
    else (mk_trace d clk st t gn, []).

#[export] Instance random_cpu : CPU RandomCPU := { memory_system_ := r_mem; ClockTick := random_tick }.
#[export] Instance stream_cpu : CPU StreamCPU := { memory_system_ := s_mem; ClockTick := stream_tick }.
#[export] Instance trace_cpu : CPU TraceBasedCPU := { memory_system_ := t_mem; ClockTick := trace_tick }.

(** The loop of [main]: after [n] clocks the CPU, the transactions it added and the
    callbacks it got. *)
Fixpoint run {C} `{CPU C} (n : nat) (c : C) : C * list (Z * bool) * list (Z * bool) :=
  match n with
  | O => (c, [], [])
  | S n' =>
      let r := ClockTick c in
      let '(c', l, cb) := run n' r.1 in
      (c', r.2 ++ l, (MemCtrl.ClockTick (memory_system_ c)).2 ++ cb)
  end.
Definition run_added {C} `{CPU C} (n : nat) (c : C) : list (Z * bool) := (run n c).1.2.
Definition run_callbacks {C} `{CPU C} (n : nat) (c : C) : list (Z * bool) := (run n c).2.
Definition run_cpu {C} `{CPU C} (n : nat) (c : C) : C := (run n c).1.1.

Lemma run_cpu_S {C} `{CPU C} n c : run_cpu (S n) c = run_cpu n (ClockTick c).1.
Proof. unfold run_cpu. cbn [run]. by destruct (run n (ClockTick c).1) as [[? ?] ?]. Qed.
Lemma run_added_S {C} `{CPU C} n c : run_added (S n) c = (ClockTick c).2 ++ run_added n (ClockTick c).1.
Proof. unfold run_added. cbn [run]. by destruct (run n (ClockTick c).1) as [[? ?] ?]. Qed.
Lemma run_callbacks_S {C} `{CPU C} n c :
  run_callbacks (S n) c = (MemCtrl.ClockTick (memory_system_ c)).2 ++ run_callbacks n (ClockTick c).1.
Proof. unfold run_callbacks. cbn [run]. by destruct (run n (ClockTick c).1) as [[? ?] ?]. Qed.
Lemma run_cpu_end {C} `{CPU C} n : forall c, run_cpu (S n) c = (ClockTick (run_cpu n c)).1.
Proof. induction n as [|n IH]; intros c; [done|]. rewrite run_cpu_S, IH. by rewrite <- run_cpu_S. Qed.
Lemma run_added_end {C} `{CPU C} n : forall c,
  run_added (S n) c = run_added n c ++ (ClockTick (run_cpu n c)).2.
Proof.
  induction n as [|n IH]; intros c; [rewrite run_added_S; by rewrite app_nil_r|].
  rewrite run_added_S, IH, (run_added_S n c), run_cpu_S. by rewrite app_assoc.
Qed.

Lemma run_add {C} `{CPU C} i j : forall c : C,
  run_cpu (i + j) c = run_cpu j (run_cpu i c) /\ run_added (i + j) c = run_added i c ++ run_added j (run_cpu i c).
Proof.
  induction i as [|i IH]; intros c; [done|]. cbn [Nat.add]. rewrite !run_cpu_S, !run_added_S.
  destruct (IH (ClockTick c).1) as [-> ->]. by rewrite app_assoc.
Qed.

(** An invariant of the CPU and of what it has added so far. *)
Lemma cpu_run_inv {C} `{CPU C} (I : nat -> C -> list (Z * bool) -> Prop) c0 :
  I O c0 [] -> (forall n c l, I n c l -> I (S n) (ClockTick c).1 (l ++ (ClockTick c).2)) ->
  forall n, I n (run_cpu n c0) (run_added n c0).
Proof.
  intros Hi Hs n. induction n as [|n IH]; [done|]. rewrite run_cpu_end, run_added_end. by apply Hs.
Qed.

(** ** What a CPU promises to the memory

    In a clock it adds transactions one by one, each after the memory said it
    would accept it. *)
Inductive adds : D -> list (Z * bool) -> D -> Prop :=
| adds_nil d : adds d [] d
| adds_cons d a wr l d' :
    WillAcceptTransaction d a wr = true -> adds (AddTransaction d a wr) l d' -> adds d ((a, wr) :: l) d'.

Class CpuLaws (C : Type) `{CPU C} :=
  cpu_adds c : adds (MemCtrl.ClockTick (memory_system_ c)).1 (ClockTick c).2 (memory_system_ (ClockTick c).1).

Lemma adds_app d l1 d1 l2 d2 : adds d l1 d1 -> adds d1 l2 d2 -> adds d (l1 ++ l2) d2.
Proof. induction 1; [done|]. intros. cbn. constructor; auto. Qed.

Lemma offer_adds d a wr : let r := offer d a wr in adds d (added r.1 a wr) r.2.
Proof. unfold offer. destruct (WillAcceptTransaction d a wr) eqn:E; cbn; repeat constructor; done. Qed.

Lemma insert_once_adds b d a wr : let r := insert_once b d a wr in adds d r.2 r.1.2.
Proof.
  unfold insert_once. destruct b; [constructor|]. pose proof (offer_adds d a wr) as Ho.
  by destruct (offer d a wr).
Qed.

#[export] Instance random_laws : CpuLaws RandomCPU.
Proof.
  intros c. cbn. unfold random_tick. destruct (if r_get_next_ c then _ else _) as [[a w] k].
  pose proof (offer_adds (MemCtrl.ClockTick (r_mem c)).1 a w) as Ho. by destruct (offer _ a w).
Qed.

#[export] Instance stream_laws : CpuLaws StreamCPU.
Proof.
  intros c. cbn. unfold stream_tick. destruct (if _ || _ then _ else _) as [[[[a b] e] off] k].
  set (d := (MemCtrl.ClockTick (s_mem c)).1).
  pose proof (insert_once_adds (inserted_a_ c) d (u64 (a + off)) false) as Ha.
  destruct (insert_once (inserted_a_ c) _ _ _) as [[ia d1] la].
  pose proof (insert_once_adds (inserted_b_ c) d1 (u64 (b + off)) false) as Hb.
  destruct (insert_once (inserted_b_ c) _ _ _) as [[ib d2] lb].
  pose proof (insert_once_adds (inserted_c_ c) d2 (u64 (e + off)) true) as Hc.
  destruct (insert_once (inserted_c_ c) _ _ _) as [[ic d3] lc]. cbn in *. eauto using adds_app.
Qed.

#[export] Instance trace_laws : CpuLaws TraceBasedCPU.
Proof.
  intros c. cbn. unfold trace_tick. destruct (eofbit _); [constructor|].
  destruct (if get_next_ c then _ else _) as [[gn t] st]. destruct (_ <=? _); [|constructor].
  pose proof (offer_adds (MemCtrl.ClockTick (t_mem c)).1 (t_addr t) (is_write t)) as Ho.
  by destruct (offer _ _ _).
Qed.

End Cpus.

Arguments RandomCPU D : clear implicits.
Arguments StreamCPU D : clear implicits.
Arguments TraceBasedCPU D : clear implicits.

(** ** Every CPU over a memory that keeps its promises *)

Section Traffic.
Context {D : Type} `{DramLaws D} {C : Type} `{!CPU C} `{!CpuLaws C}.

Lemma adds_owed n d l d' : adds d l d' -> ok n d -> ok n d' /\ owed d' ≡ₚ l ++ owed d.
Proof.
  induction 1 as [d|d a wr l d' Ha _ IH]; [done|]. intros Hok. destruct (law_add n d a wr Hok Ha) as [Hok' Hp].
  destruct (IH Hok') as [? Ho]. split; [done|]. rewrite Ho, Hp. cbn. by rewrite Permutation_middle.
Qed.

Lemma run_traffic n : forall m c, ok (n + m) (memory_system_ c) ->
  ok m (memory_system_ (run_cpu n c)) /\
  owed (memory_system_ c) ++ run_added n c ≡ₚ run_callbacks n c ++ owed (memory_system_ (run_cpu n c)).
Proof using All.
  induction n as [|n IH]; intros m c Hok; [split; [done|]; cbn; by rewrite app_nil_r|].
  destruct (law_clock (n + m) _ Hok) as [Hok1 Hp]. destruct (adds_owed _ _ _ _ (cpu_adds c) Hok1) as [Hok2 Ho].
  destruct (IH m _ Hok2) as [Hok3 Hr]. rewrite run_cpu_S, run_added_S, run_callbacks_S. split; [done|].
  rewrite Hp, <- !app_assoc, <- Hr, Ho. apply Permutation_app_head. rewrite app_assoc. apply Permutation_app_tail.
  apply Permutation_app_comm.
Qed.

(** Whatever the front end, the trace-driven, the random or the streaming one,
    the memory simulator answers what it was asked: the transactions a CPU has
    added are, up to order, those it got a callback for and those still owed. *)
Theorem cpu_traffic_conserved n c :
  ok n (memory_system_ c) -> owed (memory_system_ c) = [] ->
  run_added n c ≡ₚ run_callbacks n c ++ owed (memory_system_ (run_cpu n c)).
Proof using All.
  intros Hok Ho. destruct (run_traffic n 0 c) as [_ Hr]; [by rewrite Nat.add_0_r|]. by rewrite Ho in Hr.
Qed.

End Traffic.

(** ** The synthetic front ends *)

Section Synthetic.
Context {D : Type} `{DramSystem D}.
Variable gen : nat -> Z.

Definition random_request (k : nat) : Z * bool := (gen (2 * k), gen (2 * k + 1)%nat mod 3 =? 0).

Definition new_random (d : D) (a : Z) : RandomCPU D := mk_random d 0 a false 0 true.

Definition random_inv (n : nat) (c : RandomCPU D) (l : list (Z * bool)) : Prop :=
  l = map random_request (seq 0 (length l)) /\
  if r_get_next_ c then r_drawn c = (2 * length l)%nat
  else r_drawn c = (2 * S (length l))%nat /\ (last_addr_ c, last_write_ c) = random_request (length l).

Lemma random_inv_step n c l :
  random_inv n c l -> random_inv (S n) (random_tick gen c).1 (l ++ (random_tick gen c).2).
Proof.
  intros [Hl Hg]. unfold random_tick.
  destruct (if r_get_next_ c then _ else _) as [[a w] k] eqn:E.
  assert (k = (2 * S (length l))%nat /\ (a, w) = random_request (length l)) as [Hk Hr].
  { destruct (r_get_next_ c); [rewrite Hg in E|destruct Hg as [Hg1 Hg2]; rewrite Hg1 in E]; injection E as <- <- <-.
    - split; [lia|]. unfold random_request. by rewrite <- Nat.add_1_r.
    - by rewrite <- Hg2. }
  unfold offer. destruct (WillAcceptTransaction _ a w); cbn [fst snd added].
  - split; cbn [r_get_next_ r_drawn last_addr_ last_write_]; rewrite length_app; cbn [length].
    + rewrite seq_app, map_app, <- Hl, Hr. done.
    + rewrite Hk. lia.
  - rewrite app_nil_r. by split.
Qed.

(** The random front end loses and repeats nothing: the [k]-th transaction it
    adds is made of the values [2k] and [2k + 1] of its generator, however long
    the memory refused it, and one in three values makes a write. *)
Theorem random_requests_in_order n d a :
  let l := run_added n (C := RandomCPU D) (H0 := random_cpu gen) (new_random d a) in
  l = map random_request (seq 0 (length l)).
Proof.
  cbn. eapply (cpu_run_inv (H0 := random_cpu gen) random_inv); [by split|apply random_inv_step].
Qed.

(** The three accesses to an element of the arrays. *)
Definition elements : nat := Z.to_nat (array_size_ / stride_).
Definition element (i : nat) : list (Z * bool) :=
  let j := (3 * (i / elements))%nat in
  let off := stride_ * Z.of_nat (i mod elements) in
  [(u64 (gen j + off), false); (u64 (gen (j + 1)%nat + off), false); (u64 (gen (j + 2)%nat + off), true)].

Definition new_stream (d : D) (a b c : Z) : StreamCPU D := mk_stream d 0 a b c 0 0 false false false.

Definition left_over (inserted : bool) (a : Z) (wr : bool) : list (Z * bool) := if inserted then [] else [(a, wr)].

Lemma insert_once_left f (d : D) a wr f' d' l :
  insert_once f d a wr = (f', d', l) -> left_over f a wr = l ++ left_over f' a wr.
Proof.
  unfold insert_once, offer. destruct f; [by intros [= <- <- <-]|].
  destruct (WillAcceptTransaction d a wr); by intros [= <- <- <-].
Qed.

(** Element [i] is under way: its arrays are drawn, or are to be drawn next. *)
Definition stream_at (n i : nat) (c : StreamCPU D) : Prop :=
  let j := (3 * (i / elements))%nat in
  s_clk_ c = Z.of_nat n /\
  if (offset_ c >=? array_size_) || (s_clk_ c =? 0)
  then (i mod elements = 0)%nat /\ s_drawn c = j /\
       inserted_a_ c = false /\ inserted_b_ c = false /\ inserted_c_ c = false
  else offset_ c = stride_ * Z.of_nat (i mod elements) /\ s_drawn c = (j + 3)%nat /\
       addr_a_ c = gen j /\ addr_b_ c = gen (j + 1)%nat /\ addr_c_ c = gen (j + 2)%nat.

Definition to_insert (i : nat) (ia ib ic : bool) : list (Z * bool) :=
  let j := (3 * (i / elements))%nat in
  let off := stride_ * Z.of_nat (i mod elements) in
  left_over ia (u64 (gen j + off)) false ++ left_over ib (u64 (gen (j + 1)%nat + off)) false ++
  left_over ic (u64 (gen (j + 2)%nat + off)) true.

(** What was added: whole elements in order, and a part of the one under way. *)
Definition streamed (blocks : list (list (Z * bool))) (part l : list (Z * bool)) : Prop :=
  l = concat blocks ++ part /\ forall k b, blocks !! k = Some b -> b ≡ₚ element k.

Definition stream_inv (n : nat) (c : StreamCPU D) (l : list (Z * bool)) : Prop :=
  Z.of_nat n < 2 ^ 64 -> exists blocks part, streamed blocks part l /\ stream_at n (length blocks) c /\
    part ++ to_insert (length blocks) (inserted_a_ c) (inserted_b_ c) (inserted_c_ c) ≡ₚ element (length blocks).

Lemma elements_value : elements = Z.to_nat 32768.
Proof. done. Qed.
#[local] Opaque elements.

Lemma to_insert_all i : to_insert i false false false = element i.
Proof. reflexivity. Qed.

(** The state of the next element. *)
Lemma stream_next n i d a b e k :
  Z.of_nat (S n) < 2 ^ 64 -> k = (3 * (i / elements) + 3)%nat ->
  a = gen (3 * (i / elements)) -> b = gen (3 * (i / elements) + 1)%nat -> e = gen (3 * (i / elements) + 2)%nat ->
  stream_at (S n) (S i)
    (mk_stream d (u64 (Z.of_nat n + 1)) a b e (u64 (stride_ * Z.of_nat (i mod elements) + stride_)) k false false false).
Proof.
  intros Hn -> -> -> ->. unfold stream_at. cbn [s_clk_ offset_ s_drawn inserted_a_ inserted_b_ inserted_c_ addr_a_ addr_b_ addr_c_].
  unfold stride_, array_size_. change (Z.shiftl 2 20) with 2097152.
  assert (elements <> 0)%nat as He by (rewrite elements_value; lia).
  pose proof (Nat.mod_upper_bound i elements He) as Hm. pose proof (Nat.div_mod i elements He) as Hd.
  rewrite elements_value in *. set (E := Z.to_nat 32768) in *. assert (Z.of_nat E = 32768) as HE by (unfold E; lia).
  rewrite (u64_small (64 * _ + 64)) by lia. rewrite u64_small by lia. split; [lia|].
  rewrite (proj2 (Z.eqb_neq _ 0)) by lia. rewrite orb_false_r.
  destruct (decide (S (i mod E) = E)) as [Hl|Hl].
  - replace (_ >=? _) with true by (symmetry; apply Z.geb_le; lia).
    assert (S i = E * S (i / E))%nat as Hs by (rewrite Nat.mul_succ_r; lia).
    rewrite Hs, (Nat.mul_comm E), Nat.Div0.mod_mul, Nat.div_mul by done. split_and!; lia || done.
  - replace (_ >=? _) with false by (symmetry; rewrite Z.geb_leb; apply Z.leb_gt; lia).
    assert (S i / E = i / E)%nat as -> by (symmetry; apply (Nat.div_unique _ _ _ (S (i mod E))); lia).
    assert (S i mod E = S (i mod E))%nat as -> by (symmetry; apply (Nat.mod_unique _ _ (i / E)); lia).
    split_and!; lia || done.
Qed.

(** The arrays and the offset a clock works with. *)
Lemma stream_draw n i c :
  stream_at n i c ->
  (if (offset_ c >=? array_size_) || (s_clk_ c =? 0)
   then (gen (s_drawn c), gen (s_drawn c + 1)%nat, gen (s_drawn c + 2)%nat, 0, (s_drawn c + 3)%nat)
   else (addr_a_ c, addr_b_ c, addr_c_ c, offset_ c, s_drawn c)) =
  (gen (3 * (i / elements)), gen (3 * (i / elements) + 1)%nat, gen (3 * (i / elements) + 2)%nat,
   stride_ * Z.of_nat (i mod elements), (3 * (i / elements) + 3)%nat).
Proof.
  intros [_ Hs]. destruct (_ || _).
  - destruct Hs as (-> & -> & _). done.
  - destruct Hs as (-> & -> & -> & -> & ->). done.
Qed.

(** The element under way stays the same. *)
Lemma stream_same n i d ia ib ic :
  Z.of_nat (S n) < 2 ^ 64 ->
  stream_at (S n) i
    (mk_stream d (u64 (Z.of_nat n + 1)) (gen (3 * (i / elements))) (gen (3 * (i / elements) + 1)%nat)
       (gen (3 * (i / elements) + 2)%nat) (stride_ * Z.of_nat (i mod elements)) (3 * (i / elements) + 3) ia ib ic).
Proof.
  intros Hn. unfold stream_at. cbn [s_clk_ offset_ s_drawn inserted_a_ inserted_b_ inserted_c_ addr_a_ addr_b_ addr_c_].
  assert (elements <> 0)%nat as He by (rewrite elements_value; lia).
  pose proof (Nat.mod_upper_bound i elements He) as Hm. rewrite u64_small by lia. split; [lia|].
  replace (_ >=? _) with false; [|symmetry; rewrite Z.geb_leb; apply Z.leb_gt; rewrite elements_value in *;
    unfold stride_, array_size_; change (Z.shiftl 2 20) with 2097152; lia].
  rewrite (proj2 (Z.eqb_neq _ 0)) by lia. done.
Qed.

Lemma streamed_snoc blocks part l b :
  streamed blocks part l -> part ++ b ≡ₚ element (length blocks) ->
  streamed (blocks ++ [part ++ b]) [] (l ++ b).
Proof.
  intros [-> Hb] Hp. split; [by rewrite concat_app, <- !app_assoc, app_nil_r; cbn; rewrite app_nil_r|].
  intros k x [Hk|[Hge Hk]]%lookup_app_Some; [by apply Hb|].
  apply list_lookup_singleton_Some in Hk as [Hk <-]. by replace k with (length blocks) by lia.
Qed.

Lemma weave_perm {A} (p a b c x y z : list A) :
  (p ++ a ++ b ++ c) ++ x ++ y ++ z ≡ₚ p ++ (a ++ x) ++ (b ++ y) ++ c ++ z.
Proof.
  clear gen. rewrite <- !app_assoc. do 2 apply Permutation_app_head.
  rewrite (Permutation_app_swap_app x b). apply Permutation_app_head.
  rewrite (Permutation_app_swap_app c x). apply Permutation_app_head.
  apply Permutation_app_swap_app.
Qed.

Lemma stream_inv_step n c l :
  stream_inv n c l -> stream_inv (S n) (stream_tick gen c).1 (l ++ (stream_tick gen c).2).
Proof.
  intros Hi Hn. destruct Hi as (blocks & part & Hs & Hat & Hp); [lia|].
  pose proof Hat as [Hclk _]. unfold stream_tick. rewrite (stream_draw n _ c Hat), Hclk. unfold to_insert in Hp.
  set (i := length blocks) in *.
  destruct (insert_once (inserted_a_ c) _ _ _) as [[ia d1] la] eqn:Ea. apply insert_once_left in Ea.
  destruct (insert_once (inserted_b_ c) _ _ _) as [[ib d2] lb] eqn:Eb. apply insert_once_left in Eb.
  destruct (insert_once (inserted_c_ c) _ _ _) as [[ic d3] lc] eqn:Ec. apply insert_once_left in Ec.
  rewrite Ea, Eb, Ec in Hp.
  assert ((part ++ la ++ lb ++ lc) ++ to_insert i ia ib ic ≡ₚ element i) as Hq.
  { rewrite <- Hp. apply weave_perm. }
  cbn [fst snd]. destruct (ia && ib && ic) eqn:Eall.
  - apply andb_prop in Eall as [[-> ->]%andb_prop ->].
    change (to_insert i true true true) with (@nil (Z * bool)) in Hq. rewrite app_nil_r in Hq.
    exists (blocks ++ [part ++ la ++ lb ++ lc]), []. split; [by apply streamed_snoc|].
    rewrite length_app, Nat.add_1_r. fold i. rewrite to_insert_all. split; [by apply stream_next|reflexivity].
  - exists blocks, (part ++ la ++ lb ++ lc). fold i. destruct Hs as [-> Hb]. split; [split; [by rewrite <- app_assoc|done]|].
    split; [by apply stream_same|exact Hq].
Qed.

(** The streaming front end touches every element of its arrays once and in
    order: what it adds is, element after element, the reads of the first two
    arrays and the write of the third, in the order the memory took them; no
    access to an element comes before the previous element is complete. *)
Theorem stream_elements_in_order n d a b c :
  Z.of_nat n < 2 ^ 64 ->
  exists blocks part,
    run_added n (C := StreamCPU D) (H0 := stream_cpu gen) (new_stream d a b c) = concat blocks ++ part /\
    (forall k x, blocks !! k = Some x -> x ≡ₚ element k) /\ part ⊆+ element (length blocks).
Proof.
  intros Hn. destruct (cpu_run_inv (H0 := stream_cpu gen) stream_inv (new_stream d a b c)) with (n := n)
    as (blocks & part & [Hl Hb] & _ & Hp); [|apply stream_inv_step|done|].
  - intros _. exists [], []. by repeat split.
  - exists blocks, part. split_and!; [done..|]. rewrite <- Hp. by apply submseteq_inserts_r.
Qed.

End Synthetic.

(** ** The text of a trace

    As the scripts of the simulator write it: the address in hexadecimal, the
    kind of access, the cycle. *)

Definition operation (wr : bool) : list ascii := list_ascii_of_string (if wr then "WRITE" else "READ")%string.

Definition show_transaction (t : Transaction) : list ascii :=
  ["0"; "x"] ++ show 64 16 (t_addr t) ++ [" "] ++ operation (is_write t) ++ [" "] ++ show 64 10 (added_cycle t).

Definition newline : ascii := ascii_of_nat 10.
Definition line (t : Transaction) : list ascii := show_transaction t ++ [newline].
Definition text (ts : list Transaction) : list ascii := concat (map line ts).

Lemma sentry_word (pre : list ascii) c s :
  forallb isspace pre = true -> isspace c = false ->
  sentry (mk_ifstream (pre ++ c :: s) false false) = (true, mk_ifstream (c :: s) false false).
Proof.
  intros Hp Hc. unfold sentry. cbn [eofbit failbit rest orb].
  assert (skipws (pre ++ c :: s) = c :: s) as ->; [|done].
  induction pre as [|x pre IH]; cbn in *; [by rewrite Hc|]. apply andb_prop in Hp as [-> Hp]. auto.
Qed.

Lemma get_hex pre v s old : forallb isspace pre = true -> 0 <= v < 2 ^ 64 -> ends s ->
  get_uint 16 (mk_ifstream (pre ++ ["0"; "x"] ++ show 64 16 v ++ s) false false) old = (v, mk_ifstream s (at_end s) false).
Proof.
  intros Hp Hv Hs. unfold get_uint. cbn [app]. rewrite sentry_word by done. cbn [rest sign snd fst hex_prefix].
  change (16 =? 16) with true. cbn iota.
  destruct (field_value 16 v s) as (E & E1 & E2); [lia|done..|]. rewrite E1, E2, E. done.
Qed.

Lemma get_dec pre v s old : forallb isspace pre = true -> 0 <= v < 2 ^ 64 -> ends s ->
  get_uint 10 (mk_ifstream (pre ++ show 64 10 v ++ s) false false) old = (v, mk_ifstream s (at_end s) false).
Proof.
  intros Hp Hv Hs. destruct (field_value 10 v s) as (E & E1 & E2); [lia|done..|]. unfold get_uint.
  destruct (show_head 10 64 ltac:(lia) v) as (d & u & Eu & Hd); [lia|done|].
  destruct (digit_char_ok d Hd) as (_ & Hsp & Hm & Hq).
  rewrite Eu in E, E1, E2 |- *. cbn [app] in *. rewrite sentry_word by done. cbn [rest]. rewrite sign_digit by done.
  cbn [fst snd]. rewrite hex_prefix_dec, E1, E2, E. done.
Qed.

Lemma sentry_space c s : isspace c = false ->
  sentry (mk_ifstream (" " :: c :: s) false false) = (true, mk_ifstream (c :: s) false false).
Proof. by apply (sentry_word [" "]). Qed.

Lemma get_operation wr s st : ends s ->
  get_word (mk_ifstream ([" "] ++ operation wr ++ s) false false) st = (operation wr, mk_ifstream s (at_end s) false).
Proof.
  intros Hs. unfold get_word. destruct wr; (change (operation _) with (list_ascii_of_string "WRITE") ||
    change (operation _) with (list_ascii_of_string "READ")); cbn [list_ascii_of_string app];
  (rewrite sentry_space by done); cbn [rest].
  - change ("W" :: "R" :: "I" :: "T" :: "E" :: s) with (operation true ++ s). by rewrite word_app.
  - change ("R" :: "E" :: "A" :: "D" :: s) with (operation false ++ s). by rewrite word_app.
Qed.

Definition in_range (t : Transaction) : Prop := 0 <= t_addr t < 2 ^ 64 /\ 0 <= added_cycle t < 2 ^ 64.

(** What a record is read as; the completion cycle is not part of it. *)
Definition read_as (t old : Transaction) : Transaction :=
  mk_trans (t_addr t) (added_cycle t) (complete_cycle old) (is_write t).

Lemma get_shown pre t s old : forallb isspace pre = true -> in_range t -> ends s ->
  get_transaction (mk_ifstream (pre ++ show_transaction t ++ s) false false) old =
  (read_as t old, mk_ifstream s (at_end s) false).
Proof.
  intros Hp [Ha Hc] Hs. unfold get_transaction, show_transaction. rewrite <- !app_assoc.
  rewrite get_hex by done. cbn [fst snd]. change (at_end ([" "] ++ ?x)) with false.
  rewrite get_operation by done. cbn [fst snd]. change (at_end ([" "] ++ ?x)) with false.
  rewrite (get_dec [" "]) by done. unfold read_as. f_equal. f_equal. by destruct (is_write t).
Qed.

(** Reading back a trace record written as the simulator's scripts write it
    gives its address, kind and cycle, whatever was held before; nothing after it
    is consumed, and the end of the file is noticed if the record ends there. *)
Theorem trace_record_roundtrip t s old : in_range t -> ends s ->
  get_transaction (mk_ifstream (show_transaction t ++ s) false false) old =
  (mk_trans (t_addr t) (added_cycle t) (complete_cycle old) (is_write t), mk_ifstream s (at_end s) false).
Proof. apply (get_shown []). done. Qed.

(** ** Replaying a trace *)

Section Trace.
Context {D : Type} `{DramSystem D}.
Variable ts : list Transaction.
Hypothesis Hts : Forall in_range ts.
Implicit Types c : TraceBasedCPU D.

Definition pair_of (t : Transaction) : Z * bool := (t_addr t, is_write t).

(** The text left after [k] records; each record but the first comes after the
    newline of its predecessor. *)
Definition remaining (k : nat) : list ascii :=
  match k with O => text ts | S _ => newline :: text (drop k ts) end.

(** The next record to read is [k]. *)
Definition ready (k : nat) c : Prop :=
  get_next_ c = true /\ trace_file_ c = mk_ifstream (remaining k) false false /\
  forall t, last (take k ts) = Some t -> exists o, trans_ c = read_as t o.

(** Record [k] is read and waits. *)
Definition held (k : nat) c : Prop :=
  get_next_ c = false /\ trace_file_ c = mk_ifstream (remaining (S k)) false false /\
  exists t o, ts !! k = Some t /\ trans_ c = read_as t o.

Lemma read_next k t o : ts !! k = Some t ->
  get_transaction (mk_ifstream (remaining k) false false) o = (read_as t o, mk_ifstream (remaining (S k)) false false).
Proof using Hts.
  intros Hk. assert (in_range t) by (eapply Forall_lookup_1; eauto).
  assert (text (drop k ts) = show_transaction t ++ newline :: text (drop (S k) ts)) as E.
  { rewrite (drop_S ts t k Hk). unfold text. cbn. unfold line. by rewrite <- app_assoc. }
  destruct k as [|k]; unfold remaining.
  - rewrite drop_0 in E. rewrite E. by apply (get_shown []).
  - rewrite E. by apply (get_shown [newline]).
Qed.

(** A clock that reads a record goes on as if it had been waiting. *)
Lemma tick_ready k c t : ready k c -> ts !! k = Some t ->
  exists c', held k c' /\ t_mem c' = t_mem c /\ t_clk_ c' = t_clk_ c /\ trace_tick c' = trace_tick c.
Proof using Hts.
  intros (Hg & Hf & _) Hk.
  exists (mk_trace (t_mem c) (t_clk_ c) (mk_ifstream (remaining (S k)) false false) (read_as t (trans_ c)) false).
  split; [split_and!; [done..|]; by exists t, (trans_ c)|]. split_and!; [done..|].
  unfold trace_tick. rewrite Hg, Hf. cbn [eofbit get_next_ trace_file_ trans_ t_mem t_clk_]. by rewrite (read_next k t).
Qed.

Lemma tick_held k c t : held k c -> ts !! k = Some t ->
  let d := (MemCtrl.ClockTick (t_mem c)).1 in
  if (added_cycle t <=? t_clk_ c) && WillAcceptTransaction d (t_addr t) (is_write t)
  then (trace_tick c).2 = [pair_of t] /\ ready (S k) (trace_tick c).1 /\
       t_mem (trace_tick c).1 = AddTransaction d (t_addr t) (is_write t)
  else (trace_tick c).2 = [] /\ held k (trace_tick c).1 /\ t_mem (trace_tick c).1 = d.
Proof.
  intros (Hg & Hf & t' & o & Hk' & Ht) Hk. rewrite Hk in Hk'. injection Hk' as <-. cbn zeta.
  unfold trace_tick. rewrite Hf, Hg, Ht. cbn [eofbit added_cycle read_as t_addr is_write].
  destruct (added_cycle t <=? t_clk_ c); cbn [andb fst snd];
    [|unfold held; split_and!; try done; by exists t, o].
  unfold offer. destruct (WillAcceptTransaction _ _ _); cbn [fst snd added].
  - unfold ready. split_and!; try done. intros u Hu. exists o. cbn. rewrite (take_S_r ts k t Hk), last_snoc in Hu. by injection Hu as <-.
  - unfold held. split_and!; try done. by exists t, o.
Qed.

Lemma tick_over c : eofbit (trace_file_ c) = true ->
  (trace_tick c).2 = [] /\ eofbit (trace_file_ (trace_tick c).1) = true.
Proof. intros He. unfold trace_tick. by rewrite He. Qed.

Lemma tick_clk c : t_clk_ (trace_tick c).1 = u64 (t_clk_ c + 1).
Proof.
  unfold trace_tick. destruct (eofbit _); [done|]. destruct (if get_next_ c then _ else _) as [[gn t] st].
  destruct (_ <=? _); [|done]. by destruct (offer _ _ _).
Qed.

(** An attempt to read after the last record keeps the address. *)
Lemma read_past s o : skipws s = [] ->
  get_transaction (mk_ifstream s false false) o =
  (mk_trans (t_addr o) (added_cycle o) (complete_cycle o) false, mk_ifstream [] true true).
Proof. intros Hs. unfold get_transaction, get_uint, get_word, sentry. cbn [eofbit failbit rest orb]. by rewrite Hs. Qed.

Definition extra (x : list (Z * bool)) : Prop :=
  x = [] \/ exists a, x = [(a, false)] /\ forall t, last ts = Some t -> a = t_addr t.

Lemma remaining_end : skipws (remaining (length ts)) = [].
Proof. clear Hts. unfold remaining. destruct ts; [done|]. by rewrite drop_all. Qed.

Lemma tick_end c : ready (length ts) c ->
  eofbit (trace_file_ (trace_tick c).1) = true /\ extra (trace_tick c).2.
Proof.
  intros (Hg & Hf & Hl). rewrite firstn_all in Hl. unfold trace_tick. rewrite Hf, Hg. cbn [eofbit].
  rewrite read_past by apply remaining_end.
  cbn [fst snd added_cycle t_addr is_write]. destruct (_ <=? _); [|split; [done|by left]].
  unfold offer. destruct (WillAcceptTransaction _ _ _); (split; [done|]); [right|by left].
  exists (t_addr (trans_ c)). split; [done|]. intros t Ht. by destruct (Hl t Ht) as [o ->].
Qed.

(** Where a replay is: before record [k], or at the end. *)
Inductive replay (n : nat) c (l : list (Z * bool)) : Prop :=
| replaying k : ready k c \/ held k c -> (k <= length ts)%nat -> l = map pair_of (take k ts) -> replay n c l
| replayed x : eofbit (trace_file_ c) = true -> l = map pair_of ts ++ x -> extra x -> replay n c l.

Definition trace_inv (n : nat) c (l : list (Z * bool)) : Prop :=
  Z.of_nat n < 2 ^ 64 -> t_clk_ c = Z.of_nat n /\ replay n c l /\
  forall k t, ts !! k = Some t -> (k < length l)%nat -> added_cycle t < Z.of_nat n.

Lemma held_bound k c : held k c -> (k < length ts)%nat.
Proof. intros (_ & _ & t & _ & Hk & _). by apply lookup_lt_Some in Hk. Qed.

(** One clock with record [k] next. *)
Lemma replay_tick k c t : ready k c \/ held k c -> ts !! k = Some t ->
  (trace_tick c).2 = [] /\ held k (trace_tick c).1 \/
  (trace_tick c).2 = [pair_of t] /\ ready (S k) (trace_tick c).1 /\ added_cycle t <= t_clk_ c.
Proof using Hts.
  intros Hc Hk. assert (exists c', held k c' /\ t_clk_ c' = t_clk_ c /\ trace_tick c' = trace_tick c) as (c' & Hh & <- & <-).
  { destruct Hc as [Hr|Hh]; [|by exists c]. destruct (tick_ready k c t Hr Hk) as (c' & ? & _ & ? & ?). by exists c'. }
  pose proof (tick_held k c' t Hh Hk) as Ht. cbn zeta in Ht. destruct (_ && _) eqn:E; [|left; tauto].
  apply andb_prop in E as [E _]. zb. right. tauto.
Qed.

Lemma trace_inv_step n c l : trace_inv n c l -> trace_inv (S n) (trace_tick c).1 (l ++ (trace_tick c).2).
Proof using Hts.
  intros Hi Hn. destruct Hi as (Hclk & Hr & Ht); [lia|]. rewrite tick_clk, Hclk, u64_small by lia. split; [lia|].
  destruct Hr as [k Hc Hk ->|x He -> Hx].
  - destruct (ts !! k) as [t|] eqn:Et.
    + assert (length (map pair_of (take k ts)) = k) as Hlen by (rewrite length_map, length_take; lia).
      destruct (replay_tick k c t Hc Et) as [[-> Hh]|(-> & Hr & Hd)].
      * rewrite app_nil_r. split; [by apply (replaying _ _ _ k); auto|]. intros j u Hj Hl. specialize (Ht j u Hj Hl). lia.
      * split; [apply (replaying _ _ _ (S k)); [auto|by apply lookup_lt_Some in Et|]|].
        { by rewrite (take_S_r ts k t Et), map_app. }
        intros j u Hj Hl. rewrite length_app, Hlen in Hl. cbn in Hl. destruct (decide (j = k)) as [->|].
        -- rewrite Et in Hj. injection Hj as ->. lia.
        -- specialize (Ht j u Hj). lia.
    + apply lookup_ge_None in Et. assert (k = length ts) as -> by lia.
      assert (ready (length ts) c) as Hr by (destruct Hc as [|Hh%held_bound]; [done|lia]).
      destruct (tick_end c Hr) as [He Hx]. rewrite firstn_all in *. split; [by eapply replayed|].
      intros j u Hj Hl. assert (added_cycle u < Z.of_nat n); [|lia]. apply (Ht j u Hj).
      rewrite length_map. by apply lookup_lt_Some in Hj.
  - destruct (tick_over c He) as [-> He']. rewrite app_nil_r. split; [by eapply replayed|].
    intros j u Hj Hl. specialize (Ht j u Hj Hl). lia.
Qed.

(** The CPU that replays the trace. *)
Definition start (d : D) (o : Transaction) : TraceBasedCPU D :=
  mk_trace d 0 (mk_ifstream (text ts) false false) o true.

Lemma trace_inv_start d o : trace_inv 0 (start d o) [].
Proof.
  intros _. split; [done|]. split; [|intros k t _ Hk; cbn in Hk; lia].
  apply (replaying _ _ _ 0); [left|lia|done]. by split_and!.
Qed.

Lemma trace_inv_run n d o : trace_inv n (run_cpu n (start d o)) (run_added n (start d o)).
Proof using Hts. apply cpu_run_inv; [apply trace_inv_start|apply trace_inv_step]. Qed.

(** C30. A trace is replayed as it is written: the transactions added to the memory
    are, in order, a prefix of the records of the file, none before its cycle;
    only after the last record one more read of the last address may follow. *)
Theorem trace_replayed_in_order n d o :
  Z.of_nat n < 2 ^ 64 ->
  let l := run_added n (start d o) in
  (l `prefix_of` map pair_of ts \/ exists x, l = map pair_of ts ++ x /\ extra x) /\
  forall k t, ts !! k = Some t -> (k < length l)%nat -> added_cycle t < Z.of_nat n.
Proof using Hts.
  intros Hn. destruct (trace_inv_run n d o Hn) as (_ & Hr & Ht). split; [|done].
  destruct Hr as [k _ _ ->|x _ -> Hx]; [left|right; eauto].
  exists (map pair_of (drop k ts)). by rewrite <- map_app, take_drop.
Qed.

(** ** A replay ends

    The memory stays in states where it accepts a transaction within [B] clocks. *)

Variable live : D -> Prop.
Variable B : nat.
Definition clocked (d : D) : D := (MemCtrl.ClockTick d).1.
Hypothesis live_clock : forall d, live d -> live (clocked d).
Hypothesis live_add : forall d a wr, live d -> WillAcceptTransaction d a wr = true -> live (AddTransaction d a wr).
Hypothesis live_accepts : forall d a wr, live d ->
  exists m, (m <= B)%nat /\ WillAcceptTransaction (iter_step m clocked d) a wr = true.

Lemma run_step c j : run_cpu (S j) c = run_cpu j (trace_tick c).1 /\
  run_added (S j) c = (trace_tick c).2 ++ run_added j (trace_tick c).1.
Proof. split; [exact (run_cpu_S j c)|exact (run_added_S j c)]. Qed.

(** A record waits for its cycle. *)
Lemma held_waits k t w : forall c, held k c -> ts !! k = Some t -> live (t_mem c) ->
  added_cycle t = t_clk_ c + Z.of_nat w -> 0 <= t_clk_ c -> added_cycle t < 2 ^ 64 ->
  held k (run_cpu w c) /\ run_added w c = [] /\ t_clk_ (run_cpu w c) = added_cycle t /\ live (t_mem (run_cpu w c)).
Proof using live_clock.
  induction w as [|w IH]; intros c Hh Hk Hl Hc H0 Ht; [split_and!; try done; cbn; lia|].
  destruct (run_step c w) as [-> ->]. pose proof (tick_held k c t Hh Hk) as Hs. cbn zeta in Hs.
  rewrite (proj2 (Z.leb_gt _ _)) in Hs by lia. cbn [andb] in Hs. destruct Hs as (-> & Hh' & Hm).
  assert (t_clk_ (trace_tick c).1 = t_clk_ c + 1) as Hclk by (rewrite tick_clk; apply u64_small; lia).
  apply IH; try done; [rewrite Hm; by apply live_clock|lia..].
Qed.

(** Once it is due, it is added as soon as the memory accepts it. *)
Lemma held_serves k t m : forall c, held k c -> ts !! k = Some t -> live (t_mem c) -> added_cycle t <= t_clk_ c ->
  WillAcceptTransaction (iter_step m clocked (clocked (t_mem c))) (t_addr t) (is_write t) = true ->
  t_clk_ c + Z.of_nat m + 1 < 2 ^ 64 -> 0 <= t_clk_ c ->
  exists j, (j <= m)%nat /\ ready (S k) (run_cpu (S j) c) /\ run_added (S j) c = [pair_of t] /\
    t_clk_ (run_cpu (S j) c) = t_clk_ c + Z.of_nat (S j) /\ live (t_mem (run_cpu (S j) c)).
Proof using live_clock live_add.
  induction m as [|m IH]; intros c Hh Hk Hl Hc Ha Hb H0; pose proof (tick_held k c t Hh Hk) as Hs; cbn zeta in Hs;
    fold (clocked (t_mem c)) in Hs; rewrite (proj2 (Z.leb_le _ _) Hc) in Hs; cbn [andb] in Hs;
    (assert (t_clk_ (trace_tick c).1 = t_clk_ c + 1) as Hclk by (rewrite tick_clk; apply u64_small; lia));
    destruct (WillAcceptTransaction (clocked (t_mem c)) _ _) eqn:E; try (cbn in Ha; congruence).
  1, 2: exists O; destruct (run_step c 0) as [-> ->]; destruct Hs as (-> & Hr & Hm);
    (split_and!; [lia|done|done| |]); cbn; [lia|rewrite Hm; apply live_add; auto].
  destruct Hs as (Ht & Hh' & Hm). destruct (IH (trace_tick c).1) as (j & Hj & Hr & Hadd & Hck & Hlv);
    try done; try lia; [rewrite Hm; auto| |].
  - rewrite Hm. exact Ha.
  - exists (S j). destruct (run_step c (S j)) as [-> ->]. rewrite Ht, Hadd. split_and!; try done; lia.
Qed.

Variable T : Z.
Hypothesis HT : Forall (fun t => added_cycle t <= T) ts.
Hypothesis Hbound : 0 <= T /\ T + Z.of_nat (length ts * S B) < 2 ^ 64.

Definition by_time (k : nat) : Z := T + Z.of_nat (k * S B).

Lemma record_served k c t : ready k c -> ts !! k = Some t -> live (t_mem c) -> 0 <= t_clk_ c <= by_time k ->
  exists j, ready (S k) (run_cpu j c) /\ run_added j c = [pair_of t] /\ live (t_mem (run_cpu j c)) /\
    t_clk_ (run_cpu j c) = t_clk_ c + Z.of_nat j /\ t_clk_ c + Z.of_nat j <= by_time (S k).
Proof using Hts live_clock live_add live_accepts HT Hbound.
  intros Hr Hk Hl Hc. destruct (tick_ready k c t Hr Hk) as (c' & Hh & Em & Ek & Et).
  rewrite <- Em in Hl. rewrite <- Ek in Hc |- *. pose proof (Forall_lookup_1 _ _ _ _ HT Hk) as HtT. cbn in HtT.
  assert (by_time (S k) < 2 ^ 64) as Hb.
  { unfold by_time. apply lookup_lt_Some in Hk. assert (S k * S B <= length ts * S B)%nat by (apply Nat.mul_le_mono_r; lia). lia. }
  assert (by_time (S k) = by_time k + Z.of_nat B + 1) as Hbt by (unfold by_time; lia).
  assert (T <= by_time k) by (unfold by_time; lia).
  set (w := Z.to_nat (added_cycle t - t_clk_ c')).
  assert (exists c1, held k c1 /\ run_cpu w c' = c1 /\ run_added w c' = [] /\ added_cycle t <= t_clk_ c1 /\
    t_clk_ c1 = t_clk_ c' + Z.of_nat w /\ live (t_mem c1)) as (c1 & Hh1 & E1 & E1' & Hd1 & Hk1 & Hl1).
  { destruct (decide (t_clk_ c' <= added_cycle t)).
    - destruct (held_waits k t w c') as (? & ? & Hck & ?); try done; [lia..|]. exists (run_cpu w c'). split_and!; try done; lia.
    - assert (w = O) as -> by lia. exists c'. split_and!; try done; lia. }
  destruct (live_accepts (clocked (t_mem c1)) (t_addr t) (is_write t)) as (m & Hm & Ha); [by apply live_clock|].
  destruct (held_serves k t m c1) as (j & Hj & Hr' & Hadd & Hck & Hlv); try done; [lia..|].
  destruct (run_add w (S j) c') as [R1 R2]. rewrite E1 in R1, R2. rewrite E1' in R2. cbn [app] in R2.
  exists (w + S j)%nat.
  assert (run_cpu (w + S j) c = run_cpu (w + S j) c' /\ run_added (w + S j) c = run_added (w + S j) c') as [-> ->].
  { rewrite Nat.add_succ_r. destruct (run_step c (w + j)) as [-> ->]. destruct (run_step c' (w + j)) as [-> ->]. by rewrite Et. }
  rewrite R1, R2. split_and!; try done; lia.
Qed.

Lemma records_served d o k : live d -> (k <= length ts)%nat ->
  exists n, ready k (run_cpu n (start d o)) /\ run_added n (start d o) = map pair_of (take k ts) /\
    live (t_mem (run_cpu n (start d o))) /\ t_clk_ (run_cpu n (start d o)) = Z.of_nat n /\ Z.of_nat n <= by_time k.
Proof using Hts live_clock live_add live_accepts HT Hbound.
  intros Hl. induction k as [|k IH]; intros Hk.
  - exists O. split_and!; try done. unfold by_time. lia.
  - destruct IH as (n & Hr & Ha & Hlv & Hck & Hn); [lia|]. destruct (lookup_lt_is_Some_2 ts k) as [t Et]; [lia|].
    destruct (record_served k _ t Hr Et Hlv) as (j & Hr' & Ha' & Hlv' & Hck' & Hj); [lia|].
    exists (n + j)%nat. destruct (run_add n j (start d o)) as [-> ->]. rewrite Ha, Ha', (take_S_r ts k t Et), map_app.
    split_and!; try done; lia.
Qed.

(** A replay ends: over a memory that always accepts a transaction within [B]
    clocks, all records of the file have been added, in order, not later than
    [B + 1] clocks for each record after the last cycle named in the file. *)
Theorem trace_completes d o :
  live d -> exists n, Z.of_nat n <= T + Z.of_nat (length ts * S B) /\ run_added n (start d o) = map pair_of ts.
Proof using Hts live_clock live_add live_accepts HT Hbound.
  intros Hl. destruct (records_served d o (length ts) Hl) as (n & _ & Ha & _ & _ & Hn); [done|].
  exists n. by rewrite Ha, firstn_all.
Qed.

End Trace.

(** ** Traces that are not replayed *)

Section Faults.
Context {D : Type} `{DramSystem D}.

(** The last record of a file that does not end in a newline is lost unless
    its cycle is the one it is read in: the end of the file is noticed while the
    record is read, and no later clock looks at the record again. *)
Theorem last_line_without_newline_lost (d : D) t o n :
  in_range t -> 0 < added_cycle t ->
  run_added n (mk_trace d 0 (mk_ifstream (show_transaction t) false false) o true) = [].
Proof.
  intros Ht Hc. pose proof (get_shown [] t [] o eq_refl Ht I) as E. cbn [app at_end] in E. rewrite app_nil_r in E.
  destruct n as [|n]; [done|]. rewrite run_added_S. cbn [ClockTick trace_cpu].
  unfold trace_tick at 1 2. cbn [eofbit trace_file_ get_next_ t_mem t_clk_ trans_].
  rewrite E. cbn [fst snd added_cycle read_as]. rewrite (proj2 (Z.leb_gt _ _)) by done. cbn [fst snd app].
  apply (cpu_run_inv (fun _ c l => eofbit (trace_file_ c) = true /\ l = [])); [done|].
  intros _ c l [He ->]. cbn [ClockTick trace_cpu]. by destruct (tick_over c He) as [-> ->].
Qed.

Lemma get_hash u old :
  get_uint 16 (mk_ifstream ("#" :: u) false false) old = (0, mk_ifstream ("#" :: u) false true).
Proof.
  unfold get_uint. change (sentry _) with (true, mk_ifstream ("#" :: u) false false). cbn [rest].
  change (sign _) with (false, "#" :: u). change (hex_prefix _ _) with ("#" :: u).
  change (digits _ _ _) with (0, "#" :: u). cbn [fst snd]. by rewrite bool_decide_true.
Qed.

(** After a line it cannot parse, the front end never stops: with a memory
    that accepts everything it adds a read of address 0 in every clock, although
    the line asks for nothing of the kind. *)
Theorem malformed_line_repeats (d : D) o n s :
  (forall d', WillAcceptTransaction d' 0 false = true) -> added_cycle o <= 0 -> Z.of_nat n < 2 ^ 64 ->
  run_added n (mk_trace d 0 (mk_ifstream ("#" :: s) false false) o true) = replicate n (0, false).
Proof.
  intros Hd Ho Hn.
  pose (I := fun (n : nat) (c : TraceBasedCPU D) l => Z.of_nat n < 2 ^ 64 ->
    l = replicate n (0, false) /\ get_next_ c = true /\ t_clk_ c = Z.of_nat n /\ added_cycle (trans_ c) <= 0 /\
    exists s, rest (trace_file_ c) = s /\ eofbit (trace_file_ c) = false /\
      (failbit (trace_file_ c) = true /\ t_addr (trans_ c) = 0 \/ failbit (trace_file_ c) = false /\ exists u, s = "#" :: u)).
  apply (cpu_run_inv I); [| |done].
  - intros _. split_and!; try done. eexists. split_and!; [done..|]. right. eauto.
  - clear n Hn. intros n c l Hi Hn. destruct Hi as (-> & Hg & Hc & Ha & s' & Hs & He & Hf); [lia|].
    cbn [ClockTick trace_cpu]. unfold trace_tick. rewrite He, Hg.
    assert (exists o', get_transaction (trace_file_ c) (trans_ c) =
      (mk_trans 0 (added_cycle (trans_ c)) o' false, mk_ifstream s' false true)) as [o' ->].
    { destruct (trace_file_ c) as [r e f]. cbn in Hs, He, Hf. subst r e. destruct Hf as [[-> Hz]|[-> [u ->]]].
      - unfold get_transaction, get_uint, get_word, sentry. cbn [eofbit failbit orb fst snd rest]. rewrite Hz. by eexists.
      - unfold get_transaction. rewrite get_hash. eexists. reflexivity. }
    cbn [fst snd added_cycle t_addr is_write]. rewrite (proj2 (Z.leb_le _ _)) by lia. unfold offer. rewrite Hd.
    cbn [fst snd added t_clk_ trans_ trace_file_ get_next_ rest eofbit failbit added_cycle t_addr].
    rewrite Hc, u64_small by lia. split_and!; try lia; try done.
    + rewrite replicate_S_end. done.
    + exists s'. split_and!; try done. by left.
Qed.

End Faults.

(** ** Examples *)

(** The ideal memory accepts everything. *)
Definition ideal_dram : DramSystem System.IdealDRAMSystem := {|
  WillAcceptTransaction _ _ _ := true;
  AddTransaction := System.i_AddTransaction;
  MemCtrl.ClockTick s := let r := System.i_ClockTick demo_config s in (r.2, r.1)
|}.

#[local] Existing Instance ideal_dram.
#[local] Existing Instance d4.

Definition demo_records : list Transaction := [mk_trans 8192 2 0 false; mk_trans 64 3 0 true; mk_trans 128 3 0 false].
Definition demo_old : Transaction := mk_trans 0 0 0 false.

Lemma demo_in_range : Forall in_range demo_records.
Proof. repeat constructor; cbn; lia. Qed.

Definition demo_cpu : TraceBasedCPU (outcome System.JedecDRAMSystem) :=
  start demo_records (System.new_jedec demo_config) demo_old.

Lemma cpu_traffic_conserved_witness :
  run_added 80 demo_cpu = [(8192, false); (64, true); (128, false); (128, false)] /\
  run_added 80 demo_cpu ≡ₚ run_callbacks 80 demo_cpu ++ @owed _ d4 laws (memory_system_ (run_cpu 80 demo_cpu)).
Proof.
  split; [apply (bool_decide_eq_true_1 _); vm_compute; reflexivity|].
  destruct (fresh_ok 80) as [Hok Ho]; [lia|].
  apply (@cpu_traffic_conserved _ d4 laws _ trace_cpu trace_laws 80 demo_cpu); [exact Hok|exact Ho].
Defined.

Definition demo_gen (k : nat) : Z := 4096 * Z.of_nat k.

Lemma stream_elements_in_order_witness :
  exists blocks part,
    run_added 2 (H0 := stream_cpu demo_gen)
      (new_stream System.new_ideal 0 0 0) = concat blocks ++ part /\
    (forall k x, blocks !! k = Some x -> x ≡ₚ element demo_gen k) /\ part ⊆+ element demo_gen (length blocks).
Proof. apply (@stream_elements_in_order _ ideal_dram demo_gen 2). lia. Defined.

Lemma trace_record_roundtrip_witness :
  get_transaction (mk_ifstream (show_transaction (mk_trans 255 16 0 true) ++ []) false false) demo_old =
  (mk_trans 255 16 0 true, mk_ifstream [] true false).
Proof. apply (trace_record_roundtrip (mk_trans 255 16 0 true) [] demo_old); [split; cbn; lia|done]. Defined.

Lemma trace_replayed_in_order_witness :
  let l := run_added 5 (start demo_records System.new_ideal demo_old) in
  (l `prefix_of` map pair_of demo_records \/ exists x, l = map pair_of demo_records ++ x /\ extra demo_records x) /\
  forall k t, demo_records !! k = Some t -> (k < length l)%nat -> added_cycle t < 5.
Proof. apply (@trace_replayed_in_order _ ideal_dram demo_records demo_in_range 5); lia. Defined.

Lemma trace_completes_witness : exists n, Z.of_nat n <= 6 /\
  run_added n (start demo_records System.new_ideal demo_old) = map pair_of demo_records.
Proof.
  apply (@trace_completes _ ideal_dram demo_records demo_in_range (fun _ => True) 0) with (T := 3); try done.
  - intros d a wr _. by exists O.
  - repeat constructor; cbn; lia.
Defined.

Lemma last_line_without_newline_lost_witness :
  run_added 50
    (mk_trace System.new_ideal 0 (mk_ifstream (show_transaction (mk_trans 64 1 0 true)) false false) demo_old true) = [].
Proof.
  apply (@last_line_without_newline_lost _ ideal_dram System.new_ideal (mk_trans 64 1 0 true) demo_old 50); [split|]; cbn; lia.
Defined.

Lemma malformed_line_repeats_witness :
  run_added 9
    (mk_trace System.new_ideal 0 (mk_ifstream (list_ascii_of_string "# cycle") false false) demo_old true) =
  replicate 9 (0, false).
Proof. apply (@malformed_line_repeats _ ideal_dram); [done|cbn; lia|lia]. Defined.

End Cpu.
