(* ===== verification/MemorySystem.v ===== *)
(** * DRAMsim3: the memory system of a configuration

    [runtime/DRAMsim3/src/memory_system.cc] and [include/dramsim3/memory_system.h]:
    the interface through which the runtime and the simulator's own front ends use
    a memory, a hybrid memory cube or a JEDEC part as the configuration asks.  The
    laws of [MemOnDram] hold of both, and with them what the clients rely on. *)

From Stdlib Require Import Ascii String.
From S2P Require Import Prelude Text Ini Channels MemCtrl.
From S2P Require Import DramCommon DramBank ChannelState SimpleStats CommandQueue DramController DramSystem MemOnDram.
From S2P Require Import Hmc TraceCpu.

Module MemSys.
Import Dram Ctrl System Hmc OnDram Cpu.

(** [MemorySystem::dram_system_]. *)
Inductive MemorySystem :=
| Jedec (s : JedecDRAMSystem)
| Cube (s : HMCMemorySystem).

Section MemorySystem.
Variable config : Config.
Variable grow : Z -> Z.
(** Whether the assertions are compiled out. *)
Variable ndebug : bool.

(** [MemorySystem::MemorySystem], [GetMemorySystem]. *)
Definition GetMemorySystem : outcome MemorySystem :=
  if is_hmc (protocol (str_ config)) then s ← new_hmc config; Done (Cube s)
  else s ← new_jedec config; Done (Jedec s).

Definition m_ClockTick (m : MemorySystem) : outcome (list (Z * bool) * MemorySystem) :=
  match m with
  | Jedec s => r ← j_ClockTick config s; Done (r.1, Jedec r.2)
  | Cube s => r ← h_ClockTick config grow s; Done (r.1, Cube r.2)
  end.

Definition GetBusBits : Z := bus_width (sys_ config).
Definition GetBurstLength : Z := BL (str_ config).
Definition GetQueueSize : Z := trans_queue_size (sys_ config).

Definition m_WillAcceptTransaction (m : MemorySystem) (a : Z) (wr : bool) : outcome bool :=
  match m with
  | Jedec s => j_WillAcceptTransaction config s a wr
  | Cube s => Done (h_WillAcceptTransaction config s)
  end.

Definition m_AddTransaction (m : MemorySystem) (a : Z) (wr : bool) : outcome (bool * MemorySystem) :=
  match m with
  | Jedec s => r ← j_AddTransaction config grow ndebug s a wr; Done (r.1, Jedec r.2)
  | Cube s => r ← h_AddTransaction config s a wr; Done (r.1, Cube r.2)
  end.

Definition m_PrintStats (m : MemorySystem) : outcome MemorySystem :=
  match m with
  | Jedec s => s' ← j_PrintStats s; Done (Jedec s')
  | Cube s => l ← final_all (h_ctrls_ s); Done (Cube (set_ctrls (h_clk_ s) l s))
  end.

Definition m_ResetStats (m : MemorySystem) : MemorySystem :=
  match m with
  | Jedec s => Jedec (j_ResetStats s)
  | Cube s => Cube (set_ctrls (h_clk_ s) (map c_ResetStats (h_ctrls_ s)) s)
  end.

(** What its clients see; a failed call ends the program. *)
#[export] Instance memory_dram : MemCtrl.DramSystem (outcome MemorySystem) := {
  MemCtrl.WillAcceptTransaction d a wr :=
    match d with Done m => match m_WillAcceptTransaction m a wr with Done b => b | _ => false end | _ => false end;
  MemCtrl.AddTransaction d a wr := m ← d; r ← m_AddTransaction m a wr; Done r.2;
  MemCtrl.ClockTick d :=
    match (m ← d; m_ClockTick m) with
    | Done (cb, m') => (Done m', cb)
    | Exit n => (Exit n, [])
    | Throw => (Throw, [])
    | Undef => (Undef, [])
    | Stuck => (Stuck, [])
    end
}.

(** ** The laws *)

(** The configurations the code serves. *)
Definition servable : Prop :=
  if is_hmc (protocol (str_ config)) then hmc_plain config else plain_system config.

(** [n] more clocks fit the counters: 64 bits for a JEDEC part; in a cube, the
    [int] ages, with at most 800 logic cycles to a clock. *)
Definition m_ok (n : nat) (d : outcome MemorySystem) : Prop :=
  match d with
  | Done (Jedec s) => plain_system config /\ sys_inv config s /\ j_clk_ s + Z.of_nat n < 2 ^ 64
  | Done (Cube s) => hmc_plain config /\ hmc_inv config s /\ 800 * (h_clk_ s + Z.of_nat n) < horizon
  | _ => False
  end.

Definition m_owed (d : outcome MemorySystem) : list (Z * bool) :=
  match d with
  | Done (Jedec s) => System.owed s
  | Done (Cube s) => outstanding s
  | _ => []
  end.

Lemma logic_clk_bound s : hmc_inv config s -> logic_clk_ s <= 800 * h_clk_ s.
Proof.
  intros [Hc [H1 _] H0 Hl Hd [_ Ha]]. pose proof (k_clk _ _ _ _ Hc) as Hh. rewrite Hl, Hd in Ha. unfold ps_per_dram_ in Ha.
  assert (ps_per_logic_ s * (logic_clk_ s - 1) < 800 * h_clk_ s) by lia.
  destruct (decide (logic_clk_ s = 0)); [lia|]. assert (logic_clk_ s - 1 <= ps_per_logic_ s * (logic_clk_ s - 1)) by nia. lia.
Qed.

Lemma m_law_clock n d : m_ok (S n) d ->
  let r := MemCtrl.ClockTick d in m_ok n r.1 /\ m_owed d ≡ₚ r.2 ++ m_owed r.1.
Proof.
  destruct d as [[s|s]| | | |]; try done; intros (Hp & Hi & Hk); cbn.
  - destruct (j_ClockTick_spec config s Hp Hi) as (cb & s' & E & Hi' & Ho & Hk'); [lia|].
    rewrite E. cbn. split; [|done]. split_and!; try done. lia.
  - pose proof (logic_clk_bound s Hi).
    destruct (h_ClockTick_spec config grow s Hp Hi) as (cb & s' & E & Hi' & Hk' & Ho); [lia|].
    rewrite E. cbn [mbind outcome_bind fst snd m_ok m_owed]. split; [|done]. split_and!; try done. lia.
Qed.

Lemma m_law_add n d a wr : m_ok n d -> MemCtrl.WillAcceptTransaction d a wr = true ->
  let d' := MemCtrl.AddTransaction d a wr in m_ok n d' /\ m_owed d' ≡ₚ (a, wr) :: m_owed d.
Proof.
  destruct d as [[s|s]| | | |]; try done; intros (Hp & Hi & Hk); cbn.
  - unfold j_WillAcceptTransaction. destruct (vget (ctrls_ s) (GetChannel config a)) as [c| | | |] eqn:Ec; try done.
    cbn [mbind outcome_bind]. intros Hw.
    assert (exists s', j_AddTransaction config grow ndebug s a wr = Done (true, s')) as [s' E].
    { unfold j_AddTransaction. rewrite Ec. cbn [mbind outcome_bind]. rewrite Hw. eauto. }
    destruct (j_AddTransaction_spec config grow ndebug s a wr _ Hp Hi E) as (Hi' & Ho & Hk').
    rewrite E. cbn [mbind outcome_bind snd fst m_ok m_owed] in *. split; [|done]. split_and!; try done. by rewrite Hk'.
  - intros Hw. destruct (h_AddTransaction_spec config s a wr Hp Hi) as (s' & E & Hi' & Hl & Ho).
    rewrite E, Hw in *. cbn [mbind outcome_bind snd fst m_ok m_owed] in *. split; [|done]. split_and!; try done.
    destruct Hl as [_ ->]. done.
Qed.

#[export] Instance memory_laws : DramLaws (outcome MemorySystem) :=
  { ok := m_ok; owed := m_owed; law_clock := m_law_clock; law_add := m_law_add }.

(** A new memory owes nothing and can be clocked. *)
Lemma fresh_memory m n : servable -> GetMemorySystem = Done m -> 800 * Z.of_nat n < horizon ->
  m_ok n (Done m) /\ m_owed (Done m) = [].
Proof using grow ndebug.
  unfold servable, GetMemorySystem. intros Hs Hm Hn. destruct (is_hmc _).
  - apply bind_Done in Hm as (s & Hm & [= <-]). destruct (new_hmc_spec config s Hs Hm) as [Hi Ho]. split; [|done].
    split_and!; try done. replace (h_clk_ s) with 0; [lia|].
    unfold new_hmc in Hm. destruct (negb _); [done|]. apply bind_Done in Hm as (p & _ & Hm).
    apply bind_Done in Hm as (l & _ & Hm). destruct (_ <? 0); [done|]. by injection Hm as <-.
  - apply bind_Done in Hm as (s & Hm & [= <-]).
    destruct (calls_inv config grow ndebug [] [] s Hs) as [Hi Ho]; [by constructor|]. apply Permutation_nil in Ho.
    split; [|done]. split_and!; try done. unfold horizon in Hn.
    replace (j_clk_ s) with 0; [lia|]. unfold new_jedec in Hm. destruct (is_hmc _); [done|].
    by apply bind_Done in Hm as (l & _ & [= <-]).
Qed.

Context {C : Type} `{!CPU C} `{!CpuLaws C}.

(** C35. A simulation of the simulator's own program: any of its front ends over
    the memory of a configuration of [servable] (a cube of [hmc_plain], or a JEDEC part
    of [plain_system]: no self refresh and no dual commands), for any number [n] of
    clocks with 800 n < 2^31 - 1000, which is about 2.6 million.  No call ends the
    program or runs into
    undefined behaviour, and what the front end added is, up to order, what it
    was called back for and what the memory still owes. *)
Theorem simulation_conserved n (c : C) m :
  servable -> GetMemorySystem = Done m -> memory_system_ c = Done m -> 800 * Z.of_nat n < horizon ->
  exists m', memory_system_ (run_cpu n c) = Done m' /\
    run_added n c ≡ₚ run_callbacks n c ++ m_owed (Done m').
Proof using All.
  intros Hs Hm Hc Hn. destruct (fresh_memory m n Hs Hm Hn) as [Hok Ho]. rewrite <- Hc in Hok, Ho.
  destruct (run_traffic n 0 c) as [Hend Hr]; [by rewrite Nat.add_0_r|].
  change (m_ok 0 (memory_system_ (run_cpu n c))) in Hend. cbn [OnDram.owed memory_laws] in Hr. rewrite Ho in Hr.
  destruct (memory_system_ (run_cpu n c)) as [m'| | | |]; try done. by exists m'.
Qed.

End MemorySystem.

(** ** A cube driven by a trace *)

Definition cube : outcome MemorySystem := GetMemorySystem hmc_config.
#[local] Instance cube_dram : MemCtrl.DramSystem (outcome MemorySystem) := memory_dram hmc_config demo_grow false.

Definition cube_cpu : TraceBasedCPU (outcome MemorySystem) := start demo_records cube demo_old.

Lemma simulation_conserved_witness :
  run_added 40 cube_cpu = [(8192, false); (64, true); (128, false); (128, false)] /\
  exists m', memory_system_ (run_cpu 40 cube_cpu) = Done m' /\
    run_added 40 cube_cpu ≡ₚ run_callbacks 40 cube_cpu ++ m_owed (Done m').
Proof.
  split; [apply (bool_decide_eq_true_1 _); vm_compute; reflexivity|].
  assert ((match cube with Done _ => true | _ => false end) = true) as Hd by (vm_compute; reflexivity).
  destruct cube as [m| | | |] eqn:E; try discriminate Hd.
  apply (simulation_conserved hmc_config demo_grow false 40 cube_cpu m).
  - apply hmc_config_plain.
  - exact E.
  - exact E.
  - unfold horizon. lia.
Defined.

(** ** The configuration the runtime loads by default *)

(** [configs/DDR4_8Gb_x16_3200.ini]. *)
Definition default_ini : list ascii := Ini.text_of "[dram_structure]
protocol = DDR4
bankgroups = 2
banks_per_group = 4
rows = 65536
columns = 1024
device_width = 16
BL = 8

[timing]
tCK = 0.63
AL = 0
CL = 22
CWL = 16
tRCD = 22
tRP = 22
tRAS = 52
tRFC = 560
tRFC2 = 416
tRFC4 = 256
tREFI = 12480
tRPRE = 1
tWPRE = 1
tRRD_S = 9
tRRD_L = 11
tWTR_S = 4
tWTR_L = 12
tFAW = 48
tWR = 24
tWR2 = 25
tRTP = 12
tCCD_S = 4
tCCD_L = 8
tCKE = 8
tCKESR = 9
tXS = 576
tXP = 10
tRTRS = 1

[power]
VDD = 1.2
IDD0 = 95
IPP0 = 4.0
IDD2P = 25
IDD2N = 37
IDD3P = 47
IDD3N = 56
IDD4W = 278
IDD4R = 302
IDD5AB = 280
IDD6x = 30

[system]
channel_size = 8192
channels = 1
bus_width = 64
address_mapping = rochrababgco
queue_structure = PER_BANK
refresh_policy = RANK_LEVEL_STAGGERED
row_buf_policy = OPEN_PAGE
cmd_queue_size = 8
trans_queue_size = 32

[other]
epoch_period = 1587301
output_level = 1

"%string.

(** The configuration file that the runtime loads when it is given no other,
    read byte by byte: the reader accepts it, the memory it describes is one the
    simulator serves, so that the theorems on the memory system apply, and the
    memory controller of a runtime with 64-byte beats accepts it. *)
Theorem default_config_served :
  exists c, Ini.read_config (Some default_ini) = Done c /\ servable c /\
    MemCtrl.init 64 true (GetBusBits c) (GetBurstLength c) = Done (MemCtrl.mk_cfg 8 8 64 8).
Proof.
  eexists. split; [vm_compute; reflexivity|]. split; [|vm_compute; reflexivity].
  split; [|by vm_compute|by vm_compute]. split; [by vm_compute..| |done|done].
  intros f Hf. injection Hf as <-. by vm_compute.
Qed.

End MemSys.
