(* ===== verification/FpgaHandle.v ===== *)
(** * The client's handle: selection, Zynq memory, cache maintenance

    [fpga_handle_t] of [libbeethoven/include/beethoven/fpga_handle.h], what is
    left of it beside the command protocol ([CmdServer]) and the requests to the
    data server ([DataServer]): how [rocc_cmd::send] selects a handle
    ([libbeethoven/src/rocc_cmd.cc]), the memory of a Zynq board
    ([src/fpga_handle_impl/fpga_handle_zynq.cc]), and the cache maintenance it
    relies on ([include/beethoven/arm_cache.h]).

    What the operating system answers (file descriptors, mappings, the page map)
    is an argument; what the code asks it to release is a list of calls. *)

From S2P Require Import Prelude.

Module Handle.

(** ** Selection of a handle *)

(** Handles are objects, named by numbers; [live] are those that exist. *)
Record registry := mk_reg {
  active_fpga_handles : list Z;
  current_handle_context : option Z;
  live : list Z
}.

Definition no_handles : registry := mk_reg [] None [].

(** What the four calls of the constructor gave: both shared files opened and
    mapped. *)
Record ctor_os := mk_ctor_os { cmd_open : bool; cmd_map : bool; data_open : bool; data_map : bool }.

(** [fpga_handle_t::fpga_handle_t]. *)
Definition construct (os : ctor_os) (h : Z) (r : registry) : outcome registry :=
  if negb (cmd_open os) then Exit 1
  else if negb (cmd_map os) then Exit 1
  else if negb (data_open os) then Exit 1
  else if negb (data_map os) then Exit 1
  else Done (mk_reg (active_fpga_handles r ++ [h]) (current_handle_context r) (live r ++ [h])).

(** [fpga_handle_t::~fpga_handle_t], as far as other handles can tell. *)
Definition destruct_handle (h : Z) (r : registry) : registry :=
  mk_reg (active_fpga_handles r) (current_handle_context r) (filter (fun x => x <> h) (live r)).

(** [set_fpga_context]. *)
Definition set_fpga_context (h : Z) (r : registry) : outcome registry :=
  let r' := mk_reg (active_fpga_handles r) (Some h) (live r) in
  if bool_decide (h ∈ active_fpga_handles r) then Done r' else Exit 1.

(** The context of [rocc_cmd::send]; the value is the handle the command is
    sent on. *)
Definition select_context (ndebug : bool) (r : registry) : outcome Z :=
  ctx ← match current_handle_context r with
        | Some c => Done (Some c)
        | None =>
            match active_fpga_handles r with
            | [h] => Done (Some h)
            | [] => Exit 1
            | _ => Done None
            end
        end;
  match ctx with
  | None => if ndebug then Undef else Exit 134
  | Some h => if bool_decide (h ∈ live r) then Done h else Undef
  end.

(** Programs that construct handles and select them. *)
Inductive built : registry -> Prop :=
| b_none : built no_handles
| b_new os h r r' : built r -> h ∉ live r -> construct os h r = Done r' -> built r'
| b_ctx h r r' : built r -> set_fpga_context h r = Done r' -> built r'.

Lemma built_live r : built r ->
  active_fpga_handles r = live r /\ (forall h, current_handle_context r = Some h -> h ∈ live r).
Proof.
  induction 1 as [|os h r r' H [IH1 IH2] Hn Hc|h r r' H [IH1 IH2] Hc]; [done|..].
  - unfold construct in Hc. repeat (destruct (negb _); [done|]). injection Hc as <-. cbn. rewrite IH1. split; [done|].
    intros x Hx. apply elem_of_app. left. by apply IH2.
  - unfold set_fpga_context in Hc. case_bool_decide as Hin; [|done]. injection Hc as <-. cbn. split; [done|].
    intros x [= <-]. by rewrite <- IH1.
Qed.

(** As long as no handle is destroyed, an implicit send either uses a handle
    that exists - the selected one, or the only one - or ends the program with an
    error; it is never sent on a handle that is gone. *)
Theorem implicit_send_selects r :
  built r ->
  match current_handle_context r, active_fpga_handles r with
  | Some h, _ => select_context false r = Done h /\ h ∈ live r
  | None, [h] => select_context false r = Done h /\ live r = [h]
  | None, [] => select_context false r = Exit 1
  | None, _ => select_context false r = Exit 134
  end.
Proof.
  intros H. destruct (built_live r H) as [Ha Hc]. unfold select_context. destruct (current_handle_context r) as [h|].
  - cbn [mbind outcome_bind]. rewrite bool_decide_true by (by apply Hc). split; [done|by apply Hc].
  - destruct (active_fpga_handles r) as [|h [|]]; cbn [mbind outcome_bind]; try done. rewrite <- Ha.
    by rewrite bool_decide_true by constructor.
Qed.

Definition all_ok : ctor_os := mk_ctor_os true true true true.

Lemma implicit_send_selects_witness : exists r, active_fpga_handles r = [7] /\ select_context false r = Done 7 /\ live r = [7].
Proof.
  exists (mk_reg [7] None [7]). split; [reflexivity|].
  apply (implicit_send_selects (mk_reg [7] None [7])).
  apply (b_new all_ok 7 no_handles); [constructor|apply not_elem_of_nil|reflexivity].
Defined.

(** A destroyed handle stays registered: with one handle that was destroyed
    an implicit send goes to the object that is gone, and with a second one that
    replaced it the program aborts although exactly one handle exists. *)
Theorem destroyed_handle_is_selected h h' :
  (r ← construct all_ok h no_handles; select_context false (destruct_handle h r)) = Undef /\
  (h <> h' ->
   exists r, (r1 ← construct all_ok h no_handles; construct all_ok h' (destruct_handle h r1)) = Done r /\
     live r = [h'] /\ select_context false r = Exit 134).
Proof.
  assert (forall c, destruct_handle h (mk_reg [h] c [h]) = mk_reg [h] c []) as E.
  { intros c. unfold destruct_handle. cbn [live active_fpga_handles current_handle_context].
    rewrite filter_cons_False, filter_nil; [done|tauto]. }
  change (construct all_ok h no_handles) with (Done (mk_reg [h] None [h])). cbn [mbind outcome_bind]. rewrite E. split; [done|].
  intros _. eexists. by split.
Qed.

(** ** The memory of a Zynq board *)

Inductive os_call := Close (fd : Z) | Munmap (addr len : Z) | ShmUnlink (name : string).

(** The three words of a [remote_ptr]: device address, host address, length. *)
Definition remote := (Z * Z * Z)%type.

Section Zynq.
(** The page size, and the entries of [/proc/self/pagemap] that can be read. *)
Variable page : Z.
Variable pagemap : Z -> option Z.

(** [vtop]: bit 63 says that the page is present, the low bits are its frame. *)
Definition vtop (virt_addr : Z) : Z :=
  match pagemap (virt_addr / page) with
  | None => 0
  | Some e =>
      if Z.testbit e 63
      then Z.lor (u64 (Z.land e (2 ^ 54 - 1) * page)) (Z.land virt_addr (page - 1))
      else 0
  end.

(** [(len + page - 1) & ~(page - 1)]. *)
Definition page_align (len : Z) : Z := Z.ldiff (u64 (len + page - 1)) (page - 1).

Fixpoint verify_loop (fuel : nat) (addr first off len : Z) : outcome bool :=
  if off <? len then
    match fuel with
    | O => Stuck
    | S fuel' =>
        if vtop (u64 (addr + off)) =? u64 (first + off)
        then verify_loop fuel' addr first (u64 (off + page)) len
        else Done false
    end
  else Done true.

Definition verify_contiguous_mapping (addr len : Z) : outcome bool :=
  if vtop addr =? 0 then Done false else verify_loop (Z.to_nat len) addr (vtop addr) page len.

(** What the calls of [try_dma_heap_malloc] gave. *)
Record dma_os := mk_dma_os { heap_fd : Z; alloc_ok : bool; alloc_fd : Z; dma_addr : option Z }.

Definition try_dma_heap_malloc (os : dma_os) (len : Z) : outcome remote * list os_call :=
  let sz := page_align len in
  if heap_fd os <? 0 then (Throw, [])
  else if negb (alloc_ok os) then (Throw, [Close (heap_fd os)])
  else
    match dma_addr os with
    | None => (Throw, [Close (heap_fd os); Close (alloc_fd os)])
    | Some addr =>
        match verify_contiguous_mapping addr sz with
        | Done true => (Done (vtop addr, addr, sz), [Close (heap_fd os); Close (alloc_fd os)])
        | Done false => (Throw, [Close (heap_fd os); Munmap addr sz; Close (alloc_fd os)])
        | _ => (Stuck, [Close (heap_fd os)])
        end
    end.

Definition zynq_huge_page_sizes : list Z := [2 ^ 21; 2 ^ 25; 2 ^ 30].

(** The first size class that fits. *)
Fixpoint fit (len : Z) (l : list Z) : option Z :=
  match l with
  | [] => None
  | s :: l' => if len <=? s then Some s else fit len l'
  end.

(** The fallback: an anonymous mapping of a size class, locked. *)
Record map_os := mk_map_os { map_addr : option Z; mlock_ok : bool }.

Definition anonymous_malloc (os : map_os) (len : Z) : outcome remote :=
  match (if len <=? 2 ^ 12 then Some (2 ^ 12) else fit len zynq_huge_page_sizes) with
  | None => Throw
  | Some sz =>
      match map_addr os with
      | None => Throw
      | Some addr => if mlock_ok os then Done (vtop addr, addr, sz) else Throw
      end
  end.

(** [fpga_handle_t::malloc] on silicon. *)
Definition zynq_malloc (dma : dma_os) (os : map_os) (len : Z) : outcome remote * list os_call :=
  match try_dma_heap_malloc dma len with
  | (Throw, calls) => (anonymous_malloc os len, calls)
  | r => r
  end.

(** [fpga_handle_t::free] on silicon. *)
Definition zynq_free (p : remote) : list os_call := [Munmap p.1.2 p.2].

(** ** What the kernel is asked to keep *)

Hypothesis Hpage : exists k, 0 <= k < 64 /\ page = 2 ^ k.

Lemma page_pos : 1 <= page.
Proof using Hpage. destruct Hpage as (k & Hk & ->). pose proof (Z.pow_pos_nonneg 2 k). lia. Qed.

Lemma page_divides : (page | 2 ^ 64).
Proof using Hpage. destruct Hpage as (k & Hk & ->). exists (2 ^ (64 - k)). rewrite <- Z.pow_add_r by lia. f_equal. lia. Qed.

Lemma land_page x : Z.land x (page - 1) = x mod page.
Proof using Hpage. destruct Hpage as (k & Hk & ->). apply land_ones_mod. lia. Qed.

Lemma vtop_nonneg v : 0 <= vtop v.
Proof using Hpage.
  pose proof page_pos. unfold vtop. destruct (pagemap _); [|done]. destruct (Z.testbit _ _); [|done].
  apply Z.lor_nonneg. split; [apply u64_range|]. rewrite land_page. apply Z.mod_pos_bound. lia.
Qed.

(** Frames are multiples of the page, and the offset is added. *)
Lemma vtop_offset v r :
  v mod page = 0 -> 0 <= r < page -> vtop v <> 0 -> vtop (v + r) = vtop v + r.
Proof using Hpage.
  intros Hv Hr. pose proof page_pos. unfold vtop.
  assert ((v + r) / page = v / page) as ->.
  { pose proof (Z.div_mod v page ltac:(lia)). symmetry. apply (Z.div_unique _ _ _ r); lia. }
  destruct (pagemap (v / page)) as [e|]; [|done]. destruct (Z.testbit e 63); [|done].
  rewrite !land_page. rewrite <- Z.add_mod_idemp_l, Hv, Z.add_0_l, (Z.mod_small r) by lia. intros _.
  rewrite Z.lor_0_r. set (f := Z.land e (2 ^ 54 - 1)). destruct Hpage as (k & Hk & Hp).
  assert (u64 (f * page) mod 2 ^ k = 0) as Hm.
  { rewrite <- Hp. unfold u64, wrapw. rewrite <- (Z.mod_mul f page) by lia.
    apply Z.mod_mod_divide, page_divides. }
  rewrite (Z.div_mod (u64 (f * page)) (2 ^ k)) by lia. rewrite Hm, Z.add_0_r, Z.mul_comm.
  rewrite <- Z.shiftl_mul_pow2 by lia. rewrite Z.lor_comm, lor_shiftl_add, Z.shiftl_mul_pow2 by lia. lia.
Qed.

(** The loop checks every page: [off] is a multiple of the page. *)
Lemma verify_loop_spec fuel : forall addr first off len,
  0 <= off -> off mod page = 0 -> len + page < 2 ^ 64 -> len - off <= Z.of_nat fuel ->
  exists b, verify_loop fuel addr first off len = Done b /\
    (b = true -> forall k, off <= k < len -> k mod page = 0 -> vtop (u64 (addr + k)) = u64 (first + k)).
Proof using Hpage.
  pose proof page_pos as Hp1. induction fuel as [|fuel IH]; intros addr first off len Ho Hm Hl Hf; cbn [verify_loop];
    destruct (off <? len) eqn:E; zb; try (exists true; split; [done|]; intros _ k Hk; lia); [lia|].
  destruct (_ =? _) eqn:Ev; zb; [|by exists false]. rewrite (u64_small (off + page)) by lia.
  destruct (IH addr first (off + page) len) as (b & -> & Hb); [lia| |lia|lia|].
  { rewrite <- (Z.mul_1_l page) at 1. by rewrite Z.mod_add by lia. }
  exists b. split; [done|]. intros Ht k Hk Hkm. destruct (decide (k = off)) as [->|Hne]; [done|].
  apply (Hb Ht); [|done]. split; [|lia].
  pose proof (Z.div_mod k page ltac:(lia)). pose proof (Z.div_mod off page ltac:(lia)).
  assert (off / page < k / page) by nia. nia.
Qed.

(** The pages of a verified mapping follow each other. *)
Lemma verified_pages addr len k :
  verify_contiguous_mapping addr len = Done true -> 0 <= addr -> addr + len <= 2 ^ 64 -> len + page < 2 ^ 64 ->
  vtop addr + len <= 2 ^ 64 -> 0 <= k < len -> k mod page = 0 -> vtop addr <> 0 /\ vtop (addr + k) = vtop addr + k.
Proof using Hpage.
  pose proof page_pos as Hp1. intros Ev Ha0 Ha1 Hsz Hf Hk Hkm. unfold verify_contiguous_mapping in Ev.
  destruct (_ =? 0) eqn:E0; zb; [done|]. split; [done|]. destruct (decide (k = 0)) as [->|Hk0]; [by rewrite !Z.add_0_r|].
  destruct (verify_loop_spec (Z.to_nat len) addr (vtop addr) page len) as (b & Eb & Hb);
    [lia|apply Z.mod_same; lia|lia|lia|].
  rewrite Eb in Ev. injection Ev as ->. pose proof (vtop_nonneg addr).
  pose proof (Z.div_mod k page ltac:(lia)). assert (0 < k / page) by nia.
  specialize (Hb eq_refl k ltac:(nia) Hkm).
  by rewrite !u64_small in Hb by lia.
Qed.

(** A buffer from the DMA heap is physically contiguous: every byte of it,
    not only the first of each page, has the device address of the buffer plus
    its offset.  The length is the request rounded up to whole pages. *)
Theorem dma_buffer_contiguous os len fpga addr sz calls off :
  try_dma_heap_malloc os len = (Done (fpga, addr, sz), calls) ->
  addr mod page = 0 -> 0 <= addr -> addr + sz <= 2 ^ 64 -> sz + page < 2 ^ 64 -> fpga + sz <= 2 ^ 64 -> 0 <= off < sz ->
  sz = page_align len /\ vtop (addr + off) = fpga + off.
Proof using Hpage.
  pose proof page_pos as Hp1. unfold try_dma_heap_malloc. intros H Ham Ha0 Ha1 Hsz Hf Hoff.
  destruct (_ <? 0); [done|]. destruct (negb _); [done|]. destruct (dma_addr os) as [a|]; [|done].
  destruct (verify_contiguous_mapping a (page_align len)) as [[]| | | |] eqn:Ev; try done.
  injection H as <- <- <- <-. split; [done|]. pose proof (Z.mod_pos_bound off page ltac:(lia)) as Hr.
  pose proof (Z.div_mod off page ltac:(lia)) as Hd. set (r := off mod page) in *.
  assert (page * (off / page) mod page = 0) as Hk by (rewrite Z.mul_comm; apply Z.mod_mul; lia).
  assert (0 <= page * (off / page)) by (pose proof (Z.div_pos off page); nia).
  destruct (verified_pages a (page_align len) (page * (off / page)) Ev) as [Hnz E]; try done; [lia|].
  replace (a + off) with (a + page * (off / page) + r) by lia. rewrite vtop_offset; [lia| |lia|].
  - rewrite Z.add_mod, Ham, Hk by lia. by rewrite Z.mod_0_l by lia.
  - rewrite E. pose proof (vtop_nonneg a). lia.
Qed.

(** [page_align] is the least multiple of the page that is not below. *)
Lemma page_align_spec len :
  0 <= len -> len + page <= 2 ^ 64 ->
  page_align len mod page = 0 /\ len <= page_align len < len + page.
Proof using Hpage.
  intros H0 H1. pose proof page_pos. unfold page_align. rewrite u64_small by lia. destruct Hpage as (k & Hk & Hp).
  assert (page - 1 = Z.ones k) as -> by (rewrite Z.ones_equiv; lia).
  rewrite Z.ldiff_ones_r, Z.shiftr_div_pow2, Z.shiftl_mul_pow2, <- Hp by lia. split; [apply Z.mod_mul; lia|].
  pose proof (Z.div_mod (len + page - 1) page ltac:(lia)). pose proof (Z.mod_pos_bound (len + page - 1) page ltac:(lia)). lia.
Qed.

Lemma verify_returns addr len : len + page < 2 ^ 64 -> exists b, verify_contiguous_mapping addr len = Done b.
Proof using Hpage.
  intros Hl. pose proof page_pos. unfold verify_contiguous_mapping. destruct (_ =? 0); [by exists false|].
  destruct (verify_loop_spec (Z.to_nat len) addr (vtop addr) page len) as (b & -> & _);
    [lia|apply Z.mod_same; lia|lia|lia|eauto].
Qed.

(** Nothing is leaked: whatever the system answers, the heap that was opened and
    the buffer it gave are closed, and a mapping that is not returned is undone. *)
Lemma dma_heap_releases os len :
  page_align len + page < 2 ^ 64 -> 0 <= heap_fd os ->
  let r := try_dma_heap_malloc os len in
  Close (heap_fd os) ∈ r.2 /\
  (alloc_ok os = true -> Close (alloc_fd os) ∈ r.2 /\
   forall a, dma_addr os = Some a -> r.1 = Done (vtop a, a, page_align len) \/ Munmap a (page_align len) ∈ r.2).
Proof using Hpage.
  intros Hl Hh. unfold try_dma_heap_malloc. destruct (_ <? 0) eqn:E; zb; [lia|].
  destruct (alloc_ok os); cbn [negb]; [|by split; [constructor|]].
  destruct (dma_addr os) as [a|]; [|by cbn; split; [constructor|]; split; [by repeat constructor|]].
  destruct (verify_returns a _ Hl) as (b & ->).
  destruct b; cbn; (split; [by repeat constructor|]); intros _; (split; [by repeat constructor|]); intros ? [= <-];
    [by left|right; by repeat constructor].
Qed.

(** The sizes of the fallback. *)
Definition map_sizes : list Z := [2 ^ 12; 2 ^ 21; 2 ^ 25; 2 ^ 30].

Lemma anonymous_malloc_spec os len :
  match anonymous_malloc os len with
  | Done (_, _, sz) => len <= sz /\ sz ∈ map_sizes /\ forall s, s ∈ map_sizes -> len <= s -> sz <= s
  | o => o = Throw
  end.
Proof using Type.
  clear Hpage. unfold anonymous_malloc, map_sizes. cbn [fit zynq_huge_page_sizes].
  repeat match goal with |- context [len <=? ?s] => destruct (len <=? s) eqn:?; zb end; try done;
    destruct (map_addr os); try done; destruct (mlock_ok os); try done;
    (split; [lia|]); (split; [by repeat constructor|]); intros s Hs; rewrite !elem_of_cons, elem_of_nil in Hs; lia.
Qed.

Lemma try_dma_heap_malloc_spec os len :
  0 <= len -> page_align len + page < 2 ^ 64 -> len + page <= 2 ^ 64 ->
  match (try_dma_heap_malloc os len).1 with
  | Done (_, _, sz) => len <= sz /\ sz = page_align len
  | o => o = Throw
  end.
Proof using Hpage.
  intros H0 Hl H1. destruct (page_align_spec len H0 H1) as [_ Hp]. unfold try_dma_heap_malloc.
  destruct (_ <? 0); [done|]. destruct (negb _); [done|]. destruct (dma_addr os) as [a|]; [|done].
  destruct (verify_returns a _ Hl) as (b & ->). destruct b; [|done]. cbn. split; [lia|done].
Qed.

(** [malloc] on silicon gives at least what was asked for: whole pages from
    the DMA heap, else the smallest of the four mapping sizes that fits.  In all
    other cases it throws. *)
Theorem zynq_malloc_size dma os len :
  0 <= len -> page_align len + page < 2 ^ 64 -> len + page <= 2 ^ 64 ->
  match (zynq_malloc dma os len).1 with
  | Done (_, _, sz) =>
      len <= sz /\ (sz = page_align len \/ (sz ∈ map_sizes /\ forall s, s ∈ map_sizes -> len <= s -> sz <= s))
  | o => o = Throw
  end.
Proof using Hpage.
  intros H0 Hl H1. pose proof (try_dma_heap_malloc_spec dma len H0 Hl H1) as Ht. pose proof (anonymous_malloc_spec os len) as Ha.
  unfold zynq_malloc. destruct (try_dma_heap_malloc dma len) as [[[[f a] sz]| | | |] c]; cbn in *; try done.
  - split; [lia|]. left; apply Ht.
  - destruct (anonymous_malloc os len) as [[[f a] sz]| | | |]; try done. destruct Ha as (? & ? & ?). split; [lia|]. by right.
Qed.

End Zynq.

(** A page of 4 KiB; page frames follow the virtual pages from 16 on. *)
Definition demo_pagemap (i : Z) : option Z := if i <? 16 then None else Some (2 ^ 63 + (i + 1000)).
Definition demo_dma : dma_os := mk_dma_os 3 true 4 (Some 65536).

Lemma demo_page : exists k, 0 <= k < 64 /\ 4096 = 2 ^ k.
Proof. exists 12. split; [lia|reflexivity]. Qed.

Lemma dma_buffer_contiguous_witness :
  try_dma_heap_malloc 4096 demo_pagemap demo_dma 10000 = (Done (1016 * 4096, 65536, 12288), [Close 3; Close 4]) /\
  (12288 = page_align 4096 10000 /\ vtop 4096 demo_pagemap (65536 + 9000) = 1016 * 4096 + 9000).
Proof.
  assert (try_dma_heap_malloc 4096 demo_pagemap demo_dma 10000 = (Done (1016 * 4096, 65536, 12288), [Close 3; Close 4])) as E
    by (vm_compute; reflexivity).
  split; [exact E|].
  apply (dma_buffer_contiguous 4096 demo_pagemap demo_page demo_dma 10000 (1016 * 4096) 65536 12288 [Close 3; Close 4] 9000 E); lia || reflexivity.
Defined.

Lemma zynq_malloc_size_witness :
  (zynq_malloc 4096 demo_pagemap (mk_dma_os (-1) true 0 None) (mk_map_os (Some 65536) true) 3000000).1 =
    Done (1016 * 4096, 65536, 2 ^ 25) /\
  match (zynq_malloc 4096 demo_pagemap (mk_dma_os (-1) true 0 None) (mk_map_os (Some 65536) true) 3000000).1 with
  | Done (_, _, sz) =>
      3000000 <= sz /\ (sz = page_align 4096 3000000 \/ (sz ∈ map_sizes /\ forall s, s ∈ map_sizes -> 3000000 <= s -> sz <= s))
  | o => o = Throw
  end.
Proof.
  split; [vm_compute; reflexivity|].
  apply (zynq_malloc_size 4096 demo_pagemap demo_page); [lia|vm_compute; reflexivity|lia].
Defined.

(** ** Cache maintenance *)

Definition ARM_CACHE_LINE_SIZE : Z := 64.

(** The addresses of the [dc civac] instructions of [arm_dcache_flush] and
    [arm_dcache_invalidate]. *)
Definition maintained (addr size : Z) : list Z :=
  map (fun i => addr + ARM_CACHE_LINE_SIZE * i) (zrange 0 (Z.to_nat ((size + 63) / ARM_CACHE_LINE_SIZE))).

(** The line a byte is in. *)
Definition line (b : Z) : Z := b / ARM_CACHE_LINE_SIZE.

Definition arm_dcache_flush (enabled : bool) (addr size : Z) : list Z := if enabled then maintained addr size else [].
Definition arm_dcache_invalidate (enabled : bool) (addr size : Z) : list Z := if enabled then maintained addr size else [].

Lemma maintained_lines addr size n :
  0 <= size -> n ∈ map line (maintained addr size) <-> line addr <= n < line addr + (size + 63) / 64.
Proof.
  intros Hs. unfold maintained, line, ARM_CACHE_LINE_SIZE. pose proof (Z.div_pos (size + 63) 64 ltac:(lia) ltac:(lia)).
  rewrite map_map, list_elem_of_fmap. split.
  - intros (i & -> & Hi%elem_of_zrange). rewrite (Z.mul_comm 64), Z.div_add by lia. lia.
  - intros Hn. exists (n - addr / 64). rewrite elem_of_zrange, (Z.mul_comm 64), Z.div_add by lia. lia.
Qed.

(** Cache maintenance reaches every line of a buffer exactly when the start
    and the last byte, counted from the start of their lines, fit into one line;
    in particular for every buffer that starts at a line.  For others the last
    line is left out. *)
Theorem cache_maintenance_covers_iff addr size :
  0 < size ->
  (forall b, addr <= b < addr + size -> line b ∈ map line (arm_dcache_flush true addr size)) <->
  addr mod 64 + (size - 1) mod 64 < 64.
Proof.
  intros Hs. cbn [arm_dcache_flush]. pose proof (Z.div_mod addr 64 ltac:(lia)) as Ha.
  pose proof (Z.mod_pos_bound addr 64 ltac:(lia)). pose proof (Z.div_mod (size - 1) 64 ltac:(lia)) as Hq.
  pose proof (Z.mod_pos_bound (size - 1) 64 ltac:(lia)).
  assert ((size + 63) / 64 = (size - 1) / 64 + 1) as Hc.
  { replace (size + 63) with (size - 1 + 1 * 64) by lia. by rewrite Z.div_add by lia. }
  split.
  - intros Hall. specialize (Hall (addr + size - 1) ltac:(lia)). rewrite maintained_lines in Hall by lia.
    unfold line, ARM_CACHE_LINE_SIZE in Hall. pose proof (Z.div_mod (addr + size - 1) 64 ltac:(lia)).
    pose proof (Z.mod_pos_bound (addr + size - 1) 64 ltac:(lia)). lia.
  - intros Hf b Hb. rewrite maintained_lines by lia. unfold line, ARM_CACHE_LINE_SIZE.
    pose proof (Z.div_mod b 64 ltac:(lia)). pose proof (Z.mod_pos_bound b 64 ltac:(lia)). lia.
Qed.

Lemma cache_maintenance_covers_iff_witness :
  (forall b, 4096 <= b < 4096 + 100 -> line b ∈ map line (arm_dcache_flush true 4096 100)) <->
  4096 mod 64 + (100 - 1) mod 64 < 64.
Proof. apply (cache_maintenance_covers_iff 4096 100). lia. Defined.

(** [copy_to_fpga] and [copy_from_fpga] on silicon. *)
Definition zynq_copy_to_fpga (enabled : bool) (p : remote) : list Z := arm_dcache_flush enabled p.1.2 p.2.
Definition zynq_copy_from_fpga (enabled : bool) (p : remote) : list Z := arm_dcache_invalidate enabled p.1.2 p.2.

(** ** What a handle remembers of its buffers *)

(** [device2virtual]: descriptor, address, length and file of a mapping.  The
    length is an [int]. *)
Definition mapping := (Z * Z * Z * string)%type.

Definition remember (fpga fd ptr len : Z) (fname : string) (m : gmap Z mapping) : gmap Z mapping :=
  <[fpga := (fd, ptr, s32 len, fname)]> m.

(** The loop of the destructor, for the entries in the order of the map. *)
Definition forget_all (m : list (Z * mapping)) : list os_call :=
  m ≫= (fun e => let '(fd, ptr, len, fname) := e.2 in [Munmap ptr (u64 len); ShmUnlink fname]).

Lemma forget_small fpga fd ptr len fname :
  0 <= len < 2 ^ 31 ->
  forget_all (map_to_list (remember fpga fd ptr len fname ∅)) = [Munmap ptr len; ShmUnlink fname].
Proof.
  intros Hl. unfold remember, forget_all. rewrite insert_empty, map_to_list_singleton. cbn.
  rewrite s32_small, u64_small by lia. done.
Qed.

(** A buffer of 2 GiB is not unmapped when its handle is destroyed: the
    length was stored in an [int], and [munmap] is asked for 2^64 - 2^31 bytes. *)
Theorem large_mapping_not_forgotten fpga fd ptr fname :
  forget_all (map_to_list (remember fpga fd ptr (2 ^ 31) fname ∅)) = [Munmap ptr (2 ^ 64 - 2 ^ 31); ShmUnlink fname].
Proof. unfold remember, forget_all. by rewrite insert_empty, map_to_list_singleton. Qed.

End Handle.
