(* ===== verification/Mmio.v ===== *)
(** * Commands and responses over device registers

    Where there is hardware, commands and responses pass through four
    memory-mapped registers: the command thread of the daemon on a card
    ([runtime/src/core/cmd_server.cc], the [FPGA] build), its response poller
    ([runtime/src/fpga/response_poller.cc]), and a program without an operating
    system ([rocc_cmd::send] of [libbeethoven/src/rocc_cmd.cc], the [BAREMETAL]
    build, and [libbeethoven/src/fpga_handle_impl/fpga_handle_baremetal.cc]).

    The device is a class: what [peek_mmio] and [poke_mmio] do to it, and the
    laws of its command and response queues. *)

From S2P Require Import Prelude RoccCmd.

Module Mmio.
Import Rocc.

(** The registers, from the header generated with the hardware. *)
Record regs := mk_regs { CMD_BITS : Z; CMD_VALID : Z; CMD_READY : Z; RESP_BITS : Z; RESP_VALID : Z; RESP_READY : Z }.

Class Mmio (D : Type) := {
  peek_mmio : D -> Z -> D * Z;
  poke_mmio : D -> Z -> Z -> D
}.

(** [inbox] are the response words still to come and [avail] how many of them
    can be read now; [outbox] what was written to the command registers.  A
    device that says it is not ready does so finitely often ([patience]). *)
Class MmioLaws (D : Type) `{Mmio D} (R : regs) := {
  inbox : D -> list Z;
  avail : D -> nat;
  outbox : D -> list (Z * Z);
  patience : D -> nat;
  avail_inbox d : (avail d <= length (inbox d))%nat;
  peek_cmd d : let r := peek_mmio d (CMD_READY R) in
    inbox r.1 = inbox d /\ outbox r.1 = outbox d /\ (r.2 = 0 -> (patience r.1 < patience d)%nat);
  peek_valid d : inbox d <> [] -> let r := peek_mmio d (RESP_VALID R) in
    inbox r.1 = inbox d /\ outbox r.1 = outbox d /\
    (r.2 = 0 -> (patience r.1 < patience d)%nat) /\ (r.2 <> 0 -> (0 < avail r.1)%nat);
  peek_bits d w q : inbox d = w :: q -> (0 < avail d)%nat -> let r := peek_mmio d (RESP_BITS R) in
    r.2 = w /\ inbox r.1 = inbox d /\ avail r.1 = avail d /\ outbox r.1 = outbox d;
  poke_ready d w q : inbox d = w :: q -> (0 < avail d)%nat -> let d' := poke_mmio d (RESP_READY R) 1 in
    inbox d' = q /\ S (avail d') = avail d /\ outbox d' = outbox d;
  poke_bits d v : let d' := poke_mmio d (CMD_BITS R) v in
    inbox d' = inbox d /\ outbox d' = outbox d ++ [(CMD_BITS R, v)];
  poke_valid d v : let d' := poke_mmio d (CMD_VALID R) v in
    inbox d' = inbox d /\ outbox d' = outbox d ++ [(CMD_VALID R, v)]
}.

Section Access.
Context {D : Type} `{Mmio D} (R : regs).

(** [while (!peek_mmio(reg)) {}]. *)
Fixpoint wait_for (fuel : nat) (reg : Z) (d : D) : outcome D :=
  match fuel with
  | O => Stuck
  | S fuel' => let r := peek_mmio d reg in if r.2 =? 0 then wait_for fuel' reg r.1 else Done r.1
  end.

(** The beats of a command. *)
Fixpoint send_beats (fuel : nat) (ws : list Z) (d : D) : outcome D :=
  match ws with
  | [] => Done d
  | w :: ws' =>
      d1 ← wait_for fuel (CMD_READY R) d;
      send_beats fuel ws' (poke_mmio (poke_mmio d1 (CMD_BITS R) w) (CMD_VALID R) 1)
  end.

(** The command part of [cmd_server_f] on a card. *)
Definition deliver_command (fuel : nat) (info : beethoven_pack_info) (c : rocc_cmd) (d : D) : outcome D :=
  ws ← pack false info c 255; send_beats fuel ws d.

(** One word of [poll_thread], and the whole response. *)
Definition poll_word (fuel : nat) (d : D) : outcome (Z * D) :=
  d1 ← wait_for fuel (RESP_VALID R) d;
  let r := peek_mmio d1 (RESP_BITS R) in
  Done (r.2, poke_mmio r.1 (RESP_READY R) 1).

Definition poll_response (fuel : nat) (info : beethoven_pack_info) (d : D) : outcome (rocc_response * D) :=
  w0 ← poll_word fuel d; w1 ← poll_word fuel w0.2; w2 ← poll_word fuel w1.2;
  Done (decode_response w0.1 w1.1 w2.1 info, w2.2).

(** ** A program without an operating system *)

Record bare := mk_bare {
  actives : Z;                  (* uint32_t *)
  valid_resps : Z;              (* uint32_t *)
  resps : list rocc_response;   (* 32 of them *)
  dev : D
}.

(** [__builtin_ffs]. *)
Definition ffs (x : Z) : Z :=
  match filter (fun i => Z.testbit x i = true) (zrange 0 32) with
  | [] => 0
  | i :: _ => i + 1
  end.

(** [rocc_cmd::send]: the handle is the value.  When the first free bit is the
    last one, the code waits on a response getter with the id 255, which shifts
    by 255; when there is none, it shifts by -1. *)
Definition bare_send (fuel : nat) (info : beethoven_pack_info) (c : rocc_cmd) (s : bare) : outcome (Z * bare) :=
  '(id, act) ← (if xd c =? 0 then Done (255, actives s)
                else
                  let id := ffs (Z.lor (u32 (Z.lnot (actives s))) (u32 (Z.lnot (valid_resps s)))) in
                  if (id =? 32) || (id =? 0) then Undef
                  else Done (id, Z.lor (actives s) (Z.shiftl 1 (id - 1))));
  ws ← pack true info c id;
  d ← send_beats fuel ws (dev s);
  Done (id, mk_bare act (valid_resps s) (resps s) d).

(** The three words, read without looking at [RESP_VALID] in between. *)
Definition read_word (d : D) : Z * D := let r := peek_mmio d (RESP_BITS R) in (r.2, poke_mmio r.1 (RESP_READY R) 1).

(** [response_getter::get_help], up to its call of [get]; [None] is that call. *)
Definition get_step (fuel : nat) (info : beethoven_pack_info) (block : bool) (id : Z) (s : bare)
    : outcome (option (option rocc_response) * bare) :=
  if 32 <=? id then Undef
  else
    let flag := Z.shiftl 1 id in
    if Z.land (valid_resps s) flag =? flag then
      r ← vget (resps s) id;
      Done (Some (Some r), mk_bare (Z.lxor (actives s) flag) (Z.lxor (valid_resps s) flag) (resps s) (dev s))
    else
      w ← (if block then d ← wait_for fuel (RESP_VALID R) (dev s); Done (Some d)
           else let r := peek_mmio (dev s) (RESP_VALID R) in Done (if r.2 =? 0 then None else Some r.1));
      match w with
      | None => Done (Some None, mk_bare (actives s) (valid_resps s) (resps s) (peek_mmio (dev s) (RESP_VALID R)).1)
      | Some d =>
          let '(w0, d0) := read_word d in
          let '(w1, d1) := read_word d0 in
          let '(w2, d2) := read_word d1 in
          let r := decode_response w0 w1 w2 info in
          if id =? resp_rd r then Done (Some (Some r), mk_bare (Z.lxor (actives s) flag) (valid_resps s) (resps s) d2)
          else
            rs ← vset (resps s) (resp_rd r) r;
            Done (None, mk_bare (actives s) (Z.lor (valid_resps s) flag) rs d2)
      end.

(** [get_help]: after its own response was marked as there, [get] finds it. *)
Definition get_help (fuel : nat) (info : beethoven_pack_info) (block : bool) (id : Z) (s : bare)
    : outcome (option rocc_response * bare) :=
  '(o, s1) ← get_step fuel info block id s;
  match o with
  | Some r => Done (r, s1)
  | None =>
      '(o2, s2) ← get_step fuel info true id s1;
      match o2 with Some r => Done (r, s2) | None => Stuck end
  end.

(** [response_getter::get] and [try_get]. *)
Definition bare_get (fuel : nat) (info : beethoven_pack_info) (id : Z) (s : bare) : outcome (rocc_response * bare) :=
  '(o, s1) ← get_help fuel info true id s;
  match o with Some r => Done (r, s1) | None => Throw end.
Definition bare_try_get (fuel : nat) (info : beethoven_pack_info) (id : Z) (s : bare) : outcome (option rocc_response * bare) :=
  get_help fuel info false id s.

(** ** What the registers see *)

Context `{!MmioLaws D R}.

Lemma wait_cmd n : forall d, (patience d < n)%nat ->
  exists d', wait_for n (CMD_READY R) d = Done d' /\ inbox d' = inbox d /\ outbox d' = outbox d.
Proof.
  induction n as [|n IH]; intros d Hn; [lia|]. cbn [wait_for]. destruct (peek_cmd d) as (Hi & Ho & Hp). cbv zeta.
  destruct (_ =? 0) eqn:E; zb; [|eauto]. destruct (IH (peek_mmio d (CMD_READY R)).1) as (d' & -> & Hi' & Ho'); [specialize (Hp E); lia|].
  exists d'. split_and!; [done|congruence..].
Qed.

Lemma wait_more n m reg d d' : (n <= m)%nat -> wait_for n reg d = Done d' -> wait_for m reg d = Done d'.
Proof.
  revert m d. induction n as [|n IH]; intros m d Hm; [done|]. destruct m as [|m]; [lia|]. cbn [wait_for].
  destruct (_ =? 0); [|done]. apply IH. lia.
Qed.

(** The writes of a list of beats. *)
Definition beats (ws : list Z) : list (Z * Z) := ws ≫= (fun w => [(CMD_BITS R, w); (CMD_VALID R, 1)]).

Lemma send_beats_spec ws : forall d,
  exists n d', (forall m, (n <= m)%nat -> send_beats m ws d = Done d') /\ inbox d' = inbox d /\
    outbox d' = outbox d ++ beats ws.
Proof.
  induction ws as [|w ws IH]; intros d.
  - exists 0%nat, d. split_and!; [done|done|]. cbn. by rewrite app_nil_r.
  - destruct (wait_cmd (S (patience d)) d) as (d1 & Hw & Hi1 & Ho1); [lia|].
    set (d2 := poke_mmio (poke_mmio d1 (CMD_BITS R) w) (CMD_VALID R) 1). destruct (IH d2) as (n & d' & Hs & Hi & Ho).
    exists (Nat.max (S (patience d)) n), d'. destruct (poke_bits d1 w) as [Hi2 Ho2].
    destruct (poke_valid (poke_mmio d1 (CMD_BITS R) w) 1) as [Hi3 Ho3]. split_and!.
    + intros m Hm. cbn [send_beats]. rewrite (wait_more (S (patience d)) m _ _ d1) by (lia || done).
      cbn [mbind outcome_bind]. apply Hs. lia.
    + unfold d2 in Hi. congruence.
    + rewrite Ho. unfold d2. rewrite Ho3, Ho2, Ho1. cbn. by rewrite <- !app_assoc.
Qed.

(** A command that passes the range checks reaches the hardware: with a
    device that is busy finitely often, the command thread returns, and it has
    written the five packed words, each as a bits/valid pair, and nothing else. *)
Theorem command_delivered info c ws d :
  pack false info c 255 = Done ws ->
  exists n d', (forall m, (n <= m)%nat -> deliver_command m info c d = Done d') /\
    outbox d' = outbox d ++ beats ws /\ inbox d' = inbox d.
Proof.
  intros Hp. destruct (send_beats_spec ws d) as (n & d' & Hs & Hi & Ho). exists n, d'. split_and!; try done.
  intros m Hm. unfold deliver_command. rewrite Hp. by apply Hs.
Qed.

Lemma wait_resp n : forall d, (patience d < n)%nat -> inbox d <> [] ->
  exists d', wait_for n (RESP_VALID R) d = Done d' /\ inbox d' = inbox d /\ outbox d' = outbox d /\ (0 < avail d')%nat.
Proof.
  induction n as [|n IH]; intros d Hn Hne; [lia|]. cbn [wait_for]. destruct (peek_valid d Hne) as (Hi & Ho & Hp & Ha). cbv zeta.
  destruct (_ =? 0) eqn:E; zb; [|eauto 6]. destruct (IH (peek_mmio d (RESP_VALID R)).1) as (d' & -> & Hi' & Ho' & Ha').
  - specialize (Hp E). lia.
  - by rewrite Hi.
  - exists d'. split_and!; [done|congruence..|done].
Qed.

Lemma poll_word_spec d w q : inbox d = w :: q ->
  exists n d', (forall m, (n <= m)%nat -> poll_word m d = Done (w, d')) /\ inbox d' = q /\ outbox d' = outbox d.
Proof.
  intros Hi. destruct (wait_resp (S (patience d)) d) as (d1 & Hw & Hi1 & Ho1 & Ha1); [lia|by rewrite Hi|].
  rewrite Hi in Hi1. destruct (peek_bits d1 w q Hi1 Ha1) as (Hv & Hi2 & Ha2 & Ho2).
  destruct (poke_ready (peek_mmio d1 (RESP_BITS R)).1 w q) as (Hi3 & _ & Ho3); [congruence|lia|].
  exists (S (patience d)), (poke_mmio (peek_mmio d1 (RESP_BITS R)).1 (RESP_READY R) 1). split_and!; [|done|congruence].
  intros m Hm. unfold poll_word. rewrite (wait_more _ _ _ _ _ Hm Hw). cbn [mbind outcome_bind]. by rewrite Hv.
Qed.

(** The response poller hands on what the hardware sent: the next three words
    of the response queue, decoded, are registered, and nothing is skipped or
    read twice. *)
Theorem response_polled info d w0 w1 w2 q :
  inbox d = w0 :: w1 :: w2 :: q ->
  exists n d', (forall m, (n <= m)%nat -> poll_response m info d = Done (decode_response w0 w1 w2 info, d')) /\
    inbox d' = q /\ outbox d' = outbox d.
Proof.
  intros Hi. destruct (poll_word_spec d w0 _ Hi) as (n0 & d0 & H0 & Hi0 & Ho0).
  destruct (poll_word_spec d0 w1 _ Hi0) as (n1 & d1 & H1 & Hi1 & Ho1).
  destruct (poll_word_spec d1 w2 _ Hi1) as (n2 & d2 & H2 & Hi2 & Ho2).
  exists (Nat.max n0 (Nat.max n1 n2)), d2. split_and!; [|done|congruence]. intros m Hm. unfold poll_response.
  rewrite H0 by lia. cbn [mbind outcome_bind fst snd]. rewrite H1 by lia. cbn [mbind outcome_bind fst snd].
  rewrite H2 by lia. done.
Qed.

(** *** Without an operating system *)

(** A response is presented whole: at the start of one, its three words can be
    read. *)
Hypothesis whole : forall d, (0 < avail d)%nat -> (length (inbox d) mod 3 = 0)%nat -> (3 <= avail d)%nat.

Lemma read_word_spec d w q : inbox d = w :: q -> (0 < avail d)%nat ->
  exists d', read_word d = (w, d') /\ inbox d' = q /\ S (avail d') = avail d /\ outbox d' = outbox d.
Proof.
  intros Hi Ha. unfold read_word. destruct (peek_bits d w q Hi Ha) as (Hv & Hi2 & Ha2 & Ho2). cbv zeta. rewrite Hv.
  destruct (poke_ready (peek_mmio d (RESP_BITS R)).1 w q) as (Hi3 & Ha3 & Ho3); [congruence|lia|].
  eexists. split_and!; [reflexivity|done|lia|congruence].
Qed.

(** A blocking read of a response. *)
Lemma get_step_read info id s w0 w1 w2 q :
  0 <= id < 32 -> Z.land (valid_resps s) (Z.shiftl 1 id) <> Z.shiftl 1 id ->
  inbox (dev s) = w0 :: w1 :: w2 :: q -> (length q mod 3 = 0)%nat ->
  let r := decode_response w0 w1 w2 info in
  exists n d, inbox d = q /\ outbox d = outbox (dev s) /\ forall m, (n <= m)%nat ->
    get_step m info true id s =
      if id =? resp_rd r then Done (Some (Some r), mk_bare (Z.lxor (actives s) (Z.shiftl 1 id)) (valid_resps s) (resps s) d)
      else rs ← vset (resps s) (resp_rd r) r;
           Done (None, mk_bare (actives s) (Z.lor (valid_resps s) (Z.shiftl 1 id)) rs d).
Proof using whole.
  intros Hid Hv Hi Hq r. destruct (wait_resp (S (patience (dev s))) (dev s)) as (d & Hw & Hi1 & Ho1 & Ha1); [lia|by rewrite Hi|].
  rewrite Hi in Hi1. assert (3 <= avail d)%nat as Ha.
  { apply whole; [done|]. rewrite Hi1. cbn [length]. change (S (S (S (length q)))) with (3 + length q)%nat.
    rewrite Nat.Div0.add_mod, Hq. done. }
  destruct (read_word_spec d w0 _ Hi1) as (d0 & R0 & Hi2 & Ha2 & Ho2); [lia|].
  destruct (read_word_spec d0 w1 _ Hi2) as (d1 & R1 & Hi3 & Ha3 & Ho3); [lia|].
  destruct (read_word_spec d1 w2 _ Hi3) as (d2 & R2 & Hi4 & Ha4 & Ho4); [lia|].
  exists (S (patience (dev s))), d2. split_and!; [done|congruence|]. intros m Hm. unfold get_step.
  destruct (32 <=? id) eqn:E1; zb; [lia|]. destruct (_ =? Z.shiftl 1 id) eqn:E2; zb; [done|].
  rewrite (wait_more _ _ _ _ _ Hm Hw). cbn [mbind outcome_bind]. rewrite R0, R1, R2. done.
Qed.

Lemma land_lor_same a b : Z.land (Z.lor a b) b = b.
Proof. apply Z.bits_inj'. intros n _. rewrite Z.land_spec, Z.lor_spec. by destruct (Z.testbit a n), (Z.testbit b n). Qed.

Lemma ffs_odd x : Z.testbit x 0 = true -> ffs x = 1.
Proof. intros Hx. unfold ffs. change (zrange 0 32) with (0 :: zrange 1 31). by rewrite filter_cons_True. Qed.

(** One command at a time works: as long as no response was left behind, a
    command that expects a response is sent under the id 1, and when the hardware
    answers it under this id, [get] returns the answer, and again no response is
    left behind. *)
Theorem one_command_at_a_time info c s w0 w1 w2 q :
  xd c <> 0 -> valid_resps s = 0 -> inbox (dev s) = w0 :: w1 :: w2 :: q -> (length q mod 3 = 0)%nat ->
  resp_rd (decode_response w0 w1 w2 info) = 1 ->
  exists n s', (forall m, (n <= m)%nat ->
    ('(id, s1) ← bare_send m info c s; bare_get m info id s1) = Done (decode_response w0 w1 w2 info, s')) /\
    valid_resps s' = 0 /\ inbox (dev s') = q /\ outbox (dev s') = outbox (dev s) ++ beats (pack_words c 1).
Proof using whole.
  intros Hx Hv Hi Hq Hr. destruct (send_beats_spec (pack_words c 1) (dev s)) as (n & d & Hs & Hid & Hod).
  set (s1 := mk_bare (Z.lor (actives s) 1) 0 (resps s) d).
  destruct (get_step_read info 1 s1 w0 w1 w2 q) as (n' & d' & Hi' & Ho' & Hg); [lia|done|cbn; congruence|done|].
  exists (Nat.max n n'), (mk_bare (Z.lxor (Z.lor (actives s) 1) (Z.shiftl 1 1)) 0 (resps s) d').
  split; [|split_and!; [reflexivity|exact Hi'|cbn [dev s1] in *; congruence]].
  intros m Hm. unfold bare_send. destruct (xd c =? 0) eqn:E; zb; [done|]. rewrite Hv, ffs_odd.
  2: { rewrite Z.lor_spec, orb_true_iff. by right. }
  cbn [Z.eqb orb mbind outcome_bind pack Pos.eqb]. rewrite Hs by lia. cbn [mbind outcome_bind].
  change (Z.lor (actives s) (Z.shiftl 1 (1 - 1))) with (Z.lor (actives s) 1). fold s1.
  unfold bare_get, get_help. rewrite Hg, Hr by lia. reflexivity.
Qed.

(** Two commands under way have the same id: the mask of free ids is the
    union of the ids that are not in use and of those without a response, so an
    id in use is free until its response was put aside. *)
Theorem outstanding_share_id info c1 c2 s :
  xd c1 <> 0 -> xd c2 <> 0 -> valid_resps s = 0 ->
  exists n s', forall m, (n <= m)%nat ->
    ('(id1, s1) ← bare_send m info c1 s; '(id2, s2) ← bare_send m info c2 s1; Done (id1, id2, s2)) = Done (1, 1, s').
Proof using MmioLaws0.
  clear whole. intros Hx1 Hx2 Hv. assert (forall c s, xd c <> 0 -> valid_resps s = 0 -> exists n s', valid_resps s' = 0 /\
    forall m, (n <= m)%nat -> bare_send m info c s = Done (1, s')) as H1.
  { clear c1 c2 s Hx1 Hx2 Hv. intros c s Hx Hv. destruct (send_beats_spec (pack_words c 1) (dev s)) as (n & d & Hs & _).
    exists n, (mk_bare (Z.lor (actives s) 1) 0 (resps s) d). split; [done|]. intros m Hm. unfold bare_send.
    destruct (xd c =? 0) eqn:E; zb; [done|]. rewrite Hv, ffs_odd.
    2: { rewrite Z.lor_spec, orb_true_iff. by right. }
    cbn [Z.eqb orb mbind outcome_bind pack Pos.eqb]. by rewrite Hs by lia. }
  destruct (H1 c1 s Hx1 Hv) as (n1 & s1 & Hv1 & E1). destruct (H1 c2 s1 Hx2 Hv1) as (n2 & s2 & _ & E2).
  exists (Nat.max n1 n2), s2. intros m Hm. rewrite E1 by lia. cbn [mbind outcome_bind]. by rewrite E2 by lia.
Qed.

(** A response for another id is mistaken for one's own: it is stored under
    its id, but the id of the waiter is marked, and [get] returns whatever was
    stored for the waiter before. *)
Theorem foreign_response_answers_waiter info id s w0 w1 w2 q old :
  0 <= id < 32 -> Z.land (valid_resps s) (Z.shiftl 1 id) <> Z.shiftl 1 id ->
  inbox (dev s) = w0 :: w1 :: w2 :: q -> (length q mod 3 = 0)%nat -> length (resps s) = 32%nat ->
  resp_rd (decode_response w0 w1 w2 info) <> id -> zlookup (resps s) id = Some old ->
  exists n s', forall m, (n <= m)%nat -> bare_get m info id s = Done (old, s').
Proof using whole.
  intros Hid Hv Hi Hq Hlen Hne Hold. set (r := decode_response w0 w1 w2 info) in *.
  destruct (get_step_read info id s w0 w1 w2 q Hid Hv Hi Hq) as (n & d & _ & _ & Hg). fold r in Hg.
  assert (0 <= resp_rd r < 32) as Hrd.
  { unfold r, decode_response. cbn [resp_rd]. rewrite land_31. apply Z.mod_pos_bound. lia. }
  eexists n, _. intros m Hm. unfold bare_get, get_help. rewrite Hg by done. destruct (id =? resp_rd r) eqn:E; zb; [done|].
  rewrite vset_in_range by lia. cbn [mbind outcome_bind]. unfold get_step. destruct (32 <=? id) eqn:E1; zb; [lia|].
  cbn [valid_resps resps dev actives]. rewrite land_lor_same, Z.eqb_refl.
  rewrite (vget_Some _ id old) by (by rewrite zlookup_zinsert_ne). reflexivity.
Qed.

End Access.

(** ** A device of two queues *)

Record fifo := mk_fifo { f_in : list Z; f_out : list (Z * Z); f_busy : nat }.

Definition demo_regs : regs := mk_regs 0 4 8 12 16 20.

#[export] Instance fifo_mmio : Mmio fifo := {
  peek_mmio d reg :=
    if reg =? 8 then
      match f_busy d with
      | O => (d, 1)
      | S n => (mk_fifo (f_in d) (f_out d) n, 0)
      end
    else if reg =? 12 then (d, default 0 (head (f_in d)))
    else if reg =? 16 then (d, match f_in d with [] => 0 | _ => 1 end)
    else (d, 0);
  poke_mmio d reg v :=
    if reg =? 20 then mk_fifo (tail (f_in d)) (f_out d) (f_busy d)
    else mk_fifo (f_in d) (f_out d ++ [(reg, v)]) 2
}.

#[export] Instance fifo_laws : MmioLaws fifo demo_regs.
Proof.
  refine {| inbox := f_in; avail := fun d => length (f_in d); outbox := f_out; patience := f_busy |}.
  - done.
  - intros [i o [|b]]; cbn; split_and!; try done. lia.
  - intros [[|w i] o b]; [done|]. intros _. cbn. split_and!; try done. lia.
  - intros [i o b] w q. cbn. by intros -> _.
  - intros [i o b] w q. cbn. by intros -> _.
  - done.
  - done.
Defined.

Definition demo_info : beethoven_pack_info := mk_pack_info 4 10.
Definition demo_cmd : rocc_cmd := start_cmd 3 true 0 0 0 5 1000 2000 1.

Lemma fifo_whole : forall d : fifo, (0 < avail (R := demo_regs) d)%nat -> (length (inbox (R := demo_regs) d) mod 3 = 0)%nat ->
  (3 <= avail (R := demo_regs) d)%nat.
Proof.
  intros [i o b]. cbn. destruct i as [|? [|? [|? i]]]; cbn; try lia; intros _; try discriminate.
Qed.

Lemma command_delivered_witness : exists ws, length ws = 5%nat /\
  (exists n d', (forall m, (n <= m)%nat -> deliver_command demo_regs m demo_info demo_cmd (mk_fifo [] [] 3) = Done d') /\
    outbox d' = outbox (mk_fifo [] [] 3) ++ beats demo_regs ws /\ inbox d' = inbox (mk_fifo [] [] 3)).
Proof.
  exists (pack_words demo_cmd 0). split; [reflexivity|].
  apply (command_delivered demo_regs demo_info demo_cmd (pack_words demo_cmd 0) (mk_fifo [] [] 3)).
  vm_compute. reflexivity.
Defined.

Lemma response_polled_witness :
  exists n d', (forall m, (n <= m)%nat ->
    poll_response demo_regs m demo_info (mk_fifo [7; 0; 33; 8; 0; 34] [] 0) = Done (decode_response 7 0 33 demo_info, d')) /\
    inbox d' = [8; 0; 34] /\ outbox d' = outbox (mk_fifo [7; 0; 33; 8; 0; 34] [] 0).
Proof. apply (response_polled demo_regs demo_info (mk_fifo [7; 0; 33; 8; 0; 34] [] 0) 7 0 33 [8; 0; 34]). reflexivity. Defined.

Definition demo_resp : rocc_response := decode_response 0 0 0 demo_info.
Definition demo_bare : bare (D := fifo) := mk_bare 0 0 (replicate 32 demo_resp) (mk_fifo [7; 0; 33] [] 0).

Lemma one_command_at_a_time_witness :
  exists n s', (forall m, (n <= m)%nat ->
    ('(id, s1) ← bare_send demo_regs m demo_info demo_cmd demo_bare; bare_get demo_regs m demo_info id s1) =
      Done (decode_response 7 0 33 demo_info, s')) /\
    valid_resps s' = 0 /\ inbox (dev s') = [] /\
    outbox (dev s') = outbox (dev demo_bare) ++ beats demo_regs (pack_words demo_cmd 1).
Proof.
  apply (one_command_at_a_time demo_regs fifo_whole demo_info demo_cmd demo_bare 7 0 33 []); try reflexivity. discriminate.
Defined.

Lemma outstanding_share_id_witness :
  exists n s', forall m, (n <= m)%nat ->
    ('(id1, s1) ← bare_send demo_regs m demo_info demo_cmd demo_bare;
     '(id2, s2) ← bare_send demo_regs m demo_info demo_cmd s1; Done (id1, id2, s2)) = Done (1, 1, s').
Proof. apply (outstanding_share_id demo_regs demo_info demo_cmd demo_cmd demo_bare); reflexivity || discriminate. Defined.

Lemma foreign_response_answers_waiter_witness :
  exists n s', forall m, (n <= m)%nat -> bare_get demo_regs m demo_info 2 demo_bare = Done (demo_resp, s').
Proof.
  apply (foreign_response_answers_waiter demo_regs fifo_whole demo_info 2 demo_bare 7 0 33 [] demo_resp);
    try reflexivity; (lia || (vm_compute; discriminate)).
Defined.

End Mmio.
