(* ===== verification/SingletonLock.v ===== *)
(** * One daemon for a project

    [runtime/src/core/singleton_lock.cc]: the name of the lock file and the
    acquisition of the lock, with the names of the shared files
    ([libbeethoven/src/runtime_ipc.cc]) that are unlinked under it.

    Strings are lists of bytes.  The environment of a daemon is a record;
    [realpath] is a parameter.  The kernel keeps files by name and at most one
    exclusive lock on a file, which ends with its process. *)

From Stdlib Require Import Ascii.
From S2P Require Import Prelude.

Module Lock.

Definition bytes (s : string) : list Z := map (fun a => Z.of_N (N_of_ascii a)) (String.list_ascii_of_string s).

(** [fnv1a64]. *)
Definition fnv_prime : Z := 1099511628211.
Definition fnv_step (h b : Z) : Z := u64 (Z.lxor h (u8 b) * fnv_prime).
Definition fnv1a64 (s : list Z) : Z := fold_left fnv_step s 14695981039346656037.

(** [std::to_string] of an unsigned number; 64 bits have at most 20 digits. *)
Fixpoint digits (fuel : nat) (base x : Z) : list Z :=
  match fuel with
  | O => []
  | S fuel' => if x <? base then [x] else digits fuel' base (x / base) ++ [x mod base]
  end.
Definition decimal (x : Z) : list Z := map (fun d => 48 + d) (digits 20 10 x).

(** ["%016lx"]. *)
Definition hex_char (d : Z) : Z := if d <? 10 then 48 + d else 87 + d.
Definition hex16 (x : Z) : list Z := map (fun i => hex_char (Z.shiftr x (4 * (15 - i)) mod 16)) (zrange 0 16).

(** What a daemon reads from its environment. *)
Record environment := mk_env {
  PROJECT_ROOT : option (list Z);
  XDG_RUNTIME_DIR : option (list Z);
  TMPDIR : option (list Z);
  euid : Z
}.

Definition whoami (e : environment) : list Z := decimal (euid e).
Definition cmd_server_file_name (e : environment) : list Z := bytes "/compo_c_" ++ whoami e.
Definition data_server_file_name (e : environment) : list Z := bytes "/compo_d_" ++ whoami e.

Section Names.
Variable realpath : list Z -> option (list Z).

Definition project_key (e : environment) : outcome (list Z) :=
  match PROJECT_ROOT e with
  | None | Some [] => Exit 1
  | Some root =>
      match realpath root with
      | None => Exit 1
      | Some buf => Done (hex16 (fnv1a64 buf))
      end
  end.

Definition runtime_dir (e : environment) : list Z :=
  match XDG_RUNTIME_DIR e, TMPDIR e with
  | Some (c :: v), _ => c :: v
  | _, Some (c :: v) => c :: v
  | _, _ => bytes "/tmp"
  end.

Definition lockfile_path (e : environment) : outcome (list Z) :=
  key ← project_key e;
  Done (runtime_dir e ++ bytes "/beethoven-" ++ decimal (euid e) ++ bytes "-" ++ key ++ bytes ".lock").

(** ** Processes and the kernel *)

(** [daemons] are the processes that hold a lock ([g_lock_fd]): the file they
    have open and their environment. *)
Record system := mk_system {
  files : gmap (list Z) nat;
  locked : gmap nat Z;
  holder_pid : gmap nat Z;
  daemons : gmap Z (nat * environment);
  next_inode : nat;
  shm : gset (list Z)
}.

Definition boot : system := mk_system ∅ ∅ ∅ ∅ 0 ∅.

(** [open(path, O_RDWR | O_CREAT)]. *)
Definition open_create (path : list Z) (s : system) : nat * system :=
  match files s !! path with
  | Some i => (i, s)
  | None =>
      (next_inode s, mk_system (<[path := next_inode s]> (files s)) (locked s) (holder_pid s) (daemons s)
                       (S (next_inode s)) (shm s))
  end.

(** [runtime_acquire_singleton_lock] of process [pid]: whether it returned, or
    ended the process with status 1.  [open_ok] and [flock_ok] are failures of
    the two calls for other reasons than the lock. *)
Definition acquire (pid : Z) (e : environment) (open_ok flock_ok : bool) (s : system) : bool * system :=
  match daemons s !! pid with
  | Some _ => (true, s)
  | None =>
      match lockfile_path e with
      | Done path =>
          if negb open_ok then (false, s)
          else
            let '(i, s1) := open_create path s in
            match locked s1 !! i with
            | Some _ => (false, s1)
            | None =>
                if negb flock_ok then (false, s1)
                else
                  (true, mk_system (files s1) (<[i := pid]> (locked s1)) (<[i := pid]> (holder_pid s1))
                           (<[pid := (i, e)]> (daemons s1)) (next_inode s1)
                           (shm s1 ∖ {[cmd_server_file_name e; data_server_file_name e]}))
            end
      | _ => (false, s)
      end
  end.

(** The end of a process, however it came: the kernel releases its lock. *)
Definition die (pid : Z) (s : system) : system :=
  match daemons s !! pid with
  | None => s
  | Some (i, _) =>
      mk_system (files s) (delete i (locked s)) (holder_pid s) (delete pid (daemons s)) (next_inode s) (shm s)
  end.

(** The servers of a daemon create their shared files. *)
Definition create_shm (pid : Z) (s : system) : system :=
  match daemons s !! pid with
  | None => s
  | Some (_, e) =>
      mk_system (files s) (locked s) (holder_pid s) (daemons s) (next_inode s)
        (shm s ∪ {[cmd_server_file_name e; data_server_file_name e]})
  end.

Inductive reachable : system -> Prop :=
| r_boot : reachable boot
| r_start pid e o f s : reachable s -> reachable (acquire pid e o f s).2
| r_die pid s : reachable s -> reachable (die pid s)
| r_shm pid s : reachable s -> reachable (create_shm pid s).

(** Every daemon holds the lock on the file of its environment, and every lock is
    held by a daemon. *)
Record lock_inv (s : system) : Prop := {
  l_file pid i e : daemons s !! pid = Some (i, e) ->
    exists path, lockfile_path e = Done path /\ files s !! path = Some i /\ locked s !! i = Some pid;
  l_held i pid : locked s !! i = Some pid -> exists e, daemons s !! pid = Some (i, e);
  l_fresh path i : files s !! path = Some i -> (i < next_inode s)%nat;
  l_inj p q i : files s !! p = Some i -> files s !! q = Some i -> p = q
}.

Lemma open_create_inv path s : lock_inv s ->
  lock_inv (open_create path s).2 /\ files (open_create path s).2 !! path = Some (open_create path s).1 /\
  daemons (open_create path s).2 = daemons s /\ locked (open_create path s).2 = locked s.
Proof.
  intros [Hf Hh Hr Hi]. unfold open_create. destruct (files s !! path) as [i|] eqn:E; [done|]. cbn.
  split_and!; try done; [|by rewrite lookup_insert_eq]. split; cbn.
  - intros pid i e Hd. destruct (Hf pid i e Hd) as (p & Hp & Hfp & Hl). exists p. split_and!; try done.
    rewrite lookup_insert_ne; [done|]. congruence.
  - done.
  - intros p i [[-> <-]|[_ Hp]]%lookup_insert_Some; [lia|]. specialize (Hr p i Hp). lia.
  - intros p q i [[-> <-]|[Hn Hp]]%lookup_insert_Some [[-> Hq]|[Hn' Hq]]%lookup_insert_Some; try done.
    + specialize (Hr q _ Hq). lia.
    + specialize (Hr p _ Hp). lia.
    + by apply (Hi p q i).
Qed.

Lemma reachable_inv s : reachable s -> lock_inv s.
Proof.
  induction 1 as [|pid e o f s H IH|pid s H IH|pid s H IH].
  - by split.
  - unfold acquire. destruct (daemons s !! pid) eqn:Ed; [done|].
    destruct (lockfile_path e) as [path| | | |] eqn:Ep; try done. destruct (negb o); [done|].
    destruct (open_create_inv path s IH) as (Hi1 & Hp & Hd & Hl). destruct (open_create path s) as [i s1]. cbn [fst snd] in *.
    destruct (locked s1 !! i) eqn:El; [done|]. destruct (negb f); [done|]. destruct Hi1 as [Hf Hh Hr Hi]. split; cbn; try done.
    + intros p j e' [[-> [= <- <-]]|[Hn Hp']]%lookup_insert_Some.
      * exists path. by rewrite lookup_insert_eq.
      * destruct (Hf p j e' Hp') as (pa & ? & ? & Hlj). exists pa. split_and!; try done. rewrite lookup_insert_ne; congruence.
    + intros j p [[-> <-]|[Hn Hj]]%lookup_insert_Some; [exists e; by rewrite lookup_insert_eq|].
      destruct (Hh j p Hj) as [e' He]. exists e'. rewrite lookup_insert_ne; [done|]. intros ->. rewrite Hd in He. congruence.
  - unfold die. destruct (daemons s !! pid) as [[i e]|] eqn:Ed; [|done]. destruct IH as [Hf Hh Hr Hi]. split; cbn; try done.
    + intros p j e' [Hn Hp]%lookup_delete_Some. destruct (Hf p j e' Hp) as (pa & ? & ? & Hl). exists pa. split_and!; try done.
      apply lookup_delete_Some. split; [|done]. intros ->. destruct (Hf pid _ e Ed) as (_ & _ & _ & Hl'). congruence.
    + intros j p [Hn Hj]%lookup_delete_Some. destruct (Hh j p Hj) as [e' He]. exists e'. apply lookup_delete_Some. split; [|done].
      intros ->. congruence.
  - unfold create_shm. destruct (daemons s !! pid) as [[i e]|]; [|done]. by destruct IH.
Qed.

(** C37. At most one daemon runs for a project: two daemons of one user whose
    project roots have the same canonical path, and who agree on the directory
    for lock files, are the same process - whatever started, stopped or crashed
    before, and however the roots were spelled. *)
Theorem one_daemon_per_project s p1 p2 i1 i2 e1 e2 root1 root2 buf :
  reachable s -> daemons s !! p1 = Some (i1, e1) -> daemons s !! p2 = Some (i2, e2) ->
  PROJECT_ROOT e1 = Some root1 -> PROJECT_ROOT e2 = Some root2 -> root1 <> [] -> root2 <> [] ->
  realpath root1 = Some buf -> realpath root2 = Some buf ->
  euid e1 = euid e2 -> runtime_dir e1 = runtime_dir e2 -> p1 = p2.
Proof.
  intros H H1 H2 R1 R2 N1 N2 B1 B2 Hu Hdir. destruct (reachable_inv s H) as [Hf _ _ _].
  destruct (Hf p1 i1 e1 H1) as (a & Pa & Fa & La). destruct (Hf p2 i2 e2 H2) as (b & Pb & Fb & Lb).
  assert (lockfile_path e1 = lockfile_path e2) as E.
  { unfold lockfile_path, project_key. rewrite R1, R2, Hdir, Hu. destruct root1, root2; try done. by rewrite B1, B2. }
  congruence.
Qed.

(** A daemon can start exactly when none holds its lock file; a daemon that
    ended, in whatever way, leaves nothing that stops the next one. *)
Theorem daemon_starts_iff_free s pid e path :
  reachable s -> daemons s !! pid = None -> lockfile_path e = Done path ->
  (acquire pid e true true s).1 = true <->
  ~ exists p i e', daemons s !! p = Some (i, e') /\ lockfile_path e' = Done path.
Proof.
  intros H Hd Hp. pose proof (reachable_inv s H) as Hinv. pose proof Hinv as [Hf Hh Hr Hi].
  destruct (open_create_inv path s Hinv) as (_ & Hopen & _ & Hl1). unfold acquire. rewrite Hd, Hp. cbn [negb].
  destruct (open_create path s) as [i s1] eqn:Eo. cbn [fst snd] in *. rewrite Hl1.
  destruct (locked s !! i) as [p|] eqn:El; cbn [fst]; split; try done.
  - intros Hno. destruct Hno. destruct (Hh i p El) as [e' He]. destruct (Hf p i e' He) as (pa & Pa & Fa & _).
    exists p, i, e'. split; [done|]. rewrite Pa. f_equal. unfold open_create in Eo. destruct (files s !! path) as [j|] eqn:Ef.
    + injection Eo as -> <-. by apply (Hi pa path i).
    + injection Eo as <- <-. specialize (Hr pa _ Fa). lia.
  - intros _ (p & j & e' & He & Pe). destruct (Hf p j e' He) as (pa & Pa & Fa & La). rewrite Pe in Pa. injection Pa as <-.
    unfold open_create in Eo. rewrite Fa in Eo. injection Eo as <- <-. congruence.
Qed.

End Names.
(** ** Keys of different projects *)

Definition fnv_inverse : Z := 14886173955864302971.

Lemma fnv_prime_invertible x : 0 <= x < 2 ^ 64 -> u64 (u64 (x * fnv_prime) * fnv_inverse) = x.
Proof.
  intros Hx. unfold u64, wrapw. rewrite Z.mul_mod_idemp_l, <- Z.mul_assoc by lia.
  rewrite Z.mul_mod by lia. replace ((fnv_prime * fnv_inverse) mod 2 ^ 64) with 1 by (vm_compute; reflexivity).
  rewrite Z.mul_1_r, Z.mod_mod by lia. by apply Z.mod_small.
Qed.

Lemma lxor_byte_range h b : 0 <= h < 2 ^ 64 -> 0 <= Z.lxor h (u8 b) < 2 ^ 64.
Proof.
  intros Hh. pose proof (u8_range b) as Hb. assert (0 <= Z.lxor h (u8 b)) by (apply Z.lxor_nonneg; lia). split; [done|].
  assert (Z.lxor h (u8 b) = Z.lxor h (u8 b) mod 2 ^ 64) as ->; [|apply Z.mod_pos_bound; lia].
  apply Z.bits_inj'. intros n Hn. destruct (decide (n < 64)).
  - by rewrite Z.mod_pow2_bits_low by lia.
  - rewrite Z.mod_pow2_bits_high, Z.lxor_spec by lia.
    rewrite (Z.bits_above_log2 h), (Z.bits_above_log2 (u8 b)); try done; try lia.
    + destruct (decide (u8 b = 0)) as [->|]; [cbn; lia|]. apply Z.log2_lt_pow2; [lia|]. pose proof (Z.pow_le_mono_r 2 8 n). lia.
    + destruct (decide (h = 0)) as [->|]; [cbn; lia|]. apply Z.log2_lt_pow2; [lia|]. pose proof (Z.pow_le_mono_r 2 64 n). lia.
Qed.

Lemma fnv_step_inj h h' b b' :
  0 <= h < 2 ^ 64 -> 0 <= h' < 2 ^ 64 -> fnv_step h b = fnv_step h' b' -> Z.lxor h (u8 b) = Z.lxor h' (u8 b').
Proof.
  intros Hh Hh' E. unfold fnv_step in E. rewrite <- (fnv_prime_invertible (Z.lxor h (u8 b))) by (by apply lxor_byte_range).
  rewrite E. apply fnv_prime_invertible. by apply lxor_byte_range.
Qed.

Lemma lxor_cancel_r a b c : Z.lxor a c = Z.lxor b c -> a = b.
Proof.
  intros E. rewrite <- (Z.lxor_0_r a), <- (Z.lxor_nilpotent c), <- Z.lxor_assoc, E, Z.lxor_assoc, Z.lxor_nilpotent.
  apply Z.lxor_0_r.
Qed.

Lemma fnv_fold_range l : forall h, 0 <= h < 2 ^ 64 -> 0 <= fold_left fnv_step l h < 2 ^ 64.
Proof. induction l as [|b l IH]; intros h Hh; [done|]. apply IH, u64_range. Qed.

Lemma fnv_fold_inj l : forall h h',
  0 <= h < 2 ^ 64 -> 0 <= h' < 2 ^ 64 -> fold_left fnv_step l h = fold_left fnv_step l h' -> h = h'.
Proof.
  induction l as [|b l IH]; intros h h' Hh Hh' E; [done|]. cbn in E. apply IH in E; [|apply u64_range..].
  by apply fnv_step_inj, lxor_cancel_r in E.
Qed.

Lemma hex_char_inj d d' : 0 <= d < 16 -> 0 <= d' < 16 -> hex_char d = hex_char d' -> d = d'.
Proof. intros Hd Hd'. unfold hex_char. destruct (d <? 10) eqn:E, (d' <? 10) eqn:E'; zb; lia. Qed.

Lemma hex16_inj x y : 0 <= x < 2 ^ 64 -> 0 <= y < 2 ^ 64 -> hex16 x = hex16 y -> x = y.
Proof.
  intros Hx Hy E.
  assert (forall j, 0 <= j < 16 -> Z.shiftr x (4 * j) mod 16 = Z.shiftr y (4 * j) mod 16) as Hn.
  { intros j Hj. apply hex_char_inj; [apply Z.mod_pos_bound; lia..|].
    assert (forall z, hex16 z !! Z.to_nat (15 - j) = Some (hex_char (Z.shiftr z (4 * j) mod 16))) as Hl.
    { intros z. unfold hex16. rewrite list_lookup_fmap. unfold zrange. rewrite lookup_seqZ_lt by lia. cbn. repeat f_equal. lia. }
    pose proof (Hl x) as H1. rewrite E, Hl in H1. by injection H1. }
  apply Z.bits_inj'. intros n H0. destruct (decide (n < 64)) as [Hlt|Hge].
  - pose proof (Z.div_mod n 4 ltac:(lia)). pose proof (Z.mod_pos_bound n 4 ltac:(lia)).
    specialize (Hn (n / 4) ltac:(lia)). apply (f_equal (fun z => Z.testbit z (n mod 4))) in Hn.
    change 16 with (2 ^ 4) in Hn. rewrite !Z.mod_pow2_bits_low, !Z.shiftr_spec in Hn by lia.
    replace (n mod 4 + 4 * (n / 4)) with n in Hn by lia. done.
  - rewrite <- (Z.mod_small x (2 ^ 64)), <- (Z.mod_small y (2 ^ 64)) by done. by rewrite !Z.mod_pow2_bits_high by lia.
Qed.

(** Similar projects do not share a lock: canonical roots that differ in one
    byte have different keys, so daemons of one user in one directory have
    different lock files. *)
Theorem neighbouring_projects_have_own_lock realpath e e' root root' pre b b' post path path' :
  PROJECT_ROOT e = Some root -> PROJECT_ROOT e' = Some root' ->
  realpath root = Some (pre ++ b :: post) -> realpath root' = Some (pre ++ b' :: post) ->
  0 <= b < 256 -> 0 <= b' < 256 -> b <> b' -> euid e = euid e' -> runtime_dir e = runtime_dir e' ->
  lockfile_path realpath e = Done path -> lockfile_path realpath e' = Done path' -> path <> path'.
Proof.
  intros R R' B B' Hb Hb' Hne Hu Hdir P P' ->. unfold lockfile_path, project_key in P, P'. rewrite R in P. rewrite R' in P'.
  destruct root; [done|]. destruct root'; [done|]. rewrite B in P. rewrite B' in P'. cbn [mbind outcome_bind] in P, P'.
  rewrite <- P in P'. assert (forall x y : list Z, Done x = Done y -> x = y) as Hd by congruence.
  apply Hd in P' as E. rewrite Hdir, Hu in E. do 4 apply app_inv_head in E. apply app_inv_tail in E.
  apply hex16_inj in E; [|apply fnv_fold_range; lia..]. unfold fnv1a64 in E. rewrite !fold_left_app in E. cbn in E.
  set (h := fold_left fnv_step pre _) in E. assert (0 <= h < 2 ^ 64) by (apply fnv_fold_range; lia).
  apply fnv_fold_inj in E; [|apply u64_range..]. apply fnv_step_inj in E; [|done..].
  rewrite !(Z.lxor_comm h) in E. apply lxor_cancel_r in E. rewrite !u8_small in E by done. done.
Qed.

(** ** Two daemons *)

Definition demo_realpath (p : list Z) : option (list Z) := Some p.
Definition demo_env (root : string) : environment := mk_env (Some (bytes root)) (Some (bytes "/run/user/1000")) None 1000.
Definition demo_system : system := (acquire demo_realpath 42 (demo_env "/home/a/p1") true true boot).2.

Lemma one_daemon_per_project_witness : exists i e, daemons demo_system !! 42 = Some (i, e) /\ 42 = 42.
Proof.
  exists 0%nat, (demo_env "/home/a/p1"). split; [vm_compute; reflexivity|].
  apply (one_daemon_per_project demo_realpath demo_system 42 42 0 0 (demo_env "/home/a/p1") (demo_env "/home/a/p1")
    (bytes "/home/a/p1") (bytes "/home/a/p1") (bytes "/home/a/p1")); try reflexivity; try discriminate.
  apply r_start, r_boot.
Defined.

Lemma daemon_starts_iff_free_witness :
  exists path, lockfile_path demo_realpath (demo_env "/home/a/p2") = Done path /\
    ((acquire demo_realpath 43 (demo_env "/home/a/p2") true true demo_system).1 = true <->
     ~ exists p i e', daemons demo_system !! p = Some (i, e') /\ lockfile_path demo_realpath e' = Done path).
Proof.
  eexists. split; [reflexivity|].
  apply (daemon_starts_iff_free demo_realpath demo_system 43 (demo_env "/home/a/p2")); [apply r_start, r_boot|vm_compute; reflexivity|reflexivity].
Defined.

Lemma neighbouring_projects_have_own_lock_witness :
  exists path path', lockfile_path demo_realpath (demo_env "/p1") = Done path /\
    lockfile_path demo_realpath (demo_env "/p2") = Done path' /\ path <> path'.
Proof.
  eexists _, _. split; [reflexivity|]. split; [reflexivity|].
  apply (neighbouring_projects_have_own_lock demo_realpath (demo_env "/p1") (demo_env "/p2") (bytes "/p1") (bytes "/p2")
    (bytes "/p") 49 50 []); try reflexivity; lia.
Defined.

End Lock.
