(* ===== verification/Startup.v ===== *)
(** * How the runtime starts

    The [main] functions: of the simulation ([runtime/src/frontends/axi/
    verilator_axi_frontend.cc]) and of the runtime on hardware
    ([runtime/src/core/fpga_main.cc]).  They read the command line, take the lock of
    the project, start the two servers and load the memory configuration.  A file
    system is a function from names to contents. *)

From Stdlib Require Import Ascii String.
From S2P Require Import Prelude MemCtrl Ini MemorySystem SingletonLock.

Module Startup.
Import MemCtrl.

Abbreviation file_system := (string -> option (list ascii)).

(** [mem_ctrl::init] with the file it reads; [W] is the width of the bus in bytes. *)
Definition mem_ctrl_init (W : Z) (files : file_system) (name : string) : outcome mem_cfg :=
  match files name with
  | None => MemCtrl.init W false 0 0
  | Some f =>
      c ← Ini.read_config (Some f);
      MemCtrl.init W true (MemSys.GetBusBits c) (MemSys.GetBurstLength c)
  end.

(** The loop of [main] looks at every other argument.  A last option without its
    value makes a string of the null pointer that ends the vector. *)
Fixpoint dram_args (args : list string) (dram_file : option string) : outcome (option string) :=
  match args with
  | [] => Done dram_file
  | [a] => if String.eqb a "-dramconfig" then Undef else Done dram_file
  | a :: v :: args' => dram_args args' (if String.eqb a "-dramconfig" then Some v else dram_file)
  end.

Definition default_dram_file : string := "runtime/DRAMsim3/configs/DDR4_8Gb_x16_3200.ini".

(** The names a command line gives, in order. *)
Definition dram_names (opts : list (string * string)) : list string :=
  map snd (filter (fun o => o.1 = "-dramconfig"%string) opts).

Abbreviation argv opts := (opts ≫= fun o => [o.1; o.2]).

Lemma dram_args_app opts tl : forall acc,
  dram_args (argv opts ++ tl) acc = dram_args tl (match last (dram_names opts) with Some f => Some f | None => acc end).
Proof.
  induction opts as [|[o v] opts IH]; intros acc; [done|].
  change (argv ((o, v) :: opts)) with (o :: v :: argv opts). cbn [app dram_args].
  rewrite IH. unfold dram_names. rewrite filter_cons. cbn [fst]. destruct (String.eqb_spec o "-dramconfig").
  - rewrite decide_True by done. cbn [map snd]. rewrite last_cons. by destruct (last (map _ _)).
  - by rewrite decide_False.
Qed.

Lemma dram_args_pairs opts : dram_args (argv opts) None = Done (last (dram_names opts)).
Proof. rewrite <- (app_nil_r (argv opts)), dram_args_app. by destruct (last _). Qed.

(** The configuration file is the value of the last [-dramconfig] option, if there
    is one; a last option without a value has no meaning. *)
Theorem last_dramconfig_wins opts :
  dram_args (argv opts) None = Done (last (dram_names opts)) /\
  dram_args (argv opts ++ ["-dramconfig"%string]) None = Undef.
Proof. split; [apply dram_args_pairs|]. by rewrite dram_args_app. Qed.

(** ** The mains *)

Section Main.
Variable realpath : list Z -> option (list Z).
Variable pid : Z.
Variable env : Lock.environment.
Variable open_ok flock_ok : bool.

(** [runtime_acquire_singleton_lock] and the two servers, which create the shared
    files.  A refused daemon exits with status 1. *)
Definition start_servers (sys : Lock.system) : Lock.system * outcome unit :=
  let r := Lock.acquire realpath pid env open_ok flock_ok sys in
  if r.1 then (Lock.create_shm pid r.2, Done tt) else (r.2, Exit 1).

(** [main] of the simulation up to the reset of the design. *)
Definition axi_main (W : Z) (files : file_system) (args : list string) (sys : Lock.system)
    : Lock.system * outcome mem_cfg :=
  match dram_args args None with
  | Done f =>
      let r := start_servers sys in
      (r.1, _ ← r.2; mem_ctrl_init W files (default default_dram_file f))
  | Undef => (sys, Undef)
  | _ => (sys, Stuck)
  end.

(** [main] on hardware: [runtime_verbose], and then it waits. *)
Definition verbose_arg (a : string) : bool := String.eqb a "--verbose" || String.eqb a "-v".
Definition fpga_main (args : list string) (sys : Lock.system) : Lock.system * outcome bool :=
  let r := start_servers sys in (r.1, _ ← r.2; Done (existsb verbose_arg args)).

(** ** What the mains promise *)

Lemma acquired_shm sys : (Lock.acquire realpath pid env open_ok flock_ok sys).1 = true ->
  exists i e, Lock.daemons (Lock.acquire realpath pid env open_ok flock_ok sys).2 !! pid = Some (i, e) /\
    (Lock.daemons sys !! pid = None -> e = env).
Proof.
  unfold Lock.acquire. destruct (Lock.daemons sys !! pid) as [[i e]|] eqn:Ed; [intros _; exists i, e; done|].
  destruct (Lock.lockfile_path _ _) as [path| | | |]; try done. destruct open_ok; [|done]. cbn [negb].
  destruct (Lock.open_create path sys) as [i s1]. destruct (Lock.locked s1 !! i); [done|]. destruct flock_ok; [|done]. cbn.
  intros _. exists i, env. by rewrite lookup_insert_eq.
Qed.

Lemma refused_shm sys : (Lock.acquire realpath pid env open_ok flock_ok sys).1 = false ->
  let s' := (Lock.acquire realpath pid env open_ok flock_ok sys).2 in
  Lock.shm s' = Lock.shm sys /\ Lock.daemons s' = Lock.daemons sys /\ Lock.locked s' = Lock.locked sys.
Proof.
  unfold Lock.acquire. destruct (Lock.daemons sys !! pid); [done|].
  destruct (Lock.lockfile_path _ _) as [path| | | |]; try done. destruct open_ok; [|done]. cbn [negb].
  unfold Lock.open_create. destruct (Lock.files sys !! path) as [i|]; cbn;
    (destruct (Lock.locked sys !! _); [done|]); destruct flock_ok; done.
Qed.

(** A runtime that does not get the lock of its project, for whatever reason, ends
    with status 1 before it has touched anything the running daemon uses: the shared
    files, the daemons and the locks are what they were, in the simulation and on
    hardware, whatever the arguments and the configuration. *)
Theorem refused_runtime_leaves_no_trace W files opts args sys :
  (Lock.acquire realpath pid env open_ok flock_ok sys).1 = false ->
  let r1 := axi_main W files (argv opts) sys in
  let r2 := fpga_main args sys in
  r1.2 = Exit 1 /\ r2.2 = Exit 1 /\ r1.1 = r2.1 /\
  Lock.shm r1.1 = Lock.shm sys /\ Lock.daemons r1.1 = Lock.daemons sys /\ Lock.locked r1.1 = Lock.locked sys.
Proof.
  intros Hf. unfold axi_main, fpga_main, start_servers. rewrite dram_args_pairs, Hf. cbn [fst snd mbind outcome_bind].
  split_and!; try done; by apply refused_shm.
Qed.

(** Without arguments, with the shipped default configuration where the program
    looks for it and with the lock free, the simulation starts: both shared files
    exist, and the memory controller is set up for the part in that file. *)
Theorem default_start_serves files sys :
  (Lock.acquire realpath pid env open_ok flock_ok sys).1 = true -> Lock.daemons sys !! pid = None ->
  files default_dram_file = Some MemSys.default_ini ->
  let r := axi_main 64 files [] sys in
  r.2 = Done (mk_cfg 8 8 64 8) /\
  {[Lock.cmd_server_file_name env; Lock.data_server_file_name env]} ⊆ Lock.shm r.1.
Proof.
  intros Ht Hn Hf. unfold axi_main. cbn [dram_args default]. unfold start_servers. rewrite Ht. cbn [fst snd mbind outcome_bind].
  split.
  - unfold mem_ctrl_init. rewrite Hf. vm_compute. reflexivity.
  - destruct (acquired_shm sys Ht) as (i & e & Hd & He). rewrite (He Hn) in Hd. unfold Lock.create_shm. rewrite Hd. cbn [Lock.shm]. apply union_subseteq_r.
Qed.

End Main.

(** ** Examples *)

Lemma refused_runtime_leaves_no_trace_witness :
  let r := axi_main Lock.demo_realpath 43 (Lock.demo_env "/home/a/p1") true true 64 (fun _ => None)
             (argv [("-dramconfig", "x.ini")]%string) Lock.demo_system in
  r.2 = Exit 1 /\ Lock.shm r.1 = Lock.shm Lock.demo_system.
Proof.
  destruct (refused_runtime_leaves_no_trace Lock.demo_realpath 43 (Lock.demo_env "/home/a/p1") true true 64 (fun _ => None)
    [("-dramconfig", "x.ini")]%string [] Lock.demo_system) as (E & _ & _ & Es & _); [vm_compute; reflexivity|].
  split; [exact E|exact Es].
Defined.

Definition demo_files (name : string) : option (list ascii) :=
  if String.eqb name default_dram_file then Some MemSys.default_ini else None.

Lemma default_start_serves_witness :
  (axi_main Lock.demo_realpath 42 (Lock.demo_env "/home/a/p1") true true 64 demo_files [] Lock.boot).2 = Done (mk_cfg 8 8 64 8).
Proof.
  refine (proj1 (default_start_serves Lock.demo_realpath 42 (Lock.demo_env "/home/a/p1") true true demo_files Lock.boot _ _ _));
    [vm_compute; reflexivity|reflexivity|reflexivity].
Defined.

End Startup.
