(* ===== verification/ChipSim.v ===== *)
(** * The chipkit simulation

    [runtime/src/frontends/chipkit/verilator_chipkit_frontend.cc]: the Verilator front
    end of a chip that is programmed over a serial line.  The program is read from a
    file, sent byte by byte, and then run for a fixed number of cycles.  The compiled
    design is a parameter, as in [SimLoop]; it drives the two serial outputs.  The
    files are the byte streams [readMemFile2ChipkitDMA] makes of them ([MemImage]).

    Also here: the growing byte array of the same file, and its [main]. *)

From Stdlib Require Import Ascii String.
From S2P Require Import Prelude Channels MemCtrl Tick ChipkitUart MemImage MemorySystem Startup.

Module ChipSim.
Import Channels MemCtrl Tick Uart.

(** ** The memory array *)

(** [while (p <= n) p <<= 1;] on 64 bits. *)
Fixpoint pow2_loop (fuel : nat) (p n : Z) : outcome Z :=
  if p <=? n then
    match fuel with
    | O => Stuck
    | S fuel' => pow2_loop fuel' (u64 (Z.shiftl p 1)) n
    end
  else Done p.
Definition smallestpow2over (fuel : nat) (n : Z) : outcome Z := pow2_loop fuel 1 n.

(** [resize]: bytes are kept, new ones are zero. *)
Definition resize (n : Z) (m : list Z) : list Z :=
  take (Z.to_nat n) m ++ replicate (Z.to_nat n - length m) 0.

Definition grow (fuel : nat) (addr : Z) (m : list Z) : outcome (list Z) :=
  if Z.of_nat (length m) <=? addr then n ← smallestpow2over fuel (u64 (addr + 1)); Done (resize n m)
  else Done m.
Definition mem_get (fuel : nat) (addr : Z) (m : list Z) : outcome (Z * list Z) :=
  m' ← grow fuel addr m;
  v ← vget m' addr; Done (v, m').
Definition mem_set (fuel : nat) (addr val : Z) (m : list Z) : outcome (list Z) :=
  m' ← grow fuel addr m;
  vset m' addr val.

Lemma pow2_loop_power fuel : forall k n, 0 <= k <= 63 -> 0 <= n < 2 ^ 63 -> (2 ^ k <= n \/ k = 0 \/ 2 ^ (k - 1) <= n) ->
  64 <= Z.of_nat fuel + k ->
  exists j, pow2_loop fuel (2 ^ k) n = Done (2 ^ j) /\ 0 <= j <= 63 /\ n < 2 ^ j /\ (j = 0 \/ 2 ^ (j - 1) <= n).
Proof.
  induction fuel as [|fuel IH]; intros k n Hk Hn Hp Hf.
  { lia. }
  cbn [pow2_loop]. destruct (Z.leb_spec (2 ^ k) n) as [Hle|Hlt].
  - assert (k < 63) as Hk' by (apply (Z.pow_lt_mono_r_iff 2); lia).
    rewrite Z.shiftl_mul_pow2 by lia. rewrite <- Z.pow_add_r by lia.
    assert (u64 (2 ^ (k + 1)) = 2 ^ (k + 1)) as ->.
    { apply Z.mod_small. split; [lia|]. apply Z.pow_lt_mono_r; lia. }
    apply IH; [lia|lia| |lia]. right. right. by replace (k + 1 - 1) with k by lia.
  - exists k. split_and!; [done|lia|lia|lia|]. destruct Hp as [?|[?|?]]; [lia|by left|by right].
Qed.

(** Below 2^63 the size found is the smallest power of two above the argument,
    after at most 64 rounds; from 2^63 on the shifted value becomes zero, which is
    never above the argument, and the loop does not end. *)
Theorem smallestpow2over_spec n : 0 <= n < 2 ^ 64 ->
  (n < 2 ^ 63 -> exists j, smallestpow2over 64 n = Done (2 ^ j) /\ 0 <= j <= 63 /\ n < 2 ^ j /\
                   forall i, 0 <= i -> n < 2 ^ i -> j <= i) /\
  (2 ^ 63 <= n -> forall fuel, smallestpow2over fuel n = Stuck).
Proof.
  intros Hn. split; intros Hb.
  - destruct (pow2_loop_power 64 0 n) as (j & Ej & Hj & Hlt & Hmin); [lia|lia|by right; left|lia|].
    exists j. split_and!; [done|lia|lia|lia|]. intros i Hi Hni. destruct Hmin as [->|Hmin]; [lia|].
    assert (j - 1 < i); [|lia]. apply (Z.pow_lt_mono_r_iff 2); lia.
  - assert (forall fuel p, (p = 0 \/ exists k, 0 <= k <= 63 /\ p = 2 ^ k) -> pow2_loop fuel p n = Stuck) as Hloop.
    { induction fuel as [|fuel IH]; intros p Hp; cbn [pow2_loop].
      - destruct (Z.leb_spec p n) as [|Hlt]; [done|]. exfalso. destruct Hp as [->|(k & Hk & ->)]; [lia|].
        assert (2 ^ k <= 2 ^ 63) by (apply Z.pow_le_mono_r; lia). lia.
      - destruct (Z.leb_spec p n) as [|Hlt].
        + apply IH. destruct Hp as [->|(k & Hk & ->)]; [by left|]. rewrite Z.shiftl_mul_pow2 by lia. rewrite <- Z.pow_add_r by lia.
          destruct (decide (k = 63)) as [->|]; [by left|]. right. exists (k + 1). split; [lia|]. apply Z.mod_small.
          split; [lia|]. apply Z.pow_lt_mono_r; lia.
        + exfalso. destruct Hp as [->|(k & Hk & ->)]; [lia|].
          assert (2 ^ k <= 2 ^ 63) by (apply Z.pow_le_mono_r; lia). lia. }
    intros fuel. apply Hloop. right. by exists 0.
Qed.

Lemma grow_done addr m : 0 <= addr < 2 ^ 63 - 1 -> exists k,
  grow 64 addr m = Done (m ++ replicate k 0) /\ addr < Z.of_nat (length m + k).
Proof.
  intros Ha. unfold grow. destruct (Z.leb_spec (Z.of_nat (length m)) addr).
  - assert (u64 (addr + 1) = addr + 1) as -> by (apply Z.mod_small; lia).
    destruct (pow2_loop_power 64 0 (addr + 1)) as (j & Ej & Hj & Hlt & _); [lia|lia|by right; left|lia|].
    unfold smallestpow2over. change (pow2_loop 64 1) with (pow2_loop 64 (2 ^ 0)). rewrite Ej. cbn [mbind outcome_bind].
    exists (Z.to_nat (2 ^ j) - length m)%nat. unfold resize. rewrite take_ge by lia. split; [done|]. lia.
  - exists 0%nat. rewrite app_nil_r. split; [done|lia].
Qed.

(** A byte that was set is read back, the array having grown to hold it, and the
    bytes that were in it before are as they were. *)
Theorem mem_set_get addr val m : 0 <= addr < 2 ^ 63 - 1 ->
  exists m', mem_set 64 addr val m = Done m' /\ mem_get 64 addr m' = Done (val, m') /\
    forall a, 0 <= a < Z.of_nat (length m) -> a <> addr -> zlookup m' a = zlookup m a.
Proof.
  intros Ha. destruct (grow_done addr m Ha) as (k & Ek & Hk). unfold mem_set. rewrite Ek. cbn [mbind outcome_bind].
  set (g := m ++ replicate k 0). assert (length g = (length m + k)%nat) as Hl by (unfold g; by rewrite length_app, length_replicate).
  rewrite vset_in_range by lia. eexists. split; [done|]. unfold mem_get, grow. rewrite length_zinsert. split.
  - destruct (Z.leb_spec (Z.of_nat (length g)) addr); [lia|]. cbn [mbind outcome_bind].
    by rewrite (vget_Some _ _ val) by (apply zlookup_zinsert_eq; lia).
  - intros a Ha' Hne. rewrite zlookup_zinsert_ne by done. unfold g, zlookup. rewrite !decide_True by lia. apply lookup_app_l. lia.
Qed.

(** ** The simulation *)

Section ChipSim.
Context {id_t axisize_t burst_t addr_t len_t strb_t byte_t data_t D T : Type}.
Context `{Wire id_t, Wire axisize_t, Wire burst_t, ChunkWire addr_t, Wire addr_t, Wire len_t,
          ChunkWire strb_t, Wire byte_t, DataWire data_t, DramSystem D}.
Variable W : Z.
Variable FPGA_CLOCK : Z.
Variable ndebug : bool.
Abbreviation mem := (mem_interface id_t axisize_t burst_t addr_t len_t strb_t byte_t data_t D).

(** The pins the runtime drives. *)
Record pins := mk_pins { clock : Z; reset_pin : bool; CHIP_ASPSEL : Z; CHIP_UART_M_RXD : Z; STDUART_uart_rxd : Z }.

(** The compiled design and its [eval]: the pins, the memory channels, and the two
    serial lines it drives. *)
Variable eval : T -> pins -> list mem -> option (T * (Z * Z) * list mem).

Record csim := mk_csim {
  top : T;
  clk : Z;
  rst : bool;
  aspsel_ : Z;
  chipfront : tx * rx;
  stdfront : tx * rx;
  txds : Z * Z;               (* CHIP_UART_M_TXD, STDUART_uart_txd *)
  mems : list mem;
  shared : world;
  main_time : Z;
  dumps : list Z
}.

Definition pins_of (s : csim) : pins :=
  mk_pins (clk s) (rst s) (aspsel_ s) (rxd (chipfront s).1) (rxd (stdfront s).1).

Definition set_clk (c : Z) (s : csim) : csim :=
  mk_csim (top s) c (rst s) (aspsel_ s) (chipfront s) (stdfront s) (txds s) (mems s) (shared s) (main_time s) (dumps s).
Definition set_rst (r : bool) (s : csim) : csim :=
  mk_csim (top s) (clk s) r (aspsel_ s) (chipfront s) (stdfront s) (txds s) (mems s) (shared s) (main_time s) (dumps s).
Definition set_asp (a : Z) (s : csim) : csim :=
  mk_csim (top s) (clk s) (rst s) a (chipfront s) (stdfront s) (txds s) (mems s) (shared s) (main_time s) (dumps s).
Definition set_chip (f : tx * rx) (s : csim) : csim :=
  mk_csim (top s) (clk s) (rst s) (aspsel_ s) f (stdfront s) (txds s) (mems s) (shared s) (main_time s) (dumps s).
Definition advance (s : csim) : csim :=
  mk_csim (top s) (clk s) (rst s) (aspsel_ s) (chipfront s) (stdfront s) (txds s) (mems s) (shared s)
    (u64 (main_time s + 500000 / FPGA_CLOCK)) (dumps s).
Definition dump (s : csim) : csim :=
  mk_csim (top s) (clk s) (rst s) (aspsel_ s) (chipfront s) (stdfront s) (txds s) (mems s) (shared s)
    (main_time s) (dumps s ++ [main_time s]).

(** [tick(&top)] *)
Definition eval_top (s : csim) : outcome csim :=
  match eval (top s) (pins_of s) (mems s) with
  | None => Throw
  | Some (t, o, ms) =>
      Done (mk_csim t (clk s) (rst s) (aspsel_ s) (chipfront s) (stdfront s) o ms (shared s) (main_time s) (dumps s))
  end.

Fixpoint repeat_m (n : nat) (f : csim -> outcome csim) (s : csim) : outcome csim :=
  match n with
  | O => Done s
  | S n' => s' ← f s; repeat_m n' f s'
  end.

(** A cycle of the initial reset, and one of the loops after it. *)
Definition reset_cycle (s : csim) : outcome csim :=
  s ← eval_top (set_clk 0 s);
  s ← eval_top (set_clk 1 (advance (dump s)));
  Done (advance (dump s)).
Definition cycle (s : csim) : outcome csim :=
  s ← eval_top (advance (set_clk 1 s));
  s ← eval_top (advance (set_clk 0 (dump s)));
  Done (dump s).

(** [while (!in_stream.empty() || RXD == 0)] *)
Definition sending (t : tx) : bool := match in_stream t with [] => rxd t =? 0 | _ => true end.
Fixpoint load_loop (fuel : nat) (div : Z) (s : csim) : outcome csim :=
  if sending (chipfront s).1 then
    match fuel with
    | O => Stuck
    | S fuel' =>
        s ← cycle s;
        f ← Uart.tick div (txds s).1 (chipfront s);
        load_loop fuel' div (set_chip f s)
    end
  else Done s.

(** Reading a file and sending it. *)
Definition send_file (fuel : nat) (div : Z) (asp : Z) (file : option (list ascii)) (s : csim) : outcome csim :=
  let f := chipfront s in
  q ← Image.readMemFile2ChipkitDMA ndebug (in_stream f.1) file;
  let t := mk_tx (in_state f.1) (baud_count_in f.1) (in_byte_progress f.1) q (in_enable f.1) (rxd f.1) in
  load_loop fuel div (set_asp asp (set_chip (t, f.2) s)).

(** [tick_signals] with the front end of the standard output. *)
Definition tick_signals (cfg : mem_cfg) (div : Z) (ddr_ticks : nat) (s : csim) : outcome csim :=
  f ← Uart.tick div (txds s).2 (stdfront s);
  '(_, (g, ms)) ← tick_mems W cfg ddr_ticks (shared s) (mems s);
  Done (mk_csim (top s) (clk s) (rst s) (aspsel_ s) (chipfront s) f (txds s) ms g (main_time s) (dumps s)).

(** A cycle of the program.  The queue [stdout_strm] that the loop looks at is never
    written, so that the loop is never left early. *)
Definition run_cycle (cfg : mem_cfg) (div : Z) (ddr_ticks : nat) (s : csim) : outcome csim :=
  s ← tick_signals cfg div ddr_ticks (advance (set_clk 1 s));
  s ← eval_top s;
  s ← eval_top (set_clk 0 (dump s));
  Done (dump (advance s)).
(** [while (not kill_sig && (--count > 0))], [i] cycles after the start. *)
Fixpoint run_cycles (cfg : mem_cfg) (div : Z) (ticks : nat -> nat) (n i : nat) (s : csim) : outcome csim :=
  match n with
  | O => Done s
  | S n' => s' ← run_cycle cfg div (ticks i) s; run_cycles cfg div ticks n' (S i) s'
  end.

(** The channels and pins before the reset.  The pin of the standard input is not
    written before the front end is ticked. *)
Definition init_channel (m : mem) : mem :=
  mk_mem (ac_setReady true (aw m)) (ar m) (w m) (dc_setValid 0 (r m)) (rs m)
    (with_b (rc_setValid 0 (b (ws m))) (ws m)) (mem_sys m).
Definition start (t : T) (std_rxd : Z) (o : Z * Z) (ms : list mem) (g : world) : csim :=
  mk_csim t 0 true 0 (tx_init [], rx_init) (mk_tx IDLE 0 0 [] true std_rxd, rx_init) o (map init_channel ms) g 0 [].

(** [run_verilator]: [files] is the file system, [ticks] the DRAM clocks of each of
    the 9999 cycles the program runs for.  The process ends with status 0. *)
Definition run_verilator (fuel : nat) (cfg : mem_cfg) (files : string -> option (list ascii))
    (dma_file trace_file : option string) (ticks : nat -> nat) (s : csim) : outcome csim :=
  '(_, div) ← set_baud 14;
  s ← repeat_m 50 reset_cycle s;
  s ← repeat_m 1000 cycle (set_clk 0 (set_rst false s));
  s ← match dma_file with Some f => send_file fuel div 0 (files f) s | None => Done s end;
  f ← or_undef trace_file;
  s ← send_file fuel div 1 (files f) s;
  s ← repeat_m 1000 cycle s;
  s ← repeat_m 6 cycle (set_rst true s);
  s ← run_cycles cfg div ticks (Z.to_nat 9999) 0 (set_rst false s);
  Exit 0.

(** ** The program *)

Record options := mk_opts { dram_file : option string; trace_opt : option string; dma_opt : option string }.

(** The options [main] reads: it asserts that every other argument starts with a dash
    and compares what follows; a name without a value makes a string of the null
    pointer. *)
Definition set_option (name v : string) (o : options) : options :=
  if String.eqb name "dramconfig" then mk_opts (Some v) (trace_opt o) (dma_opt o)
  else if String.eqb name "tracefile" then mk_opts (dram_file o) (Some v) (dma_opt o)
  else if String.eqb name "dmafile" then mk_opts (dram_file o) (trace_opt o) (Some v)
  else o.

Fixpoint chip_args (args : list string) (o : options) : outcome options :=
  match args with
  | [] => Done o
  | EmptyString :: _ => if ndebug then Undef else Exit 134
  | String c name :: rest =>
      if negb ndebug && negb (Ascii.eqb c "-") then Exit 134
      else
        match rest with
        | [] => if bool_decide (name ∈ ["dramconfig"; "tracefile"; "dmafile"]%string) then Undef else Done o
        | v :: args' => chip_args args' (set_option name v o)
        end
  end.

Definition chip_dram_file : string := "runtime/src/DRAMsim3/configs/DDR4_8Gb_x16_3200.ini".

(** [main]: the files it was given are in variables of its own; those that
    [run_verilator] reads are the global ones of the same names, which nothing sets. *)
Definition chip_main (fuel : nat) (files : string -> option (list ascii)) (args : list string) (ticks : nat -> nat)
    (s : csim) : outcome csim :=
  o ← chip_args args (mk_opts None None None);
  if negb ndebug && bool_decide (trace_opt o = None) then Exit 134
  else
    cfg ← Startup.mem_ctrl_init W files (default chip_dram_file (dram_file o));
    run_verilator fuel cfg files None None ticks s.

(** ** Loading ends *)

(** Clocks until a transmitter is idle with an empty queue. *)
Definition frame (d : Z) : Z := 11 * d + 7.
Definition left (d : Z) (t : tx) : Z :=
  let l := frame d * Z.of_nat (length (in_stream t)) in
  match in_state t with
  | IDLE => l
  | START => l - baud_count_in t
  | BITS_BAUD => l - (d + (in_byte_progress t - 1) * (d + 1) + baud_count_in t)
  | BITS => l - (d + (in_byte_progress t - 1) * (d + 1) + d)
  | STOP => l + (2 * d - baud_count_in t)
  | START_BAUD => 0
  end.

(** The states a transmitter goes through. *)
Definition tx_ok (d : Z) (t : tx) : Prop :=
  in_enable t = true /\ (rxd t = 0 \/ rxd t = 1) /\
  match in_state t with
  | IDLE => baud_count_in t = 0 /\ (in_stream t = [] -> rxd t = 1)
  | START => 1 <= baud_count_in t < d /\ in_byte_progress t = 0 /\ in_stream t <> []
  | BITS_BAUD => 0 <= baud_count_in t < d /\ 1 <= in_byte_progress t <= 8 /\ in_stream t <> []
  | BITS => 1 <= in_byte_progress t < 8 /\ in_stream t <> []
  | STOP => 0 <= baud_count_in t < 2 * d
  | START_BAUD => False
  end.

Lemma tick_in_left d t : 2 <= d -> tx_ok d t -> 0 < left d t ->
  exists t', tick_in d t = Done t' /\ tx_ok d t' /\ left d t' = left d t - 1.
Proof.
  intros Hd (He & Hr & Hs) Hl. destruct t as [st n p q en r]. cbn [in_enable rxd] in *. subst en.
  destruct st; cbn [in_state baud_count_in in_byte_progress in_stream] in *; try done; unfold left in *; cbn [in_state in_stream] in *; cbn [tick_in].
  - destruct Hs as [-> Hq]. destruct q as [|b q]; [cbn in Hl; lia|]. eexists. split; [done|]. unfold tx_ok. cbn. split_and!; try done; lia || auto.
  - destruct Hs as (Hn & -> & Hq). destruct q as [|b q]; [done|]. destruct (Z.eqb_spec (n + 1) d).
    + cbn [head or_undef mbind outcome_bind]. eexists. split; [done|]. unfold tx_ok. cbn [in_enable rxd in_state baud_count_in in_byte_progress in_stream].
      rewrite set_bit_pin by (lia || done). split_and!; try done; [apply b2z_pin|lia..].
    + eexists. split; [done|]. unfold tx_ok. cbn [in_enable rxd in_state baud_count_in in_byte_progress in_stream]. split_and!; try done; lia.
  - destruct Hs as (Hp & Hq). destruct q as [|b q]; [done|]. cbn [head or_undef mbind outcome_bind].
    destruct (Z.gtb_spec d 1); [|lia]. eexists. split; [done|]. unfold tx_ok. cbn [in_enable rxd in_state baud_count_in in_byte_progress in_stream].
    rewrite set_bit_pin by (lia || done). split_and!; try done; [apply b2z_pin|lia..].
  - destruct Hs as (Hn & Hp & Hq). destruct q as [|b q]; [done|]. destruct (Z.eqb_spec (n + 1) d).
    + destruct (Z.eqb_spec p 8).
      * cbn [head or_undef mbind outcome_bind tail]. eexists. split; [done|]. unfold tx_ok, frame in *.
        cbn [in_enable rxd in_state baud_count_in in_byte_progress in_stream length] in *. split_and!; try done; lia.
      * eexists. split; [done|]. unfold tx_ok. cbn [in_enable rxd in_state baud_count_in in_byte_progress in_stream]. split_and!; try done; lia.
    + eexists. split; [done|]. unfold tx_ok. cbn [in_enable rxd in_state baud_count_in in_byte_progress in_stream]. split_and!; try done; lia.
  - destruct (Z.eqb_spec (n + 1) (2 * d)); eexists; (split; [done|]); unfold tx_ok;
      cbn [in_enable rxd in_state baud_count_in in_byte_progress in_stream]; split_and!; try done; lia || auto.
Qed.


Lemma queued_left d t : 2 <= d -> tx_ok d t -> in_stream t <> [] -> 2 * d < left d t.
Proof.
  intros Hd (_ & _ & Hs) Hq. assert (frame d <= frame d * Z.of_nat (length (in_stream t))).
  { destruct (in_stream t) as [|b q]; [done|]. cbn [length]. unfold frame. nia. }
  unfold left, frame in *. destruct (in_state t); nia.
Qed.

Lemma sending_left d t : 2 <= d -> tx_ok d t -> sending t = true -> 0 < left d t.
Proof.
  intros Hd Ht Hs. unfold sending in Hs. destruct (in_stream t) as [|b q] eqn:Eq.
  - destruct Ht as (_ & _ & Ht). unfold left. rewrite Eq in *. zb. destruct (in_state t); try done; cbn [length]; try lia.
    + destruct Ht as [_ Ht]. specialize (Ht eq_refl). lia.
    + by destruct Ht as (_ & _ & ?).
    + by destruct Ht as (_ & ?).
    + by destruct Ht as (_ & _ & ?).
  - apply queued_left in Ht; [lia|done|by rewrite Eq].
Qed.

Lemma left_nonneg d t : 2 <= d -> tx_ok d t -> 0 <= left d t.
Proof.
  intros Hd Ht. destruct (in_stream t) as [|b q] eqn:Eq; [|apply queued_left in Ht; [lia|done|by rewrite Eq]].
  destruct Ht as (_ & _ & Ht). unfold left. rewrite Eq. destruct (in_state t); cbn [length]; try lia;
    rewrite Eq in Ht; exfalso; naive_solver.
Qed.

(** The design never throws. *)
Hypothesis eval_total : forall t p ms, is_Some (eval t p ms).

Lemma eval_top_total s : exists s', eval_top s = Done s' /\ chipfront s' = chipfront s.
Proof using eval_total.
  unfold eval_top. destruct (eval_total (top s) (pins_of s) (mems s)) as [[[t o] ms] ->]. by eexists.
Qed.

Lemma cycle_total s : exists s', cycle s = Done s' /\ chipfront s' = chipfront s.
Proof using eval_total.
  unfold cycle. destruct (eval_top_total (advance (set_clk 1 s))) as (s1 & -> & E1). cbn [mbind outcome_bind].
  destruct (eval_top_total (advance (set_clk 0 (dump s1)))) as (s2 & -> & E2). cbn [mbind outcome_bind].
  eexists. split; [done|]. cbn. by rewrite E2.
Qed.

Lemma load_loop_ends d fuel : 2 <= d -> forall s, tx_ok d (chipfront s).1 -> left d (chipfront s).1 <= Z.of_nat fuel ->
  exists s' k, load_loop fuel d s = Done s' /\ run_in d k (chipfront s).1 = Done (chipfront s').1 /\
    sending (chipfront s').1 = false /\ tx_ok d (chipfront s').1 /\
    left d (chipfront s').1 = left d (chipfront s).1 - Z.of_nat k.
Proof using eval_total.
  intros Hd. induction fuel as [|fuel IH]; intros s Ht Hl; cbn [load_loop]; destruct (sending (chipfront s).1) eqn:Es.
  - apply (sending_left d) in Es; [lia|done|done].
  - exists s, 0%nat. split_and!; try done. lia.
  - pose proof (sending_left d _ Hd Ht Es) as Hp. destruct (cycle_total s) as (s1 & -> & E1). cbn [mbind outcome_bind].
    destruct (tick_in_left d _ Hd Ht Hp) as (t' & Et & Ht' & Hl'). unfold Uart.tick. rewrite E1, Et. cbn [mbind outcome_bind].
    destruct (IH (set_chip (t', tick_out d (txds s1).1 (chipfront s).2) s1)) as (s' & k & El & Er & Hs' & Ho & Hk); [done|cbn; lia|].
    exists s', (S k). split_and!; try done; [|cbn in Hk; lia]. cbn [run_in]. by rewrite Et.
  - exists s, 0%nat. split_and!; try done. lia.
Qed.

(** Loading a file over the serial line ends, whatever the design does: after at
    most [frame d] cycles for each byte the queue is empty and the line idle, and the
    transmitter has been clocked through every byte up to its stop bit, the two bit
    times of the last stop bit excepted. *)
Theorem loading_ends d q s : 2 <= d -> (chipfront s).1 = tx_init q ->
  exists s' k, load_loop (Z.to_nat (frame d * Z.of_nat (length q))) d s = Done s' /\
    in_stream (chipfront s').1 = [] /\ rxd (chipfront s').1 = 1 /\
    run_in d k (tx_init q) = Done (chipfront s').1 /\
    frame d * Z.of_nat (length q) - 2 * d <= Z.of_nat k <= frame d * Z.of_nat (length q).
Proof using eval_total.
  intros Hd Hq. assert (tx_ok d (tx_init q)) as Ht by (split_and!; try done; by right).
  destruct (load_loop_ends d (Z.to_nat (frame d * Z.of_nat (length q))) Hd s) as (s' & k & El & Er & Hs & Ho & Hk).
  { by rewrite Hq. }
  { rewrite Hq. unfold left. cbn [tx_init in_state in_stream]. unfold frame. lia. }
  rewrite Hq in *. exists s', k. unfold sending in Hs. destruct (in_stream (chipfront s').1) as [|x l] eqn:Eq; [|done].
  split_and!; try done.
  - zb. destruct Ho as (_ & [Hr|Hr] & _); [lia|done].
  - pose proof (left_nonneg d _ Hd Ho). change (left d (tx_init q)) with (frame d * Z.of_nat (length q)) in Hk.
    assert (left d (chipfront s').1 <= 2 * d); [|lia]. destruct Ho as (_ & _ & Ho). unfold left. rewrite Eq.
    cbn [length]. destruct (in_state _); try lia; rewrite Eq in Ho; exfalso; naive_solver.
  - pose proof (left_nonneg d _ Hd Ho). change (left d (tx_init q)) with (frame d * Z.of_nat (length q)) in Hk. lia.
Qed.

Lemma repeat_total n f : (forall s, exists s', f s = Done s') -> forall s, exists s', repeat_m n f s = Done s'.
Proof.
  intros Hf. induction n as [|n IH]; intros s; cbn [repeat_m]; [by exists s|].
  destruct (Hf s) as (s1 & ->). cbn [mbind outcome_bind]. apply IH.
Qed.

Lemma reset_cycle_total s : exists s', reset_cycle s = Done s'.
Proof using eval_total.
  unfold reset_cycle. destruct (eval_top_total (set_clk 0 s)) as (s1 & -> & E1). cbn [mbind outcome_bind].
  destruct (eval_top_total (set_clk 1 (advance (dump s1)))) as (s2 & -> & E2). cbn [mbind outcome_bind]. by eexists.
Qed.

(** The program never gets as far as sending the program to the chip: with valid
    arguments and a memory configuration that loads, it resets the chip, waits, and
    then reads a file name that was never set. *)
Theorem program_is_never_sent fuel files args ticks s o cfg f :
  chip_args args (mk_opts None None None) = Done o -> trace_opt o = Some f ->
  Startup.mem_ctrl_init W files (default chip_dram_file (dram_file o)) = Done cfg ->
  chip_main fuel files args ticks s = Undef.
Proof using eval_total.
  intros Ho Hf Hc. unfold chip_main. rewrite Ho. cbn [mbind outcome_bind]. rewrite Hf, Hc, bool_decide_false by done.
  rewrite andb_false_r. cbn [mbind outcome_bind]. unfold run_verilator. change (set_baud 14) with (@Done (Z * Z) (14, 16)).
  cbn [mbind outcome_bind]. destruct (repeat_total 50 reset_cycle reset_cycle_total s) as (s1 & ->). cbn [mbind outcome_bind].
  destruct (repeat_total 1000 cycle) with (s := set_clk 0 (set_rst false s1)) as (s2 & E2).
  { intros s'. destruct (cycle_total s') as (s'' & -> & _). by exists s''. }
  rewrite E2. done.
Qed.

End ChipSim.

(** ** Examples *)

Definition demo_eval (t : unit) (p : pins) (ms : list chan) : option (unit * (Z * Z) * list chan) :=
  Some (tt, (1, 1), ms).
Definition demo_start := start tt 0 (1, 1) ([] : list chan) demo_world.

Lemma demo_total t p ms : is_Some (demo_eval t p ms).
Proof. by eexists. Qed.

Lemma smallestpow2over_spec_witness :
  (exists j, smallestpow2over 64 5 = Done (2 ^ j) /\ 0 <= j <= 63 /\ 5 < 2 ^ j /\ forall i, 0 <= i -> 5 < 2 ^ i -> j <= i) /\
  smallestpow2over 5 (2 ^ 63) = Stuck.
Proof.
  split.
  - apply (smallestpow2over_spec 5); lia.
  - apply (smallestpow2over_spec (2 ^ 63)); lia.
Defined.

Lemma mem_set_get_witness : exists m, mem_set 64 5 7 [1; 2] = Done m /\ mem_get 64 5 m = Done (7, m) /\ zlookup m 1 = Some 2.
Proof.
  destruct (mem_set_get 5 7 [1; 2]) as (m & E & Eg & Hk); [lia|]. exists m. split_and!; [exact E|exact Eg|].
  rewrite (Hk 1); [reflexivity|cbn; lia|lia].
Defined.

Lemma loading_ends_witness :
  exists s' k, load_loop 100 demo_eval (Z.to_nat (frame 16 * 3)) 16 (set_chip (tx_init [65; 66; 10], rx_init) demo_start) = Done s' /\
    in_stream (chipfront s').1 = [] /\ rxd (chipfront s').1 = 1 /\
    run_in 16 k (tx_init [65; 66; 10]) = Done (chipfront s').1 /\ frame 16 * 3 - 2 * 16 <= Z.of_nat k <= frame 16 * 3.
Proof.
  apply (loading_ends 100 demo_eval demo_total 16 [65; 66; 10]); [lia|reflexivity].
Defined.

Definition demo_files (name : string) : option (list ascii) :=
  if String.eqb name "d.ini" then Some MemSys.default_ini else None.

Lemma program_is_never_sent_witness :
  chip_main 64 100 false demo_eval 0 demo_files ["-dramconfig"; "d.ini"; "-tracefile"; "p.mem"]%string (fun _ => 1%nat) demo_start = Undef.
Proof.
  apply (program_is_never_sent 64 100 false demo_eval demo_total 0 demo_files ["-dramconfig"; "d.ini"; "-tracefile"; "p.mem"]%string
    (fun _ => 1%nat) demo_start (mk_opts (Some "d.ini") (Some "p.mem") None)%string (mk_cfg 8 8 64 8) "p.mem"%string);
    [reflexivity|reflexivity|vm_compute; reflexivity].
Defined.

End ChipSim.
